(* ===== verification/_CoqProject ===== *)
-Q . S2P
Prelude.v
Table.v
Regex.v
Uuid.v
QueueSchema.v
QueueText.v
AlignmentGate.v
Runner.v
Intake.v
QueueSystem.v
ReviewJobs.v
DeviceAuth.v
PreviewBoots.v
ChannelInbox.v
Billing.v
Seats.v
Goals.v
CiReconcile.v
Policy.v
ClaimGate.v
Tx.v
RecordSchema.v
JsonText.v
Timeline.v
ChangeRecords.v
PrHead.v
PrDeliveries.v
PrHeadFacts.v
PrHistory.v
PrAuthority.v
Approvals.v
Contracts.v
ContractFacts.v
ContractHistory.v
McpTurns.v
McpFacts.v
Base64.v
JsonValue.v
GitTreeProof.v
GitTreeFacts.v
GoReceipt.v
DepSchema.v
DepWatches.v
WatchFacts.v
GoSumdb.v
GoSumdbFacts.v
DepUpgrades.v
UpgradeFacts.v
NpmRange.v
NpmFacts.v
DepProposal.v
ProposalFacts.v
ModelPool.v
ModelChoice.v
ModelFacts.v
ModelPrice.v
PriceFacts.v
Requirement.v
AlignmentBrief.v
BriefFacts.v
Investigations.v
InvestigationFacts.v
ProductBriefs.v
ProductBriefFacts.v
ContextPacks.v
Regeneration.v
RegenerationFacts.v
