(* ===== verification/Prelude.v ===== *)
(** * AgentRail: a verification library for the durable control plane

    AgentRail turns issues into runs of coding agents.  Its core is a set of
    durable work queues in Postgres, driven by the query modules of
    [packages/db-postgres/src/queries]: webhooks admit work, workers claim it,
    report on it and die, humans approve or deny it, and every rule of the
    program - what may run, how often it is retried, who owns it, when it is
    over - is a condition of one of these statements.  This library models
    those modules and proves the rules.

    ** The parts, and the code they model

    - [Prelude]: time, SQL's nullable comparisons, JavaScript's rounding and
      decimal text, the tactics.
    - [Table]: a table as a finite map from the primary key to the row, and one
      definition per SQL statement shape ([update_where], [update_row],
      [select_where], [insert_new], [order_by]).  The class [Claimable] is the
      claim statement that four tables share (UPDATE ... WHERE id = (SELECT ...
      ORDER BY ... LIMIT 1 FOR UPDATE SKIP LOCKED)); [ClaimableLaws] is what a
      table promises of it, and [claim_nextP] and [claim_many_NoDup] what every
      client gets.  [exclusive], [rows] and [updated] are the shared ways to
      state what a statement keeps.
    - [Regex]: JavaScript's backtracking regular expressions - leftmost match,
      greedy and lazy quantifiers, lookahead, word boundaries, captures.
    - [Uuid]: the text of a uuid and the value Postgres reads it as, for the
      columns that are compared with a text a caller sent.
    - [QueueSchema]: the rows of [schema/queue_entries.ts], [runs.ts],
      [queue_attempts.ts], [repositories.ts], [workspaces.ts], [connectors.ts],
      and the database of the queue as the record of these tables.
    - [QueueText]: the text [runner.ts] and [github_intake.ts] parse: repository
      slugs, pull-request identities, acceptance criteria, declared blockers,
      injection patterns.
    - [AlignmentGate]: [unmetBlockers], [unparkDependents] and the confirm, deny,
      revise and requeue operations on parked entries ([github_intake.ts]).
    - [Runner]: [runner.ts] - liveness, the stale-run sweep, [claimQueueEntry],
      [nextQueueTransition] and [recordRunnerResult] with its attempts log,
      dependency release and run mirror.
    - [Intake]: [github_intake.ts] - deterministic ids, the v2 screen with its
      admission ledger, the GitHub, Linear and onboarding admissions, the sweeps
      that find entries needing a brief.
    - [QueueSystem]: [Intake], [AlignmentGate] and [Runner] composed into one
      transition system; the properties of whole histories.
    - [ReviewJobs]: [review_jobs.ts], the reviewer's queue.
    - [DeviceAuth]: the API keys and device codes of [runner.ts], and the bearer
      authentication of the runner's routes.
    - [PreviewBoots]: [preview_boots.ts], the single-attempt boot queue.
    - [ChannelInbox]: [channel_inbox.ts], the chat message buffer.
    - [Billing]: [billing/pricing.ts], [wallet.ts], [stripe_events.ts] and
      [billing_accounts.ts], with the wallet block of the claim route.
    - [Seats]: [seats.ts] and the seat count of [billing_accounts.ts].
    - [Goals]: [queries/goals.ts] - the standing goals, their counters, stop
      conditions and audit trail.
    - [CiReconcile]: [apps/console/lib/ci-reconcile.ts] - the verdict on a run
      that GitHub's checks overlay on the page of runs.
    - [Policy]: the routing and execution policy a plan entitles to
      ([packages/billing-policy] and the routes that resolve it).
    - [ClaimGate]: the claim route as a whole - bearer, precedence of
      self-hosted runners, monthly budget, plan capacity, wallet, claim, and
      the notices sent once a period.
    - [Tx]: the monad of a database transaction, all or nothing; [RecordSchema]:
      the rows of [schema/change_records.ts]; [JsonText]: the JSON of the lists
      that ids hash.
    - [Timeline], [ChangeRecords]: the immutable events of a Change Record, and
      the record with its deterministic ids, merges and reads
      ([queries/change_records.ts]).
    - [PrHead], [PrDeliveries], [PrHeadFacts], [PrHistory], [PrAuthority]: the
      head of a record's pull request - attachment, signed deliveries,
      terminal events, reconciliation - with the review jobs and preview boots
      it controls: the operations, their effects as a case type, and histories.
    - [Approvals] ([queries/jace_sessions.ts]) and [Contracts],
      [ContractFacts], [ContractHistory]: the approvals a human decides, the
      Acceptance Contracts they confirm, and both interleaved.
    - [McpTurns], [McpFacts]: the messages of an Acceptance Intake and the
      single delivery of an MCP turn to the agent.
    - [Base64], [JsonValue]: Node's base64 and the reading of untyped values,
      shared by the custody modules.
    - [GitTreeProof], [GitTreeFacts]: [exact-git-tree-path-proof.ts], the
      verifier of inclusion proofs over native Git trees, and its soundness.
    - [DepSchema], [GoReceipt], [DepWatches], [WatchFacts]: the dependency
      watches and their observation ledger ([queries/dependency_watches.ts]).
    - [GoSumdb], [GoSumdbFacts]: custody of the notes of the Go checksum
      database ([queries/go_sumdb_note_custody.ts]).
    - [DepUpgrades], [UpgradeFacts]: the contracts between an observed upgrade
      and its approval ([queries/dependency_upgrade_contracts.ts]).
    - [NpmRange], [NpmFacts]: npm versions, their precedence and ranges;
      [DepProposal], [ProposalFacts]: the draft Change Record made of an observed
      upgrade and its reader ([dependency_observation_acceptance_records.ts],
      [dependency_draft_proposal_detail.ts]).
    - [ModelPool]: the task classifier, the candidate models and their seats,
      eligibility, seeds, overrides and flags ([apps/console/lib/alignment],
      one file each); [ModelChoice]: the outcomes of runs
      ([queries/run_outcomes.ts]), the selector that learns from them
      ([alignment/selector.ts]) and its entitlement ([alignment-brief.ts]);
      [ModelFacts]: what holds of both.
    - [ModelPrice], [PriceFacts]: [Number] of a JSON value, the gateway's models
      ([alignment/openrouter-normalize.ts], [gateway-catalog.ts]), the price of a
      seat ([resolve-price.ts]) and the estimate ([estimate.ts]).
    - [Requirement]: the signals that refuse a brief
      ([alignment/requirement-decision.ts]).
    - [AlignmentBrief], [BriefFacts]: the brief - composed and read back
      ([alignment-brief.ts]), posted, revised and recovered
      ([alignment-reconciler.ts]), decided ([approval-decision.ts]), and attached
      to an issue request (the enrichment of [runner/approvals/route.ts]).
    - [Investigations], [InvestigationFacts]: the record of an incident - items,
      evidence, verdicts, lessons, links ([queries/investigations.ts]).
    - [ProductBriefs], [ProductBriefFacts]: what is understood of an idea, item
      by item, and its readiness ([queries/briefs.ts]).
    - [ContextPacks]: the source snapshots and compiled Context Packs of a
      record's head, with their generations; [Regeneration]: the executions that
      replace a Pack, from a human's request to the executor
      ([queries/change_records.ts], [acceptance-context-pack-regeneration-
      execution.ts]); [RegenerationFacts]: the machine they implement.

    They interact as the code does: an admission writes [queue_entries], which
    the claim of [Runner] reads; a green result calls [unparkDependents], which
    releases entries that the next claim hands out; [ReviewJobs] and
    [PreviewBoots] use the deterministic uuid of [Intake]; the wallet block of
    [Billing] prices the entry at the head of the queue before the claim of
    [Runner] runs; [ClaimGate] composes the key of [DeviceAuth], the plan of
    [Policy], the wallet of [Billing] and the claim of [Runner] into the route a
    runner polls.  A change of head in [PrHead] supersedes the review jobs and
    tears down the boots that [ReviewJobs] and [PreviewBoots] run; a resolution
    of [Approvals] confirms a contract of [Contracts], whose record [PrHead]
    then accepts a pull request for; the observations of [DepWatches] are the
    custody [GoSumdb] asks of a note, the evidence a decision of [DepUpgrades]
    rests on, and the source of a draft of [DepProposal], which [ContractHistory]
    then carries.  The outcomes of runs are what [ModelChoice] selects from,
    within the pool that the plan of [Policy] filters; the selection, its price
    and the decision of [Requirement] make the brief, which is an approval of
    [Approvals], whose decision writes to the entry through the confirm and deny
    of [AlignmentGate].  [ProductBriefs] shares the authors of [Investigations]
    and its way of patching.  A regeneration of [Regeneration] stands on the
    head [PrHead] keeps and the contract [Contracts] confirms, writes its request
    and its outcome to the [Timeline], and its payloads through [ContextPacks].
    Definitions keep the source's names; a record field
    [qe_x] is the column [x] of [queue_entries] ([rj_], [pb_], [ci_], [ak_],
    [dc_], [wt_], [se_], [ba_], [st_], [go_], [ge_] likewise for the other tables
    of the queue and of billing; [cr_], [ce_], [ac_], [cd_], [in_], [im_], [mt_],
    [ap_] for Change Records, their events, contracts, dispatches, intakes,
    messages, turns and approvals; [dw_], [ob_], [tn_], [uc_], [ue_] for
    watches, observations, notes, upgrade contracts and their events; [pc_],
    [cu_], [nv_] for proposal candidates, custodies and npm versions; [ro_],
    [os_] for run outcomes and their statistics, [cm_] for listed models, [ss_]
    for sessions, [be_], [ab_], [cb_] for estimates and the two kinds of brief;
    [pp_], [pw_], [ps_] for the arguments, the outside and the state of a post;
    [iv_], [it_], [il_], [ii_] for investigations, their items, links and issue
    links, [bf_], [bt_], [bl_] for product briefs, their items and links to work,
    [ui_], [pi_], [rv_], [ub_], [pb_], [uh_], [ch_] for what callers give;
    [sn_], [sr_], [pk_], [kr_], [ln_], [xb_], [ex_] for snapshots, Packs, their
    rows, lineages, bindings and executions, [ri_], [ty_], [le_], [co_], [ou_]
    for the requests, leases, completions and outside of a regeneration).

    ** How the code is modelled

    - A handler is a function from its arguments, the clock and the database to
      its result and the database after it; [None] or an error constructor is an
      exception or an error result.  Steps that the source runs one after the
      other are composed in that order.
    - A SQL statement is atomic.  Where the source reads in one statement and
      writes in another, the model does the same within the handler; handlers do
      not interleave, except where a theorem says so ([overlapping_claims] of
      [ReviewJobs] evaluates two claims on one snapshot) or where the histories
      split a handler: the confirmation of [ContractHistory] and the decisions
      of [UpgradeFacts] take a step for their reads and one for their writes,
      and the event that follows a write comes later or never.  The histories
      of [InvestigationFacts] let every handler write on reads of an earlier
      database; those of [ProductBriefFacts] do not.  An advisory
      lock held by a transaction makes the transaction one step, and a
      transaction that throws leaves the database as it was.
    - Foreign keys, unique indexes and checks that a statement can violate are
      errors of the statement.  Deletions that cascade from workspaces,
      repositories and records are left out of the histories; the merge of two
      records, which moves contracts, is left out of those of contracts.
    - A key of type uuid is the text Postgres writes for it, and an id that is
      an argument of an operation is such a text.  The ids in the batches of
      [patchInvestigationItems] and [patchBriefItems] are the exception: they are
      any text a caller sends, which the Map of the code compares as it is and
      SQL by the uuid it stands for ([uuid_in], after the manual's description of
      the type), or throws.
    - A JSON value of a [jsonb] column is taken up to the order of its keys; a
      value of type unknown is a [json] whose last field of a name counts.
    - [now] is the database clock in microseconds; [Date.now()] of the same call
      is a separate argument where a column is stamped with it.  Random numbers,
      random bytes and generated ids are arguments.
    - Integers are [Z] (issue numbers [N]); the columns' 32-bit overflow errors
      are modelled where money is stored ([int4] of [Billing]) and not elsewhere.  Money and jitter are exact rationals where the source
      uses floating point; [power()] is exact, so the overflow of a double after
      more than a thousand attempts is not modelled.
    - Text is a string of 8-bit characters: regular expressions see bytes, not
      UTF-16 units, and captures are not reset between iterations of a group.
      In the custody modules a text is its UTF-8 bytes, its length in UTF-16
      units is computed from them, and lone surrogates do not occur.
    - The installation token and the responses of GitHub are parameters of
      [CiReconcile]: what a fetch answers for each pull request.  The calendar
      of [ClaimGate] counts months from January 1970.
    - sha1, sha256, the URL parser, the text search of Postgres and the Unicode
      case folding are parameters.  [entryId_uuid] assumes
      that sha1 returns twenty bytes; the witnesses instantiate the parameters
      with concrete functions.
    - What makes the payload of a snapshot or a Pack admissible, and what of the
      packets, criteria, Wiki and proofs it has to agree with, is the interface
      [ContextCustody]: the theorems of [RegenerationFacts] hold for every
      instance.  In the histories of regenerations any change of the Change
      Records may happen between two steps; a transaction whose statements read
      the time several times reads it once.
    - The draws of [Math.random] are arguments of the selector, and
      [localeCompare] is a parameter of the catalogue.  Letters of keywords, flags
      and criteria are folded in ASCII.  A number that is printed is printed for
      at most six decimals.  A fetch of the catalogue ends in a step of its own;
      what a read, an insert or a send answers when a brief is posted is a field
      of [PostWorld], so that every branch of the post is a case.
    - [console.error], and the catch blocks that only swallow an error, have no
      counterpart.  [Number(s)] is modelled on decimal digits; ids whose suffix
      is another numeral (hexadecimal, exponent) are outside the model.

    Fuel: [Regex.run] gives repetition the length of the remaining input plus
    one, and [run_rep_fuel] shows that more changes nothing;
    [claimReviewJob] gives its recursion one call more than there are queued
    jobs, and [claimReviewJob_total] shows that it always answers; [month_of]
    searches as many months as there are days, and [utc_month_spec] shows that
    it finds the month of every instant from 1970 on; the loop of
    [parseNativeTree] gets the length of the body, and every entry it reads
    takes at least twenty-three bytes.

    ** What is proved

    - Safety of the main queue, over all histories: nothing unsanctioned reaches
      a runner ([claims_are_sanctioned]), and a parked issue that needs a budget
      leaves the park with one ([alignment_gate]); every unit of retry
      budget is accounted for ([budget_accounting]); an entry that started is
      never parked again ([never_parked_again]).
    - Equivalence: the SQL of [recordRunnerResult] commits what the specification
      function [nextQueueTransition] decides ([recordRunnerResult_lockstep]), and
      [confirmAlignmentBrief]'s SQL releases exactly when [unmetBlockers] is empty
      ([confirmAlignmentBrief_lockstep]).
    - Functional correctness of each operation: the claim
      ([claimQueueEntry_correct]), the release of dependents
      ([unparkDependents_effect] and its two directions), requeue, deny and
      revise, admission on every branch ([enqueueGithubIssue_admits],
      [enqueueGithubIssue_once], [enqueueOnboard_correct]), the sweeps.
    - Liveness under crashes: a pinging runner keeps its entry
      ([liveness_protects]), a silent one loses it ([silent_runner_reclaimed]).
    - The admission ledger as an abstract machine: at most the limit of a writer
      per window and no content twice ([rate_limit_enforced],
      [duplicates_never_admitted]).
    - The other queues: one running review per workspace, final states, bounded
      attempts and a terminating claim ([ReviewJobs]); a boot claimed once, by
      one worker, moving only forward ([PreviewBoots]); one turn per
      conversation, bounded retries, idempotent ingest and the fairness cap
      ([ChannelInbox]); a device code exchanged once, and the whole device flow
      ([DeviceAuth]).
    - Money and seats: a balance moves by exactly the posted credits and
      charges, each event and run at most once ([wallet_accounting],
      [stripe_event_once]); the wallet admission to the cent
      ([wallet_admission_exact]); one active seat per person and account, and a
      link that frees capacity ([one_seat_per_person],
      [collapse_frees_capacity]).
    - The claim route: it answers with work exactly when every gate passes, and
      a refusal leaves the queue as it was ([claim_route_exact]); each notice is
      sent at most once a period ([notices_once]); the budget is summed over the
      calendar month ([budget_window_is_the_month]); a plan's routing
      restrictions hold whatever the policy says ([routing_entitlement]), and a
      failed lookup opens them ([resolver_fails_open]).
    - Goals: an ended goal stays ended ([goal_never_reopens]), open issues stay
      under the leash when filings do not overlap ([goal_leash]), the outcomes a
      goal can absorb are bounded ([goal_outcomes_bounded]), and the counters
      are those of the audit trail ([audit_trail_agrees]).
    - The overlay of CI: exactly the rows that qualify change, each to what its
      checks say ([ci_overlay_exact]).
    - Change Records: a batch of events is all or nothing and its retry finds
      it again ([event_batch_atomic], [event_batch_retry]); finding a record
      settles on one ([findOrCreate_settles]); the table's constraints hold by
      the program alone ([records_well_typed]).
    - Heads: only the current head's review and boot are under way
      ([only_current_head_works]), a delivery acts once
      ([delivery_acts_once]), a reconciliation is a compare-and-swap
      ([reconcile_compare_and_swap]), a cycle's name determines it
      ([cycle_name_determines]).
    - Contracts and approvals: dense versions, one confirmed, with its approval
      ([contracts_sound], [resolution_exact], [contract_never_edited]); an
      approval decided once ([approval_resolves_once]); an intake drafted once
      ([intake_drafted_once]).
    - MCP turns: delivered at most once ([turn_claimed_once]), typed by their
      state ([turns_well_typed]), their replies read back ([reply_is_read]).
    - Git tree proofs: what is accepted is in every honest store
      ([accepted_paths_exist]), what Git writes is read back
      ([parse_git_tree]), an identity names one proof ([identity_exact]), the
      bounds ([accepted_is_bounded]).
    - Dependencies: admitted receipts ([admitted_receipt]), an append-only
      ledger ([watch_ledger_sound], [ledger_append_only]), a claimed watch is
      not claimed again before an observation ([claimed_until_observed]); the
      notes refine an abstract log with compare-and-swap ([retain_refines],
      [notes_are_chains]); decisions rest on evidence and are made once
      ([decisions_rest_on_evidence], [contract_decided_once]).
    - Proposals: versions are totally ordered and read back as written
      ([version_order], [version_roundtrip]), caret and tilde ranges are the
      intervals npm documents ([caret_tilde_exact]), a prerelease only where the
      range names its core ([prerelease_opt_in]); an identity names one custody
      ([custody_identity_exact]); the draft is what the newest observation says,
      replays, reads back, and no approval confirms it ([draft_from_newest],
      [draft_replayed], [draft_reads_back], [proposal_never_confirmed]).
    - Models: the classifier is a whole-word test ([classify_exact]); statistics
      are those of outcomes recorded once ([stats_are_outcomes]); a selection
      never throws and stays in the pool ([selection_within_pool]) and in the
      plan ([brief_model_entitled]), exploits the best row that beats the seed
      ([exploit_is_best]), and explores exactly the least tried models
      ([exploration_least_tried]); an override is accepted exactly when it is
      eligible and not the verifier ([override_exact]).
    - Prices: a price is a listed one or the seat's own ([price_is_listed]); an
      estimate is whole cents, monotone in the task at one seat and never zero for
      the table ([estimate_bounds]).
    - Briefs: a requirement is refused by its first signal ([decision_exact]);
      what is stored reads back ([brief_reads_back]); what is approved is what
      is enforced ([approved_brief_enforced]); a request is asked once
      ([brief_asked_once]); the recovery settles for good ([reconcile_settles]); the
      budget and model of a request are the server's estimate ([no_forged_brief]).
    - Investigations: evidence stays as captured ([evidence_tamper_evident]), a
      human's words stand ([human_words_stand]), a root cause passed its gate
      ([verdict_gated], [recordVerdict_exact]), a conclusion has references where
      saves name items plainly and nothing interleaves ([conclusions_grounded]), a
      lesson is promoted once
      ([lesson_promoted_once]), an incident has one record
      ([one_record_per_incident]).
    - Product briefs, where nothing interleaves and saves name items plainly:
      ready means answered ([ready_when_answered]), whatever the label ([label_never_readies]); an unknown is never resolved
      ([unknown_never_resolved]) and leaves by an answer or a deletion
      ([unknown_leaves_answered]); human edits win ([human_items_locked]); a save
      is a delta ([patch_is_delta]).
    - Regenerations: the statements implement an abstract machine
      ([regeneration_implements_machine]) and keep the schema's checks and keys
      by themselves ([execution_table_consistent]); an execution is claimed once
      and final once it has ended ([execution_claimed_once]); a completion
      exchanges the two generations or changes none ([completion_exchanges]).
    - Text: parsed identities and blockers ([QueueText]).
    - Where the code and its comments disagree, a closed theorem shows the
      behaviour: [unparkDependents_crosses_repositories], [old_ping_double_claim],
      [late_failure_resurrects], [guardrail_park_released],
      [acceptance_gate_rejects_crlf], [overlapping_claims_exceed_bound],
      [retry_reorders_conversation], [stamp_exceeds_cap],
      [price_below_flat_fees], [admission_prices_another_entry],
      [concurrent_filing_overruns_leash], [late_outcome_splits_audit],
      [pause_rewrites_an_ended_goal], [retry_rolls_watch_back],
      [managed_candidate_never_decided], [contract_born_approved],
      [bom_name_accepted],
      [mode_high_bit_read], [proposals_invisible_to_contracts],
      [seed_with_data_misreported], [override_beyond_catalog],
      [null_price_is_free], [estimate_falls_across_types],
      [unrelated_criteria_conflict],
      [session_change_asks_twice], [denied_recovery_silent],
      [forged_requirement_recorded], [repeated_line_evades_gate],
      [uppercase_id_evades_gate], [old_read_evades_gate], [model_confirms_verdict],
      [supported_without_mechanism], [root_cause_without_evidence],
      [verdict_window_open], [saved_lesson_promoted_again],
      [repeated_line_resolves_unknown], [uppercase_id_resolves_unknown],
      [uppercase_id_overwrites_human], [human_edit_overwritten],
      [open_item_resolution], [retry_blocked_by_provisional].

    ** What is not modelled

    Workspace grants and costs; the Stripe webhook route; work status; of the
    Change Records, the payloads of context packs and their lists, the evidence
    artifacts, the criterion bundles, the correction packets with their dispatch
    and the summaries; the routes and tools in front of investigations
    and product briefs; judgment, review and guardrail events; the messages of
    Jace, and its sessions beyond the one a brief is posted to; the text of the messages; the
    guardrails of chat turns, and the console's other libraries and pages; the
    MCP server, the GitHub App and the analytics store.  Pages, network
    clients, the Python factory and the agent's prompts are out of scope. *)

From stdpp Require Export base tactics list gmap strings option sets.
From Stdlib Require Import QArith Qround DecimalString DecimalN Ascii.
From Stdlib Require Export ZArith Lia.

Set Default Proof Using "Type".

(** ** Scope and time

    Instants and intervals are integers counting microseconds, the resolution
    of the database clock.  JavaScript instants are whole milliseconds. *)

Declare Scope agentrail_scope.
Delimit Scope agentrail_scope with ar.
#[global] Open Scope agentrail_scope.

Definition milliseconds (n : Z) : Z := (n * 1000)%Z.
Definition seconds (n : Z) : Z := milliseconds (n * 1000)%Z.
Definition minutes (n : Z) : Z := seconds (n * 60)%Z.

(** SQL's three-valued comparison with a nullable column: a comparison with
    NULL is not true, so the row is not selected. *)
Definition sql_lt (x : option Z) (y : Z) : bool :=
  match x with Some v => (v <? y)%Z | None => false end.
Definition sql_eq `{EqDecision A} (x : option A) (y : A) : bool :=
  bool_decide (x = Some y).
Definition is_null {A} (x : option A) : bool :=
  match x with Some _ => false | None => true end.

(** SQL's [COALESCE(x, y)] on two nullable values. *)
Definition coalesce {A} (x y : option A) : option A :=
  match x with Some _ => x | None => y end.

(** The text of a value that is present and not empty, JavaScript's truth of it. *)
Definition truthy_text (s : option string) : option string :=
  match s with Some EmptyString => None | _ => s end.

(** [a ≡? b] is the boolean equality test of the source's [===] and SQL's [=]
    on non-null values. *)
Notation "a ≡? b" := (bool_decide (a = b)) (at level 70, no associativity) : agentrail_scope.
Notation "a ≢? b" := (negb (bool_decide (a = b))) (at level 70, no associativity) : agentrail_scope.

(** ** Rounding of exact rationals to integers *)

(** JavaScript's [Math.round]: the nearest integer, ties towards plus infinity. *)
Definition math_round (q : Q) : Z := Qfloor (q + (1 # 2))%Q.

(** What a column of type numeric with two decimals makes of a number, in
    cents: the nearest, ties away from zero. *)
Definition numeric_cents (q : Q) : Z :=
  let c := (q * 100)%Q in
  if Qle_bool 0 c then math_round c else (- math_round (- c))%Z.

(** JavaScript's [Math.floor]. *)
Definition math_floor (q : Q) : Z := Qfloor q.

Lemma math_floor_Z (z : Z) : math_floor (inject_Z z) = z.
Proof. apply Qfloor_Z. Qed.

Lemma math_round_Z (z : Z) : math_round (inject_Z z) = z.
Proof.
  unfold math_round, Qfloor, Qplus, inject_Z. cbn.
  Z.to_euclidean_division_equations. lia.
Qed.

(** ** Decimal text of natural numbers ([`${n}`] and [Number(s)]) *)

Definition show_N (n : N) : string := NilEmpty.string_of_uint (N.to_uint n).

(** [Number(s)] on the strings of decimal digits, the empty string included
    (it is 0 in JavaScript); [None] stands for the other results. *)
Definition read_N (s : string) : option N :=
  N.of_uint <$> NilEmpty.uint_of_string s.

Lemma read_show_N n : read_N (show_N n) = Some n.
Proof.
  unfold read_N, show_N. rewrite NilEmpty.usu. simpl.
  by rewrite DecimalN.Unsigned.of_to.
Qed.

#[global] Instance show_N_inj : Inj (=) (=) show_N.
Proof.
  intros n m H. assert (Some n = Some m) as [=]; [|done].
  by rewrite <- !read_show_N, H.
Qed.

(** ** Splitting on the last occurrence of a character *)

Definition hash_char : ascii := "#"%char.

(** [contains_char c s] is [s.includes(c)]. *)
Fixpoint contains_char (c : ascii) (s : string) : bool :=
  match s with
  | EmptyString => false
  | String x s' => (x ≡? c) || contains_char c s'
  end.

(** [split_last c s] is [(s.slice(0, i), s.slice(i + 1))] for
    [i = s.lastIndexOf(c)], or [None] when the index is [-1]. *)
Fixpoint split_last (c : ascii) (s : string) : option (string * string) :=
  match s with
  | EmptyString => None
  | String x s' =>
      match split_last c s' with
      | Some (a, b) => Some (String x a, b)
      | None => if x ≡? c then Some (EmptyString, s') else None
      end
  end.

(** [s.split(c).pop()]: the text after the last [c], or all of [s]. *)
Definition last_segment (c : ascii) (s : string) : string :=
  match split_last c s with Some (_, b) => b | None => s end.

Lemma split_last_none c s : contains_char c s = false → split_last c s = None.
Proof.
  induction s as [|x s IH]; [done|]; simpl.
  intros [Hx Hs]%orb_false_iff. by rewrite (IH Hs), Hx.
Qed.

Lemma split_last_app c a b :
  contains_char c b = false →
  split_last c (a +:+ String c b) = Some (a, b).
Proof.
  intros Hb. induction a as [|x a IH]; simpl.
  - rewrite (split_last_none _ _ Hb). by rewrite bool_decide_eq_true_2.
  - by rewrite IH.
Qed.

Lemma last_segment_app c a b :
  contains_char c b = false → last_segment c (a +:+ String c b) = b.
Proof. intros Hb. unfold last_segment. by rewrite split_last_app. Qed.

Lemma show_N_no_hash n : contains_char hash_char (show_N n) = false.
Proof. unfold show_N. induction (N.to_uint n); simpl; auto. Qed.

(** [xs.join(sep)]. *)
Fixpoint join_strings (sep : string) (xs : list string) : string :=
  match xs with
  | [] => EmptyString
  | [x] => x
  | x :: xs' => x +:+ sep +:+ join_strings sep xs'
  end.

(** [s.startsWith(p)]. *)
Definition starts_with (p s : string) : bool := String.prefix p s.

(** ** Lists *)

Lemma filter_ext_in {A} (P Q : A → Prop) `{!∀ x, Decision (P x)} `{!∀ x, Decision (Q x)} (l : list A) :
  (∀ x, x ∈ l → P x ↔ Q x) → filter P l = filter Q l.
Proof.
  induction l as [|x l IH]; [done|]. intros Heq.
  assert (Hx := Heq x ltac:(set_solver)).
  rewrite !filter_cons, IH by set_solver.
  repeat case_decide; naive_solver.
Qed.

Lemma bool_iff (b c : bool) : (b = true ↔ c = true) → b = c.
Proof. destruct b, c; naive_solver. Qed.

(** ** Tactics and hints *)

Create HintDb agentrail discriminated.

(** Turn boolean facts about the tests the handlers use into propositions. *)
Ltac bool_step :=
  match goal with
  | H : (_ && _) = true |- _ => apply andb_true_iff in H as [? ?]
  | H : (_ || _) = false |- _ => apply orb_false_iff in H as [? ?]
  | H : negb _ = true |- _ => apply negb_true_iff in H
  | H : negb _ = false |- _ => apply negb_false_iff in H
  | H : bool_decide _ = true |- _ => apply bool_decide_eq_true in H
  | H : bool_decide _ = false |- _ => apply bool_decide_eq_false in H
  | H : (_ <? _)%Z = true |- _ => apply Z.ltb_lt in H
  | H : (_ <? _)%Z = false |- _ => apply Z.ltb_ge in H
  | H : (_ <=? _)%Z = true |- _ => apply Z.leb_le in H
  | H : (_ <=? _)%Z = false |- _ => apply Z.leb_gt in H
  end.
Ltac bools := repeat bool_step.

(** Case analysis on the innermost test of the goal or of a hypothesis. *)
Ltac cases :=
  repeat (case_match || case_bool_decide); simplify_eq/=; try done.
