(* ===== verification/Table.v ===== *)
(** * Table: the SQL statements the handlers issue, over finite maps

    A table is a finite map from the primary key (a uuid, as text) to the row.
    Each statement is atomic, as a single SQL statement is. *)

From S2P Require Import Prelude.
From stdpp Require Import sorting.
Open Scope Z_scope.

Section Statements.
Context {A : Type}.
Implicit Types (t : gmap string A) (p : string → A → bool) (f : A → A).

(** [UPDATE t SET f WHERE p] *)
Definition update_where p f t : gmap string A :=
  map_imap (λ k r, Some (if p k r then f r else r)) t.

(** [UPDATE t SET f WHERE id = k AND p RETURNING *] *)
Definition update_row (k : string) (p : A → bool) f t : option A * gmap string A :=
  match t !! k with
  | Some r => if p r then (Some (f r), <[k := f r]> t) else (None, t)
  | None => (None, t)
  end.

(** [SELECT * FROM t WHERE p] *)
Definition select_where p t : list (string * A) :=
  List.filter (λ kr, p kr.1 kr.2) (map_to_list t).

(** [SELECT count( * ) FROM t WHERE p] *)
Definition count_where p t : nat := length (select_where p t).

(** [INSERT INTO t VALUES r ON CONFLICT (id) DO NOTHING RETURNING id]; the
    boolean says whether a row came back. *)
Definition insert_new (k : string) (r : A) t : bool * gmap string A :=
  match t !! k with
  | Some _ => (false, t)
  | None => (true, <[k := r]> t)
  end.

(** [ORDER BY key ASC LIMIT 1] on a list of rows.  SQL leaves the choice
    among rows with equal keys open; this takes the first. *)
Fixpoint oldest (key : A → Z) (l : list (string * A)) : option (string * A) :=
  match l with
  | [] => None
  | kr :: l' =>
      match oldest key l' with
      | Some kr' => if key kr.2 <=? key kr'.2 then Some kr else Some kr'
      | None => Some kr
      end
  end.

Lemma lookup_update_where p f t k :
  update_where p f t !! k = (λ r, if p k r then f r else r) <$> t !! k.
Proof. unfold update_where. rewrite map_lookup_imap. by destruct (t !! k). Qed.

Lemma update_where_id p f t :
  (∀ k r, t !! k = Some r → p k r = false) → update_where p f t = t.
Proof.
  intros Hp. apply map_eq. intros k. rewrite lookup_update_where.
  destruct (t !! k) as [r|] eqn:E; [|done]. simpl. by rewrite (Hp k r).
Qed.

Lemma elem_of_select_where p t k r :
  (k, r) ∈ select_where p t ↔ t !! k = Some r ∧ p k r = true.
Proof.
  unfold select_where. rewrite list_elem_of_In, filter_In, <- list_elem_of_In.
  by rewrite elem_of_map_to_list.
Qed.

Lemma oldest_None key l : oldest key l = None ↔ l = [].
Proof.
  destruct l as [|kr l]; simpl; [done|].
  destruct (oldest key l) as [kr'|]; [destruct (_ <=? _)|]; done.
Qed.

Lemma oldest_Some key l k r :
  oldest key l = Some (k, r) →
  (k, r) ∈ l ∧ ∀ k' r', (k', r') ∈ l → key r ≤ key r'.
Proof.
  revert k r. induction l as [|[k0 r0] l IH]; intros k r; simpl; [done|].
  destruct (oldest key l) as [[k1 r1]|] eqn:E.
  - destruct (IH _ _ eq_refl) as [Hin Hmin]. simpl.
    destruct (Z.leb_spec (key r0) (key r1)); intros [= <- <-];
      (split; [set_solver|]); intros k' r' H';
      apply elem_of_cons in H' as [H'|H']; simplify_eq; try lia;
      specialize (Hmin _ _ H'); lia.
  - intros [= <- <-]. apply oldest_None in E as ->.
    split; [set_solver|]. intros k' r' H. set_unfold in H. naive_solver lia.
Qed.
End Statements.

Lemma length_filter_Permutation {A} (f : A → bool) (l l' : list A) :
  l ≡ₚ l' → length (List.filter f l) = length (List.filter f l').
Proof. induction 1 as [|x l l' _ IH|x y l|l1 l2 l3 _ IH1 _ IH2]; simpl; repeat case_match; simpl; lia. Qed.

Lemma count_where_insert {A} (p : string → A → bool) (t : gmap string A) k r :
  t !! k = None →
  count_where p (<[k := r]> t) = ((if p k r then 1 else 0) + count_where p t)%nat.
Proof.
  intros Hk. unfold count_where, select_where.
  rewrite (length_filter_Permutation _ _ _ (map_to_list_insert t k r Hk)). simpl.
  by destruct (p k r).
Qed.

(** Replacing a counted row by one that is not counted. *)
Lemma count_where_drop {A} (p : string → A → bool) (t : gmap string A) k r r' :
  t !! k = Some r → p k r = true → p k r' = false →
  count_where p t = S (count_where p (<[k := r']> t)).
Proof.
  intros Hk Hp Hp'. rewrite <- (insert_delete_id t k r Hk) at 1.
  rewrite <- (insert_delete_eq t k r').
  rewrite !count_where_insert by apply lookup_delete_eq. by rewrite Hp, Hp'.
Qed.

(** [ORDER BY key ASC] and [ORDER BY key ASC LIMIT n] *)
Definition earlier {A} (key : A → Z) (x y : string * A) : Prop := key x.2 ≤ key y.2.
#[export] Instance earlier_dec {A} (key : A → Z) x y : Decision (earlier key x y).
Proof. unfold earlier. apply _. Defined.

Definition order_by {A} (key : A → Z) (l : list (string * A)) : list (string * A) :=
  merge_sort (earlier key) l.
Definition order_limit {A} (key : A → Z) (limit : nat) (l : list (string * A))
    : list (string * A) := take limit (order_by key l).

Lemma elem_of_page {A} (key : A → Z) limit l x : x ∈ order_limit key limit l → x ∈ l.
Proof.
  intros (i & Hi & _)%elem_of_take. apply list_elem_of_lookup_2 in Hi.
  unfold order_by in Hi. by rewrite merge_sort_Permutation in Hi.
Qed.

(** [ORDER BY key DESC LIMIT 1] *)
Definition newest {A} (key : A → Z) (l : list (string * A)) : option (string * A) :=
  oldest (λ r, - key r) l.

(** [UPDATE ... WHERE id = k AND p]: what it returns and what it leaves. *)
Section UpdateRow.
Context {A : Type} (p : A → bool) (f : A → A).
Implicit Types (t : gmap string A) (r : A).

Inductive update_row_spec (k : string) t : option A * gmap string A → Prop :=
| update_row_hit r : t !! k = Some r → p r = true →
    update_row_spec k t (Some (f r), <[k := f r]> t)
| update_row_miss : (∀ r, t !! k = Some r → p r = false) →
    update_row_spec k t (None, t).

Lemma update_rowP k t : update_row_spec k t (update_row k p f t).
Proof.
  unfold update_row. destruct (t !! k) as [r|] eqn:E.
  - destruct (p r) eqn:P; constructor; naive_solver.
  - constructor. naive_solver.
Qed.

Lemma update_row_other k k' t : k ≠ k' → (update_row k p f t).2 !! k' = t !! k'.
Proof. intros H. destruct (update_rowP k t); simpl; [by rewrite lookup_insert_ne|done]. Qed.
Lemma update_row_none k k' t : t !! k' = None → (update_row k p f t).2 !! k' = None.
Proof. intros H. destruct (update_rowP k t) as [r Hk _|_]; simpl; [rewrite lookup_insert_ne; congruence|done]. Qed.
End UpdateRow.

(** ** Statements that miss a row, and invariants of every row *)
Section Miss.
Context {A : Type}.
Implicit Types (t : gmap string A) (r : A) (f : A → A).

Lemma update_where_skips (p : string → A → bool) f t k r :
  t !! k = Some r → p k r = false → update_where p f t !! k = Some r.
Proof. intros Hk Hp. rewrite lookup_update_where, Hk. simpl. by rewrite Hp. Qed.

Lemma update_row_skips (p : A → bool) f k' t k r :
  t !! k = Some r → p r = false → (update_row k' p f t).2 !! k = Some r.
Proof.
  intros Hk Hp. destruct (update_rowP p f k' t) as [r' Hk' Hp'|_]; simpl; [|done].
  rewrite lookup_insert_ne; [done|]. intros ->. congruence.
Qed.

Lemma Forall_update_where (P Q : A → Prop) (p : string → A → bool) f t :
  map_Forall (λ _ r, P r) t →
  (∀ k r, P r → p k r = true → Q (f r)) → (∀ k r, P r → p k r = false → Q r) →
  map_Forall (λ _ r, Q r) (update_where p f t).
Proof.
  intros Ht Hf Hn k r'. rewrite lookup_update_where. destruct (t !! k) as [r|] eqn:Hk; [|done].
  simpl. intros [= <-]. destruct (p k r) eqn:Hp; [by eapply Hf, Hp; apply (Ht k)|].
  by eapply Hn, Hp; apply (Ht k).
Qed.

Lemma Forall_update_row (P : A → Prop) k (p : A → bool) f t :
  map_Forall (λ _ r, P r) t → (∀ r, P r → p r = true → P (f r)) →
  map_Forall (λ _ r, P r) (update_row k p f t).2.
Proof.
  intros Ht Hf. destruct (update_rowP p f k t) as [r Hk Hp|_]; simpl; [|done].
  apply map_Forall_insert_2; [|done]. apply Hf; [by apply (Ht k)|done].
Qed.
End Miss.

(** ** Counting and exclusion

    [busy] rows, of which a group may hold one, or a bounded number.  A
    statement that makes no row busy ([no_start]) keeps both bounds. *)
Section Exclusion.
Context {A G : Type} (busy : A → Prop) (group : A → G).
Implicit Types (t : gmap string A) (r : A) (f : A → A).

Definition exclusive t : Prop :=
  ∀ k1 k2 r1 r2, t !! k1 = Some r1 → t !! k2 = Some r2 → busy r1 → busy r2 →
    group r1 = group r2 → k1 = k2.

Definition no_start t t' : Prop :=
  ∀ k r', t' !! k = Some r' → busy r' → ∃ r, t !! k = Some r ∧ busy r ∧ group r = group r'.

#[export] Instance no_start_preorder : PreOrder no_start.
Proof.
  split; [by intros t k r H S; eauto|]. intros t1 t2 t3 H12 H23 k r H S.
  destruct (H23 k r H S) as (r2 & H2 & S2 & W2). destruct (H12 k r2 H2 S2) as (r1 & H1 & S1 & W1).
  exists r1. split_and!; congruence.
Qed.

Lemma exclusive_no_start t t' : no_start t t' → exclusive t → exclusive t'.
Proof.
  intros Hn Ho k1 k2 r1 r2 H1 H2 S1 S2 W.
  destruct (Hn k1 r1 H1 S1) as (r1' & H1' & S1' & W1), (Hn k2 r2 H2 S2) as (r2' & H2' & S2' & W2).
  apply (Ho k1 k2 r1' r2'); congruence.
Qed.

Lemma no_start_update_where p f t :
  (∀ k r, p k r = true → busy (f r) → busy r ∧ group r = group (f r)) → no_start t (update_where p f t).
Proof.
  intros Hs k r'. rewrite lookup_update_where. destruct (t !! k) as [r|]; [|done]. simpl.
  destruct (p k r) eqn:Hp; intros [= <-] S; [|by eauto].
  destruct (Hs k r Hp S). by eauto.
Qed.

Lemma no_start_insert_known k r r' t :
  t !! k = Some r → (busy r' → busy r ∧ group r = group r') → no_start t (<[k := r']> t).
Proof.
  intros Hk Hs k' r0 H S. destruct (decide (k = k')) as [<-|Hne].
  - rewrite lookup_insert_eq in H. simplify_eq. destruct (Hs S). by eauto.
  - rewrite lookup_insert_ne in H by done. by eauto.
Qed.

Lemma no_start_update_row k p f t :
  (∀ r, p r = true → busy (f r) → busy r ∧ group r = group (f r)) → no_start t (update_row k p f t).2.
Proof.
  intros Hs. destruct (update_rowP p f k t) as [r Hk Hp|_]; simpl; [|done].
  eapply no_start_insert_known; [done|]. by apply Hs.
Qed.

Lemma no_start_insert k r t : ¬ busy r → no_start t (<[k := r]> t).
Proof.
  intros Hs k' r' H S. destruct (decide (k = k')) as [<-|Hne].
  - rewrite lookup_insert_eq in H. by simplify_eq.
  - rewrite lookup_insert_ne in H by done. by eauto.
Qed.

(** Making a row busy when its group has no busy row. *)
Lemma exclusive_start t k r :
  exclusive t → (∀ k' r', t !! k' = Some r' → busy r' → group r' ≠ group r) → exclusive (<[k := r]> t).
Proof.
  intros Ho Hfree k1 k2 r1 r2. destruct (decide (k = k1)) as [<-|N1], (decide (k = k2)) as [<-|N2];
    rewrite ?lookup_insert_eq, ?lookup_insert_ne by done; intros L1 L2 S1 S2 W; simplify_eq; try done.
  - by destruct (Hfree k2 r2).
  - by destruct (Hfree k1 r1).
  - by apply (Ho k1 k2 r1 r2).
Qed.
End Exclusion.

(** [SELECT 1 ... LIMIT 1] returns a row. *)
Lemma selects_iff {A} (p : string → A → bool) (t : gmap string A) :
  bool_decide (select_where p t ≠ []) = true ↔ ∃ k r, t !! k = Some r ∧ p k r = true.
Proof.
  rewrite bool_decide_eq_true. split.
  - intros H. destruct (select_where p t) as [|[k r] l] eqn:E; [done|].
    exists k, r. apply elem_of_select_where. rewrite E. set_solver.
  - intros (k & r & Hk) Hnil. apply elem_of_select_where in Hk. rewrite Hnil in Hk. set_solver.
Qed.

Lemma elem_of_selected_keys {A} (p : string → A → bool) (t : gmap string A) k :
  k ∈ (select_where p t).*1 ↔ ∃ r, t !! k = Some r ∧ p k r = true.
Proof.
  rewrite list_elem_of_fmap. split.
  - intros ([k' r] & -> & H%elem_of_select_where). by exists r.
  - intros (r & H). exists (k, r). split; [done|]. by apply elem_of_select_where.
Qed.

Lemma selected_keys_NoDup {A} (p : string → A → bool) (t : gmap string A) : NoDup (select_where p t).*1.
Proof.
  unfold select_where. assert (H := NoDup_fst_map_to_list t). revert H.
  induction (map_to_list t) as [|[k r] l IH]; simpl; [done|]. intros [Hn Hd]%NoDup_cons.
  destruct (p k r); simpl; [|by apply IH]. apply NoDup_cons. split; [|by apply IH].
  intros Hin. apply Hn. apply list_elem_of_fmap in Hin as ([k' r'] & Hk & Hf). simpl in Hk. subst k'.
  apply list_elem_of_In, filter_In in Hf as [Hf _]. apply list_elem_of_fmap.
  exists (k, r'). split; [done|]. by apply list_elem_of_In.
Qed.

(** Fewer rows pass when every row that passes did so before. *)
Lemma count_where_le {A} (p : string → A → bool) (t t' : gmap string A) :
  (∀ k r', t' !! k = Some r' → p k r' = true → ∃ r, t !! k = Some r ∧ p k r = true) →
  (count_where p t' ≤ count_where p t)%nat.
Proof.
  intros H. unfold count_where. rewrite <- !(length_fmap fst). apply submseteq_length, NoDup_submseteq.
  - apply selected_keys_NoDup.
  - intros k (r' & Hk & Hp)%elem_of_selected_keys. apply elem_of_selected_keys. by eapply H.
Qed.

Lemma count_where_insert_le {A} (p : string → A → bool) (t : gmap string A) k r :
  (count_where p (<[k := r]> t) ≤ S (count_where p t))%nat.
Proof.
  rewrite <- (insert_delete_eq t k r), count_where_insert by apply lookup_delete_eq.
  assert (count_where p (delete k t) ≤ count_where p t)%nat.
  { apply count_where_le. intros k' r' [_ H]%lookup_delete_Some. by eauto. }
  destruct (p k r); lia.
Qed.

(** Replacing a row by one that counts the same. *)
Lemma count_where_same {A} (p : string → A → bool) (t : gmap string A) k r r' :
  t !! k = Some r → p k r' = p k r → count_where p (<[k := r']> t) = count_where p t.
Proof.
  intros Hk Hp. rewrite <- (insert_delete_eq t k r'). rewrite <- (insert_delete_id t k r Hk) at 2.
  rewrite !count_where_insert by apply lookup_delete_eq. by rewrite Hp.
Qed.

(** [SELECT COALESCE(SUM(f), 0) FROM t WHERE p] *)
Definition sum_where {A} (f : A → Z) (p : string → A → bool) (t : gmap string A) : Z :=
  foldr Z.add 0 ((f ∘ snd) <$> select_where p t).

Lemma sum_permutation (l l' : list Z) : l ≡ₚ l' → foldr Z.add 0 l = foldr Z.add 0 l'.
Proof. induction 1; simpl; lia. Qed.

Lemma filter_Permutation {A} (f : A → bool) (l l' : list A) :
  l ≡ₚ l' → List.filter f l ≡ₚ List.filter f l'.
Proof.
  induction 1 as [|x l l' _ IH|x y l|l1 l2 l3 _ IH1 _ IH2]; simpl; [done| | |by etrans].
  - destruct (f x); [by constructor|done].
  - destruct (f x), (f y); try done. by constructor.
Qed.

(** The only row that passes is the one just inserted. *)
Lemma select_where_only {A} (p : string → A → bool) (t : gmap string A) k r :
  t !! k = None → (∀ k' r', t !! k' = Some r' → p k' r' = false) → p k r = true →
  select_where p (<[k := r]> t) = [(k, r)].
Proof.
  intros Hk Hn Hp. apply Permutation_singleton_r. unfold select_where.
  rewrite (filter_Permutation _ _ _ (map_to_list_insert t k r Hk)). simpl. rewrite Hp.
  assert (List.filter (λ kr, p kr.1 kr.2) (map_to_list t) = []) as E; [|by rewrite E].
  assert (select_where p t = []) as E by (destruct (select_where p t) as [|[k' r'] l] eqn:E; [done|];
    assert ((k', r') ∈ select_where p t) as [Hl Hf]%elem_of_select_where by (rewrite E; set_solver); by rewrite (Hn _ _ Hl) in Hf).
  exact E.
Qed.

Lemma sum_where_insert {A} (f : A → Z) (p : string → A → bool) (t : gmap string A) k r :
  t !! k = None → sum_where f p (<[k := r]> t) = (if p k r then f r else 0) + sum_where f p t.
Proof.
  intros Hk. unfold sum_where, select_where.
  rewrite (sum_permutation _ ((f ∘ snd) <$> List.filter (λ kr, p kr.1 kr.2) ((k, r) :: map_to_list t))).
  - simpl. by destruct (p k r).
  - by apply fmap_Permutation, filter_Permutation, map_to_list_insert.
Qed.

Lemma sum_where_empty {A} (f : A → Z) (p : string → A → bool) : sum_where f p ∅ = 0.
Proof. unfold sum_where, select_where. by rewrite map_to_list_empty. Qed.

(** ** Claiming work: the interface of the durable job tables

    Four tables of the program hand out work with the same statement,
    [UPDATE t SET claim_set WHERE id = (SELECT id FROM t WHERE claim_where
    ORDER BY claim_order ASC LIMIT 1 FOR UPDATE SKIP LOCKED) RETURNING *].
    [Claimable] names what a table supplies: the inner WHERE (which may look at
    the whole table), the ordering column and the assignments.  [P] is what
    the caller passes in. *)
Class Claimable (P A : Type) := {
  claim_where : P → Z → gmap string A → string → A → bool;
  claim_order : A → Z;
  claim_set : P → Z → A → A;
}.

(** What every such table promises: a row that has just been claimed is not
    claimable again, whoever asks, whenever, and whatever the other rows are. *)
Class ClaimableLaws (P A : Type) `{!Claimable P A} : Prop :=
  claim_exclusive : ∀ (q q' : P) now now' (t : gmap string A) k r,
    claim_where q' now' t k (claim_set q now r) = false.

Section Claim.
Context {P A : Type} `{!Claimable P A}.
Implicit Types (t : gmap string A) (q : P).

Definition claim_next q (now : Z) t : option (string * A) * gmap string A :=
  match oldest claim_order (select_where (claim_where q now t) t) with
  | Some (k, r) => (Some (k, claim_set q now r), <[k := claim_set q now r]> t)
  | None => (None, t)
  end.

Inductive claim_spec q now t : option (string * A) * gmap string A → Prop :=
| claim_hit k r :
    t !! k = Some r → claim_where q now t k r = true →
    (∀ k' r', t !! k' = Some r' → claim_where q now t k' r' = true →
      claim_order r ≤ claim_order r') →
    claim_spec q now t (Some (k, claim_set q now r), <[k := claim_set q now r]> t)
| claim_empty :
    (∀ k r, t !! k = Some r → claim_where q now t k r = false) →
    claim_spec q now t (None, t).

Lemma claim_nextP q now t : claim_spec q now t (claim_next q now t).
Proof.
  unfold claim_next.
  destruct (oldest _ _) as [[k r]|] eqn:E.
  - apply oldest_Some in E as [Hin Hmin].
    apply elem_of_select_where in Hin as [Hk Hp]. constructor; [done..|].
    intros k' r' Hk' Hp'. apply (Hmin k'). by apply elem_of_select_where.
  - apply oldest_None in E. constructor. intros k r Hk.
    destruct (claim_where q now t k r) eqn:Hp; [|done].
    assert ((k, r) ∈ select_where (claim_where q now t) t) as H
      by by apply elem_of_select_where.
    rewrite E in H. set_solver.
Qed.

(** A run of claims with nothing in between. *)
Fixpoint claim_many (reqs : list (P * Z)) t : list string * gmap string A :=
  match reqs with
  | [] => ([], t)
  | (q, now) :: reqs' =>
      let '(res, t') := claim_next q now t in
      let '(ks, t'') := claim_many reqs' t' in
      (match res with Some (k, _) => k :: ks | None => ks end, t'')
  end.

Context `{!ClaimableLaws P A}.

(** A row no request can claim is never handed out. *)
Lemma claim_many_unclaimable reqs t k r :
  t !! k = Some r →
  (∀ q now t', claim_where q now t' k r = false) →
  k ∉ (claim_many reqs t).1.
Proof.
  revert t. induction reqs as [|[q now] reqs IH]; intros t Hk Hun; simpl; [set_solver|].
  destruct (claim_nextP q now t) as [k1 r1 Hk1 Hp1 _|_]; simpl.
  - assert (k1 ≠ k) as Hne by naive_solver congruence.
    specialize (IH (<[k1 := claim_set q now r1]> t)).
    rewrite lookup_insert_ne in IH by done. specialize (IH Hk Hun).
    destruct (claim_many reqs _) as [ks t'']; simpl in *. set_solver.
  - specialize (IH t Hk Hun). by destruct (claim_many reqs t).
Qed.

(** No row is handed out twice, however many workers ask and in whatever
    order their statements run. *)
Lemma claim_many_NoDup reqs t : NoDup (claim_many reqs t).1.
Proof.
  revert t. induction reqs as [|[q now] reqs IH]; intros t; simpl; [constructor|].
  destruct (claim_nextP q now t) as [k r Hk Hp _|_]; simpl.
  - specialize (IH (<[k := claim_set q now r]> t)).
    assert (k ∉ (claim_many reqs (<[k := claim_set q now r]> t)).1) as Hn.
    { eapply claim_many_unclaimable; [apply lookup_insert_eq|].
      intros. apply claim_exclusive. }
    destruct (claim_many reqs _) as [ks t'']; simpl in *. by constructor.
  - specialize (IH t). by destruct (claim_many reqs t).
Qed.
End Claim.

(** ** What a statement keeps of every row

    [rows R t t'] says that every row of [t] is still there in [t'], changed
    only as [R] allows; rows may be added. *)
Section Rows.
Context {A : Type} (R : relation A).
Implicit Types (t : gmap string A).

Definition rows t t' : Prop :=
  ∀ k r, t !! k = Some r → ∃ r', t' !! k = Some r' ∧ R r r'.

Context `{!PreOrder R}.

#[export] Instance rows_preorder : PreOrder rows.
Proof.
  split.
  - intros t k r H. by exists r.
  - intros t1 t2 t3 H12 H23 k r H. destruct (H12 k r H) as (r2 & H2 & HR).
    destruct (H23 k r2 H2) as (r3 & H3 & HR'). exists r3. split; [done|by etrans].
Qed.

Lemma rows_insert t k r r' : t !! k = Some r → R r r' → rows t (<[k := r']> t).
Proof.
  intros Hk HR k1 r1 H1. destruct (decide (k = k1)) as [<-|Hne].
  - rewrite lookup_insert_eq. simplify_eq. by exists r'.
  - rewrite lookup_insert_ne by done. by exists r1.
Qed.

Lemma rows_insert_fresh t k r : t !! k = None → rows t (<[k := r]> t).
Proof.
  intros Hk k1 r1 H1. rewrite lookup_insert_ne by congruence. by exists r1.
Qed.

Lemma rows_update_where p f t :
  (∀ k r, p k r = true → R r (f r)) → rows t (update_where p f t).
Proof.
  intros Hf k r Hk. rewrite lookup_update_where, Hk. simpl. eexists. split; [done|].
  destruct (p k r) eqn:Hp; [by eapply Hf|done].
Qed.

Lemma rows_update_row k p f t :
  (∀ r, p r = true → R r (f r)) → rows t (update_row k p f t).2.
Proof.
  intros Hf. destruct (update_rowP p f k t) as [r Hk Hp|_]; simpl; [|done].
  by eapply rows_insert, Hf.
Qed.
End Rows.

(** [updated R t t'] says besides that no row was added. *)
Section Updated.
Context {A : Type} (R : relation A).
Implicit Types (t : gmap string A).

Definition updated t t' : Prop := ∀ k, option_Forall2 R (t !! k) (t' !! k).

Context `{!PreOrder R}.

Lemma updated_refl t : updated t t.
Proof. intros k. by destruct (t !! k); constructor. Qed.

Lemma updated_insert t k r r' : t !! k = Some r → R r r' → updated t (<[k := r']> t).
Proof.
  intros Hk HR k1. destruct (decide (k = k1)) as [<-|Hne].
  - rewrite lookup_insert_eq, Hk. by constructor.
  - rewrite lookup_insert_ne by done. apply updated_refl.
Qed.

Lemma updated_update_row k p f t : (∀ r, p r = true → R r (f r)) → updated t (update_row k p f t).2.
Proof.
  intros Hf. destruct (update_rowP p f k t) as [r Hk Hp|_]; simpl; [|apply updated_refl].
  by eapply updated_insert, Hf.
Qed.

Lemma updated_fmap f t : (∀ r, R r (f r)) → updated t (f <$> t).
Proof. intros Hf k. rewrite lookup_fmap. destruct (t !! k); simpl; by constructor. Qed.

Lemma updated_trans t1 t2 t3 : updated t1 t2 → updated t2 t3 → updated t1 t3.
Proof.
  intros H12 H23 k. specialize (H12 k). specialize (H23 k).
  inversion H12 as [r1 r2 HR E1 E2|E1 E2]; rewrite <- E2 in H23; inversion H23; constructor.
  by etrans.
Qed.
End Updated.
