(* ===== verification/Regex.v ===== *)
(** * Regex: the JavaScript regular expressions the program matches with

    A backtracking matcher for the operators the modelled sources use, with
    JavaScript's semantics: greedy and lazy quantifiers, captures, [^] and [$]
    with and without the [m] flag, word boundaries and lookahead.  Text is a
    list of bytes; the classes are the ASCII parts of JavaScript's classes, so
    a byte of a multi-byte character is neither a space, a digit nor a word
    character. *)

From S2P Require Import Prelude.
From Stdlib Require Import Ascii.
From Stdlib Require String.
Open Scope nat_scope.

(** ** Character classes *)

Definition char_in (lo hi : ascii) (c : ascii) : bool :=
  (nat_of_ascii lo <=? nat_of_ascii c) && (nat_of_ascii c <=? nat_of_ascii hi).
Definition is_digit (c : ascii) : bool := char_in "0" "9" c.
Definition is_word (c : ascii) : bool :=
  is_digit c || char_in "a" "z" c || char_in "A" "Z" c || Ascii.eqb c "_".
Definition is_hex (c : ascii) : bool :=
  is_digit c || char_in "a" "f" c || char_in "A" "F" c.
(** tab, newline, vertical tab, form feed, carriage return, space *)
Definition is_space (c : ascii) : bool :=
  let n := nat_of_ascii c in ((9 <=? n) && (n <=? 13)) || (n =? 32).
(** What [.] does not match and [^], [$] stop at under the [m] flag. *)
Definition is_line_terminator (c : ascii) : bool :=
  let n := nat_of_ascii c in (n =? 10) || (n =? 13).
Definition one_of (s : string) (c : ascii) : bool := existsb (Ascii.eqb c) (String.list_ascii_of_string s).

(** [toLowerCase] on ASCII letters. *)
Definition lower_char (c : ascii) : ascii :=
  if char_in "A" "Z" c then ascii_of_nat (nat_of_ascii c + 32) else c.
Definition lower (s : string) : string :=
  String.string_of_list_ascii (lower_char <$> String.list_ascii_of_string s).

(** ** Expressions *)

Inductive regex :=
  | Eps
  | Chr (p : ascii → bool)
  | Seq (r1 r2 : regex)
  | Alt (r1 r2 : regex)
  | Rep (greedy : bool) (lo : nat) (hi : option nat) (r : regex)
  | Group (n : nat) (r : regex)
  | Bos          (* [^] without the m flag *)
  | Eos          (* [$] without the m flag *)
  | Bol          (* [^] with the m flag *)
  | Eol          (* [$] with the m flag *)
  | WordB        (* [\b] *)
  | Ahead (b : bool) (r : regex).  (* [(?=r)] and [(?!r)] *)

Declare Scope regex_scope.
Delimit Scope regex_scope with re.
Bind Scope regex_scope with regex.

Definition any : regex := Chr (λ c, negb (is_line_terminator c)).
Definition any_char : regex := Chr (λ _, true).
Definition many (r : regex) : regex := Rep true 0 None r.
Definition many1 (r : regex) : regex := Rep true 1 None r.
Definition optional (r : regex) : regex := Rep true 0 (Some 1) r.
Definition lazy_many (r : regex) : regex := Rep false 0 None r.
Definition lazy_many1 (r : regex) : regex := Rep false 1 None r.
Definition times (n : nat) (r : regex) : regex := Rep true n (Some n) r.
(** A literal, matched exactly and with the [i] flag. *)
Fixpoint lit_with (test : ascii → ascii → bool) (l : list ascii) : regex :=
  match l with
  | [] => Eps
  | [c] => Chr (test c)
  | c :: l' => Seq (Chr (test c)) (lit_with test l')
  end.
Definition lit (s : string) : regex := lit_with Ascii.eqb (String.list_ascii_of_string s).
Definition liti (s : string) : regex :=
  lit_with (λ c d, Ascii.eqb (lower_char c) (lower_char d)) (String.list_ascii_of_string s).
Definition sp : regex := Chr is_space.
Definition digit : regex := Chr is_digit.

Notation "r1 ⋅ r2" := (Seq r1 r2) (at level 40, left associativity) : regex_scope.
Notation "r1 ∥ r2" := (Alt r1 r2) (at level 50, left associativity) : regex_scope.
Open Scope regex_scope.

(** ** Matching *)

Definition captures := list (nat * list ascii).

(** The text consumed between two suffixes of the input. *)
Definition consumed (s s' : list ascii) : list ascii := take (length s - length s') s.

Definition at_word (before after : list ascii) : bool :=
  let w l := match l with c :: _ => is_word c | [] => false end in
  xorb (w before) (w after).

Section Matcher.
Context {X : Type}.
Definition cont := list ascii → list ascii → captures → option X.
Definition matcher := list ascii → list ascii → captures → cont → option X.

(** [RepeatMatcher]; an iteration past the minimum must make progress. *)
Fixpoint rep_match (fuel : nat) (mr : matcher) (greedy : bool) (lo : nat) (hi : option nat)
    (before after : list ascii) (caps : captures) (k : cont) {struct fuel} : option X :=
  match fuel with
  | O => None
  | S fuel' =>
      if bool_decide (hi = Some 0) then k before after caps else
      let again := mr before after caps (λ b a c,
        if (lo =? 0) && (length a =? length after) then None
        else rep_match fuel' mr greedy (pred lo) (pred <$> hi) b a c k) in
      if lo =? 0 then
        if greedy then match again with Some x => Some x | None => k before after caps end
        else match k before after caps with Some x => Some x | None => again end
      else again
  end.
End Matcher.
Arguments cont : clear implicits.
Arguments matcher : clear implicits.

Definition accept : cont (list ascii * list ascii * captures) := λ b a c, Some (b, a, c).

(** [run r before after caps k]: match [r] on [after] (what precedes it,
    nearest first, is [before]) and continue with [k]; backtracks on failure. *)
Fixpoint run {X} (r : regex) : matcher X := λ before after caps k,
  match r with
  | Eps => k before after caps
  | Chr p =>
      match after with
      | c :: after' => if p c then k (c :: before) after' caps else None
      | [] => None
      end
  | Seq r1 r2 => run r1 before after caps (λ b a c, run r2 b a c k)
  | Alt r1 r2 =>
      match run r1 before after caps k with
      | Some x => Some x
      | None => run r2 before after caps k
      end
  | Rep greedy lo hi r' =>
      rep_match (S (S (length after + lo))) (run r') greedy lo hi before after caps k
  | Group n r' =>
      run r' before after caps (λ b a c, k b a ((n, consumed after a) :: c))
  | Bos => match before with [] => k before after caps | _ => None end
  | Eos => match after with [] => k before after caps | _ => None end
  | Bol => match before with
           | [] => k before after caps
           | c :: _ => if is_line_terminator c then k before after caps else None
           end
  | Eol => match after with
           | [] => k before after caps
           | c :: _ => if is_line_terminator c then k before after caps else None
           end
  | WordB => if at_word before after then k before after caps else None
  | Ahead pos r' =>
      match run r' before after caps accept, pos with
      | Some (_, _, c), true => k before after c
      | None, false => k before after caps
      | _, _ => None
      end
  end.

Record re_match := mkMatch {
  m_text : list ascii;
  m_captures : captures;
  m_before : list ascii;
  m_rest : list ascii;
}.

(** [RegExp.prototype.exec] from a position: the leftmost match. *)
Fixpoint exec_from (r : regex) (before after : list ascii) : option re_match :=
  match run r before after [] accept with
  | Some (b, a, c) => Some (mkMatch (consumed after a) c b a)
  | None =>
      match after with
      | c :: after' => exec_from r (c :: before) after'
      | [] => None
      end
  end.

Definition exec (r : regex) (s : string) : option re_match :=
  exec_from r [] (String.list_ascii_of_string s).
Definition test (r : regex) (s : string) : bool :=
  match exec r s with Some _ => true | None => false end.

(** The text of group [n], the last time it matched. *)
Definition capture (n : nat) (m : re_match) : option string :=
  String.string_of_list_ascii <$> (snd <$> List.find (λ kv, kv.1 =? n) (m_captures m)).

(** The matches of a [g] expression; after an empty match the search resumes
    one character later. *)
Fixpoint exec_all (fuel : nat) (r : regex) (before after : list ascii) : list re_match :=
  match fuel with
  | O => []
  | S fuel' =>
      match exec_from r before after with
      | None => []
      | Some m =>
          m :: match m_text m, m_rest m with
               | [], [] => []
               | [], c :: rest => exec_all fuel' r (c :: m_before m) rest
               | _ :: _, rest => exec_all fuel' r (m_before m) rest
               end
      end
  end.
Definition match_all (r : regex) (s : string) : list re_match :=
  exec_all (S (String.length s)) r [] (String.list_ascii_of_string s).

(** [s.trim()] *)
Fixpoint drop_space (l : list ascii) : list ascii :=
  match l with c :: l' => if is_space c then drop_space l' else l | [] => [] end.
Definition trim (s : string) : string :=
  String.string_of_list_ascii (rev (drop_space (rev (drop_space (String.list_ascii_of_string s))))).
(** [s.slice(0, n)] *)
Definition slice_to (n : nat) (s : string) : string :=
  String.string_of_list_ascii (take n (String.list_ascii_of_string s)).
(** [s.slice(n)] *)
Definition slice_from (n : nat) (s : string) : string :=
  String.string_of_list_ascii (drop n (String.list_ascii_of_string s)).

(** ** The fuel of a repetition is enough

    A matcher continues only on suffixes of its input; then any fuel above the
    length of the input plus the minimum count gives the same answer, so the
    fuel [run] supplies never cuts a match short. *)

Definition tame {X} (m : matcher X) : Prop :=
  ∀ b a c k k', (∀ b' a' c', length a' ≤ length a → k b' a' c' = k' b' a' c') →
    m b a c k = m b a c k'.

Lemma rep_match_fuel {X} (mr : matcher X) greedy f f' lo hi b a c k k' :
  tame mr →
  (∀ b' a' c', length a' ≤ length a → k b' a' c' = k' b' a' c') →
  length a + lo < f → length a + lo < f' →
  rep_match f mr greedy lo hi b a c k = rep_match f' mr greedy lo hi b a c k'.
Proof.
  intros Ht. revert f' lo hi b a c. induction f as [|f IH]; intros f' lo hi b a c Hk Hf Hf'; [lia|].
  destruct f' as [|f']; [lia|]. simpl.
  case_bool_decide; [by apply Hk|].
  assert (mr b a c (λ b' a' c', if (lo =? 0) && (length a' =? length a) then None
            else rep_match f mr greedy (pred lo) (pred <$> hi) b' a' c' k)
        = mr b a c (λ b' a' c', if (lo =? 0) && (length a' =? length a) then None
            else rep_match f' mr greedy (pred lo) (pred <$> hi) b' a' c' k')) as ->.
  { apply Ht. intros b' a' c' Hle.
    destruct (Nat.eqb_spec lo 0), (Nat.eqb_spec (length a') (length a)); simpl; try done;
      apply IH; try lia; intros; apply Hk; lia. }
  by rewrite (Hk b a c).
Qed.

Lemma run_tame {X} r : tame (run (X := X) r).
Proof.
  induction r as [|p|r1 IH1 r2 IH2|r1 IH1 r2 IH2|g lo hi r IH|n r IH|?|?|?|?|?|pos r IH];
    intros b a c k k' Hk; cbn [run].
  - by apply Hk.
  - destruct a as [|x a]; [done|]. destruct (p x); [|done]. apply Hk. simpl. lia.
  - apply IH1. intros b' a' c' Hle. apply IH2. intros. apply Hk. lia.
  - by rewrite (IH1 b a c k k'), (IH2 b a c k k').
  - apply rep_match_fuel; [done|done|lia|lia].
  - apply IH. intros. by apply Hk.
  - destruct b; [by apply Hk|done].
  - destruct a; [by apply Hk|done].
  - destruct b as [|x ?]; [by apply Hk|]. destruct (is_line_terminator x); [by apply Hk|done].
  - destruct a as [|x ?] eqn:E; [by apply Hk|].
    destruct (is_line_terminator x); [by apply Hk|done].
  - destruct (at_word b a); [by apply Hk|done].
  - destruct (run r b a c accept) as [[[? ?] ?]|], pos; try done; by apply Hk.
Qed.

(** Repetitions never run out of fuel: matching [r] under a
    quantifier with any larger fuel than [run] supplies gives the same
    result, so [run] is the fuel-free backtracking semantics. *)
Theorem run_rep_fuel {X} greedy lo hi r b a c (k : cont X) extra :
  run (Rep greedy lo hi r) b a c k
  = rep_match (S (S (length a + lo)) + extra) (run r) greedy lo hi b a c k.
Proof. cbn [run]. apply rep_match_fuel; [apply run_tame|done|lia|lia]. Qed.

(** ** Fixed repetitions of a class *)

Lemma rep_times {X} p l : ∀ fuel b a c (k : cont X),
  forallb p l = true → length l < fuel →
  rep_match fuel (run (Chr p)) true (length l) (Some (length l)) b (l ++ a) c k = k (rev l ++ b) a c.
Proof.
  induction l as [|x l IH]; intros fuel b a c k Hl Hf; (destruct fuel as [|fuel]; [simpl in Hf; lia|]); [done|].
  simpl in Hl. bools. simpl.
  match goal with H : p x = true |- _ => rewrite H end.
  simpl in *. rewrite IH by (done || lia). by rewrite <- app_assoc.
Qed.
Lemma run_times {X} p n l b a c (k : cont X) :
  length l = n → forallb p l = true →
  run (times n (Chr p)) b (l ++ a) c k = k (rev l ++ b) a c.
Proof. intros <- Hl. apply rep_times; [done|]. rewrite length_app. lia. Qed.

Lemma exec_from_hit r b a x : run r b a [] accept = Some x → is_Some (exec_from r b a).
Proof. intros H. destruct a, x as [[? ?] ?]; simpl; rewrite H; by eexists. Qed.
