(* ===== verification/Uuid.v ===== *)
(** * Uuid: the text of a uuid and the uuid it stands for

    A column of type uuid compares values, not texts.  Postgres reads a uuid in
    either case, within braces or not, with a hyphen after any group of four
    digits but the last or with none, and writes it in one form: lower case,
    hyphens after 8, 12, 16 and 20 digits.  A primary key is modelled by that
    form.  JavaScript compares the texts themselves. *)

From S2P Require Import Prelude Regex.
From Stdlib Require Import Ascii.
From Stdlib Require String.

Definition drop_hyphen (l : list ascii) : list ascii :=
  match l with c :: l' => if c ≡? "-"%char then l' else l | [] => [] end.
(** [n] groups of four digits, as the digits of the standard form. *)
Fixpoint uuid_groups (n : nat) (l : list ascii) : option (list ascii) :=
  match n, l with
  | O, [] => Some []
  | S n', a :: b :: c :: d :: l' =>
      if forallb is_hex [a; b; c; d] then
        app (lower_char <$> [a; b; c; d]) <$>
          uuid_groups n' (match n' with S _ => drop_hyphen l' | O => l' end)
      else None
  | _, _ => None
  end.
Definition uuid_text (ds : list ascii) : string :=
  let part a b := take (b - a)%nat (drop a ds) in
  String.string_of_list_ascii
    (part 0 8 ++ "-"%char :: part 8 12 ++ "-"%char :: part 12 16 ++ "-"%char :: part 16 20 ++ "-"%char :: part 20 32)%nat.
Definition within_braces (l : list ascii) : list ascii :=
  match l with
  | c :: l' => if c ≡? "{"%char then (if last l' ≡? Some "}"%char then removelast l' else []) else l
  | [] => []
  end.
(** The value a text is read as; [None] where the statement throws. *)
Definition uuid_in (s : string) : option string :=
  uuid_text <$> uuid_groups 8 (within_braces (String.list_ascii_of_string s)).

(** What is read is a digit in lower case. *)
Definition uuid_digit (c : ascii) : bool := is_hex c && (lower_char c ≡? c).

Lemma lower_digit c : is_hex c = true → uuid_digit (lower_char c) = true.
Proof. destruct c as [[] [] [] [] [] [] [] []]; vm_compute; congruence. Qed.
Lemma uuid_digit_spec c : uuid_digit c = true → is_hex c = true ∧ lower_char c = c ∧ c ≠ "-"%char ∧ c ≠ "{"%char.
Proof.
  unfold uuid_digit. intros [H Hl%bool_decide_eq_true]%andb_true_iff. split_and!; [done|done|..]; by intros ->.
Qed.

Lemma uuid_groups_digits n l ds : uuid_groups n l = Some ds →
  length ds = (4 * n)%nat ∧ Forall (λ c, uuid_digit c = true) ds.
Proof.
  revert l ds. induction n as [|n IH]; intros l ds; cbn [uuid_groups].
  { destruct l; [|done]. intros [= <-]. by split. }
  destruct l as [|a [|b [|c [|d l]]]]; try done. destruct (forallb is_hex [a; b; c; d]) eqn:H; [|done].
  destruct (uuid_groups n _) as [ds'|] eqn:E; [|done]. intros [= <-]. apply IH in E as [Hlen Hds].
  cbn [forallb] in H. rewrite !andb_true_iff in H. destruct H as (Ha & Hb & Hc & Hd & _).
  split; [cbn; lia|]. repeat constructor; try by apply lower_digit. exact Hds.
Qed.

(** Digits of the standard form are read as they are, with or without a hyphen
    after the group. *)
Lemma read_group n a b c d l : forallb uuid_digit [a; b; c; d] = true →
  uuid_groups (S n) (a :: b :: c :: d :: l)
  = app [a; b; c; d] <$> uuid_groups n (match n with S _ => drop_hyphen l | O => l end).
Proof.
  cbn [forallb]. rewrite !andb_true_iff.
  intros ([Ha [La _]]%uuid_digit_spec & [Hb [Lb _]]%uuid_digit_spec & [Hc [Lc _]]%uuid_digit_spec
          & [Hd [Ld _]]%uuid_digit_spec & _).
  cbn [uuid_groups forallb]. rewrite Ha, Hb, Hc, Hd. cbn [andb fmap list_fmap]. by rewrite La, Lb, Lc, Ld.
Qed.
Lemma keep_digit c l : uuid_digit c = true → drop_hyphen (c :: l) = c :: l.
Proof. intros (_ & _ & H & _)%uuid_digit_spec. unfold drop_hyphen. by rewrite bool_decide_eq_false_2. Qed.
Lemma digit_within c l : uuid_digit c = true → within_braces (c :: l) = c :: l.
Proof. intros (_ & _ & _ & H)%uuid_digit_spec. unfold within_braces. by rewrite bool_decide_eq_false_2. Qed.

(** The form Postgres writes is read as itself: it is a canonical form. *)
Lemma uuid_in_canonical s u : uuid_in s = Some u → uuid_in u = Some u.
Proof.
  unfold uuid_in at 1. destruct (uuid_groups 8 _) as [ds|] eqn:E; [|done]. cbn [fmap option_fmap option_map].
  intros [= <-]. apply uuid_groups_digits in E as [Hlen Hds].
  do 32 (destruct ds as [|? ds]; [done|]). destruct ds; [|done]. clear Hlen.
  repeat match goal with H : Forall _ (_ :: _) |- _ => apply Forall_cons in H as [? H] end.
  unfold uuid_in, uuid_text.
  cbn [String.list_ascii_of_string String.string_of_list_ascii take drop app Nat.sub].
  rewrite digit_within by done.
  repeat (rewrite read_group by (cbn [forallb]; rewrite !andb_true_iff; by split_and!);
          cbn beta iota; rewrite ?keep_digit by done; try change (drop_hyphen ("-"%char :: ?l)) with l).
  reflexivity.
Qed.

(** A text that is the uuid it names, as Postgres writes it. *)
Definition canonical_uuid (s : string) : bool := uuid_in s ≡? Some s.

Example uuid_upper : uuid_in "{6BA7B8119DAD-11D1-80B400C04FD430C8}" = Some "6ba7b811-9dad-11d1-80b4-00c04fd430c8".
Proof. reflexivity. Qed.
Example uuid_short : uuid_in "6ba7b811-9dad-11d1-80b4-00c04fd430c" = None.
Proof. reflexivity. Qed.
