(* ===== verification/QueueSchema.v ===== *)
(** * QueueSchema: the rows of the issue queue and the state they live in

    [queue_entries], [runs], [queue_attempts], [repositories], [workspaces],
    [connectors] and [jace_approvals] as records, one field per column the
    modelled code reads or writes.  A primary key is the key of the map. *)

From S2P Require Import Prelude Table.
From Stdlib Require Import QArith.
Open Scope Z_scope.

(** [QueueState] and its terminals ([state text] of [queue_entries]). *)
Inductive QueueState :=
  | queued | parked | running
  | green | escalated_to_human | blocked.

#[export] Instance QueueState_eq_dec : EqDecision QueueState.
Proof. solve_decision. Defined.

Inductive QueueSource := cli | github | linear.
#[export] Instance QueueSource_eq_dec : EqDecision QueueSource.
Proof. solve_decision. Defined.

(** [run_status] of [runs]. *)
Inductive RunDbStatus := run_queued | run_running | run_success | run_failed.
#[export] Instance RunDbStatus_eq_dec : EqDecision RunDbStatus.
Proof. solve_decision. Defined.

(** [QUEUE_ENTRY_DEFAULT_BUDGET] *)
Definition QUEUE_ENTRY_DEFAULT_BUDGET : Z := 5.

(** A row of [queue_entries]; [estimated_budget_usd] ([numeric(10,2)]) is kept
    in cents. *)
Record QueueEntry := mkQueueEntry {
  qe_workspace_id : string;
  qe_alignment_brief_id : option string;
  qe_source : QueueSource;
  qe_kind : string;
  qe_external_id : string;
  qe_title : string;
  qe_body : string;
  qe_tier : Z;
  qe_remaining_budget : Z;
  qe_state : QueueState;
  qe_blocked_by : list N;
  qe_park_reason : option string;
  qe_estimated_budget_usd : option Z;
  qe_model_override : option string;
  qe_task_type : option string;
  qe_last_liveness_at : option Z;
  qe_next_eligible_at : option Z;
  qe_created_at : Z;
  qe_updated_at : Z;
}.

(** Assignments of an UPDATE statement, one per column. *)
Definition set_qe_state (v : QueueState) (e : QueueEntry) : QueueEntry :=
  mkQueueEntry (qe_workspace_id e) (qe_alignment_brief_id e) (qe_source e) (qe_kind e)
    (qe_external_id e) (qe_title e) (qe_body e) (qe_tier e) (qe_remaining_budget e) v
    (qe_blocked_by e) (qe_park_reason e) (qe_estimated_budget_usd e) (qe_model_override e)
    (qe_task_type e) (qe_last_liveness_at e) (qe_next_eligible_at e) (qe_created_at e) (qe_updated_at e).
Definition set_qe_text (title body : string) (e : QueueEntry) : QueueEntry :=
  mkQueueEntry (qe_workspace_id e) (qe_alignment_brief_id e) (qe_source e) (qe_kind e)
    (qe_external_id e) title body (qe_tier e) (qe_remaining_budget e) (qe_state e)
    (qe_blocked_by e) (qe_park_reason e) (qe_estimated_budget_usd e) (qe_model_override e)
    (qe_task_type e) (qe_last_liveness_at e) (qe_next_eligible_at e) (qe_created_at e) (qe_updated_at e).
Definition set_qe_budget (tier budget : Z) (e : QueueEntry) : QueueEntry :=
  mkQueueEntry (qe_workspace_id e) (qe_alignment_brief_id e) (qe_source e) (qe_kind e)
    (qe_external_id e) (qe_title e) (qe_body e) tier budget (qe_state e)
    (qe_blocked_by e) (qe_park_reason e) (qe_estimated_budget_usd e) (qe_model_override e)
    (qe_task_type e) (qe_last_liveness_at e) (qe_next_eligible_at e) (qe_created_at e) (qe_updated_at e).
Definition set_qe_park_reason (v : option string) (e : QueueEntry) : QueueEntry :=
  mkQueueEntry (qe_workspace_id e) (qe_alignment_brief_id e) (qe_source e) (qe_kind e)
    (qe_external_id e) (qe_title e) (qe_body e) (qe_tier e) (qe_remaining_budget e) (qe_state e)
    (qe_blocked_by e) v (qe_estimated_budget_usd e) (qe_model_override e)
    (qe_task_type e) (qe_last_liveness_at e) (qe_next_eligible_at e) (qe_created_at e) (qe_updated_at e).
Definition set_qe_brief (usd : option Z) (model task : option string) (e : QueueEntry) : QueueEntry :=
  mkQueueEntry (qe_workspace_id e) (qe_alignment_brief_id e) (qe_source e) (qe_kind e)
    (qe_external_id e) (qe_title e) (qe_body e) (qe_tier e) (qe_remaining_budget e) (qe_state e)
    (qe_blocked_by e) (qe_park_reason e) usd model
    task (qe_last_liveness_at e) (qe_next_eligible_at e) (qe_created_at e) (qe_updated_at e).
Definition set_qe_last_liveness_at (v : option Z) (e : QueueEntry) : QueueEntry :=
  mkQueueEntry (qe_workspace_id e) (qe_alignment_brief_id e) (qe_source e) (qe_kind e)
    (qe_external_id e) (qe_title e) (qe_body e) (qe_tier e) (qe_remaining_budget e) (qe_state e)
    (qe_blocked_by e) (qe_park_reason e) (qe_estimated_budget_usd e) (qe_model_override e)
    (qe_task_type e) v (qe_next_eligible_at e) (qe_created_at e) (qe_updated_at e).
Definition set_qe_next_eligible_at (v : option Z) (e : QueueEntry) : QueueEntry :=
  mkQueueEntry (qe_workspace_id e) (qe_alignment_brief_id e) (qe_source e) (qe_kind e)
    (qe_external_id e) (qe_title e) (qe_body e) (qe_tier e) (qe_remaining_budget e) (qe_state e)
    (qe_blocked_by e) (qe_park_reason e) (qe_estimated_budget_usd e) (qe_model_override e)
    (qe_task_type e) (qe_last_liveness_at e) v (qe_created_at e) (qe_updated_at e).
Definition set_qe_updated_at (v : Z) (e : QueueEntry) : QueueEntry :=
  mkQueueEntry (qe_workspace_id e) (qe_alignment_brief_id e) (qe_source e) (qe_kind e)
    (qe_external_id e) (qe_title e) (qe_body e) (qe_tier e) (qe_remaining_budget e) (qe_state e)
    (qe_blocked_by e) (qe_park_reason e) (qe_estimated_budget_usd e) (qe_model_override e)
    (qe_task_type e) (qe_last_liveness_at e) (qe_next_eligible_at e) (qe_created_at e) v.

(** A row of [runs]. *)
Record Run := mkRun {
  run_workspace_id : string;
  run_repository_id : string;
  run_agent : string;
  run_runner_name : string;
  run_branch : string;
  run_title : option string;
  run_status : RunDbStatus;
  run_started_at : option Z;
  run_finished_at : option Z;
  run_queue_entry_id : option string;
  run_phase : option string;
  run_cost_usd : Q;
  run_pr_url : string;
  run_pr_repo : option string;
  run_pr_number : option Z;
  run_pr_head_sha : option string;
  run_last_liveness_at : option Z;
  run_created_at : Z;
  run_updated_at : option Z;
}.

(** A row of [queue_attempts]; [outcome] is the runner's raw status. *)
Record QueueAttempt := mkQueueAttempt {
  qa_queue_entry_id : string;
  qa_workspace_id : string;
  qa_tier : Z;
  qa_outcome : string;
  qa_error_summary : option string;
  qa_created_at : Z;
}.

(** A row of [repositories]. *)
Record Repository := mkRepository {
  repo_workspace_id : string;
  repo_name : string;
  repo_url : string;
  repo_default_branch : string;
  repo_created_at : Z;
}.

(** The columns of [workspaces] the queue and the wallet read. *)
Record Workspace := mkWorkspace {
  ws_require_alignment : bool;
  ws_billing_enabled : bool;
}.

(** A row of [connectors]; [cn_repos] is [config.repos]. *)
Record Connector := mkConnector {
  cn_workspace_id : string;
  cn_provider : string;
  cn_enabled : bool;
  cn_repos : list string;
}.

(** The state the queue's handlers share.  [queue_attempts] is append-only. *)
Record QueueDb := mkQueueDb {
  workspaces : gmap string Workspace;
  connectors : list Connector;
  queue_entries : gmap string QueueEntry;
  runs : gmap string Run;
  queue_attempts : list QueueAttempt;
  repositories : gmap string Repository;
}.

Definition with_queue_entries (t : gmap string QueueEntry) (d : QueueDb) : QueueDb :=
  mkQueueDb (workspaces d) (connectors d) t (runs d) (queue_attempts d) (repositories d).
Definition with_runs (t : gmap string Run) (d : QueueDb) : QueueDb :=
  mkQueueDb (workspaces d) (connectors d) (queue_entries d) t (queue_attempts d) (repositories d).
Definition with_queue_attempts (l : list QueueAttempt) (d : QueueDb) : QueueDb :=
  mkQueueDb (workspaces d) (connectors d) (queue_entries d) (runs d) l (repositories d).
Definition with_repositories (t : gmap string Repository) (d : QueueDb) : QueueDb :=
  mkQueueDb (workspaces d) (connectors d) (queue_entries d) (runs d) (queue_attempts d) t.

(** The columns that say who an entry is: no queue operation rewrites them. *)
Definition same_identity (e e' : QueueEntry) : Prop :=
  qe_workspace_id e' = qe_workspace_id e ∧ qe_source e' = qe_source e ∧
  qe_kind e' = qe_kind e ∧ qe_external_id e' = qe_external_id e ∧
  qe_blocked_by e' = qe_blocked_by e ∧ qe_created_at e' = qe_created_at e.

#[export] Instance same_identity_preorder : PreOrder same_identity.
Proof. split; [by intros []|]. intros [] [] []; unfold same_identity; naive_solver congruence. Qed.
