(* ===== verification/AlignmentGate.v ===== *)
(** * AlignmentGate: dependencies and the alignment hold on parked entries

    The state-moving half of [queries/github_intake.ts]: which declared
    blockers are unmet, what a finished entry releases, and the confirm, deny,
    revise and requeue operations a human's answer triggers. *)

From S2P Require Import Prelude Table QueueSchema.
Open Scope Z_scope.

(** [`${repoFullName}#${n}`] *)
Definition issue_external_id (repoFullName : string) (n : N) : string :=
  repoFullName +:+ String hash_char (show_N n).

Definition ALIGNMENT_PARK_REASON : string := "awaiting alignment".
Definition ALIGNMENT_DENIED_PARK_REASON : string :=
  "alignment denied — open a new issue to try again".

Definition formatWaitingOnReason (unmet : list N) : string :=
  "Waiting on " +:+ join_strings ", " ((λ n, "#" +:+ show_N n) <$> unmet).

Definition workspaceRequiresAlignment (ws : gmap string Workspace) (workspaceId : string) : bool :=
  match ws !! workspaceId with Some w => ws_require_alignment w | None => true end.

(** The rows [unmetBlockers] selects, and the issue numbers it reads off them. *)
Definition greenRows (t : gmap string QueueEntry) (workspaceId : string)
    (blockerIds : list string) : list (string * QueueEntry) :=
  select_where (λ _ r, (qe_workspace_id r ≡? workspaceId)
    && bool_decide (qe_external_id r ∈ blockerIds) && (qe_state r ≡? green)) t.

Definition unmetBlockers (t : gmap string QueueEntry) (workspaceId repoFullName : string)
    (blockedBy : list N) : list N :=
  let blockerIds := issue_external_id repoFullName <$> blockedBy in
  let greenNumbers :=
    omap (λ kr, read_N (last_segment hash_char (qe_external_id kr.2)))
      (greenRows t workspaceId blockerIds) in
  filter (λ n, n ∉ greenNumbers) blockedBy.

(** The check [unparkDependents] and [requeueParkedQueueEntry] share. *)
Definition aligned (requireAlignment : bool) (e : QueueEntry) : bool :=
  (qe_kind e ≢? "issue") || negb (is_null (qe_estimated_budget_usd e))
  || negb requireAlignment.

(** One iteration of the loop of [unparkDependents], for a row of the batch. *)
Definition unpark_one (now : Z) (workspaceId repoFullName : string) (requireAlignment : bool)
    (entry : QueueEntry) (t : gmap string QueueEntry) : list string * gmap string QueueEntry :=
  if qe_park_reason entry ≡? Some ALIGNMENT_DENIED_PARK_REASON then ([], t) else
  match unmetBlockers t workspaceId repoFullName (qe_blocked_by entry) with
  | _ :: _ => ([], t)
  | [] =>
      if aligned requireAlignment entry then
        ([qe_external_id entry],
         update_where (λ _ r, (qe_workspace_id r ≡? workspaceId)
             && (qe_external_id r ≡? qe_external_id entry) && (qe_state r ≡? parked))
           (λ r, set_qe_updated_at now (set_qe_park_reason None (set_qe_state queued r))) t)
      else
        ([],
         update_where (λ _ r, (qe_workspace_id r ≡? workspaceId)
             && (qe_external_id r ≡? qe_external_id entry) && (qe_state r ≡? parked)
             && is_null (qe_estimated_budget_usd r))
           (λ r, set_qe_updated_at now (set_qe_park_reason (Some ALIGNMENT_PARK_REASON) r)) t)
  end.

Fixpoint unpark_loop (now : Z) (workspaceId repoFullName : string) (requireAlignment : bool)
    (batch : list QueueEntry) (t : gmap string QueueEntry) : list string * gmap string QueueEntry :=
  match batch with
  | [] => ([], t)
  | entry :: rest =>
      let '(rel, t') := unpark_one now workspaceId repoFullName requireAlignment entry t in
      let '(rels, t'') := unpark_loop now workspaceId repoFullName requireAlignment rest t' in
      (rel ++ rels, t'')
  end.

(** The batch: parked rows of the workspace listing [completedNumber]. *)
Definition parked_dependents (t : gmap string QueueEntry) (workspaceId : string)
    (completedNumber : N) : list QueueEntry :=
  (select_where (λ _ r, (qe_workspace_id r ≡? workspaceId) && (qe_state r ≡? parked)
     && bool_decide (completedNumber ∈ qe_blocked_by r)) t).*2.

Definition unparkDependents (now : Z) (workspaceId completedExternalId : string)
    (d : QueueDb) : list string * QueueDb :=
  match split_last hash_char completedExternalId with
  | None => ([], d)
  | Some (repoFullName, digits) =>
      match read_N digits with
      | None => ([], d)
      | Some completedNumber =>
          let batch := parked_dependents (queue_entries d) workspaceId completedNumber in
          let requireAlignment := workspaceRequiresAlignment (workspaces d) workspaceId in
          let '(released, t) :=
            unpark_loop now workspaceId repoFullName requireAlignment batch (queue_entries d) in
          (released, with_queue_entries t d)
      end
  end.

(** [split_part(s, '#', 1)] *)
Fixpoint split_part_first (s : string) : string :=
  match s with
  | EmptyString => EmptyString
  | String c s' => if c ≡? hash_char then EmptyString else String c (split_part_first s')
  end.

(** The [blockers] CTE of [confirmAlignmentBrief]: the unmet ones in order. *)
Definition confirm_unmet (t : gmap string QueueEntry) (target : QueueEntry) : list N :=
  filter (λ num, select_where (λ _ g,
     (qe_workspace_id g ≡? qe_workspace_id target)
     && (qe_external_id g ≡? issue_external_id (split_part_first (qe_external_id target)) num)
     && (qe_state g ≡? green)) t = []) (qe_blocked_by target).

Record ConfirmInput := mkConfirmInput {
  ci_queueEntryId : string;
  ci_estimatedBudgetUsd : Z;
  ci_modelOverride : string;
  ci_taskType : option string;
}.

Definition confirm_row (now : Z) (t : gmap string QueueEntry) (input : ConfirmInput)
    (qe : QueueEntry) : QueueEntry :=
  let unmet := confirm_unmet t qe in
  set_qe_updated_at now
   (set_qe_brief (Some (ci_estimatedBudgetUsd input)) (Some (ci_modelOverride input))
      (ci_taskType input)
     (set_qe_park_reason
        (match unmet with
         | [] => None
         | _ => Some ("Waiting on " +:+ join_strings ", " ((λ n, "#" +:+ show_N n) <$> unmet))
         end)
       (set_qe_state (match unmet with [] => queued | _ => parked end) qe))).

Definition confirmAlignmentBrief (now : Z) (input : ConfirmInput)
    (t : gmap string QueueEntry) : bool * gmap string QueueEntry :=
  let '(row, t') := update_row (ci_queueEntryId input) (λ qe, qe_state qe ≡? parked)
                      (confirm_row now t input) t in
  (negb (is_null row), t').

Definition denyAlignmentBrief (now : Z) (queueEntryId : string)
    (t : gmap string QueueEntry) : bool * gmap string QueueEntry :=
  let '(row, t') := update_row queueEntryId (λ qe, qe_state qe ≡? parked)
    (λ qe, set_qe_updated_at now
             (set_qe_park_reason (Some ALIGNMENT_DENIED_PARK_REASON) qe)) t in
  (negb (is_null row), t').

Inductive ReviseAlignmentBriefResult :=
  | revise_ok (updatedAt : Z)
  | revise_not_found
  | revise_not_denied.

Definition denied (qe : QueueEntry) : bool :=
  (qe_state qe ≡? parked) && (qe_park_reason qe ≡? Some ALIGNMENT_DENIED_PARK_REASON).

Definition reviseAlignmentBrief (now : Z) (queueEntryId title body : string)
    (t : gmap string QueueEntry) : ReviseAlignmentBriefResult * gmap string QueueEntry :=
  match t !! queueEntryId with
  | None => (revise_not_found, t)
  | Some row =>
      if negb (denied row) then (revise_not_denied, t) else
      match update_row queueEntryId denied
        (λ qe, set_qe_updated_at now (set_qe_brief None None None
                 (set_qe_park_reason (Some ALIGNMENT_PARK_REASON) (set_qe_text title body qe)))) t with
      | (Some qe, t') => (revise_ok (qe_updated_at qe), t')
      | (None, t') => (revise_not_denied, t')
      end
  end.

Inductive RequeueParkedQueueEntryResult :=
  | requeued | not_found | not_parked | alignment_locked.

Definition requeueParkedQueueEntry (now : Z) (ws : gmap string Workspace)
    (workspaceId id : string) (t : gmap string QueueEntry)
    : RequeueParkedQueueEntryResult * gmap string QueueEntry :=
  match t !! id with
  | Some row =>
      if qe_workspace_id row ≢? workspaceId then (not_found, t) else
      if qe_state row ≡? queued then
        if is_null (qe_next_eligible_at row) then (not_parked, t) else
        match update_row id (λ r, (qe_workspace_id r ≡? workspaceId) && (qe_state r ≡? queued))
                (λ r, set_qe_updated_at now (set_qe_next_eligible_at None r)) t with
        | (Some _, t') => (requeued, t')
        | (None, t') => (not_parked, t')
        end
      else if qe_state row ≢? parked then (not_parked, t)
      else if qe_park_reason row ≡? Some ALIGNMENT_DENIED_PARK_REASON then (alignment_locked, t)
      else
        let requireAlignment := workspaceRequiresAlignment ws workspaceId in
        if negb (aligned requireAlignment row) then
          (alignment_locked,
           (update_row id (λ r, (qe_workspace_id r ≡? workspaceId) && (qe_state r ≡? parked))
             (λ r, set_qe_updated_at now (set_qe_park_reason (Some ALIGNMENT_PARK_REASON) r)) t).2)
        else
          match update_row id
                  (λ r, (qe_workspace_id r ≡? workspaceId) && (qe_state r ≡? parked)
                    && (qe_park_reason r ≢? Some ALIGNMENT_DENIED_PARK_REASON)
                    && aligned requireAlignment r)
                  (λ r, set_qe_updated_at now (set_qe_park_reason None (set_qe_state queued r))) t with
          | (Some _, t') => (requeued, t')
          | (None, t') => (not_parked, t')
          end
  | None => (not_found, t)
  end.

(** [findQueueEntryByExternalId]: the row a revised issue maps to.  The
    [SELECT] has no ORDER BY; the first row returned is the result. *)
Definition findQueueEntryByExternalId (workspaceId repoFullName : string) (number : N)
    (t : gmap string QueueEntry) : option (string * QueueEntry) :=
  head (select_where (λ _ r, (qe_workspace_id r ≡? workspaceId) && (qe_source r ≡? github)
          && (qe_external_id r ≡? issue_external_id repoFullName number)) t).

(** ** Blockers *)

Lemma issue_external_id_segment repo n :
  last_segment hash_char (issue_external_id repo n) = show_N n.
Proof. apply last_segment_app, show_N_no_hash. Qed.

#[export] Instance issue_external_id_inj repo : Inj (=) (=) (issue_external_id repo).
Proof.
  intros n m H. apply (inj show_N).
  by rewrite <- !(issue_external_id_segment repo), H.
Qed.

(** An entry the alignment gate has nothing against. *)
Definition cleared (requireAlignment : bool) (e : QueueEntry) : Prop :=
  requireAlignment = false ∨ qe_kind e ≠ "issue" ∨ qe_estimated_budget_usd e ≠ None.

Lemma alignedP requireAlignment e : aligned requireAlignment e = true ↔ cleared requireAlignment e.
Proof.
  unfold aligned, cleared. case_bool_decide as Hk; destruct (qe_estimated_budget_usd e), requireAlignment;
    simpl; naive_solver.
Qed.

(** A green entry for issue [n] of [repo]. *)
Definition has_green (t : gmap string QueueEntry) (workspaceId repo : string) (n : N) : Prop :=
  ∃ k g, t !! k = Some g ∧ qe_workspace_id g = workspaceId
         ∧ qe_external_id g = issue_external_id repo n ∧ qe_state g = green.

Definition is_green_issue (workspaceId repo : string) (n : N) (_ : string) (g : QueueEntry) : bool :=
  (qe_workspace_id g ≡? workspaceId) && (qe_external_id g ≡? issue_external_id repo n)
  && (qe_state g ≡? green).

Lemma has_green_alt t ws repo n :
  has_green t ws repo n ↔ select_where (is_green_issue ws repo n) t ≠ [].
Proof.
  unfold has_green, is_green_issue. split.
  - intros (k & g & Hk & Hws & Hext & Hst) Hnil.
    assert ((k, g) ∈ select_where (is_green_issue ws repo n) t) as Hin.
    { apply elem_of_select_where. unfold is_green_issue.
      by rewrite !andb_true_iff, !bool_decide_eq_true. }
    unfold is_green_issue in Hin. rewrite Hnil in Hin. set_solver.
  - intros Hne. destruct (select_where _ t) as [|[k g] l] eqn:E; [done|].
    assert ((k, g) ∈ (k, g) :: l) as Hin by set_solver. rewrite <- E in Hin.
    apply elem_of_select_where in Hin as [Hk Hp]. bools. by exists k, g.
Qed.

#[export] Instance has_green_dec t ws repo n : Decision (has_green t ws repo n).
Proof.
  refine (cast_if_not (decide (select_where (is_green_issue ws repo n) t = [])));
    rewrite has_green_alt; naive_solver.
Defined.

Lemma elem_of_unmetBlockers t ws repo bs n :
  n ∈ unmetBlockers t ws repo bs ↔ n ∈ bs ∧ ¬ has_green t ws repo n.
Proof.
  unfold unmetBlockers. rewrite list_elem_of_filter, list_elem_of_omap.
  rewrite (and_comm (¬ _)). split; intros [Hn H]; (split; [done|]); intros Hc; apply H; clear H.
  - destruct Hc as (k & g & Hk & Hws & Hext & Hst). exists (k, g). simpl.
    rewrite Hext, issue_external_id_segment, read_show_N. split; [|done].
    apply elem_of_select_where. split; [done|].
    rewrite !andb_true_iff, !bool_decide_eq_true, Hext. set_solver.
  - destruct Hc as ([k g] & [Hk Hp]%elem_of_select_where & Hread). bools. simpl in Hread.
    match goal with H : _ ∈ _ <$> _ |- _ =>
      apply list_elem_of_fmap in H as (m & Hm & _) end.
    rewrite Hm, issue_external_id_segment, read_show_N in Hread.
    simplify_eq. by exists k, g.
Qed.

Lemma unmetBlockers_nil t ws repo bs :
  unmetBlockers t ws repo bs = [] ↔ ∀ n, n ∈ bs → has_green t ws repo n.
Proof.
  split.
  - intros H n Hn. apply dec_stable. intros Hg.
    assert (n ∈ unmetBlockers t ws repo bs) by by apply elem_of_unmetBlockers.
    rewrite H in *. set_solver.
  - intros H. destruct (unmetBlockers t ws repo bs) as [|n l] eqn:E; [done|].
    assert (n ∈ unmetBlockers t ws repo bs) as [Hn Hg]%elem_of_unmetBlockers
      by (rewrite E; set_solver). by destruct Hg; apply H.
Qed.

(** ** What a finished entry releases

    [unpark_effect] says, row by row, what [unparkDependents] does; the code
    reaches it by a loop of queries and updates over a batch. *)

Definition release (now : Z) (e : QueueEntry) : QueueEntry :=
  set_qe_updated_at now (set_qe_park_reason None (set_qe_state queued e)).
Definition hold_for_alignment (now : Z) (e : QueueEntry) : QueueEntry :=
  set_qe_updated_at now (set_qe_park_reason (Some ALIGNMENT_PARK_REASON) e).

Definition unpark_effect (now : Z) (t : gmap string QueueEntry)
    (workspaceId repo : string) (requireAlignment : bool) (e : QueueEntry) : QueueEntry :=
  if qe_park_reason e ≡? Some ALIGNMENT_DENIED_PARK_REASON then e else
  match unmetBlockers t workspaceId repo (qe_blocked_by e) with
  | _ :: _ => e
  | [] => if aligned requireAlignment e then release now e else hold_for_alignment now e
  end.

(** An external id names one row of a workspace. *)
Definition unique_external (t : gmap string QueueEntry) : Prop :=
  ∀ k k' e e', t !! k = Some e → t !! k' = Some e' →
    qe_workspace_id e = qe_workspace_id e' → qe_external_id e = qe_external_id e' → k = k'.

Section Unpark.
Context (now : Z) (workspaceId repo : string) (requireAlignment : bool).
Implicit Types (t : gmap string QueueEntry) (e : QueueEntry).

Definition same_greens t t' : Prop :=
  ∀ n, has_green t workspaceId repo n ↔ has_green t' workspaceId repo n.

Lemma unmetBlockers_same_greens t t' bs :
  same_greens t t' →
  unmetBlockers t workspaceId repo bs = unmetBlockers t' workspaceId repo bs.
Proof.
  intros Hg. unfold unmetBlockers. apply filter_ext_in. intros n Hn.
  assert (Heq : n ∈ unmetBlockers t workspaceId repo bs
            ↔ n ∈ unmetBlockers t' workspaceId repo bs)
    by (by rewrite !elem_of_unmetBlockers, (Hg n)).
  unfold unmetBlockers in Heq. rewrite !list_elem_of_filter in Heq. naive_solver.
Qed.

Lemma unpark_effect_same_greens t t' e :
  same_greens t t' →
  unpark_effect now t workspaceId repo requireAlignment e
  = unpark_effect now t' workspaceId repo requireAlignment e.
Proof. intros Hg. unfold unpark_effect. by rewrite (unmetBlockers_same_greens t t'). Qed.

(** A change to one row that keeps its identity and its not being green. *)
Lemma same_greens_insert t k e e' :
  t !! k = Some e → qe_state e ≠ green → qe_state e' ≠ green →
  same_greens t (<[k := e']> t).
Proof.
  intros Hk Hne Hne' n. unfold has_green. split; intros (k' & g & Hg & Hrest);
    exists k', g; (split; [|done]); destruct (decide (k = k')) as [<-|Hkk].
  - rewrite Hk in Hg. naive_solver.
  - by rewrite lookup_insert_ne.
  - rewrite lookup_insert_eq in Hg. naive_solver.
  - by rewrite lookup_insert_ne in Hg.
Qed.

Lemma unique_external_insert t k e e' :
  unique_external t → t !! k = Some e → same_identity e e' →
  unique_external (<[k := e']> t).
Proof.
  intros Hu Hk (Hw & _ & _ & Hx & _) k1 k2 e1 e2.
  destruct (decide (k = k1)) as [<-|H1], (decide (k = k2)) as [<-|H2];
    rewrite ?lookup_insert_eq, ?lookup_insert_ne by done; [done|..]; intros; simplify_eq.
  - apply (Hu k k2 e e2); congruence.
  - apply (Hu k1 k e1 e); congruence.
  - by eapply Hu.
Qed.

Lemma unpark_effect_identity t e :
  same_identity e (unpark_effect now t workspaceId repo requireAlignment e)
  ∧ (qe_state e = parked →
     qe_state (unpark_effect now t workspaceId repo requireAlignment e) ≠ green).
Proof.
  unfold unpark_effect.
  destruct (bool_decide _); [split; [done|congruence]|].
  destruct (unmetBlockers _ _ _ _); [|split; [done|congruence]].
  destruct (aligned _ _); split; try done; simpl; congruence.
Qed.

Lemma update_by_external t k e f (p : QueueEntry → bool) :
  unique_external t → t !! k = Some e → qe_workspace_id e = workspaceId →
  qe_state e = parked → p e = true →
  update_where (λ _ r, (qe_workspace_id r ≡? workspaceId)
     && (qe_external_id r ≡? qe_external_id e) && (qe_state r ≡? parked) && p r) f t
  = <[k := f e]> t.
Proof.
  intros Hu Hk Hws Hst Hp. apply map_eq. intros k'. rewrite lookup_update_where.
  destruct (decide (k = k')) as [<-|Hne].
  - rewrite Hk, lookup_insert_eq. simpl. by rewrite !bool_decide_eq_true_2, Hp.
  - rewrite lookup_insert_ne by done. destruct (t !! k') as [r|] eqn:E; [|done]. simpl.
    case_match eqn:Hc; [|done]. bools. exfalso. apply Hne.
    apply (Hu k k' e r); congruence.
Qed.

Lemma unpark_one_effect t k e :
  unique_external t → t !! k = Some e → qe_workspace_id e = workspaceId →
  qe_state e = parked →
  (unpark_one now workspaceId repo requireAlignment e t).2
  = <[k := unpark_effect now t workspaceId repo requireAlignment e]> t.
Proof.
  intros Hu Hk Hws Hst. unfold unpark_one, unpark_effect.
  destruct (bool_decide _); [by rewrite insert_id|].
  destruct (unmetBlockers _ _ _ _); [|by rewrite insert_id].
  destruct (aligned _ _) eqn:Ha; simpl.
  - rewrite <- (update_by_external t k e _ (λ _, true)) by done.
    apply map_eq. intros k'. rewrite !lookup_update_where.
    destruct (t !! k'); [|done]. simpl. by rewrite andb_true_r.
  - rewrite <- (update_by_external t k e _ (λ r, is_null (qe_estimated_budget_usd r))) by
      (try done; unfold aligned in Ha; bools; done). done.
Qed.

Lemma unpark_loop_cons e rest t :
  (unpark_loop now workspaceId repo requireAlignment (e :: rest) t).2
  = (unpark_loop now workspaceId repo requireAlignment rest
       (unpark_one now workspaceId repo requireAlignment e t).2).2.
Proof. simpl. destruct (unpark_one _ _ _ _ _ _). simpl. by destruct (unpark_loop _ _ _ _ _ _). Qed.

Lemma unpark_loop_effect t0 (batch : list (string * QueueEntry)) t :
  NoDup batch.*1 → unique_external t → same_greens t0 t →
  (∀ k e, (k, e) ∈ batch → t !! k = Some e ∧ qe_workspace_id e = workspaceId ∧ qe_state e = parked) →
  ∀ k, (unpark_loop now workspaceId repo requireAlignment batch.*2 t).2 !! k
    = (if bool_decide (k ∈ batch.*1)
       then unpark_effect now t0 workspaceId repo requireAlignment else id) <$> t !! k.
Proof.
  revert t. induction batch as [|[k0 e0] batch IH]; intros t Hnd Hu Hg Hb k.
  { simpl. by destruct (t !! k). }
  rewrite fmap_cons, unpark_loop_cons. rewrite fmap_cons in *. simpl in Hnd.
  apply NoDup_cons in Hnd as [Hk0 Hnd].
  destruct (Hb k0 e0) as (Ht0 & Hws0 & Hst0); [set_solver|].
  simpl fst; simpl snd. rewrite (unpark_one_effect t k0 e0) by done.
  destruct (unpark_effect_identity t e0) as [Hid Hng].
  rewrite IH; [|done| | |].
  - destruct (decide (k = k0)) as [->|Hne].
    + rewrite lookup_insert_eq, Ht0, bool_decide_eq_false_2 by done.
      rewrite bool_decide_eq_true_2 by set_solver. simpl.
      by rewrite (unpark_effect_same_greens t0 t).
    + rewrite lookup_insert_ne by done. f_equal.
      by rewrite (bool_decide_ext (k ∈ batch.*1) (k ∈ k0 :: batch.*1)) by set_solver.
  - by eapply unique_external_insert.
  - intros n. rewrite (Hg n). apply (same_greens_insert t k0 e0); [done|congruence|by apply Hng].
  - intros k' e' Hin. assert (k' ≠ k0).
    { intros ->. apply Hk0. apply list_elem_of_fmap. by exists (k0, e'). }
    rewrite lookup_insert_ne by done. apply Hb. set_solver.
Qed.
End Unpark.

Lemma read_issue_external_id repo n :
  split_last hash_char (issue_external_id repo n) = Some (repo, show_N n).
Proof. apply split_last_app, show_N_no_hash. Qed.

Lemma NoDup_select_where {A} p (t : gmap string A) : NoDup (select_where p t).*1.
Proof.
  unfold select_where. assert (H := NoDup_fst_map_to_list t).
  induction (map_to_list t) as [|[k r] l IH]; simpl in *; [done|].
  apply NoDup_cons in H as [Hk Hl].
  destruct (p k r); simpl; [|by apply IH]. apply NoDup_cons. split; [|by apply IH].
  intros (x & -> & Hx)%list_elem_of_fmap. apply Hk.
  apply list_elem_of_fmap. exists x. split; [done|].
  rewrite list_elem_of_In, filter_In in Hx. rewrite list_elem_of_In. naive_solver.
Qed.

(** The rows [unparkDependents] looks at: parked dependents of the finished
    issue, in the whole workspace. *)
Definition is_dependent (workspaceId : string) (n : N) (e : QueueEntry) : bool :=
  (qe_workspace_id e ≡? workspaceId) && (qe_state e ≡? parked)
  && bool_decide (n ∈ qe_blocked_by e).

(** The loop over the batch, row by row. *)
Lemma unpark_batch_lookup now ws repo n al t k :
  unique_external t →
  (unpark_loop now ws repo al (parked_dependents t ws n) t).2 !! k
  = (λ e, if is_dependent ws n e then unpark_effect now t ws repo al e else e) <$> t !! k.
Proof.
  intros Hu. unfold parked_dependents.
  rewrite (unpark_loop_effect now ws repo _ t); [|apply NoDup_select_where|done|done|].
  - destruct (t !! k) as [e|] eqn:Hk; [|done]. simpl. f_equal.
    unfold is_dependent. case_bool_decide as Hin.
    + apply list_elem_of_fmap in Hin as ([k' e'] & -> & [Hk' Hp]%elem_of_select_where).
      simpl in *. simplify_eq. by rewrite Hp.
    + case_match eqn:Hp; [|done]. destruct Hin. apply list_elem_of_fmap.
      exists (k, e). split; [done|]. by apply elem_of_select_where.
  - intros k' e' [Hk' Hp]%elem_of_select_where. by bools.
Qed.

Lemma unparkDependents_lookup now ws repo n d k :
  unique_external (queue_entries d) →
  queue_entries (unparkDependents now ws (issue_external_id repo n) d).2 !! k
  = (λ e, if is_dependent ws n e
          then unpark_effect now (queue_entries d) ws repo
                 (workspaceRequiresAlignment (workspaces d) ws) e
          else e) <$> queue_entries d !! k.
Proof.
  intros Hu. unfold unparkDependents. rewrite read_issue_external_id, read_show_N.
  rewrite <- unpark_batch_lookup by done. by destruct (unpark_loop _ _ _ _ _ _).
Qed.

(** For any external id: nothing happens, or a batch is processed. *)
Lemma unparkDependents_any now ws ext d k :
  unique_external (queue_entries d) →
  queue_entries (unparkDependents now ws ext d).2 !! k = queue_entries d !! k
  ∨ ∃ repo n, queue_entries (unparkDependents now ws ext d).2 !! k
      = (λ e, if is_dependent ws n e
              then unpark_effect now (queue_entries d) ws repo
                     (workspaceRequiresAlignment (workspaces d) ws) e
              else e) <$> queue_entries d !! k.
Proof.
  intros Hu. unfold unparkDependents. destruct (split_last _ _) as [[repo digits]|]; [|by left].
  destruct (read_N digits) as [n|]; [|by left]. right. exists repo, n.
  rewrite <- unpark_batch_lookup by done. by destruct (unpark_loop _ _ _ _ _ _).
Qed.

(** It writes [queue_entries] and nothing else, and only parked rows of it. *)
Lemma unparkDependents_frame now ws ext d :
  ∃ t, (unparkDependents now ws ext d).2 = with_queue_entries t d.
Proof.
  assert (∃ t, d = with_queue_entries t d) as Hd by (exists (queue_entries d); by destruct d).
  unfold unparkDependents. destruct (split_last _ _) as [[repo digits]|]; [|done].
  destruct (read_N _); [|done]. destruct (unpark_loop _ _ _ _ _ _). by eexists.
Qed.

Lemma unpark_loop_not_parked now ws repo al batch t k e :
  t !! k = Some e → qe_state e ≠ parked →
  (unpark_loop now ws repo al batch t).2 !! k = Some e.
Proof.
  intros Hk Hst. revert t Hk. induction batch as [|b batch IH]; intros t Hk; [done|].
  rewrite unpark_loop_cons. apply IH. unfold unpark_one.
  destruct (bool_decide _); [done|]. destruct (unmetBlockers _ _ _ _); [|done].
  destruct (aligned _ _); simpl; rewrite lookup_update_where, Hk; simpl;
    by rewrite (bool_decide_eq_false_2 (qe_state e = parked)), !andb_false_r.
Qed.

Lemma unparkDependents_not_parked now ws ext d k e :
  queue_entries d !! k = Some e → qe_state e ≠ parked →
  queue_entries (unparkDependents now ws ext d).2 !! k = Some e.
Proof.
  intros Hk Hst. unfold unparkDependents. destruct (split_last _ _) as [[repo digits]|]; [|done].
  destruct (read_N _) as [n|]; [|done].
  destruct (unpark_loop _ _ _ _ _ _) as [rel t] eqn:E. simpl.
  apply (f_equal snd) in E. simpl in E. rewrite <- E. by apply unpark_loop_not_parked.
Qed.

(** When external ids name single rows, the loop of queries
    and updates in [unparkDependents] is one simultaneous row-by-row effect:
    each parked row of the workspace listing the finished issue number is
    released, held for alignment or left alone as [unpark_effect] says, judged
    against the greens before the call; every other row of the queue, and every
    other table, is untouched. *)
Theorem unparkDependents_effect now ws repo n d :
  unique_external (queue_entries d) →
  (unparkDependents now ws (issue_external_id repo n) d).2
  = with_queue_entries
      ((λ e, if is_dependent ws n e
             then unpark_effect now (queue_entries d) ws repo
                    (workspaceRequiresAlignment (workspaces d) ws) e
             else e) <$> queue_entries d) d.
Proof.
  intros Hu. destruct (unparkDependents_frame now ws (issue_external_id repo n) d) as [t Ht].
  rewrite Ht. f_equal. apply map_eq. intros k. rewrite lookup_fmap.
  rewrite <- unparkDependents_lookup by done. by rewrite Ht.
Qed.

(** A dependency can release an entry only if the entry is
    aligned and was not denied: after [unparkDependents] a row that was parked
    and is not any more is queued, lists the finished issue, was not denied,
    passes the alignment check, and each issue it is blocked by has a green
    entry in the finished issue's repository. *)
Theorem unparkDependents_safe now ws repo n d k e e' :
  unique_external (queue_entries d) →
  queue_entries d !! k = Some e → qe_state e = parked →
  queue_entries (unparkDependents now ws (issue_external_id repo n) d).2 !! k = Some e' →
  qe_state e' ≠ parked →
  qe_state e' = queued ∧ qe_workspace_id e = ws ∧ n ∈ qe_blocked_by e
  ∧ qe_park_reason e ≠ Some ALIGNMENT_DENIED_PARK_REASON
  ∧ cleared (workspaceRequiresAlignment (workspaces d) ws) e
  ∧ ∀ b, b ∈ qe_blocked_by e → has_green (queue_entries d) ws repo b.
Proof.
  intros Hu Hk Hst Hk' Hne. rewrite unparkDependents_lookup, Hk in Hk' by done.
  simpl in Hk'. injection Hk' as <-.
  destruct (is_dependent ws n e) eqn:Hd; [|done]. unfold is_dependent in Hd. bools.
  revert Hne. unfold unpark_effect. case_bool_decide; [done|].
  destruct (unmetBlockers _ _ _ _) eqn:Hun; [|done].
  destruct (aligned _ _) eqn:Ha; [|done]. intros _. assert (Hg := proj1 (unmetBlockers_nil _ _ _ _) Hun).
  apply alignedP in Ha. repeat split; by try apply Hg.
Qed.

(** The other direction: a parked, aligned, undenied entry of
    the workspace whose blockers are all green in the repository is queued
    after its last blocker's completion is reported, and its identity, budget
    and blockers are kept. *)
Theorem unparkDependents_releases now ws repo n d k e :
  unique_external (queue_entries d) →
  queue_entries d !! k = Some e → qe_state e = parked → qe_workspace_id e = ws →
  n ∈ qe_blocked_by e → qe_park_reason e ≠ Some ALIGNMENT_DENIED_PARK_REASON →
  cleared (workspaceRequiresAlignment (workspaces d) ws) e →
  (∀ b, b ∈ qe_blocked_by e → has_green (queue_entries d) ws repo b) →
  queue_entries (unparkDependents now ws (issue_external_id repo n) d).2 !! k
  = Some (release now e).
Proof.
  intros Hu Hk Hst Hws Hin Hden Ha%alignedP Hb. rewrite unparkDependents_lookup, Hk by done.
  simpl. f_equal. unfold is_dependent, unpark_effect.
  rewrite !bool_decide_eq_true_2, bool_decide_eq_false_2 by done. simpl.
  assert (unmetBlockers (queue_entries d) ws repo (qe_blocked_by e) = []) as ->
    by by apply unmetBlockers_nil. by rewrite Ha.
Qed.

(** ** Confirming a brief *)

Lemma split_part_first_app repo s :
  contains_char hash_char repo = false →
  split_part_first (repo +:+ String hash_char s) = repo.
Proof.
  induction repo as [|c repo IH]; simpl; [done|].
  intros [Hc Hr]%orb_false_iff. by rewrite Hc, IH.
Qed.

Lemma confirm_unmet_eq t e repo n :
  qe_external_id e = issue_external_id repo n →
  contains_char hash_char repo = false →
  confirm_unmet t e = unmetBlockers t (qe_workspace_id e) repo (qe_blocked_by e).
Proof.
  intros Hext Hrepo. unfold confirm_unmet, unmetBlockers. apply filter_ext_in. intros b Hb.
  assert (Hm := elem_of_unmetBlockers t (qe_workspace_id e) repo (qe_blocked_by e) b).
  unfold unmetBlockers in Hm. rewrite list_elem_of_filter in Hm.
  rewrite Hext, (split_part_first_app repo (show_N n) Hrepo : split_part_first (issue_external_id repo n) = repo).
  assert (Hg := has_green_alt t (qe_workspace_id e) repo b).
  unfold is_green_issue in Hg. destruct (decide (select_where
    (λ (_ : string) (g : QueueEntry), (qe_workspace_id g ≡? qe_workspace_id e)
       && (qe_external_id g ≡? issue_external_id repo b) && (qe_state g ≡? green)) t = []));
    naive_solver.
Qed.

(** [confirmAlignmentBrief]'s single SQL statement agrees
    with [unmetBlockers], which admission and release use: confirming a parked
    entry of issue [n] of [repo] succeeds, writes the sanctioned budget, model
    and task type, and queues the entry exactly when no blocker is unmet,
    otherwise leaving it parked with admission's waiting-on text. *)
Theorem confirmAlignmentBrief_lockstep now input t e repo n :
  t !! ci_queueEntryId input = Some e → qe_state e = parked →
  qe_external_id e = issue_external_id repo n → contains_char hash_char repo = false →
  let unmet := unmetBlockers t (qe_workspace_id e) repo (qe_blocked_by e) in
  ∃ e', confirmAlignmentBrief now input t = (true, <[ci_queueEntryId input := e']> t)
    ∧ same_identity e e'
    ∧ qe_estimated_budget_usd e' = Some (ci_estimatedBudgetUsd input)
    ∧ qe_model_override e' = Some (ci_modelOverride input)
    ∧ qe_task_type e' = ci_taskType input
    ∧ (if decide (unmet = [])
       then qe_state e' = queued ∧ qe_park_reason e' = None
       else qe_state e' = parked ∧ qe_park_reason e' = Some (formatWaitingOnReason unmet)).
Proof.
  intros Hk Hst Hext Hrepo unmet. exists (confirm_row now t input e).
  split.
  { unfold confirmAlignmentBrief, update_row. by rewrite Hk, bool_decide_eq_true_2. }
  unfold confirm_row. rewrite (confirm_unmet_eq t e repo n) by done. fold unmet.
  repeat (split; [done|]). unfold formatWaitingOnReason.
  by destruct unmet; case_decide.
Qed.

(** A confirm, deny or revise of an entry that is not parked changes nothing. *)
Lemma confirm_not_parked now input t :
  (∀ e, t !! ci_queueEntryId input = Some e → qe_state e ≠ parked) →
  confirmAlignmentBrief now input t = (false, t).
Proof.
  intros H. unfold confirmAlignmentBrief, update_row.
  destruct (t !! _) as [e|] eqn:E; [|done]. by rewrite bool_decide_eq_false_2 by auto.
Qed.

(** ** Denial, revision, requeue *)

Lemma park_reasons_distinct :
  Some ALIGNMENT_PARK_REASON ≠ Some ALIGNMENT_DENIED_PARK_REASON.
Proof. discriminate. Qed.

Lemma denied_false e :
  qe_park_reason e ≠ Some ALIGNMENT_DENIED_PARK_REASON → denied e = false.
Proof. intros H. unfold denied. by rewrite (bool_decide_eq_false_2 _ H), andb_false_r. Qed.

Lemma denied_true e :
  qe_state e = parked → qe_park_reason e = Some ALIGNMENT_DENIED_PARK_REASON →
  denied e = true.
Proof. intros Hs Hr. unfold denied. by rewrite (bool_decide_eq_true_2 _ Hs), (bool_decide_eq_true_2 _ Hr). Qed.

Lemma denyAlignmentBrief_parked now k t e :
  t !! k = Some e → qe_state e = parked →
  denyAlignmentBrief now k t
  = (true, <[k := set_qe_updated_at now
               (set_qe_park_reason (Some ALIGNMENT_DENIED_PARK_REASON) e)]> t).
Proof.
  intros Hk Hst. unfold denyAlignmentBrief, update_row.
  by rewrite Hk, bool_decide_eq_true_2.
Qed.

Lemma reviseAlignmentBrief_denied now k title body t e :
  t !! k = Some e → denied e = true →
  reviseAlignmentBrief now k title body t
  = (revise_ok now,
     <[k := set_qe_updated_at now (set_qe_brief None None None
              (set_qe_park_reason (Some ALIGNMENT_PARK_REASON) (set_qe_text title body e)))]> t).
Proof. intros Hk Hd. unfold reviseAlignmentBrief, update_row. by rewrite Hk, Hd. Qed.

Lemma reviseAlignmentBrief_not_denied now k title body t e :
  t !! k = Some e → qe_park_reason e = Some ALIGNMENT_PARK_REASON →
  reviseAlignmentBrief now k title body t = (revise_not_denied, t).
Proof.
  intros Hk Hr. unfold reviseAlignmentBrief. rewrite Hk, denied_false; [done|].
  rewrite Hr. apply park_reasons_distinct.
Qed.

(** A denial can be revised exactly once: after [deny] a
    [revise] succeeds, replaces title and body, puts the entry back to
    "awaiting alignment" with no budget, model or task type, keeps it parked,
    and a second [revise] is refused and changes nothing. *)
Theorem deny_then_revise now1 now2 now3 k t t1 t2 b r2 e title body title' body' :
  t !! k = Some e → qe_state e = parked →
  denyAlignmentBrief now1 k t = (b, t1) →
  reviseAlignmentBrief now2 k title body t1 = (r2, t2) →
  b = true ∧ r2 = revise_ok now2
  ∧ (∃ e2, t2 = <[k := e2]> t ∧ qe_state e2 = parked
      ∧ qe_park_reason e2 = Some ALIGNMENT_PARK_REASON
      ∧ qe_title e2 = title ∧ qe_body e2 = body
      ∧ qe_estimated_budget_usd e2 = None ∧ qe_model_override e2 = None
      ∧ qe_task_type e2 = None ∧ same_identity e e2)
  ∧ reviseAlignmentBrief now3 k title' body' t2 = (revise_not_denied, t2).
Proof.
  intros Hk Hst Hd Hr. rewrite (denyAlignmentBrief_parked now1 k t e) in Hd by done.
  injection Hd as <- <-.
  erewrite reviseAlignmentBrief_denied in Hr; [|apply lookup_insert_eq|by apply denied_true].
  injection Hr as <- <-. rewrite insert_insert_eq.
  split; [done|]. split; [done|]. split; [by eexists|].
  by eapply reviseAlignmentBrief_not_denied; [apply lookup_insert_eq|].
Qed.

(** What a requeue may do to the row it names. *)
Inductive requeue_spec (now : Z) (ws : gmap string Workspace) (workspaceId id : string)
    (t : gmap string QueueEntry)
    : RequeueParkedQueueEntryResult * gmap string QueueEntry → Prop :=
  | rq_not_found :
      (∀ e, t !! id = Some e → qe_workspace_id e ≠ workspaceId) →
      requeue_spec now ws workspaceId id t (not_found, t)
  | rq_backoff e :
      t !! id = Some e → qe_workspace_id e = workspaceId → qe_state e = queued →
      qe_next_eligible_at e ≠ None →
      requeue_spec now ws workspaceId id t
        (requeued, <[id := set_qe_updated_at now (set_qe_next_eligible_at None e)]> t)
  | rq_not_parked e :
      t !! id = Some e → qe_workspace_id e = workspaceId → qe_state e ≠ parked →
      (qe_state e = queued → qe_next_eligible_at e = None) →
      requeue_spec now ws workspaceId id t (not_parked, t)
  | rq_denied e :
      t !! id = Some e → qe_workspace_id e = workspaceId → denied e = true →
      requeue_spec now ws workspaceId id t (alignment_locked, t)
  | rq_unaligned e :
      t !! id = Some e → qe_workspace_id e = workspaceId → qe_state e = parked →
      aligned (workspaceRequiresAlignment ws workspaceId) e = false →
      requeue_spec now ws workspaceId id t
        (alignment_locked, <[id := hold_for_alignment now e]> t)
  | rq_released e :
      t !! id = Some e → qe_workspace_id e = workspaceId → qe_state e = parked →
      qe_park_reason e ≠ Some ALIGNMENT_DENIED_PARK_REASON →
      aligned (workspaceRequiresAlignment ws workspaceId) e = true →
      requeue_spec now ws workspaceId id t (requeued, <[id := release now e]> t).

Lemma requeueParkedP now ws workspaceId id t :
  requeue_spec now ws workspaceId id t (requeueParkedQueueEntry now ws workspaceId id t).
Proof.
  unfold requeueParkedQueueEntry.
  destruct (t !! id) as [e|] eqn:Hk; [|by constructor; naive_solver].
  destruct (decide (qe_workspace_id e = workspaceId)) as [Hws|Hws].
  2:{ rewrite (bool_decide_eq_false_2 (_ = workspaceId)) by done.
      constructor. naive_solver. }
  rewrite (bool_decide_eq_true_2 (_ = workspaceId)) by done. simpl.
  unfold update_row; rewrite Hk, Hws. rewrite (bool_decide_eq_true_2 (workspaceId = _)) by done.
  destruct (qe_state e) eqn:Hst; simpl; try (by apply (rq_not_parked _ _ _ _ _ e); congruence).
  - destruct (qe_next_eligible_at e) eqn:Hn; simpl.
    + apply rq_backoff; congruence.
    + by apply (rq_not_parked _ _ _ _ _ e); congruence.
  - case_bool_decide as Hd; simpl.
    + apply (rq_denied _ _ _ _ _ e); [done..|]. unfold denied.
      by rewrite Hst, Hd, !bool_decide_eq_true_2.
    + destruct (aligned _ e) eqn:Ha; simpl.
      * by apply rq_released.
      * by apply rq_unaligned.
Qed.

(** [requeueParkedQueueEntry] on every branch: the result
    and the whole table afterwards.  In particular an entry is released to
    [queued] only if it is parked, undenied and aligned, and a pending backoff
    is cleared without touching state, tier or budget. *)
Theorem requeueParkedQueueEntry_correct now ws workspaceId id t :
  requeue_spec now ws workspaceId id t (requeueParkedQueueEntry now ws workspaceId id t).
Proof. apply requeueParkedP. Qed.

(** ** The gate *)

(** One operation of this file, by any caller at any time. *)
Inductive gate_op :=
  | go_complete (now : Z) (workspaceId externalId : string)
  | go_confirm (now : Z) (input : ConfirmInput)
  | go_deny (now : Z) (k : string)
  | go_revise (now : Z) (k title body : string)
  | go_requeue (now : Z) (workspaceId k : string).
Definition exec_gate (o : gate_op) (d : QueueDb) : QueueDb :=
  let t := queue_entries d in
  match o with
  | go_complete now w ext => (unparkDependents now w ext d).2
  | go_confirm now input => with_queue_entries (confirmAlignmentBrief now input t).2 d
  | go_deny now k => with_queue_entries (denyAlignmentBrief now k t).2 d
  | go_revise now k title body => with_queue_entries (reviseAlignmentBrief now k title body t).2 d
  | go_requeue now w k => with_queue_entries (requeueParkedQueueEntry now (workspaces d) w k t).2 d
  end.
Definition exec_gates (l : list gate_op) (d : QueueDb) : QueueDb := fold_left (λ d o, exec_gate o d) l d.

(** A confirmation in [l] gave the entry the budget [u]. *)
Definition confirmed_with (l : list gate_op) (k : string) (u : Z) : Prop :=
  ∃ now input, go_confirm now input ∈ l ∧ ci_queueEntryId input = k ∧ ci_estimatedBudgetUsd input = u.
Definition brief_part (e : QueueEntry) := (qe_estimated_budget_usd e, qe_model_override e, qe_task_type e).

(** What the operations [l] do to the entry under [k], in a workspace that
    requires alignment or not. *)
Record gate_row (requires : string → bool) (l : list gate_op) (k : string) (e e' : QueueEntry) : Prop := {
  gr_identity : same_identity e e';
  gr_free : qe_state e ≠ parked → qe_state e' = qe_state e ∧ brief_part e' = brief_part e;
  gr_held : qe_state e = parked → qe_state e' = parked ∨ cleared (requires (qe_workspace_id e)) e';
  gr_budget : ∀ u, qe_estimated_budget_usd e' = Some u → qe_estimated_budget_usd e = Some u ∨ confirmed_with l k u;
}.

Lemma gate_row_refl requires l k e : gate_row requires l k e e.
Proof. split; [done|done|by left|by left]. Qed.
#[local] Hint Resolve gate_row_refl : core.
Lemma gate_entry_refl requires l k (x : option QueueEntry) : option_Forall2 (gate_row requires l k) x x.
Proof. destruct x; by constructor. Qed.
#[local] Hint Resolve gate_entry_refl : core.

Lemma gate_row_app requires l1 l2 k e1 e2 e3 :
  gate_row requires l1 k e1 e2 → gate_row requires l2 k e2 e3 → gate_row requires (l1 ++ l2) k e1 e3.
Proof.
  intros [I1 F1 H1 B1] [I2 F2 H2 B2]. assert (Hw : qe_workspace_id e2 = qe_workspace_id e1) by apply I1. split.
  - by etrans.
  - intros Hp. destruct (F1 Hp) as [S1 P1]. destruct F2 as [S2 P2]; [congruence|]. split; congruence.
  - intros Hp. rewrite <- Hw. destruct (decide (qe_state e2 = parked)) as [E|E]; [by apply H2|right].
    destruct (H1 Hp) as [?|Hc]; [done|]. destruct (F2 E) as [_ [= Hb _ _]].
    destruct I2 as (_ & _ & Hk & _). unfold cleared in *. by rewrite Hw, Hk, Hb.
  - intros u Hu. destruct (B2 u Hu) as [Hu'|(now & i & Hin & ?)].
    + destruct (B1 u Hu') as [?|(now & i & Hin & ?)]; [by left|right]. exists now, i. set_solver.
    + right. exists now, i. set_solver.
Qed.

Lemma update_row_gate requires l k j p f t :
  (∀ e, t !! k = Some e → p e = true → gate_row requires l k e (f e)) →
  option_Forall2 (gate_row requires l j) (t !! j) ((update_row k p f t).2 !! j).
Proof.
  intros Hf. destruct (update_rowP p f k t) as [e Hk Hp|]; cbn; [|done].
  destruct (decide (j = k)) as [->|Hne]; [|by rewrite lookup_insert_ne].
  rewrite lookup_insert_eq, Hk. constructor. by apply Hf.
Qed.
Lemma insert_gate requires l k j e e' (t : gmap string QueueEntry) : t !! k = Some e → gate_row requires l k e e' →
  option_Forall2 (gate_row requires l j) (t !! j) (<[k := e']> t !! j).
Proof.
  intros Hk He. destruct (decide (j = k)) as [->|Hne].
  - rewrite lookup_insert_eq, Hk. by constructor.
  - by rewrite lookup_insert_ne.
Qed.

(** An entry that stays parked, with its budget or none. *)
Lemma gate_row_stays requires l k e e' : same_identity e e' → qe_state e = parked → qe_state e' = parked →
  qe_estimated_budget_usd e' = qe_estimated_budget_usd e ∨ qe_estimated_budget_usd e' = None →
  gate_row requires l k e e'.
Proof. intros Hi Hp Hp' Hb. split; [done|done|by left|]. intros u Hu. left. destruct Hb; congruence. Qed.
(** An entry that is released with the brief it has. *)
Lemma gate_row_release requires l k now e : qe_state e = parked → aligned (requires (qe_workspace_id e)) e = true →
  gate_row requires l k e (release now e).
Proof. intros Hp Ha. split; [done|done| |by left]. intros _. right. by apply alignedP in Ha. Qed.

Lemma exec_gate_rows o d j : unique_external (queue_entries d) →
  option_Forall2 (gate_row (workspaceRequiresAlignment (workspaces d)) [o] j)
    (queue_entries d !! j) (queue_entries (exec_gate o d) !! j).
Proof.
  intros Hu. destruct o as [now w ext|now input|now k|now k title body|now w k]; cbn [exec_gate queue_entries with_queue_entries].
  - destruct (unparkDependents_any now w ext d j Hu) as [->|(repo & n & ->)]; [done|].
    destruct (queue_entries d !! j) as [e|]; [|done]. constructor. destruct (is_dependent w n e) eqn:Hd; [|done].
    unfold is_dependent in Hd. bools. subst w. unfold unpark_effect. destruct (bool_decide _); [done|].
    destruct (unmetBlockers _ _ _ _); [|done]. destruct (aligned _ e) eqn:Ha; [by apply gate_row_release|].
    by apply gate_row_stays; [..|by left].
  - unfold confirmAlignmentBrief. pose proof (λ H, update_row_gate (workspaceRequiresAlignment (workspaces d)) [go_confirm now input] (ci_queueEntryId input) j
      (λ qe, qe_state qe ≡? parked) (confirm_row now (queue_entries d) input) (queue_entries d) H) as Hx.
    destruct (update_row _ _ _ _) as [r t']. cbn [snd] in *. apply Hx. clear Hx. intros e _ Hp. bools.
    split; [done|done|intros _; by right; right; right|]. intros u [= <-]. right. exists now, input. set_solver.
  - unfold denyAlignmentBrief. pose proof (λ H, update_row_gate (workspaceRequiresAlignment (workspaces d)) [go_deny now k] k j
      (λ qe, qe_state qe ≡? parked) (λ qe, set_qe_updated_at now (set_qe_park_reason (Some ALIGNMENT_DENIED_PARK_REASON) qe))
      (queue_entries d) H) as Hx.
    destruct (update_row _ _ _ _) as [r t']. cbn [snd] in *. apply Hx. intros e _ Hp. bools. by apply gate_row_stays; [..|by left].
  - unfold reviseAlignmentBrief. destruct (queue_entries d !! k) as [row|] eqn:Hk; [|done].
    destruct (denied row) eqn:Hd; cbn [negb snd]; [|done]. unfold update_row. rewrite Hk, Hd. cbn [snd].
    unfold denied in Hd. bools. eapply insert_gate; [exact Hk|]. by apply gate_row_stays; [..|by right].
  - destruct (requeueParkedP now (workspaces d) w k (queue_entries d)) as
      [|e Hk Hw Hst _| |e Hk Hw|e Hk Hw Hst Ha|e Hk Hw Hst Hd Ha]; cbn [snd]; try done;
      (eapply insert_gate; [exact Hk|]).
    + split; [done|done|intros Hp; by left|by left].
    + by apply gate_row_stays; [..|by left].
    + apply gate_row_release; [done|by rewrite Hw].
Qed.

Lemma gate_rows_unique requires l t t' : (∀ j, option_Forall2 (gate_row requires l j) (t !! j) (t' !! j)) →
  unique_external t → unique_external t'.
Proof.
  intros H Hu k k' e e' Hk Hk' Hw Hx. pose proof (H k) as H1. pose proof (H k') as H2. rewrite Hk in H1. rewrite Hk' in H2.
  destruct (t !! k) as [x|] eqn:Ex; inversion H1 as [? ? [(A1 & _ & _ & A2 & _) _ _ _]|]; subst.
  destruct (t !! k') as [z|] eqn:Ez; inversion H2 as [? ? [(B1 & _ & _ & B2 & _) _ _ _]|]; subst.
  by apply (Hu k k' x z); congruence.
Qed.
Lemma exec_gate_workspaces o d : workspaces (exec_gate o d) = workspaces d.
Proof. destruct o; try done. cbn [exec_gate]. destruct (unparkDependents_frame now workspaceId externalId d) as [t ->]. done. Qed.

(** C34 (invariant).  The alignment gate holds on every history: whatever
    sequence of completions, confirmations, denials, revisions and requeues
    runs, on whatever table in which an external id names one entry of a
    workspace, no entry appears, vanishes or changes identity; an entry that is
    not parked keeps its state and the brief it runs under; an entry that is
    parked, if it is an issue of a workspace that requires alignment, leaves
    the park with a budget or not at all; and a budget is one the entry had
    before or one that a confirmation of that very entry in the history gave.
    (Entries of other kinds are not gated; what an entry may be admitted as is
    [QueueSystem.claims_are_sanctioned].) *)
Theorem alignment_gate l d : unique_external (queue_entries d) →
  ∀ k, match queue_entries d !! k, queue_entries (exec_gates l d) !! k with
       | Some e, Some e' =>
           same_identity e e'
           ∧ (qe_state e ≠ parked → qe_state e' = qe_state e ∧ brief_part e' = brief_part e)
           ∧ (qe_state e = parked → qe_state e' ≠ parked → qe_kind e = "issue" →
                workspaceRequiresAlignment (workspaces d) (qe_workspace_id e) = true →
                is_Some (qe_estimated_budget_usd e'))
           ∧ (∀ u, qe_estimated_budget_usd e' = Some u → qe_estimated_budget_usd e = Some u ∨ confirmed_with l k u)
       | None, None => True
       | _, _ => False
       end.
Proof.
  intros Hu k. assert (H : option_Forall2 (gate_row (workspaceRequiresAlignment (workspaces d)) l k)
    (queue_entries d !! k) (queue_entries (exec_gates l d) !! k)).
  { assert (H : ∀ j, option_Forall2 (gate_row (workspaceRequiresAlignment (workspaces d)) l j)
      (queue_entries d !! j) (queue_entries (exec_gates l d) !! j) ∧ workspaces (exec_gates l d) = workspaces d); [|apply H].
    induction l as [|o l IH] using rev_ind; intros j; [by split|].
    unfold exec_gates in *. rewrite fold_left_app. cbn [fold_left]. destruct (IH j) as [Hj Hws].
    rewrite exec_gate_workspaces. split; [|done].
    assert (Hu' := gate_rows_unique _ _ _ _ (λ j, proj1 (IH j)) Hu).
    pose proof (exec_gate_rows o _ j Hu') as Ho. rewrite Hws in Ho.
    revert Hj Ho. generalize (queue_entries (fold_left (λ d o, exec_gate o d) l d) !! j). intros x Hj Ho.
    destruct Hj; inversion Ho; subst; constructor. by eapply gate_row_app. }
  destruct H as [e e' [Hi Hf Hh Hb]|]; [|done]. split_and!; [done|done| |done].
  intros Hp Hp' Hk Hr. destruct (Hh Hp) as [?|Hc]; [done|]. rewrite Hr in Hc. destruct Hc as [?|[Hn|Hn]]; [done| |].
  - destruct Hi as (_ & _ & Hk' & _). congruence.
  - by destruct (qe_estimated_budget_usd e').
Qed.

(** ** Concrete histories *)

Definition unique_external_check (t : gmap string QueueEntry) : bool :=
  forallb (λ kr, forallb (λ kr',
    implb ((qe_workspace_id kr.2 ≡? qe_workspace_id kr'.2)
           && (qe_external_id kr.2 ≡? qe_external_id kr'.2)) (kr.1 ≡? kr'.1))
    (map_to_list t)) (map_to_list t).

Lemma unique_external_check_ok t : unique_external_check t = true → unique_external t.
Proof.
  unfold unique_external_check. rewrite forallb_forall. intros H k k' e e' Hk Hk' Hw Hx.
  apply elem_of_map_to_list, list_elem_of_In in Hk, Hk'.
  specialize (H _ Hk). rewrite forallb_forall in H. specialize (H _ Hk'). simpl in H.
  rewrite !bool_decide_eq_true_2 in H by done. simpl in H. by bools.
Qed.

Definition sample_entry (kind ext : string) (st : QueueState) (blockers : list N)
    (reason : option string) (usd : option Z) : QueueEntry :=
  mkQueueEntry "ws" None github kind ext "Title" "" 0 QUEUE_ENTRY_DEFAULT_BUDGET st blockers
    reason usd None None None None 0 0.

(** Two repositories of one workspace: [acme/a#5] is finished; [acme/a#7] and
    [acme/b#7] both say "blocked by #5". *)
Definition two_repos : QueueDb :=
  mkQueueDb {[ "ws" := mkWorkspace true true ]} []
    (list_to_map
       [("a5", sample_entry "issue" "acme/a#5" green [] None (Some 500%Z));
        ("a7", sample_entry "issue" "acme/a#7" parked [5%N] (Some "Waiting on #5") (Some 500%Z));
        ("a8", sample_entry "issue" "acme/a#8" parked [5%N] (Some "Waiting on #5") None);
        ("b7", sample_entry "issue" "acme/b#7" parked [5%N] (Some "Waiting on #5") (Some 500%Z))])
    ∅ [] ∅.

Lemma two_repos_unique : unique_external (queue_entries two_repos).
Proof. apply unique_external_check_ok. by vm_compute. Qed.

(** Dependency release crosses repositories, where the comment
    says parked entries in this repo: the batch of [unparkDependents] is not restricted to the finished issue's
    repository, and blockers are looked up in that repository: finishing
    [acme/a#5] releases [acme/b#7], whose own blocker [acme/b#5] is unmet. *)
Theorem unparkDependents_crosses_repositories :
  unmetBlockers (queue_entries two_repos) "ws" "acme/b" [5%N] = [5%N]
  ∧ (unparkDependents 9 "ws" "acme/a#5" two_repos).1 = ["acme/a#7"; "acme/b#7"]
  ∧ qe_state <$> queue_entries (unparkDependents 9 "ws" "acme/a#5" two_repos).2 !! "b7"
    = Some queued.
Proof. by vm_compute. Qed.

Lemma two_repos_a5_green : has_green (queue_entries two_repos) "ws" "acme/a" 5%N.
Proof. by exists "a5", (sample_entry "issue" "acme/a#5" green [] None (Some 500%Z)). Qed.

Lemma unparkDependents_effect_witness :
  qe_park_reason <$> queue_entries (unparkDependents 9 "ws" (issue_external_id "acme/a" 5) two_repos).2
     !! "a8" = Some (Some ALIGNMENT_PARK_REASON).
Proof. rewrite (unparkDependents_effect 9 "ws" "acme/a" 5 two_repos two_repos_unique). by vm_compute. Defined.

Lemma unparkDependents_safe_witness :
  cleared true (sample_entry "issue" "acme/a#7" parked [5%N] (Some "Waiting on #5") (Some 500%Z)).
Proof.
  edestruct (unparkDependents_safe 9 "ws" "acme/a" 5 two_repos "a7") as (_ & _ & _ & _ & H & _);
    [apply two_repos_unique|by vm_compute|done|by vm_compute|by vm_compute|exact H].
Defined.

Lemma unparkDependents_releases_witness :
  queue_entries (unparkDependents 9 "ws" (issue_external_id "acme/a" 5) two_repos).2 !! "a7"
  = Some (release 9 (sample_entry "issue" "acme/a#7" parked [5%N] (Some "Waiting on #5") (Some 500%Z))).
Proof.
  apply (unparkDependents_releases 9 "ws" "acme/a" 5 two_repos "a7");
    [apply two_repos_unique|by vm_compute|done|done|simpl; set_solver|done|by right; right|].
  intros b Hb. apply list_elem_of_singleton in Hb as ->. apply two_repos_a5_green.
Defined.

Lemma confirmAlignmentBrief_lockstep_witness :
  (confirmAlignmentBrief 9 (mkConfirmInput "b7" 700 "m" None) (queue_entries two_repos)).1 = true.
Proof.
  destruct (confirmAlignmentBrief_lockstep 9 (mkConfirmInput "b7" 700 "m" None)
    (queue_entries two_repos) (sample_entry "issue" "acme/b#7" parked [5%N] (Some "Waiting on #5") (Some 500%Z))
    "acme/b" 7) as (e' & H & _); [by vm_compute|done|by vm_compute|done|]. by rewrite H.
Defined.

Lemma deny_then_revise_witness :
  (denyAlignmentBrief 1 "a8" (queue_entries two_repos)).1 = true.
Proof.
  destruct (denyAlignmentBrief 1 "a8" (queue_entries two_repos)) as [b t1] eqn:E1.
  destruct (reviseAlignmentBrief 2 "a8" "T" "B" t1) as [r2 t2] eqn:E2.
  apply (deny_then_revise 1 2 3 "a8" (queue_entries two_repos) t1 t2 b r2
    (sample_entry "issue" "acme/a#8" parked [5%N] (Some "Waiting on #5") None) "T" "B" "" "");
    [by vm_compute|done|exact E1|exact E2].
Defined.

(** A confirmation sanctions [a8], whose blocker is finished, and releases it. *)
Lemma alignment_gate_witness :
  let l := [go_confirm 8 (mkConfirmInput "a8" 700 "m" None); go_complete 9 "ws" (issue_external_id "acme/a" 5)] in
  unique_external (queue_entries two_repos)
  ∧ ∃ e', queue_entries (exec_gates l two_repos) !! "a8" = Some e' ∧ qe_state e' = queued
      ∧ ∀ u, qe_estimated_budget_usd e' = Some u → confirmed_with l "a8" u.
Proof.
  cbn zeta. set (l := [_; _]). split; [apply two_repos_unique|].
  assert (He : ∃ e', queue_entries (exec_gates l two_repos) !! "a8" = Some e' ∧ qe_state e' = queued)
    by (eexists; split; vm_compute; reflexivity).
  destruct He as (e' & He & Hst). exists e'. split; [exact He|]. split; [exact Hst|].
  pose proof (alignment_gate l two_repos two_repos_unique "a8") as H. rewrite He in H.
  assert (E0 : queue_entries two_repos !! "a8" = Some (sample_entry "issue" "acme/a#8" parked [5%N] (Some "Waiting on #5") None))
    by (vm_compute; reflexivity).
  rewrite E0 in H. destruct H as (_ & _ & _ & Hb). intros u Hu. destruct (Hb u Hu) as [H|H]; [discriminate H|exact H].
Defined.
