(* ===== verification/Runner.v ===== *)
(** * Runner: claiming queue entries and recording what runners report

    [queries/runner.ts] from the liveness constants on: the stale-run sweep,
    liveness pings, the claim, the pure transition [nextQueueTransition] with
    its backoff, and [recordRunnerResult]. *)

From S2P Require Import Prelude Table Regex QueueSchema QueueText AlignmentGate.
From Stdlib Require Import QArith Qround.
From Stdlib Require String.
From stdpp Require Import sorting.
Open Scope Z_scope.

(** ** Liveness *)

Definition LIVENESS_INTERVAL_SECONDS : Z := 60.
Definition LIVENESS_STALENESS_SECONDS : Z := 300.
Definition STALE_RUN_MINUTES : Z := 90.

(** The [CASE WHEN last_liveness_at IS NOT NULL ...] of the two sweeps;
    [fallback] is [started_at] of a run, [updated_at] of an entry. *)
Definition is_stale (now : Z) (last_liveness_at fallback : option Z) : bool :=
  match last_liveness_at with
  | Some l => l <? now - seconds LIVENESS_STALENESS_SECONDS
  | None => sql_lt fallback (now - minutes STALE_RUN_MINUTES)
  end.

Definition stale_run (now : Z) (workspaceId : string) (r : Run) : bool :=
  (run_workspace_id r ≡? workspaceId) && (run_status r ≡? run_running)
  && is_stale now (run_last_liveness_at r) (run_started_at r).

Definition stale_entry (now : Z) (workspaceId : string) (e : QueueEntry) : bool :=
  (qe_workspace_id e ≡? workspaceId) && (qe_state e ≡? running)
  && is_stale now (qe_last_liveness_at e) (Some (qe_updated_at e)).

Definition set_run_outcome (status : RunDbStatus) (finished updated : option Z) (r : Run) : Run :=
  mkRun (run_workspace_id r) (run_repository_id r) (run_agent r) (run_runner_name r)
    (run_branch r) (run_title r) status (run_started_at r) finished
    (run_queue_entry_id r) (run_phase r) (run_cost_usd r) (run_pr_url r) (run_pr_repo r)
    (run_pr_number r) (run_pr_head_sha r) (run_last_liveness_at r) (run_created_at r) updated.
Definition set_run_last_liveness_at (v : option Z) (r : Run) : Run :=
  mkRun (run_workspace_id r) (run_repository_id r) (run_agent r) (run_runner_name r)
    (run_branch r) (run_title r) (run_status r) (run_started_at r) (run_finished_at r)
    (run_queue_entry_id r) (run_phase r) (run_cost_usd r) (run_pr_url r) (run_pr_repo r)
    (run_pr_number r) (run_pr_head_sha r) v (run_created_at r) (run_updated_at r).
Definition set_run_cost (v : Q) (r : Run) : Run :=
  mkRun (run_workspace_id r) (run_repository_id r) (run_agent r) (run_runner_name r)
    (run_branch r) (run_title r) (run_status r) (run_started_at r) (run_finished_at r)
    (run_queue_entry_id r) (run_phase r) v (run_pr_url r) (run_pr_repo r)
    (run_pr_number r) (run_pr_head_sha r) (run_last_liveness_at r) (run_created_at r) (run_updated_at r).
Definition set_run_pr (url : string) (repo : option string) (number : option Z) (r : Run) : Run :=
  mkRun (run_workspace_id r) (run_repository_id r) (run_agent r) (run_runner_name r)
    (run_branch r) (run_title r) (run_status r) (run_started_at r) (run_finished_at r)
    (run_queue_entry_id r) (run_phase r) (run_cost_usd r) url repo number
    (run_pr_head_sha r) (run_last_liveness_at r) (run_created_at r) (run_updated_at r).
Definition set_run_pr_head_sha (v : option string) (r : Run) : Run :=
  mkRun (run_workspace_id r) (run_repository_id r) (run_agent r) (run_runner_name r)
    (run_branch r) (run_title r) (run_status r) (run_started_at r) (run_finished_at r)
    (run_queue_entry_id r) (run_phase r) (run_cost_usd r) (run_pr_url r) (run_pr_repo r)
    (run_pr_number r) v (run_last_liveness_at r) (run_created_at r) (run_updated_at r).
(** What the claim's upsert rewrites on an existing run. *)
Definition set_run_restarted (now : Z) (r : Run) : Run :=
  mkRun (run_workspace_id r) (run_repository_id r) (run_agent r) (run_runner_name r)
    (run_branch r) (run_title r) run_running (Some now) (run_finished_at r)
    (run_queue_entry_id r) (run_phase r) (run_cost_usd r) (run_pr_url r) (run_pr_repo r)
    (run_pr_number r) (run_pr_head_sha r) (run_last_liveness_at r) (run_created_at r) (Some now).

Definition reconcile_runs (now : Z) (workspaceId : string) (t : gmap string Run) : gmap string Run :=
  update_where (λ _, stale_run now workspaceId) (set_run_outcome run_failed (Some now) (Some now)) t.
Definition reconcile_entries (now : Z) (workspaceId : string) (t : gmap string QueueEntry)
    : gmap string QueueEntry :=
  update_where (λ _, stale_entry now workspaceId)
    (λ e, set_qe_updated_at now (set_qe_state queued e)) t.

(** Returns the number of runs reconciled. *)
Definition reconcileStaleRuns (now : Z) (workspaceId : string) (d : QueueDb) : nat * QueueDb :=
  (count_where (λ _, stale_run now workspaceId) (runs d),
   with_queue_entries (reconcile_entries now workspaceId (queue_entries d))
     (with_runs (reconcile_runs now workspaceId (runs d)) d)).

Definition recordRunnerLiveness (now : Z) (id workspaceId : string) (d : QueueDb) : bool * QueueDb :=
  let '(run, rs) := update_row id
    (λ r, (run_workspace_id r ≡? workspaceId) && (run_status r ≡? run_running))
    (set_run_last_liveness_at (Some now)) (runs d) in
  let '(_, es) := update_row id
    (λ e, (qe_workspace_id e ≡? workspaceId) && (qe_state e ≡? running))
    (set_qe_last_liveness_at (Some now)) (queue_entries d) in
  (negb (is_null run), with_queue_entries es (with_runs rs d)).

(** ** Reads *)

(** [LIKE '%#n'] *)
Definition ends_with (suffix s : string) : bool :=
  starts_with (String.string_of_list_ascii (rev (String.list_ascii_of_string suffix)))
              (String.string_of_list_ascii (rev (String.list_ascii_of_string s))).

Definition latestRunForIssue (workspaceId : string) (issueNumber : N) (d : QueueDb)
    : option (string * RunDbStatus) :=
  let joined := select_where (λ _ r, (run_workspace_id r ≡? workspaceId) &&
      match run_queue_entry_id r ≫= (queue_entries d !!.) with
      | Some q => (qe_workspace_id q ≡? workspaceId)
                  && ends_with ("#" +:+ show_N issueNumber) (qe_external_id q)
      | None => false
      end) (runs d) in
  (λ kr, (kr.1, run_status kr.2)) <$> oldest (λ r, - run_created_at r) joined.

Definition ACTIVE_QUEUE_STATES : list QueueState := [queued; parked; running].

(** [ORDER BY updated_at DESC] *)
Definition newest_first (x y : string * QueueEntry) : Prop :=
  qe_updated_at y.2 ≤ qe_updated_at x.2.
#[export] Instance newest_first_dec x y : Decision (newest_first x y).
Proof. unfold newest_first. apply _. Defined.

(** [activeOnly] defaults to true; a non-empty [states] overrides it. *)
Definition listQueueEntries (workspaceId : string) (activeOnly : bool) (states : list QueueState)
    (t : gmap string QueueEntry) : list (string * QueueEntry) :=
  let keep (e : QueueEntry) :=
    match states with
    | _ :: _ => bool_decide (qe_state e ∈ states)
    | [] => if activeOnly then bool_decide (qe_state e ∈ ACTIVE_QUEUE_STATES) else true
    end in
  merge_sort newest_first
    (select_where (λ _ e, (qe_workspace_id e ≡? workspaceId) && keep e) t).

(** ** The claim *)

#[export] Instance queue_claimable : Claimable string QueueEntry := {
  claim_where workspaceId now _ _ e :=
    (qe_workspace_id e ≡? workspaceId) && (qe_state e ≡? queued)
    && (is_null (qe_next_eligible_at e)
        || match qe_next_eligible_at e with Some t => t <=? now | None => false end);
  claim_order := qe_created_at;
  claim_set _ now e :=
    set_qe_updated_at now (set_qe_next_eligible_at None (set_qe_state running e));
}.

#[export] Instance queue_claimable_laws : ClaimableLaws string QueueEntry.
Proof. intros ws ws' now now' t k e. simpl. by rewrite andb_false_r. Qed.

(** Oldest first, then by id. *)
Definition repo_before (x y : string * Repository) : bool :=
  (repo_created_at x.2 <? repo_created_at y.2)
  || ((repo_created_at x.2 =? repo_created_at y.2) && String.leb x.1 y.1).
Fixpoint first_repo (l : list (string * Repository)) : option (string * Repository) :=
  match l with
  | [] => None
  | x :: l' =>
      match first_repo l' with
      | Some y => if repo_before x y then Some x else Some y
      | None => Some x
      end
  end.

(** [fresh] is the id the insert would generate. *)
Definition findOrCreateRepository (now : Z) (fresh workspaceId slug : string)
    (t : gmap string Repository) : string * gmap string Repository :=
  let existing := select_where (λ _ r, (repo_workspace_id r ≡? workspaceId)
                     && (lower (repo_name r) ≡? lower slug)) t in
  match first_repo existing with
  | Some (id, _) => (id, t)
  | None => (fresh, <[fresh := mkRepository workspaceId slug (repoSlugToUrl slug) "main" now]> t)
  end.

Definition deriveRepoSlug (workspaceId externalId : string) (cs : list Connector) : string :=
  match repoSlugFromExternalId externalId with
  | Some (String _ _ as slug) => slug
  | _ =>
      match List.find (λ c, (cn_workspace_id c ≡? workspaceId) && (cn_provider c ≡? "github")) cs with
      | Some c => default EmptyString (head (cn_repos c))
      | None => EmptyString
      end
  end.

(** JavaScript's [a || b] on strings. *)
Definition js_or (a b : string) : string :=
  match a with EmptyString => b | _ => a end.

Definition deriveRepoUrl (workspaceId externalId : string) (cs : list Connector) : string :=
  match deriveRepoSlug workspaceId externalId cs with
  | EmptyString => EmptyString
  | slug => repoSlugToUrl slug
  end.

Record WorkItem := mkWorkItem {
  wi_id : string;
  wi_workspace_id : string;
  wi_source : QueueSource;
  wi_kind : string;
  wi_external_id : string;
  wi_repo_url : string;
  wi_ref : string;
  wi_title : string;
  wi_body : string;
  wi_repository_id : string;
  wi_tier : Z;
  wi_estimated_budget_usd : option Z;
  wi_model_override : option string;
}.

Definition new_run (now : Z) (id : string) (e : QueueEntry) (repositoryId : string) : Run :=
  mkRun (qe_workspace_id e) repositoryId "claude" "self-hosted-runner"
    ("afk/github-" +:+ issueNumberOf (qe_external_id e)) (Some (qe_title e))
    run_running (Some now) None (Some id) (Some "execute") 0%Q EmptyString None None None None
    now (Some now).

Definition claimQueueEntry (now : Z) (fresh workspaceId : string) (d : QueueDb)
    : option WorkItem * QueueDb :=
  let d1 := (reconcileStaleRuns now workspaceId d).2 in
  match claim_next workspaceId now (queue_entries d1) with
  | (None, _) => (None, d1)
  | (Some (id, row), entries) =>
      let slug := deriveRepoSlug workspaceId (qe_external_id row) (connectors d1) in
      let repoUrl := match slug with EmptyString => EmptyString | _ => repoSlugToUrl slug end in
      let '(repositoryId, repos) :=
        match slug with
        | EmptyString => (EmptyString, repositories d1)
        | _ => findOrCreateRepository now fresh workspaceId slug (repositories d1)
        end in
      let runs' :=
        match runs d1 !! id with
        | Some r => <[id := set_run_restarted now r]> (runs d1)
        | None => <[id := new_run now id row
                      (js_or repositoryId (js_or slug (qe_external_id row)))]> (runs d1)
        end in
      (Some (mkWorkItem id (qe_workspace_id row) (qe_source row) (js_or (qe_kind row) "issue")
               (qe_external_id row) repoUrl "main" (qe_title row) (qe_body row) repositoryId
               (qe_tier row) (qe_estimated_budget_usd row)
               (match qe_model_override row with Some EmptyString => None | o => o end)),
       with_repositories repos (with_runs runs' (with_queue_entries entries d1)))
  end.

(** ** Reporting a result *)

Inductive RunnerStatus := st_green | st_red | st_error | st_running.
#[export] Instance RunnerStatus_eq_dec : EqDecision RunnerStatus.
Proof. solve_decision. Defined.

(** The status as the wire and [queue_attempts.outcome] spell it. *)
Definition status_text (s : RunnerStatus) : string :=
  match s with
  | st_green => "green" | st_red => "red" | st_error => "error" | st_running => "running"
  end.

Definition MAX_TIER : Z := 2.
Definition HOSTED_REFUSAL_PREFIX : string := "hosted-refusal: ".

Definition isHostedRefusal (status : RunnerStatus) (gateReason : option string) : bool :=
  (status ≡? st_error)
  && match gateReason with Some g => starts_with HOSTED_REFUSAL_PREFIX g | None => false end.

Definition BACKOFF_BASE_MS : Z := 30000.
Definition BACKOFF_MULTIPLIER : Z := 2.
Definition BACKOFF_MAX_MS : Z := 15 * 60 * 1000.
Definition BACKOFF_JITTER_RATIO : Q := 1 # 5.

Definition backoffFloorMs (attempt : Z) : Z :=
  let n := Z.max 1 attempt in
  Z.min BACKOFF_MAX_MS (BACKOFF_BASE_MS * BACKOFF_MULTIPLIER ^ (n - 1)).

(** [rand] is the number the generator returns, in [0, 1). *)
Definition computeBackoffDelayMs (attempt : Z) (rand : Q) : Z :=
  let floor := backoffFloorMs attempt in
  floor + math_floor (inject_Z floor * BACKOFF_JITTER_RATIO * rand)%Q.

Definition isClaimEligible (now : Z) (state : QueueState) (nextEligibleAt : option Z) : bool :=
  if state ≢? queued then false else
  match nextEligibleAt with None => true | Some t => t <=? now end.

Record QueueTransition := mkQueueTransition {
  tr_state : QueueState;
  tr_remainingBudget : Z;
  tr_tier : Z;
  tr_retryDelayMs : option Z;
}.

Definition nextQueueTransition (status : RunnerStatus) (remainingBudget tier : Z)
    (gateReason : option string) (attemptNumber : Z) (rand : Q) : QueueTransition :=
  if status ≡? st_green then mkQueueTransition green remainingBudget tier None else
  if status ≡? st_running then mkQueueTransition running remainingBudget tier None else
  if isHostedRefusal status gateReason
  then mkQueueTransition escalated_to_human remainingBudget tier None else
  let nextBudget := Z.max (remainingBudget - 1) 0 in
  let nextTier := if status ≡? st_red then Z.min (tier + 1) MAX_TIER else tier in
  let state := if remainingBudget <=? 1 then escalated_to_human else queued in
  let retryDelayMs :=
    if state ≡? queued then Some (computeBackoffDelayMs attemptNumber rand) else None in
  mkQueueTransition state nextBudget nextTier retryDelayMs.

Definition TERMINAL_QUEUE_STATES : list QueueState := [green; escalated_to_human; blocked].

Record RunnerReport := mkRunnerReport {
  rr_id : string;
  rr_workspaceId : string;
  rr_status : RunnerStatus;
  rr_costUsd : option Q;
  rr_prUrl : option string;
  rr_prHeadSha : option string;
  rr_gateReason : option string;
}.

Record RecordRunnerResult := mkRecordRunnerResult {
  res_updated : bool;
  res_terminalState : option QueueState;
  res_externalId : string;
  res_taskType : option string;
  res_transitioned : bool;
}.

(** The interval the red/error UPDATE adds to [now()], in microseconds:
    seconds in double precision, capped, times the jitter.  [n] counts the
    attempts logged before this statement. *)
Definition sql_backoff (n : Z) (random : Q) : Z :=
  math_round (inject_Z (Z.min (BACKOFF_MAX_MS / 1000)
                          (BACKOFF_BASE_MS / 1000 * BACKOFF_MULTIPLIER ^ Z.max n 0))
              * (1 + BACKOFF_JITTER_RATIO * random) * inject_Z 1000000)%Q.

Definition attempt_count (id : string) (attempts : list QueueAttempt) : Z :=
  Z.of_nat (length (List.filter (λ a, qa_queue_entry_id a ≡? id) attempts)).

(** The row the red/error UPDATE commits. *)
Definition failure_row (now : Z) (random : Q) (status : RunnerStatus) (n : Z)
    (e : QueueEntry) : QueueEntry :=
  let spent := qe_remaining_budget e <=? 1 in
  set_qe_updated_at now
   (set_qe_next_eligible_at (if spent then None else Some (now + sql_backoff n random))
    (set_qe_budget
       (if status ≡? st_red then Z.min (qe_tier e + 1) MAX_TIER else qe_tier e)
       (Z.max (qe_remaining_budget e - 1) 0)
      (set_qe_state (if spent then escalated_to_human else queued) e))).

(** The row the hosted-refusal UPDATE commits. *)
Definition refusal_row (now : Z) (gateReason : option string) (e : QueueEntry) : QueueEntry :=
  set_qe_updated_at now (set_qe_next_eligible_at None
    (set_qe_park_reason gateReason (set_qe_state escalated_to_human e))).

(** The queue half of [recordRunnerResult]: the row it found and the row it
    committed, [transitioned], and the attempts table after it. *)
Definition report_to_queue (now : Z) (random : Q) (data : RunnerReport) (d : QueueDb)
    : option (QueueEntry * bool) * QueueDb :=
  let id := rr_id data in
  let mine (e : QueueEntry) := qe_workspace_id e ≡? rr_workspaceId data in
  let attempt (e : QueueEntry) (summary : option string) :=
    mkQueueAttempt id (rr_workspaceId data) (qe_tier e) (status_text (rr_status data)) summary now in
  match queue_entries d !! id with
  | Some e =>
      if negb (mine e) then (None, d) else
      match rr_status data with
      | st_red | st_error =>
          let e' :=
            if isHostedRefusal (rr_status data) (rr_gateReason data)
            then refusal_row now (rr_gateReason data) e
            else failure_row now random (rr_status data) (attempt_count id (queue_attempts d)) e in
          (Some (e', true),
           with_queue_attempts
             (queue_attempts d ++ [attempt e (boundErrorSummary (rr_gateReason data))])
             (with_queue_entries (<[id := e']> (queue_entries d)) d))
      | st_green | st_running =>
          let nextState := tr_state (nextQueueTransition (rr_status data) 0 0 None 1 random) in
          let e' := set_qe_updated_at now (set_qe_state nextState e) in
          let transitioned := qe_state e ≢? nextState in
          let log := (rr_status data ≡? st_green) && transitioned in
          (Some (e', transitioned),
           with_queue_attempts (queue_attempts d ++ (if log then [attempt e' None] else []))
             (with_queue_entries (<[id := e']> (queue_entries d)) d))
      end
  | None => (None, d)
  end.

Section Report.
(** [new URL(s)]. *)
Variable parseUrl : string → option ParsedUrl.

(** What the outcome writes on the run the claim created. *)
Definition mirror_run (js_now : Z) (data : RunnerReport) (externalId : string)
    (transitioned : bool) (r : Run) : Run :=
  let canonicalPr := canonicalPrIdentityForQueueEntry parseUrl (rr_prUrl data) externalId in
  let canonicalPrHeadSha := canonicalGitCommitSha (rr_prHeadSha data) in
  let is_green := rr_status data ≡? st_green in
  let shouldPersistGreenProvenance := negb is_green || transitioned in
  let runStatus :=
    match rr_status data with
    | st_green => run_success | st_running => run_running | _ => run_failed
    end in
  let finishedAt := if rr_status data ≡? st_running then None else Some js_now in
  let r1 := set_run_outcome runStatus finishedAt (Some js_now) r in
  let r2 := match rr_costUsd data with Some c => set_run_cost c r1 | None => r1 end in
  let r3 :=
    match canonicalPr with
    | Some pr => if shouldPersistGreenProvenance
                 then set_run_pr (pr_url pr) (Some (pr_repo pr)) (Some (Z.of_N (pr_number pr))) r2
                 else r2
    | None => r2
    end in
  match canonicalPr, canonicalPrHeadSha with
  | Some _, Some sha => if is_green && transitioned then set_run_pr_head_sha (Some sha) r3 else r3
  | _, _ => r3
  end.

Definition recordRunnerResult (now js_now : Z) (random : Q) (data : RunnerReport) (d : QueueDb)
    : RecordRunnerResult * QueueDb :=
  match report_to_queue now random data d with
  | (None, d1) => (mkRecordRunnerResult false None EmptyString None false, d1)
  | (Some (e', transitioned), d1) =>
      let terminalState :=
        if bool_decide (qe_state e' ∈ TERMINAL_QUEUE_STATES) then Some (qe_state e') else None in
      let externalId := qe_external_id e' in
      let d2 :=
        if (rr_status data ≡? st_green) && (externalId ≢? EmptyString)
        then (unparkDependents now (rr_workspaceId data) externalId d1).2
        else d1 in
      let '(_, rs) := update_row (rr_id data) (λ r, run_workspace_id r ≡? rr_workspaceId data)
                        (mirror_run js_now data externalId transitioned) (runs d2) in
      (mkRecordRunnerResult true terminalState externalId (qe_task_type e') transitioned,
       with_runs rs d2)
  end.
End Report.

(** ** The backoff curve *)

Lemma backoffFloorMs_lower n : BACKOFF_BASE_MS ≤ backoffFloorMs n.
Proof.
  unfold backoffFloorMs, BACKOFF_MAX_MS, BACKOFF_BASE_MS, BACKOFF_MULTIPLIER.
  assert (0 < 2 ^ (Z.max 1 n - 1)) by (apply Z.pow_pos_nonneg; lia). lia.
Qed.

Lemma backoffFloorMs_upper n : backoffFloorMs n ≤ BACKOFF_MAX_MS.
Proof. apply Z.le_min_l. Qed.

(** [Math.floor(k * 0.2 * r)] for [r] in [0, 1). *)
Lemma jitter_bound (k : Z) (r : Q) :
  0 ≤ k → (0 <= r)%Q → (r < 1)%Q →
  0 ≤ math_floor (inject_Z k * BACKOFF_JITTER_RATIO * r)%Q ∧
  5 * math_floor (inject_Z k * BACKOFF_JITTER_RATIO * r)%Q ≤ k.
Proof.
  unfold math_floor, Qfloor, BACKOFF_JITTER_RATIO, inject_Z. destruct r as [a b].
  unfold Qle, Qlt. cbn -[Z.mul Z.div Pos.mul]. intros Hk H0 H1.
  rewrite ?Z.mul_1_r, ?Z.mul_1_l, ?Pos.mul_1_l, ?Pos2Z.inj_mul in *.
  set (q := k * a / (5 * Z.pos b)).
  assert (5 * Z.pos b * q ≤ k * a) by (apply Z.mul_div_le; lia).
  split; [apply Z.div_pos; nia|]. nia.
Qed.

(** Successive retries are spaced ever further apart: below the
    cap, the longest delay attempt [n] can draw is shorter than the shortest
    attempt [n + 1] can, whatever the jitter; and every delay lies between the
    base and 1.2 times the cap. *)
Theorem backoff_grows n r1 r2 :
  (0 <= r1)%Q → (r1 < 1)%Q → (0 <= r2)%Q → (r2 < 1)%Q →
  BACKOFF_BASE_MS ≤ computeBackoffDelayMs n r1 ≤ BACKOFF_MAX_MS + BACKOFF_MAX_MS / 5
  ∧ (1 ≤ n ≤ 5 → computeBackoffDelayMs n r1 < computeBackoffDelayMs (n + 1) r2).
Proof.
  intros H1 H1' H2 H2'.
  assert (Hlo := backoffFloorMs_lower n). assert (Hhi := backoffFloorMs_upper n).
  assert (Hlo' := backoffFloorMs_lower (n + 1)).
  unfold BACKOFF_BASE_MS, BACKOFF_MAX_MS in *.
  assert (J1 := jitter_bound (backoffFloorMs n) r1 ltac:(lia) H1 H1').
  assert (J2 := jitter_bound (backoffFloorMs (n + 1)) r2 ltac:(lia) H2 H2').
  unfold computeBackoffDelayMs. cbn [Z.div]. split.
  - change ((15 * 60 * 1000) / 5) with 180000. lia.
  - intros Hn.
    assert (5 * backoffFloorMs (n + 1) > 6 * backoffFloorMs n); [|lia].
    assert (n = 1 ∨ n = 2 ∨ n = 3 ∨ n = 4 ∨ n = 5) as Hc by lia.
    clear -Hc. by repeat destruct Hc as [->|Hc]; [..|subst n]; vm_compute.
Qed.

Lemma backoff_grows_witness :
  computeBackoffDelayMs 3 (999 # 1000) < computeBackoffDelayMs (3 + 1) 0.
Proof. apply (backoff_grows 3 (999 # 1000) 0); (lia || done). Defined.

(** The delay the SQL computes is the specification's, up to the millisecond
    the specification rounds down to. *)
Lemma sql_backoff_spec n r :
  0 ≤ n → (0 <= r)%Q → (r < 1)%Q →
  milliseconds (computeBackoffDelayMs (n + 1) r) ≤ sql_backoff n r
  ≤ milliseconds (computeBackoffDelayMs (n + 1) r) + 1000.
Proof.
  intros Hn H0 H1. unfold sql_backoff, computeBackoffDelayMs, backoffFloorMs.
  rewrite Z.max_r by lia. rewrite (Z.max_l n 0) by lia. replace (n + 1 - 1) with n by lia.
  unfold BACKOFF_MAX_MS, BACKOFF_BASE_MS, BACKOFF_MULTIPLIER.
  change (15 * 60 * 1000 / 1000) with 900. change (30000 / 1000) with 30.
  replace (Z.min (15 * 60 * 1000) (30000 * 2 ^ n)) with (1000 * Z.min 900 (30 * 2 ^ n)) by lia.
  assert (0 < Z.min 900 (30 * 2 ^ n)) as Hm.
  { assert (0 < 2 ^ n) by (apply Z.pow_pos_nonneg; lia). lia. }
  revert Hm. generalize (Z.min 900 (30 * 2 ^ n)). clear n Hn. intros m Hm.
  unfold milliseconds, math_round, math_floor, Qfloor, BACKOFF_JITTER_RATIO, inject_Z.
  destruct r as [a b]. unfold Qle, Qlt in *. cbn -[Z.mul Z.div Z.add Pos.mul] in *.
  rewrite ?Z.mul_1_r, ?Z.mul_1_l, ?Pos.mul_1_l, ?Pos.mul_1_r, ?Pos2Z.inj_mul in *.
  set (x := 1000 * m * a / _).
  assert (5 * Z.pos b * x ≤ 1000 * m * a < 5 * Z.pos b * (x + 1)) as Hx.
  { unfold x. generalize (Z.mul_div_le (1000 * m * a) (5 * Z.pos b) ltac:(lia)).
    generalize (Z.mul_succ_div_gt (1000 * m * a) (5 * Z.pos b) ltac:(lia)). lia. }
  clearbody x. split.
  - apply Z.div_le_lower_bound; [lia|]. lia.
  - apply Z.lt_succ_r, Z.div_lt_upper_bound; [lia|]. lia.
Qed.

(** ** A report moves the queue as the pure transition says *)

Lemma attempt_count_nonneg id l : 0 ≤ attempt_count id l.
Proof. unfold attempt_count. lia. Qed.

(** [e'] is a row that follows the decision [tr] taken at [now]; [failed] says
    the decision was taken on a red or error outcome. *)
Definition follows (now : Z) (failed : bool) (tr : QueueTransition) (e e' : QueueEntry) : Prop :=
  same_identity e e' ∧ qe_state e' = tr_state tr ∧ qe_remaining_budget e' = tr_remainingBudget tr
  ∧ qe_tier e' = tr_tier tr ∧ qe_updated_at e' = now
  ∧ match tr_retryDelayMs tr with
    | Some delay => ∃ t, qe_next_eligible_at e' = Some t
                     ∧ now + milliseconds delay ≤ t ≤ now + milliseconds delay + 1000
    | None => qe_next_eligible_at e' = if failed then None else qe_next_eligible_at e
    end.

Definition is_failure (s : RunnerStatus) : bool := (s ≡? st_red) || (s ≡? st_error).

Definition decision (random : Q) (data : RunnerReport) (attempts : list QueueAttempt)
    (e : QueueEntry) : QueueTransition :=
  nextQueueTransition (rr_status data) (qe_remaining_budget e) (qe_tier e) (rr_gateReason data)
    (attempt_count (rr_id data) attempts + 1) random.

Lemma failure_row_follows now r s n e g :
  (0 <= r)%Q → (r < 1)%Q → 0 ≤ n → is_failure s = true → isHostedRefusal s g = false →
  follows now true (nextQueueTransition s (qe_remaining_budget e) (qe_tier e) g (n + 1) r)
    e (failure_row now r s n e).
Proof.
  intros H0 H1 Hn Hs Hh. unfold nextQueueTransition. rewrite Hh.
  rewrite !(bool_decide_eq_false_2 (s = _)) by (by destruct s).
  assert (Hb := sql_backoff_spec n r Hn H0 H1). unfold failure_row, follows.
  destruct (qe_remaining_budget e <=? 1); simpl; (split; [done|]);
    repeat split; eauto with lia; try by destruct s.
Qed.

Lemma report_to_queue_hit now random data d e :
  queue_entries d !! rr_id data = Some e → qe_workspace_id e = rr_workspaceId data →
  (0 <= random)%Q → (random < 1)%Q →
  ∃ e' tr l,
    report_to_queue now random data d
    = (Some (e', tr), with_queue_attempts (queue_attempts d ++ l)
                        (with_queue_entries (<[rr_id data := e']> (queue_entries d)) d))
    ∧ follows now (is_failure (rr_status data)) (decision random data (queue_attempts d) e) e e'
    ∧ tr = is_failure (rr_status data) || (qe_state e' ≢? qe_state e)
    ∧ l = (if tr && (rr_status data ≢? st_running)
           then [mkQueueAttempt (rr_id data) (rr_workspaceId data) (qe_tier e)
                   (status_text (rr_status data))
                   (if is_failure (rr_status data) then boundErrorSummary (rr_gateReason data)
                    else None) now]
           else []).
Proof.
  intros Hk Hws H0 H1. unfold report_to_queue, decision. rewrite Hk, Hws.
  rewrite bool_decide_eq_true_2 by done. simpl.
  destruct (rr_status data) eqn:Hs; simpl; do 3 eexists; (split; [reflexivity|]).
  - repeat split; [|by rewrite andb_true_r].
    by rewrite (bool_decide_ext (green = _) (qe_state e = green)) by naive_solver.
  - split; [|done]. apply (failure_row_follows _ _ st_red); try done. apply attempt_count_nonneg.
  - split; [|done]. destruct (isHostedRefusal _ _) eqn:Hh.
    + unfold nextQueueTransition. rewrite Hh. done.
    + apply failure_row_follows; try done. apply attempt_count_nonneg.
  - repeat split; [|by rewrite andb_false_r].
    by rewrite (bool_decide_ext (running = _) (qe_state e = running)) by naive_solver.
Qed.

Lemma decision_not_parked random data l e : tr_state (decision random data l e) ≠ parked.
Proof.
  unfold decision, nextQueueTransition. repeat (case_match; try done).
  all: simpl; by case_match.
Qed.

(** The rest of [recordRunnerResult] leaves the reported row and the attempts
    as [report_to_queue] committed them. *)
Lemma recordRunnerResult_frame parseUrl now js_now random data d e' tr d1 :
  report_to_queue now random data d = (Some (e', tr), d1) →
  queue_entries d1 !! rr_id data = Some e' → qe_state e' ≠ parked →
  queue_entries (recordRunnerResult parseUrl now js_now random data d).2 !! rr_id data = Some e'
  ∧ queue_attempts (recordRunnerResult parseUrl now js_now random data d).2 = queue_attempts d1
  ∧ (recordRunnerResult parseUrl now js_now random data d).1
    = mkRecordRunnerResult true
        (if bool_decide (qe_state e' ∈ TERMINAL_QUEUE_STATES) then Some (qe_state e') else None)
        (qe_external_id e') (qe_task_type e') tr.
Proof.
  intros Hr Hk Hp. unfold recordRunnerResult. rewrite Hr.
  destruct (unparkDependents_frame now (rr_workspaceId data) (qe_external_id e') d1) as [t Ht].
  assert (Hn := unparkDependents_not_parked now (rr_workspaceId data) (qe_external_id e') d1 _ _ Hk Hp).
  destruct (_ && _); destruct (update_row _ _ _ _) as [x rs]; simpl; [|done].
  split; [done|]. by rewrite Ht.
Qed.

Lemma recordRunnerResult_hit parseUrl now js_now random data d e :
  queue_entries d !! rr_id data = Some e → qe_workspace_id e = rr_workspaceId data →
  (0 <= random)%Q → (random < 1)%Q →
  ∃ e', queue_entries (recordRunnerResult parseUrl now js_now random data d).2 !! rr_id data = Some e'
    ∧ follows now (is_failure (rr_status data)) (decision random data (queue_attempts d) e) e e'
    ∧ (recordRunnerResult parseUrl now js_now random data d).1
      = mkRecordRunnerResult true
          (if bool_decide (qe_state e' ∈ TERMINAL_QUEUE_STATES) then Some (qe_state e') else None)
          (qe_external_id e) (qe_task_type e')
          (is_failure (rr_status data) || (qe_state e' ≢? qe_state e))
    ∧ queue_attempts (recordRunnerResult parseUrl now js_now random data d).2
      = queue_attempts d
        ++ (if (is_failure (rr_status data) || (qe_state e' ≢? qe_state e))
               && (rr_status data ≢? st_running)
            then [mkQueueAttempt (rr_id data) (rr_workspaceId data) (qe_tier e)
                    (status_text (rr_status data))
                    (if is_failure (rr_status data) then boundErrorSummary (rr_gateReason data)
                     else None) now]
            else []).
Proof.
  intros Hk Hws H0 H1.
  destruct (report_to_queue_hit now random data d e Hk Hws H0 H1) as (e' & tr & l & Hr & Hf & -> & ->).
  edestruct recordRunnerResult_frame as (Hk' & Ha & Hres); [exact Hr|apply lookup_insert_eq|..].
  { destruct Hf as (_ & -> & _). apply decision_not_parked. }
  exists e'. rewrite Hk', Ha, Hres. split_and!; try done.
  by destruct Hf as ((_ & _ & _ & -> & _) & _).
Qed.

(** C33 (refinement).  [recordRunnerResult], a group of SQL statements, refines
    the pure [nextQueueTransition]: a report on an entry of the caller's
    workspace commits exactly the state, budget and tier the pure transition
    decides from the row and the number of attempts already logged; a retry
    becomes eligible at the decided delay to within a millisecond, a failure
    that escalates clears the delay, any other report leaves it; the terminal
    state returned is the committed one, and one attempt row is logged per
    failure and per new green. *)
Theorem recordRunnerResult_lockstep parseUrl now js_now random data d e :
  queue_entries d !! rr_id data = Some e → qe_workspace_id e = rr_workspaceId data →
  (0 <= random)%Q → (random < 1)%Q →
  ∃ e', queue_entries (recordRunnerResult parseUrl now js_now random data d).2 !! rr_id data = Some e'
    ∧ follows now (is_failure (rr_status data)) (decision random data (queue_attempts d) e) e e'
    ∧ res_terminalState (recordRunnerResult parseUrl now js_now random data d).1
      = (if bool_decide (qe_state e' ∈ TERMINAL_QUEUE_STATES) then Some (qe_state e') else None)
    ∧ attempt_count (rr_id data)
        (queue_attempts (recordRunnerResult parseUrl now js_now random data d).2)
      = attempt_count (rr_id data) (queue_attempts d)
        + (if is_failure (rr_status data) || (rr_status data ≡? st_green) && (qe_state e ≢? green)
           then 1 else 0).
Proof.
  intros Hk Hws H0 H1.
  destruct (recordRunnerResult_hit parseUrl now js_now random data d e) as (e' & Hk' & Hf & Hr & Ha);
    try done.
  exists e'. rewrite Hr, Ha. split_and!; [done..|].
  unfold attempt_count. rewrite List.filter_app, length_app, Nat2Z.inj_add. f_equal.
  destruct Hf as (_ & Hst & _). revert Hst. unfold decision, nextQueueTransition.
  assert (bool_decide (rr_id data = rr_id data) = true) as Hid by by apply bool_decide_eq_true_2.
  destruct (rr_status data); simpl; rewrite ?Hid; try done.
  - intros ->. rewrite (bool_decide_ext (green = _) (qe_state e = green)) by naive_solver.
    destruct (bool_decide (qe_state e = green)); simpl; [done|]. by rewrite Hid.
  - intros _. by destruct (bool_decide (qe_state e' = qe_state e)).
Qed.

(** A repeated green report is recognised: the second of two
    green reports with nothing in between is not a transition, logs no attempt
    and leaves the entry green, so the caller merges and notifies once. *)
Theorem duplicate_green parseUrl now js_now r now' js_now' r' data data' d e :
  queue_entries d !! rr_id data = Some e → qe_workspace_id e = rr_workspaceId data →
  rr_status data = st_green → rr_status data' = st_green →
  rr_id data' = rr_id data → rr_workspaceId data' = rr_workspaceId data →
  (0 <= r)%Q → (r < 1)%Q → (0 <= r')%Q → (r' < 1)%Q →
  let '(first, d1) := recordRunnerResult parseUrl now js_now r data d in
  let '(second, d2) := recordRunnerResult parseUrl now' js_now' r' data' d1 in
  res_transitioned first = (qe_state e ≢? green) ∧ res_transitioned second = false
  ∧ res_terminalState first = Some green ∧ res_terminalState second = Some green
  ∧ queue_attempts d2 = queue_attempts d1
  ∧ qe_state <$> queue_entries d2 !! rr_id data = Some green.
Proof.
  intros Hk Hws Hg Hg' Hid Hws' H0 H1 H0' H1'.
  destruct (recordRunnerResult_hit parseUrl now js_now r data d e)
    as (e1 & Hk1 & (Hi & Hs1 & _) & Hr1 & _); try done.
  destruct (recordRunnerResult parseUrl now js_now r data d) as [first d1]. simpl in *.
  destruct (recordRunnerResult_hit parseUrl now' js_now' r' data' d1 e1)
    as (e2 & Hk2 & (_ & Hs2 & _) & Hr2 & Ha2); try done; [by rewrite Hid| |].
  { destruct Hi as (-> & _). congruence. }
  destruct (recordRunnerResult parseUrl now' js_now' r' data' d1) as [second d2]. simpl in *.
  unfold decision, nextQueueTransition in Hs1, Hs2. rewrite Hg in *. rewrite Hg' in *. simpl in *.
  subst first second. rewrite Hid in Hk2. rewrite Hk2, Ha2, Hs1, Hs2. simpl.
  rewrite app_nil_r. split_and!; try done.
  - by rewrite (bool_decide_ext (green = _) (qe_state e = green)) by naive_solver.
  - by rewrite Hs2.
Qed.

(** ** Claiming *)

Definition eligible (now : Z) (workspaceId : string) (e : QueueEntry) : bool :=
  (qe_workspace_id e ≡? workspaceId) && isClaimEligible now (qe_state e) (qe_next_eligible_at e).

(** The SQL predicate of the claim is the specification [isClaimEligible]. *)
Lemma claim_where_eligible ws now (t : gmap string QueueEntry) k e :
  claim_where ws now t k e = eligible now ws e.
Proof.
  simpl. unfold eligible, isClaimEligible. rewrite <- andb_assoc. f_equal.
  destruct (bool_decide (qe_state e = queued)); simpl; [|done].
  by destruct (qe_next_eligible_at e).
Qed.

(** What the sweep makes of one entry. *)
Definition swept (now : Z) (workspaceId : string) (e : QueueEntry) : QueueEntry :=
  if stale_entry now workspaceId e then set_qe_updated_at now (set_qe_state queued e) else e.
Definition claimed (now : Z) (e : QueueEntry) : QueueEntry :=
  set_qe_updated_at now (set_qe_next_eligible_at None (set_qe_state running e)).

Lemma reconcile_entries_fmap now ws t : reconcile_entries now ws t = swept now ws <$> t.
Proof.
  apply map_eq. intros k. unfold reconcile_entries. by rewrite lookup_update_where, lookup_fmap.
Qed.

Lemma claimQueueEntry_entries now fresh ws d :
  queue_entries (claimQueueEntry now fresh ws d).2
  = (claim_next ws now (swept now ws <$> queue_entries d)).2
  ∧ wi_id <$> (claimQueueEntry now fresh ws d).1
    = fst <$> (claim_next ws now (swept now ws <$> queue_entries d)).1.
Proof.
  unfold claimQueueEntry. rewrite <- reconcile_entries_fmap. simpl.
  destruct (claim_nextP ws now (reconcile_entries now ws (queue_entries d))); simpl; [|done].
  by destruct (deriveRepoSlug _ _ _); [|destruct (findOrCreateRepository _ _ _ _ _)].
Qed.

(** The mirrored run a claim leaves is running from now. *)
Lemma claimQueueEntry_run now fresh ws d item :
  (claimQueueEntry now fresh ws d).1 = Some item →
  ∃ r, runs (claimQueueEntry now fresh ws d).2 !! wi_id item = Some r
    ∧ run_status r = run_running ∧ run_started_at r = Some now
    ∧ run_last_liveness_at r = (runs d !! wi_id item ≫= run_last_liveness_at).
Proof.
  unfold claimQueueEntry. simpl.
  destruct (claim_next _ _ _) as [[[k e]|] t]; simpl; [|done].
  assert (Hr : reconcile_runs now ws (runs d) !! k ≫= run_last_liveness_at
               = runs d !! k ≫= run_last_liveness_at).
  { unfold reconcile_runs. rewrite lookup_update_where.
    destruct (runs d !! k); [|done]. simpl. by case_match. }
  destruct (match deriveRepoSlug _ _ _ with EmptyString => _ | _ => _ end) as [rid repos].
  intros [= <-]. simpl.
  destruct (reconcile_runs now ws (runs d) !! k) as [r|]; simpl;
    (eexists; split; [apply lookup_insert_eq|done]).
Qed.

(** C35 (functional).  A claim, on both outcomes.  The sweep runs first; then
    either no entry of the workspace passes the specification
    [isClaimEligible] and nothing is handed out, or the oldest one that does
    is: it alone changes, to running with its backoff cleared, and its run is
    running from now. *)
Theorem claimQueueEntry_correct now fresh ws d :
  let pool := swept now ws <$> queue_entries d in
  match claimQueueEntry now fresh ws d with
  | (None, d') => queue_entries d' = pool ∧ map_Forall (λ _ e, eligible now ws e = false) pool
  | (Some item, d') =>
      ∃ e, pool !! wi_id item = Some e ∧ eligible now ws e = true
        ∧ (∀ k e', pool !! k = Some e' → eligible now ws e' = true →
             qe_created_at e ≤ qe_created_at e')
        ∧ queue_entries d' = <[wi_id item := claimed now e]> pool
        ∧ ∃ r, runs d' !! wi_id item = Some r ∧ run_status r = run_running
            ∧ run_started_at r = Some now
  end.
Proof.
  cbv zeta. destruct (claimQueueEntry_entries now fresh ws d) as [Ht Hi].
  assert (Hrun := claimQueueEntry_run now fresh ws d).
  destruct (claimQueueEntry now fresh ws d) as [[item|] d']; simpl in *;
    destruct (claim_nextP ws now (swept now ws <$> queue_entries d)) as [k e Hk Hp Hmin|Hno];
    simpl in *; try discriminate.
  - injection Hi as Hi. subst k. destruct (Hrun item eq_refl) as (r & Hr & Hs & Hst & _).
    exists e. split_and!; [done|..|by exists r].
    + by rewrite <- (claim_where_eligible _ _ ∅ EmptyString).
    + intros k' e' Hk' He'. apply (Hmin k'); [done|].
      by rewrite <- (claim_where_eligible _ _ ∅ EmptyString) in He'.
    + done.
  - split; [done|]. intros k e Hk. rewrite <- (claim_where_eligible _ _ ∅ EmptyString). by apply (Hno k).
Qed.

Lemma recordRunnerLiveness_entry now id ws d e :
  queue_entries d !! id = Some e → qe_workspace_id e = ws → qe_state e = running →
  queue_entries (recordRunnerLiveness now id ws d).2 !! id = Some (set_qe_last_liveness_at (Some now) e).
Proof.
  intros Hk Hws Hst. unfold recordRunnerLiveness, update_row at 2.
  destruct (update_row _ _ _ _). rewrite Hk, !bool_decide_eq_true_2 by done.
  apply lookup_insert_eq.
Qed.

(** A running entry that is not stale is neither swept nor handed out. *)
Lemma fresh_entry_kept now fresh ws d id e :
  queue_entries d !! id = Some e → qe_state e = running →
  is_stale now (qe_last_liveness_at e) (Some (qe_updated_at e)) = false →
  queue_entries (claimQueueEntry now fresh ws d).2 !! id = Some e
  ∧ wi_id <$> (claimQueueEntry now fresh ws d).1 ≠ Some id.
Proof.
  intros Hk Hst Hs. destruct (claimQueueEntry_entries now fresh ws d) as [-> ->].
  assert (Hsw : swept now ws e = e).
  { unfold swept, stale_entry. by rewrite Hs, andb_false_r. }
  assert (Hp : (swept now ws <$> queue_entries d) !! id = Some e)
    by by rewrite lookup_fmap, Hk; simpl; rewrite Hsw.
  destruct (claim_nextP ws now (swept now ws <$> queue_entries d)) as [k r Hr He _|_]; simpl; [|done].
  assert (k ≠ id).
  { intros ->. simplify_eq. rewrite claim_where_eligible in He.
    unfold eligible, isClaimEligible in He. rewrite Hst in He. by rewrite andb_false_r in He. }
  split; [by rewrite lookup_insert_ne|naive_solver].
Qed.

(** While pings arrive a run is never taken away, however long
    it runs: for [LIVENESS_STALENESS_SECONDS] after a ping on a running entry,
    no claim by any workspace re-queues it or hands it to another runner. *)
Theorem liveness_protects now0 now1 fresh ws ws' id d e :
  queue_entries d !! id = Some e → qe_workspace_id e = ws → qe_state e = running →
  now1 ≤ now0 + seconds LIVENESS_STALENESS_SECONDS →
  let d1 := (recordRunnerLiveness now0 id ws d).2 in
  queue_entries (claimQueueEntry now1 fresh ws' d1).2 !! id
    = Some (set_qe_last_liveness_at (Some now0) e)
  ∧ wi_id <$> (claimQueueEntry now1 fresh ws' d1).1 ≠ Some id.
Proof.
  intros Hk Hws Hst Hnow d1. apply fresh_entry_kept; [by apply recordRunnerLiveness_entry|done|].
  simpl. apply Z.ltb_ge. lia.
Qed.

(** A runner that dies silently does not keep its entry: once
    the last ping is older than [LIVENESS_STALENESS_SECONDS] - or, for a runner
    that never pinged, the entry is untouched for [STALE_RUN_MINUTES] - the
    next claim of the workspace hands the entry out again or leaves it queued
    with its budget unspent. *)
Theorem silent_runner_reclaimed now fresh ws d id e :
  queue_entries d !! id = Some e → qe_workspace_id e = ws → qe_state e = running →
  is_stale now (qe_last_liveness_at e) (Some (qe_updated_at e)) = true →
  ∃ e', queue_entries (claimQueueEntry now fresh ws d).2 !! id = Some e'
    ∧ same_identity e e' ∧ qe_remaining_budget e' = qe_remaining_budget e
    ∧ (qe_state e' = queued
       ∨ qe_state e' = running ∧ wi_id <$> (claimQueueEntry now fresh ws d).1 = Some id).
Proof.
  intros Hk Hws Hst Hs. destruct (claimQueueEntry_entries now fresh ws d) as [-> ->].
  assert (Hsw : swept now ws e = set_qe_updated_at now (set_qe_state queued e)).
  { unfold swept, stale_entry. by rewrite Hs, !bool_decide_eq_true_2. }
  assert (Hp : (swept now ws <$> queue_entries d) !! id = Some (swept now ws e))
    by by rewrite lookup_fmap, Hk.
  rewrite Hsw in Hp.
  destruct (claim_nextP ws now (swept now ws <$> queue_entries d)) as [k r Hr He _|_]; simpl.
  - destruct (decide (k = id)) as [->|Hne].
    + rewrite lookup_insert_eq. rewrite Hp in Hr. injection Hr as <-.
      eexists. split; [done|]. split; [done|]. split; [done|]. by right.
    + rewrite lookup_insert_ne, Hp by done. eexists. split; [done|]. by repeat split; left.
  - eexists. split; [done|]. by repeat split; left.
Qed.

(** ** Concrete histories *)

Definition no_url (_ : string) : option ParsedUrl := None.
Definition report (id : string) (s : RunnerStatus) : RunnerReport :=
  mkRunnerReport id "ws" s None None None None.

(** One workspace with one queued, sanctioned entry. *)
Definition one_entry : QueueDb :=
  mkQueueDb {[ "ws" := mkWorkspace true true ]} []
    {[ "q1" := sample_entry "issue" "acme/a#5" queued [] None (Some 500%Z) ]} ∅ [] ∅.

(** Claimed at 0, pinged at one minute, reported red at 100 s and so eligible
    again from 130 s. *)
Definition retried_entry : QueueDb :=
  (recordRunnerResult no_url (seconds 100) (seconds 100) 0 (report "q1" st_red)
    (recordRunnerLiveness (seconds 60) "q1" "ws"
      (claimQueueEntry 0 "repo" "ws" one_entry).2).2).2.

(** The claim does not reset [last_liveness_at], so the ping of
    an earlier attempt is held against the next one: an entry claimed again
    more than five minutes after its old ping is, until a first new ping
    arrives, swept by the next claim and handed to a second runner. *)
Theorem old_ping_double_claim :
  let '(first, d1) := claimQueueEntry (seconds 400) "repo" "ws" retried_entry in
  let '(second, d2) := claimQueueEntry (seconds 401) "repo" "ws" d1 in
  wi_id <$> first = Some "q1" ∧ wi_id <$> second = Some "q1".
Proof. by vm_compute. Qed.

(** A report is applied whatever state the entry is in: a red
    result that arrives twice spends two attempts, and one that arrives after
    green re-queues finished work. *)
Theorem late_failure_resurrects :
  let d1 := (claimQueueEntry 0 "repo" "ws" one_entry).2 in
  let red d := (recordRunnerResult no_url 5 5 0 (report "q1" st_red) d).2 in
  let done_ := (recordRunnerResult no_url 4 4 0 (report "q1" st_green) d1).2 in
  (qe_remaining_budget <$> queue_entries (red (red d1)) !! "q1" = Some 3)
  ∧ (qe_state <$> queue_entries done_ !! "q1" = Some green)
  ∧ (qe_state <$> queue_entries (red done_) !! "q1" = Some queued).
Proof. by vm_compute. Qed.

(** ** Applications *)

Definition claimed_entry : QueueDb := (claimQueueEntry 0 "repo" "ws" one_entry).2.
Definition running_q1 : QueueEntry :=
  claimed 0 (sample_entry "issue" "acme/a#5" queued [] None (Some 500%Z)).

Lemma claimed_entry_q1 : queue_entries claimed_entry !! "q1" = Some running_q1.
Proof. by vm_compute. Qed.

Lemma recordRunnerResult_lockstep_witness :
  ∃ e', queue_entries (recordRunnerResult no_url 7 7 0 (report "q1" st_red) claimed_entry).2
          !! "q1" = Some e'
    ∧ qe_state e' = queued ∧ qe_remaining_budget e' = 4 ∧ qe_tier e' = 1.
Proof.
  destruct (recordRunnerResult_lockstep no_url 7 7 0 (report "q1" st_red) claimed_entry running_q1)
    as (e' & Hk & (_ & Hs & Hb & Ht & _) & _); [exact claimed_entry_q1|done..|].
  exists e'. split_and!; [exact Hk|rewrite Hs|rewrite Hb|rewrite Ht]; vm_compute; reflexivity.
Defined.

Lemma duplicate_green_witness :
  res_transitioned
    (recordRunnerResult no_url 8 8 0 (report "q1" st_green)
       (recordRunnerResult no_url 7 7 0 (report "q1" st_green) claimed_entry).2).1 = false.
Proof.
  generalize (duplicate_green no_url 7 7 0 8 8 0 (report "q1" st_green) (report "q1" st_green)
    claimed_entry running_q1 claimed_entry_q1 eq_refl eq_refl eq_refl eq_refl eq_refl
    ltac:(done) ltac:(done) ltac:(done) ltac:(done)).
  destruct (recordRunnerResult no_url 7 7 0 _ _) as [x d1]. simpl.
  destruct (recordRunnerResult no_url 8 8 0 _ _) as [y d2]. by intros (_ & H & _).
Defined.

Lemma liveness_protects_witness :
  wi_id <$> (claimQueueEntry (seconds 300) "repo" "ws"
               (recordRunnerLiveness 0 "q1" "ws" claimed_entry).2).1 ≠ Some "q1".
Proof.
  apply (liveness_protects 0 (seconds 300) "repo" "ws" "ws" "q1" claimed_entry running_q1);
    [exact claimed_entry_q1|done..].
Defined.

Lemma silent_runner_reclaimed_witness :
  ∃ e', queue_entries (claimQueueEntry (minutes 91) "repo" "ws" claimed_entry).2 !! "q1" = Some e'
    ∧ qe_remaining_budget e' = 5.
Proof.
  destruct (silent_runner_reclaimed (minutes 91) "repo" "ws" claimed_entry "q1" running_q1)
    as (e' & Hk & _ & Hb & _); [exact claimed_entry_q1|done..|by vm_compute|].
  exists e'. split; [exact Hk|rewrite Hb; reflexivity].
Defined.
