(* ===== verification/QueueSystem.v ===== *)
(** * QueueSystem: the queue under any history of its operations

    Every operation of [AlignmentGate], [Runner] and [Intake] that writes the
    queue, as one step type, and what holds after any sequence of steps: who an
    entry is never changes, a released entry is never parked again, budgets are
    spent only by failures, and nothing is handed to a runner that was not
    sanctioned. *)

From S2P Require Import Prelude Table QueueSchema QueueText AlignmentGate Runner Intake.
From Stdlib Require Import QArith.
Open Scope Z_scope.

Inductive op :=
  | op_github (p : Process) (l : AdmissionLedger) (data : GithubIssue)
  | op_linear (p : Process) (l : AdmissionLedger) (data : LinearIssue)
  | op_onboard (now : Z) (workspaceId repoFullName : string) (force : bool)
  | op_confirm (now : Z) (input : ConfirmInput)
  | op_deny (now : Z) (id : string)
  | op_revise (now : Z) (id title body : string)
  | op_requeue (now : Z) (workspaceId id : string)
  | op_claim (now : Z) (fresh workspaceId : string)
  | op_ping (now : Z) (id workspaceId : string)
  | op_report (now js_now : Z) (random : Q) (data : RunnerReport).

Section System.
Context (sha1 : list Z → list Z) (sha256 : string → string).
Context (parseUrl : string → option ParsedUrl).
Implicit Types (d : IntakeDb) (o : op) (e : QueueEntry) (t : gmap string QueueEntry).

Definition on_entries (f : gmap string QueueEntry → gmap string QueueEntry) d : IntakeDb :=
  with_queue (with_queue_entries (f (queue_entries (queue d))) (queue d)) d.

(** The database after one operation. *)
Definition exec_op o d : IntakeDb :=
  match o with
  | op_github p l data => (enqueueGithubIssue sha1 sha256 p l data d).2
  | op_linear p l data => (enqueueLinearIssue sha1 sha256 p l data d).2
  | op_onboard now ws repo force => (enqueueOnboard sha1 now ws repo force d).2
  | op_confirm now input => on_entries (λ t, (confirmAlignmentBrief now input t).2) d
  | op_deny now id => on_entries (λ t, (denyAlignmentBrief now id t).2) d
  | op_revise now id title body => on_entries (λ t, (reviseAlignmentBrief now id title body t).2) d
  | op_requeue now ws id =>
      on_entries (λ t, (requeueParkedQueueEntry now (workspaces (queue d)) ws id t).2) d
  | op_claim now fresh ws => with_queue (claimQueueEntry now fresh ws (queue d)).2 d
  | op_ping now id ws => with_queue (recordRunnerLiveness now id ws (queue d)).2 d
  | op_report now js_now random data =>
      with_queue (recordRunnerResult parseUrl now js_now random data (queue d)).2 d
  end.
Definition exec_ops (os : list op) d : IntakeDb := foldl (λ d o, exec_op o d) d os.

Notation entries d := (queue_entries (queue d)).

(** ** What one operation keeps of every row *)

(** An ordinary failure reported for entry [id] of workspace [ws]. *)
Definition is_spend (id ws : string) o : bool :=
  match o with
  | op_report _ _ _ data =>
      (rr_id data ≡? id) && (rr_workspaceId data ≡? ws) && is_failure (rr_status data)
      && negb (isHostedRefusal (rr_status data) (rr_gateReason data))
  | _ => false
  end.
(** A forced recompile of the repository whose onboard entry is [id]. *)
Definition is_rearm (id : string) o : bool :=
  match o with
  | op_onboard _ ws repo force => force && (onboard_id sha1 ws repo ≡? id)
  | _ => false
  end.

(** Identity for ever, and once out of [parked] never back. *)
Definition settled e e' : Prop := same_identity e e' ∧ (qe_state e ≠ parked → qe_state e' ≠ parked).
(** What every statement but a failure and a re-arm keeps besides. *)
Definition unspent e e' : Prop :=
  settled e e' ∧ qe_remaining_budget e' = qe_remaining_budget e ∧ qe_tier e' = qe_tier e.

#[local] Instance settled_preorder : PreOrder settled.
Proof.
  split; [by split|]. intros e1 e2 e3 [H1 H1'] [H2 H2']. split; [by etrans|naive_solver].
Qed.
#[local] Instance unspent_preorder : PreOrder unspent.
Proof.
  split; [by split|]. intros e1 e2 e3 (H1 & Hb & Ht) (H2 & Hb' & Ht').
  split; [by etrans|]. split; congruence.
Qed.

Lemma rows_inserted id e d : entries d !! id = None → rows unspent (entries d) (entries (inserted id e d)).
Proof. apply (rows_insert_fresh unspent). Qed.

Lemma github_rows p l data d : rows unspent (entries d) (entries (exec_op (op_github p l data) d)).
Proof. simpl. destruct (enqueueGithubIssueP sha1 sha256 p l data d); simpl; [done|by apply rows_inserted]. Qed.

Lemma linear_rows p l data d : rows unspent (entries d) (entries (exec_op (op_linear p l data) d)).
Proof.
  simpl. unfold enqueueLinearIssue. destruct (validateAcceptanceCriteria _); [|done].
  destruct (v2_step _ _ _ _ _) as [v l'].
  destruct v as [[|?|?]|]; [| |done|];
    match goal with |- context [insert_entry ?i ?e d] => destruct (insert_entryP i e d) end;
    simpl; solve [done|by apply rows_inserted].
Qed.

Lemma unpark_rows now ws ext q : rows unspent (queue_entries q) (queue_entries (unparkDependents now ws ext q).2).
Proof.
  unfold unparkDependents. destruct (split_last _ _) as [[repo digits]|]; [|done].
  destruct (read_N digits) as [n|]; [|done].
  generalize (parked_dependents (queue_entries q) ws n). intros batch.
  generalize (workspaceRequiresAlignment (workspaces q) ws). intros al.
  destruct (unpark_loop now ws repo al batch (queue_entries q)) as [rel t'] eqn:E. simpl.
  apply (f_equal snd) in E. simpl in E. subst t'. clear rel.
  generalize (queue_entries q). clear q. induction batch as [|b batch IH]; intros t; [done|].
  rewrite unpark_loop_cons. etrans; [|apply IH]. unfold unpark_one.
  destruct (bool_decide _); [done|]. destruct (unmetBlockers _ _ _ _); [|done].
  destruct (aligned _ _); simpl; (apply rows_update_where; [apply _|]; intros k r _; done).
Qed.


Lemma confirm_rows now input t : rows unspent t (confirmAlignmentBrief now input t).2.
Proof.
  unfold confirmAlignmentBrief.
  assert (H : rows unspent t (update_row (ci_queueEntryId input) (λ qe, qe_state qe ≡? parked)
                                (confirm_row now t input) t).2).
  { apply rows_update_row; [apply _|]. intros r Hr. bools. done. }
  by destruct (update_row _ _ _ _).
Qed.

Lemma deny_rows now id t : rows unspent t (denyAlignmentBrief now id t).2.
Proof.
  unfold denyAlignmentBrief.
  match goal with |- context [update_row id ?p ?f t] =>
    assert (H : rows unspent t (update_row id p f t).2) end.
  { apply rows_update_row; [apply _|]. intros r _. done. }
  by destruct (update_row _ _ _ _).
Qed.

Lemma revise_rows now id title body t : rows unspent t (reviseAlignmentBrief now id title body t).2.
Proof.
  unfold reviseAlignmentBrief. destruct (t !! id) as [row|]; [|done].
  destruct (negb (denied row)); [done|].
  match goal with |- context [update_row id ?p ?f t] =>
    assert (H : rows unspent t (update_row id p f t).2) end.
  { apply rows_update_row; [apply _|]. intros r _. done. }
  by destruct (update_row _ _ _ _) as [[?|] ?].
Qed.

Lemma requeue_rows now wss ws id t : rows unspent t (requeueParkedQueueEntry now wss ws id t).2.
Proof.
  destruct (requeueParkedP now wss ws id t); simpl; try done;
    (eapply rows_insert; [apply _|done|]); by repeat split.
Qed.

Lemma swept_unspent now ws e : unspent e (swept now ws e).
Proof. unfold swept. by destruct (stale_entry now ws e). Qed.

Lemma claim_rows now fresh ws q :
  rows unspent (queue_entries q) (queue_entries (claimQueueEntry now fresh ws q).2).
Proof.
  rewrite (proj1 (claimQueueEntry_entries now fresh ws q)).
  assert (H : rows unspent (queue_entries q) (swept now ws <$> queue_entries q)).
  { intros k r Hk. rewrite lookup_fmap, Hk. eexists. split; [done|]. apply swept_unspent. }
  etrans; [exact H|].
  destruct (claim_nextP ws now (swept now ws <$> queue_entries q)) as [k e Hk _ _|_]; simpl; [|done].
  by eapply rows_insert; [apply _|done|].
Qed.

Lemma ping_rows now id ws q :
  rows unspent (queue_entries q) (queue_entries (recordRunnerLiveness now id ws q).2).
Proof.
  unfold recordRunnerLiveness.
  destruct (update_row id _ _ (runs q)) as [r rs].
  match goal with |- context [update_row id ?p ?f (queue_entries q)] =>
    assert (H : rows unspent (queue_entries q) (update_row id p f (queue_entries q)).2) end.
  { apply rows_update_row; [apply _|]. intros e _. done. }
  by destruct (update_row _ _ _ (queue_entries q)).
Qed.

(** ** What a report spends *)

Definition budget_after (spend : bool) (b : Z) : Z := if spend then Z.max (b - 1) 0 else b.

Definition charged (spend : bool) e e' : Prop :=
  settled e e' ∧ qe_remaining_budget e' = budget_after spend (qe_remaining_budget e)
  ∧ (qe_tier e ≤ MAX_TIER → qe_tier e ≤ qe_tier e' ≤ MAX_TIER).

Lemma unspent_charged e e' : unspent e e' → charged false e e'.
Proof. intros (Hs & Hb & Ht). split; [done|]. rewrite Hb, Ht. split; [done|lia]. Qed.
Lemma charged_unspent s e1 e2 e3 : charged s e1 e2 → unspent e2 e3 → charged s e1 e3.
Proof.
  intros (Hs & Hb & Ht) (Hs' & Hb' & Ht'). split; [by etrans|]. rewrite Hb', Ht'. done.
Qed.

Lemma report_to_queue_charged now random data q k e :
  queue_entries q !! k = Some e →
  ∃ e', queue_entries (report_to_queue now random data q).2 !! k = Some e'
    ∧ charged (is_spend k (qe_workspace_id e) (op_report now now random data)) e e'.
Proof.
  intros Hk. unfold report_to_queue, is_spend.
  destruct (decide (rr_id data = k)) as [Hid|Hid].
  2:{ exists e. rewrite (bool_decide_eq_false_2 (rr_id data = k)) by done. split; [|by apply unspent_charged].
      destruct (queue_entries q !! rr_id data); [|done]. destruct (negb _); [done|].
      destruct (rr_status data); simpl; by rewrite lookup_insert_ne. }
  rewrite Hid, Hk, (bool_decide_eq_true_2 (k = k)) by done.
  destruct (decide (qe_workspace_id e = rr_workspaceId data)) as [Hws|Hws].
  2:{ rewrite (bool_decide_eq_false_2 (qe_workspace_id e = _)) by done.
      rewrite (bool_decide_eq_false_2 (rr_workspaceId data = _)) by congruence. simpl. exists e.
      split; [done|by apply unspent_charged]. }
  rewrite Hws, !(bool_decide_eq_true_2 (rr_workspaceId data = _)) by done. simpl.
  destruct (rr_status data) eqn:Hs; simpl; rewrite lookup_insert_eq; (eexists; split; [done|]).
  - repeat split; simpl; (done || lia).
  - unfold failure_row. destruct (qe_remaining_budget e <=? 1);
      repeat split; simpl; unfold MAX_TIER in *; (done || lia).
  - destruct (isHostedRefusal st_error (rr_gateReason data)); simpl.
    + repeat split; simpl; (done || lia).
    + unfold failure_row. destruct (qe_remaining_budget e <=? 1); repeat split; simpl; (done || lia).
  - repeat split; simpl; (done || lia).
Qed.
Lemma report_charged now js_now random data q k e :
  queue_entries q !! k = Some e →
  ∃ e', queue_entries (recordRunnerResult parseUrl now js_now random data q).2 !! k = Some e'
    ∧ charged (is_spend k (qe_workspace_id e) (op_report now js_now random data)) e e'.
Proof.
  intros Hk. destruct (report_to_queue_charged now random data q k e Hk) as (e1 & Hk1 & Hc).
  unfold recordRunnerResult. destruct (report_to_queue now random data q) as [[[r tr]|] q1];
    simpl in *; [|by eauto].
  destruct ((rr_status data ≡? st_green) && _).
  - destruct (unpark_rows now (rr_workspaceId data) (qe_external_id r) q1 k e1 Hk1) as (e2 & Hk2 & Hu).
    destruct (update_row _ _ _ _) as [x rs]; simpl. exists e2. split; [done|].
    by eapply charged_unspent.
  - destruct (update_row _ _ _ _) as [x rs]; simpl. by eauto.
Qed.

Lemma onboard_rows now ws repo force d k :
  is_rearm k (op_onboard now ws repo force) = false →
  ∀ e, entries d !! k = Some e →
  ∃ e', entries (exec_op (op_onboard now ws repo force) d) !! k = Some e' ∧ unspent e e'.
Proof.
  simpl. intros Hr e Hk. unfold enqueueOnboard. fold (onboard_id sha1 ws repo).
  match goal with |- context [insert_entry ?i ?e d] =>
    destruct (insert_entryP i e d) as [Hn|r0 _] end.
  - by apply (rows_inserted _ _ _ Hn).
  - destruct force; simpl in *; [|by exists e]. bools.
    destruct (update_rowP inactive (rearmed now) (onboard_id sha1 ws repo) (entries d));
      simpl; [|by exists e]. rewrite lookup_insert_ne by done. by exists e.
Qed.

(** One operation, seen from one entry. *)
Lemma exec_op_charged o d k e :
  entries d !! k = Some e → is_rearm k o = false →
  ∃ e', entries (exec_op o d) !! k = Some e'
    ∧ charged (is_spend k (qe_workspace_id e) o) e e'.
Proof.
  intros Hk Hr.
  assert (Hu : is_spend k (qe_workspace_id e) o = false →
    (∃ e', entries (exec_op o d) !! k = Some e' ∧ unspent e e') →
    ∃ e', entries (exec_op o d) !! k = Some e' ∧ charged (is_spend k (qe_workspace_id e) o) e e').
  { intros -> (e' & Hk' & Hu). exists e'. split; [done|by apply unspent_charged]. }
  destruct o; try (apply Hu; [done|]).
  - by apply github_rows.
  - by apply linear_rows.
  - by apply onboard_rows.
  - by apply confirm_rows.
  - by apply deny_rows.
  - by apply revise_rows.
  - by apply requeue_rows.
  - by apply claim_rows.
  - by apply ping_rows.
  - by apply report_charged.
Qed.

Definition spends (id ws : string) (os : list op) : Z :=
  Z.of_nat (length (List.filter (is_spend id ws) os)).

(** C32 (invariant).  Retries are bounded, whatever else happens.  Over any
    history of admissions, confirmations, denials, requeues, claims, sweeps,
    pings and reports - none a forced recompile of this entry - an entry stays
    in the queue with its identity, its budget falls by exactly the ordinary
    failures reported for it, never below zero, and its tier never falls and
    never passes [MAX_TIER]. *)
Theorem budget_accounting os d id e :
  entries d !! id = Some e → 0 ≤ qe_remaining_budget e →
  Forall (λ o, is_rearm id o = false) os →
  ∃ e', entries (exec_ops os d) !! id = Some e' ∧ same_identity e e'
    ∧ qe_remaining_budget e' = Z.max 0 (qe_remaining_budget e - spends id (qe_workspace_id e) os)
    ∧ (qe_tier e ≤ MAX_TIER → qe_tier e ≤ qe_tier e' ≤ MAX_TIER).
Proof.
  intros Hk Hb Hos. revert d e Hk Hb. induction Hos as [|o os Ho Hos IH]; intros d e Hk Hb.
  { exists e. unfold spends. simpl. split_and!; (done || lia). }
  destruct (exec_op_charged o d id e Hk Ho) as (e1 & Hk1 & [Hi _] & Hb1 & Ht1).
  destruct (IH (exec_op o d) e1 Hk1) as (e2 & Hk2 & Hi2 & Hb2 & Ht2).
  { rewrite Hb1. unfold budget_after. case_match; lia. }
  exists e2. split; [done|]. split; [by etrans|]. split; [|lia].
  rewrite Hb2, Hb1, (proj1 Hi). unfold spends, budget_after. simpl.
  destruct (is_spend id (qe_workspace_id e) o); simpl; lia.
Qed.

(** A released entry is never parked again: once an entry is out
    of [parked], no history of operations puts it back, so a hold always comes
    before the first claim. *)
Theorem never_parked_again os d id e :
  entries d !! id = Some e → qe_state e ≠ parked →
  ∃ e', entries (exec_ops os d) !! id = Some e' ∧ qe_state e' ≠ parked.
Proof.
  revert d e. induction os as [|o os IH]; intros d e Hk Hst; [by exists e|].
  assert (∃ e1, entries (exec_op o d) !! id = Some e1 ∧ qe_state e1 ≠ parked) as (e1 & Hk1 & Hst1).
  { destruct (is_rearm id o) eqn:Hr.
    - destruct o; try done. simpl in Hr. bools. subst. simpl. unfold enqueueOnboard.
      fold (onboard_id sha1 workspaceId repoFullName).
      match goal with |- context [insert_entry ?i ?e d] =>
        destruct (insert_entryP i e d) as [Hn|r0 _] end; [by simplify_eq|]. simpl.
      destruct (update_rowP inactive (rearmed now) (onboard_id sha1 workspaceId repoFullName) (entries d));
        simpl; [|by eauto]. rewrite lookup_insert_eq. by eexists.
    - destruct (exec_op_charged o d id e Hk Hr) as (e1 & Hk1 & [_ Hp] & _). eauto. }
  by apply (IH (exec_op o d) e1).
Qed.
(** ** Nothing unsanctioned is handed out *)

(** A create_issue approval was granted for exactly the issue of the entry. *)
Definition approved (apps : list Approval) e : Prop :=
  ∃ repo n, qe_external_id e = issue_external_id repo n
    ∧ is_Some (findConfirmedAlignmentBriefApproval (qe_workspace_id e) (githubIssueUrl repo n) apps).

Definition sanctioned (wss : gmap string Workspace) (apps : list Approval) e : Prop :=
  qe_state e = parked ∨ cleared (workspaceRequiresAlignment wss (qe_workspace_id e)) e
  ∨ approved apps e.

Definition keeps wss apps e e' : Prop :=
  same_identity e e' ∧ (sanctioned wss apps e → sanctioned wss apps e').

#[local] Instance keeps_preorder wss apps : PreOrder (keeps wss apps).
Proof. split; [by split|]. intros e1 e2 e3 [H1 K1] [H2 K2]. split; [by etrans|auto]. Qed.

(** Keeping the budget and not leaving [parked] keeps the sanction; so does
    passing the alignment check. *)
Lemma keeps_same wss apps e e' :
  same_identity e e' → qe_estimated_budget_usd e' = qe_estimated_budget_usd e →
  (qe_state e = parked → qe_state e' = parked) → keeps wss apps e e'.
Proof.
  intros Hi Hu Hp. split; [done|].
  destruct Hi as (Hw & _ & Hkind & Hx & _). unfold sanctioned, approved, cleared.
  rewrite Hw, Hkind, Hx, Hu. naive_solver.
Qed.
Lemma keeps_parked wss apps e e' : same_identity e e' → qe_state e' = parked → keeps wss apps e e'.
Proof. intros Hi Hp. split; [done|]. by left. Qed.
Lemma keeps_aligned wss apps e e' :
  same_identity e e' → aligned (workspaceRequiresAlignment wss (qe_workspace_id e')) e' = true →
  keeps wss apps e e'.
Proof. intros Hi Ha%alignedP. split; [done|]. right. by left. Qed.

(** What the invariant says of the tables. *)
Definition sys_inv d : Prop :=
  unique_external (entries d)
  ∧ map_Forall (λ _ e, sanctioned (workspaces (queue d)) (approvals d) e) (entries d).

Lemma inv_updated d q t' :
  workspaces q = workspaces (queue d) → queue_entries q = t' →
  updated (keeps (workspaces (queue d)) (approvals d)) (entries d) t' →
  sys_inv d → sys_inv (with_queue q d).
Proof.
  intros Hw <- Hup [Hu Hs]. split.
  - intros k1 k2 e1 e2 H1 H2 Hws Hx. simpl in *.
    assert (U1 := Hup k1). assert (U2 := Hup k2). rewrite H1 in U1. rewrite H2 in U2.
    inversion U1 as [r1 ? [(W1 & _ & _ & X1 & _) _] E1|]; subst.
    inversion U2 as [r2 ? [(W2 & _ & _ & X2 & _) _] E2|]; subst.
    apply (Hu k1 k2 r1 r2); congruence.
  - intros k e Hk. simpl in *. rewrite Hw. assert (U := Hup k). rewrite Hk in U.
    inversion U as [r ? [_ K] E|]; subst. apply K. by apply (Hs k).
Qed.

(** No other row of the workspace has the external id of a new one: ids do not
    collide, and the sources' external ids are distinct. *)
Definition no_clash id ws ext d : Prop :=
  ∀ k e, entries d !! k = Some e → qe_workspace_id e = ws → qe_external_id e = ext → k = id.

Lemma inv_inserted id e d :
  sys_inv d → no_clash id (qe_workspace_id e) (qe_external_id e) d →
  sanctioned (workspaces (queue d)) (approvals d) e → sys_inv (inserted id e d).
Proof.
  intros [Hu Hs] Hc He. split; simpl.
  - intros k1 k2 e1 e2. destruct (decide (id = k1)) as [<-|H1], (decide (id = k2)) as [<-|H2];
      rewrite ?lookup_insert_eq, ?lookup_insert_ne by done; intros; simplify_eq; try done.
    + by eapply eq_sym, Hc.
    + by eapply Hc.
    + by eapply Hu.
  - by apply map_Forall_insert_2.
Qed.

(** When the environment may perform an operation: new rows do not clash, and
    a runner reports only on an entry it was handed, which is not parked. *)
Definition admissible o d : Prop :=
  match o with
  | op_github p l data =>
      no_clash (github_id sha1 data) (gi_workspaceId data)
        (issue_external_id (gi_repoFullName data) (gi_number data)) d
  | op_linear p l data =>
      no_clash (entryId sha1 (li_workspaceId data) "linear"
                  (linearExternalId (li_issueId data) (li_number data)))
        (li_workspaceId data) (linearExternalId (li_issueId data) (li_number data)) d
  | op_onboard now ws repo force =>
      no_clash (onboard_id sha1 ws repo) ws (ONBOARD_EXTERNAL_ID_PREFIX +:+ repo) d
      ∧ ∀ e, entries d !! onboard_id sha1 ws repo = Some e → qe_kind e = "onboard"
  | op_report _ _ _ data => ∀ e, entries d !! rr_id data = Some e → qe_state e ≠ parked
  | _ => True
  end.
Lemma github_sanctioned p l data d a reason briefId :
  github_admission sha256 p l data d a reason →
  sanctioned (workspaces (queue d)) (approvals d)
    (new_entry (p_now p) (gi_workspaceId data) briefId github "issue"
       (issue_external_id (gi_repoFullName data) (gi_number data)) (gi_title data) (gi_body data)
       QUEUE_ENTRY_DEFAULT_BUDGET (ad_state a) (parseBlockedBy (gi_body data))
       (ad_parkReason a) (ad_usd a) (ad_model a) (ad_task a)).
Proof.
  intros [r l' _|v l' _ _]; [by left|].
  unfold github_alignment, requires_alignment, github_approval, sanctioned, approved, cleared. simpl.
  destruct (workspaceRequiresAlignment _ _); simpl; [|by right; left; left].
  destruct (findConfirmedAlignmentBriefApproval _ _ _) as [j|] eqn:Hj; simpl.
  - right. right. exists (gi_repoFullName data), (gi_number data). split; [done|]. by rewrite Hj.
  - left. by destruct (github_unmet data d).
Qed.

Lemma inv_github p l data d :
  admissible (op_github p l data) d → sys_inv d → sys_inv (exec_op (op_github p l data) d).
Proof.
  simpl. intros Hc Hi. destruct (enqueueGithubIssueP sha1 sha256 p l data d); simpl; [done|].
  apply inv_inserted; [done|done|]. by eapply github_sanctioned.
Qed.

Lemma inv_linear p l data d :
  admissible (op_linear p l data) d → sys_inv d → sys_inv (exec_op (op_linear p l data) d).
Proof.
  simpl. intros Hc Hi. unfold enqueueLinearIssue. destruct (validateAcceptanceCriteria _); [|done].
  destruct (v2_step _ _ _ _ _) as [v l'].
  destruct v as [[|?|?]|]; [| |done|];
    match goal with |- context [insert_entry ?i ?e d] => destruct (insert_entryP i e d) end;
    simpl; try done; (apply inv_inserted; [done|done|]); try by left.
  all: unfold sanctioned, cleared; simpl.
  all: destruct (workspaceRequiresAlignment _ _); [by left|by right; left; left].
Qed.

Lemma inv_onboard now ws repo force d :
  admissible (op_onboard now ws repo force) d → sys_inv d →
  sys_inv (exec_op (op_onboard now ws repo force) d).
Proof.
  simpl. intros [Hc Hk] Hi. unfold enqueueOnboard. fold (onboard_id sha1 ws repo).
  match goal with |- context [insert_entry ?i ?e d] =>
    destruct (insert_entryP i e d) as [Hn|r0 Hr0] end.
  - apply inv_inserted; [done|done|]. by right; left; right; left.
  - destruct force; simpl; [|done].
    destruct (update_rowP inactive (rearmed now) (onboard_id sha1 ws repo) (entries d)) as [r Hr _|];
      simpl; [|done].
    apply (inv_updated d _ (<[onboard_id sha1 ws repo := rearmed now r]> (entries d))); [done..| |done].
    eapply updated_insert; [apply _|done|]. apply keeps_aligned; [done|].
    unfold aligned. simpl. by rewrite (Hk _ Hr).
Qed.

Lemma aligned_usd al e : qe_estimated_budget_usd e ≠ None → aligned al e = true.
Proof.
  unfold aligned. destruct (qe_estimated_budget_usd e); [|done]. by rewrite orb_true_r.
Qed.

Lemma inv_alignment o d :
  match o with op_confirm _ _ | op_deny _ _ | op_revise _ _ _ _ | op_requeue _ _ _ => True | _ => False end →
  sys_inv d → sys_inv (exec_op o d).
Proof.
  intros Ho Hi. destruct o as [| | |now input|now id|now id title body|now ws id| | |]; try done; simpl;
    (eapply inv_updated; [done|reflexivity| |done]); simpl.
  - unfold confirmAlignmentBrief.
    pose proof (updated_update_row (keeps (workspaces (queue d)) (approvals d)) (ci_queueEntryId input)
      (λ qe, qe_state qe ≡? parked) (confirm_row now (entries d) input) (entries d)) as H.
    destruct (update_row _ _ _ _). apply H. intros r _. apply keeps_aligned; [done|].
    by apply aligned_usd.
  - unfold denyAlignmentBrief.
    match goal with |- context [update_row id ?p ?f ?t] =>
      pose proof (updated_update_row (keeps (workspaces (queue d)) (approvals d)) id p f t) as H end.
    destruct (update_row _ _ _ _). apply H. intros r _. by apply keeps_same.
  - unfold reviseAlignmentBrief. destruct (entries d !! id) as [row|]; simpl; [|apply updated_refl; apply _].
    destruct (negb (denied row)); simpl; [apply updated_refl; apply _|].
    match goal with |- context [update_row id ?p ?f ?t] =>
      pose proof (updated_update_row (keeps (workspaces (queue d)) (approvals d)) id p f t) as H end.
    destruct (update_row _ _ _ _) as [[?|] ?]; apply H; intros r Hr;
      (apply keeps_parked; [done|]); unfold denied in Hr; by bools.
  - destruct (requeueParkedP now (workspaces (queue d)) ws id (entries d)); simpl;
      try (apply updated_refl; apply _); (eapply updated_insert; [apply _|done|]).
    + by apply keeps_same.
    + by apply keeps_same.
    + apply keeps_aligned; [done|]. simpl. by subst.
Qed.
Lemma swept_keeps wss apps now ws e : keeps wss apps e (swept now ws e).
Proof.
  unfold swept, stale_entry. destruct (_ && is_stale _ _ _) eqn:H; [|done]. bools.
  apply keeps_same; [done|done|congruence].
Qed.

Lemma claim_workspaces now fresh ws q : workspaces (claimQueueEntry now fresh ws q).2 = workspaces q.
Proof.
  unfold claimQueueEntry. simpl. destruct (claim_next _ _ _) as [[[k e]|] t]; simpl; [|done].
  by destruct (deriveRepoSlug _ _ _); [|destruct (findOrCreateRepository _ _ _ _ _)].
Qed.

Lemma claim_updated now fresh ws d :
  updated (keeps (workspaces (queue d)) (approvals d)) (entries d)
    (queue_entries (claimQueueEntry now fresh ws (queue d)).2).
Proof.
  rewrite (proj1 (claimQueueEntry_entries now fresh ws (queue d))).
  eapply updated_trans; [apply _|apply (updated_fmap _ (swept now ws)); apply swept_keeps|].
  destruct (claim_nextP ws now (swept now ws <$> entries d)) as [k e Hk He _|_]; simpl;
    [|apply updated_refl; apply _].
  eapply updated_insert; [apply _|done|]. rewrite claim_where_eligible in He.
  unfold eligible, isClaimEligible in He. apply keeps_same; [done|done|].
  intros Hp. rewrite Hp in He. by rewrite andb_false_r in He.
Qed.

Lemma unpark_updated now ws ext d q :
  workspaces q = workspaces (queue d) → unique_external (queue_entries q) →
  updated (keeps (workspaces (queue d)) (approvals d)) (queue_entries q)
    (queue_entries (unparkDependents now ws ext q).2).
Proof.
  intros Hw Hu k. destruct (unparkDependents_any now ws ext q k Hu) as [->|(repo & n & ->)].
  { by destruct (queue_entries q !! k); constructor. }
  destruct (queue_entries q !! k) as [e|]; simpl; constructor.
  destruct (is_dependent ws n e) eqn:Hd; [|done]. unfold is_dependent in Hd. bools.
  unfold unpark_effect. destruct (bool_decide _); [done|]. destruct (unmetBlockers _ _ _ _); [|done].
  destruct (aligned _ _) eqn:Ha.
  - apply keeps_aligned; [done|]. rewrite Hw in Ha. simpl. by subst.
  - by apply keeps_same.
Qed.

Lemma report_committed_keeps now random data d :
  admissible (op_report now now random data) d →
  updated (keeps (workspaces (queue d)) (approvals d)) (entries d)
    (queue_entries (report_to_queue now random data (queue d)).2)
  ∧ workspaces (report_to_queue now random data (queue d)).2 = workspaces (queue d).
Proof.
  simpl. intros Had. unfold report_to_queue.
  destruct (entries d !! rr_id data) as [e|] eqn:Hk; [|split; [apply updated_refl; apply _|done]].
  specialize (Had e eq_refl). destruct (negb _); [split; [apply updated_refl; apply _|done]|].
  destruct (rr_status data); simpl; (split; [|done]); (eapply updated_insert; [apply _|done|]);
    try destruct (isHostedRefusal _ _); by apply keeps_same.
Qed.

Lemma inv_report now js_now random data d :
  admissible (op_report now js_now random data) d → sys_inv d →
  sys_inv (exec_op (op_report now js_now random data) d).
Proof.
  intros Had Hi. destruct (report_committed_keeps now random data d Had) as [Hup Hw].
  simpl. unfold recordRunnerResult.
  destruct (report_to_queue now random data (queue d)) as [[[r tr]|] q1]; simpl in *;
    [|by apply (inv_updated d q1 (queue_entries q1))].
  destruct ((rr_status data ≡? st_green) && _).
  - destruct (unparkDependents_frame now (rr_workspaceId data) (qe_external_id r) q1) as [t Ht].
    assert (Hu1 : unique_external (queue_entries q1)).
    { by destruct (inv_updated d q1 (queue_entries q1) Hw eq_refl Hup Hi). }
    assert (H2 := unpark_updated now (rr_workspaceId data) (qe_external_id r) d q1 Hw Hu1).
    destruct (update_row _ _ _ _) as [x rs]; simpl. eapply inv_updated; [|reflexivity| |done].
    + simpl. by rewrite Ht.
    + simpl. by eapply updated_trans; [apply _| |].
  - destruct (update_row _ _ _ _) as [x rs]; simpl. by eapply inv_updated; [|reflexivity| |].
Qed.

Lemma inv_ping now id ws d : sys_inv d → sys_inv (exec_op (op_ping now id ws) d).
Proof.
  intros Hi. simpl. unfold recordRunnerLiveness.
  destruct (update_row id _ _ (runs (queue d))) as [r rs].
  match goal with |- context [update_row id ?p ?f (entries d)] =>
    pose proof (updated_update_row (keeps (workspaces (queue d)) (approvals d)) id p f (entries d)) as H end.
  destruct (update_row id _ _ (entries d)) as [r' es]. simpl.
  eapply inv_updated; [done|reflexivity| |done]. apply H. intros e _. by apply keeps_same.
Qed.

Lemma sys_inv_step o d : admissible o d → sys_inv d → sys_inv (exec_op o d).
Proof.
  intros Ha Hi. destruct o.
  - by apply inv_github.
  - by apply inv_linear.
  - by apply inv_onboard.
  - by apply inv_alignment.
  - by apply inv_alignment.
  - by apply inv_alignment.
  - by apply inv_alignment.
  - eapply inv_updated; [apply claim_workspaces|reflexivity|apply claim_updated|done].
  - by apply inv_ping.
  - by apply inv_report.
Qed.

(** One admissible operation. *)
Inductive sys_step : relation IntakeDb :=
  | sys_op o d : admissible o d → sys_step d (exec_op o d).

(** C31 (safety).  Nothing unsanctioned reaches a runner.  From any state whose
    entries are sanctioned - an empty queue, for one - after any admissible
    history, an entry that a claim hands out is of a workspace that needs no
    alignment, or is not an issue, or carries the budget of a confirmed brief,
    or is an issue whose creation a human approved under its exact URL. *)
Theorem claims_are_sanctioned d0 d now fresh ws item q' :
  sys_inv d0 → rtc sys_step d0 d →
  claimQueueEntry now fresh ws (queue d) = (Some item, q') →
  ∃ e, queue_entries q' !! wi_id item = Some e
    ∧ (cleared (workspaceRequiresAlignment (workspaces (queue d)) (qe_workspace_id e)) e
       ∨ approved (approvals d) e).
Proof.
  intros Hi Hsteps Hclaim.
  assert (Hd : sys_inv d).
  { clear Hclaim. revert Hi. induction Hsteps as [|d1 d2 d3 [o d' Ha] _ IH]; [done|].
    intros Hi. apply IH. by apply sys_inv_step. }
  destruct (claimQueueEntry_entries now fresh ws (queue d)) as [Hq Hid].
  destruct (inv_updated d _ _ (claim_workspaces now fresh ws (queue d)) eq_refl
    (claim_updated now fresh ws d) Hd) as [_ Hs].
  rewrite Hclaim in Hq, Hid, Hs. simpl in *.
  destruct (claim_nextP ws now (swept now ws <$> entries d)) as [k e Hk _ _|_]; simpl in *; [|done].
  injection Hid as Hid. subst k. exists (claimed now e). rewrite Hq, lookup_insert_eq.
  split; [done|]. specialize (Hs (wi_id item) (claimed now e)).
  assert (Hw : workspaces q' = workspaces (queue d)).
  { rewrite <- (claim_workspaces now fresh ws (queue d)). by rewrite Hclaim. }
  rewrite Hw, Hq in Hs. destruct Hs as [Hp|[Ha|Ha]]; [apply lookup_insert_eq|done|by left|by right].
Qed.
End System.

(** ** Applications *)

Definition empty_workspace : IntakeDb :=
  mkIntakeDb (mkQueueDb {[ "ws" := mkWorkspace false false ]} [] ∅ ∅ [] ∅) [] ∅.
Definition exec_sample : op → IntakeDb → IntakeDb := exec_op sample_sha1 sample_sha256 no_url.
Definition after_intake : IntakeDb := exec_sample (op_github (v2_off 1) empty_ledger plain_issue) empty_workspace.

Lemma claims_are_sanctioned_witness :
  ∃ item q' e, claimQueueEntry 5 "repo" "ws" (queue after_intake) = (Some item, q')
    ∧ queue_entries q' !! wi_id item = Some e
    ∧ (cleared (workspaceRequiresAlignment (workspaces (queue after_intake)) (qe_workspace_id e)) e
       ∨ approved (approvals after_intake) e).
Proof.
  destruct (claimQueueEntry 5 "repo" "ws" (queue after_intake)) as [[item|] q'] eqn:E.
  - destruct (claims_are_sanctioned sample_sha1 sample_sha256 no_url empty_workspace after_intake
      5 "repo" "ws" item q') as (e & He & Hs).
    + split; [|apply map_Forall_empty]. intros k1 k2 e1 e2 H. by vm_compute in H.
    + apply rtc_once. apply sys_op. intros k e H. by vm_compute in H.
    + exact E.
    + exists item, q', e. split; [reflexivity|]. split; [exact He|exact Hs].
  - exfalso. apply (f_equal fst) in E. by vm_compute in E.
Defined.

Definition retry_history : list op :=
  [op_claim 0 "repo" "ws"; op_report 5 5 0 (report "q1" st_red);
   op_claim (seconds 60) "repo" "ws"; op_report (seconds 70) 5 0 (report "q1" st_error)].

Lemma budget_accounting_witness :
  ∃ e', queue_entries (queue (exec_ops sample_sha1 sample_sha256 no_url retry_history
          (mkIntakeDb one_entry [] ∅))) !! "q1" = Some e'
    ∧ qe_remaining_budget e' = 3.
Proof.
  destruct (budget_accounting sample_sha1 sample_sha256 no_url retry_history (mkIntakeDb one_entry [] ∅)
    "q1" (sample_entry "issue" "acme/a#5" queued [] None (Some 500))) as (e' & Hk & _ & Hb & _).
  - by vm_compute.
  - done.
  - by repeat constructor.
  - exists e'. split; [exact Hk|]. rewrite Hb. by vm_compute.
Defined.

Lemma never_parked_again_witness :
  ∃ e', queue_entries (queue (exec_ops sample_sha1 sample_sha256 no_url [op_deny 3 "q1"]
          (mkIntakeDb one_entry [] ∅))) !! "q1" = Some e' ∧ qe_state e' ≠ parked.
Proof.
  apply (never_parked_again sample_sha1 sample_sha256 no_url [op_deny 3 "q1"] (mkIntakeDb one_entry [] ∅)
    "q1" (sample_entry "issue" "acme/a#5" queued [] None (Some 500))); [by vm_compute|done].
Defined.
