(* ===== verification/ReviewJobs.v ===== *)
(** * ReviewJobs: the reviewer-of-record queue

    [queries/review_jobs.ts]: the admission of a pull-request head with its
    supersede, the claim with its two pre-passes and daily budget, completion,
    release and the session binding. *)

From S2P Require Import Prelude Table Intake.
From Stdlib Require String.
Open Scope Z_scope.

Inductive ReviewState := rj_queued | rj_running | rj_posted | rj_superseded | rj_skipped | rj_failed.
#[export] Instance ReviewState_eq_dec : EqDecision ReviewState.
Proof. solve_decision. Defined.

Record ReviewJob := mkReviewJob {
  rj_workspace_id : string;
  rj_repo : string;
  rj_pr_number : Z;
  rj_head_sha : string;
  rj_event : string;
  rj_state : ReviewState;
  rj_attempts : Z;
  rj_claimed_by : option string;
  rj_claimed_at : option Z;
  rj_next_eligible_at : option Z;
  rj_posted_review_url : option string;
  rj_verdict : option string;
  rj_skip_reason : option string;
  rj_evidence_keys : option (list string);
  rj_created_at : Z;
  rj_updated_at : Z;
}.

(** The assignments the statements make. *)
Definition set_rj_state (v : ReviewState) (now : Z) (r : ReviewJob) : ReviewJob :=
  mkReviewJob (rj_workspace_id r) (rj_repo r) (rj_pr_number r) (rj_head_sha r) (rj_event r) v
    (rj_attempts r) (rj_claimed_by r) (rj_claimed_at r) (rj_next_eligible_at r)
    (rj_posted_review_url r) (rj_verdict r) (rj_skip_reason r) (rj_evidence_keys r)
    (rj_created_at r) now.
Definition set_rj_claim (by_ : option string) (at_ : option Z) (r : ReviewJob) : ReviewJob :=
  mkReviewJob (rj_workspace_id r) (rj_repo r) (rj_pr_number r) (rj_head_sha r) (rj_event r)
    (rj_state r) (rj_attempts r) by_ at_ (rj_next_eligible_at r)
    (rj_posted_review_url r) (rj_verdict r) (rj_skip_reason r) (rj_evidence_keys r)
    (rj_created_at r) (rj_updated_at r).
Definition set_rj_attempts (v : Z) (r : ReviewJob) : ReviewJob :=
  mkReviewJob (rj_workspace_id r) (rj_repo r) (rj_pr_number r) (rj_head_sha r) (rj_event r)
    (rj_state r) v (rj_claimed_by r) (rj_claimed_at r) (rj_next_eligible_at r)
    (rj_posted_review_url r) (rj_verdict r) (rj_skip_reason r) (rj_evidence_keys r)
    (rj_created_at r) (rj_updated_at r).
Definition set_rj_retry (next : option Z) (skip : option string) (r : ReviewJob) : ReviewJob :=
  mkReviewJob (rj_workspace_id r) (rj_repo r) (rj_pr_number r) (rj_head_sha r) (rj_event r)
    (rj_state r) (rj_attempts r) (rj_claimed_by r) (rj_claimed_at r) next
    (rj_posted_review_url r) (rj_verdict r) skip (rj_evidence_keys r)
    (rj_created_at r) (rj_updated_at r).
Definition set_rj_outcome (url verdict : option string) (keys : option (list string))
    (r : ReviewJob) : ReviewJob :=
  mkReviewJob (rj_workspace_id r) (rj_repo r) (rj_pr_number r) (rj_head_sha r) (rj_event r)
    (rj_state r) (rj_attempts r) (rj_claimed_by r) (rj_claimed_at r) (rj_next_eligible_at r)
    url verdict (rj_skip_reason r) keys (rj_created_at r) (rj_updated_at r).

(** The columns of [change_records] the claim reads. *)
Record ChangeHead := mkChangeHead {
  ch_workspace_id : string;
  ch_repo : string;
  ch_pr_number : Z;
  ch_authoritative : bool;
  ch_head_sha : option string;
  ch_cycle_id : option string;
}.

Notation jobs := (gmap string ReviewJob).

(** ** Admission *)

Definition reviewJobId (sha1 : list Z → list Z) (workspaceId repo : string) (prNumber : N)
    (headSha : string) : string :=
  uuid5Url sha1 ("review-job:" +:+ workspaceId +:+ ":" +:+ repo +:+ ":" +:+ show_N prNumber
                 +:+ ":" +:+ headSha).

Record ReviewInput := mkReviewInput {
  ri_workspaceId : string;
  ri_repo : string;
  ri_prNumber : N;
  ri_headSha : string;
  ri_event : string;
}.

Record EnqueueReviewJobResult := mkEnqueueReviewJobResult {
  er_id : string;
  er_deduped : bool;
  er_superseded : nat;
}.

Definition new_review_job (now : Z) (i : ReviewInput) : ReviewJob :=
  mkReviewJob (ri_workspaceId i) (ri_repo i) (Z.of_N (ri_prNumber i)) (ri_headSha i) (ri_event i)
    rj_queued 0 None None
    (if ri_event i ≡? "synchronize" then Some (now + seconds 60) else None)
    None None None None now now.

(** The rows the supersede stands down. *)
Definition stale_sibling (i : ReviewInput) (r : ReviewJob) : bool :=
  (rj_workspace_id r ≡? ri_workspaceId i) && (rj_repo r ≡? ri_repo i)
  && (rj_pr_number r ≡? Z.of_N (ri_prNumber i)) && (rj_head_sha r ≢? ri_headSha i)
  && (rj_state r ≡? rj_queued).

Definition enqueueReviewJob (sha1 : list Z → list Z) (now : Z) (i : ReviewInput) (t : jobs)
    : EnqueueReviewJobResult * jobs :=
  let id := reviewJobId sha1 (ri_workspaceId i) (ri_repo i) (ri_prNumber i) (ri_headSha i) in
  let '(fresh, t1) := insert_new id (new_review_job now i) t in
  if negb fresh then (mkEnqueueReviewJobResult id true 0, t1) else
  (mkEnqueueReviewJobResult id false (count_where (λ _, stale_sibling i) t1),
   update_where (λ _, stale_sibling i) (set_rj_state rj_superseded now) t1).

(** [ORDER BY created_at] *)
Definition listReviewJobsForPr (workspaceId repo : string) (prNumber : Z) (t : jobs)
    : list (string * ReviewJob) :=
  order_by rj_created_at (select_where (λ _ r, (rj_workspace_id r ≡? workspaceId)
    && (rj_repo r ≡? repo) && (rj_pr_number r ≡? prNumber)) t).
Definition getReviewJobById (jobId : string) (t : jobs) : option ReviewJob := t !! jobId.
Definition getReviewJobState (jobId : string) (t : jobs) : option ReviewState :=
  rj_state <$> t !! jobId.

(** ** The claim *)

Definition requeueStaleRunningReviewJobs (now : Z) (t : jobs) : jobs :=
  update_where (λ _ r, (rj_state r ≡? rj_running) && sql_lt (rj_claimed_at r) (now - minutes 15))
    (λ r, set_rj_state rj_queued now (set_rj_attempts (rj_attempts r + 1) (set_rj_claim None None r))) t.

Definition failStaleQueuedReviewJobs (now : Z) (t : jobs) : jobs :=
  update_where (λ _ r, (rj_state r ≡? rj_queued) && (2 <? rj_attempts r))
    (λ r, set_rj_state rj_failed now
            (set_rj_retry (rj_next_eligible_at r) (Some "stale after retries") r)) t.

(** Whether the job reviews the current head of its change record. *)
Definition is_current_head (records : list ChangeHead) (id : string) (r : ReviewJob) : bool :=
  existsb (λ cr, (ch_workspace_id cr ≡? rj_workspace_id r) && (ch_repo cr ≡? rj_repo r)
    && (ch_pr_number cr ≡? rj_pr_number r) && ch_authoritative cr
    && sql_eq (ch_head_sha cr) (rj_head_sha r) && sql_eq (ch_cycle_id cr) id) records.

Definition running_in (workspaceId : string) (_ : string) (r : ReviewJob) : bool :=
  (rj_workspace_id r ≡? workspaceId) && (rj_state r ≡? rj_running).

Record ReviewClaim := mkReviewClaim { rc_workerId : string; rc_records : list ChangeHead }.

#[export] Instance review_claimable : Claimable ReviewClaim ReviewJob := {
  claim_where q now t k r :=
    (rj_state r ≡? rj_queued)
    && (is_null (rj_next_eligible_at r)
        || match rj_next_eligible_at r with Some n => n <=? now | None => false end)
    && is_current_head (rc_records q) k r
    && bool_decide (select_where (running_in (rj_workspace_id r)) t = []);
  claim_order := rj_created_at;
  claim_set q now r := set_rj_claim (Some (rc_workerId q)) (Some now) (set_rj_state rj_running now r);
}.
#[export] Instance review_claimable_laws : ClaimableLaws ReviewClaim ReviewJob.
Proof. intros q q' now now' t k r. simpl. by rewrite ?andb_false_l. Qed.

(** [(x AT TIME ZONE 'UTC')::date] *)
Definition utc_date (t : Z) : Z := t / (minutes (24 * 60)).

Definition counts_today (workspaceId : string) (now : Z) (_ : string) (r : ReviewJob) : bool :=
  (rj_workspace_id r ≡? workspaceId) && (rj_state r ≢? rj_superseded)
  && (utc_date (rj_created_at r) ≡? utc_date now).

Definition skip_job (now : Z) (r : ReviewJob) : ReviewJob :=
  set_rj_state rj_skipped now (set_rj_retry (rj_next_eligible_at r) (Some "daily budget exhausted") r).

(** The recursion of the source, on fuel; the outer [None] is out of fuel. *)
Fixpoint claimEligibleReviewJob (fuel : nat) (now : Z) (q : ReviewClaim) (dailyBudget : Z) (t : jobs)
    : option (option (string * ReviewJob) * jobs) :=
  match fuel with
  | O => None
  | S fuel' =>
      match claim_next q now t with
      | (None, t1) => Some (None, t1)
      | (Some (id, row), t1) =>
          let countToday := Z.of_nat (count_where (counts_today (rj_workspace_id row) now) t1) in
          if dailyBudget <? countToday then
            claimEligibleReviewJob fuel' now q dailyBudget
              (update_row id (λ _, true) (skip_job now) t1).2
          else Some (Some (id, row), t1)
      end
  end.

Definition is_queued (_ : string) (r : ReviewJob) : bool := rj_state r ≡? rj_queued.

(** One more call than there are queued jobs is enough (see
    [claimReviewJob_total]). *)
Definition claimReviewJob (now : Z) (q : ReviewClaim) (dailyBudget : Z) (t : jobs)
    : option (option (string * ReviewJob) * jobs) :=
  let t1 := failStaleQueuedReviewJobs now (requeueStaleRunningReviewJobs now t) in
  claimEligibleReviewJob (S (count_where is_queued t1)) now q dailyBudget t1.

(** ** Completion, release, binding *)

Inductive Outcome :=
  | outcome_posted (url verdict : option string) (evidenceKeys : option (list string))
  | outcome_failed (error : option string).

Definition posted_row (now : Z) (url verdict : option string) (keys : option (list string))
    (r : ReviewJob) : ReviewJob :=
  set_rj_state rj_posted now (set_rj_outcome url verdict keys r).

Definition failed_row (now : Z) (error : option string) (r : ReviewJob) : ReviewJob :=
  if 2 <? rj_attempts r + 1 then
    set_rj_state rj_failed now
      (set_rj_retry None (coalesce error (Some "review failed (no error detail)"))
        (set_rj_attempts (rj_attempts r + 1) r))
  else
    set_rj_state rj_queued now
      (set_rj_retry (Some (now + minutes 5)) None
        (set_rj_claim None None (set_rj_attempts (rj_attempts r + 1) r))).

Definition is_running (r : ReviewJob) : bool := rj_state r ≡? rj_running.

Definition completeReviewJob (now : Z) (jobId : string) (o : Outcome) (t : jobs)
    : option ReviewJob * jobs :=
  match o with
  | outcome_posted url verdict keys => update_row jobId is_running (posted_row now url verdict keys) t
  | outcome_failed error => update_row jobId is_running (failed_row now error) t
  end.

Definition releaseReviewJob (now : Z) (jobId : string) (t : jobs) : jobs :=
  (update_row jobId is_running (λ r, set_rj_state rj_queued now (set_rj_claim None None r)) t).2.

(** [jace_sessions] by its unique key (workspace, channel, conversation). *)
Definition Sessions : Type := gmap (string * string * string) string.

(** [None] is the exception. *)
Definition bindReviewJobSession (jobId eveSessionId : string) (t : jobs) (s : Sessions)
    : option Sessions :=
  match t !! jobId with
  | None => None
  | Some job => Some (<[(rj_workspace_id job, "review-job", "review-job:" +:+ jobId) := eveSessionId]> s)
  end.

(** ** At most one running job per workspace *)

Notation running_job := (λ r : ReviewJob, rj_state r = rj_running).
Definition one_running (t : jobs) : Prop := exclusive running_job rj_workspace_id t.
Notation no_job_starts := (no_start running_job rj_workspace_id).

Lemma failed_row_state now error r : rj_state (failed_row now error r) ≠ rj_running.
Proof. unfold failed_row. by destruct (2 <? _). Qed.

(** What the claim's statement guarantees of the job it starts. *)
Lemma claim_next_one_running q now t : one_running t → one_running (claim_next q now t).2.
Proof.
  intros Ho. destruct (claim_nextP q now t) as [k r Hk Hp _|_]; simpl; [|done].
  simpl in Hp. bools.
  match goal with H : select_where _ _ = [] |- _ => rename H into Hnone end.
  assert (Hfree : ∀ k' r', t !! k' = Some r' → rj_state r' = rj_running →
    rj_workspace_id r' ≠ rj_workspace_id r).
  { intros k' r' Hk' Hs Hw.
    assert (Hin : (k', r') ∈ select_where (running_in (rj_workspace_id r)) t).
    { apply elem_of_select_where. split; [done|]. unfold running_in.
      by rewrite !bool_decide_eq_true_2. }
    rewrite Hnone in Hin. by apply not_elem_of_nil in Hin. }
  by apply exclusive_start.
Qed.

(** The measure of the claim's recursion: the jobs still queued. *)
Definition queued_count (t : jobs) : nat := count_where is_queued t.

Lemma skip_after_claim q now t k r :
  (update_row k (λ _, true) (skip_job now) (<[k := claim_set q now r]> t)).2
  = <[k := skip_job now (claim_set q now r)]> t.
Proof. unfold update_row. by rewrite lookup_insert_eq, insert_insert_eq. Qed.

Lemma claim_eligible_total fuel now q budget t :
  (queued_count t < fuel)%nat → is_Some (claimEligibleReviewJob fuel now q budget t).
Proof.
  revert t. induction fuel as [|fuel IH]; intros t Hf; [lia|]. cbn [claimEligibleReviewJob].
  destruct (claim_nextP q now t) as [k r Hk Hp _|_]; [|by eexists].
  case_match; [|by eexists]. rewrite skip_after_claim. apply IH.
  simpl in Hp. bools. unfold queued_count in *.
  rewrite (count_where_drop is_queued t k r (skip_job now (claim_set q now r))) in Hf; [lia|done| |done].
  unfold is_queued. by rewrite bool_decide_eq_true_2.
Qed.

(** What the recursion returns: the table it leaves starts no job but the one
    returned, which is running for the worker and within the budget. *)
Lemma claim_eligible_sound fuel now q budget t res t' :
  claimEligibleReviewJob fuel now q budget t = Some (res, t') → one_running t →
  one_running t'
  ∧ match res with
    | Some (k, r) => t' !! k = Some r ∧ rj_state r = rj_running
        ∧ rj_claimed_by r = Some (rc_workerId q) ∧ is_current_head (rc_records q) k r = true
        ∧ Z.of_nat (count_where (counts_today (rj_workspace_id r) now) t') ≤ budget
    | None => ∀ k r, t' !! k = Some r → claim_where q now t' k r = false
    end.
Proof.
  revert t. induction fuel as [|fuel IH]; intros t; [done|]. cbn [claimEligibleReviewJob].
  intros H Ho. assert (Ho' := claim_next_one_running q now t Ho).
  destruct (claim_nextP q now t) as [k r Hk Hp _|Hno]; [|by simplify_eq].
  destruct (Z.ltb_spec budget (Z.of_nat (count_where
    (counts_today (rj_workspace_id (claim_set q now r)) now) (<[k := claim_set q now r]> t)))) as [Hb|Hb].
  - apply (IH _ H). eapply exclusive_no_start, Ho'. apply no_start_update_row. by intros.
  - injection H as <- <-. split; [done|]. rewrite lookup_insert_eq. simpl in Hp. bools.
    split_and!; done.
Qed.

(** ** Histories *)

Section History.
Context (sha1 : list Z → list Z).
Implicit Types (t : jobs) (r : ReviewJob).

Inductive review_op :=
  | ro_enqueue (now : Z) (i : ReviewInput)
  | ro_claim (now : Z) (q : ReviewClaim) (budget : Z)
  | ro_complete (now : Z) (id : string) (o : Outcome)
  | ro_release (now : Z) (id : string).

Definition exec_review (o : review_op) (t : jobs) : jobs :=
  match o with
  | ro_enqueue now i => (enqueueReviewJob sha1 now i t).2
  | ro_claim now q budget => match claimReviewJob now q budget t with Some (_, t') => t' | None => t end
  | ro_complete now id out => (completeReviewJob now id out t).2
  | ro_release now id => releaseReviewJob now id t
  end.
Definition exec_reviews (os : list review_op) (t : jobs) : jobs := foldl (λ t o, exec_review o t) t os.

Lemma prepass_no_start now t :
  no_job_starts t (failStaleQueuedReviewJobs now (requeueStaleRunningReviewJobs now t)).
Proof. etrans; apply no_start_update_where; by intros. Qed.

Lemma enqueue_no_start now i t : no_job_starts t (enqueueReviewJob sha1 now i t).2.
Proof.
  unfold enqueueReviewJob, insert_new. destruct (t !! _); simpl; [done|].
  etrans; [apply (no_start_insert running_job rj_workspace_id (reviewJobId sha1 (ri_workspaceId i) (ri_repo i) (ri_prNumber i)
    (ri_headSha i)) (new_review_job now i)); done|].
  apply no_start_update_where; by intros.
Qed.

(** C38 (termination).  The claim's recursion over budget-skipped jobs always
    ends with an answer, and the answer is right: the job returned is running
    for the asking worker, reviews the authoritative current head of its
    change record, and its workspace is within the daily budget; [None] means
    that no job is claimable in the table left behind. *)
Theorem claimReviewJob_total now q budget t :
  one_running t →
  ∃ res t', claimReviewJob now q budget t = Some (res, t')
  ∧ match res with
    | Some (k, r) => t' !! k = Some r ∧ rj_state r = rj_running
        ∧ rj_claimed_by r = Some (rc_workerId q) ∧ is_current_head (rc_records q) k r = true
        ∧ Z.of_nat (count_where (counts_today (rj_workspace_id r) now) t') ≤ budget
    | None => ∀ k r, t' !! k = Some r → claim_where q now t' k r = false
    end.
Proof.
  intros Ho. unfold claimReviewJob.
  set (t1 := failStaleQueuedReviewJobs now (requeueStaleRunningReviewJobs now t)).
  destruct (claim_eligible_total (S (count_where is_queued t1)) now q budget t1) as [[res t'] H].
  { unfold queued_count. lia. }
  exists res, t'. split; [done|]. eapply (claim_eligible_sound _ now q budget t1); [exact H|].
  eapply exclusive_no_start, Ho. apply prepass_no_start.
Qed.

Lemma exec_review_one_running o t : one_running t → one_running (exec_review o t).
Proof.
  intros Ho. destruct o as [now i|now q budget|now id out|now id]; simpl.
  - eapply exclusive_no_start, Ho. apply enqueue_no_start.
  - destruct (claimReviewJob now q budget t) as [[res t']|] eqn:E; [|done].
    unfold claimReviewJob in E. eapply claim_eligible_sound in E; [by destruct E|].
    eapply exclusive_no_start, Ho. apply prepass_no_start.
  - eapply exclusive_no_start, Ho. destruct out; simpl; apply no_start_update_row; intros r;
      intros _ Hs; [done|]. by destruct (failed_row_state now error r).
  - eapply exclusive_no_start, Ho. apply no_start_update_row. by intros.
Qed.

(** C37 (invariant).  One review at a time: after any sequence of admissions,
    claims by any workers, completions and releases, a workspace has at most
    one running job. *)
Theorem one_running_per_workspace os t : one_running t → one_running (exec_reviews os t).
Proof.
  revert t. induction os as [|o os IH]; intros t Ho; [done|].
  apply IH. by apply exec_review_one_running.
Qed.

Definition terminal (r : ReviewJob) : Prop :=
  rj_state r = rj_posted ∨ rj_state r = rj_failed ∨ rj_state r = rj_superseded ∨ rj_state r = rj_skipped.

Lemma terminal_tests r : terminal r →
  (rj_state r ≡? rj_queued) = false ∧ (rj_state r ≡? rj_running) = false.
Proof. intros [H|[H|[H|H]]]; rewrite H; done. Qed.

Lemma claim_eligible_terminal fuel now q budget t res t' k r :
  claimEligibleReviewJob fuel now q budget t = Some (res, t') →
  t !! k = Some r → terminal r → t' !! k = Some r.
Proof.
  intros H Hk Ht. destruct (terminal_tests r Ht) as [Hq _]. revert t H Hk.
  induction fuel as [|fuel IH]; intros t; [done|]. cbn [claimEligibleReviewJob].
  destruct (claim_nextP q now t) as [k1 r1 Hk1 Hp _|_]; [|by intros [= <- <-]].
  intros H Hk. assert (k1 ≠ k) as Hne.
  { intros ->. simplify_eq. simpl in Hp. by rewrite Hq in Hp. }
  case_match.
  - rewrite skip_after_claim in H. apply (IH _ H). by rewrite lookup_insert_ne.
  - injection H as <- <-. by rewrite lookup_insert_ne.
Qed.

(** A finished job is final: a job that is posted, failed,
    superseded or skipped is never changed again - no late completion, release,
    redelivery, claim or sweep touches its row. *)
Theorem terminal_jobs_final os t k r :
  t !! k = Some r → terminal r → exec_reviews os t !! k = Some r.
Proof.
  intros Hk Ht. destruct (terminal_tests r Ht) as [Hq Hr]. revert t Hk.
  induction os as [|o os IH]; intros t Hk; [done|]. apply IH.
  destruct o as [now i|now q budget|now id out|now id]; simpl.
  - unfold enqueueReviewJob, insert_new.
    destruct (t !! reviewJobId sha1 _ _ _ _) eqn:Hn; simpl; [done|]. apply update_where_skips.
    + rewrite lookup_insert_ne; [done|]. congruence.
    + unfold stale_sibling. by rewrite Hq, andb_false_r.
  - destruct (claimReviewJob now q budget t) as [[res t']|] eqn:E; [|done].
    eapply claim_eligible_terminal; [exact E| |done].
    apply update_where_skips; [apply update_where_skips; [done|]|]; by rewrite ?Hq, ?Hr.
  - destruct out; by apply update_row_skips.
  - by apply update_row_skips.
Qed.

(** An attempt counter that is in bounds: at most two while the job can still
    run, three once it cannot. *)
Definition attempts_ok (r : ReviewJob) : Prop :=
  0 ≤ rj_attempts r ≤ 3
  ∧ (rj_state r = rj_queued ∨ rj_state r = rj_running → rj_attempts r ≤ 2).
Definition attempts_inv (t : jobs) : Prop := map_Forall (λ _ r, attempts_ok r) t.

Lemma prepass_attempts now t :
  attempts_inv t → attempts_inv (failStaleQueuedReviewJobs now (requeueStaleRunningReviewJobs now t)).
Proof.
  intros Ht. apply (Forall_update_where (λ r, 0 ≤ rj_attempts r ≤ 3 ∧ (rj_state r = rj_running → rj_attempts r ≤ 2))).
  - apply (Forall_update_where attempts_ok); [done|..]; unfold attempts_ok.
    + intros k r [Hb Ha] Hp. bools. simpl. split; [|done]. assert (rj_attempts r ≤ 2) by auto. lia.
    + naive_solver.
  - intros k r [Hb Ha] Hp. bools. split; [done|]. simpl. naive_solver.
  - intros k r [Hb Ha] Hp. split; [done|]. intros [Hs|Hs]; [|by auto].
    rewrite bool_decide_eq_true_2 in Hp by done. simpl in Hp. apply Z.ltb_ge in Hp. done.
Qed.

Lemma claim_eligible_attempts fuel now q budget t res t' :
  claimEligibleReviewJob fuel now q budget t = Some (res, t') → attempts_inv t → attempts_inv t'.
Proof.
  revert t. induction fuel as [|fuel IH]; intros t; [done|]. cbn [claimEligibleReviewJob].
  destruct (claim_nextP q now t) as [k r Hk Hp _|_]; [|by intros [= <- <-]]. intros H Ht.
  assert (attempts_ok (claim_set q now r) ∧ attempts_ok (skip_job now (claim_set q now r))) as [Hr Hr'].
  { destruct (Ht k r Hk) as [Hb Ha]. simpl in Hp. bools. unfold attempts_ok. simpl. naive_solver. }
  case_match.
  - rewrite skip_after_claim in H. apply (IH _ H). by apply map_Forall_insert_2.
  - injection H as <- <-. by apply map_Forall_insert_2.
Qed.

(** Retries are bounded: over any history a job's attempt
    counter stays between 0 and 3, and a job that can still be run has at most
    two attempts behind it. *)
Theorem review_attempts_bounded os t : attempts_inv t → attempts_inv (exec_reviews os t).
Proof.
  revert t. induction os as [|o os IH]; intros t Ht; [done|]. apply IH. clear IH os.
  destruct o as [now i|now q budget|now id out|now id]; simpl.
  - unfold enqueueReviewJob, insert_new. destruct (t !! _); simpl; [done|].
    apply (Forall_update_where attempts_ok); [|..]; unfold attempts_ok; simpl; [|naive_solver..].
    apply map_Forall_insert_2; [simpl; lia|done].
  - destruct (claimReviewJob now q budget t) as [[res t']|] eqn:E; [|done].
    eapply claim_eligible_attempts; [exact E|]. by apply prepass_attempts.
  - destruct out as [url v keys|err]; apply Forall_update_row; try done; intros r [Hb Ha] Hp;
      unfold is_running in Hp; bools; assert (rj_attempts r ≤ 2) by auto.
    + split; [done|]. simpl. naive_solver.
    + unfold failed_row. destruct (Z.ltb_spec 2 (rj_attempts r + 1)); split; simpl; try lia.
      intros [?|?]; done.
  - apply Forall_update_row; [done|]. intros r [Hb Ha] Hp. unfold is_running in Hp. bools.
    split; [done|]. simpl. naive_solver.
Qed.
End History.

(** ** Admission and redelivery *)

Section Redelivery.
Context (sha1 : list Z → list Z).
Implicit Types (t : jobs) (r : ReviewJob) (i : ReviewInput).

Definition job_id i : string :=
  reviewJobId sha1 (ri_workspaceId i) (ri_repo i) (ri_prNumber i) (ri_headSha i).
Definition same_pr i r : Prop :=
  rj_workspace_id r = ri_workspaceId i ∧ rj_repo r = ri_repo i ∧ rj_pr_number r = Z.of_N (ri_prNumber i).

(** Admission on both branches.  A head whose id is known -
    a redelivery - changes nothing, so it cannot stand down the survivor.  A
    new head is queued (a minute out for a synchronize) and becomes the only
    queued head of its pull request: every other queued head is superseded, and
    every other row is untouched. *)
Theorem enqueueReviewJob_correct now i t :
  let '(res, t') := enqueueReviewJob sha1 now i t in
  er_id res = job_id i
  ∧ match t !! job_id i with
    | Some _ => res = mkEnqueueReviewJobResult (job_id i) true 0 ∧ t' = t
    | None =>
        er_deduped res = false
        ∧ t' !! job_id i = Some (new_review_job now i)
        ∧ (∀ k r, t' !! k = Some r → rj_state r = rj_queued → same_pr i r →
             rj_head_sha r = ri_headSha i)
        ∧ (∀ k, k ≠ job_id i →
             t' !! k = (λ r, if stale_sibling i r then set_rj_state rj_superseded now r else r) <$> t !! k)
    end.
Proof.
  unfold enqueueReviewJob, insert_new. fold (job_id i).
  destruct (t !! job_id i) as [r|] eqn:Hk; simpl; [done|].
  split; [done|]. split; [done|]. split_and!.
  - rewrite lookup_update_where, lookup_insert_eq. simpl. unfold stale_sibling. simpl.
    by rewrite (bool_decide_eq_true_2 (ri_headSha i = ri_headSha i)), andb_false_r by done.
  - intros k r'. rewrite lookup_update_where. destruct (<[job_id i := _]> t !! k) as [r|]; [|done]. simpl.
    destruct (stale_sibling i r) eqn:Hs; intros [= <-] Hq (Hw & Hr & Hp); [done|].
    apply dec_stable. intros Hne. unfold stale_sibling in Hs.
    rewrite Hw, Hr, Hp, Hq, !(bool_decide_eq_true_2 (_ = _)) in Hs by done.
    by rewrite bool_decide_eq_false_2 in Hs.
  - intros k Hne. by rewrite lookup_update_where, lookup_insert_ne.
Qed.
End Redelivery.

(** ** Two claims at once

    A claim is one statement, but two of them may overlap: both read the table
    as it was when they began, the second skips the row the first has locked
    ([SKIP LOCKED]), and its own row is not changed by the first.  The result
    is both assignments.  [review_jobs] has no unique index on running jobs. *)
Definition overlapping_claims (q1 q2 : ReviewClaim) (now : Z) (t : jobs)
    : option (string * string) * jobs :=
  match claim_next q1 now t with
  | (None, _) => (None, t)
  | (Some (k1, r1), t1) =>
      match oldest claim_order (List.filter (λ kr, kr.1 ≢? k1)
              (select_where (claim_where q2 now t) t)) with
      | None => (None, t1)
      | Some (k2, r2) => (Some (k1, k2), <[k2 := claim_set q2 now r2]> t1)
      end
  end.

Definition sample_job (pr : Z) (head : string) : ReviewJob :=
  mkReviewJob "ws" "acme/a" pr head "opened" rj_queued 0 None None None None None None None 0 0.
Definition two_jobs : jobs := list_to_map [("j1", sample_job 1 "h1"); ("j2", sample_job 2 "h2")].
Definition two_heads : list ChangeHead :=
  [mkChangeHead "ws" "acme/a" 1 true (Some "h1") (Some "j1");
   mkChangeHead "ws" "acme/a" 2 true (Some "h2") (Some "j2")].

(** The bound of one running job per workspace is a property of
    claims that do not overlap: two that do start two jobs of one workspace. *)
Theorem overlapping_claims_exceed_bound :
  let '(res, t) := overlapping_claims (mkReviewClaim "w1" two_heads) (mkReviewClaim "w2" two_heads) 9
                     two_jobs in
  res = Some ("j1", "j2")
  ∧ (rj_state <$> t !! "j1") = Some rj_running ∧ (rj_state <$> t !! "j2") = Some rj_running
  ∧ (rj_workspace_id <$> t !! "j1") = (rj_workspace_id <$> t !! "j2").
Proof. by vm_compute. Qed.

(** ** Applications *)

Lemma two_jobs_one_running : one_running two_jobs.
Proof.
  intros k1 k2 r1 r2 H1 _ S1 _ _. unfold two_jobs in H1.
  apply elem_of_list_to_map_2 in H1. rewrite !elem_of_cons in H1.
  destruct H1 as [H1|[H1|H1]]; [by simplify_eq..|by apply not_elem_of_nil in H1].
Qed.

Definition review_history : list review_op :=
  [ro_claim 9 (mkReviewClaim "w1" two_heads) 5; ro_claim 10 (mkReviewClaim "w2" two_heads) 5].

Lemma one_running_per_workspace_witness : one_running (exec_reviews sample_sha1 review_history two_jobs).
Proof. apply one_running_per_workspace. exact two_jobs_one_running. Defined.

Lemma claimReviewJob_total_witness :
  ∃ k r t', claimReviewJob 9 (mkReviewClaim "w1" two_heads) 5 two_jobs = Some (Some (k, r), t')
    ∧ rj_state r = rj_running.
Proof.
  destruct (claimReviewJob_total 9 (mkReviewClaim "w1" two_heads) 5 two_jobs two_jobs_one_running)
    as ([[k r]|] & t' & H & Hr).
  - exists k, r, t'. split; [exact H|]. by destruct Hr as (_ & Hs & _).
  - exfalso. apply (f_equal (λ x, fst <$> x)) in H. by vm_compute in H.
Defined.

Lemma terminal_jobs_final_witness :
  exec_reviews sample_sha1 [ro_release 5 "j"; ro_complete 6 "j" (outcome_failed None)]
    {[ "j" := set_rj_state rj_posted 3 (sample_job 1 "h1") ]} !! "j"
  = Some (set_rj_state rj_posted 3 (sample_job 1 "h1")).
Proof. apply terminal_jobs_final; [apply lookup_singleton_eq|by left]. Defined.

Lemma review_attempts_bounded_witness :
  attempts_inv (exec_reviews sample_sha1 review_history {[ "j1" := sample_job 1 "h1" ]}).
Proof.
  apply review_attempts_bounded. apply map_Forall_singleton. split; [simpl; lia|]. simpl. lia.
Defined.
