(* ===== verification/DeviceAuth.v ===== *)
(** * DeviceAuth: runner tokens and the device-authorization flow

    [queries/runner.ts], first part: minting an API key, starting a device
    code, approving it, and exchanging it for the runner token exactly once. *)

From S2P Require Import Prelude Table Regex Intake.
From Stdlib Require Import Ascii.
From Stdlib Require String.
Open Scope Z_scope.

Inductive ApiKeyKind := self_hosted | fleet | agent_mcp.
#[export] Instance ApiKeyKind_eq_dec : EqDecision ApiKeyKind.
Proof. solve_decision. Defined.

Record ApiKey := mkApiKey {
  ak_workspace_id : string;
  ak_team_id : option string;
  ak_name : string;
  ak_key_prefix : string;
  ak_key_hash : string;
  ak_kind : ApiKeyKind;
  ak_last_used_at : option Z;
  ak_revoked_at : option Z;
}.

Record DeviceCode := mkDeviceCode {
  dc_device_code : string;
  dc_user_code : string;
  dc_workspace_id : option string;
  dc_api_key_id : option string;
  dc_approved : bool;
  dc_consumed_at : option Z;
  dc_expires_at : Z;
}.

Record AuthDb := mkAuthDb {
  api_keys : gmap string ApiKey;
  device_codes : gmap string DeviceCode;
}.
Definition with_codes (t : gmap string DeviceCode) (d : AuthDb) : AuthDb := mkAuthDb (api_keys d) t.
Definition with_keys (t : gmap string ApiKey) (d : AuthDb) : AuthDb := mkAuthDb t (device_codes d).

(** ** The keys of the runners ([queries/index.ts]) *)

Definition set_revoked (now : Z) (r : ApiKey) : ApiKey :=
  mkApiKey (ak_workspace_id r) (ak_team_id r) (ak_name r) (ak_key_prefix r) (ak_key_hash r) (ak_kind r)
    (ak_last_used_at r) (Some now).
Definition set_last_used (now : Z) (r : ApiKey) : ApiKey :=
  mkApiKey (ak_workspace_id r) (ak_team_id r) (ak_name r) (ak_key_prefix r) (ak_key_hash r) (ak_kind r)
    (Some now) (ak_revoked_at r).

Definition revokeApiKey (now : Z) (workspaceId keyId : string) (d : AuthDb) : option ApiKey * AuthDb :=
  let '(row, t) := update_row keyId (λ r, (ak_workspace_id r ≡? workspaceId) && is_null (ak_revoked_at r))
                     (set_revoked now) (api_keys d) in
  (row, with_keys t d).
Definition touchApiKeyLastUsed (now : Z) (keyId : string) (d : AuthDb) : AuthDb :=
  with_keys (update_row keyId (λ _, true) (set_last_used now) (api_keys d)).2 d.
Definition lookupApiKeyByHash (keyHash : string) (d : AuthDb) : option (string * ApiKey) :=
  head (select_where (λ _ r, (ak_key_hash r ≡? keyHash) && is_null (ak_revoked_at r)) (api_keys d)).

(** [windowMs] is one hour by default; [now] is [Date.now()]. *)
Definition RUNNER_WINDOW : Z := milliseconds (60 * 60 * 1000).
Definition used_since (since : Z) (r : ApiKey) : bool :=
  match ak_last_used_at r with Some t => since <=? t | None => false end.
Definition hasActiveRunner (now : Z) (workspaceId : string) (d : AuthDb) : bool :=
  bool_decide (select_where (λ _ r, (ak_workspace_id r ≡? workspaceId) && is_null (ak_revoked_at r)
                               && used_since (now - RUNNER_WINDOW) r) (api_keys d) ≠ []).
Definition live_self_hosted (now : Z) (workspaceId : string) (_ : string) (r : ApiKey) : bool :=
  (ak_workspace_id r ≡? workspaceId) && (ak_kind r ≡? self_hosted) && is_null (ak_revoked_at r)
  && used_since (now - RUNNER_WINDOW) r.
Definition hasActiveSelfHostedRunner (now : Z) (workspaceId : string) (d : AuthDb) : bool :=
  bool_decide (select_where (live_self_hosted now workspaceId) (api_keys d) ≠ []).

(** The unique constraints an insert into [api_keys] meets: the id, the hash,
    and one live fleet key per workspace. *)
Definition key_conflict (id : string) (k : ApiKey) (id' : string) (r : ApiKey) : bool :=
  (id' ≡? id) || (ak_key_hash r ≡? ak_key_hash k)
  || ((ak_kind k ≡? fleet) && (ak_kind r ≡? fleet) && is_null (ak_revoked_at k)
      && is_null (ak_revoked_at r) && (ak_workspace_id r ≡? ak_workspace_id k)).

Record MintInput := mkMintInput {
  mi_workspaceId : string;
  mi_teamId : option string;
  mi_name : string;
  mi_kind : option ApiKeyKind;
}.

Section Auth.
(** [createHash("sha256")...digest("hex")] *)
Variable sha256 : string → string.

(** [raw] is the hex of the thirty-two random bytes, [id] the generated row
    id; [None] is the unique violation. *)
Definition mintApiKey (id raw : string) (data : MintInput) (d : AuthDb)
    : option (string * string * string) * AuthDb :=
  let rawKey := "ar_" +:+ raw in
  let keyPrefix := "ar_" +:+ slice_to 8 raw in
  let row := mkApiKey (mi_workspaceId data) (mi_teamId data) (mi_name data) keyPrefix (sha256 rawKey)
               (default self_hosted (mi_kind data)) None None in
  match select_where (key_conflict id row) (api_keys d) with
  | [] => (Some (id, rawKey, keyPrefix), with_keys (<[id := row]> (api_keys d)) d)
  | _ => (None, d)
  end.

(** [requireBearer] with the kinds a route admits; the failures are HTTP
    statuses. *)
Record BearerAuthResult := mkBearerAuthResult {
  br_apiKeyId : string;
  br_workspaceId : string;
  br_teamId : option string;
  br_kind : ApiKeyKind;
}.
Definition DEFAULT_BEARER_KINDS : list ApiKeyKind := [self_hosted; fleet].
Definition requireBearer (authorization : option string) (allowedKinds : list ApiKeyKind) (d : AuthDb)
    : BearerAuthResult + Z :=
  match authorization with
  | None => inr 401
  | Some authHeader =>
      if negb (starts_with "Bearer " authHeader) then inr 401 else
      match trim (slice_from 7 authHeader) with
      | EmptyString => inr 401
      | rawKey =>
          match lookupApiKeyByHash (sha256 rawKey) d with
          | None => inr 401
          | Some (id, row) =>
              if negb (bool_decide (ak_kind row ∈ allowedKinds)) then inr 403
              else inl (mkBearerAuthResult id (ak_workspace_id row) (ak_team_id row) (ak_kind row))
          end
      end
  end.

Definition DEVICE_CODE_TTL : Z := milliseconds (15 * 60 * 1000).
Definition USER_CODE_ALPHABET : string := "BCDFGHJKLMNPQRSTVWXZ0123456789".

(** [USER_CODE_ALPHABET[byte % length]] *)
Definition pick (b : Z) : ascii :=
  default "B"%char (String.get (Z.to_nat (b mod 30)) USER_CODE_ALPHABET).
Definition block (bs : list Z) : string := String.string_of_list_ascii (pick <$> bs).
(** From eight random bytes. *)
Definition generateUserCode (bs : list Z) : string := block (take 4 bs) +:+ "-" +:+ block (drop 4 bs).

Definition code_conflict (id deviceCode userCode : string) (id' : string) (r : DeviceCode) : bool :=
  (id' ≡? id) || (dc_device_code r ≡? deviceCode) || (dc_user_code r ≡? userCode).

(** [draws] are the random bytes of the attempts; [None] is the exception of
    the last one.  The source makes five attempts. *)
Fixpoint start_attempts (id deviceCode : string) (expiresAt : Z) (draws : list (list Z)) (d : AuthDb)
    : option string * AuthDb :=
  match draws with
  | [] => (None, d)
  | bs :: draws' =>
      let userCode := generateUserCode bs in
      match select_where (code_conflict id deviceCode userCode) (device_codes d) with
      | [] =>
          (Some userCode, with_codes (<[id := mkDeviceCode deviceCode userCode None None false None expiresAt]>
                                        (device_codes d)) d)
      | _ => start_attempts id deviceCode expiresAt draws' d
      end
  end.
Definition startDeviceCode (now : Z) (id deviceCode : string) (draws : list (list Z)) (d : AuthDb)
    : option (string * string * Z) * AuthDb :=
  let expiresAt := now + DEVICE_CODE_TTL in
  let '(userCode, d') := start_attempts id deviceCode expiresAt (take 5 draws) d in
  ((λ u, (deviceCode, u, expiresAt)) <$> userCode, d').

Inductive DeviceTokenResult :=
  | dt_pending | dt_expired | dt_denied
  | dt_approved (token workspaceId : string).

(** The first query of [exchangeDeviceCode] and what it decides: an answer, or
    a row to claim for a workspace. *)
Definition exchange_read (now : Z) (deviceCode : string) (t : gmap string DeviceCode)
    : DeviceTokenResult + (string * string) :=
  match head (select_where (λ _ r, dc_device_code r ≡? deviceCode) t) with
  | None => inl dt_denied
  | Some (id, row) =>
      if negb (is_null (dc_consumed_at row)) then inl dt_denied else
      if negb (dc_approved row) then
        inl (if dc_expires_at row <=? now then dt_expired else dt_pending)
      else
        match dc_workspace_id row with
        | None | Some EmptyString => inl dt_denied
        | Some ws => inr (id, ws)
        end
  end.

Definition set_consumed (now : Z) (r : DeviceCode) : DeviceCode :=
  mkDeviceCode (dc_device_code r) (dc_user_code r) (dc_workspace_id r) (dc_api_key_id r)
    (dc_approved r) (Some now) (dc_expires_at r).
Definition set_api_key (k : string) (r : DeviceCode) : DeviceCode :=
  mkDeviceCode (dc_device_code r) (dc_user_code r) (dc_workspace_id r) (Some k)
    (dc_approved r) (dc_consumed_at r) (dc_expires_at r).
Definition set_approved (ws : string) (r : DeviceCode) : DeviceCode :=
  mkDeviceCode (dc_device_code r) (dc_user_code r) (Some ws) (dc_api_key_id r)
    true (dc_consumed_at r) (dc_expires_at r).

(** The conditional update that claims the row. *)
Definition exchange_claim (now : Z) (id : string) (t : gmap string DeviceCode)
    : option DeviceCode * gmap string DeviceCode :=
  update_row id (λ r, is_null (dc_consumed_at r)) (set_consumed now) t.

(** From the claim on; [None] is the exception of the mint. *)
Definition exchange_finish (now : Z) (keyId raw id ws : string) (d : AuthDb)
    : option DeviceTokenResult * AuthDb :=
  match exchange_claim now id (device_codes d) with
  | (None, _) => (Some dt_denied, d)
  | (Some _, t) =>
      match mintApiKey keyId raw (mkMintInput ws None "Self-hosted runner" None) (with_codes t d) with
      | (None, d2) => (None, d2)
      | (Some (kid, rawKey, _), d2) =>
          (Some (dt_approved rawKey ws),
           with_codes (update_row id (λ _, true) (set_api_key kid) (device_codes d2)).2 d2)
      end
  end.

Definition exchangeDeviceCode (now : Z) (keyId raw deviceCode : string) (d : AuthDb)
    : option DeviceTokenResult * AuthDb :=
  match exchange_read now deviceCode (device_codes d) with
  | inl r => (Some r, d)
  | inr (id, ws) => exchange_finish now keyId raw id ws d
  end.

Inductive ApproveDeviceCodeResult := ap_ok | ap_not_found | ap_expired | ap_already.

Definition upper_char (c : ascii) : ascii :=
  if char_in "a" "z" c then ascii_of_nat (nat_of_ascii c - 32) else c.
Definition upper (s : string) : string :=
  String.string_of_list_ascii (upper_char <$> String.list_ascii_of_string s).

Definition approveDeviceCode (now : Z) (userCode workspaceId : string) (t : gmap string DeviceCode)
    : ApproveDeviceCodeResult * gmap string DeviceCode :=
  let normalized := upper (trim userCode) in
  match head (select_where (λ _ r, dc_user_code r ≡? normalized) t) with
  | None => (ap_not_found, t)
  | Some (id, row) =>
      if negb (is_null (dc_consumed_at row)) || dc_approved row then (ap_already, t) else
      if dc_expires_at row <=? now then (ap_expired, t) else
      (ap_ok, (update_row id (λ _, true) (set_approved workspaceId) t).2)
  end.
End Auth.

(** ** Single use *)

Section SingleUse.
Context (sha256 : string → string).
Implicit Types (d : AuthDb) (t : gmap string DeviceCode) (id : string) (now : Z).

(** The statements of any number of polling runners and approving operators,
    in the order they reach the database.  [io_finish] is a poll that has read
    row [id] earlier, whenever that was. *)
Inductive auth_op :=
  | io_start (now : Z) (id deviceCode : string) (draws : list (list Z))
  | io_approve (now : Z) (userCode workspaceId : string)
  | io_finish (now : Z) (keyId raw id ws : string).

(** The rows whose token was handed out, in order. *)
Fixpoint handed_out (os : list auth_op) d : list string :=
  match os with
  | [] => []
  | io_start now id dc draws :: os' => handed_out os' (startDeviceCode now id dc draws d).2
  | io_approve now u ws :: os' =>
      handed_out os' (with_codes (approveDeviceCode now u ws (device_codes d)).2 d)
  | io_finish now keyId raw id ws :: os' =>
      let '(res, d') := exchange_finish sha256 now keyId raw id ws d in
      match res with
      | Some (dt_approved _ _) => id :: handed_out os' d'
      | _ => handed_out os' d'
      end
  end.

Definition consumed_row id t : Prop := ∃ r, t !! id = Some r ∧ dc_consumed_at r ≠ None.

Lemma consumed_update_row id k p f t :
  (∀ r, dc_consumed_at r ≠ None → dc_consumed_at (f r) ≠ None) →
  consumed_row id t → consumed_row id (update_row k p f t).2.
Proof.
  intros Hf (r & Hk & Hc). destruct (update_rowP p f k t) as [r' Hk' _|_]; simpl; [|by exists r].
  destruct (decide (k = id)) as [->|Hne]; [|by exists r; rewrite lookup_insert_ne].
  rewrite Hk in Hk'. simplify_eq. exists (f r'). rewrite lookup_insert_eq. auto.
Qed.

Lemma consumed_start id now i dc draws d :
  consumed_row id (device_codes d) → consumed_row id (device_codes (startDeviceCode now i dc draws d).2).
Proof.
  intros (r & Hk & Hc). unfold startDeviceCode.
  destruct (start_attempts i dc _ (take 5 draws) d) as [u d'] eqn:E. simpl.
  revert E. induction (take 5 draws) as [|bs l IH]; simpl; [by intros [= <- <-]; exists r|].
  destruct (select_where _ _) as [|kr l0] eqn:Hsel; [|done]. intros [= <- <-]. simpl.
  exists r. rewrite lookup_insert_ne; [done|]. intros ->.
  assert (Hin : (id, r) ∈ select_where (code_conflict id dc (generateUserCode bs)) (device_codes d)).
  { apply elem_of_select_where. split; [done|]. unfold code_conflict.
    by rewrite bool_decide_eq_true_2. }
  rewrite Hsel in Hin. by apply not_elem_of_nil in Hin.
Qed.

Lemma consumed_approve id now u ws t :
  consumed_row id t → consumed_row id (approveDeviceCode now u ws t).2.
Proof.
  intros Hc. unfold approveDeviceCode. destruct (head _) as [[k row]|]; [|done].
  destruct (_ || _); [done|]. destruct (_ <=? _); [done|]. by apply consumed_update_row.
Qed.

Lemma mint_codes id raw data d : device_codes (mintApiKey sha256 id raw data d).2 = device_codes d.
Proof. unfold mintApiKey. by destruct (select_where _ _). Qed.

Inductive finish_spec (id : string) d : option DeviceTokenResult * AuthDb → Prop :=
  | fin_denied : (∀ r, device_codes d !! id = Some r → dc_consumed_at r ≠ None) →
      finish_spec id d (Some dt_denied, d)
  | fin_claimed res d' :
      (∀ r, device_codes d !! id = Some r → dc_consumed_at r = None) →
      consumed_row id (device_codes d') →
      (∀ id', consumed_row id' (device_codes d) → consumed_row id' (device_codes d')) →
      finish_spec id d (res, d').

Lemma exchange_finishP now keyId raw id ws d :
  finish_spec id d (exchange_finish sha256 now keyId raw id ws d).
Proof.
  unfold exchange_finish, exchange_claim.
  destruct (update_rowP (λ r, is_null (dc_consumed_at r)) (set_consumed now) id (device_codes d))
    as [r Hk Hp|Hno]; [|apply fin_denied; intros r Hr; specialize (Hno r Hr); by destruct (dc_consumed_at r)].
  set (d1 := with_codes (<[id := set_consumed now r]> (device_codes d)) d).
  assert (Hc1 : ∀ id', (id' = id ∨ consumed_row id' (device_codes d)) → consumed_row id' (device_codes d1)).
  { intros id' Hid'. unfold d1. simpl. destruct (decide (id = id')) as [<-|Hne].
    - eexists. rewrite lookup_insert_eq. split; [done|]. done.
    - destruct Hid' as [->|(r' & Hr' & Hc')]; [done|]. exists r'. by rewrite lookup_insert_ne. }
  assert (Hm := mint_codes keyId raw (mkMintInput ws None "Self-hosted runner" None) d1).
  destruct (mintApiKey sha256 keyId raw _ d1) as [[[[kid rk] pf]|] d2]; simpl in Hm; simpl;
    apply fin_claimed; simpl; try (intros r' Hr'; simplify_eq; by destruct (dc_consumed_at r));
    try intros id' Hid'; rewrite ?Hm; try (apply consumed_update_row; [done|]);
    rewrite ?Hm; apply Hc1; auto.
Qed.

Lemma handed_out_consumed os d id : consumed_row id (device_codes d) → id ∉ handed_out os d.
Proof.
  revert d. induction os as [|o os IH]; intros d Hc; [by apply not_elem_of_nil|].
  destruct o as [now i dc draws|now u ws|now keyId raw i ws]; simpl.
  - by apply IH, consumed_start.
  - by apply IH, consumed_approve.
  - destruct (exchange_finishP now keyId raw i ws d) as [Hno|res d' Hn Hi Hm]; [by apply IH|].
    assert (id ∉ handed_out os d') as Hrest by by apply IH, Hm.
    assert (id ≠ i) as Hne. { intros ->. destruct Hc as (r & Hk & Hc). by apply Hc, Hn. }
    destruct res as [[| | |tok w]|]; try done. by apply not_elem_of_cons.
Qed.

(** A device code buys one token.  However many runners poll
    with it and however their statements interleave - with each other, with
    approvals and with new codes - no row's token is handed out twice. *)
Theorem device_code_single_use os d : NoDup (handed_out os d).
Proof.
  revert d. induction os as [|o os IH]; intros d; [constructor|].
  destruct o as [now i dc draws|now u ws|now keyId raw i ws]; simpl; [apply IH..|].
  destruct (exchange_finishP now keyId raw i ws d) as [Hno|res d' Hn Hi Hm]; [apply IH|].
  destruct res as [[| | |tok w]|]; try apply IH. constructor; [|apply IH].
  by apply handed_out_consumed.
Qed.
End SingleUse.

(** ** The flow from start to token *)

(** What survives being typed in lower case. *)
Definition typable (c : ascii) : Prop := upper_char (lower_char c) = c ∧ is_space (lower_char c) = false.

Lemma pick_typable b : typable (pick b).
Proof.
  unfold pick, typable. assert (0 ≤ b mod 30 < 30) as Hb by (apply Z.mod_pos_bound; lia).
  revert Hb. generalize (b mod 30). intros m Hm.
  assert (forallb (λ m, Ascii.eqb (upper_char (lower_char (default "B"%char
            (String.get (Z.to_nat m) USER_CODE_ALPHABET))))
            (default "B"%char (String.get (Z.to_nat m) USER_CODE_ALPHABET))
          && negb (is_space (lower_char (default "B"%char
            (String.get (Z.to_nat m) USER_CODE_ALPHABET))))) (seqZ 0 30) = true) as H by by vm_compute.
  rewrite forallb_forall in H. specialize (H m). rewrite <- list_elem_of_In, elem_of_seqZ in H.
  specialize (H ltac:(lia)). bools. split; [by apply Ascii.eqb_eq|done].
Qed.

Lemma drop_space_none l : Forall (λ c, is_space c = false) l → drop_space l = l.
Proof. destruct 1 as [|c l Hc _]; [done|]. simpl. by rewrite Hc. Qed.

Lemma typed_lower_case l :
  Forall typable l →
  upper (trim (lower (String.string_of_list_ascii l))) = String.string_of_list_ascii l.
Proof.
  intros Hl. unfold lower, trim, upper. rewrite !String.list_ascii_of_string_of_list_ascii.
  assert (Hs : Forall (λ c, is_space c = false) (lower_char <$> l)).
  { apply Forall_fmap. eapply Forall_impl; [exact Hl|]. by intros c [_ ?]. }
  rewrite (drop_space_none (lower_char <$> l) Hs).
  rewrite drop_space_none by by apply Forall_rev. rewrite rev_involutive. f_equal.
  clear Hs. induction Hl as [|c l [Hc _] _ IH]; [done|]. rewrite !fmap_cons. by rewrite Hc, IH.
Qed.

Lemma user_code_typed bs : upper (trim (lower (generateUserCode bs))) = generateUserCode bs.
Proof.
  assert (generateUserCode bs
    = String.string_of_list_ascii ((pick <$> take 4 bs) ++ "-"%char :: (pick <$> drop 4 bs))) as ->.
  { unfold generateUserCode, block. generalize (pick <$> take 4 bs) (pick <$> drop 4 bs). intros l1 l2.
    induction l1 as [|c l1 IH]; [done|]. simpl. by rewrite <- IH. }
  apply typed_lower_case, Forall_app. split; [|constructor; [done|]];
    apply Forall_fmap, Forall_true; intros b; apply pick_typable.
Qed.

(** Only row [id] passes a test. *)
Lemma head_select_unique {A} p (t : gmap string A) id r :
  t !! id = Some r → p id r = true → (∀ k r', t !! k = Some r' → p k r' = true → k = id) →
  head (select_where p t) = Some (id, r).
Proof.
  intros Hk Hp Hu.
  assert (Hin : (id, r) ∈ select_where p t) by by apply elem_of_select_where.
  destruct (select_where p t) as [|[k r'] l] eqn:E; [by apply not_elem_of_nil in Hin|]. simpl.
  assert ((k, r') ∈ select_where p t) as [Hk' Hp']%elem_of_select_where by (rewrite E; by left).
  assert (k = id) as -> by by apply (Hu k r'). congruence.
Qed.

Section Flow.
Context (sha256 : string → string).
Implicit Types (d : AuthDb) (t : gmap string DeviceCode).

Lemma start_attempts_row id dc exp draws d u d1 :
  start_attempts id dc exp draws d = (Some u, d1) →
  (∃ bs, u = generateUserCode bs) ∧ api_keys d1 = api_keys d
  ∧ device_codes d1 = <[id := mkDeviceCode dc u None None false None exp]> (device_codes d)
  ∧ (∀ k r, device_codes d !! k = Some r → k ≠ id ∧ dc_device_code r ≠ dc ∧ dc_user_code r ≠ u).
Proof.
  induction draws as [|bs draws IH]; [done|]. simpl.
  destruct (select_where _ _) as [|x l] eqn:E; [|done]. intros [= <- <-].
  split_and!; [by eexists|done|done|]. intros k r Hk.
  assert (code_conflict id dc (generateUserCode bs) k r = false) as Hc.
  { destruct (code_conflict _ _ _ k r) eqn:Hc; [|done].
    assert ((k, r) ∈ select_where (code_conflict id dc (generateUserCode bs)) (device_codes d)) as Hin
      by by apply elem_of_select_where. rewrite E in Hin. by apply not_elem_of_nil in Hin. }
  unfold code_conflict in Hc. by bools.
Qed.

(** The whole flow: a code that was started can be approved
    before it expires by typing what was shown, in lower case if one likes;
    the next poll then returns a token for the approving workspace, whose hash
    is now a live key of that workspace; and any poll after it is denied. *)
Theorem device_flow now0 now1 now2 now3 id keyId keyId' raw raw' dc draws d u exp d1 ws :
  startDeviceCode now0 id dc draws d = (Some (dc, u, exp), d1) →
  now1 < exp → ws ≠ EmptyString →
  (∀ k r, api_keys d !! k = Some r → k ≠ keyId ∧ ak_key_hash r ≠ sha256 ("ar_" +:+ raw)) →
  exists t2 d3, approveDeviceCode now1 (lower u) ws (device_codes d1) = (ap_ok, t2)
  ∧ exchangeDeviceCode sha256 now2 keyId raw dc (with_codes t2 d1)
    = (Some (dt_approved ("ar_" +:+ raw) ws), d3)
  ∧ (∃ k, api_keys d3 !! keyId = Some k ∧ ak_workspace_id k = ws
       ∧ ak_key_hash k = sha256 ("ar_" +:+ raw) ∧ ak_revoked_at k = None)
  ∧ exchangeDeviceCode sha256 now3 keyId' raw' dc d3 = (Some dt_denied, d3).
Proof.
  unfold startDeviceCode. destruct (start_attempts _ _ _ _ _) as [u' d'] eqn:Hs.
  destruct u' as [u'|]; [|done]. simpl. intros [= -> <- <-] Hexp Hws Hkey.
  apply start_attempts_row in Hs as ([bs Hu] & Hkeys & Hcodes & Hfresh).
  set (row := mkDeviceCode dc u None None false None (now0 + DEVICE_CODE_TTL)) in *.
  assert (Huser : head (select_where (λ _ r, dc_user_code r ≡? u) (device_codes d')) = Some (id, row)).
  { rewrite Hcodes. apply head_select_unique; [apply lookup_insert_eq|by apply bool_decide_eq_true_2|].
    intros k r. destruct (decide (k = id)); [done|]. rewrite lookup_insert_ne by done.
    intros Hk Hp. bools. by destruct (Hfresh k r Hk) as (_ & _ & ?). }
  set (t2 := <[id := set_approved ws row]> (device_codes d)).
  assert (Hdev : ∀ row', dc_device_code row' = dc →
    head (select_where (λ _ r, dc_device_code r ≡? dc) (<[id := row']> (device_codes d))) = Some (id, row')).
  { intros row' Hrow'.
    apply head_select_unique; [apply lookup_insert_eq|by apply bool_decide_eq_true_2|].
    intros k r. destruct (decide (k = id)); [done|]. rewrite lookup_insert_ne by done.
    intros Hk Hp. bools. by destruct (Hfresh k r Hk) as (_ & ? & _). }
  exists t2. eexists. split_and!.
  - unfold approveDeviceCode. rewrite Hu, user_code_typed, <- Hu, Huser. simpl.
    rewrite (proj2 (Z.leb_gt _ _)) by done. f_equal.
    unfold update_row, t2. by rewrite Hcodes, lookup_insert_eq, insert_insert_eq.
  - unfold exchangeDeviceCode, exchange_read, t2. simpl. rewrite (Hdev (set_approved ws row)) by done.
    simpl. destruct ws as [|c ws]; [done|].
    unfold exchange_finish, exchange_claim, update_row. simpl. rewrite lookup_insert_eq. simpl.
    unfold mintApiKey. simpl. rewrite Hkeys.
    destruct (select_where _ (api_keys d)) as [|[k r] l] eqn:Hsel; [done|]. exfalso.
    assert ((k, r) ∈ (k, r) :: l) as Hin by by left. rewrite <- Hsel in Hin.
    apply elem_of_select_where in Hin as [Hk Hp]. destruct (Hkey k r Hk).
    unfold key_conflict in Hp. simpl in Hp. rewrite !bool_decide_eq_false_2 in Hp by done. done.
  - simpl. rewrite lookup_insert_eq. by eexists.
  - unfold exchangeDeviceCode, exchange_read. simpl. rewrite !insert_insert_eq.
    unfold update_row. rewrite lookup_insert_eq. simpl. rewrite insert_insert_eq, Hdev by done. done.
Qed.
End Flow.

(** ** Applications *)

Definition empty_auth : AuthDb := mkAuthDb ∅ ∅.
Definition sample_draws : list (list Z) := [[1; 2; 3; 4; 5; 6; 7; 255]].

Lemma device_flow_witness :
  ∃ t2 d3, approveDeviceCode 10 (lower "CDFG-HJKT") "ws"
      (device_codes (startDeviceCode 0 "row" "dev" sample_draws empty_auth).2) = (ap_ok, t2)
    ∧ (exchangeDeviceCode sample_sha256 11 "key" "00ff" "dev" (with_codes t2
        (startDeviceCode 0 "row" "dev" sample_draws empty_auth).2))
      = (Some (dt_approved "ar_00ff" "ws"), d3).
Proof.
  destruct (device_flow sample_sha256 0 10 11 12 "row" "key" "key2" "00ff" "11aa" "dev" sample_draws
    empty_auth "CDFG-HJKT" DEVICE_CODE_TTL (startDeviceCode 0 "row" "dev" sample_draws empty_auth).2 "ws")
    as (t2 & d3 & H1 & H2 & _).
  - by vm_compute.
  - done.
  - done.
  - intros k r H. by vm_compute in H.
  - exists t2, d3. split; [exact H1|exact H2].
Defined.
