(* ===== verification/PreviewBoots.v ===== *)
(** * PreviewBoots: the boot plane's single-attempt queue

    [queries/preview_boots.ts]: admission of a boot request with its supersede,
    the two expiry sweeps, the claim, the worker's guarded status reports and
    the boot-log key. *)

From S2P Require Import Prelude Table Intake.
Open Scope Z_scope.

Inductive BootStatus := pb_pending | pb_claimed | pb_booting | pb_ready | pb_failed | pb_torn_down.
#[export] Instance BootStatus_eq_dec : EqDecision BootStatus.
Proof. solve_decision. Defined.

Record PreviewBoot := mkPreviewBoot {
  pb_workspace_id : string;
  pb_repo : string;
  pb_pr_number : Z;
  pb_head_sha : string;
  pb_ref : string;
  pb_status : BootStatus;
  pb_worker_id : option string;
  pb_claimed_at : option Z;
  pb_url : option string;
  pb_port : option Z;
  pb_boot_log_key : option string;
  pb_reason : option string;
  pb_attempts : Z;
  pb_expires_at : option Z;
  pb_last_liveness_at : option Z;
  pb_next_eligible_at : option Z;
  pb_created_at : Z;
  pb_updated_at : Z;
}.

Notation boots := (gmap string PreviewBoot).

(** The assignments the statements make; each ends with [updated_at = now()]. *)
Definition set_pb_end (s : BootStatus) (reason : option string) (now : Z) (r : PreviewBoot) : PreviewBoot :=
  mkPreviewBoot (pb_workspace_id r) (pb_repo r) (pb_pr_number r) (pb_head_sha r) (pb_ref r) s
    (pb_worker_id r) (pb_claimed_at r) (pb_url r) (pb_port r) (pb_boot_log_key r) reason
    (pb_attempts r) (pb_expires_at r) (pb_last_liveness_at r) (pb_next_eligible_at r)
    (pb_created_at r) now.
Definition set_pb_live (s : BootStatus) (url : option string) (port : option Z) (now : Z)
    (r : PreviewBoot) : PreviewBoot :=
  mkPreviewBoot (pb_workspace_id r) (pb_repo r) (pb_pr_number r) (pb_head_sha r) (pb_ref r) s
    (pb_worker_id r) (pb_claimed_at r) url port (pb_boot_log_key r) (pb_reason r)
    (pb_attempts r) (pb_expires_at r) (Some now) (pb_next_eligible_at r) (pb_created_at r) now.
Definition set_pb_claim (worker : string) (expires now : Z) (r : PreviewBoot) : PreviewBoot :=
  mkPreviewBoot (pb_workspace_id r) (pb_repo r) (pb_pr_number r) (pb_head_sha r) (pb_ref r) pb_claimed
    (Some worker) (Some now) (pb_url r) (pb_port r) (pb_boot_log_key r) (pb_reason r)
    (pb_attempts r) (Some expires) (Some now) (pb_next_eligible_at r) (pb_created_at r) now.
Definition set_pb_log_key (key : string) (now : Z) (r : PreviewBoot) : PreviewBoot :=
  mkPreviewBoot (pb_workspace_id r) (pb_repo r) (pb_pr_number r) (pb_head_sha r) (pb_ref r)
    (pb_status r) (pb_worker_id r) (pb_claimed_at r) (pb_url r) (pb_port r) (Some key) (pb_reason r)
    (pb_attempts r) (pb_expires_at r) (pb_last_liveness_at r) (pb_next_eligible_at r)
    (pb_created_at r) now.

(** ** Admission *)

Definition previewBootId (sha1 : list Z → list Z) (workspaceId repo : string) (prNumber : N)
    (headSha : string) (cycleId : option string) : string :=
  let tail := workspaceId +:+ ":" +:+ repo +:+ ":" +:+ show_N prNumber +:+ ":" +:+ headSha in
  match cycleId with
  | None | Some EmptyString => uuid5Url sha1 ("preview-boot:" +:+ tail)
  | Some c => uuid5Url sha1 ("preview-boot-cycle:" +:+ tail +:+ ":" +:+ c)
  end.

Record BootInput := mkBootInput {
  bi_workspaceId : string;
  bi_repo : string;
  bi_prNumber : N;
  bi_headSha : string;
  bi_ref : string;
}.

Record EnqueuePreviewBootResult := mkEnqueuePreviewBootResult {
  eb_id : string;
  eb_deduped : bool;
  eb_superseded : nat;
}.

Definition new_boot (now : Z) (i : BootInput) : PreviewBoot :=
  mkPreviewBoot (bi_workspaceId i) (bi_repo i) (Z.of_N (bi_prNumber i)) (bi_headSha i) (bi_ref i)
    pb_pending None None None None None None 0 None None None now now.

(** [status IN ('pending', 'claimed', 'booting', 'ready')] *)
Definition in_flight (r : PreviewBoot) : bool :=
  bool_decide (pb_status r ∈ [pb_pending; pb_claimed; pb_booting; pb_ready]).
(** [status IN ('claimed', 'booting', 'ready')] *)
Definition supervised (r : PreviewBoot) : bool :=
  bool_decide (pb_status r ∈ [pb_claimed; pb_booting; pb_ready]).

Definition same_pull (i : BootInput) (r : PreviewBoot) : bool :=
  (pb_workspace_id r ≡? bi_workspaceId i) && (pb_repo r ≡? bi_repo i)
  && (pb_pr_number r ≡? Z.of_N (bi_prNumber i)).

(** The rows the supersede tears down. *)
Definition obsolete (i : BootInput) (r : PreviewBoot) : bool :=
  same_pull i r && (pb_head_sha r ≢? bi_headSha i) && in_flight r.

Definition enqueuePreviewBoot (sha1 : list Z → list Z) (now : Z) (i : BootInput) (t : boots)
    : EnqueuePreviewBootResult * boots :=
  let id := previewBootId sha1 (bi_workspaceId i) (bi_repo i) (bi_prNumber i) (bi_headSha i) None in
  let '(fresh, t1) := insert_new id (new_boot now i) t in
  if negb fresh then (mkEnqueuePreviewBootResult id true 0, t1) else
  (mkEnqueuePreviewBootResult id false (count_where (λ _, obsolete i) t1),
   update_where (λ _, obsolete i) (set_pb_end pb_torn_down (Some "superseded") now) t1).

(** ** Expiry and claim *)

Definition STALE_SECONDS : Z := 180.
Definition PENDING_STALE_SECONDS : Z := 600.

Definition gone_dark (now : Z) (r : PreviewBoot) : bool :=
  supervised r && sql_lt (pb_last_liveness_at r) (now - seconds STALE_SECONDS).
Definition never_claimed (now : Z) (r : PreviewBoot) : bool :=
  (pb_status r ≡? pb_pending) && (pb_created_at r <? now - seconds PENDING_STALE_SECONDS).

Definition expireStalePreviewBoots (now : Z) (t : boots) : boots :=
  update_where (λ _, never_claimed now) (set_pb_end pb_failed (Some "never_claimed") now)
    (update_where (λ _, gone_dark now) (set_pb_end pb_failed (Some "stale") now) t).

Record BootClaim := mkBootClaim { bc_workerId : string; bc_ttlSeconds : Z }.

#[export] Instance boot_claimable : Claimable BootClaim PreviewBoot := {
  claim_where _ now _ _ r :=
    (pb_status r ≡? pb_pending)
    && (is_null (pb_next_eligible_at r)
        || match pb_next_eligible_at r with Some n => n <=? now | None => false end);
  claim_order := pb_created_at;
  claim_set q now := set_pb_claim (bc_workerId q) (now + seconds (bc_ttlSeconds q)) now;
}.
#[export] Instance boot_claimable_laws : ClaimableLaws BootClaim PreviewBoot.
Proof. done. Qed.

Definition claimPreviewBoot (now : Z) (q : BootClaim) (t : boots)
    : option (string * PreviewBoot) * boots :=
  claim_next q now (expireStalePreviewBoots now t).

(** ** Reports *)

Inductive BootReport :=
  | rep_booting
  | rep_ready (url : option string) (port : option Z)
  | rep_failed (reason : option string)
  | rep_torn_down (reason : option string).

(** The states a report may come from. *)
Definition report_from (o : BootReport) (r : PreviewBoot) : bool :=
  match o with
  | rep_booting => bool_decide (pb_status r ∈ [pb_claimed; pb_booting])
  | rep_ready _ _ => bool_decide (pb_status r ∈ [pb_claimed; pb_booting; pb_ready])
  | rep_failed _ | rep_torn_down _ => bool_decide (pb_status r ∉ [pb_failed; pb_torn_down])
  end.
Definition report_set (now : Z) (o : BootReport) (r : PreviewBoot) : PreviewBoot :=
  match o with
  | rep_booting => set_pb_live pb_booting (pb_url r) (pb_port r) now r
  | rep_ready url port =>
      set_pb_live pb_ready (coalesce url (pb_url r)) (coalesce port (pb_port r)) now r
  | rep_failed reason =>
      set_pb_live pb_failed (pb_url r) (pb_port r) now (set_pb_end pb_failed reason now r)
  | rep_torn_down reason =>
      set_pb_live pb_torn_down (pb_url r) (pb_port r) now (set_pb_end pb_torn_down reason now r)
  end.

Definition reportPreviewBoot (now : Z) (id workerId : string) (o : BootReport) (t : boots)
    : option PreviewBoot * boots :=
  update_row id (λ r, sql_eq (pb_worker_id r) workerId && report_from o r) (report_set now o) t.

Definition setPreviewBootLogKey (now : Z) (id workerId bootLogKey : string) (t : boots)
    : option PreviewBoot * boots :=
  update_row id (λ r, sql_eq (pb_worker_id r) workerId) (set_pb_log_key bootLogKey now) t.

Definition getPreviewBoot (id : string) (t : boots) : option PreviewBoot := t !! id.

(** ** The lifecycle *)

Definition rank (s : BootStatus) : nat :=
  match s with
  | pb_pending => 0 | pb_claimed => 1 | pb_booting => 2 | pb_ready => 3 | pb_failed | pb_torn_down => 4
  end.

(** Everything a worker or a reader relies on; the log key and [updated_at]
    are the rest. *)
Definition face (r : PreviewBoot) :=
  (pb_status r, pb_reason r, pb_url r, pb_port r, pb_last_liveness_at r).
Definition tenure (r : PreviewBoot) := (pb_worker_id r, pb_claimed_at r, pb_expires_at r).
Definition request (r : PreviewBoot) :=
  (pb_workspace_id r, pb_repo r, pb_pr_number r, pb_head_sha r, pb_ref r, pb_created_at r).

(** [later r r']: what [r] may have become. *)
Definition later (r r' : PreviewBoot) : Prop :=
  request r' = request r
  ∧ (rank (pb_status r) ≤ rank (pb_status r'))%nat
  ∧ (pb_status r ≠ pb_pending → tenure r' = tenure r)
  ∧ (in_flight r = false → face r' = face r)
  ∧ (pb_url r ≠ None → pb_url r' ≠ None).

Lemma in_flight_rank r : in_flight r = false ↔ rank (pb_status r) = 4%nat.
Proof. unfold in_flight. by destruct (pb_status r). Qed.
Lemma pending_rank s : s ≠ pb_pending ↔ (1 ≤ rank s)%nat.
Proof. destruct s; simpl; split; try done; lia. Qed.

#[export] Instance later_preorder : PreOrder later.
Proof.
  split; [done|]. intros r1 r2 r3 (I1 & R1 & T1 & F1 & U1) (I2 & R2 & T2 & F2 & U2).
  unfold later. rewrite !pending_rank, !in_flight_rank in *. split_and!; [congruence|lia| | |auto].
  - intros H. rewrite T2, T1; [done|lia..].
  - intros H. rewrite F2, F1; [done|lia|]. specialize (F1 H). injection F1 as -> _ _ _ _. done.
Qed.

(** An assignment on a row that is still in flight. *)
Lemma later_in_flight r r' :
  in_flight r = true → request r' = request r → (rank (pb_status r) ≤ rank (pb_status r'))%nat →
  (pb_status r ≠ pb_pending → tenure r' = tenure r) → (pb_url r ≠ None → pb_url r' ≠ None) → later r r'.
Proof. intros H I R T U. unfold later. split_and!; [done..|congruence|done]. Qed.

Lemma later_end r s reason now :
  in_flight r = true → rank s = 4%nat → later r (set_pb_end s reason now r).
Proof. intros Hf Hs. apply later_in_flight; try done. simpl. rewrite Hs. by destruct (pb_status r); simpl; lia. Qed.

Lemma later_report now o r : report_from o r = true → later r (report_set now o r).
Proof.
  intros H. assert (in_flight r = true) as Hf.
  { unfold in_flight. destruct o; simpl in H; destruct (pb_status r); done. }
  destruct o; simpl in H; apply later_in_flight; try done; simpl;
    try (destruct (pb_status r); (done || simpl; lia)).
  by destruct url.
Qed.

Section History.
Context (sha1 : list Z → list Z).
Implicit Types (t : boots) (r : PreviewBoot).

Inductive boot_op :=
  | bo_enqueue (now : Z) (i : BootInput)
  | bo_expire (now : Z)
  | bo_claim (now : Z) (q : BootClaim)
  | bo_report (now : Z) (id workerId : string) (o : BootReport)
  | bo_log (now : Z) (id workerId key : string).

(** The table after an operation, and the boot it hands out. *)
Definition exec_boot (o : boot_op) t : option string * boots :=
  match o with
  | bo_enqueue now i => (None, (enqueuePreviewBoot sha1 now i t).2)
  | bo_expire now => (None, expireStalePreviewBoots now t)
  | bo_claim now q => let '(res, t') := claimPreviewBoot now q t in (fst <$> res, t')
  | bo_report now id w o => (None, (reportPreviewBoot now id w o t).2)
  | bo_log now id w key => (None, (setPreviewBootLogKey now id w key t).2)
  end.
Fixpoint exec_boots (os : list boot_op) t : list string * boots :=
  match os with
  | [] => ([], t)
  | o :: os' =>
      let '(k, t1) := exec_boot o t in
      let '(ks, t2) := exec_boots os' t1 in (option_list k ++ ks, t2)
  end.

Lemma expire_later now t : rows later t (expireStalePreviewBoots now t).
Proof.
  unfold expireStalePreviewBoots. etrans; apply rows_update_where; try apply _; intros k r H.
  - unfold gone_dark in H. bools. apply later_end; [|done].
    unfold supervised in H. unfold in_flight. destruct (pb_status r); done.
  - unfold never_claimed in H. bools. apply later_end; [|done]. unfold in_flight.
    by match goal with H : pb_status r = _ |- _ => rewrite H end.
Qed.

Lemma claim_later now q t : rows later t (claim_next q now t).2.
Proof.
  destruct (claim_nextP q now t) as [k r Hk Hp _|_]; simpl; [|done]. simpl in Hp. bools.
  match goal with H : pb_status r = _ |- _ => rename H into Hs end.
  eapply rows_insert; [apply _|done|]. apply later_in_flight; try done.
  - unfold in_flight. by rewrite Hs.
  - simpl. rewrite Hs. simpl. lia.
Qed.

Lemma exec_boot_later o t : rows later t (exec_boot o t).2.
Proof.
  destruct o as [now i|now|now q|now id w o|now id w key]; simpl.
  - unfold enqueuePreviewBoot, insert_new. destruct (t !! _) eqn:Hn; simpl; [done|].
    etrans; [apply rows_insert_fresh; [apply _|exact Hn]|].
    apply rows_update_where; [apply _|]. intros k r H. unfold obsolete in H. bools. by apply later_end.
  - apply expire_later.
  - unfold claimPreviewBoot. destruct (claim_next _ _ _) as [res t'] eqn:E. simpl.
    etrans; [apply expire_later|]. apply (f_equal snd) in E. simpl in E. rewrite <- E. apply claim_later.
  - apply rows_update_row; [apply _|]. intros r H. bools. by apply later_report.
  - apply rows_update_row; [apply _|]. intros r H. by unfold later.
Qed.

Lemma exec_boots_later os t : rows later t (exec_boots os t).2.
Proof.
  revert t. induction os as [|o os IH]; intros t; simpl; [done|].
  destruct (exec_boot o t) as [x t1] eqn:E1. specialize (IH t1).
  destruct (exec_boots os t1) as [ks t2] eqn:E2. simpl in *. etrans; [|exact IH].
  change t1 with (x, t1).2. rewrite <- E1. apply exec_boot_later.
Qed.

(** A boot is single-attempt.  Over any history its request
    never changes, its status only moves forward ([pending], [claimed],
    [booting], [ready], an end state), whoever claimed it stays its claimant
    with the same claim instant and expiry, a URL once known is never lost, and
    once it has failed or been torn down nothing but the log key is written:
    the first reason stands. *)
Theorem boot_lifecycle os t k r :
  t !! k = Some r → ∃ r', (exec_boots os t).2 !! k = Some r' ∧ later r r'.
Proof. apply exec_boots_later. Qed.

Lemma exec_boot_handed o t k :
  (exec_boot o t).1 = Some k →
  (∃ r, t !! k = Some r ∧ pb_status r = pb_pending)
  ∧ ∃ r, (exec_boot o t).2 !! k = Some r ∧ pb_status r = pb_claimed.
Proof.
  destruct o as [| |now q| |]; simpl; try done. unfold claimPreviewBoot.
  destruct (claim_nextP q now (expireStalePreviewBoots now t)) as [k1 r Hk Hp _|_]; simpl; [|done].
  intros [= ->]. rewrite lookup_insert_eq. simpl in Hp. bools. split; [|by eexists].
  unfold expireStalePreviewBoots in Hk. rewrite !lookup_update_where in Hk.
  destruct (t !! k) as [r0|]; [|done]. exists r0. split; [done|]. simpl in Hk. injection Hk as <-.
  destruct (gone_dark now r0); destruct (never_claimed now _); done.
Qed.

Lemma not_handed os t k r : t !! k = Some r → pb_status r ≠ pb_pending → k ∉ (exec_boots os t).1.
Proof.
  revert t r. induction os as [|o os IH]; intros t r Hk Hs; simpl; [set_solver|].
  destruct (exec_boot o t) as [x t1] eqn:E1. destruct (exec_boots os t1) as [ks t2] eqn:E2. simpl.
  assert (k ∉ ks).
  { destruct (exec_boot_later o t k r Hk) as (r1 & Hk1 & _ & Hr & _). rewrite E1 in Hk1. simpl in Hk1.
    change ks with (ks, t2).1. rewrite <- E2. eapply IH; [exact Hk1|].
    rewrite pending_rank in *. lia. }
  apply not_elem_of_app. split; [|done]. destruct x as [k'|]; simpl; [|set_solver].
  intros ->%list_elem_of_singleton. destruct (exec_boot_handed o t k') as [(r0 & H0 & S0) _];
    [by rewrite E1|]. congruence.
Qed.

(** A boot is handed to one worker at most, over the whole
    history of the table: however admissions, sweeps, claims, reports and log
    uploads interleave, no id is claimed twice. *)
Theorem boot_claimed_once os t : NoDup (exec_boots os t).1.
Proof.
  revert t. induction os as [|o os IH]; intros t; simpl; [constructor|].
  destruct (exec_boot o t) as [x t1] eqn:E1. specialize (IH t1).
  destruct (exec_boots os t1) as [ks t2] eqn:E2. simpl in *.
  destruct x as [k|]; simpl; [|done]. constructor; [|done].
  destruct (exec_boot_handed o t k) as [_ (r & Hk & Hs)]; [by rewrite E1|].
  rewrite E1 in Hk. change ks with (ks, t2).1. rewrite <- E2.
  eapply not_handed; [exact Hk|]. by rewrite Hs.
Qed.

(** Who may move a boot, and when. *)
Definition authorised (o : boot_op) r r' : Prop :=
  match o with
  | bo_enqueue _ i =>
      same_pull i r = true ∧ pb_head_sha r ≠ bi_headSha i ∧ pb_status r' = pb_torn_down
      ∧ pb_reason r' = Some "superseded"
  | bo_expire now | bo_claim now _ =>
      gone_dark now r = true ∧ pb_status r' = pb_failed ∧ pb_reason r' = Some "stale"
      ∨ never_claimed now r = true ∧ pb_status r' = pb_failed ∧ pb_reason r' = Some "never_claimed"
      ∨ pb_status r = pb_pending ∧ pb_status r' = pb_claimed
        ∧ ∃ q, o = bo_claim now q ∧ pb_worker_id r' = Some (bc_workerId q)
  | bo_report _ _ w rep => pb_worker_id r = Some w ∧ report_from rep r = true
  | bo_log _ _ _ _ => False
  end.

Lemma expire_lookup now t k :
  expireStalePreviewBoots now t !! k =
  (λ r, if gone_dark now r then set_pb_end pb_failed (Some "stale") now r
        else if never_claimed now r then set_pb_end pb_failed (Some "never_claimed") now r else r)
  <$> t !! k.
Proof.
  unfold expireStalePreviewBoots. rewrite !lookup_update_where. destruct (t !! k) as [r|]; [|done].
  simpl. f_equal. by destruct (gone_dark now r).
Qed.

(** Only the right party moves a boot.  When an operation
    changes a boot's status, it is a worker reporting on a boot it holds from a
    state that report may come from, or a newer head of the same pull request
    superseding it, or a sweep that found it silent for three minutes or
    unclaimed for ten, or the claim of a pending boot. *)
Theorem boot_change_authorised o t k r r' :
  t !! k = Some r → (exec_boot o t).2 !! k = Some r' → pb_status r' ≠ pb_status r →
  authorised o r r'.
Proof.
  intros Hk. destruct o as [now i|now|now q|now id w o|now id w key]; simpl.
  - unfold enqueuePreviewBoot, insert_new. generalize (previewBootId sha1 (bi_workspaceId i) (bi_repo i)
      (bi_prNumber i) (bi_headSha i) None). intros id. simpl.
    destruct (t !! id) eqn:Hn; simpl; [intros ? []; congruence|].
    rewrite lookup_update_where, lookup_insert_ne by congruence. rewrite Hk. simpl.
    destruct (obsolete i r) eqn:Ho; intros [= <-] Hne; [|done]. unfold obsolete in Ho. by bools.
  - rewrite expire_lookup, Hk. simpl. intros [= <-] Hne.
    destruct (gone_dark now r); [by left|]. destruct (never_claimed now r); [by right; left|done].
  - unfold claimPreviewBoot.
    assert (He := expire_lookup now t k). rewrite Hk in He. simpl in He.
    destruct (claim_nextP q now (expireStalePreviewBoots now t)) as [k1 r1 Hk1 Hp _|_]; simpl.
    + destruct (decide (k1 = k)) as [->|Hne].
      * rewrite lookup_insert_eq. intros [= <-] Hs. simpl in Hp. bools.
        rewrite He in Hk1. injection Hk1 as Hk1.
        destruct (gone_dark now r), (never_claimed now r); subst r1; try done; eauto 10.
      * rewrite lookup_insert_ne, He by done. intros [= <-] Hs.
        destruct (gone_dark now r); [by left|]. destruct (never_claimed now r); [by right; left|done].
    + rewrite He. intros [= <-] Hs.
      destruct (gone_dark now r); [by left|]. destruct (never_claimed now r); [by right; left|done].
  - unfold reportPreviewBoot.
    destruct (update_rowP (λ r, sql_eq (pb_worker_id r) w && report_from o r) (report_set now o) id t)
      as [r0 H0 Hp|_]; simpl; [|intros ? []; congruence].
    destruct (decide (id = k)) as [->|Hne]; [|rewrite lookup_insert_ne by done; intros ? []; congruence].
    rewrite lookup_insert_eq. intros _ _. simplify_eq. unfold sql_eq in Hp. by bools.
  - unfold setPreviewBootLogKey.
    destruct (update_rowP (λ r, sql_eq (pb_worker_id r) w) (set_pb_log_key key now) id t)
      as [r0 H0 Hp|_]; simpl; [|intros ? []; congruence].
    destruct (decide (id = k)) as [->|Hne]; [|rewrite lookup_insert_ne by done; intros ? []; congruence].
    rewrite lookup_insert_eq. intros [= <-] Hs. by simplify_eq.
Qed.
End History.

(** ** The claim *)

(** A boot the claim may hand out at [now]. *)
Definition claimable_boot (now : Z) (r : PreviewBoot) : Prop :=
  pb_status r = pb_pending ∧ now - seconds PENDING_STALE_SECONDS ≤ pb_created_at r
  ∧ (∀ n, pb_next_eligible_at r = Some n → n ≤ now).

Lemma claimable_boot_where now q t t' k r :
  t !! k = Some r → claimable_boot now r →
  ∃ r', expireStalePreviewBoots now t !! k = Some r' ∧ r' = r ∧ claim_where q now t' k r' = true.
Proof.
  intros Hk (Hs & Hc & Hn). exists r. rewrite expire_lookup, Hk. simpl.
  unfold gone_dark, supervised, never_claimed. rewrite Hs. simpl.
  rewrite (proj2 (Z.ltb_ge _ _) Hc). split_and!; [done..|].
  destruct (pb_next_eligible_at r) as [n|]; [|done]. simpl. apply Z.leb_le. by apply Hn.
Qed.

Lemma expired_pending now t k r :
  expireStalePreviewBoots now t !! k = Some r → pb_status r = pb_pending →
  t !! k = Some r ∧ now - seconds PENDING_STALE_SECONDS ≤ pb_created_at r.
Proof.
  rewrite expire_lookup. destruct (t !! k) as [r0|]; [|done]. simpl. intros [= Hr] Hs.
  destruct (gone_dark now r0); [by subst|]. destruct (never_claimed now r0) eqn:Hn; [by subst|].
  subst r0. split; [done|]. unfold never_claimed in Hn. rewrite Hs in Hn. simpl in Hn. by bools.
Qed.

Lemma expired_alive now t k r l :
  expireStalePreviewBoots now t !! k = Some r → supervised r = true →
  pb_last_liveness_at r = Some l → now - seconds STALE_SECONDS ≤ l.
Proof.
  rewrite expire_lookup. destruct (t !! k) as [r0|]; [|done]. simpl. intros [= Hr] Hs Hl.
  destruct (gone_dark now r0) eqn:Hd; [by subst|]. destruct (never_claimed now r0); [by subst|].
  subst r0. unfold gone_dark in Hd. rewrite Hs, Hl in Hd. simpl in Hd. by bools.
Qed.

(** What a claim does: the boot it hands out is the oldest
    that is pending, due and no more than ten minutes old, now held by the
    asking worker for its time to live; nothing comes back only when there is
    none; and the table it leaves has no supervised boot silent for more than
    three minutes and no pending one older than ten. *)
Theorem claimPreviewBoot_correct now q t :
  let '(res, t') := claimPreviewBoot now q t in
  match res with
  | Some (k, r') => ∃ r, t !! k = Some r ∧ claimable_boot now r
      ∧ (∀ k0 r0, t !! k0 = Some r0 → claimable_boot now r0 → pb_created_at r ≤ pb_created_at r0)
      ∧ r' = set_pb_claim (bc_workerId q) (now + seconds (bc_ttlSeconds q)) now r ∧ t' !! k = Some r'
  | None => ∀ k0 r0, t !! k0 = Some r0 → ¬ claimable_boot now r0
  end
  ∧ ∀ k r, t' !! k = Some r →
      (supervised r = true → ∀ l, pb_last_liveness_at r = Some l → now - seconds STALE_SECONDS ≤ l)
      ∧ (pb_status r = pb_pending → now - seconds PENDING_STALE_SECONDS ≤ pb_created_at r).
Proof.
  unfold claimPreviewBoot.
  destruct (claim_nextP q now (expireStalePreviewBoots now t)) as [k r Hk Hp Hmin|Hnone].
  - simpl in Hp. bools. match goal with H : pb_status r = _ |- _ => rename H into Hs end.
    destruct (expired_pending now t k r Hk Hs) as [Hk0 Hc]. split.
    + exists r. split_and!; try done.
      * split_and!; [done..|]. intros n Hn. rewrite Hn in *. simpl in *. by apply Z.leb_le.
      * intros k0 r0 Hr0 Hc0. destruct (claimable_boot_where now q t (expireStalePreviewBoots now t) k0 r0 Hr0 Hc0)
          as (r0' & Hr0' & -> & Hw). by apply (Hmin k0 r0 Hr0').
      * apply lookup_insert_eq.
    + intros k' r'. destruct (decide (k = k')) as [<-|Hne].
      * rewrite lookup_insert_eq. intros [= <-]. split; [|done]. intros _ l [= <-].
        unfold seconds, milliseconds, STALE_SECONDS. lia.
      * rewrite lookup_insert_ne by done. intros H'.
        split; intros Hs'; [intros l; by eapply expired_alive|by eapply expired_pending].
  - split.
    + intros k0 r0 Hr0 Hc0. destruct (claimable_boot_where now q t (expireStalePreviewBoots now t) k0 r0 Hr0 Hc0)
        as (r0' & Hr0' & -> & Hw). by rewrite (Hnone k0 r0 Hr0') in Hw.
    + intros k' r' H'. split; intros Hs'; [intros l; by eapply expired_alive|by eapply expired_pending].
Qed.

(** ** Applications *)

Definition sample_request (head : string) : BootInput := mkBootInput "ws" "acme/app" 7 head head.
Definition boot_history : list boot_op :=
  [bo_enqueue 0 (sample_request "aaa"); bo_claim (seconds 5) (mkBootClaim "w1" 900);
   bo_claim (seconds 6) (mkBootClaim "w2" 900)].
Definition claimed_boots : boots := (exec_boots sample_sha1 boot_history ∅).2.
Definition sample_boot_id : string :=
  previewBootId sample_sha1 "ws" "acme/app" 7 "aaa" None.

Lemma boot_lifecycle_witness :
  ∃ r r', claimed_boots !! sample_boot_id = Some r
    ∧ (exec_boots sample_sha1 [bo_report (seconds 9) sample_boot_id "w1" rep_booting;
                               bo_enqueue (seconds 20) (sample_request "bbb")] claimed_boots).2
        !! sample_boot_id = Some r'
    ∧ later r r' ∧ pb_status r' = pb_torn_down ∧ pb_worker_id r' = Some "w1".
Proof.
  destruct (claimed_boots !! sample_boot_id) as [r|] eqn:E; [|by vm_compute in E].
  destruct (boot_lifecycle sample_sha1 [bo_report (seconds 9) sample_boot_id "w1" rep_booting;
    bo_enqueue (seconds 20) (sample_request "bbb")] claimed_boots sample_boot_id r E) as (r' & H & L).
  exists r, r'. split; [reflexivity|]. split; [exact H|]. split; [exact L|].
  clear L. vm_compute in H. injection H as <-. split; reflexivity.
Defined.

Lemma boot_change_authorised_witness :
  ∃ r, claimed_boots !! sample_boot_id = Some r
    ∧ authorised (bo_report (seconds 9) sample_boot_id "w1" rep_booting) r
        (report_set (seconds 9) rep_booting r).
Proof.
  destruct (claimed_boots !! sample_boot_id) as [r|] eqn:E; [|by vm_compute in E].
  exists r. split; [reflexivity|].
  apply (boot_change_authorised sample_sha1 (bo_report (seconds 9) sample_boot_id "w1" rep_booting)
    claimed_boots sample_boot_id r); [exact E| |];
    vm_compute in E; injection E as <-; [vm_compute; reflexivity|discriminate].
Defined.
