(* ===== verification/ChannelInbox.v ===== *)
(** * ChannelInbox: the buffer between channel webhooks and the dispatcher

    [queries/channel_inbox.ts]: the idempotent insert of the webhook, the claim
    with its per-conversation and per-workspace conditions, completion, the
    bounded retry, the stale reclaim, the dead-letter view and requeue, and the
    workspace back-stamp. *)

From S2P Require Import Prelude Table Intake.
Open Scope Z_scope.

(** ** The retry policy *)

Definition INBOX_MAX_ATTEMPTS : Z := 3.
Definition INBOX_BACKOFF_SECONDS : list Z := [30; 120; 600].
Definition INBOX_STALE_PROCESSING_MINUTES : Z := 15.

Inductive InboxRetryDecision := retry_queued (delaySeconds : Z) | retry_dead.

(** [a[i]] of an array, [undefined] out of range *)
Definition at_index {A} (l : list A) (i : Z) : option A :=
  if i <? 0 then None else l !! Z.to_nat i.

Definition nextInboxStateAfterFailure (attempts : Z) : InboxRetryDecision :=
  if INBOX_MAX_ATTEMPTS <=? attempts then retry_dead else
  retry_queued (default 30 (coalesce (at_index INBOX_BACKOFF_SECONDS (attempts - 1))
                                     (at_index INBOX_BACKOFF_SECONDS 0))).

(** ** The table *)

Inductive InboxState := ci_queued | ci_processing | ci_done | ci_failed | ci_dead.
#[export] Instance InboxState_eq_dec : EqDecision InboxState.
Proof. solve_decision. Defined.

Record InboxRow := mkInboxRow {
  ci_workspace_id : option string;
  ci_chat_identity_id : option string;
  ci_channel : string;
  ci_conversation_key : string;
  ci_kind : string;
  ci_sender_id : string;
  ci_sender_display : string;
  ci_provider_message_id : string;
  ci_payload : gmap string json;
  ci_state : InboxState;
  ci_attempts : Z;
  ci_next_attempt_at : Z;
  ci_last_error : option string;
  ci_created_at : Z;
  ci_updated_at : Z;
}.
Notation inbox := (gmap string InboxRow).

(** The assignments the statements make. *)
Definition set_ci_state (s : InboxState) (now : Z) (r : InboxRow) : InboxRow :=
  mkInboxRow (ci_workspace_id r) (ci_chat_identity_id r) (ci_channel r) (ci_conversation_key r)
    (ci_kind r) (ci_sender_id r) (ci_sender_display r) (ci_provider_message_id r) (ci_payload r)
    s (ci_attempts r) (ci_next_attempt_at r) (ci_last_error r) (ci_created_at r) now.
Definition set_ci_retry (attempts next : Z) (err : option string) (r : InboxRow) : InboxRow :=
  mkInboxRow (ci_workspace_id r) (ci_chat_identity_id r) (ci_channel r) (ci_conversation_key r)
    (ci_kind r) (ci_sender_id r) (ci_sender_display r) (ci_provider_message_id r) (ci_payload r)
    (ci_state r) attempts next err (ci_created_at r) (ci_updated_at r).
Definition set_ci_payload (p : gmap string json) (r : InboxRow) : InboxRow :=
  mkInboxRow (ci_workspace_id r) (ci_chat_identity_id r) (ci_channel r) (ci_conversation_key r)
    (ci_kind r) (ci_sender_id r) (ci_sender_display r) (ci_provider_message_id r) p
    (ci_state r) (ci_attempts r) (ci_next_attempt_at r) (ci_last_error r) (ci_created_at r)
    (ci_updated_at r).
Definition set_ci_workspace (w : string) (now : Z) (r : InboxRow) : InboxRow :=
  mkInboxRow (Some w) (ci_chat_identity_id r) (ci_channel r) (ci_conversation_key r)
    (ci_kind r) (ci_sender_id r) (ci_sender_display r) (ci_provider_message_id r) (ci_payload r)
    (ci_state r) (ci_attempts r) (ci_next_attempt_at r) (ci_last_error r) (ci_created_at r) now.

(** ** Ingest *)

Record MessageInput := mkMessageInput {
  mi_workspaceId : option string;
  mi_chatIdentityId : option string;
  mi_channel : string;
  mi_conversationKey : string;
  mi_kind : option string;
  mi_senderId : option string;
  mi_senderDisplay : option string;
  mi_providerMessageId : string;
  mi_payload : gmap string json;
}.

(** [!s] for an optional string *)
Definition falsy (s : option string) : bool :=
  match s with None | Some EmptyString => true | Some _ => false end.

Definition new_message (now : Z) (i : MessageInput) : InboxRow :=
  mkInboxRow (mi_workspaceId i) (mi_chatIdentityId i) (mi_channel i) (mi_conversationKey i)
    (default "message" (mi_kind i)) (default EmptyString (mi_senderId i))
    (default EmptyString (mi_senderDisplay i)) (mi_providerMessageId i) (mi_payload i)
    ci_queued 0 now None now now.

(** The unique constraint on (channel, provider_message_id). *)
Definition same_delivery (i : MessageInput) (_ : string) (r : InboxRow) : bool :=
  (ci_channel r ≡? mi_channel i) && (ci_provider_message_id r ≡? mi_providerMessageId i).

(** [fresh] is the id the database generates.  The outer [None] is the
    exception; [Some None] is [{id: null, deduped: true}]. *)
Definition enqueueChannelMessage (now : Z) (fresh : string) (i : MessageInput) (t : inbox)
    : option (option string) * inbox :=
  if falsy (mi_workspaceId i) && falsy (mi_chatIdentityId i) then (None, t) else
  match select_where (same_delivery i) t with
  | _ :: _ => (Some None, t)
  | [] =>
      match insert_new fresh (new_message now i) t with
      | (true, t') => (Some (Some fresh), t')
      | (false, _) => (None, t)
      end
  end.

(** ** The claim *)

Definition DEFAULT_WORKSPACE_INFLIGHT_LIMIT : Z := 3.

Definition processing_in (conversationKey : string) (_ : string) (r : InboxRow) : bool :=
  (ci_conversation_key r ≡? conversationKey) && (ci_state r ≡? ci_processing).
(** [wip.workspace_id = ci.workspace_id AND wip.state = 'processing'] *)
Definition inflight (workspaceId : option string) (_ : string) (r : InboxRow) : bool :=
  match workspaceId with Some w => sql_eq (ci_workspace_id r) w | None => false end
  && (ci_state r ≡? ci_processing).

(** The request is [workspaceInflightLimit].  The advisory lock of the statement is
    always granted to a statement that runs alone. *)
Record InboxClaim := mkInboxClaim { workspaceInflightLimit : option Z }.

#[export] Instance inbox_claimable : Claimable InboxClaim InboxRow := {
  claim_where q now t _ r :=
    (ci_state r ≡? ci_queued) && (ci_next_attempt_at r <=? now)
    && bool_decide (select_where (processing_in (ci_conversation_key r)) t = [])
    && (Z.of_nat (count_where (inflight (ci_workspace_id r)) t)
        <? default DEFAULT_WORKSPACE_INFLIGHT_LIMIT (workspaceInflightLimit q));
  claim_order := ci_next_attempt_at;
  claim_set _ now := set_ci_state ci_processing now;
}.
#[export] Instance inbox_claimable_laws : ClaimableLaws InboxClaim InboxRow.
Proof. done. Qed.

Definition claimNextChannelMessage (now : Z) (q : InboxClaim) (t : inbox)
    : option (string * InboxRow) * inbox := claim_next q now t.

(** ** Completion and failure *)

Definition completeChannelMessage (now : Z) (id : string) (t : inbox) : inbox :=
  (update_row id (λ _, true) (λ r, set_ci_state ci_done now
     (set_ci_payload (delete "applicationId" (delete "interactionToken" (ci_payload r))) r)) t).2.

(** The SELECT of [failChannelMessage], the count after this failure. *)
Definition fail_attempts (id : string) (t : inbox) : Z :=
  default 0 (ci_attempts <$> t !! id) + 1.
(** Its UPDATE. *)
Definition fail_update (now : Z) (id err : string) (attempts : Z) (t : inbox) : inbox :=
  (update_row id (λ _, true)
    (match nextInboxStateAfterFailure attempts with
     | retry_queued d => λ r, set_ci_state ci_queued now
         (set_ci_retry attempts (now + seconds d) (Some err) r)
     | retry_dead => λ r, set_ci_state ci_dead now (set_ci_retry attempts now (Some err) r)
     end) t).2.

(** The boolean is whether it returns ["dead"]. *)
Definition failChannelMessage (now : Z) (id err : string) (t : inbox) : bool * inbox :=
  let attempts := fail_attempts id t in
  (match nextInboxStateAfterFailure attempts with retry_dead => true | _ => false end,
   fail_update now id err attempts t).

Definition stale_processing (now : Z) (_ : string) (r : InboxRow) : bool :=
  (ci_state r ≡? ci_processing) && (ci_updated_at r <? now - minutes INBOX_STALE_PROCESSING_MINUTES).
Definition reclaimStaleChannelMessages (now : Z) (t : inbox) : nat * inbox :=
  (count_where (stale_processing now) t,
   update_where (stale_processing now) (set_ci_state ci_queued now) t).

(** ** Dead letters, back-stamp *)

(** [ORDER BY created_at DESC] *)
Definition deadLettersForWorkspace (workspaceId : string) (t : inbox) : list (string * InboxRow) :=
  order_by (λ r, - ci_created_at r)
    (select_where (λ _ r, sql_eq (ci_workspace_id r) workspaceId && (ci_state r ≡? ci_dead)) t).

Definition requeueDeadChannelMessage (now : Z) (workspaceId id : string) (t : inbox) : bool * inbox :=
  let '(row, t') := update_row id
    (λ r, sql_eq (ci_workspace_id r) workspaceId && (ci_state r ≡? ci_dead))
    (λ r, set_ci_state ci_queued now (set_ci_retry 0 now None r)) t in
  (negb (is_null row), t').

Definition stampChannelInboxWorkspace (now : Z) (rowId workspaceId : string) (t : inbox) : inbox :=
  (update_row rowId (λ r, is_null (ci_workspace_id r)) (set_ci_workspace workspaceId now) t).2.

(** ** Histories *)

Inductive inbox_op :=
  | io_enqueue (now : Z) (fresh : string) (i : MessageInput)
  | io_claim (now : Z) (q : InboxClaim)
  | io_complete (now : Z) (id : string)
  | io_fail (now : Z) (id err : string)
  | io_reclaim (now : Z)
  | io_requeue (now : Z) (workspaceId id : string)
  | io_stamp (now : Z) (id workspaceId : string).

Definition exec_inbox (o : inbox_op) (t : inbox) : inbox :=
  match o with
  | io_enqueue now fresh i => (enqueueChannelMessage now fresh i t).2
  | io_claim now q => (claimNextChannelMessage now q t).2
  | io_complete now id => completeChannelMessage now id t
  | io_fail now id err => (failChannelMessage now id err t).2
  | io_reclaim now => (reclaimStaleChannelMessages now t).2
  | io_requeue now ws id => (requeueDeadChannelMessage now ws id t).2
  | io_stamp now id ws => stampChannelInboxWorkspace now id ws t
  end.
Definition exec_inboxes (os : list inbox_op) (t : inbox) : inbox := foldl (λ t o, exec_inbox o t) t os.

Notation being_processed := (λ r : InboxRow, ci_state r = ci_processing).
Definition is_claim (o : inbox_op) : bool := match o with io_claim _ _ => true | _ => false end.
Definition is_stamp (o : inbox_op) : bool := match o with io_stamp _ _ _ => true | _ => false end.

(** Only a claim starts processing, for any grouping of the rows that the
    statements keep. *)
Lemma exec_inbox_no_start {G} (group : InboxRow → G) o t :
  is_claim o = false →
  (∀ w now r, is_stamp o = true → ci_workspace_id r = None → group (set_ci_workspace w now r) = group r) →
  no_start being_processed group t (exec_inbox o t).
Proof.
  intros Hc Hs. destruct o as [now fresh i| |now id|now id err|now|now ws id|now id ws]; simpl; try done.
  - unfold enqueueChannelMessage, insert_new. destruct (falsy _ && falsy _); [done|].
    destruct (select_where _ t); [|done]. destruct (t !! fresh); [done|]. by apply no_start_insert.
  - by apply no_start_update_row.
  - unfold failChannelMessage, fail_update. destruct (nextInboxStateAfterFailure _);
      by apply no_start_update_row.
  - by apply no_start_update_where.
  - unfold requeueDeadChannelMessage. destruct (update_row _ _ _ _) as [row t'] eqn:E.
    apply (f_equal snd) in E. simpl in E. rewrite <- E. by apply no_start_update_row.
  - apply no_start_update_row. simpl. intros r Hn Hb. split; [done|]. symmetry. apply Hs; [done|].
    by destruct (ci_workspace_id r).
Qed.

(** A conversation is handled one turn at a time: whatever
    the webhooks, dispatchers, sweeps and operators do and in whatever order,
    at most one message of a conversation is being processed. *)
Theorem one_turn_per_conversation os t :
  exclusive being_processed ci_conversation_key t →
  exclusive being_processed ci_conversation_key (exec_inboxes os t).
Proof.
  revert t. induction os as [|o os IH]; intros t Ho; [done|]. apply IH. clear IH.
  destruct (is_claim o) eqn:Hc.
  - destruct o as [|now q| | | | |]; try done. simpl. unfold claimNextChannelMessage.
    destruct (claim_nextP q now t) as [k r Hk Hp _|_]; simpl; [|done]. apply exclusive_start; [done|].
    simpl in Hp. bools. match goal with H : select_where _ t = [] |- _ => rename H into Hnone end.
    intros k' r' Hk' Hb Hg. assert ((k', r') ∈ select_where (processing_in (ci_conversation_key r)) t) as Hin.
    { apply elem_of_select_where. split; [done|]. unfold processing_in. simpl in Hg.
      by rewrite !bool_decide_eq_true_2. }
    rewrite Hnone in Hin. by apply not_elem_of_nil in Hin.
  - eapply exclusive_no_start, Ho. by apply exec_inbox_no_start.
Qed.

(** The messages of a workspace being processed. *)
Definition inflight_count (w : string) (t : inbox) : Z := Z.of_nat (count_where (inflight (Some w)) t).

(** No stamp, and no claim asks for a limit above [L]. *)
Definition capped (L : Z) (o : inbox_op) : Prop :=
  is_stamp o = false
  ∧ ∀ now q, o = io_claim now q → default DEFAULT_WORKSPACE_INFLIGHT_LIMIT (workspaceInflightLimit q) ≤ L.

(** The fairness cap: as long as claims ask for at most [L] and
    no row is back-stamped, a workspace never has more than [L] messages being
    processed. *)
Theorem inflight_bounded L w os t :
  Forall (capped L) os → inflight_count w t ≤ L → inflight_count w (exec_inboxes os t) ≤ L.
Proof.
  intros Hos. revert t. induction Hos as [|o os [Hs Hl] _ IH]; intros t Hc; [done|]. apply IH. clear IH.
  unfold inflight_count in *. destruct (is_claim o) eqn:Ho.
  - destruct o as [|now q| | | | |]; try done. simpl. unfold claimNextChannelMessage.
    destruct (claim_nextP q now t) as [k r Hk Hp _|_]; simpl; [|done].
    specialize (Hl now q eq_refl). simpl in Hp. bools.
    destruct (decide (ci_workspace_id r = Some w)) as [Hw|Hw].
    + rewrite Hw in *.
      assert (Hle := count_where_insert_le (inflight (Some w)) t k (set_ci_state ci_processing now r)). lia.
    + etrans; [|exact Hc]. apply inj_le, count_where_le. intros k' r'.
      destruct (decide (k = k')) as [<-|Hne].
      * rewrite lookup_insert_eq. intros [= <-]. unfold inflight, sql_eq. simpl.
        by rewrite bool_decide_eq_false_2.
      * rewrite lookup_insert_ne by done. by eauto.
  - etrans; [|exact Hc]. apply inj_le, count_where_le. intros k r' Hk Hp.
    unfold inflight, sql_eq in Hp. bools.
    destruct (exec_inbox_no_start ci_workspace_id o t Ho) with k r' as (r & Hr & Hb & Hg);
      [by rewrite Hs|done..|]. exists r. split; [done|]. unfold inflight, sql_eq. rewrite Hg.
    by rewrite !bool_decide_eq_true_2.
Qed.

(** ** Retries *)

(** A message that can still run has failed fewer than [INBOX_MAX_ATTEMPTS]
    times, a dead one at least as often; a finished one carries no Discord
    credential; no row is [failed]. *)
Definition inbox_ok (r : InboxRow) : Prop :=
  match ci_state r with
  | ci_queued | ci_processing => 0 ≤ ci_attempts r < INBOX_MAX_ATTEMPTS
  | ci_dead => INBOX_MAX_ATTEMPTS ≤ ci_attempts r
  | ci_done => 0 ≤ ci_attempts r ∧ ci_payload r !! "interactionToken" = None
               ∧ ci_payload r !! "applicationId" = None
  | ci_failed => False
  end.
Definition inbox_inv (t : inbox) : Prop := map_Forall (λ _ r, inbox_ok r) t.

Lemma inbox_ok_attempts r : inbox_ok r → 0 ≤ ci_attempts r.
Proof. unfold inbox_ok, INBOX_MAX_ATTEMPTS. destruct (ci_state r); lia. Qed.

Lemma fail_update_ok now id err t : inbox_inv t → inbox_inv (failChannelMessage now id err t).2.
Proof.
  intros Hi k r'. simpl. unfold fail_update, fail_attempts.
  destruct (t !! id) as [r|] eqn:Hk.
  - assert (Ha := inbox_ok_attempts r (Hi id r Hk)). simpl. unfold nextInboxStateAfterFailure.
    destruct (Z.leb_spec INBOX_MAX_ATTEMPTS (ci_attempts r + 1)) as [Hm|Hm];
      unfold update_row; rewrite Hk; simpl;
      (destruct (decide (id = k)) as [<-|Hne];
        [rewrite lookup_insert_eq; intros [= <-]; unfold inbox_ok; simpl; lia
        |rewrite lookup_insert_ne by done; apply Hi]).
  - simpl. unfold update_row. rewrite Hk. apply Hi.
Qed.

Lemma exec_inbox_inv o t : inbox_inv t → inbox_inv (exec_inbox o t).
Proof.
  intros Hi. destruct o as [now fresh i|now q|now id|now id err|now|now ws id|now id ws]; simpl.
  - unfold enqueueChannelMessage, insert_new. destruct (falsy _ && falsy _); [done|].
    destruct (select_where _ t); [|done]. destruct (t !! fresh); [done|]. by apply map_Forall_insert_2.
  - unfold claimNextChannelMessage. destruct (claim_nextP q now t) as [k r Hk Hp _|_]; simpl; [|done].
    apply map_Forall_insert_2; [|done]. specialize (Hi k r Hk). simpl in Hp. bools.
    unfold inbox_ok in *. simpl. by match goal with H : ci_state r = _ |- _ => rewrite H in Hi end.
  - apply Forall_update_row; [done|]. intros r Hr _. unfold inbox_ok. simpl.
    split; [by apply inbox_ok_attempts|]. split; [|by rewrite lookup_delete_eq].
    rewrite lookup_delete_ne by done. by rewrite lookup_delete_eq.
  - by apply fail_update_ok.
  - eapply Forall_update_where; [done| |done]. intros k r Hr Hp. unfold stale_processing in Hp. bools.
    unfold inbox_ok in *. simpl. by match goal with H : ci_state r = _ |- _ => rewrite H in Hr end.
  - unfold requeueDeadChannelMessage. destruct (update_row _ _ _ _) as [row t'] eqn:E.
    apply (f_equal snd) in E. simpl in E. rewrite <- E. by apply Forall_update_row.
  - apply Forall_update_row; [done|]. by intros r Hr _.
Qed.

(** Retries are bounded and credentials do not outlive the
    turn: in every history a message that may still be claimed has failed fewer
    than three times, only one that failed three times is dead, a completed one
    no longer stores the interaction token or the application id, and the
    state [failed] is never reached. *)
Theorem inbox_retry_bounded os t : inbox_inv t → inbox_inv (exec_inboxes os t).
Proof.
  revert t. induction os as [|o os IH]; intros t Hi; [done|]. apply IH. by apply exec_inbox_inv.
Qed.

(** ** Redelivery *)

Definition same_message (r r' : InboxRow) : Prop :=
  ci_channel r' = ci_channel r ∧ ci_provider_message_id r' = ci_provider_message_id r
  ∧ ci_conversation_key r' = ci_conversation_key r.
#[export] Instance same_message_preorder : PreOrder same_message.
Proof. split; [done|]. intros r1 r2 r3 (?&?&?) (?&?&?). unfold same_message. split_and!; congruence. Qed.

Lemma exec_inbox_rows o t : rows same_message t (exec_inbox o t).
Proof.
  destruct o as [now fresh i|now q|now id|now id err|now|now ws id|now id ws]; simpl.
  - unfold enqueueChannelMessage, insert_new. destruct (falsy _ && falsy _); [done|].
    destruct (select_where _ t); [|done]. destruct (t !! fresh) eqn:Hf; [done|].
    by apply rows_insert_fresh; [apply _|].
  - unfold claimNextChannelMessage. destruct (claim_nextP q now t) as [k r Hk Hp _|_]; simpl; [|done].
    by eapply rows_insert; [apply _|done|].
  - by apply rows_update_row; [apply _|].
  - unfold failChannelMessage, fail_update. destruct (nextInboxStateAfterFailure _);
      by apply rows_update_row; [apply _|].
  - by apply rows_update_where; [apply _|].
  - unfold requeueDeadChannelMessage. destruct (update_row _ _ _ _) as [row t'] eqn:E.
    apply (f_equal snd) in E. simpl in E. rewrite <- E. by apply rows_update_row; [apply _|].
  - by apply rows_update_row; [apply _|].
Qed.
Lemma exec_inboxes_rows os t : rows same_message t (exec_inboxes os t).
Proof.
  revert t. induction os as [|o os IH]; intros t; [done|]. simpl.
  etrans; [apply (exec_inbox_rows o)|apply IH].
Qed.

(** Ingest is idempotent for ever: once a delivery has been
    accepted, a redelivery of the same provider message on the same channel, at
    any later point and after any processing, adds nothing and reports itself
    as a duplicate. *)
Theorem redelivery_deduped now fresh i t id t1 os now' fresh' i' :
  enqueueChannelMessage now fresh i t = (Some (Some id), t1) →
  mi_channel i' = mi_channel i → mi_providerMessageId i' = mi_providerMessageId i →
  falsy (mi_workspaceId i') && falsy (mi_chatIdentityId i') = false →
  enqueueChannelMessage now' fresh' i' (exec_inboxes os t1) = (Some None, exec_inboxes os t1).
Proof.
  intros He Hc Hp Hf. unfold enqueueChannelMessage. rewrite Hf.
  assert (t1 !! id = Some (new_message now i)) as Hid.
  { unfold enqueueChannelMessage, insert_new in He. destruct (falsy _ && falsy _) in He; [done|].
    destruct (select_where _ t); [|done]. destruct (t !! fresh); [done|].
    injection He as <- <-. by rewrite lookup_insert_eq. }
  destruct (exec_inboxes_rows os t1 id _ Hid) as (r & Hr & Hch & Hpm & _).
  destruct (select_where (same_delivery i') (exec_inboxes os t1)) eqn:E; [|done]. exfalso.
  apply (not_elem_of_nil (id, r)). rewrite <- E. apply elem_of_select_where. split; [done|].
  unfold same_delivery. by rewrite Hch, Hpm, Hc, Hp, !bool_decide_eq_true_2.
Qed.

(** ** Concrete histories *)

Definition message (ws : option string) (conversation provider : string) : MessageInput :=
  mkMessageInput ws (Some "chat") "telegram" conversation None None None provider ∅.

(** Two messages of one conversation; the first fails once. *)
Definition retry_turns : list inbox_op :=
  [io_enqueue 0 "m1" (message (Some "ws") "chat-1" "p1");
   io_enqueue 1 "m2" (message (Some "ws") "chat-1" "p2");
   io_claim 2 (mkInboxClaim None); io_fail 3 "m1" "model timeout"].

(** A retry breaks the order of a conversation: the module says
    turns of one thread are strictly ordered, but a failed message waits for its
    backoff and the claim goes by [next_attempt_at], so the message sent after
    it is handed out first. *)
Theorem retry_reorders_conversation :
  let t := exec_inboxes retry_turns ∅ in
  ci_created_at <$> t !! "m1" = Some 0 ∧ ci_created_at <$> t !! "m2" = Some 1
  ∧ ci_state <$> t !! "m1" = Some ci_queued
  ∧ (fst <$> (claimNextChannelMessage 4 (mkInboxClaim None) t).1) = Some "m2".
Proof. by vm_compute. Qed.

(** Two messages of strangers, then the conversations are pinned. *)
Definition stamped : list inbox_op :=
  [io_enqueue 0 "m1" (message None "chat-1" "p1"); io_enqueue 1 "m2" (message None "chat-2" "p2");
   io_claim 2 (mkInboxClaim (Some 1)); io_stamp 3 "m1" "ws";
   io_claim 4 (mkInboxClaim (Some 1)); io_stamp 5 "m2" "ws"].

(** The fairness cap does not survive the back-stamp: with a
    limit of one, a workspace ends up with two messages being processed,
    because rows without a workspace are not counted when they are claimed. *)
Theorem stamp_exceeds_cap : inflight_count "ws" (exec_inboxes stamped ∅) = 2.
Proof. by vm_compute. Qed.

(** ** Applications *)

Lemma no_turns : exclusive being_processed ci_conversation_key ∅.
Proof. intros k1 k2 r1 r2 H. by rewrite lookup_empty in H. Qed.

Lemma one_turn_per_conversation_witness :
  exclusive being_processed ci_conversation_key (exec_inboxes (retry_turns ++ stamped) ∅).
Proof. apply (one_turn_per_conversation (retry_turns ++ stamped) ∅ no_turns). Defined.

Lemma inflight_bounded_witness : inflight_count "ws" (exec_inboxes retry_turns ∅) ≤ 3.
Proof.
  apply (inflight_bounded 3 "ws" retry_turns ∅); [|vm_compute; discriminate].
  repeat constructor; intros ? ? [= <- <-]; vm_compute; discriminate.
Defined.

Lemma inbox_retry_bounded_witness : inbox_inv (exec_inboxes (retry_turns ++ stamped) ∅).
Proof. apply (inbox_retry_bounded (retry_turns ++ stamped) ∅), map_Forall_empty. Defined.

Lemma redelivery_deduped_witness :
  let t1 := {[ "m1" := new_message 0 (message (Some "ws") "chat-1" "p1") ]} in
  enqueueChannelMessage 9 "m9" (message (Some "ws") "chat-1" "p1") (exec_inboxes retry_turns t1)
  = (Some None, exec_inboxes retry_turns t1).
Proof.
  intros t1. apply (redelivery_deduped 0 "m1" (message (Some "ws") "chat-1" "p1") ∅ "m1" t1 retry_turns
    9 "m9" (message (Some "ws") "chat-1" "p1")); reflexivity.
Defined.
