(* ===== verification/Billing.v ===== *)
(** * Billing: the wallet ledger, Stripe events and billing accounts

    [billing/pricing.ts], [queries/wallet.ts], [queries/stripe_events.ts],
    [queries/billing_accounts.ts] and the wallet admission of the claim route:
    money in, money out, and the webhook writes, each at most once. *)

From S2P Require Import Prelude Table QueueSchema Runner Intake.
From Stdlib Require Import QArith.
Open Scope Z_scope.

(** ** Pricing *)

Definition FLAT_SERVER_FEE_CENTS : Z := 50.
Definition FLAT_PROFIT_CENTS : Z := 100.

Definition usdToCents (usd : Q) : Z := math_round (usd * 100)%Q.
Definition taskPriceCents (actualTokenCostCents : Q) : Z :=
  let tokenCents := math_round actualTokenCostCents in
  tokenCents + FLAT_SERVER_FEE_CENTS + FLAT_PROFIT_CENTS.

(** The values a column of type integer, or a [::int] cast, can hold; anything
    else is an exception. *)
Definition int4 (z : Z) : bool := (- 2 ^ 31 <=? z) && (z <? 2 ^ 31).

(** ** The tables *)

(** The columns of [workspaces] that billing reads or writes. *)
Record BillingWorkspace := mkBillingWorkspace {
  bw_billing_enabled : bool;
  bw_billing_account_id : option string;
}.

Inductive WalletKind := top_up | task_charge.
#[export] Instance WalletKind_eq_dec : EqDecision WalletKind.
Proof. solve_decision. Defined.

Record WalletTransaction := mkWalletTransaction {
  wt_workspace_id : string;
  wt_kind : WalletKind;
  wt_amount_usd_cents : Z;
  wt_run_id : option string;
  wt_task_ref : option string;
  wt_description : string;
  wt_created_at : Z;
}.

(** A row of [stripe_events]; the table is kept by its unique [event_id]. *)
Record StripeEvent := mkStripeEvent {
  se_event_type : string;
  se_workspace_id : option string;
  se_amount_usd_cents : option Z;
}.

Inductive BillingPlan := trial | starter | growth | enterprise.
#[export] Instance BillingPlan_eq_dec : EqDecision BillingPlan.
Proof. solve_decision. Defined.

Record BillingAccount := mkBillingAccount {
  ba_name : string;
  ba_plan : BillingPlan;
  ba_stripe_customer_id : option string;
  ba_stripe_subscription_id : option string;
  ba_subscription_status : option string;
  ba_current_period_end : option Z;
  ba_trial_ends_at : Z;
  ba_policy_overrides : json;
  ba_created_at : Z;
  ba_updated_at : Z;
}.

Record BillingDb := mkBillingDb {
  b_workspaces : gmap string BillingWorkspace;
  wallet : gmap string WalletTransaction;
  stripe_events : gmap string StripeEvent;
  billing_accounts : gmap string BillingAccount;
}.
Definition with_wallet (t : gmap string WalletTransaction) (d : BillingDb) : BillingDb :=
  mkBillingDb (b_workspaces d) t (stripe_events d) (billing_accounts d).
Definition with_events (t : gmap string StripeEvent) (d : BillingDb) : BillingDb :=
  mkBillingDb (b_workspaces d) (wallet d) t (billing_accounts d).
Definition with_accounts (t : gmap string BillingAccount) (d : BillingDb) : BillingDb :=
  mkBillingDb (b_workspaces d) (wallet d) (stripe_events d) t.
Definition with_b_workspaces (t : gmap string BillingWorkspace) (d : BillingDb) : BillingDb :=
  mkBillingDb t (wallet d) (stripe_events d) (billing_accounts d).

(** ** The wallet *)

Definition isBillingEnabled (workspaceId : string) (d : BillingDb) : bool :=
  match b_workspaces d !! workspaceId with Some w => bw_billing_enabled w | None => false end.

Definition of_workspace (workspaceId : string) (_ : string) (r : WalletTransaction) : bool :=
  wt_workspace_id r ≡? workspaceId.

(** The sum, and the read with its cast; [None] is out of range. *)
Definition balance (workspaceId : string) (d : BillingDb) : Z :=
  sum_where wt_amount_usd_cents (of_workspace workspaceId) (wallet d).
Definition getWalletBalanceCents (workspaceId : string) (d : BillingDb) : option Z :=
  let b := balance workspaceId d in if int4 b then Some b else None.

(** The partial unique index on the run id of charges. *)
Definition charge_of (runId : string) (_ : string) (r : WalletTransaction) : bool :=
  sql_eq (wt_run_id r) runId && (wt_kind r ≡? task_charge).
Definition charge_conflict (r : WalletTransaction) (t : gmap string WalletTransaction) : bool :=
  match wt_kind r, wt_run_id r with
  | task_charge, Some run => bool_decide (select_where (charge_of run) t ≠ [])
  | _, _ => false
  end.

(** An INSERT into [wallet_transactions]; [None] is the exception: a used id,
    an unknown workspace, an amount out of range, a second charge of a run. *)
Definition insert_wallet (fresh : string) (r : WalletTransaction) (d : BillingDb) : option BillingDb :=
  if negb (int4 (wt_amount_usd_cents r)) || negb (is_null (wallet d !! fresh))
     || is_null (b_workspaces d !! wt_workspace_id r) || charge_conflict r (wallet d)
  then None
  else Some (with_wallet (<[fresh := r]> (wallet d)) d).

Record WalletInput := mkWalletInput {
  wi_workspaceId : string;
  wi_walletKind : WalletKind;
  wi_amountUsdCents : Z;
  wi_runId : option string;
  wi_taskRef : option string;
  wi_description : option string;
}.
Definition recordWalletTransaction (now : Z) (fresh : string) (i : WalletInput) (d : BillingDb)
    : option WalletTransaction * BillingDb :=
  let r := mkWalletTransaction (wi_workspaceId i) (wi_walletKind i) (wi_amountUsdCents i) (wi_runId i)
             (wi_taskRef i) (default EmptyString (wi_description i)) now in
  match insert_wallet fresh r d with Some d' => (Some r, d') | None => (None, d) end.

(** [ORDER BY created_at DESC LIMIT limit] *)
Definition listWalletTransactions (workspaceId : string) (limit : nat) (d : BillingDb)
    : list (string * WalletTransaction) :=
  order_limit (λ r, - wt_created_at r) limit (select_where (of_workspace workspaceId) (wallet d)).

(** [estimateUsd] is [None] when it is not finite; the result is [None] when
    the balance read throws. *)
Definition walletCanAdmit (workspaceId : string) (estimateUsd : option Q) (d : BillingDb)
    : option bool :=
  match estimateUsd with
  | None => Some true
  | Some usd =>
      if Qle_bool usd 0 then Some true else
      let estimateCents := usdToCents usd in
      (λ balanceCents, estimateCents <=? balanceCents) <$> getWalletBalanceCents workspaceId d
  end.

(** In dollars; the queue's column is modelled in cents. *)
Definition peekNextClaimEstimateUsd (workspaceId : string) (t : gmap string QueueEntry) : option Q :=
  match oldest qe_created_at
          (select_where (λ _ e, (qe_workspace_id e ≡? workspaceId) && (qe_state e ≡? queued)) t) with
  | Some (_, e) => (λ cents, (inject_Z cents / 100)%Q) <$> qe_estimated_budget_usd e
  | None => None
  end.

(** The wallet block of the claim route: whether the claim goes ahead. *)
Definition wallet_admission (workspaceId : string) (t : gmap string QueueEntry) (d : BillingDb) : bool :=
  if isBillingEnabled workspaceId d then
    match peekNextClaimEstimateUsd workspaceId t with
    | None => true
    | Some usd => default true (walletCanAdmit workspaceId (Some usd) d)
    end
  else true.

Record ChargeInput := mkChargeInput {
  ch_charge_workspaceId : string;
  ch_runId : string;
  ch_taskRef : option string;
  ch_actualTokenCostCents : Q;
  ch_description : option string;
}.

(** [(charged, amountUsdCents, priceCents)] *)
Definition chargeCompletedTask (now : Z) (fresh : string) (i : ChargeInput) (d : BillingDb)
    : option (bool * Z * Z) * BillingDb :=
  let priceCents := taskPriceCents (ch_actualTokenCostCents i) in
  let amountUsdCents := - priceCents in
  let description := default
    (match ch_taskRef i with
     | None | Some EmptyString => "Task completed"
     | Some ref => "Task completed: " +:+ ref
     end) (ch_description i) in
  let r := mkWalletTransaction (ch_charge_workspaceId i) task_charge amountUsdCents (Some (ch_runId i))
             (ch_taskRef i) description now in
  if negb (int4 amountUsdCents) then (None, d) else
  if charge_conflict r (wallet d) then (Some (false, amountUsdCents, priceCents), d) else
  match insert_wallet fresh r d with
  | Some d' => (Some (true, amountUsdCents, priceCents), d')
  | None => (None, d)
  end.

(** ** Stripe events *)

Record CreditInput := mkCreditInput {
  cr_eventId : string;
  cr_eventType : string;
  cr_workspaceId : string;
  cr_amountUsdCents : Z;
  cr_description : option string;
}.

(** The transaction: an amount no integer column holds throws at its first
    insert, and an exception of the second rolls the first back. *)
Definition creditTopUpForStripeEvent (now : Z) (fresh : string) (i : CreditInput) (d : BillingDb)
    : option (option WalletTransaction) * BillingDb :=
  if negb (int4 (cr_amountUsdCents i)) then (None, d) else
  match stripe_events d !! cr_eventId i with
  | Some _ => (Some None, d)
  | None =>
      let d1 := with_events (<[cr_eventId i := mkStripeEvent (cr_eventType i) (Some (cr_workspaceId i))
                                 (Some (cr_amountUsdCents i))]> (stripe_events d)) d in
      let r := mkWalletTransaction (cr_workspaceId i) top_up (cr_amountUsdCents i) None None
                 (default "Top-up" (cr_description i)) now in
      match insert_wallet fresh r d1 with
      | None => (None, d)
      | Some d2 =>
          (Some (Some r),
           with_b_workspaces (update_row (cr_workspaceId i) (λ w, negb (bw_billing_enabled w))
             (λ w, mkBillingWorkspace true (bw_billing_account_id w)) (b_workspaces d2)).2 d2)
      end
  end.

(** The insert of an event without workspace or amount. *)
Definition insert_event (eventId eventType : string) (d : BillingDb) : bool * BillingDb :=
  let '(fresh, t) := insert_new eventId (mkStripeEvent eventType None None) (stripe_events d) in
  (fresh, with_events t d).
Definition recordIgnoredStripeEvent (eventId eventType : string) (d : BillingDb) : bool * BillingDb :=
  insert_event eventId eventType d.
Definition hasProcessedStripeEvent (eventId : string) (d : BillingDb) : bool :=
  negb (is_null (stripe_events d !! eventId)).

Record SubscriptionInput := mkSubscriptionInput {
  su_eventId : string;
  su_eventType : string;
  su_billingAccountId : string;
  su_plan : BillingPlan;
  su_subscriptionStatus : string;
  su_stripeSubscriptionId : option string;
  su_currentPeriodEnd : option Z;
}.
Definition set_subscription (now : Z) (i : SubscriptionInput) (a : BillingAccount) : BillingAccount :=
  mkBillingAccount (ba_name a) (su_plan i) (ba_stripe_customer_id a) (su_stripeSubscriptionId i)
    (Some (su_subscriptionStatus i)) (su_currentPeriodEnd i) (ba_trial_ends_at a)
    (ba_policy_overrides a) (ba_created_at a) now.
Definition set_past_due (now : Z) (a : BillingAccount) : BillingAccount :=
  mkBillingAccount (ba_name a) (ba_plan a) (ba_stripe_customer_id a) (ba_stripe_subscription_id a)
    (Some "past_due") (ba_current_period_end a) (ba_trial_ends_at a) (ba_policy_overrides a)
    (ba_created_at a) now.
Definition set_customer (c : string) (now : Z) (a : BillingAccount) : BillingAccount :=
  mkBillingAccount (ba_name a) (ba_plan a) (Some c) (ba_stripe_subscription_id a)
    (ba_subscription_status a) (ba_current_period_end a) (ba_trial_ends_at a)
    (ba_policy_overrides a) (ba_created_at a) now.

Definition applySubscriptionStateForStripeEvent (now : Z) (i : SubscriptionInput) (d : BillingDb)
    : bool * BillingDb :=
  match insert_event (su_eventId i) (su_eventType i) d with
  | (false, d1) => (false, d1)
  | (true, d1) => (true, with_accounts (update_row (su_billingAccountId i) (λ _, true)
                          (set_subscription now i) (billing_accounts d1)).2 d1)
  end.
Definition recordPastDueForStripeEvent (now : Z) (eventId eventType billingAccountId : string)
    (d : BillingDb) : bool * BillingDb :=
  match insert_event eventId eventType d with
  | (false, d1) => (false, d1)
  | (true, d1) => (true, with_accounts (update_row billingAccountId (λ _, true)
                          (set_past_due now) (billing_accounts d1)).2 d1)
  end.

(** ** Billing accounts *)

Definition bindStripeCustomer (now : Z) (billingAccountId stripeCustomerId : string) (d : BillingDb)
    : BillingDb :=
  with_accounts (update_row billingAccountId (λ a, is_null (ba_stripe_customer_id a))
    (set_customer stripeCustomerId now) (billing_accounts d)).2 d.

Definition getBillingAccountIdForWorkspace (workspaceId : string) (d : BillingDb) : option string :=
  w ← b_workspaces d !! workspaceId;
  id ← bw_billing_account_id w;
  _ ← billing_accounts d !! id;
  Some id.
Definition getBillingAccountForWorkspace (workspaceId : string) (d : BillingDb)
    : option (string * BillingAccount) :=
  id ← getBillingAccountIdForWorkspace workspaceId d;
  a ← billing_accounts d !! id;
  Some (id, a).
Definition listAccountWorkspaceIds (billingAccountId : string) (d : BillingDb) : list string :=
  (select_where (λ _ w, sql_eq (bw_billing_account_id w) billingAccountId) (b_workspaces d)).*1.
Definition getBillingAccountByStripeCustomerId (stripeCustomerId : string) (d : BillingDb)
    : option (string * BillingAccount) :=
  head (select_where (λ _ a, sql_eq (ba_stripe_customer_id a) stripeCustomerId) (billing_accounts d)).

(** ** Histories and their receipts *)

Inductive bill_op :=
  | b_credit (now : Z) (fresh : string) (i : CreditInput)
  | b_ignored (eventId eventType : string)
  | b_subscribe (now : Z) (i : SubscriptionInput)
  | b_past_due (now : Z) (eventId eventType account : string)
  | b_charge (now : Z) (fresh : string) (i : ChargeInput)
  | b_bind (now : Z) (account customer : string).

(** What a call reports having posted: a credit of an event, a charge of a run. *)
Inductive receipt :=
  | rc_credit (eventId workspaceId : string) (cents : Z)
  | rc_charge (runId workspaceId : string) (cents : Z).

Definition exec_bill (o : bill_op) (d : BillingDb) : list receipt * BillingDb :=
  match o with
  | b_credit now fresh i =>
      match creditTopUpForStripeEvent now fresh i d with
      | (Some (Some r), d') => ([rc_credit (cr_eventId i) (wt_workspace_id r) (wt_amount_usd_cents r)], d')
      | (_, d') => ([], d')
      end
  | b_ignored e ty => ([], (recordIgnoredStripeEvent e ty d).2)
  | b_subscribe now i => ([], (applySubscriptionStateForStripeEvent now i d).2)
  | b_past_due now e ty a => ([], (recordPastDueForStripeEvent now e ty a d).2)
  | b_charge now fresh i =>
      match chargeCompletedTask now fresh i d with
      | (Some (true, amount, _), d') => ([rc_charge (ch_runId i) (ch_charge_workspaceId i) (- amount)], d')
      | (_, d') => ([], d')
      end
  | b_bind now a c => ([], bindStripeCustomer now a c d)
  end.
Fixpoint exec_bills (os : list bill_op) (d : BillingDb) : list receipt * BillingDb :=
  match os with
  | [] => ([], d)
  | o :: os' =>
      let '(r, d1) := exec_bill o d in
      let '(rs, d2) := exec_bills os' d1 in (r ++ rs, d2)
  end.

(** What the receipts say a workspace gained or paid, and for what. *)
Definition net_of (ws : string) (r : receipt) : Z :=
  match r with
  | rc_credit _ w c => if w ≡? ws then c else 0
  | rc_charge _ w c => if w ≡? ws then - c else 0
  end.
Definition net (ws : string) (rs : list receipt) : Z := foldr Z.add 0 (net_of ws <$> rs).
Definition credited (rs : list receipt) : list string :=
  omap (λ r, match r with rc_credit e _ _ => Some e | _ => None end) rs.
Definition charged_runs (rs : list receipt) : list string :=
  omap (λ r, match r with rc_charge k _ _ => Some k | _ => None end) rs.

Lemma net_app ws rs rs' : net ws (rs ++ rs') = net ws rs + net ws rs'.
Proof.
  unfold net. rewrite fmap_app, foldr_app. generalize (foldr Z.add 0 (net_of ws <$> rs')). intros z.
  induction (net_of ws <$> rs) as [|x l IH]; simpl; lia.
Qed.

(** A run that has been charged, and an event that has been seen, stay so. *)
Definition is_charged (run : string) (d : BillingDb) : Prop :=
  ∃ k r, wallet d !! k = Some r ∧ wt_run_id r = Some run ∧ wt_kind r = task_charge.
Definition is_seen (e : string) (d : BillingDb) : Prop := is_Some (stripe_events d !! e).

Lemma insert_wallet_Some fresh r d d' :
  insert_wallet fresh r d = Some d' →
  wallet d !! fresh = None ∧ charge_conflict r (wallet d) = false
  ∧ is_Some (b_workspaces d !! wt_workspace_id r)
  ∧ d' = with_wallet (<[fresh := r]> (wallet d)) d.
Proof.
  unfold insert_wallet. destruct (negb _ || _ || _ || _) eqn:E; [done|]. intros [= <-]. bools.
  split_and!; try done.
  - by destruct (wallet d !! fresh).
  - by destruct (b_workspaces d !! wt_workspace_id r).
Qed.

Lemma charge_conflict_iff run r d :
  wt_kind r = task_charge → wt_run_id r = Some run →
  charge_conflict r (wallet d) = false ↔ ¬ is_charged run d.
Proof.
  intros Hk Hr. unfold charge_conflict. rewrite Hk, Hr, bool_decide_eq_false. split.
  - intros Hn (k & r' & Hw & Hr' & Hk'). apply Hn. intros Hnil.
    apply (not_elem_of_nil (k, r')). rewrite <- Hnil. apply elem_of_select_where. split; [done|].
    unfold charge_of, sql_eq. by rewrite !bool_decide_eq_true_2.
  - intros Hn Hne. destruct (select_where (charge_of run) (wallet d)) as [|[k r'] l] eqn:E; [done|].
    apply Hn. assert ((k, r') ∈ select_where (charge_of run) (wallet d)) as Hin by (rewrite E; set_solver).
    apply elem_of_select_where in Hin as [Hw Hp]. unfold charge_of, sql_eq in Hp. bools. by exists k, r'.
Qed.

(** The effect of one operation on the ledger and the event table. *)
Inductive bill_spec (d : BillingDb) : list receipt → BillingDb → Prop :=
| bs_none d' : wallet d' = wallet d → stripe_events d ⊆ stripe_events d' → bill_spec d [] d'
| bs_credit e ws c fresh r d' :
    ¬ is_seen e d → is_seen e d' → stripe_events d ⊆ stripe_events d' → wallet d !! fresh = None →
    wallet d' = <[fresh := r]> (wallet d) → wt_kind r = top_up →
    wt_workspace_id r = ws → wt_amount_usd_cents r = c → bill_spec d [rc_credit e ws c] d'
| bs_charge run ws c fresh r d' :
    ¬ is_charged run d → stripe_events d' = stripe_events d → wallet d !! fresh = None →
    wallet d' = <[fresh := r]> (wallet d) → wt_kind r = task_charge → wt_run_id r = Some run →
    wt_workspace_id r = ws → wt_amount_usd_cents r = - c → bill_spec d [rc_charge run ws c] d'.

Lemma insert_event_spec e ty d :
  wallet (insert_event e ty d).2 = wallet d ∧ stripe_events d ⊆ stripe_events (insert_event e ty d).2.
Proof.
  unfold insert_event, insert_new. destruct (stripe_events d !! e) eqn:E; simpl; [done|].
  split; [done|]. by apply insert_subseteq.
Qed.

Lemma exec_billP o d : bill_spec d (exec_bill o d).1 (exec_bill o d).2.
Proof.
  destruct o as [now fresh i|e ty|now i|now e ty a|now fresh i|now a c]; simpl.
  - unfold creditTopUpForStripeEvent. destruct (negb (int4 _)); [by apply bs_none|].
    destruct (stripe_events d !! cr_eventId i) eqn:He; simpl;
      [by apply bs_none|].
    destruct (insert_wallet fresh _ _) as [d2|] eqn:Hi; simpl; [|by apply bs_none].
    apply insert_wallet_Some in Hi as (Hf & _ & _ & ->). eapply bs_credit; try done; simpl.
    + unfold is_seen. rewrite He. by intros [? ?].
    + unfold is_seen. simpl. by rewrite lookup_insert_eq.
    + by apply insert_subseteq.
  - apply bs_none; apply insert_event_spec.
  - unfold applySubscriptionStateForStripeEvent.
    assert (H := insert_event_spec (su_eventId i) (su_eventType i) d).
    destruct (insert_event _ _ _) as [[] d1]; simpl in *; apply bs_none; apply H.
  - unfold recordPastDueForStripeEvent. assert (H := insert_event_spec e ty d).
    destruct (insert_event _ _ _) as [[] d1]; simpl in *; apply bs_none; apply H.
  - unfold chargeCompletedTask. destruct (negb (int4 _)); [by apply bs_none|].
    destruct (charge_conflict _ _) eqn:Hc; [by apply bs_none|].
    destruct (insert_wallet fresh _ _) as [d2|] eqn:Hi; simpl; [|by apply bs_none].
    apply insert_wallet_Some in Hi as (Hf & _ & _ & ->).
    eapply bs_charge; try done; simpl; [|lia]. by eapply charge_conflict_iff, Hc.
  - by apply bs_none.
Qed.

Lemma bill_balance d rs d' ws : bill_spec d rs d' → balance ws d' = balance ws d + net ws rs.
Proof.
  unfold balance, net. intros [d1 Hw _|e w c fresh r d1 _ _ _ Hf Hw _ Hr Hc|run w c fresh r d1 _ _ Hf Hw _ _ Hr Hc];
    rewrite Hw; [simpl; lia|..]; rewrite sum_where_insert by done; unfold of_workspace at 1;
    rewrite Hr, Hc; simpl; destruct (bool_decide (w = ws)); simpl; lia.
Qed.

Lemma bill_mono d rs d' :
  bill_spec d rs d' →
  (∀ e, is_seen e d → is_seen e d') ∧ (∀ run, is_charged run d → is_charged run d').
Proof.
  assert (Hkeep : ∀ fresh r d1, wallet d !! fresh = None → wallet d1 = <[fresh := r]> (wallet d) →
    ∀ run, is_charged run d → is_charged run d1).
  { intros fresh r d1 Hf Hw run (k & r0 & Hk & H). exists k, r0. split; [|done].
    rewrite Hw, lookup_insert_ne; [done|]. congruence. }
  intros [d1 Hw Hs|e w c fresh r d1 _ _ Hs Hf Hw _ _ _|run w c fresh r d1 _ Hs Hf Hw _ _ _ _]; split.
  - intros e [v Hv]. exists v. by eapply lookup_weaken.
  - intros run (k & r & Hk & H). exists k, r. by rewrite Hw.
  - intros e' [v Hv]. exists v. by eapply lookup_weaken.
  - by eapply Hkeep.
  - intros e. unfold is_seen. by rewrite Hs.
  - by eapply Hkeep.
Qed.

Lemma exec_bill_mono o d :
  (∀ e, is_seen e d → is_seen e (exec_bill o d).2) ∧ (∀ run, is_charged run d → is_charged run (exec_bill o d).2).
Proof. apply (bill_mono d _ _ (exec_billP o d)). Qed.

Lemma exec_bills_seen os d e : is_seen e d → is_seen e (exec_bills os d).2.
Proof.
  revert d. induction os as [|o os IH]; intros d He; simpl; [done|].
  apply (exec_bill_mono o d) in He. destruct (exec_bill o d) as [r d1]. specialize (IH d1 He).
  by destruct (exec_bills os d1).
Qed.

(** What has been posted is not posted again. *)
Lemma not_posted_again os d :
  (∀ e, is_seen e d → e ∉ credited (exec_bills os d).1)
  ∧ (∀ run, is_charged run d → run ∉ charged_runs (exec_bills os d).1).
Proof.
  revert d. induction os as [|o os IH]; intros d; simpl; [split; intros; set_solver|].
  assert (Hm := exec_bill_mono o d). assert (Hp := exec_billP o d).
  destruct (exec_bill o d) as [r d1]. specialize (IH d1).
  destruct (exec_bills os d1) as [rs d2]. simpl in *.
  destruct IH as [IHe IHr], Hm as [He Hr]. unfold credited, charged_runs in *.
  split; [intros e Hseen|intros run Hch]; rewrite omap_app; apply not_elem_of_app; split; auto.
  - destruct Hp; simpl; rewrite ?list_elem_of_singleton; set_solver.
  - destruct Hp; simpl; rewrite ?list_elem_of_singleton; set_solver.
Qed.

(** C39 (functional).  Every cent is accounted for, and nothing is posted
    twice.  Over any sequence of webhook deliveries and task completions -
    redelivered, reordered or failing - each workspace's balance moves by
    exactly the credits minus the charges the calls reported; no Stripe event
    is credited twice and no run is charged twice. *)
Theorem wallet_accounting os d ws :
  let '(rs, d') := exec_bills os d in
  balance ws d' = balance ws d + net ws rs ∧ NoDup (credited rs) ∧ NoDup (charged_runs rs).
Proof.
  revert d. induction os as [|o os IH]; intros d; simpl.
  { unfold net. simpl. split_and!; [lia|constructor..]. }
  assert (Hp := exec_billP o d). destruct (exec_bill o d) as [r d1]. simpl in Hp.
  assert (Hn := not_posted_again os d1). specialize (IH d1).
  destruct (exec_bills os d1) as [rs d2]. simpl in *. destruct IH as (Hb & Hc & Hr).
  rewrite net_app, Hb, (bill_balance _ _ _ ws Hp). split; [lia|].
  unfold credited, charged_runs in *. rewrite !omap_app.
  destruct Hp as [d1 _ _|e w c fresh r d1 _ He _ _ _ _ _ _|run w c fresh r d1 _ _ Hf Hw Hk Hrun _ _];
    simpl; split; try done; constructor; try done.
  - by apply Hn.
  - apply Hn. exists fresh, r. by rewrite Hw, lookup_insert_eq.
Qed.

(** A Stripe event is processed once, whichever handler saw it
    first: from then on every handler answers that it is a duplicate and leaves
    the wallet, the accounts and the event log as they are (a credit whose
    amount no integer column holds throws before it is compared). *)
Theorem stripe_event_once os d e :
  is_seen e d →
  let d' := (exec_bills os d).2 in
  hasProcessedStripeEvent e d' = true
  ∧ (∀ now fresh i, cr_eventId i = e → int4 (cr_amountUsdCents i) = true →
       creditTopUpForStripeEvent now fresh i d' = (Some None, d'))
  ∧ (∀ ty, recordIgnoredStripeEvent e ty d' = (false, d'))
  ∧ (∀ now i, su_eventId i = e → applySubscriptionStateForStripeEvent now i d' = (false, d'))
  ∧ (∀ now ty a, recordPastDueForStripeEvent now e ty a d' = (false, d')).
Proof.
  intros He%(exec_bills_seen os) d'. fold d' in He. destruct He as [v Hv]. destruct d' as [w t s a].
  simpl in Hv.
  unfold hasProcessedStripeEvent, creditTopUpForStripeEvent, recordIgnoredStripeEvent,
    applySubscriptionStateForStripeEvent, recordPastDueForStripeEvent, insert_event, insert_new.
  simpl. rewrite Hv. split_and!; try done; [|intros now; intros; subst; simpl; by rewrite Hv..].
  intros now fresh i <- ->. simpl. by rewrite Hv.
Qed.

(** ** Admission *)

Lemma usdToCents_of_cents (c : Z) : usdToCents (inject_Z c / 100)%Q = c.
Proof.
  unfold usdToCents, math_round. assert ((inject_Z c / 100 * 100 + (1 # 2)) == inject_Z c + (1 # 2))%Q as ->.
  { field. }
  apply (math_round_Z c).
Qed.

(** The wallet admission of the claim route, exactly: with
    billing on, when the oldest queued entry of the workspace carries a positive
    estimate and the balance is a number the database can return, the claim
    goes ahead if and only if the balance covers the estimate to the cent. *)
Theorem wallet_admission_exact ws t d k e c :
  isBillingEnabled ws d = true →
  oldest qe_created_at
    (select_where (λ _ e, (qe_workspace_id e ≡? ws) && (qe_state e ≡? queued)) t) = Some (k, e) →
  qe_estimated_budget_usd e = Some c → 0 < c → int4 (balance ws d) = true →
  wallet_admission ws t d = true ↔ c ≤ balance ws d.
Proof.
  intros Hb Ho Hc Hpos Hi. unfold wallet_admission, peekNextClaimEstimateUsd, walletCanAdmit,
    getWalletBalanceCents. rewrite Hb, Ho, Hc, Hi. simpl.
  destruct (Qle_bool (inject_Z c / 100) 0) eqn:Hle.
  { exfalso. apply Qle_bool_iff in Hle. unfold Qle, inject_Z, Qdiv, Qmult in Hle. simpl in Hle. lia. }
  simpl. rewrite usdToCents_of_cents. apply Z.leb_le.
Qed.

(** ** Concrete histories *)

Definition funded : BillingDb :=
  mkBillingDb {[ "ws" := mkBillingWorkspace false None ]} ∅ ∅ ∅.
Definition top_up_10 : CreditInput := mkCreditInput "evt_1" "checkout.session.completed" "ws" 1000 None.
Definition task_200 : ChargeInput := mkChargeInput "ws" "q1" (Some "acme/app#7") 200 None.

(** A delivery, its redelivery, a completion reported twice. *)
Definition billing_history : list bill_op :=
  [b_credit 0 "w1" top_up_10; b_credit 5 "w2" top_up_10; b_charge 9 "w3" task_200;
   b_charge 10 "w4" task_200].
Definition after_billing : BillingDb := (exec_bills billing_history funded).2.

Example billing_history_receipts :
  exec_bills billing_history funded
  = ([rc_credit "evt_1" "ws" 1000; rc_charge "q1" "ws" 350], after_billing)
  ∧ getWalletBalanceCents "ws" after_billing = Some 650 ∧ isBillingEnabled "ws" after_billing = true.
Proof. by vm_compute. Qed.

(** The comment of [taskPriceCents] says a negative token cost still yields at
    least the two flat amounts; it is subtracted from them, and a large enough
    one turns the charge into a credit. *)
Theorem price_below_flat_fees :
  taskPriceCents (-200) = -50
  ∧ (exec_bills [b_charge 9 "w3" (mkChargeInput "ws" "q1" None (-200) None)] funded).1
    = [rc_charge "q1" "ws" (-50)].
Proof. by vm_compute. Qed.

(** A queue whose oldest entry waits for its backoff: a cheap one created first
    and retried, and one that costs more than the balance. *)
Definition two_queued : QueueDb :=
  mkQueueDb {[ "ws" := mkWorkspace false true ]} []
    (list_to_map
       [("q1", mkQueueEntry "ws" None github "issue" "acme/app#1" "Cheap" "" 0 4 queued [] None
                 (Some 100) None None None (Some (seconds 900)) 0 0);
        ("q2", mkQueueEntry "ws" None github "issue" "acme/app#2" "Dear" "" 0 5 queued [] None
                 (Some 500000) None None None None 1 1)])
    ∅ [] ∅.

(** The admission looks at an entry the claim does not take: the wallet holds
    6.50 dollars, the gate prices the entry in backoff and opens, and the claim
    hands out the one estimated at 5,000. *)
Theorem admission_prices_another_entry :
  getWalletBalanceCents "ws" after_billing = Some 650
  ∧ wallet_admission "ws" (queue_entries two_queued) after_billing = true
  ∧ (λ w, (wi_id w, wi_estimated_budget_usd w)) <$> (claimQueueEntry 5 "repo" "ws" two_queued).1
    = Some ("q2", Some 500000).
Proof. by vm_compute. Qed.

Lemma stripe_event_once_witness :
  let d' := (exec_bills billing_history after_billing).2 in
  creditTopUpForStripeEvent 99 "w9" top_up_10 d' = (Some None, d').
Proof.
  assert (Hs : is_seen "evt_1" after_billing) by (eexists; vm_compute; reflexivity).
  destruct (stripe_event_once billing_history after_billing "evt_1" Hs) as (_ & H & _).
  apply (H 99 "w9" top_up_10); reflexivity.
Defined.

Lemma wallet_admission_exact_witness :
  wallet_admission "ws" (queue_entries two_queued) after_billing = true ↔ 100 ≤ balance "ws" after_billing.
Proof.
  eapply (wallet_admission_exact "ws" (queue_entries two_queued) after_billing); vm_compute; reflexivity.
Defined.
