(* ===== verification/Seats.v ===== *)
(** * Seats: who counts against a plan

    [queries/seats.ts] and the seat counts of [queries/billing_accounts.ts]: a
    seat is one person on a billing account, claimed by a console user or by a
    chat identity not yet linked to one, released softly, and collapsed when the
    identity is linked. *)

From S2P Require Import Prelude Table.
Open Scope Z_scope.

(** Exactly one of the two columns of the table is set. *)
Inductive SeatSubject := subject_user (userId : string) | subject_identity (chatIdentityId : string).
#[export] Instance SeatSubject_eq_dec : EqDecision SeatSubject.
Proof. solve_decision. Defined.

Record Seat := mkSeat {
  st_billing_account_id : string;
  st_user_id : option string;
  st_chat_identity_id : option string;
  st_claimed_via : string;
  st_claimed_at : Z;
  st_released_at : option Z;
}.
Notation seats := (gmap string Seat).

Definition set_released (now : Z) (r : Seat) : Seat :=
  mkSeat (st_billing_account_id r) (st_user_id r) (st_chat_identity_id r) (st_claimed_via r)
    (st_claimed_at r) (Some now).
Definition new_seat (now : Z) (billingAccountId : string) (s : SeatSubject) (claimedVia : string) : Seat :=
  match s with
  | subject_user u => mkSeat billingAccountId (Some u) None claimedVia now None
  | subject_identity c => mkSeat billingAccountId None (Some c) claimedVia now None
  end.

Definition active (r : Seat) : bool := is_null (st_released_at r).
(** [user_id = ...] or [chat_identity_id = ...] *)
Definition holds (s : SeatSubject) (r : Seat) : bool :=
  match s with
  | subject_user u => sql_eq (st_user_id r) u
  | subject_identity c => sql_eq (st_chat_identity_id r) c
  end.
Definition active_seat (billingAccountId : string) (s : SeatSubject) (_ : string) (r : Seat) : bool :=
  (st_billing_account_id r ≡? billingAccountId) && active r && holds s r.

Definition hasActiveSeat (billingAccountId : string) (s : SeatSubject) (t : seats) : bool :=
  bool_decide (select_where (active_seat billingAccountId s) t ≠ []).

(** The INSERT on the partial unique index; [None] is a used id. *)
Definition claimSeat (now : Z) (fresh billingAccountId : string) (s : SeatSubject) (claimedVia : string)
    (t : seats) : option seats :=
  if hasActiveSeat billingAccountId s t then Some t else
  match insert_new fresh (new_seat now billingAccountId s claimedVia) t with
  | (true, t') => Some t'
  | (false, _) => None
  end.

Definition releaseSeat (now : Z) (seatId : string) (t : seats) : seats :=
  (update_row seatId active (set_released now) t).2.
Definition release_subject (now : Z) (billingAccountId : string) (s : SeatSubject) (t : seats) : seats :=
  update_where (active_seat billingAccountId s) (set_released now) t.
Definition releaseUserSeatForAccount (now : Z) (billingAccountId userId : string) (t : seats) : seats :=
  release_subject now billingAccountId (subject_user userId) t.

(** The loop of the collapse; [fresh] is the id generated for an account. *)
Fixpoint collapse_loop (now : Z) (fresh : string → string) (identity userId : string)
    (accounts : list string) (t : seats) : option seats :=
  match accounts with
  | [] => Some t
  | a :: rest =>
      match claimSeat now (fresh a) a (subject_user userId) "console" t with
      | None => None
      | Some t1 =>
          collapse_loop now fresh identity userId rest
            (release_subject now a (subject_identity identity) t1)
      end
  end.
Definition accounts_of (identity : string) (t : seats) : list string :=
  (λ kr, st_billing_account_id kr.2)
    <$> select_where (λ _ r, active r && holds (subject_identity identity) r) t.
(** One transaction: an exception leaves the table as it was. *)
Definition collapseIdentitySeatsForUser (now : Z) (fresh : string → string) (identity userId : string)
    (t : seats) : option seats :=
  collapse_loop now fresh identity userId (accounts_of identity t) t.

Definition counted (billingAccountId : string) (_ : string) (r : Seat) : bool :=
  (st_billing_account_id r ≡? billingAccountId) && active r.
Definition countActiveSeats (billingAccountId : string) (t : seats) : Z :=
  Z.of_nat (count_where (counted billingAccountId) t).
Definition countActiveIdentitySeats (billingAccountId : string) (t : seats) : Z :=
  Z.of_nat (count_where (λ k r, counted billingAccountId k r && negb (is_null (st_chat_identity_id r))) t).
Definition getSeatAccountId (seatId : string) (t : seats) : option string :=
  st_billing_account_id <$> t !! seatId.

(** The label of a holder, from the joined columns. *)
Inductive HolderKind := kind_user | kind_identity.
Definition deriveSeatHolder (r : Seat) (user_name user_email identity_display_name : option string)
    (identity_platform : string) : HolderKind * string :=
  match st_user_id r with
  | Some _ => (kind_user, default "Unknown member" (coalesce user_name user_email))
  | None =>
      (kind_identity,
       match identity_display_name with
       | None | Some EmptyString => "Unknown (" +:+ identity_platform +:+ ")"
       | Some n => n +:+ " (" +:+ identity_platform +:+ ")"
       end)
  end.

(** ** One active seat per person and account *)

Notation holding := (λ r : Seat, st_released_at r = None).
Notation holder := (λ r : Seat, (st_billing_account_id r, st_user_id r, st_chat_identity_id r)).

(** The check constraint and the two partial unique indexes. *)
Definition seats_inv (t : seats) : Prop :=
  map_Forall (λ _ r, is_null (st_user_id r) ≠ is_null (st_chat_identity_id r)) t
  ∧ exclusive holding holder t.

Inductive seat_op :=
  | so_claim (now : Z) (fresh account : string) (s : SeatSubject) (via : string)
  | so_release (now : Z) (id : string)
  | so_release_user (now : Z) (account userId : string)
  | so_collapse (now : Z) (fresh : string → string) (identity userId : string).
Definition exec_seat (o : seat_op) (t : seats) : seats :=
  match o with
  | so_claim now fresh a s via => default t (claimSeat now fresh a s via t)
  | so_release now id => releaseSeat now id t
  | so_release_user now a u => releaseUserSeatForAccount now a u t
  | so_collapse now fresh c u => default t (collapseIdentitySeatsForUser now fresh c u t)
  end.
Definition exec_seats (os : list seat_op) (t : seats) : seats := foldl (λ t o, exec_seat o t) t os.

(** A row held by a subject, under the check constraint. *)
Definition subject_of (s : SeatSubject) : option string * option string :=
  match s with subject_user u => (Some u, None) | subject_identity c => (None, Some c) end.
Lemma holds_iff s r :
  is_null (st_user_id r) ≠ is_null (st_chat_identity_id r) →
  holds s r = true ↔ (st_user_id r, st_chat_identity_id r) = subject_of s.
Proof.
  unfold holds, sql_eq. destruct s; rewrite bool_decide_eq_true;
    destruct (st_user_id r), (st_chat_identity_id r); simpl; naive_solver.
Qed.
Lemma holds_new now a s via : holds s (new_seat now a s via) = true.
Proof. destruct s; simpl; unfold sql_eq; by rewrite bool_decide_eq_true_2. Qed.

Lemma active_seat_iff t a s k r :
  seats_inv t → t !! k = Some r →
  active_seat a s k r = true ↔ st_released_at r = None ∧ holder r = (a, (subject_of s).1, (subject_of s).2).
Proof.
  intros [Hx _] Hk. unfold active_seat, active. rewrite !andb_true_iff, (holds_iff _ _ (Hx k r Hk)).
  rewrite bool_decide_eq_true. destruct (st_released_at r), (subject_of s); simpl; naive_solver.
Qed.

Lemma hasActiveSeat_iff a s t :
  hasActiveSeat a s t = true ↔ ∃ k r, t !! k = Some r ∧ active_seat a s k r = true.
Proof. apply selects_iff. Qed.

Lemma claimSeat_inv now fresh a s via t t' :
  seats_inv t → claimSeat now fresh a s via t = Some t' → seats_inv t'.
Proof.
  intros Hi. unfold claimSeat, insert_new. destruct (hasActiveSeat a s t) eqn:Hh; [by intros [= <-]|].
  destruct (t !! fresh); [done|]. intros [= <-]. split.
  - apply map_Forall_insert_2; [by destruct s|apply Hi].
  - apply exclusive_start; [apply Hi|]. intros k r Hk Hb Hg.
    assert (hasActiveSeat a s t = true); [|congruence]. apply hasActiveSeat_iff. exists k, r. split; [done|].
    apply (active_seat_iff t a s k r Hi Hk). split; [done|]. rewrite Hg. by destruct s.
Qed.

Lemma release_inv p now t : seats_inv t → seats_inv (update_where p (set_released now) t).
Proof.
  intros [Hx He]. split.
  - eapply Forall_update_where; [exact Hx|by intros|by intros].
  - eapply exclusive_no_start, He. by apply no_start_update_where.
Qed.

Lemma collapse_inv now fresh c u l t t' :
  seats_inv t → collapse_loop now fresh c u l t = Some t' → seats_inv t'.
Proof.
  revert t. induction l as [|a l IH]; intros t Hi; simpl; [by intros [= <-]|].
  destruct (claimSeat _ _ _ _ _ t) as [t1|] eqn:E; [|done]. apply IH.
  apply release_inv. by eapply claimSeat_inv.
Qed.

(** One seat per person: through any sequence of claims,
    releases, member removals and links, a billing account has at most one
    active seat of a user and one of a chat identity, and every seat belongs to
    exactly one of the two. *)
Theorem one_seat_per_person os t : seats_inv t → seats_inv (exec_seats os t).
Proof.
  revert t. induction os as [|o os IH]; intros t Hi; [done|]. apply IH. clear IH.
  destruct o as [now fresh a s via|now id|now a u|now fresh c u]; simpl.
  - destruct (claimSeat now fresh a s via t) eqn:E; [|done]. by eapply claimSeat_inv.
  - destruct Hi as [Hx He]. split; [by apply Forall_update_row|].
    eapply exclusive_no_start, He. by apply no_start_update_row.
  - by apply release_inv.
  - destruct (collapseIdentitySeatsForUser now fresh c u t) eqn:E; [|done]. by eapply collapse_inv.
Qed.

(** ** The collapse *)

Definition this (a b : string) (s s' : SeatSubject) : bool := (b ≡? a) && (s' ≡? s).

Lemma subject_of_inj s s' : subject_of s = subject_of s' → s = s'.
Proof. destruct s, s'; simpl; congruence. Qed.

(** What a claim changes: the subject holds a seat, and the account has one
    more unless it held one already. *)
Lemma claimSeat_effect now fresh a s via t t' :
  seats_inv t → claimSeat now fresh a s via t = Some t' →
  (∀ b s', hasActiveSeat b s' t' = hasActiveSeat b s' t || this a b s s')
  ∧ ∀ b, countActiveSeats b t' = countActiveSeats b t + Z.b2z ((b ≡? a) && negb (hasActiveSeat a s t)).
Proof.
  intros Hi Hc. assert (Hi' := claimSeat_inv _ _ _ _ _ _ _ Hi Hc). revert Hc.
  unfold claimSeat, insert_new. destruct (hasActiveSeat a s t) eqn:Hh.
  - intros [= <-]. split; [|intros b; rewrite andb_false_r; simpl; lia].
    intros b s'. unfold this. repeat case_bool_decide; subst; simpl; rewrite ?orb_false_r; try done.
    by rewrite Hh.
  - destruct (t !! fresh) eqn:Hf; [done|]. intros [= <-]. split.
    + intros b s'. apply bool_iff. rewrite orb_true_iff, !hasActiveSeat_iff. unfold this.
      rewrite andb_true_iff, !bool_decide_eq_true. split.
      * intros (k & r & Hk & Ha). destruct (decide (k = fresh)) as [->|Hne].
        -- right. apply (active_seat_iff _ b s' _ _ Hi' Hk) in Ha as [_ Hg].
           rewrite lookup_insert_eq in Hk. injection Hk as <-. destruct s, s'; simpl in Hg; naive_solver.
        -- left. rewrite lookup_insert_ne in Hk by done. by exists k, r.
      * intros [(k & r & Hk & Ha)|[-> ->]].
        -- exists k, r. rewrite lookup_insert_ne; [done|]. congruence.
        -- exists fresh, (new_seat now a s via). rewrite lookup_insert_eq. split; [done|].
           unfold active_seat. rewrite holds_new. destruct s; simpl; by rewrite bool_decide_eq_true_2.
    + intros b. unfold countActiveSeats. rewrite count_where_insert by done. unfold counted at 1.
      rewrite andb_true_r. destruct (decide (b = a)) as [->|Hne].
      * rewrite bool_decide_eq_true_2 by by destruct s.
        rewrite bool_decide_eq_true_2 by done. destruct s; simpl; lia.
      * rewrite bool_decide_eq_false_2 by (destruct s; simpl; congruence).
        rewrite bool_decide_eq_false_2 by done. simpl. lia.
Qed.

(** What a release changes: the subject holds nothing in the account, the
    other seats are as they were. *)
Lemma release_subject_holders now a s t b s' :
  seats_inv t →
  hasActiveSeat b s' (release_subject now a s t) = hasActiveSeat b s' t && negb (this a b s s').
Proof.
  intros Hi. apply bool_iff. rewrite andb_true_iff, !hasActiveSeat_iff.
  assert (Hi' := release_inv (active_seat a s) now t Hi). fold (release_subject now a s t) in Hi'.
  split.
  - intros (k & r & Hk & Ha). apply (active_seat_iff _ b s' _ _ Hi' Hk) in Ha.
    unfold release_subject in Hk. rewrite lookup_update_where in Hk.
    destruct (t !! k) as [r0|] eqn:H0; [|done]. simpl in Hk. injection Hk as <-.
    destruct (active_seat a s k r0) eqn:Hact; [by destruct Ha|].
    split; [exists k, r0; split; [done|]; by apply (active_seat_iff t b s' k r0 Hi H0)|].
    unfold this. apply negb_true_iff, not_true_iff_false. rewrite andb_true_iff, !bool_decide_eq_true.
    intros [-> ->]. apply (active_seat_iff t a s k r0 Hi H0) in Ha. congruence.
  - intros [(k & r & Hk & Ha) Hn]. exists k, r. split; [|done]. apply update_where_skips; [done|].
    apply not_true_iff_false. intros Hact.
    apply (active_seat_iff t b s' k r Hi Hk) in Ha as [_ Ha].
    apply (active_seat_iff t a s k r Hi Hk) in Hact as [_ Hact]. rewrite Ha in Hact.
    unfold this in Hn. apply negb_true_iff, not_true_iff_false in Hn. apply Hn.
    injection Hact as -> H1 H2. rewrite (subject_of_inj s' s); [by rewrite !bool_decide_eq_true_2|].
    destruct (subject_of s'), (subject_of s). simpl in *. congruence.
Qed.

(** It writes one row at most. *)
Lemma release_subject_row now a s t k r :
  seats_inv t → t !! k = Some r → active_seat a s k r = true →
  release_subject now a s t = <[k := set_released now r]> t.
Proof.
  intros Hi Hk Ha. apply map_eq. intros k'. unfold release_subject. rewrite lookup_update_where.
  destruct (decide (k = k')) as [<-|Hne]; [rewrite lookup_insert_eq, Hk; simpl; by rewrite Ha|].
  rewrite lookup_insert_ne by done. destruct (t !! k') as [r'|] eqn:Hk'; [|done]. simpl.
  destruct (active_seat a s k' r') eqn:Ha'; [|done]. exfalso. apply Hne.
  apply (active_seat_iff t a s k r Hi Hk) in Ha as [Hr Ha].
  apply (active_seat_iff t a s k' r' Hi Hk') in Ha' as [Hr' Ha'].
  apply (proj2 Hi k k' r r' Hk Hk' Hr Hr'). by rewrite Ha, Ha'.
Qed.

Lemma release_subject_count now a s t b :
  seats_inv t →
  countActiveSeats b (release_subject now a s t)
  = countActiveSeats b t - Z.b2z ((b ≡? a) && hasActiveSeat a s t).
Proof.
  intros Hi. destruct (hasActiveSeat a s t) eqn:Hh.
  - apply hasActiveSeat_iff in Hh as (k & r & Hk & Ha).
    rewrite (release_subject_row now a s t k r Hi Hk Ha).
    apply (active_seat_iff t a s k r Hi Hk) in Ha as [Hr Ha]. injection Ha as Hb _ _.
    unfold countActiveSeats. destruct (decide (b = a)) as [->|Hne].
    + rewrite (count_where_drop (counted a) t k r (set_released now r) Hk).
      * rewrite bool_decide_eq_true_2 by done. cbn [andb Z.b2z]. lia.
      * unfold counted, active. by rewrite Hb, Hr, bool_decide_eq_true_2.
      * unfold counted. by rewrite andb_false_r.
    + rewrite (bool_decide_eq_false_2 (b = a)) by done. cbn [andb Z.b2z].
      rewrite (count_where_same (counted b) t k r); [lia|done|].
      unfold counted. simpl. by rewrite bool_decide_eq_false_2 by congruence.
  - rewrite andb_false_r. simpl. rewrite Z.sub_0_r. unfold release_subject.
    rewrite update_where_id; [done|]. intros k r Hk. apply not_true_iff_false. intros Ha.
    assert (hasActiveSeat a s t = true); [|congruence]. apply hasActiveSeat_iff. by exists k, r.
Qed.

(** The loop, over any accounts without repetition. *)
Lemma collapse_loop_effect now fresh c u l t t' :
  seats_inv t → NoDup l → collapse_loop now fresh c u l t = Some t' →
  (∀ b s, hasActiveSeat b s t'
      = if bool_decide (b ∈ l) then
          if s ≡? subject_identity c then false else (s ≡? subject_user u) || hasActiveSeat b s t
        else hasActiveSeat b s t)
  ∧ ∀ b, countActiveSeats b t' = countActiveSeats b t
      + (if bool_decide (b ∈ l)
         then Z.b2z (negb (hasActiveSeat b (subject_user u) t)) - Z.b2z (hasActiveSeat b (subject_identity c) t)
         else 0).
Proof.
  revert t. induction l as [|a l IH]; intros t Hi; simpl.
  { intros _ [= <-]. split; [done|]. intros b. rewrite Z.add_0_r. done. }
  intros [Ha Hnd]%NoDup_cons. destruct (claimSeat _ _ _ _ _ t) as [t1|] eqn:E; [|done].
  assert (Hi1 := claimSeat_inv _ _ _ _ _ _ _ Hi E). destruct (claimSeat_effect _ _ _ _ _ _ _ Hi E) as [H1 C1].
  set (t2 := release_subject now a (subject_identity c) t1). intros Hl.
  destruct (IH t2 (release_inv _ _ _ Hi1) Hnd Hl) as [H2 C2].
  assert (Hrel := λ b s, release_subject_holders now a (subject_identity c) t1 b s Hi1).
  assert (Crel := λ b, release_subject_count now a (subject_identity c) t1 b Hi1).
  fold t2 in Hrel, Crel. unfold this in *.
  split; intros b; [intros s; rewrite H2, Hrel, H1|rewrite C2, !Hrel, Crel, C1, !H1];
    destruct (decide (b = a)) as [->|Hne].
  - rewrite (bool_decide_eq_false_2 (a ∈ l)), (bool_decide_eq_true_2 (a ∈ a :: l)) by set_solver.
    rewrite (bool_decide_eq_true_2 (a = a)) by done. simpl.
    destruct (bool_decide (s = subject_identity c)); simpl; [by rewrite andb_false_r|].
    by rewrite andb_true_r, orb_comm.
  - rewrite (bool_decide_ext (b ∈ a :: l) (b ∈ l)) by set_solver.
    rewrite (bool_decide_eq_false_2 (b = a)) by done. simpl. by rewrite orb_false_r, andb_true_r.
  - rewrite (bool_decide_eq_false_2 (a ∈ l)), (bool_decide_eq_true_2 (a ∈ a :: l)) by set_solver.
    rewrite !(bool_decide_eq_true_2 (a = a)) by done.
    rewrite (bool_decide_eq_false_2 (subject_identity c = subject_user u)) by done. simpl.
    rewrite orb_false_r. lia.
  - rewrite (bool_decide_ext (b ∈ a :: l) (b ∈ l)) by set_solver.
    rewrite (bool_decide_eq_false_2 (b = a)) by done. simpl. rewrite !orb_false_r, !andb_true_r. lia.
Qed.

Lemma accounts_of_spec c t :
  seats_inv t →
  NoDup (accounts_of c t) ∧ ∀ b, b ∈ accounts_of c t ↔ hasActiveSeat b (subject_identity c) t = true.
Proof.
  intros Hi. split.
  - unfold accounts_of. set (p := λ (_ : string) r, active r && holds (subject_identity c) r).
    assert (Hk := selected_keys_NoDup p t).
    assert (Hin : ∀ kr, kr ∈ select_where p t → t !! kr.1 = Some kr.2 ∧ p kr.1 kr.2 = true).
    { intros [k r]. apply elem_of_select_where. }
    revert Hk Hin. induction (select_where p t) as [|[k r] l IH]; simpl; intros Hk Hin; [constructor|].
    apply NoDup_cons in Hk as [Hk Hl]. constructor; [|by apply IH; [|set_solver]].
    intros ([k' r'] & Heq & H')%list_elem_of_fmap. simpl in Heq. apply Hk. apply list_elem_of_fmap.
    exists (k', r'). split; [|done]. simpl.
    destruct (Hin (k, r)) as [Hk0 Hp]; [set_solver|]. destruct (Hin (k', r')) as [Hk1 Hp']; [set_solver|].
    simpl in *. subst p. simpl in Hp, Hp'.
    assert (Hseat : ∀ k0 r0, t !! k0 = Some r0 → active r0 && holds (subject_identity c) r0 = true →
      st_released_at r0 = None ∧ holder r0 = (st_billing_account_id r0, None, Some c)).
    { intros k0 r0 H0 Hp0. apply (active_seat_iff t (st_billing_account_id r0) (subject_identity c) k0 r0 Hi H0).
      unfold active_seat. by rewrite bool_decide_eq_true_2. }
    destruct (Hseat k r Hk0 Hp) as [Hr Hh], (Hseat k' r' Hk1 Hp') as [Hr' Hh'].
    apply (proj2 Hi k k' r r' Hk0 Hk1 Hr Hr'). by rewrite Hh, Hh', Heq.
  - intros b. unfold accounts_of. rewrite list_elem_of_fmap, hasActiveSeat_iff. split.
    + intros ([k r] & -> & [Hk Hp]%elem_of_select_where). exists k, r. split; [done|].
      unfold active_seat. simpl. by rewrite bool_decide_eq_true_2.
    + intros (k & r & Hk & Ha). unfold active_seat in Ha. rewrite <- andb_assoc in Ha.
      apply andb_true_iff in Ha as [Hb Ha]. apply bool_decide_eq_true in Hb as <-. exists (k, r).
      split; [reflexivity|]. apply elem_of_select_where. split; [exact Hk|]. exact Ha.
Qed.

(** Linking an identity collapses two seats into one: in
    every account where the identity held a seat it holds none any more, and the
    user it was linked to holds one; nobody else's seat changes; and the number
    of active seats stays the same, less one where the user had a seat of their
    own - capacity is freed, and never taken. *)
Theorem collapse_frees_capacity now fresh c u t t' :
  seats_inv t → collapseIdentitySeatsForUser now fresh c u t = Some t' →
  ∀ b, hasActiveSeat b (subject_identity c) t' = false
    ∧ hasActiveSeat b (subject_user u) t'
      = hasActiveSeat b (subject_user u) t || hasActiveSeat b (subject_identity c) t
    ∧ (∀ s, s ≠ subject_identity c → s ≠ subject_user u → hasActiveSeat b s t' = hasActiveSeat b s t)
    ∧ countActiveSeats b t' = countActiveSeats b t
      - Z.b2z (hasActiveSeat b (subject_user u) t && hasActiveSeat b (subject_identity c) t).
Proof.
  intros Hi Hc b. destruct (accounts_of_spec c t Hi) as [Hnd Hin].
  destruct (collapse_loop_effect _ _ _ _ _ _ _ Hi Hnd Hc) as [Hh Hn]. rewrite !Hh, Hn.
  specialize (Hin b). destruct (decide (b ∈ accounts_of c t)) as [H|H].
  - rewrite !(bool_decide_eq_true_2 (b ∈ _)) by done. rewrite (proj1 Hin H).
    split_and!; [by rewrite bool_decide_eq_true_2|
      rewrite (bool_decide_eq_false_2 (subject_user u = subject_identity c)) by done;
      rewrite (bool_decide_eq_true_2 (subject_user u = subject_user u)) by done; by rewrite orb_true_r| |].
    + intros s H1 H2. rewrite Hh, (bool_decide_eq_true_2 (b ∈ _)) by done. by rewrite !bool_decide_eq_false_2.
    + destruct (hasActiveSeat b (subject_user u) t); simpl; lia.
  - rewrite !(bool_decide_eq_false_2 (b ∈ _)) by done.
    assert (hasActiveSeat b (subject_identity c) t = false) as ->.
    { apply not_true_iff_false. by rewrite <- Hin. }
    rewrite orb_false_r, andb_false_r. simpl. split_and!; [done..| |lia].
    intros s _ _. by rewrite Hh, (bool_decide_eq_false_2 (b ∈ _)).
Qed.

(** ** The hypotheses are met

    An identity that chatted before it was linked, and the user it is linked to,
    both on a plan; a second account where only the identity is seated. *)
Definition two_seats : seats :=
  exec_seats [so_claim 1 "s1" "acme" (subject_identity "slack-U1") "slack";
              so_claim 2 "s2" "acme" (subject_user "u1") "console";
              so_claim 3 "s3" "beta" (subject_identity "slack-U1") "slack"] ∅.
Definition linked_seats : seats := exec_seat (so_collapse 9 (λ a, "n-" +:+ a) "slack-U1" "u1") two_seats.

Lemma seats_inv_empty : seats_inv ∅.
Proof. split; [apply map_Forall_empty|by intros ????]. Qed.
Lemma two_seats_inv : seats_inv two_seats.
Proof.
  assert (Hc : ∀ now f a s via t, seats_inv t → seats_inv (exec_seat (so_claim now f a s via) t)).
  { intros now f a s via t Hi. simpl. destruct (claimSeat now f a s via t) eqn:E; [|done].
    by eapply claimSeat_inv. }
  unfold two_seats, exec_seats. simpl foldl. do 3 apply Hc. apply seats_inv_empty.
Qed.

Lemma one_seat_per_person_witness :
  seats_inv (exec_seats [so_claim 4 "s4" "acme" (subject_user "u1") "console"; so_release 5 "s1"] two_seats).
Proof. apply (one_seat_per_person _ two_seats). apply two_seats_inv. Defined.

Lemma collapse_frees_capacity_witness :
  countActiveSeats "acme" two_seats = 2 ∧ countActiveSeats "acme" linked_seats = 1
  ∧ countActiveSeats "beta" linked_seats = countActiveSeats "beta" two_seats.
Proof.
  assert (E : collapseIdentitySeatsForUser 9 (λ a, "n-" +:+ a) "slack-U1" "u1" two_seats = Some linked_seats).
  { vm_compute. reflexivity. }
  destruct (collapse_frees_capacity _ _ _ _ _ _ two_seats_inv E "acme") as (_ & _ & _ & Ha).
  destruct (collapse_frees_capacity _ _ _ _ _ _ two_seats_inv E "beta") as (_ & _ & _ & Hb).
  rewrite Ha, Hb. vm_compute. repeat split; reflexivity.
Defined.
