(* ===== verification/Goals.v ===== *)
(** * Goals: the leash and the stuck rule of the goal loop

    [queries/goal_rules.ts], the pure decision, and [queries/goals.ts], the
    table and audit trail around it, with the three routes under
    [app/api/v1/runner/goals].  A goal is pursued by filing issues and ends by
    reaching its check, by its leash, by being stuck, or by hand. *)

From S2P Require Import Prelude Table.
From Stdlib Require Import QArith Qround.
Open Scope Z_scope.

(** ** The rules *)

Inductive GoalStatus := goal_active | reached | leashed | paused | abandoned.
#[export] Instance GoalStatus_eq_dec : EqDecision GoalStatus.
Proof. solve_decision. Defined.

Inductive GoalOutcome := out_green | out_escalated_to_human | out_blocked.
#[export] Instance GoalOutcome_eq_dec : EqDecision GoalOutcome.
Proof. solve_decision. Defined.

Inductive GoalCheckType := metric | command.
#[export] Instance GoalCheckType_eq_dec : EqDecision GoalCheckType.
Proof. solve_decision. Defined.

Inductive GoalAction := act_refill | act_reached | act_escalate_leashed | act_escalate_stuck | act_noop.
#[export] Instance GoalAction_eq_dec : EqDecision GoalAction.
Proof. solve_decision. Defined.

(** The status as the reasons print it. *)
Definition goal_status_text (s : GoalStatus) : string :=
  match s with
  | goal_active => "active" | reached => "reached" | leashed => "leashed"
  | paused => "paused" | abandoned => "abandoned"
  end.

(** Dollar amounts of the table are kept in cents: the columns are
    numeric(10, 2). *)
Record GoalLeashState := mkGoalLeashState {
  gl_status : GoalStatus;
  gl_maxIssues : Z;
  gl_maxSpendCents : Z;
  gl_issuesFiled : Z;
  gl_spendCents : Z;
  gl_stuckThreshold : Z;
  gl_consecutiveNonGreen : Z;
  gl_checkType : GoalCheckType;
  gl_checkThreshold : option Z;
  gl_greenCount : Z;
}.

(** The cost of a run, in dollars. *)
Record GoalOutcomeEvent := mkGoalOutcomeEvent {
  oe_outcome : GoalOutcome;
  oe_costUsd : Q;
}.

Record GoalTransitionResult := mkGoalTransitionResult {
  tr_nextStatus : GoalStatus;
  tr_action : GoalAction;
  tr_reason : string;
  tr_issuesFiledAfter : Z;
  tr_spendCentsAfter : Z;
  tr_consecutiveNonGreenAfter : Z;
  tr_greenCountAfter : Z;
}.

(** [`${n}`] of an integer, and of a dollar amount held in cents. *)
Definition show_Z (z : Z) : string :=
  (if z <? 0 then "-" else "") +:+ show_N (Z.to_N (Z.abs z)).
Definition show_dollars (cents : Z) : string :=
  let a := Z.abs cents in
  let whole := show_N (Z.to_N (a / 100)) in
  let part := a mod 100 in
  (if cents <? 0 then "-" else "") +:+ whole
  +:+ (if part =? 0 then "" else
       if part mod 10 =? 0 then "." +:+ show_N (Z.to_N (part / 10)) else
       if part <? 10 then ".0" +:+ show_N (Z.to_N part) else "." +:+ show_N (Z.to_N part)).

(** [Math.max(0, costUsd)] *)
Definition max0 (q : Q) : Q := if Qle_bool 0 q then q else 0%Q.

(** [round2(spendUsd + Math.max(0, costUsd))], in cents *)
Definition spend_after (spendCents : Z) (costUsd : Q) : Z :=
  math_round (inject_Z spendCents + max0 costUsd * 100)%Q.

Definition decideGoalTransition (state : GoalLeashState) (event : GoalOutcomeEvent)
    : GoalTransitionResult :=
  let isGreen := oe_outcome event ≡? out_green in
  let spend := spend_after (gl_spendCents state) (oe_costUsd event) in
  let nonGreen := if isGreen then 0 else gl_consecutiveNonGreen state + 1 in
  let greens := if isGreen then gl_greenCount state + 1 else gl_greenCount state in
  let result next action reason :=
    mkGoalTransitionResult next action reason (gl_issuesFiled state) spend nonGreen greens in
  if gl_status state ≢? goal_active then
    mkGoalTransitionResult (gl_status state) act_noop
      ("goal is already '" +:+ goal_status_text (gl_status state)
         +:+ "'; no further transitions are possible")
      (gl_issuesFiled state) (gl_spendCents state) (gl_consecutiveNonGreen state) (gl_greenCount state)
  else
  let check_met :=
    match gl_checkThreshold state with
    | Some th => (gl_checkType state ≡? metric) && (th <=? greens)
    | None => false
    end in
  if check_met then
    result reached act_reached
      ("check reached: " +:+ show_Z greens +:+ "/" +:+ show_Z (default 0 (gl_checkThreshold state))
         +:+ " green outcomes")
  else if (gl_maxIssues state <=? gl_issuesFiled state) || (gl_maxSpendCents state <=? spend) then
    result leashed act_escalate_leashed
      (if gl_maxIssues state <=? gl_issuesFiled state
       then "leash exhausted: issues filed " +:+ show_Z (gl_issuesFiled state) +:+ "/"
              +:+ show_Z (gl_maxIssues state)
       else "leash exhausted: spend $" +:+ show_dollars spend +:+ "/$"
              +:+ show_dollars (gl_maxSpendCents state))
  else if gl_stuckThreshold state <=? nonGreen then
    result paused act_escalate_stuck
      ("stuck: " +:+ show_Z nonGreen +:+ " consecutive non-green outcomes (threshold "
         +:+ show_Z (gl_stuckThreshold state) +:+ ")")
  else
    result goal_active act_refill
      "goal still active; leash remains and the stuck threshold is not met".

Definition canFileNextIssue (state : GoalLeashState) : bool * string :=
  if gl_status state ≢? goal_active then
    (false, "goal is '" +:+ goal_status_text (gl_status state) +:+ "', not active")
  else if gl_maxIssues state <=? gl_issuesFiled state then
    (false, "leash exhausted: issues filed " +:+ show_Z (gl_issuesFiled state) +:+ "/"
              +:+ show_Z (gl_maxIssues state))
  else if gl_maxSpendCents state <=? gl_spendCents state then
    (false, "leash exhausted: spend $" +:+ show_dollars (gl_spendCents state) +:+ "/$"
              +:+ show_dollars (gl_maxSpendCents state))
  else (true, "leash remains").

(** ** The tables *)

Record Goal := mkGoal {
  go_workspace_id : string;
  go_repository_id : string;
  go_objective : string;
  go_slug : string;
  go_check_type : GoalCheckType;
  go_check_metric : option string;
  go_check_threshold : option Z;
  go_check_command : option string;
  go_status : GoalStatus;
  go_status_reason : option string;
  go_max_issues : Z;
  go_max_spend_cents : Z;
  go_issues_filed : Z;
  go_spend_cents : Z;
  go_stuck_threshold : Z;
  go_consecutive_non_green : Z;
  go_green_count : Z;
  go_created_by_eve_session_id : option string;
  go_created_at : Z;
  go_updated_at : Z;
}.

Inductive GoalEventType := issue_filed | outcome_recorded | status_changed.
#[export] Instance GoalEventType_eq_dec : EqDecision GoalEventType.
Proof. solve_decision. Defined.
Inductive GoalPayload :=
  | pl_empty
  | pl_reason (reason : string)
  | pl_change (from to : GoalStatus) (reason : string).

Record GoalEvent := mkGoalEvent {
  ge_goal_id : string;
  ge_workspace_id : string;
  ge_type : GoalEventType;
  ge_issue_external_id : option string;
  ge_outcome : option GoalOutcome;
  ge_cost_cents : option Z;
  ge_payload : GoalPayload;
  ge_created_at : Z;
}.

(** [goal_events] is append-only. *)
Record GoalDb := mkGoalDb {
  jace_goal_loop : gmap string bool;
  goals : gmap string Goal;
  goal_events : list GoalEvent;
}.
Definition goal_write (id : string) (g : Goal) (evs : list GoalEvent) (d : GoalDb) : GoalDb :=
  mkGoalDb (jace_goal_loop d) (<[id := g]> (goals d)) (goal_events d ++ evs).

(** A value of type numeric(10, 2), in cents; [None] is an overflow. *)
Definition numeric_10_2 (usd : Q) : option Z :=
  let c := numeric_cents usd in if Z.abs c <? 10 ^ 10 then Some c else None.

(** ** Operations *)

Definition isGoalLoopEnabled (workspaceId : string) (d : GoalDb) : bool :=
  default false (jace_goal_loop d !! workspaceId).

Record CreateGoalInput := mkCreateGoalInput {
  cg_workspaceId : string;
  cg_repositoryId : string;
  cg_objective : string;
  cg_slug : string;
  cg_checkType : option GoalCheckType;
  cg_checkMetric : option string;
  cg_checkThreshold : option Z;
  cg_checkCommand : option string;
  cg_maxIssues : option Z;
  cg_maxSpendUsd : option Q;
  cg_stuckThreshold : option Z;
  cg_createdByEveSessionId : option string;
}.
Definition createGoal (now : Z) (fresh : string) (i : CreateGoalInput) (d : GoalDb)
    : option Goal * GoalDb :=
  match numeric_10_2 (default 50%Q (cg_maxSpendUsd i)), goals d !! fresh with
  | Some maxSpend, None =>
      let g := mkGoal (cg_workspaceId i) (cg_repositoryId i) (cg_objective i) (cg_slug i)
                 (default metric (cg_checkType i)) (cg_checkMetric i) (cg_checkThreshold i)
                 (cg_checkCommand i) goal_active None (default 10 (cg_maxIssues i)) maxSpend 0 0
                 (default 2 (cg_stuckThreshold i)) 0 0 (cg_createdByEveSessionId i) now now in
      (Some g, goal_write fresh g [] d)
  | _, _ => (None, d)
  end.

Definition getGoalById (goalId : string) (d : GoalDb) : option Goal := goals d !! goalId.

Definition active_goal (workspaceId : string) (_ : string) (g : Goal) : bool :=
  (go_workspace_id g ≡? workspaceId) && (go_status g ≡? goal_active).
Definition listActiveGoalsForWorkspace (workspaceId : string) (d : GoalDb) : list (string * Goal) :=
  order_by (λ g, - go_created_at g) (select_where (active_goal workspaceId) (goals d)).
(** [(active, done)] *)
Definition listGoalsForWorkspace (workspaceId : string) (d : GoalDb)
    : list (string * Goal) * list (string * Goal) :=
  (listActiveGoalsForWorkspace workspaceId d,
   order_by (λ g, - go_updated_at g)
     (select_where (λ _ g, (go_workspace_id g ≡? workspaceId)
                           && bool_decide (go_status g ∈ [reached; leashed; paused; abandoned]))
        (goals d))).

Definition filed_event (workspaceId issueExternalId : string) (e : GoalEvent) : bool :=
  (ge_workspace_id e ≡? workspaceId) && (ge_type e ≡? issue_filed)
  && sql_eq (ge_issue_external_id e) issueExternalId.
Definition findActiveGoalForIssue (workspaceId issueExternalId : string) (d : GoalDb)
    : option (string * Goal) :=
  match newest ge_created_at
          (pair EmptyString <$> List.filter (filed_event workspaceId issueExternalId) (goal_events d)) with
  | None => None
  | Some (_, e) =>
      match getGoalById (ge_goal_id e) d with
      | Some g => if go_status g ≢? goal_active then None else Some (ge_goal_id e, g)
      | None => None
      end
  end.
Definition findActiveGoalBySlug (workspaceId slug : string) (d : GoalDb) : option (string * Goal) :=
  newest go_created_at
    (select_where (λ k g, active_goal workspaceId k g && (go_slug g ≡? slug)) (goals d)).

Definition leash_of (g : Goal) : GoalLeashState :=
  mkGoalLeashState (go_status g) (go_max_issues g) (go_max_spend_cents g) (go_issues_filed g)
    (go_spend_cents g) (go_stuck_threshold g) (go_consecutive_non_green g) (go_check_type g)
    (go_check_threshold g) (go_green_count g).

Definition set_issues_filed (n now : Z) (g : Goal) : Goal :=
  mkGoal (go_workspace_id g) (go_repository_id g) (go_objective g) (go_slug g) (go_check_type g)
    (go_check_metric g) (go_check_threshold g) (go_check_command g) (go_status g)
    (go_status_reason g) (go_max_issues g) (go_max_spend_cents g) n (go_spend_cents g)
    (go_stuck_threshold g) (go_consecutive_non_green g) (go_green_count g)
    (go_created_by_eve_session_id g) (go_created_at g) now.
Definition set_goal_status (s : GoalStatus) (reason : string) (now : Z) (g : Goal) : Goal :=
  mkGoal (go_workspace_id g) (go_repository_id g) (go_objective g) (go_slug g) (go_check_type g)
    (go_check_metric g) (go_check_threshold g) (go_check_command g) s (Some reason)
    (go_max_issues g) (go_max_spend_cents g) (go_issues_filed g) (go_spend_cents g)
    (go_stuck_threshold g) (go_consecutive_non_green g) (go_green_count g)
    (go_created_by_eve_session_id g) (go_created_at g) now.
Definition set_decision (r : GoalTransitionResult) (now : Z) (g : Goal) : Goal :=
  mkGoal (go_workspace_id g) (go_repository_id g) (go_objective g) (go_slug g) (go_check_type g)
    (go_check_metric g) (go_check_threshold g) (go_check_command g) (tr_nextStatus r)
    (Some (tr_reason r)) (go_max_issues g) (go_max_spend_cents g) (go_issues_filed g)
    (tr_spendCentsAfter r) (go_stuck_threshold g) (tr_consecutiveNonGreenAfter r)
    (tr_greenCountAfter r) (go_created_by_eve_session_id g) (go_created_at g) now.

Definition recordIssueFiled (now : Z) (goalId issueExternalId : string) (d : GoalDb) : GoalDb :=
  match goals d !! goalId with
  | None => d
  | Some g =>
      goal_write goalId (set_issues_filed (go_issues_filed g + 1) now g)
        [mkGoalEvent goalId (go_workspace_id g) issue_filed (Some issueExternalId) None None pl_empty now] d
  end.

(** The result of an evaluation; an exception is [None]. *)
Inductive RecordOutcomeResult :=
  | ror_unmatched
  | ror_matched (goal : Goal) (action : GoalAction) (reason : string).

(** The transaction, on the goal the lookup before it found. *)
Definition record_outcome_tx (now : Z) (goalId workspaceId issueExternalId : string)
    (outcome : GoalOutcome) (costUsd : Q) (d : GoalDb) : option RecordOutcomeResult * GoalDb :=
  match goals d !! goalId with
  | None => (Some ror_unmatched, d)
  | Some fresh =>
      let decision := decideGoalTransition (leash_of fresh) (mkGoalOutcomeEvent outcome costUsd) in
      match numeric_10_2 costUsd with
      | None => (None, d)
      | Some costCents =>
          if 10 ^ 10 <=? Z.abs (tr_spendCentsAfter decision) then (None, d) else
          let recorded := mkGoalEvent goalId workspaceId outcome_recorded (Some issueExternalId)
                            (Some outcome) (Some costCents) (pl_reason (tr_reason decision)) now in
          let changed := mkGoalEvent goalId workspaceId status_changed None None None
                           (pl_change (go_status fresh) (tr_nextStatus decision) (tr_reason decision)) now in
          (Some (ror_matched
                   (set_goal_status (tr_nextStatus decision) (tr_reason decision) (go_updated_at fresh) fresh)
                   (tr_action decision) (tr_reason decision)),
           goal_write goalId (set_decision decision now fresh)
             (if tr_nextStatus decision ≢? go_status fresh then [recorded; changed] else [recorded]) d)
      end
  end.

Record RecordOutcomeInput := mkRecordOutcomeInput {
  ro_workspaceId : string;
  ro_issueExternalId : string;
  ro_outcome : GoalOutcome;
  ro_costUsd : Q;
}.
Definition recordOutcomeAndTransition (now : Z) (i : RecordOutcomeInput) (d : GoalDb)
    : option RecordOutcomeResult * GoalDb :=
  match findActiveGoalForIssue (ro_workspaceId i) (ro_issueExternalId i) d with
  | None => (Some ror_unmatched, d)
  | Some (goalId, _) =>
      record_outcome_tx now goalId (ro_workspaceId i) (ro_issueExternalId i) (ro_outcome i) (ro_costUsd i) d
  end.

Definition goalCanFileNextIssue (goalId : string) (d : GoalDb) : bool * string :=
  match getGoalById goalId d with
  | None => (false, "goal not found")
  | Some g => canFileNextIssue (leash_of g)
  end.

Definition setGoalStatus (now : Z) (goalId : string) (s : GoalStatus) (reason : string) (d : GoalDb)
    : option Goal * GoalDb :=
  match goals d !! goalId with
  | None => (None, d)
  | Some g =>
      let g' := set_goal_status s reason now g in
      (Some g',
       goal_write goalId g'
         [mkGoalEvent goalId (go_workspace_id g) status_changed None None None
            (pl_change (go_status g) s reason) now] d)
  end.
Definition pauseGoal (now : Z) (goalId reason : string) := setGoalStatus now goalId paused reason.
Definition abandonGoal (now : Z) (goalId reason : string) := setGoalStatus now goalId abandoned reason.
Definition markGoalReached (now : Z) (goalId reason : string) := setGoalStatus now goalId reached reason.

(** ** The routes

    After authentication and the resolution of the session to a workspace. *)

Definition evaluate_route (now : Z) (i : RecordOutcomeInput) (d : GoalDb)
    : option RecordOutcomeResult * GoalDb :=
  if isGoalLoopEnabled (ro_workspaceId i) d then recordOutcomeAndTransition now i d
  else (Some ror_unmatched, d).

(** [(allow, goalId)] of the answer. *)
Definition file_check_route (workspaceId : option string) (slug : string) (d : GoalDb)
    : bool * option string :=
  match workspaceId with
  | None => (false, None)
  | Some w =>
      if negb (isGoalLoopEnabled w d) then (true, None) else
      match findActiveGoalBySlug w slug d with
      | None => (false, None)
      | Some (id, g) => ((canFileNextIssue (leash_of g)).1, Some id)
      end
  end.

(** ** Histories

    What the routes, the tool that files and the console do to the goals.
    [g_file] is a filing that asks first; [g_record] is the bookkeeping alone,
    which trusts its caller; [g_late_outcome] is the transaction of an outcome
    whose lookup ran before something else changed the goal. *)
Inductive goal_op :=
  | g_create (now : Z) (fresh : string) (i : CreateGoalInput)
  | g_file (now : Z) (goalId issue : string)
  | g_record (now : Z) (goalId issue : string)
  | g_outcome (now : Z) (i : RecordOutcomeInput)
  | g_late_outcome (now : Z) (goalId : string) (i : RecordOutcomeInput)
  | g_pause (now : Z) (goalId reason : string)
  | g_abandon (now : Z) (goalId reason : string)
  | g_reach (now : Z) (goalId reason : string).

(** The decisions taken, with the goal each was about. *)
Definition decided (goalId : string) (r : option RecordOutcomeResult) : list (string * GoalAction) :=
  match r with Some (ror_matched _ a _) => [(goalId, a)] | _ => [] end.
Definition exec_goal (o : goal_op) (d : GoalDb) : list (string * GoalAction) * GoalDb :=
  match o with
  | g_create now fresh i => ([], (createGoal now fresh i d).2)
  | g_file now k issue => ([], if (goalCanFileNextIssue k d).1 then recordIssueFiled now k issue d else d)
  | g_record now k issue => ([], recordIssueFiled now k issue d)
  | g_outcome now i =>
      let '(r, d') := evaluate_route now i d in
      (match findActiveGoalForIssue (ro_workspaceId i) (ro_issueExternalId i) d with
       | Some (k, _) => decided k r | None => [] end, d')
  | g_late_outcome now k i =>
      let '(r, d') := record_outcome_tx now k (ro_workspaceId i) (ro_issueExternalId i)
                        (ro_outcome i) (ro_costUsd i) d in
      (decided k r, d')
  | g_pause now k reason => ([], (pauseGoal now k reason d).2)
  | g_abandon now k reason => ([], (abandonGoal now k reason d).2)
  | g_reach now k reason => ([], (markGoalReached now k reason d).2)
  end.
Fixpoint exec_goals (os : list goal_op) (d : GoalDb) : list (string * GoalAction) * GoalDb :=
  match os with
  | [] => ([], d)
  | o :: os' =>
      let '(a, d1) := exec_goal o d in
      let '(as', d2) := exec_goals os' d1 in (a ++ as', d2)
  end.

(** ** Cents *)

Lemma math_round_shift (z : Z) (q : Q) : math_round (inject_Z z + q)%Q = z + math_round q.
Proof.
  unfold math_round. destruct q as [n d]. unfold Qfloor, Qplus, inject_Z. simpl.
  rewrite <- Z.div_add_l by lia. f_equal; lia.
Qed.
Lemma math_round_nonneg (q : Q) : (0 <= q)%Q → 0 ≤ math_round q.
Proof.
  intros H. unfold math_round. destruct q as [n d]. unfold Qle, Qplus, Qfloor in *. simpl in *.
  apply Z.div_pos; lia.
Qed.
Lemma max0_nonneg q : (0 <= max0 q)%Q.
Proof. unfold max0. destruct (Qle_bool 0 q) eqn:E; [by apply Qle_bool_iff|apply Qle_refl]. Qed.
Lemma max0_cents_nonneg q : (0 <= max0 q * 100)%Q.
Proof. apply Qmult_le_0_compat; [apply max0_nonneg|done]. Qed.

Lemma sign_cents q : Qle_bool 0 (q * 100) = Qle_bool 0 q.
Proof. destruct q as [n d]. apply Bool.eq_iff_eq_true. rewrite !Qle_bool_iff. unfold Qle. simpl. lia. Qed.

(** An outcome adds the positive part of what its audit row records. *)
Lemma spend_after_cents s q c : numeric_10_2 q = Some c → spend_after s q = s + Z.max 0 c.
Proof.
  unfold numeric_10_2, numeric_cents, spend_after, max0. rewrite math_round_shift, sign_cents.
  case_match; [|done]. intros [= <-]. destruct (Qle_bool 0 q) eqn:E.
  - rewrite Z.max_r; [done|]. apply math_round_nonneg. by rewrite <- Qle_bool_iff, sign_cents.
  - change (math_round (0 * 100)%Q) with 0. rewrite Z.max_l; [done|].
    assert (0 ≤ math_round (- (q * 100))); [|lia]. apply math_round_nonneg.
    rewrite <- sign_cents in E. destruct (Qlt_le_dec (q * 100) 0) as [Hq|Hq%Qle_bool_iff]; [|congruence].
    destruct q as [n d]. unfold Qlt, Qle in *. simpl in *. lia.
Qed.
Lemma spend_after_mono s q : s ≤ spend_after s q.
Proof.
  unfold spend_after. rewrite math_round_shift. assert (H := math_round_nonneg _ (max0_cents_nonneg q)). lia.
Qed.

(** ** What the rules decide *)

(** The counters of an active goal after an outcome. *)
Definition greens_after (s : GoalLeashState) (o : GoalOutcome) : Z :=
  if o ≡? out_green then gl_greenCount s + 1 else gl_greenCount s.
Definition misses_after (s : GoalLeashState) (o : GoalOutcome) : Z :=
  if o ≡? out_green then 0 else gl_consecutiveNonGreen s + 1.
Definition check_met (s : GoalLeashState) (o : GoalOutcome) : Prop :=
  gl_checkType s = metric ∧ ∃ th, gl_checkThreshold s = Some th ∧ th ≤ greens_after s o.
Definition leash_spent (s : GoalLeashState) (e : GoalOutcomeEvent) : Prop :=
  gl_maxIssues s ≤ gl_issuesFiled s ∨ gl_maxSpendCents s ≤ spend_after (gl_spendCents s) (oe_costUsd e).
Definition is_stuck (s : GoalLeashState) (o : GoalOutcome) : Prop :=
  gl_stuckThreshold s ≤ misses_after s o.

(** The decision, by cases; each action goes with one status. *)
Inductive decision_spec (s : GoalLeashState) (e : GoalOutcomeEvent) : GoalStatus → GoalAction → Prop :=
| ds_noop : gl_status s ≠ goal_active → decision_spec s e (gl_status s) act_noop
| ds_reached : gl_status s = goal_active → check_met s (oe_outcome e) →
    decision_spec s e reached act_reached
| ds_leashed : gl_status s = goal_active → ¬ check_met s (oe_outcome e) → leash_spent s e →
    decision_spec s e leashed act_escalate_leashed
| ds_stuck : gl_status s = goal_active → ¬ check_met s (oe_outcome e) → ¬ leash_spent s e →
    is_stuck s (oe_outcome e) → decision_spec s e paused act_escalate_stuck
| ds_refill : gl_status s = goal_active → ¬ check_met s (oe_outcome e) → ¬ leash_spent s e →
    ¬ is_stuck s (oe_outcome e) → decision_spec s e goal_active act_refill.

Lemma decideP s e :
  decision_spec s e (tr_nextStatus (decideGoalTransition s e)) (tr_action (decideGoalTransition s e)).
Proof.
  unfold decideGoalTransition. destruct (gl_status s ≢? goal_active) eqn:Ha; bools.
  { by apply ds_noop. }
  fold (misses_after s (oe_outcome e)). fold (greens_after s (oe_outcome e)).
  destruct (match gl_checkThreshold s with Some th => _ | None => false end) eqn:Hm.
  - simpl. apply ds_reached; [done|]. destruct (gl_checkThreshold s) as [th|] eqn:Ht; [|done]. bools.
    split; [done|]. by exists th.
  - assert (¬ check_met s (oe_outcome e)) as Hn.
    { intros (Hk & th & Ht & Hle). rewrite Ht, Hk, bool_decide_eq_true_2 in Hm by done. simpl in Hm.
      apply Z.leb_gt in Hm. lia. }
    destruct (_ || _) eqn:Hl; simpl.
    + apply ds_leashed; [done..|]. apply orb_true_iff in Hl as [Hl|Hl]; apply Z.leb_le in Hl; [by left|by right].
    + assert (¬ leash_spent s e) as Hn'. { bools. intros [|]; lia. }
      destruct (gl_stuckThreshold s <=? _) eqn:Hs; simpl; bools.
      * by apply ds_stuck.
      * apply ds_refill; [done..|]. unfold is_stuck. lia.
Qed.

(** The counters it returns. *)
Lemma decide_counters s e :
  let r := decideGoalTransition s e in
  if gl_status s ≡? goal_active then
    tr_spendCentsAfter r = spend_after (gl_spendCents s) (oe_costUsd e)
    ∧ tr_consecutiveNonGreenAfter r = misses_after s (oe_outcome e)
    ∧ tr_greenCountAfter r = greens_after s (oe_outcome e)
  else
    tr_nextStatus r = gl_status s ∧ tr_spendCentsAfter r = gl_spendCents s
    ∧ tr_consecutiveNonGreenAfter r = gl_consecutiveNonGreen s ∧ tr_greenCountAfter r = gl_greenCount s.
Proof.
  simpl. unfold decideGoalTransition. unfold misses_after, greens_after.
  case_bool_decide; simpl; [|done]. repeat case_match; done.
Qed.

(** ** The transaction of an outcome *)

(** It throws, finds no goal, or writes the decision and its audit row. *)
Inductive outcome_tx_spec (now : Z) (k : string) (i : RecordOutcomeInput) (d : GoalDb)
    : option RecordOutcomeResult * GoalDb → Prop :=
| ots_throws : outcome_tx_spec now k i d (None, d)
| ots_gone : goals d !! k = None → outcome_tx_spec now k i d (Some ror_unmatched, d)
| ots_decided g r c ev evs g' :
    goals d !! k = Some g →
    r = decideGoalTransition (leash_of g) (mkGoalOutcomeEvent (ro_outcome i) (ro_costUsd i)) →
    numeric_10_2 (ro_costUsd i) = Some c →
    ev = mkGoalEvent k (ro_workspaceId i) outcome_recorded (Some (ro_issueExternalId i))
           (Some (ro_outcome i)) (Some c) (pl_reason (tr_reason r)) now →
    (∀ e, e ∈ evs → ge_type e = status_changed ∧ ge_goal_id e = k) →
    outcome_tx_spec now k i d
      (Some (ror_matched g' (tr_action r) (tr_reason r)),
       goal_write k (set_decision r now g) (ev :: evs) d).

Lemma record_outcome_txP now k i d :
  outcome_tx_spec now k i d
    (record_outcome_tx now k (ro_workspaceId i) (ro_issueExternalId i) (ro_outcome i) (ro_costUsd i) d).
Proof.
  unfold record_outcome_tx. destruct (goals d !! k) as [g|] eqn:Hg; [|by constructor].
  destruct (numeric_10_2 (ro_costUsd i)) as [c|] eqn:Hc; [|constructor].
  destruct (_ <=? _); [constructor|].
  destruct (_ ≢? _); (eapply ots_decided; [exact Hg|reflexivity|exact Hc|reflexivity|]).
  - intros e ->%list_elem_of_singleton. done.
  - intros e He. by apply not_elem_of_nil in He.
Qed.

(** The lookup finds a goal that is active. *)
Lemma findActiveGoalForIssue_active w x d k g :
  findActiveGoalForIssue w x d = Some (k, g) → goals d !! k = Some g ∧ go_status g = goal_active.
Proof.
  unfold findActiveGoalForIssue, getGoalById. destruct (newest _ _) as [[? e]|]; [|done].
  destruct (goals d !! ge_goal_id e) as [g'|] eqn:Hg; [|done].
  destruct (go_status g' ≢? goal_active) eqn:Ha; [done|]. intros [= <- <-]. by bools.
Qed.

(** What one operation does: nothing, a new goal, a filing, an outcome, a
    status set by hand. *)
Inductive op_spec (late trusted : bool) (d : GoalDb) : list (string * GoalAction) → GoalDb → Prop :=
| os_none : op_spec late trusted d [] d
| os_create k g :
    goals d !! k = None → go_issues_filed g = 0 → go_spend_cents g = 0 → go_green_count g = 0 →
    op_spec late trusted d [] (goal_write k g [] d)
| os_filed now k g x :
    goals d !! k = Some g → (trusted = false → (canFileNextIssue (leash_of g)).1 = true) →
    op_spec late trusted d []
      (goal_write k (set_issues_filed (go_issues_filed g + 1) now g)
         [mkGoalEvent k (go_workspace_id g) issue_filed (Some x) None None pl_empty now] d)
| os_decided now k i g r c ev evs :
    goals d !! k = Some g → (late = false → go_status g = goal_active) →
    r = decideGoalTransition (leash_of g) (mkGoalOutcomeEvent (ro_outcome i) (ro_costUsd i)) →
    numeric_10_2 (ro_costUsd i) = Some c →
    ev = mkGoalEvent k (ro_workspaceId i) outcome_recorded (Some (ro_issueExternalId i))
           (Some (ro_outcome i)) (Some c) (pl_reason (tr_reason r)) now →
    (∀ e, e ∈ evs → ge_type e = status_changed ∧ ge_goal_id e = k) →
    op_spec late trusted d [(k, tr_action r)] (goal_write k (set_decision r now g) (ev :: evs) d)
| os_set now k g s reason ev :
    goals d !! k = Some g → s ≠ goal_active → ge_type ev = status_changed → ge_goal_id ev = k →
    op_spec late trusted d [] (goal_write k (set_goal_status s reason now g) [ev] d).

Definition is_late (o : goal_op) : bool := match o with g_late_outcome _ _ _ => true | _ => false end.
Definition is_trusted (o : goal_op) : bool := match o with g_record _ _ _ => true | _ => false end.

Lemma setGoalStatusP late trusted now k s reason d :
  s ≠ goal_active → op_spec late trusted d [] (setGoalStatus now k s reason d).2.
Proof.
  intros Hs. unfold setGoalStatus. destruct (goals d !! k) as [g|] eqn:Hg; simpl; [|constructor].
  by apply os_set.
Qed.
Lemma recordIssueFiledP late trusted now k x d :
  (trusted = false → (goalCanFileNextIssue k d).1 = true) →
  op_spec late trusted d [] (recordIssueFiled now k x d).
Proof.
  unfold recordIssueFiled, goalCanFileNextIssue, getGoalById.
  destruct (goals d !! k) as [g|] eqn:Hg; [|constructor]. intros Ht. by apply os_filed.
Qed.
Lemma txP (late trusted : bool) now k i d :
  (late = false → ∃ g, goals d !! k = Some g ∧ go_status g = goal_active) →
  let '(r, d') := record_outcome_tx now k (ro_workspaceId i) (ro_issueExternalId i) (ro_outcome i)
                    (ro_costUsd i) d in
  op_spec late trusted d (decided k r) d'.
Proof.
  intros Ha. destruct (record_outcome_txP now k i d) as [|Hg|g r c ev evs g' Hg Hr Hc Hev Hs]; simpl;
    [constructor..|]. eapply os_decided; [done| |done..].
  intros Hl. destruct (Ha Hl) as (g0 & Hg0 & Hs0). congruence.
Qed.

Lemma exec_goalP o d : op_spec (is_late o) (is_trusted o) d (exec_goal o d).1 (exec_goal o d).2.
Proof.
  destruct o as [now fresh i|now k x|now k x|now i|now k i|now k r|now k r|now k r]; simpl.
  - unfold createGoal. destruct (numeric_10_2 _); simpl; [|constructor].
    destruct (goals d !! fresh) eqn:Hf; simpl; [constructor|]. by apply os_create.
  - destruct (goalCanFileNextIssue k d).1 eqn:Hc; [by apply recordIssueFiledP|constructor].
  - by apply recordIssueFiledP.
  - unfold evaluate_route, recordOutcomeAndTransition. destruct (isGoalLoopEnabled _ _).
    + destruct (findActiveGoalForIssue _ _ d) as [[k g]|] eqn:Hf; simpl; [|constructor].
      apply findActiveGoalForIssue_active in Hf as [Hk Hs].
      assert (H := txP false false now k i d). destruct (record_outcome_tx _ _ _ _ _ _ _) as [r d'].
      apply H. intros _. by exists g.
    + destruct (findActiveGoalForIssue _ _ d) as [[k g]|]; simpl; constructor.
  - assert (H := txP true false now k i d). destruct (record_outcome_tx _ _ _ _ _ _ _) as [r d']. by apply H.
  - by apply setGoalStatusP.
  - by apply setGoalStatusP.
  - by apply setGoalStatusP.
Qed.

(** ** A goal that ended stays ended *)

(** How a goal may change: its terms never, its totals upwards only, and once
    it is not active it stays so, with what it spent and scored frozen. *)
Definition goal_grows (g g' : Goal) : Prop :=
  go_workspace_id g' = go_workspace_id g ∧ go_check_type g' = go_check_type g
  ∧ go_check_threshold g' = go_check_threshold g ∧ go_max_issues g' = go_max_issues g
  ∧ go_max_spend_cents g' = go_max_spend_cents g ∧ go_stuck_threshold g' = go_stuck_threshold g
  ∧ go_issues_filed g ≤ go_issues_filed g' ∧ go_spend_cents g ≤ go_spend_cents g'
  ∧ go_green_count g ≤ go_green_count g'
  ∧ (go_status g ≠ goal_active →
     go_status g' ≠ goal_active ∧ go_spend_cents g' = go_spend_cents g
     ∧ go_green_count g' = go_green_count g
     ∧ go_consecutive_non_green g' = go_consecutive_non_green g).
#[export] Instance goal_grows_preorder : PreOrder goal_grows.
Proof.
  split; [intros []; unfold goal_grows; simpl; naive_solver lia|].
  intros [] [] []; unfold goal_grows; simpl; naive_solver (congruence || lia).
Qed.

Lemma decision_grows now g i :
  goal_grows g (set_decision (decideGoalTransition (leash_of g) i) now g).
Proof.
  assert (H := decide_counters (leash_of g) i). simpl in H. unfold goal_grows. simpl.
  unfold greens_after in H. case_bool_decide as Ha; simpl in Ha.
  - destruct H as (-> & -> & ->). assert (Hs := spend_after_mono (go_spend_cents g) (oe_costUsd i)).
    simpl. split_and!; try done. by case_bool_decide; simpl; lia.
  - destruct H as (-> & -> & -> & ->). by split_and!.
Qed.

Lemma op_grows late trusted d a d' : op_spec late trusted d a d' → rows goal_grows (goals d) (goals d').
Proof.
  intros [|k g Hk _ _ _|now k g x Hk _|now k i g r c ev evs Hk _ -> _ _ _|now k g s reason ev Hk Hs _ _]; simpl.
  - reflexivity.
  - apply rows_insert_fresh; [apply _|done].
  - eapply rows_insert; [apply _|done|]. unfold goal_grows. simpl. split_and!; try done; lia.
  - eapply rows_insert; [apply _|done|]. apply decision_grows.
  - eapply rows_insert; [apply _|done|]. unfold goal_grows. by simpl; split_and!.
Qed.

(** No way back: through any history of filings, outcomes -
    late ones included - and console actions, a goal's terms never change, the
    issues it filed, what it spent and its green count only grow, and a goal
    that has ended never becomes active again and never spends or scores again. *)
Theorem goal_never_reopens os d : rows goal_grows (goals d) (goals (exec_goals os d).2).
Proof.
  revert d. induction os as [|o os IH]; intros d; simpl; [reflexivity|].
  assert (H := op_grows _ _ _ _ _ (exec_goalP o d)). destruct (exec_goal o d) as [a d1].
  specialize (IH d1). destruct (exec_goals os d1) as [as' d2]. simpl in *. by etrans.
Qed.

(** ** The leash *)

Definition within_leash (g : Goal) : Prop := go_issues_filed g ≤ Z.max 0 (go_max_issues g).

Lemma op_within_leash late d a d' :
  op_spec late false d a d' → map_Forall (λ _ g, within_leash g) (goals d) →
  map_Forall (λ _ g, within_leash g) (goals d').
Proof.
  intros [|k g Hk Hf _ _|now k g x Hk Hc|now k i g r c ev evs Hk _ _ _ _ _|now k g s reason ev Hk _ _ _] Hi;
    simpl; [done|apply map_Forall_insert_2; [|done]..]; unfold within_leash in *; simpl.
  - lia.
  - specialize (Hc eq_refl). unfold canFileNextIssue in Hc. simpl in Hc.
    destruct (_ ≢? _); [done|]. destruct (go_max_issues g <=? go_issues_filed g) eqn:Hl; [done|]. bools. lia.
  - apply (Hi k g Hk).
  - apply (Hi k g Hk).
Qed.

(** A refill leaves room under every bound. *)
Definition has_room (g : Goal) : Prop :=
  go_status g = goal_active ∧ go_issues_filed g < go_max_issues g
  ∧ go_spend_cents g < go_max_spend_cents g ∧ go_consecutive_non_green g < go_stuck_threshold g
  ∧ ∀ th, go_check_type g = metric → go_check_threshold g = Some th → go_green_count g < th.

Lemma refill_has_room now g e :
  tr_action (decideGoalTransition (leash_of g) e) = act_refill →
  has_room (set_decision (decideGoalTransition (leash_of g) e) now g).
Proof.
  intros Ha. assert (Hc := decide_counters (leash_of g) e). assert (Hd := decideP (leash_of g) e).
  unfold has_room. simpl. revert Hd Hc. rewrite Ha. remember (decideGoalTransition _ _) as r.
  intros Hd. inversion Hd as [| | | |Hs Hn Hl Hst E]; subst. rewrite bool_decide_eq_true_2 by done.
  intros (-> & -> & ->). unfold leash_spent, is_stuck, check_met in *. simpl in *. split_and!; try done; try lia.
  intros th Hm Ht. destruct (Z.lt_ge_cases (greens_after (leash_of g) (oe_outcome e)) th); [done|].
  destruct Hn. split; [done|]. by exists th.
Qed.

(** The leash holds: when every filing asks first, no history
    takes a goal past the number of issues it may file, and an outcome that asks
    for another issue leaves the goal under its leash, under the stuck threshold
    and short of its check. *)
Theorem goal_leash os d :
  Forall (λ o, is_trusted o = false) os → map_Forall (λ _ g, within_leash g) (goals d) →
  map_Forall (λ _ g, within_leash g) (goals (exec_goals os d).2)
  ∧ ∀ o k, let d' := (exec_goals os d).2 in
      (k, act_refill) ∈ (exec_goal o d').1 → ∃ g, goals (exec_goal o d').2 !! k = Some g ∧ has_room g.
Proof.
  intros Ht Hi. split.
  - revert d Hi. induction Ht as [|o os Ho _ IH]; intros d Hi; [done|]. simpl.
    assert (Hs := exec_goalP o d). rewrite Ho in Hs. destruct (exec_goal o d) as [a d1].
    specialize (IH d1 (op_within_leash _ _ _ _ Hs Hi)). by destruct (exec_goals os d1).
  - intros o k. simpl. generalize (exec_goals os d).2. intros d' Ha. destruct (exec_goalP o d')
      as [|k0 g Hk _ _ _|now k0 g x Hk _|now k0 i g r c ev evs Hk _ Hr _ _ _|now k0 g s reason ev Hk _ _ _];
      [by apply not_elem_of_nil in Ha..| |by apply not_elem_of_nil in Ha].
    apply list_elem_of_singleton in Ha. injection Ha as <- Ha. eexists. simpl. rewrite lookup_insert_eq.
    split; [done|]. rewrite Hr in Ha |- *. by apply refill_has_room.
Qed.

(** ** The loop ends *)

(** The refills a goal can still be granted: every green brings the check
    closer, and the misses between two greens stay under the stuck threshold. *)
Definition life (th : Z) (g : Goal) : Z :=
  if go_status g ≡? goal_active
  then (th - go_green_count g) * go_stuck_threshold g - go_consecutive_non_green g - 1 else 0.
Definition alive_ok (th : Z) (g : Goal) : Prop :=
  go_check_type g = metric ∧ go_check_threshold g = Some th
  ∧ (go_status g = goal_active →
     go_consecutive_non_green g < go_stuck_threshold g ∧ go_green_count g < th).
Definition refill_of (k : string) (ka : string * GoalAction) : bool := (ka.1 ≡? k) && (ka.2 ≡? act_refill).
Definition refills (k : string) (l : list (string * GoalAction)) : nat :=
  length (List.filter (refill_of k) l).

Lemma refills_app k l l' : refills k (l ++ l') = (refills k l + refills k l')%nat.
Proof. unfold refills. by rewrite List.filter_app, length_app. Qed.

Lemma life_nonneg th g : 0 ≤ go_consecutive_non_green g → alive_ok th g → 0 ≤ life th g.
Proof.
  intros Hc (_ & _ & Ha). unfold life. case_bool_decide as Hs; [|lia]. destruct (Ha Hs). nia.
Qed.

(** One outcome of a goal uses its life up. *)
Lemma decision_life th now g e :
  0 ≤ go_consecutive_non_green g → alive_ok th g →
  let r := decideGoalTransition (leash_of g) e in
  let g' := set_decision r now g in
  0 ≤ go_consecutive_non_green g' ∧ alive_ok th g'
  ∧ (if tr_action r ≡? act_refill then 1 else 0) + life th g' ≤ life th g.
Proof.
  intros Hc Ho. assert (Hl := life_nonneg th g Hc Ho). destruct Ho as (Hm & Ht & Ha). simpl.
  assert (Hcs := decide_counters (leash_of g) e). simpl in Hcs.
  destruct (decide (tr_action (decideGoalTransition (leash_of g) e) = act_refill)) as [E|E].
  - rewrite bool_decide_eq_true_2 by done. destruct (refill_has_room now g e E) as (Hs' & _ & _ & Hst & Hg').
    assert (Hr := decideP (leash_of g) e). rewrite E in Hr. inversion Hr as [| | | |Hs Hx1 Hx2 Hx3 Hx4]; subst.
    rewrite bool_decide_eq_true_2 in Hcs by done. destruct Hcs as (_ & Hcons & Hgr).
    specialize (Hg' th Hm Ht). unfold life, alive_ok. revert Hs' Hst Hg'. simpl. rewrite Hcons, Hgr.
    unfold misses_after, greens_after. simpl. simpl in Hs. intros -> Hst Hg'.
    rewrite !(bool_decide_eq_true_2 (_ = goal_active)) by done. destruct (Ha Hs). clear Hl.
    case_bool_decide; split_and!; try done; try lia.
  - rewrite bool_decide_eq_false_2 by done.
    assert (tr_nextStatus (decideGoalTransition (leash_of g) e) ≠ goal_active) as Hn.
    { assert (Hr := decideP (leash_of g) e). by inversion Hr. }
    unfold life at 1, alive_ok. simpl. rewrite bool_decide_eq_false_2 by done. split_and!; try done; try lia.
    case_bool_decide; [|by destruct Hcs as (_ & _ & -> & _)]. destruct Hcs as (_ & -> & _).
    unfold misses_after. simpl. case_bool_decide; lia.
Qed.

Definition good_goal (th : Z) (k : string) (d : GoalDb) (n : Z) : Prop :=
  ∃ g, goals d !! k = Some g ∧ 0 ≤ go_consecutive_non_green g ∧ alive_ok th g ∧ life th g ≤ n.

Lemma op_life late trusted th k d a d' n :
  op_spec late trusted d a d' → good_goal th k d n →
  good_goal th k d' (n - Z.of_nat (refills k a)).
Proof.
  intros Hop (g & Hg & Hc & Ho & Hn).
  assert (Hkeep : ∀ k0 g0 evs, goals d !! k0 = Some g0 → k ≠ k0 →
    ∀ g0', good_goal th k (goal_write k0 g0' evs d) n).
  { intros k0 g0 evs _ Hne g0'. exists g. simpl. by rewrite lookup_insert_ne. }
  destruct Hop as [|k0 g0 Hk0 _ _ _|now k0 g0 x Hk0 _|now k0 i g0 r c ev evs Hk0 _ Hr _ _ _|now k0 g0 s reason ev Hk0 Hs _ _];
    unfold refills; simpl; rewrite ?Z.sub_0_r.
  - by exists g.
  - exists g. simpl. rewrite lookup_insert_ne; [done|]. congruence.
  - destruct (decide (k = k0)) as [<-|Hne]; [|by eapply Hkeep].
    assert (g0 = g) as -> by congruence.
    eexists. simpl. rewrite lookup_insert_eq. by split.
  - destruct (decide (k = k0)) as [<-|Hne].
    + assert (g0 = g) as -> by congruence. subst r. destruct (decision_life th now g (mkGoalOutcomeEvent (ro_outcome i) (ro_costUsd i)) Hc Ho)
        as (Hc' & Ho' & Hl). eexists. simpl goals. rewrite lookup_insert_eq. split_and!; [done..|].
      unfold refill_of. simpl. rewrite (bool_decide_eq_true_2 (k = k)) by done. simpl.
      destruct (_ ≡? act_refill); simpl; lia.
    + unfold refill_of. simpl. rewrite (bool_decide_eq_false_2 (k0 = k)) by done. simpl. rewrite Z.sub_0_r.
      by eapply Hkeep.
  - destruct (decide (k = k0)) as [<-|Hne]; [|by eapply Hkeep].
    assert (g0 = g) as -> by congruence.
    assert (Hl := life_nonneg th g Hc Ho). eexists. simpl. rewrite lookup_insert_eq.
    destruct Ho as (? & ? & _). split_and!; [done..| |].
    + by unfold alive_ok; simpl; split_and!.
    + unfold life. simpl. rewrite bool_decide_eq_false_2 by done. lia.
Qed.

(** The loop ends.  A goal with a check of [th] greens and a
    stuck threshold [s], however much leash it has and whatever else happens -
    outcomes in any order and number, costing nothing, redelivered or late - is
    granted fewer than [th * s] further issues before it ends. *)
Theorem goal_outcomes_bounded os d k g th :
  goals d !! k = Some g → go_check_type g = metric → go_check_threshold g = Some th →
  0 < th → 0 < go_stuck_threshold g → go_green_count g = 0 → go_consecutive_non_green g = 0 →
  Z.of_nat (refills k (exec_goals os d).1) < th * go_stuck_threshold g.
Proof.
  intros Hk Hm Ht Hth Hs Hg Hc.
  assert (Hgood : good_goal th k d (th * go_stuck_threshold g - 1)).
  { exists g. split_and!; [done|lia| |].
    - split_and!; [done..|]. intros _. lia.
    - unfold life. rewrite Hg, Hc. case_bool_decide; nia. }
  cut (∀ n, good_goal th k d n → Z.of_nat (refills k (exec_goals os d).1) ≤ n).
  { intros H. specialize (H _ Hgood). lia. }
  clear. revert d. induction os as [|o os IH]; intros d n Hn.
  - simpl. destruct Hn as (g & _ & Hc & Ho & Hl). assert (H := life_nonneg th g Hc Ho). unfold refills. simpl. lia.
  - simpl. assert (H := op_life _ _ _ _ _ _ _ _ (exec_goalP o d) Hn). destruct (exec_goal o d) as [a d1].
    specialize (IH d1 _ H). destruct (exec_goals os d1) as [as' d2]. simpl in *. rewrite refills_app. lia.
Qed.

(** ** The audit trail *)

(** A total over the audit rows of one goal. *)
Definition total (f : GoalEvent → Z) (k : string) (l : list GoalEvent) : Z :=
  foldr (λ e z, (if ge_goal_id e ≡? k then f e else 0) + z) 0 l.
Definition filed_of (e : GoalEvent) : Z := if ge_type e ≡? issue_filed then 1 else 0.
Definition green_of (e : GoalEvent) : Z :=
  if (ge_type e ≡? outcome_recorded) && sql_eq (ge_outcome e) out_green then 1 else 0.
Definition cost_of (e : GoalEvent) : Z :=
  if ge_type e ≡? outcome_recorded then Z.max 0 (default 0 (ge_cost_cents e)) else 0.

Definition audited (k : string) (g : Goal) (l : list GoalEvent) : Prop :=
  go_issues_filed g = total filed_of k l ∧ go_green_count g = total green_of k l
  ∧ go_spend_cents g = total cost_of k l.
Definition audit_ok (d : GoalDb) : Prop :=
  map_Forall (λ k g, audited k g (goal_events d)) (goals d)
  ∧ ∀ e, e ∈ goal_events d → is_Some (goals d !! ge_goal_id e).

Lemma total_app f k l l' : total f k (l ++ l') = total f k l + total f k l'.
Proof. unfold total. induction l as [|e l IH]; simpl; lia. Qed.
Lemma total_zero f k l : (∀ e, e ∈ l → ge_goal_id e = k → f e = 0) → total f k l = 0.
Proof.
  unfold total. induction l as [|e l IH]; intros H; simpl; [done|]. rewrite IH by set_solver.
  case_bool_decide as Hk; [|done]. rewrite (H e); [done|set_solver|done].
Qed.
Lemma audited_app k g l l' :
  audited k g l → total filed_of k l' = 0 → total green_of k l' = 0 → total cost_of k l' = 0 →
  audited k g (l ++ l').
Proof.
  intros (H1 & H2 & H3) F G C. unfold audited. rewrite !total_app, F, G, C. split_and!; lia.
Qed.

(** A write to one goal with audit rows of that goal. *)
Lemma goal_write_audit k g' evs d :
  audit_ok d → (∀ e, e ∈ evs → ge_goal_id e = k) →
  audited k g' (goal_events d ++ evs) → audit_ok (goal_write k g' evs d).
Proof.
  intros [Hg He] Hevs Hk. split; simpl.
  - intros k1 g1. destruct (decide (k = k1)) as [<-|Hne]; [by rewrite lookup_insert_eq; intros [= <-]|].
    rewrite lookup_insert_ne by done. intros H1. apply audited_app; [by apply Hg|..];
    apply total_zero; intros e Hin; rewrite (Hevs e Hin); congruence.
  - intros e [Hin|Hin]%elem_of_app.
    + destruct (He e Hin) as [g Hl]. destruct (decide (k = ge_goal_id e)) as [<-|Hne];
        [rewrite lookup_insert_eq; eauto|by rewrite lookup_insert_ne; eauto].
    + rewrite (Hevs e Hin), lookup_insert_eq. eauto.
Qed.

Lemma status_rows_total f k evs :
  (∀ e, ge_type e = status_changed → f e = 0) → (∀ e, e ∈ evs → ge_type e = status_changed) → total f k evs = 0.
Proof. intros Hf He. apply total_zero. intros e Hin _. apply Hf. by apply He. Qed.
Lemma filed_status e : ge_type e = status_changed → filed_of e = 0.
Proof. unfold filed_of. by intros ->. Qed.
Lemma green_status e : ge_type e = status_changed → green_of e = 0.
Proof. unfold green_of. by intros ->. Qed.
Lemma cost_status e : ge_type e = status_changed → cost_of e = 0.
Proof. unfold cost_of. by intros ->. Qed.
#[export] Hint Resolve filed_status green_status cost_status : agentrail.

Lemma op_audit trusted d a d' : op_spec false trusted d a d' → audit_ok d → audit_ok d'.
Proof.
  intros [|k g Hk Hf Hsp Hgr|now k g x Hk _|now k i g r c ev evs Hk Ha Hr Hc Hev Hevs|now k g s reason ev Hk _ Ht Hid]
    Hi; [done|apply goal_write_audit; [done| |]..].
  - by intros e ?%not_elem_of_nil.
  - rewrite app_nil_r. assert (Hz : ∀ f, total f k (goal_events d) = 0).
    { intros f. apply total_zero. intros e Hin <-. destruct (proj2 Hi e Hin). congruence. }
    unfold audited. by rewrite !Hz.
  - by intros e ->%list_elem_of_singleton.
  - destruct (proj1 Hi k g Hk) as (H1 & H2 & H3). unfold audited. rewrite !total_app. simpl.
    rewrite bool_decide_eq_true_2 by done. rewrite <- H1, <- H2, <- H3. unfold filed_of, green_of, cost_of.
    simpl. split_and!; lia.
  - intros e [->|He]%elem_of_cons; [by subst ev|by apply Hevs].
  - destruct (proj1 Hi k g Hk) as (H1 & H2 & H3). specialize (Ha eq_refl).
    assert (Hcs := decide_counters (leash_of g) (mkGoalOutcomeEvent (ro_outcome i) (ro_costUsd i))).
    simpl in Hcs. rewrite bool_decide_eq_true_2, <- Hr in Hcs by done. destruct Hcs as (Hcs1 & _ & Hcs3).
    assert (Hs : ∀ e, e ∈ evs → ge_type e = status_changed) by (intros e He; by apply Hevs).
    unfold audited. rewrite !total_app, <- H1, <- H2, <- H3. subst ev. simpl.
    rewrite !status_rows_total by eauto with agentrail.
    rewrite (bool_decide_eq_true_2 (k = k)), Hcs1, Hcs3, (spend_after_cents _ _ _ Hc) by done.
    unfold filed_of, green_of, cost_of, greens_after, sql_eq. simpl.
    destruct (ro_outcome i); simpl; split_and!; lia.
  - by intros e ->%list_elem_of_singleton.
  - assert (Hs : ∀ e, e ∈ [ev] → ge_type e = status_changed) by by intros e ->%list_elem_of_singleton.
    apply (audited_app k (set_goal_status s reason now g)); [exact (proj1 Hi k g Hk)|..];
      apply status_rows_total; eauto with agentrail.
Qed.

(** The counters and the audit trail agree: through any
    history in which an outcome is decided on the goal its lookup found, each
    goal's issue count is the number of its filing rows, its green count the
    number of its green outcome rows, and what it spent, to the cent, the sum of
    the costs in its outcome rows. *)
Theorem audit_trail_agrees os d :
  Forall (λ o, is_late o = false) os → audit_ok d → audit_ok (exec_goals os d).2.
Proof.
  intros Hl. revert d. induction Hl as [|o os Ho _ IH]; intros d Hi; simpl; [done|].
  assert (H := exec_goalP o d). rewrite Ho in H. destruct (exec_goal o d) as [a d1].
  specialize (IH d1 (op_audit _ _ _ _ H Hi)). by destruct (exec_goals os d1).
Qed.

(** ** Concrete goals *)

Definition goal_input (threshold maxIssues : option Z) : CreateGoalInput :=
  mkCreateGoalInput "ws" "repo" "Raise coverage" "raise-coverage" None (Some "green_run_count")
    threshold None maxIssues None None (Some "eve-1").
Definition outcome_of (issue : string) (o : GoalOutcome) (usd : Q) : RecordOutcomeInput :=
  mkRecordOutcomeInput "ws" issue o usd.
Definition goal_start (threshold maxIssues : option Z) : GoalDb :=
  (createGoal 0 "g1" (goal_input threshold maxIssues) (mkGoalDb {[ "ws" := true ]} ∅ [])).2.
Definition counters (g : Goal) : GoalStatus * Z * Z * Z :=
  (go_status g, go_issues_filed g, go_spend_cents g, go_green_count g).

Definition two_greens : Goal :=
  mkGoal "ws" "repo" "Raise coverage" "raise-coverage" metric (Some "green_run_count") (Some 2) None
    goal_active None 2 5000 0 0 2 0 0 (Some "eve-1") 0 0.

(** Two greens reach the check, on the last unit of the leash. *)
Definition good_run : list goal_op :=
  [g_file 1 "g1" "acme/app#1"; g_outcome 2 (outcome_of "acme/app#1" out_green (125 # 100));
   g_file 3 "g1" "acme/app#2"; g_file 4 "g1" "acme/app#3";
   g_outcome 5 (outcome_of "acme/app#2" out_green (4 # 10)); g_outcome 6 (outcome_of "acme/app#2" out_green 9)].
Example good_run_reaches :
  let '(a, d) := exec_goals good_run (goal_start (Some 2) (Some 2)) in
  a = [("g1", act_refill); ("g1", act_reached)]
  ∧ counters <$> goals d !! "g1" = Some (reached, 2, 165, 2)
  ∧ length (goal_events d) = 5%nat
  ∧ (goals d !! "g1" ≫= go_status_reason) = Some "check reached: 2/2 green outcomes".
Proof. vm_compute. repeat split; reflexivity. Qed.
Example stuck_reason :
  let '(a, d) := exec_goals
    [g_file 1 "g1" "acme/app#1"; g_outcome 2 (outcome_of "acme/app#1" out_blocked 49);
     g_file 3 "g1" "acme/app#2"; g_outcome 4 (outcome_of "acme/app#2" out_escalated_to_human (5 # 10))]
    (goal_start None None) in
  (goals d !! "g1" ≫= go_status_reason) = Some "stuck: 2 consecutive non-green outcomes (threshold 2)"
  ∧ show_dollars 4950 = "49.5" ∧ show_dollars 1205 = "12.05" ∧ show_dollars 5000 = "50".
Proof. vm_compute. repeat split; reflexivity. Qed.

(** Asking and filing are two requests with the creation of the issue between
    them: two filings that overlap both pass the check, and the goal files one
    issue more than its leash. *)
Theorem concurrent_filing_overruns_leash :
  let d := goal_start (Some 5) (Some 1) in
  (goalCanFileNextIssue "g1" d).1 = true ∧ (file_check_route (Some "ws") "raise-coverage" d) = (true, Some "g1")
  ∧ counters <$> goals (exec_goals [g_record 1 "g1" "acme/app#1"; g_record 1 "g1" "acme/app#2"] d).2 !! "g1"
    = Some (goal_active, 2, 0, 0).
Proof. vm_compute. repeat split; reflexivity. Qed.

(** An outcome whose lookup ran before another outcome ended the goal: its
    audit row is appended, the counters stay, and the reason the goal ended for
    is overwritten. *)
Theorem late_outcome_splits_audit :
  let d := (exec_goals [g_file 1 "g1" "acme/app#1"; g_file 2 "g1" "acme/app#2";
                        g_outcome 3 (outcome_of "acme/app#1" out_green 1)] (goal_start (Some 1) None)).2 in
  let d' := (exec_goal (g_late_outcome 3 "g1" (outcome_of "acme/app#2" out_green 1)) d).2 in
  (goals d !! "g1" ≫= go_status_reason) = Some "check reached: 1/1 green outcomes"
  ∧ counters <$> goals d' !! "g1" = Some (reached, 2, 100, 1)
  ∧ total green_of "g1" (goal_events d') = 2 ∧ total cost_of "g1" (goal_events d') = 200
  ∧ (goals d' !! "g1" ≫= go_status_reason)
    = Some "goal is already 'reached'; no further transitions are possible".
Proof. vm_compute. repeat split; reflexivity. Qed.

(** The console's controls are not routed through the rules: a goal that was
    reached is turned into a paused one. *)
Theorem pause_rewrites_an_ended_goal :
  let d := (exec_goals good_run (goal_start (Some 2) (Some 2))).2 in
  go_status <$> goals d !! "g1" = Some reached
  ∧ go_status <$> goals (pauseGoal 9 "g1" "later" d).2 !! "g1" = Some paused.
Proof. vm_compute. repeat split; reflexivity. Qed.

Lemma goal_leash_witness :
  map_Forall (λ _ g, within_leash g) (goals (exec_goals good_run (goal_start (Some 2) (Some 2))).2).
Proof.
  apply (goal_leash good_run (goal_start (Some 2) (Some 2))).
  - repeat constructor.
  - apply map_Forall_singleton. unfold within_leash. simpl. lia.
Defined.

Lemma goal_outcomes_bounded_witness :
  Z.of_nat (refills "g1" (exec_goals good_run (goal_start (Some 2) (Some 2))).1) < 2 * 2.
Proof.
  apply (goal_outcomes_bounded good_run (goal_start (Some 2) (Some 2)) "g1" two_greens 2);
    vm_compute; reflexivity.
Defined.

Lemma audit_trail_agrees_witness : audit_ok (exec_goals good_run (goal_start (Some 2) (Some 2))).2.
Proof.
  apply audit_trail_agrees; [repeat constructor|]. split; [|by intros e ?%not_elem_of_nil].
  apply map_Forall_singleton. by split_and!.
Defined.
