(* ===== verification/CiReconcile.v ===== *)
(** * CiReconcile: the displayed status of a run against its PR's real CI

    [queries/ci-reconcile.ts]: the roll-up of a commit's check runs, the two
    GitHub requests behind it, the decision, and the throttled overlay a read of
    the dashboard puts on the persisted statuses. *)

From S2P Require Import Prelude Regex QueueText Intake.
From Stdlib Require Import QArith.
Open Scope nat_scope.

Inductive RunDisplayStatus := dis_queued | dis_running | dis_success | dis_failed.
#[export] Instance RunDisplayStatus_eq_dec : EqDecision RunDisplayStatus.
Proof. solve_decision. Defined.

(** [null], no usable signal, is [None] of an option. *)
Inductive CiConclusion := ci_green | ci_red | ci_pending_checks.
#[export] Instance CiConclusion_eq_dec : EqDecision CiConclusion.
Proof. solve_decision. Defined.

Record PrRef := mkPrRef { pref_owner : string; pref_repo : string; pref_number : N }.

(** [`^https?:\/\/github\.com\/([^/]+)\/([^/]+)\/pull\/(\d+)`], then optionally one
    of [/?#] and the rest of the line, then [$]; flag i *)
Definition pr_html_url_re : regex :=
  Bos ⋅ liti "http" ⋅ optional (liti "s") ⋅ lit "://" ⋅ liti "github.com" ⋅ lit "/"
  ⋅ Group 1 (many1 (not_in "/")) ⋅ lit "/" ⋅ Group 2 (many1 (not_in "/")) ⋅ lit "/"
  ⋅ liti "pull" ⋅ lit "/" ⋅ Group 3 (many1 digit)
  ⋅ optional (Chr (one_of "/?#") ⋅ many any) ⋅ Eos.

Definition parsePrUrl (prUrl : option string) : option PrRef :=
  match prUrl with
  | None | Some EmptyString => None
  | Some u =>
      match exec pr_html_url_re u with
      | None => None
      | Some m =>
          match capture 1 m, capture 2 m, capture 3 m ≫= read_N with
          | Some owner, Some repo, Some n => if (n =? 0)%N then None else Some (mkPrRef owner repo n)
          | _, _, _ => None
          end
      end
  end.

Definition reconcileRunDisplayStatus (gateStatus : RunDisplayStatus) (prUrl : option string)
    (ciConclusion : option CiConclusion) : RunDisplayStatus :=
  if gateStatus ≢? dis_failed then gateStatus else
  match parsePrUrl prUrl with
  | None => dis_failed
  | Some _ =>
      match ciConclusion with
      | Some ci_green => dis_success
      | Some ci_pending_checks => dis_running
      | Some ci_red | None => dis_failed
      end
  end.

(** ** The roll-up *)

(** A check run as the response carries it; reading a property of [null]
    throws, and one of a string, a number or an array is undefined. *)
Definition is_completed (r : json) : bool :=
  match json_field r "status" with Some (JStr s) => s ≡? "completed" | _ => false end.
Definition is_ok (r : json) : bool :=
  match json_field r "conclusion" with
  | Some (JStr s) => bool_decide (s ∈ ["success"; "neutral"; "skipped"])
  | _ => false
  end.

Definition is_jnull (r : json) : bool := match r with JNull => true | _ => false end.

(** The loop, with its two flags; [None] is the exception. *)
Fixpoint rollup_loop (anyPending anyFailed : bool) (checkRuns : list json) : option (bool * bool) :=
  match checkRuns with
  | [] => Some (anyPending, anyFailed)
  | r :: rest =>
      if is_jnull r then None else
      if negb (is_completed r) then rollup_loop true anyFailed rest
      else rollup_loop anyPending (if is_ok r then anyFailed else true) rest
  end.
Definition rollupCheckRuns (checkRuns : list json) : option (option CiConclusion) :=
  match checkRuns with
  | [] => Some None
  | _ =>
      match rollup_loop false false checkRuns with
      | None => None
      | Some (anyPending, anyFailed) =>
          Some (Some (if anyFailed then ci_red else if anyPending then ci_pending_checks else ci_green))
      end
  end.

(** JavaScript's truthiness of a JSON value. *)
Definition truthy (v : json) : bool :=
  match v with
  | JNull | JBool false | JStr EmptyString => false
  | JNum q => negb (Qeq_bool q 0)
  | _ => true
  end.

(** [body?.key], [None] being undefined. *)
Definition json_get (v : option json) (key : string) : option json := v ≫= λ v, json_field v key.

(** ** The requests

    GitHub and the token are outside the repository: [fetch_pull token owner
    repo number] and [fetch_checks token owner repo sha] are what the two GET
    requests resolve to - [res.ok] and the parsed body, [None] inside for a
    body that is not JSON, [None] outside for a request that fails. *)
Section Reconcile.
Variable fetch_pull : string → string → string → N → option (bool * option json).
Variable fetch_checks : string → string → string → json → option (bool * option json).
Variable getInstallationToken : string → option string.

(** [check_runs ?? []] handed to the roll-up: a string is iterated by its
    characters, of which no property is "completed"; what is not iterable
    throws.  An exception is no signal. *)
Definition conclude (checksBody : json) : option CiConclusion :=
  match json_field checksBody "check_runs" with
  | None | Some JNull => None
  | Some (JArr l) => default None (rollupCheckRuns l)
  | Some (JStr EmptyString) => None
  | Some (JStr _) => Some ci_pending_checks
  | Some _ => None
  end.

Definition fetchPrCiConclusion (pr : PrRef) (token : string) : option CiConclusion :=
  match fetch_pull token (pref_owner pr) (pref_repo pr) (pref_number pr) with
  | Some (true, Some prBody) =>
      match json_get (json_field prBody "head") "sha" with
      | None => None
      | Some sha =>
          if negb (truthy sha) then None else
          match fetch_checks token (pref_owner pr) (pref_repo pr) sha with
          | Some (true, Some checksBody) => conclude checksBody
          | _ => None
          end
      end
  | _ => None
  end.

Record ReconcilableRun := mkReconcilableRun {
  rr_id : string;
  rr_status : RunDisplayStatus;
  rr_prUrl : option string;
}.

Definition reconcilable (r : ReconcilableRun) : bool :=
  (rr_status r ≡? dis_failed) && negb (is_null (parsePrUrl (rr_prUrl r))).

(** The new status of one candidate. *)
Definition reconciled (token : string) (r : ReconcilableRun) : RunDisplayStatus :=
  reconcileRunDisplayStatus (rr_status r) (rr_prUrl r)
    (match parsePrUrl (rr_prUrl r) with Some pr => fetchPrCiConclusion pr token | None => None end).

Fixpoint overlay (token : string) (out : gmap string RunDisplayStatus) (candidates : list ReconcilableRun)
    : gmap string RunDisplayStatus :=
  match candidates with
  | [] => out
  | r :: rest =>
      let s := reconciled token r in
      overlay token (if s ≢? rr_status r then <[rr_id r := s]> out else out) rest
  end.

(** [getInstallationToken] may throw or give null or the empty string. *)
Definition reconcileRunsCiStatus (workspaceId : string) (runs : list ReconcilableRun)
    (maxFetches : option nat) : gmap string RunDisplayStatus :=
  let candidates := List.filter reconcilable runs in
  match candidates with
  | [] => ∅
  | _ =>
      match getInstallationToken workspaceId with
      | None | Some EmptyString => ∅
      | Some token => overlay token ∅ (take (default 10 maxFetches) candidates)
      end
  end.

(** ** What a commit's checks say *)

(** Specified on the checks themselves. *)
Definition all_passed (l : list json) : Prop :=
  l ≠ [] ∧ ∀ r, r ∈ l → is_completed r = true ∧ is_ok r = true.
Definition still_running (l : list json) : Prop :=
  (∃ r, r ∈ l ∧ is_completed r = false)
  ∧ ∀ r, r ∈ l → r ≠ JNull ∧ (is_completed r = true → is_ok r = true).

Definition any_null (l : list json) : bool := existsb is_jnull l.
Definition any_failed (l : list json) : bool := existsb (λ r, is_completed r && negb (is_ok r)) l.
Definition any_pending (l : list json) : bool := existsb (λ r, negb (is_completed r)) l.

(** The roll-up, by what the checks are. *)
Lemma rollupCheckRuns_spec l :
  rollupCheckRuns l
  = if bool_decide (l = []) then Some None else
    if any_null l then None else
    Some (Some (if any_failed l then ci_red else if any_pending l then ci_pending_checks else ci_green)).
Proof.
  destruct l as [|r0 l0]; [done|]. rewrite bool_decide_eq_false_2 by done. unfold rollupCheckRuns.
  generalize (r0 :: l0). clear r0 l0. intros l.
  assert (H : ∀ p f, rollup_loop p f l = if any_null l then None else
    Some (p || any_pending l, f || any_failed l)).
  { unfold any_null, any_pending, any_failed.
    induction l as [|r l IH]; intros p f; simpl; [by rewrite !orb_false_r|].
    destruct (is_jnull r); [done|]. simpl.
    destruct (is_completed r), (is_ok r); simpl; rewrite IH; destruct (existsb is_jnull l); try done;
      rewrite ?orb_true_r; done. }
  rewrite H. by destruct (any_null l).
Qed.

Lemma existsb_false {A} (f : A → bool) l : existsb f l = false ↔ ∀ x, x ∈ l → f x = false.
Proof.
  rewrite <- not_true_iff_false, existsb_exists. split.
  - intros H x Hx. apply not_true_iff_false. intros Hf. apply H. exists x. by rewrite <- list_elem_of_In.
  - intros H (x & Hx%list_elem_of_In & Hf). rewrite (H x Hx) in Hf. done.
Qed.
Lemma existsb_true {A} (f : A → bool) l : existsb f l = true ↔ ∃ x, x ∈ l ∧ f x = true.
Proof. rewrite existsb_exists. by setoid_rewrite list_elem_of_In. Qed.
Lemma not_jnull r : is_jnull r = false ↔ r ≠ JNull.
Proof. destruct r; naive_solver. Qed.

Lemma rollup_green l : rollupCheckRuns l = Some (Some ci_green) ↔ all_passed l.
Proof.
  rewrite rollupCheckRuns_spec. unfold all_passed. case_bool_decide as Hl; [naive_solver|].
  destruct (any_null l) eqn:Hn; [|destruct (any_failed l) eqn:Hf; [|destruct (any_pending l) eqn:Hp]];
    unfold any_null, any_failed, any_pending in *.
  - apply existsb_true in Hn as (x & Hx & Hj). split; [done|]. intros [_ H].
    destruct x; try done. by destruct (H JNull Hx).
  - apply existsb_true in Hf as (x & Hx & Hj). bools. split; [done|]. intros [_ Ha].
    destruct (Ha x Hx). congruence.
  - apply existsb_true in Hp as (x & Hx & Hj). bools. split; [done|]. intros [_ Ha].
    destruct (Ha x Hx). congruence.
  - rewrite existsb_false in Hf, Hp. split; [|done]. intros _. split; [done|]. intros x Hx.
    specialize (Hf x Hx). specialize (Hp x Hx). simpl in Hf, Hp. apply negb_false_iff in Hp. rewrite Hp in *.
    simpl in Hf. by apply negb_false_iff in Hf.
Qed.
Lemma rollup_pending l : rollupCheckRuns l = Some (Some ci_pending_checks) ↔ still_running l.
Proof.
  rewrite rollupCheckRuns_spec. unfold still_running. case_bool_decide as Hl; [set_solver|].
  destruct (any_null l) eqn:Hn; [|destruct (any_failed l) eqn:Hf; [|destruct (any_pending l) eqn:Hp]];
    unfold any_null, any_failed, any_pending in *.
  - apply existsb_true in Hn as (x & Hx & Hj). split; [done|]. intros [_ H].
    destruct x; try done. by destruct (H JNull Hx).
  - apply existsb_true in Hf as (x & Hx & Hj). bools. split; [done|]. intros [_ Ha].
    destruct (Ha x Hx) as [_ H']. rewrite H' in *; done.
  - apply existsb_true in Hp as (x & Hx & Hj). bools. split; [|done]. intros _. split; [by exists x|].
    rewrite existsb_false in Hn, Hf. intros y Hy. split; [by apply not_jnull, Hn|]. intros Hc.
    specialize (Hf y Hy). simpl in Hf. rewrite Hc in Hf. by apply negb_false_iff in Hf.
  - split; [done|]. intros [(x & Hx & Hc) _]. rewrite existsb_false in Hp. specialize (Hp x Hx). simpl in Hp.
    by rewrite Hc in Hp.
Qed.

(** ** What the commit of a pull request says, through the two requests *)

(** The [check_runs] of the head commit, when both requests give one. *)
Definition head_checks (token : string) (pr : PrRef) : option json :=
  match fetch_pull token (pref_owner pr) (pref_repo pr) (pref_number pr) with
  | Some (true, Some prBody) =>
      sha ← json_get (json_field prBody "head") "sha";
      if truthy sha then
        match fetch_checks token (pref_owner pr) (pref_repo pr) sha with
        | Some (true, Some checksBody) => json_field checksBody "check_runs"
        | _ => None
        end
      else None
  | _ => None
  end.

Lemma fetch_conclusion token pr :
  fetchPrCiConclusion pr token
  = match head_checks token pr with
    | Some (JArr l) => default None (rollupCheckRuns l)
    | Some (JStr (String _ _)) => Some ci_pending_checks
    | _ => None
    end.
Proof.
  unfold fetchPrCiConclusion, head_checks, conclude.
  destruct (fetch_pull _ _ _ _) as [[[] [prBody|]]|]; try done.
  destruct (json_get _ "sha") as [sha|]; [|done]. simpl. destruct (truthy sha); [|done]. simpl.
  destruct (fetch_checks _ _ _ _) as [[[] [body|]]|]; try done.
Qed.

(** Green means: there are checks, and all of them completed well. *)
Lemma conclusion_green token pr :
  fetchPrCiConclusion pr token = Some ci_green ↔ ∃ l, head_checks token pr = Some (JArr l) ∧ all_passed l.
Proof.
  rewrite fetch_conclusion. destruct (head_checks token pr) as [[| | |[]|l|]|]; try naive_solver.
  transitivity (rollupCheckRuns l = Some (Some ci_green)); [destruct (rollupCheckRuns l) as [[]|]; simpl; naive_solver|].
  rewrite rollup_green. naive_solver.
Qed.

(** ** The overlay *)

Lemma reconcile_failed token r pr :
  rr_status r = dis_failed → parsePrUrl (rr_prUrl r) = Some pr →
  reconciled token r = match fetchPrCiConclusion pr token with
                       | Some ci_green => dis_success | Some ci_pending_checks => dis_running
                       | _ => dis_failed end.
Proof.
  intros Hs Hp. unfold reconciled, reconcileRunDisplayStatus. rewrite Hs, Hp, bool_decide_eq_true_2 by done.
  simpl. by destruct (fetchPrCiConclusion pr token) as [[]|].
Qed.

Lemma overlay_lookup token out l id s :
  NoDup (rr_id <$> l) →
  overlay token out l !! id = Some s ↔
    (∃ r, r ∈ l ∧ rr_id r = id ∧ reconciled token r = s ∧ s ≠ rr_status r)
    ∨ out !! id = Some s ∧ ∀ r, r ∈ l → rr_id r = id → reconciled token r = rr_status r.
Proof.
  revert out. induction l as [|r l IH]; intros out; simpl; [set_solver|].
  intros [Hr Hnd]%NoDup_cons. rewrite IH by done.
  assert (Hother : ∀ r', r' ∈ l → rr_id r' ≠ rr_id r).
  { intros r' Hr' E. apply Hr. apply list_elem_of_fmap. by exists r'. }
  setoid_rewrite elem_of_cons. destruct (decide (reconciled token r = rr_status r)) as [E|E].
  - rewrite bool_decide_eq_true_2 by done. simpl. naive_solver.
  - rewrite bool_decide_eq_false_2 by done. simpl. destruct (decide (rr_id r = id)) as [<-|Hne].
    + rewrite lookup_insert_eq. split.
      * intros [(r' & Hin & Hid & _)|[[= <-] _]]; [by destruct (Hother r' Hin)|]. left. exists r. auto.
      * intros [(r' & [->|Hin] & Hid & Hs & _)|[_ H]]; [|by destruct (Hother r' Hin)|].
        -- right. split; [by rewrite Hs|]. intros r' Hr' Hid'. by destruct (Hother r' Hr').
        -- destruct E. apply H; auto.
    + rewrite lookup_insert_ne by done. naive_solver.
Qed.

Lemma reconcile_overlay ws runs maxFetches :
  reconcileRunsCiStatus ws runs maxFetches
  = match getInstallationToken ws with
    | None | Some EmptyString => ∅
    | Some token => overlay token ∅ (take (default 10 maxFetches) (List.filter reconcilable runs))
    end.
Proof.
  unfold reconcileRunsCiStatus. destruct (List.filter reconcilable runs) as [|r l]; [|done].
  rewrite take_nil. by destruct (getInstallationToken ws) as [[]|].
Qed.

(** The overlay shows exactly what CI says.  For a read whose
    runs have distinct ids: a run is shown as a success if and only if it is one
    of the first [maxFetches] failed runs with a pull request, and the check runs
    of that pull request's head commit are a non-empty list of which every one
    completed well; a status is only ever shown as success or running, only over
    a failed one, and without a token nothing changes. *)
Theorem ci_overlay_exact ws runs maxFetches :
  NoDup (rr_id <$> runs) →
  let out := reconcileRunsCiStatus ws runs maxFetches in
  (∀ id, out !! id = Some dis_success ↔
     ∃ r pr token l, r ∈ take (default 10 maxFetches) (List.filter reconcilable runs) ∧ rr_id r = id
       ∧ parsePrUrl (rr_prUrl r) = Some pr ∧ getInstallationToken ws = Some token ∧ token ≠ EmptyString
       ∧ head_checks token pr = Some (JArr l) ∧ all_passed l)
  ∧ (∀ id s, out !! id = Some s → (s = dis_success ∨ s = dis_running)
       ∧ ∃ r, r ∈ runs ∧ rr_id r = id ∧ rr_status r = dis_failed)
  ∧ (getInstallationToken ws = None → out = ∅).
Proof.
  intros Hnd. simpl. set (cs := List.filter reconcilable runs).
  assert (Hcs : ∀ r, r ∈ take (default 10 maxFetches) cs →
    r ∈ runs ∧ rr_status r = dis_failed ∧ ∃ pr, parsePrUrl (rr_prUrl r) = Some pr).
  { intros r (i & Hi & _)%elem_of_take. apply list_elem_of_lookup_2, list_elem_of_In, filter_In in Hi as [Hin Hr].
    rewrite <- list_elem_of_In in Hin. unfold reconcilable in Hr. bools.
    destruct (parsePrUrl (rr_prUrl r)) eqn:Hp; [|done]. eauto. }
  assert (Hnd' : NoDup (rr_id <$> take (default 10 maxFetches) cs)).
  { eapply sublist_NoDup; [exact Hnd|]. apply fmap_sublist. etrans; [apply sublist_take|].
    unfold cs. clear. induction runs as [|r runs IH]; simpl; [constructor|].
    destruct (reconcilable r); [by apply sublist_skip|by apply sublist_cons]. }
  rewrite reconcile_overlay. fold cs.
  destruct (getInstallationToken ws) as [[|c token]|] eqn:Ht;
    [split_and!; try done; intros id; rewrite lookup_empty; naive_solver| |
     split_and!; try done; intros id; rewrite lookup_empty; naive_solver].
  set (tk := String c token) in *. split_and!; [|intros id s|done].
  - intros id. rewrite overlay_lookup, lookup_empty by done. split.
    + intros [(r & Hr & Hid & Hs & _)|[? _]]; [|done]. destruct (Hcs r Hr) as (_ & Hf & pr & Hp).
      rewrite (reconcile_failed _ _ _ Hf Hp) in Hs.
      destruct (fetchPrCiConclusion pr tk) as [[]|] eqn:Hc; try done.
      apply conclusion_green in Hc as (l & Hl & Ha). by exists r, pr, tk, l.
    + intros (r & pr & tk' & l & Hr & Hid & Hp & [= <-] & _ & Hl & Ha). left. exists r.
      destruct (Hcs r Hr) as (_ & Hf & _). split_and!; try done; [|by rewrite Hf].
      rewrite (reconcile_failed _ _ _ Hf Hp). assert (fetchPrCiConclusion pr tk = Some ci_green) as ->; [|done].
      apply conclusion_green. by exists l.
  - rewrite overlay_lookup, lookup_empty by done. intros [(r & Hr & Hid & Hs & Hne)|[? _]]; [|done].
    destruct (Hcs r Hr) as (Hin & Hf & pr & Hp). split; [|by exists r].
    rewrite (reconcile_failed _ _ _ Hf Hp) in Hs. rewrite Hf in Hne. subst s.
    destruct (fetchPrCiConclusion pr tk) as [[]|]; auto; done.
Qed.
End Reconcile.

(** ** A concrete read *)

Definition check_run (status conclusion : string) : json :=
  JObj [("status", JStr status); ("conclusion", JStr conclusion)].
Definition github_pull (_ _ _ : string) (n : N) : option (bool * option json) :=
  if (n =? 404)%N then Some (false, None)
  else Some (true, Some (JObj [("head", JObj [("sha", JStr (show_N n))])])).
Definition github_checks (_ _ _ : string) (sha : json) : option (bool * option json) :=
  let body l := Some (true, Some (JObj [("check_runs", JArr l)])) in
  match sha with
  | JStr "1" => body [check_run "completed" "success"; check_run "completed" "skipped"]
  | JStr "2" => body [check_run "completed" "success"; check_run "in_progress" ""]
  | JStr "3" => body [check_run "completed" "failure"; check_run "queued" ""]
  | JStr "4" => body []
  | _ => None
  end.
Definition pr_of (n : string) : option string := Some ("https://github.com/acme/app/pull/" +:+ n).
Definition page : list ReconcilableRun :=
  [mkReconcilableRun "r1" dis_failed (pr_of "1"); mkReconcilableRun "r2" dis_failed (pr_of "2/files");
   mkReconcilableRun "r3" dis_failed (pr_of "3"); mkReconcilableRun "r4" dis_failed (pr_of "4");
   mkReconcilableRun "r5" dis_failed (pr_of "404"); mkReconcilableRun "r6" dis_success (pr_of "3");
   mkReconcilableRun "r7" dis_failed None; mkReconcilableRun "r8" dis_failed (Some "https://gitlab.com/a/b/pull/1")].
Definition app_token (_ : string) : option string := Some "ghs_1".

Example parse_pr_urls :
  parsePrUrl (Some "HTTP://GitHub.com/acme/app/pull/12?x=1") = Some (mkPrRef "acme" "app" 12)
  ∧ parsePrUrl (pr_of "12x") = None ∧ parsePrUrl (pr_of "0") = None ∧ parsePrUrl None = None.
Proof. vm_compute. repeat split; reflexivity. Qed.
Example read_page :
  map_to_list (reconcileRunsCiStatus github_pull github_checks app_token "ws" page None)
    ≡ₚ [("r1", dis_success); ("r2", dis_running)]
  ∧ reconcileRunsCiStatus github_pull github_checks app_token "ws" page (Some 0) = ∅.
Proof. split; [by vm_compute|by vm_compute]. Qed.

Lemma ci_overlay_exact_witness :
  reconcileRunsCiStatus github_pull github_checks app_token "ws" page None !! "r1" = Some dis_success.
Proof.
  assert (Hnd : NoDup (rr_id <$> page)). { apply (bool_decide_unpack _). vm_compute. exact I. }
  destruct (ci_overlay_exact github_pull github_checks app_token "ws" page None Hnd) as [H _].
  apply (H "r1"). exists (mkReconcilableRun "r1" dis_failed (pr_of "1")), (mkPrRef "acme" "app" 1), "ghs_1".
  exists [check_run "completed" "success"; check_run "completed" "skipped"].
  split_and!; try by vm_compute.
  - vm_compute. by left.
  - split; [done|]. intros r Hr. rewrite !elem_of_cons in Hr. destruct Hr as [->|[->|Hr]]; [by vm_compute..|].
    by apply not_elem_of_nil in Hr.
Defined.
