(* ===== verification/Policy.v ===== *)
(** * Policy: what a billing plan entitles an account to

    [lib/policy]: the plan constants ([plan-policies.ts]), the resolver that
    merges an account's overrides over them and fails open
    ([resolve-policy.ts]), and the profile entitlement of the routing gate
    ([allowed-profiles.ts], [classify-task.ts]). *)

From S2P Require Import Prelude Table QueueSchema Intake Billing.
From Stdlib Require Import QArith.
Open Scope Z_scope.

Inductive QualityProfile := economy | standard | premium.
#[export] Instance QualityProfile_eq_dec : EqDecision QualityProfile.
Proof. solve_decision. Defined.

(** [Set.has] of [QUALITY_PROFILE_VALUES] *)
Definition read_profile (s : string) : option QualityProfile :=
  if s ≡? "economy" then Some economy else
  if s ≡? "standard" then Some standard else
  if s ≡? "premium" then Some premium else None.

Record ProfileSet := mkProfileSet { ps_economy : bool; ps_standard : bool; ps_premium : bool }.
Record Routing := mkRouting {
  rt_defaultProfile : QualityProfile;
  rt_allowEscalation : bool;
  rt_allowDowngrade : bool;
}.
Record Economics := mkEconomics {
  ec_monthlyAiBudgetUsd : Q;
  ec_currentSpendUsd : Q;
  ec_remainingBudgetUsd : Q;
  ec_maxTaskCostUsd : Q;
}.
Record AiPolicy := mkAiPolicy {
  seatLimit : Q;
  monthlyCapacity : Q;
  qualityProfiles : ProfileSet;
  routing : Routing;
  economics : Economics;
}.

Definition PLAN_POLICIES (plan : BillingPlan) : AiPolicy :=
  match plan with
  | trial => mkAiPolicy 10 1000 (mkProfileSet true true true) (mkRouting standard true true)
               (mkEconomics 150 0 150 8)
  | starter => mkAiPolicy 4 350 (mkProfileSet true true false) (mkRouting standard false true)
                 (mkEconomics 70 0 70 5)
  | growth => mkAiPolicy 10 1000 (mkProfileSet true true true) (mkRouting standard true true)
                (mkEconomics 150 0 150 8)
  | enterprise => mkAiPolicy 10 1000 (mkProfileSet true true true) (mkRouting standard true true)
                    (mkEconomics 150 0 150 8)
  end.

(** ** Overrides *)

(** A property of a plain object, [{}] standing for what is not one. *)
Definition overrides_at (o : json) (key : string) : json :=
  match json_field o key with Some (JObj l) => JObj l | _ => JObj [] end.
Definition plain_object (o : json) : json := match o with JObj l => JObj l | _ => JObj [] end.

Definition overrideNumber (base : Q) (o : option json) : Q :=
  match o with Some (JNum q) => q | _ => base end.
Definition overrideBoolean (base : bool) (o : option json) : bool :=
  match o with Some (JBool b) => b | _ => base end.
Definition overrideQualityProfile (base : QualityProfile) (o : option json) : QualityProfile :=
  match o with Some (JStr s) => default base (read_profile s) | _ => base end.

Definition mergePolicyOverrides (base : AiPolicy) (rawOverrides : json) : AiPolicy :=
  let overrides := plain_object rawOverrides in
  let profiles := overrides_at overrides "qualityProfiles" in
  let route := overrides_at overrides "routing" in
  let eco := overrides_at overrides "economics" in
  mkAiPolicy
    (overrideNumber (seatLimit base) (json_field overrides "seatLimit"))
    (overrideNumber (monthlyCapacity base) (json_field overrides "monthlyCapacity"))
    (mkProfileSet
       (overrideBoolean (ps_economy (qualityProfiles base)) (json_field profiles "economy"))
       (overrideBoolean (ps_standard (qualityProfiles base)) (json_field profiles "standard"))
       (overrideBoolean (ps_premium (qualityProfiles base)) (json_field profiles "premium")))
    (mkRouting
       (overrideQualityProfile (rt_defaultProfile (routing base)) (json_field route "defaultProfile"))
       (overrideBoolean (rt_allowEscalation (routing base)) (json_field route "allowEscalation"))
       (overrideBoolean (rt_allowDowngrade (routing base)) (json_field route "allowDowngrade")))
    (mkEconomics
       (overrideNumber (ec_monthlyAiBudgetUsd (economics base)) (json_field eco "monthlyAiBudgetUsd"))
       (ec_currentSpendUsd (economics base)) (ec_remainingBudgetUsd (economics base))
       (overrideNumber (ec_maxTaskCostUsd (economics base)) (json_field eco "maxTaskCostUsd"))).

(** ** The resolver *)

Record ResolvedPolicy := mkResolvedPolicy {
  rp_policy : AiPolicy;
  rp_billingAccountId : option string;
  rp_degraded : bool;
}.

Definition trialPolicyResult (degraded : bool) : ResolvedPolicy :=
  mkResolvedPolicy (mergePolicyOverrides (PLAN_POLICIES trial) (JObj [])) None degraded.

Definition set_economics (e : Economics) (p : AiPolicy) : AiPolicy :=
  mkAiPolicy (seatLimit p) (monthlyCapacity p) (qualityProfiles p) (routing p) e.
Definition hydrate (currentSpend remaining : Q) (e : Economics) : Economics :=
  mkEconomics (ec_monthlyAiBudgetUsd e) currentSpend remaining (ec_maxTaskCostUsd e).
Definition max_zero (q : Q) : Q := if Qle_bool 0 q then q else 0%Q.

(** [account] is the outcome of the account read, [spend] of the workspace
    fan-out with the spend query on it; [None] is an exception. *)
Definition resolvePolicyForWorkspace (account : option (option (string * BillingAccount)))
    (spend : string → option Q) : ResolvedPolicy :=
  match account with
  | None => trialPolicyResult true
  | Some None => trialPolicyResult false
  | Some (Some (id, a)) =>
      let basePolicy := mergePolicyOverrides (PLAN_POLICIES (ba_plan a)) (ba_policy_overrides a) in
      let budget := ec_monthlyAiBudgetUsd (economics basePolicy) in
      let degraded := is_null (spend id) in
      let currentSpendUsd := default 0%Q (spend id) in
      let remainingBudgetUsd := if degraded then budget else max_zero (budget - currentSpendUsd)%Q in
      mkResolvedPolicy
        (set_economics (hydrate currentSpendUsd remainingBudgetUsd (economics basePolicy)) basePolicy)
        (Some id) degraded
  end.

(** ** The routing gate *)

Definition rankOf (p : QualityProfile) : Z := match p with economy => 0 | standard => 1 | premium => 2 end.
Definition PROFILE_RANK_ASCENDING : list QualityProfile := [economy; standard; premium].
Definition entitled (s : ProfileSet) (p : QualityProfile) : bool :=
  match p with economy => ps_economy s | standard => ps_standard s | premium => ps_premium s end.

Definition effective_profile (policy : AiPolicy) (classified : QualityProfile) : QualityProfile :=
  let def := rt_defaultProfile (routing policy) in
  if (rankOf def <? rankOf classified) && negb (rt_allowEscalation (routing policy)) then def else classified.

(** The set, in its insertion order. *)
Definition allowedProfilesFor (policy : AiPolicy) (classified : QualityProfile) : list QualityProfile :=
  let effective := effective_profile policy classified in
  let base := effective :: (if rt_allowDowngrade (routing policy)
                            then List.filter (λ p, rankOf p <? rankOf effective) PROFILE_RANK_ASCENDING
                            else []) in
  List.filter (entitled (qualityProfiles policy)) base.

Inductive TaskType := mechanical | ui | general | refactor.
Definition classifyTaskProfile (taskType : TaskType) : QualityProfile :=
  match taskType with mechanical => economy | ui => standard | general => standard | refactor => premium end.

(** ** What a policy may ask of the router *)

Lemma elem_of_allowed policy c p :
  p ∈ allowedProfilesFor policy c ↔
  entitled (qualityProfiles policy) p = true
  ∧ (p = effective_profile policy c
     ∨ rt_allowDowngrade (routing policy) = true ∧ rankOf p < rankOf (effective_profile policy c)).
Proof.
  unfold allowedProfilesFor. rewrite list_elem_of_In, filter_In, <- list_elem_of_In, elem_of_cons.
  destruct (rt_allowDowngrade (routing policy)).
  - rewrite list_elem_of_In, filter_In, <- list_elem_of_In, Z.ltb_lt. unfold PROFILE_RANK_ASCENDING.
    destruct p; set_solver.
  - set_solver.
Qed.

(** The router is never offered more than was sold.  Whatever the
    policy, its overrides and the classification: every profile a task may run
    at is one the plan is entitled to, none ranks above what the task was
    classified as, none above the plan's default unless escalation is allowed,
    and without downgrade there is at most one; and where the resolved plan is
    not overridden, some profile is always left. *)
Theorem routing_entitlement policy c :
  (∀ p, p ∈ allowedProfilesFor policy c →
     entitled (qualityProfiles policy) p = true ∧ rankOf p ≤ rankOf c
     ∧ (rt_allowEscalation (routing policy) = false →
        rankOf p ≤ rankOf (rt_defaultProfile (routing policy)))
     ∧ (rt_allowDowngrade (routing policy) = false → allowedProfilesFor policy c = [p]))
  ∧ ∀ plan, allowedProfilesFor (mergePolicyOverrides (PLAN_POLICIES plan) (JObj [])) c ≠ [].
Proof.
  split; [|intros []; destruct c; vm_compute; done].
  intros p Hp. assert (Hp' := proj1 (elem_of_allowed policy c p) Hp). destruct Hp' as [He Hr].
  assert (Hc : rankOf (effective_profile policy c) ≤ rankOf c
    ∧ (rt_allowEscalation (routing policy) = false →
       rankOf (effective_profile policy c) ≤ rankOf (rt_defaultProfile (routing policy)))).
  { unfold effective_profile. destruct (rankOf _ <? rankOf c) eqn:Hl, (rt_allowEscalation _); simpl; bools;
      split; try lia; done. }
  destruct Hc as [Hc Hd]. assert (rankOf p ≤ rankOf (effective_profile policy c)) by (destruct Hr as [->|[_ ?]]; lia).
  split_and!; [done|lia|intros H'; specialize (Hd H'); lia|].
  intros Hnd. rewrite Hnd in Hr. destruct Hr as [->|[? _]]; [|done].
  unfold allowedProfilesFor. rewrite Hnd. simpl. by rewrite He.
Qed.

(** ** What an override can do *)

Lemma read_profile_text p :
  read_profile (match p with economy => "economy" | standard => "standard" | premium => "premium" end) = Some p.
Proof. by destruct p. Qed.

(** Merging is a projection: no override leaves the plan as it is, and merging
    the same override again changes nothing. *)
Lemma merge_nothing p : mergePolicyOverrides p (JObj []) = p.
Proof. by destruct p as [? ? [] [] []]. Qed.
Lemma merge_idempotent p o : mergePolicyOverrides (mergePolicyOverrides p o) o = mergePolicyOverrides p o.
Proof.
  unfold mergePolicyOverrides. simpl.
  assert (Hn : ∀ b x, overrideNumber (overrideNumber b x) x = overrideNumber b x) by by intros ? [[]|].
  assert (Hb : ∀ b x, overrideBoolean (overrideBoolean b x) x = overrideBoolean b x) by by intros ? [[]|].
  assert (Hq : ∀ b x, overrideQualityProfile (overrideQualityProfile b x) x = overrideQualityProfile b x).
  { intros b [[]|]; try done. simpl. by destruct (read_profile s). }
  by rewrite !Hn, !Hb, !Hq.
Qed.

(** The resolver never fails, and says when it is guessing: an
    account that cannot be read resolves to the trial plan marked degraded and
    with no account to enforce against; a spend that cannot be read leaves the
    account's own plan with its whole budget, marked degraded; and an answer that
    is not degraded carries the true spend, what is left of the budget, never
    negative, and every other entitlement of the account's plan and overrides. *)
Theorem resolver_fails_open account spend :
  let r := resolvePolicyForWorkspace account spend in
  match account with
  | None => rp_degraded r = true ∧ rp_billingAccountId r = None ∧ rp_policy r = PLAN_POLICIES trial
  | Some None => rp_degraded r = false ∧ rp_billingAccountId r = None ∧ rp_policy r = PLAN_POLICIES trial
  | Some (Some (id, a)) =>
      let p := mergePolicyOverrides (PLAN_POLICIES (ba_plan a)) (ba_policy_overrides a) in
      let e := economics (rp_policy r) in
      let budget := ec_monthlyAiBudgetUsd (economics p) in
      rp_billingAccountId r = Some id ∧ rp_policy r = set_economics e p
      ∧ ec_monthlyAiBudgetUsd e = budget
      ∧ match spend id with
        | None => rp_degraded r = true ∧ ec_remainingBudgetUsd e = budget
        | Some s => rp_degraded r = false ∧ ec_currentSpendUsd e = s ∧ (0 <= ec_remainingBudgetUsd e)%Q
                    ∧ ((s <= budget)%Q → ec_remainingBudgetUsd e == budget - s)%Q
        end
  end.
Proof.
  destruct account as [[[id a]|]|]; [|simpl; by rewrite merge_nothing..].
  unfold resolvePolicyForWorkspace. cbn zeta. generalize (mergePolicyOverrides (PLAN_POLICIES (ba_plan a)) (ba_policy_overrides a)).
  intros p. split_and!; try done. destruct (spend id) as [s|]; simpl; [|done].
  unfold max_zero. destruct (Qle_bool 0 (ec_monthlyAiBudgetUsd (economics p) - s)) eqn:E; split_and!; try done.
  - by apply Qle_bool_iff.
  - intros H. exfalso. apply not_true_iff_false in E. apply E. apply Qle_bool_iff. by apply Qle_minus_iff in H.
Qed.
