(* ===== verification/ClaimGate.v ===== *)
(** * ClaimGate: what stands between a runner and the queue

    The claim route [app/api/v1/runner/claim/route.ts], whole: bearer
    authentication, the precedence of self-hosted runners, the monthly budget
    ([queries/workspace_budget.ts]), the capacity of the plan
    ([queries/capacity.ts]), the wallet, the claim itself, and the notices sent
    once a period ([queries/upgrade_prompts.ts], [lib/billing-period.ts]). *)

From S2P Require Import Prelude Table QueueSchema Runner Intake DeviceAuth Billing Policy.
From Stdlib Require Import QArith Qround Ascii DecimalString.
Open Scope Z_scope.

(** ** The calendar

    [getUTCFullYear], [getUTCMonth] and [Date.UTC] on instants from 1970 on:
    months are counted from January 1970. *)

Definition DAY : Z := seconds (24 * 60 * 60).
Definition month_year (i : nat) : Z := 1970 + Z.of_nat i / 12.
(** From 1, as the texts print it. *)
Definition month_number (i : nat) : Z := Z.of_nat i mod 12 + 1.
Definition is_leap (y : Z) : bool :=
  ((y mod 4 =? 0) && negb (y mod 100 =? 0)) || (y mod 400 =? 0).
Definition month_length (i : nat) : Z :=
  let m := month_number i in
  if m =? 2 then (if is_leap (month_year i) then 29 else 28) else
  if bool_decide (m ∈ [4; 6; 9; 11]) then 30 else 31.
(** The days before a month. *)
Fixpoint month_start (i : nat) : Z :=
  match i with O => 0 | S j => month_start j + month_length j end.
(** The month of a day, searched upwards. *)
Fixpoint month_of (fuel i : nat) (start day : Z) : nat :=
  match fuel with
  | O => i
  | S f => if day <? start + month_length i then i else month_of f (S i) (start + month_length i) day
  end.
Definition utc_month (now : Z) : nat :=
  let day := now / DAY in month_of (S (Z.to_nat day)) 0 0 day.

(** [String(n).padStart(2, "0")] *)
Definition pad2 (n : Z) : string :=
  if n <? 10 then "0" +:+ show_N (Z.to_N n) else show_N (Z.to_N n).

Record BudgetWindow := mkBudgetWindow {
  bwn_period : string;
  bwn_periodStart : Z;
  bwn_periodEnd : Z;
}.
Definition currentBudgetWindow (now : Z) : BudgetWindow :=
  let i := utc_month now in
  mkBudgetWindow (show_N (Z.to_N (month_year i)) +:+ "-" +:+ pad2 (month_number i))
    (month_start i * DAY) (month_start (S i) * DAY).
(** [toISOString().slice(0, 10)] *)
Definition utc_day (now : Z) : string :=
  bwn_period (currentBudgetWindow now) +:+ "-" +:+ pad2 (now / DAY - month_start (utc_month now) + 1).

(** ** The tables *)

(** The budget columns of [workspaces]. *)
Record BudgetWorkspace := mkBudgetWorkspace {
  bg_monthly_budget_cents : option Z;
  bg_notified_period : option string;
}.
Definition set_notified (period : string) (b : BudgetWorkspace) : BudgetWorkspace :=
  mkBudgetWorkspace (bg_monthly_budget_cents b) (Some period).

Inductive PromptKind := pk_seat_limit | pk_capacity | pk_capacity_warning.
#[export] Instance PromptKind_eq_dec : EqDecision PromptKind.
Proof. solve_decision. Defined.
Definition prompt_kind_text (k : PromptKind) : string :=
  match k with
  | pk_seat_limit => "seat_limit" | pk_capacity => "capacity" | pk_capacity_warning => "capacity_warning"
  end.

(** The columns of [jace_sessions] a delivery reads. *)
Record ChatSession := mkChatSession {
  cs_workspace_id : option string;
  cs_channel : string;
  cs_conversation_key : string;
  cs_last_activity_at : Z;
}.

(** [upgrade_prompt_events] by its unique index - account, kind, conversation,
    period - to the channel recorded. *)
Definition PromptKey : Type := string * string * string * string.
Record ClaimDb := mkClaimDb {
  c_auth : AuthDb;
  c_queue : QueueDb;
  c_billing : BillingDb;
  c_budgets : gmap string BudgetWorkspace;
  c_prompts : gmap PromptKey string;
  c_sessions : list ChatSession;
}.
Definition with_auth (a : AuthDb) (d : ClaimDb) : ClaimDb :=
  mkClaimDb a (c_queue d) (c_billing d) (c_budgets d) (c_prompts d) (c_sessions d).
Definition with_c_queue (q : QueueDb) (d : ClaimDb) : ClaimDb :=
  mkClaimDb (c_auth d) q (c_billing d) (c_budgets d) (c_prompts d) (c_sessions d).
Definition with_budgets (t : gmap string BudgetWorkspace) (d : ClaimDb) : ClaimDb :=
  mkClaimDb (c_auth d) (c_queue d) (c_billing d) t (c_prompts d) (c_sessions d).
Definition with_prompts (t : gmap PromptKey string) (d : ClaimDb) : ClaimDb :=
  mkClaimDb (c_auth d) (c_queue d) (c_billing d) (c_budgets d) t (c_sessions d).

(** ** The queries *)

Definition getWorkspaceBudgetState (workspaceId : string) (d : ClaimDb) : option BudgetWorkspace :=
  c_budgets d !! workspaceId.

Definition run_in (workspaceId : string) (from to : Z) (_ : string) (r : Run) : bool :=
  (run_workspace_id r ≡? workspaceId) && (from <=? run_created_at r) && (run_created_at r <? to).
Definition sumWorkspaceSpendSince (workspaceId : string) (from to : Z) (d : ClaimDb) : Q :=
  foldr Qplus 0%Q ((run_cost_usd ∘ snd) <$> select_where (run_in workspaceId from to) (runs (c_queue d))).

Definition markBudgetExhaustedNotified (workspaceId period : string) (d : ClaimDb) : bool * ClaimDb :=
  let '(row, t) := update_row workspaceId (λ b, bool_decide (bg_notified_period b ≠ Some period))
                     (set_notified period) (c_budgets d) in
  (negb (is_null row), with_budgets t d).

Definition account_run (billingAccountId : string) (from to : Z) (d : ClaimDb) (_ : string) (r : Run) : bool :=
  match b_workspaces (c_billing d) !! run_workspace_id r with
  | Some w => sql_eq (bw_billing_account_id w) billingAccountId
  | None => false
  end && (from <=? run_created_at r) && (run_created_at r <? to).
Definition countAccountRunsStartedInWindow (billingAccountId : string) (from to : Z) (d : ClaimDb) : Z :=
  Z.of_nat (count_where (account_run billingAccountId from to d) (runs (c_queue d))).

Definition latestChatSessionForWorkspace (workspaceId : string) (d : ClaimDb) : option ChatSession :=
  snd <$> newest cs_last_activity_at
    (pair EmptyString <$> List.filter (λ s, sql_eq (cs_workspace_id s) workspaceId
       && bool_decide (cs_channel s ∈ ["telegram"; "discord"; "slack"])) (c_sessions d)).

Definition recordUpgradePromptOnce (key : PromptKey) (channel : string) (d : ClaimDb) : bool * ClaimDb :=
  match c_prompts d !! key with
  | Some _ => (false, d)
  | None => (true, with_prompts (<[key := channel]> (c_prompts d)) d)
  end.

(** ** The route *)

Inductive Notice :=
  | nt_budget (workspaceId period : string) (spend : Q) (ceilingCents : Z)
  | nt_budget_internal (workspaceId period : string)
  | nt_capacity (key : PromptKey) (workspaceId : string) (session : option ChatSession).

(** [process.env.BILLING_SUBSCRIPTIONS_ENFORCED] *)
Definition subscriptionsEnforced (env : option string) : bool := sql_eq env "1".

(** The monthly ceiling: whether the poll is refused, and what is sent. *)
Definition budget_gate (env : option string) (now : Z) (workspaceId : string) (d : ClaimDb)
    : bool * list Notice * ClaimDb :=
  match getWorkspaceBudgetState workspaceId d ≫= bg_monthly_budget_cents with
  | None => (false, [], d)
  | Some cents =>
      let w := currentBudgetWindow now in
      let spend := sumWorkspaceSpendSince workspaceId (bwn_periodStart w) (bwn_periodEnd w) d in
      if negb (Qle_bool (inject_Z cents / 100) spend) then (false, [], d) else
      let '(won, d1) := markBudgetExhaustedNotified workspaceId (bwn_period w) d in
      (true,
       if won then
         [if subscriptionsEnforced env then nt_budget_internal workspaceId (bwn_period w)
          else nt_budget workspaceId (bwn_period w) spend cents]
       else [], d1)
  end.

Definition maybeNotifyCapacity (now : Z) (billingAccountId workspaceId : string) (kind : PromptKind)
    (period : string) (d : ClaimDb) : list Notice * ClaimDb :=
  let session := latestChatSessionForWorkspace workspaceId d in
  let conversationKey := match session with Some s => cs_conversation_key s
                         | None => "workspace:" +:+ workspaceId end in
  let periodKey := if kind ≡? pk_capacity then utc_day now else period in
  let key := (billingAccountId, prompt_kind_text kind, conversationKey, periodKey) in
  let channel := match session with Some s => cs_channel s | None => "none" end in
  let '(won, d1) := recordUpgradePromptOnce key channel d in
  (if won then [nt_capacity key workspaceId session] else [], d1).

Definition math_ceil (q : Q) : Z := - Qfloor (- q).

(** The capacity of the plan; [account] is the outcome of the account read. *)
Definition capacity_gate (env : option string) (now : Z) (workspaceId : string)
    (account : option (option (string * BillingAccount))) (d : ClaimDb) : bool * list Notice * ClaimDb :=
  if negb (subscriptionsEnforced env) then (false, [], d) else
  let resolved := resolvePolicyForWorkspace account (λ _, Some 0%Q) in
  match rp_degraded resolved, rp_billingAccountId resolved with
  | false, Some (String _ _ as billingAccountId) =>
      let w := currentBudgetWindow now in
      let used := countAccountRunsStartedInWindow billingAccountId (bwn_periodStart w) (bwn_periodEnd w) d in
      let capacity := monthlyCapacity (rp_policy resolved) in
      if Qle_bool capacity (inject_Z used) then
        let '(n, d1) := maybeNotifyCapacity now billingAccountId workspaceId pk_capacity (bwn_period w) d in
        (true, n, d1)
      else if math_ceil (capacity * (8 # 10))%Q <=? used then
        let '(n, d1) := maybeNotifyCapacity now billingAccountId workspaceId pk_capacity_warning (bwn_period w) d in
        (false, n, d1)
      else (false, [], d)
  | _, _ => (false, [], d)
  end.

Inductive ClaimResponse :=
  | resp_error (status : Z)
  | resp_empty
  | resp_blocked (header : string)
  | resp_item (item : WorkItem).

Section Route.
Variable sha256 : string → string.

(** GET, up to the item; the key lookups that decorate it are best-effort
    reads.  A notice is sent by a call nobody waits for, which runs to its end. *)
Definition claim_route (env : option string) (now : Z) (fresh : string) (authorization : option string)
    (workspace_id : option string) (d : ClaimDb) : ClaimResponse * list Notice * ClaimDb :=
  match requireBearer sha256 authorization DEFAULT_BEARER_KINDS (c_auth d) with
  | inr status => (resp_error status, [], d)
  | inl auth =>
      match workspace_id with
      | None | Some EmptyString => (resp_error 400, [], d)
      | Some workspaceId =>
          if br_workspaceId auth ≢? workspaceId then (resp_error 403, [], d) else
          let d0 := with_auth (touchApiKeyLastUsed now (br_apiKeyId auth) (c_auth d)) d in
          if (br_kind auth ≡? fleet) && hasActiveSelfHostedRunner now workspaceId (c_auth d0)
          then (resp_empty, [], d0) else
          let '(over_budget, n1, d1) := budget_gate env now workspaceId d0 in
          if over_budget then (resp_blocked "workspace-budget", n1, d1) else
          let account := Some (getBillingAccountForWorkspace workspaceId (c_billing d1)) in
          let '(over_capacity, n2, d2) := capacity_gate env now workspaceId account d1 in
          if over_capacity then (resp_blocked "capacity", n2, d2) else
          if negb (wallet_admission workspaceId (queue_entries (c_queue d2)) (c_billing d2))
          then (resp_blocked "wallet-balance", n2, d2) else
          let '(item, q) := claimQueueEntry now fresh workspaceId (c_queue d2) in
          (match item with None => resp_empty | Some w => resp_item w end, n2, with_c_queue q d2)
      end
  end.
End Route.

(** ** The calendar is right *)

Lemma month_length_bounds i : 28 ≤ month_length i ≤ 31.
Proof. unfold month_length. repeat case_match; lia. Qed.
Lemma month_start_mono i j : (i ≤ j)%nat → month_start i ≤ month_start j.
Proof.
  induction 1 as [|j _ IH]; [done|]. simpl. assert (H := month_length_bounds j). lia.
Qed.
Lemma month_start_nonneg i : 0 ≤ month_start i.
Proof. apply (month_start_mono 0). lia. Qed.

Lemma month_of_spec fuel i day :
  month_start i ≤ day → day < month_start i + 28 * Z.of_nat fuel →
  let j := month_of fuel i (month_start i) day in month_start j ≤ day < month_start (S j).
Proof.
  revert i. induction fuel as [|f IH]; intros i Hlo Hhi; [lia|]. cbn [month_of].
  destruct (Z.ltb_spec day (month_start i + month_length i)); [by split|].
  change (month_start i + month_length i) with (month_start (S i)) in *.
  apply IH; [done|]. simpl in *. assert (Hl := month_length_bounds i). lia.
Qed.

Lemma utc_month_spec now :
  0 ≤ now → month_start (utc_month now) ≤ now / DAY < month_start (S (utc_month now)).
Proof.
  intros Hn. unfold utc_month. assert (0 ≤ now / DAY) by (apply Z.div_pos; [done|vm_compute; done]).
  apply (month_of_spec _ 0); simpl; lia.
Qed.
Lemma utc_month_unique now i :
  0 ≤ now → month_start i ≤ now / DAY < month_start (S i) → utc_month now = i.
Proof.
  intros Hn Hi. assert (H := utc_month_spec now Hn).
  destruct (Nat.lt_trichotomy (utc_month now) i) as [Hl|[->|Hl]]; [|done|].
  - assert (Hm := month_start_mono _ _ Hl). lia.
  - assert (Hm := month_start_mono _ _ Hl). lia.
Qed.
Lemma utc_month_mono a b : 0 ≤ a → a ≤ b → (utc_month a ≤ utc_month b)%nat.
Proof.
  intros Ha Hab. assert (H1 := utc_month_spec a Ha). assert (H2 := utc_month_spec b ltac:(lia)).
  assert (a / DAY ≤ b / DAY) by (apply Z.div_le_mono; [vm_compute; done|done]).
  destruct (Nat.le_gt_cases (utc_month a) (utc_month b)) as [|Hl]; [done|].
  assert (Hm := month_start_mono (S (utc_month b)) (utc_month a) Hl). lia.
Qed.

(** The text of a period names its month. *)
Lemma pad2_no_dash n : contains_char "-"%char (pad2 n) = false.
Proof.
  assert (H : ∀ k, contains_char "-"%char (show_N k) = false).
  { intros k. unfold show_N. induction (N.to_uint k); simpl; auto. }
  unfold pad2. destruct (n <? 10); simpl; apply H.
Qed.
Lemma pad2_inj a b : 0 ≤ a → 0 ≤ b → pad2 a = pad2 b → a = b.
Proof.
  assert (Hr : ∀ x, 0 ≤ x → read_N (pad2 x) = Some (Z.to_N x)).
  { intros x Hx. unfold pad2. destruct (x <? 10); [|apply read_show_N].
    assert (H := read_show_N (Z.to_N x)). revert H. generalize (show_N (Z.to_N x)). intros s.
    change ("0" +:+ s) with (String "0"%char s). unfold read_N. simpl.
    by destruct (NilEmpty.uint_of_string s) as [u|]. }
  intros Ha Hb E. apply (f_equal read_N) in E. rewrite !Hr in E by done. injection E as E. lia.
Qed.
Lemma period_inj a b :
  bwn_period (currentBudgetWindow a) = bwn_period (currentBudgetWindow b) → utc_month a = utc_month b.
Proof.
  unfold currentBudgetWindow. simpl. generalize (utc_month a) (utc_month b). intros i j E.
  assert (Hd : ∀ x, "-" +:+ x = String "-"%char x) by done. rewrite !Hd in E.
  apply (f_equal (split_last "-"%char)) in E. rewrite !split_last_app in E by apply pad2_no_dash.
  injection E as Ey Em. apply (inj show_N) in Ey. apply pad2_inj in Em;
    unfold month_year, month_number in *; Z.to_euclidean_division_equations; lia.
Qed.

(** The budget window is the calendar month.  From 1970 on, the
    window of an instant contains it; the instants in it are exactly those with
    the same period key; and the windows follow each other without a gap, each
    28 to 31 days long. *)
Theorem budget_window_is_the_month now :
  0 ≤ now →
  let w := currentBudgetWindow now in
  bwn_periodStart w ≤ now < bwn_periodEnd w
  ∧ (∀ t, 0 ≤ t → bwn_period (currentBudgetWindow t) = bwn_period w ↔ bwn_periodStart w ≤ t < bwn_periodEnd w)
  ∧ bwn_periodStart (currentBudgetWindow (bwn_periodEnd w)) = bwn_periodEnd w
  ∧ 28 * DAY ≤ bwn_periodEnd w - bwn_periodStart w ≤ 31 * DAY.
Proof.
  intros Hn. cbn zeta. assert (HD : 0 < DAY) by (vm_compute; done).
  assert (Hin : ∀ t i, month_start i * DAY ≤ t < month_start (S i) * DAY
                       ↔ month_start i ≤ t / DAY < month_start (S i)).
  { intros t i. generalize (month_start i) (month_start (S i)). intros a b. split; intros [H1 H2]; split.
    - apply Z.div_le_lower_bound; lia.
    - apply Z.div_lt_upper_bound; lia.
    - assert (H := Z.mul_div_le t DAY HD). nia.
    - assert (H := Z.mul_succ_div_gt t DAY HD). nia. }
  assert (Hw : ∀ t, bwn_periodStart (currentBudgetWindow t) = month_start (utc_month t) * DAY
                    ∧ bwn_periodEnd (currentBudgetWindow t) = month_start (S (utc_month t)) * DAY) by done.
  destruct (Hw now) as [-> ->]. split_and!.
  - apply Hin. by apply utc_month_spec.
  - apply Hin. by apply utc_month_spec.
  - intros t Ht. rewrite Hin. split.
    + intros E%period_inj. rewrite <- E. by apply utc_month_spec.
    + intros H. apply (utc_month_unique t) in H; [|done]. unfold currentBudgetWindow. by rewrite H.
  - destruct (Hw (month_start (S (utc_month now)) * DAY)) as [-> _]. f_equal. f_equal.
    assert (Hs := month_start_nonneg (S (utc_month now))). apply utc_month_unique; [nia|].
    rewrite Z.div_mul by lia. assert (Hl := month_length_bounds (S (utc_month now))).
    cbn [month_start]. lia.
  - cbn [month_start]. assert (Hl := month_length_bounds (utc_month now)). nia.
  - cbn [month_start]. assert (Hl := month_length_bounds (utc_month now)). nia.
Qed.

(** ** The gates *)

(** The parts of the state the gates only read. *)
Definition same_work (d d' : ClaimDb) : Prop :=
  c_auth d' = c_auth d ∧ c_queue d' = c_queue d ∧ c_billing d' = c_billing d ∧ c_sessions d' = c_sessions d.
#[export] Instance same_work_preorder : PreOrder same_work.
Proof. split; [done|]. intros ??? (?&?&?&?) (?&?&?&?). unfold same_work. split_and!; congruence. Qed.

Definition under_budget (now : Z) (workspaceId : string) (d : ClaimDb) : Prop :=
  ∀ cents, getWorkspaceBudgetState workspaceId d ≫= bg_monthly_budget_cents = Some cents →
    (sumWorkspaceSpendSince workspaceId (bwn_periodStart (currentBudgetWindow now))
       (bwn_periodEnd (currentBudgetWindow now)) d < inject_Z cents / 100)%Q.

Definition capacity_of (a : BillingAccount) : Q :=
  monthlyCapacity (mergePolicyOverrides (PLAN_POLICIES (ba_plan a)) (ba_policy_overrides a)).
Definition under_capacity (env : option string) (now : Z) (workspaceId : string) (d : ClaimDb) : Prop :=
  ∀ id a, env = Some "1" → getBillingAccountForWorkspace workspaceId (c_billing d) = Some (id, a) →
    id ≠ EmptyString →
    (inject_Z (countAccountRunsStartedInWindow id (bwn_periodStart (currentBudgetWindow now))
       (bwn_periodEnd (currentBudgetWindow now)) d) < capacity_of a)%Q.

Lemma Qle_bool_false a b : Qle_bool a b = false ↔ (b < a)%Q.
Proof.
  rewrite <- not_true_iff_false, Qle_bool_iff. split; [apply Qnot_le_lt|apply Qlt_not_le].
Qed.

Lemma budget_gate_spec env now ws d :
  let r := budget_gate env now ws d in
  (r.1.1 = false ↔ under_budget now ws d) ∧ same_work d r.2 ∧ (r.1.1 = false → r.1.2 = [] ∧ r.2 = d).
Proof.
  cbn zeta. unfold budget_gate, under_budget. destruct (_ ≫= _) as [cents|]; simpl; [|split_and!; try done].
  destruct (Qle_bool _ _) eqn:E; simpl.
  - unfold markBudgetExhaustedNotified. destruct (update_row _ _ _ _) as [row t]. simpl. split_and!; try done.
    split; [done|]. intros H. apply Qle_bool_iff in E. by apply Qlt_not_le in E; [|apply H].
  - split_and!; try done. split; [|done]. intros _ ? [= <-]. by apply Qle_bool_false.
Qed.

Lemma notify_same_work now b ws k p d : same_work d (maybeNotifyCapacity now b ws k p d).2.
Proof.
  unfold maybeNotifyCapacity, recordUpgradePromptOnce. destruct (c_prompts d !! _); by split_and!.
Qed.

Lemma capacity_gate_spec env now ws d :
  let r := capacity_gate env now ws (Some (getBillingAccountForWorkspace ws (c_billing d))) d in
  (r.1.1 = false ↔ under_capacity env now ws d) ∧ same_work d r.2.
Proof.
  cbn zeta. unfold capacity_gate, under_capacity, subscriptionsEnforced, sql_eq.
  case_bool_decide as He; simpl; [|split; [split|]; naive_solver].
  unfold resolvePolicyForWorkspace.
  destruct (getBillingAccountForWorkspace ws (c_billing d)) as [[id a]|]; simpl;
    [|split; [split|]; naive_solver].
  destruct id as [|c id]; [split; [split|]; naive_solver|]. fold (capacity_of a).
  destruct (Qle_bool _ _) eqn:E.
  - assert (H := notify_same_work now (String c id) ws pk_capacity (bwn_period (currentBudgetWindow now)) d).
    unfold currentBudgetWindow in H. simpl in H.
    destruct (maybeNotifyCapacity _ _ _ _ _ _) as [n d1]. split; [|exact H]. simpl. split; [done|].
    intros Hu. apply Qle_bool_iff in E. apply Qlt_not_le in E; [done|]. by apply Hu.
  - assert (Hlt : ∀ id0 a0, Some "1" = Some "1" → Some (String c id, a) = Some (id0, a0) → id0 ≠ EmptyString → _)
      by (intros id0 a0 _ [= <- <-] _; exact (proj1 (Qle_bool_false _ _) E)).
    destruct (_ <=? _).
    + assert (H := notify_same_work now (String c id) ws pk_capacity_warning (bwn_period (currentBudgetWindow now)) d).
      unfold currentBudgetWindow in H. simpl in H.
      destruct (maybeNotifyCapacity _ _ _ _ _ _) as [n d1]. split; [|exact H]. simpl. subst env. by split.
    + simpl. subst env. by split.
Qed.

(** A fleet key does not take itself for a self-hosted runner. *)
Lemma fleet_touch now id ws a k :
  api_keys a !! id = Some k → ak_kind k = fleet →
  hasActiveSelfHostedRunner now ws (touchApiKeyLastUsed now id a)
  = hasActiveSelfHostedRunner now ws a.
Proof.
  intros Hk Hf. unfold hasActiveSelfHostedRunner, touchApiKeyLastUsed, update_row. rewrite Hk. simpl.
  assert (Hd : ∀ r, ak_kind r = fleet → ∀ k', live_self_hosted now ws k' r = false).
  { intros r Hr k'. unfold live_self_hosted. rewrite Hr. simpl. by rewrite andb_false_r. }
  apply bool_iff. rewrite !selects_iff. split; intros (k' & r & Hr & Hl); exists k', r;
    (split; [|done]); destruct (decide (id = k')) as [<-|Hne].
  - rewrite lookup_insert_eq in Hr. injection Hr as <-. by rewrite Hd in Hl.
  - by rewrite lookup_insert_ne in Hr.
  - rewrite Hk in Hr. injection Hr as <-. by rewrite Hd in Hl.
  - by rewrite lookup_insert_ne.
Qed.

Lemma requireBearer_key sha256 h kinds a b :
  requireBearer sha256 h kinds a = inl b →
  ∃ k, api_keys a !! br_apiKeyId b = Some k ∧ ak_kind k = br_kind b ∧ ak_workspace_id k = br_workspaceId b
    ∧ ak_revoked_at k = None ∧ br_kind b ∈ kinds.
Proof.
  unfold requireBearer, lookupApiKeyByHash. destruct h as [h|]; [|done]. destruct (negb _); [done|].
  destruct (Regex.trim _) as [|c raw]; [done|].
  destruct (select_where _ _) as [|[id row] l] eqn:E; [done|]. simpl.
  destruct (bool_decide (ak_kind row ∈ kinds)) eqn:Hk; [|done]. intros [= <-]. simpl.
  assert ((id, row) ∈ select_where (λ _ r, (ak_key_hash r ≡? sha256 (String c raw)) && is_null (ak_revoked_at r))
    (api_keys a)) as [Hin Hp]%elem_of_select_where by (rewrite E; set_solver).
  bools. exists row. split_and!; try done. by destruct (ak_revoked_at row).
Qed.

(** ** The whole route *)

(** All that stands between a request and the queue. *)
Definition gates_open (env : option string) (now : Z) (auth : BearerAuthResult) (d : ClaimDb) : Prop :=
  let ws := br_workspaceId auth in
  (br_kind auth = fleet → hasActiveSelfHostedRunner now ws (c_auth d) = false)
  ∧ under_budget now ws d ∧ under_capacity env now ws d
  ∧ wallet_admission ws (queue_entries (c_queue d)) (c_billing d) = true.

Definition passes (sha256 : string → string) (env : option string) (now : Z)
    (authorization workspace_id : option string) (d : ClaimDb) (auth : BearerAuthResult) : Prop :=
  requireBearer sha256 authorization DEFAULT_BEARER_KINDS (c_auth d) = inl auth
  ∧ workspace_id = Some (br_workspaceId auth) ∧ br_workspaceId auth ≠ EmptyString
  ∧ gates_open env now auth d.

(** The claim of the queue, or a response that hands nothing out and leaves the
    queue alone. *)
Definition route_claims (now : Z) (fresh : string) (d : ClaimDb) (auth : BearerAuthResult)
    (r : ClaimResponse * list Notice * ClaimDb) : Prop :=
  let claim := claimQueueEntry now fresh (br_workspaceId auth) (c_queue d) in
  r.1.1 = match claim.1 with Some w => resp_item w | None => resp_empty end ∧ c_queue r.2 = claim.2.
Definition route_refuses (d : ClaimDb) (r : ClaimResponse * list Notice * ClaimDb) : Prop :=
  (∀ item, r.1.1 ≠ resp_item item) ∧ c_queue r.2 = c_queue d.

Lemma claim_route_cases sha256 env now fresh authorization workspace_id d :
  let r := claim_route sha256 env now fresh authorization workspace_id d in
  (∃ auth, passes sha256 env now authorization workspace_id d auth ∧ route_claims now fresh d auth r)
  ∨ (∀ auth, ¬ passes sha256 env now authorization workspace_id d auth) ∧ route_refuses d r.
Proof.
  cbn zeta. unfold claim_route, passes, gates_open, route_refuses.
  destruct (requireBearer sha256 authorization DEFAULT_BEARER_KINDS (c_auth d)) as [auth|st] eqn:Ha;
    [|right; split; naive_solver].
  destruct workspace_id as [[|c ws']|]; [right; split; [|done]; naive_solver| |right; split; [|done]; naive_solver].
  set (ws := String c ws'). assert (Hne : ws ≠ EmptyString) by done. clearbody ws.
  case_bool_decide as Hws; [|right; split; [|done]; naive_solver]. cbn [negb]. subst ws.
  set (d0 := with_auth _ d).
  assert (Hf : br_kind auth = fleet → hasActiveSelfHostedRunner now (br_workspaceId auth) (c_auth d0)
                 = hasActiveSelfHostedRunner now (br_workspaceId auth) (c_auth d)).
  { intros Hk. destruct (requireBearer_key _ _ _ _ _ Ha) as (k & Hid & Hkk & _). eapply fleet_touch; [done|]. congruence. }
  destruct ((br_kind auth ≡? fleet) && _) eqn:Hpre.
  { right. split; [|done]. intros auth' (Heq & _ & _ & Hg & _). simplify_eq. bools. rewrite Hf in * by done.
    by rewrite Hg in *. }
  assert (Hpre' : br_kind auth = fleet → hasActiveSelfHostedRunner now (br_workspaceId auth) (c_auth d) = false).
  { intros Hk. rewrite <- (Hf Hk). by rewrite bool_decide_eq_true_2 in Hpre. }
  destruct (budget_gate_spec env now (br_workspaceId auth) d0) as (Hb & Hbs & Hbd).
  destruct (budget_gate env now (br_workspaceId auth) d0) as [[ob n1] d1]. cbn [fst snd] in Hb, Hbs, Hbd.
  destruct ob.
  { right. split; [|split; [done|by apply Hbs]]. intros auth' (Heq & _ & _ & _ & Hu & _). simplify_eq.
    by apply Hb in Hu. }
  destruct (Hbd eq_refl) as [_ ->].
  destruct (capacity_gate_spec env now (br_workspaceId auth) d0) as (Hc & Hcs).
  destruct (capacity_gate env now (br_workspaceId auth) _ d0) as [[oc n2] d2]. cbn [fst snd] in Hc, Hcs.
  destruct oc.
  { right. split; [|split; [done|by apply Hcs]]. intros auth' (Heq & _ & _ & _ & _ & Hu & _). simplify_eq.
    by apply Hc in Hu. }
  destruct Hcs as (_ & Hq & Hbill & _). rewrite Hq, Hbill.
  change (c_queue d0) with (c_queue d). change (c_billing d0) with (c_billing d).
  destruct (wallet_admission (br_workspaceId auth) _ _) eqn:Hw; cbn [negb].
  - left. exists auth. split; [split_and!; try done; [by apply Hb|by apply Hc]|].
    unfold route_claims. by destruct (claimQueueEntry _ _ _ _) as [[w|] q].
  - right. split; [|split; [done|exact Hq]]. intros auth' (Heq & _ & _ & _ & _ & _ & Hw'). simplify_eq.
    congruence.
Qed.

(** The claim route, exactly.  A request is handed an item if
    and only if its bearer is a live runner key of the workspace it asks for, no
    self-hosted runner takes precedence over a fleet, the month's spend is under
    the workspace's ceiling, the account's runs of the month are under its plan's
    capacity (when subscriptions are enforced), the wallet admits the head of the
    queue, and the queue's own claim returns that item; and unless all the gates
    are open the queue is left exactly as it was. *)
Theorem claim_route_exact sha256 env now fresh authorization workspace_id d :
  let r := claim_route sha256 env now fresh authorization workspace_id d in
  let passes := passes sha256 env now authorization workspace_id d in
  (∀ item, r.1.1 = resp_item item ↔
     ∃ auth, passes auth ∧ (claimQueueEntry now fresh (br_workspaceId auth) (c_queue d)).1 = Some item)
  ∧ ((∀ auth, ¬ passes auth) → c_queue r.2 = c_queue d)
  ∧ (∀ auth, passes auth → c_queue r.2 = (claimQueueEntry now fresh (br_workspaceId auth) (c_queue d)).2).
Proof.
  cbn zeta. assert (Hu : ∀ a b, passes sha256 env now authorization workspace_id d a →
    passes sha256 env now authorization workspace_id d b → a = b).
  { intros a b (Ha & _) (Hb & _). congruence. }
  destruct (claim_route_cases sha256 env now fresh authorization workspace_id d)
    as [(auth & Hp & Hr & Hq)|(Hn & Hi & Hq)]; split_and!.
  - intros item. rewrite Hr. split.
    + intros H. exists auth. split; [done|]. destruct (claimQueueEntry _ _ _ _).1; congruence.
    + intros (auth' & Hp' & Hc). rewrite (Hu auth auth' Hp Hp'), Hc. done.
  - intros H. by destruct (H auth).
  - intros auth' Hp'. by rewrite <- (Hu auth auth' Hp Hp').
  - intros item. split; [intros H; by destruct (Hi item)|]. intros (auth & Hp & _). by destruct (Hn auth).
  - done.
  - intros auth Hp. by destruct (Hn auth).
Qed.

(** ** Notices *)


Definition budget_key (n : Notice) : option (string * string) :=
  match n with
  | nt_budget ws p _ _ | nt_budget_internal ws p => Some (ws, p)
  | nt_capacity _ _ _ => None
  end.
Definition prompt_key (n : Notice) : option PromptKey :=
  match n with nt_capacity k _ _ => Some k | _ => None end.

(** What one poll sends, and what it remembers of it. *)
Inductive notices_spec (now : Z) (d : ClaimDb) : list Notice → ClaimDb → Prop :=
| ns_none d' : c_budgets d' = c_budgets d → c_prompts d' = c_prompts d → notices_spec now d [] d'
| ns_budget n ws b d' :
    budget_key n = Some (ws, bwn_period (currentBudgetWindow now)) →
    bg_notified_period b ≠ Some (bwn_period (currentBudgetWindow now)) →
    c_budgets d !! ws = Some b →
    c_budgets d' = <[ws := set_notified (bwn_period (currentBudgetWindow now)) b]> (c_budgets d) →
    c_prompts d' = c_prompts d → notices_spec now d [n] d'
| ns_capacity key ws s ch d' :
    c_prompts d !! key = None → c_prompts d' = <[key := ch]> (c_prompts d) →
    c_budgets d' = c_budgets d → notices_spec now d [nt_capacity key ws s] d'.

Lemma budget_gate_notices env now ws d :
  let r := budget_gate env now ws d in notices_spec now d r.1.2 r.2.
Proof.
  cbn zeta. unfold budget_gate. destruct (_ ≫= _) as [cents|]; [|by apply ns_none].
  destruct (Qle_bool _ _); cbn [negb]; [|by apply ns_none].
  unfold markBudgetExhaustedNotified.
  destruct (update_rowP (λ b, bool_decide (bg_notified_period b ≠ Some (bwn_period (currentBudgetWindow now))))
              (set_notified (bwn_period (currentBudgetWindow now))) ws (c_budgets d)) as [b Hb Hp|_]; cbn [fst snd negb is_null].
  - bools. eapply ns_budget; [|done..]. by destruct (subscriptionsEnforced env).
  - by apply ns_none.
Qed.

Lemma maybe_notices now b ws k p d :
  let r := maybeNotifyCapacity now b ws k p d in notices_spec now d r.1 r.2.
Proof.
  cbn zeta. unfold maybeNotifyCapacity, recordUpgradePromptOnce.
  destruct (c_prompts d !! _) eqn:E; simpl; [by apply ns_none|]. by eapply ns_capacity.
Qed.
Lemma capacity_gate_notices env now ws a d :
  let r := capacity_gate env now ws a d in notices_spec now d r.1.2 r.2.
Proof.
  cbn zeta. unfold capacity_gate. destruct (negb _); [by apply ns_none|].
  generalize (resolvePolicyForWorkspace a (λ _, Some 0%Q)). intros [pol [[|c id]|] []]; cbn [rp_degraded rp_billingAccountId];
    try by apply ns_none.
  set (id' := String c id). clearbody id'.
  destruct (Qle_bool _ _); [|destruct (_ <=? _)]; [..|by apply ns_none].
  - assert (H := maybe_notices now id' ws pk_capacity (bwn_period (currentBudgetWindow now)) d).
    by destruct (maybeNotifyCapacity _ _ _ _ _ _).
  - assert (H := maybe_notices now id' ws pk_capacity_warning (bwn_period (currentBudgetWindow now)) d).
    by destruct (maybeNotifyCapacity _ _ _ _ _ _).
Qed.

Lemma notices_with now d n d' d0 d1 :
  notices_spec now d0 n d' → c_budgets d0 = c_budgets d → c_prompts d0 = c_prompts d →
  c_budgets d1 = c_budgets d' → c_prompts d1 = c_prompts d' → notices_spec now d n d1.
Proof.
  intros [x Hb Hp|x ws b y Hk Hn Hb Hb' Hp|key ws s ch y Hk Hp Hb] E1 E2 E3 E4.
  - apply ns_none; congruence.
  - eapply ns_budget; [done|done|congruence..].
  - apply (ns_capacity now d key ws s ch); congruence.
Qed.

Lemma claim_route_notices sha256 env now fresh h wsid d :
  let r := claim_route sha256 env now fresh h wsid d in notices_spec now d r.1.2 r.2.
Proof.
  cbn zeta. unfold claim_route. destruct (requireBearer _ _ _ _) as [auth|]; [|by apply ns_none].
  destruct wsid as [[|c ws']|]; [by apply ns_none| |by apply ns_none].
  set (ws := String c ws'). clearbody ws. destruct (_ ≢? ws); [by apply ns_none|].
  set (d0 := with_auth _ d). destruct (_ && _); [by apply ns_none|].
  assert (Hb := budget_gate_notices env now ws d0). destruct (budget_gate_spec env now ws d0) as (_ & _ & Hbd).
  destruct (budget_gate env now ws d0) as [[ob n1] d1]. cbn [fst snd] in Hb, Hbd.
  destruct ob; [by eapply notices_with|]. destruct (Hbd eq_refl) as [_ ->].
  assert (Hc := capacity_gate_notices env now ws (Some (getBillingAccountForWorkspace ws (c_billing d0))) d0).
  destruct (capacity_gate env now ws _ d0) as [[oc n2] d2]. cbn [fst snd] in Hc.
  destruct oc; [by eapply notices_with|].
  destruct (negb _); [by eapply notices_with|].
  destruct (claimQueueEntry _ _ _ _) as [item q]. by eapply notices_with.
Qed.

(** Polls of runners, one after the other. *)
Record Poll := mkPoll {
  po_env : option string;
  po_now : Z;
  po_fresh : string;
  po_authorization : option string;
  po_workspace_id : option string;
}.
Fixpoint polls (sha256 : string → string) (ps : list Poll) (d : ClaimDb) : list Notice :=
  match ps with
  | [] => []
  | p :: ps' =>
      let r := claim_route sha256 (po_env p) (po_now p) (po_fresh p) (po_authorization p) (po_workspace_id p) d in
      r.1.2 ++ polls sha256 ps' r.2
  end.
(** A clock that does not run backwards. *)
Fixpoint clocked (from : Z) (ps : list Poll) : Prop :=
  match ps with [] => True | p :: ps' => from ≤ po_now p ∧ clocked (po_now p) ps' end.

(** The month a workspace was last told of is at least [i]. *)
Definition told (ws : string) (i : nat) (now : Z) (d : ClaimDb) : Prop :=
  ∃ b t, c_budgets d !! ws = Some b ∧ bg_notified_period b = Some (bwn_period (currentBudgetWindow t))
    ∧ 0 ≤ t ≤ now ∧ (i ≤ utc_month t)%nat.

Lemma told_step ws i now0 now d n d' :
  0 ≤ now0 → now0 ≤ now → notices_spec now d n d' → told ws i now0 d →
  told ws i now d' ∧ ∀ t, (ws, bwn_period (currentBudgetWindow t)) ∈ omap budget_key n → utc_month t = i → False.
Proof.
  intros H0 Hle Hs (b & t & Hb & Hn & Ht & Hi). destruct Hs as [d1 Hb1 _|x ws1 b1 d1 Hk Hne Hb1 Hb1' _|key ws1 s ch d1 _ _ Hb1].
  - split; [|intros t' H; by apply not_elem_of_nil in H]. exists b, t. rewrite Hb1. split_and!; try done; lia.
  - destruct (decide (ws1 = ws)) as [->|Hw].
    + split.
      * eexists _, now. rewrite Hb1', lookup_insert_eq. split_and!; [done|done|lia|lia|].
        etrans; [exact Hi|]. apply utc_month_mono; lia.
      * intros t' Hin Ht'. simpl in Hin. rewrite Hk in Hin. apply list_elem_of_singleton in Hin. injection Hin as Hin.
        apply period_inj in Hin. apply Hne. rewrite Hb in Hb1. injection Hb1 as <-. rewrite Hn.
        assert (Hm := utc_month_mono t now ltac:(lia) ltac:(lia)).
        assert (utc_month t = utc_month now) as Hm' by lia. unfold currentBudgetWindow. by rewrite Hm'.
    + split.
      * exists b, t. rewrite Hb1', lookup_insert_ne by done. split_and!; try done; lia.
      * intros t' Hin _. simpl in Hin. rewrite Hk in Hin. apply list_elem_of_singleton in Hin. congruence.
  - split; [|intros t' H; by apply not_elem_of_nil in H]. exists b, t. rewrite Hb1. split_and!; try done; lia.
Qed.

Lemma told_polls sha256 ps ws i now d t :
  0 ≤ now → clocked now ps → told ws i now d → utc_month t = i →
  (ws, bwn_period (currentBudgetWindow t)) ∉ omap budget_key (polls sha256 ps d).
Proof.
  revert now d. induction ps as [|p ps IH]; intros now d H0 Hc Ht Hi; simpl; [apply not_elem_of_nil|].
  destruct Hc as [Hle Hc].
  destruct (told_step _ _ _ _ _ _ _ H0 Hle (claim_route_notices sha256 (po_env p) (po_now p) (po_fresh p)
    (po_authorization p) (po_workspace_id p) d) Ht) as [Ht' Hn].
  rewrite omap_app, not_elem_of_app. split; [intros Hin; exact (Hn t Hin Hi)|].
  eapply IH; [|exact Hc|exact Ht'|exact Hi]. lia.
Qed.

Lemma prompted_polls sha256 ps key d :
  is_Some (c_prompts d !! key) → key ∉ omap prompt_key (polls sha256 ps d).
Proof.
  revert d. induction ps as [|p ps IH]; intros d Hk; simpl; [apply not_elem_of_nil|].
  rewrite omap_app, not_elem_of_app.
  destruct (claim_route_notices sha256 (po_env p) (po_now p) (po_fresh p) (po_authorization p) (po_workspace_id p) d)
    as [d1 _ Hp|x ws1 b1 d1 Hbk _ _ _ Hp|key1 ws1 s ch d1 Hn Hp _].
  - split; [apply not_elem_of_nil|]. apply IH. by rewrite Hp.
  - split; [|apply IH; by rewrite Hp]. destruct x; simpl in *; try apply not_elem_of_nil. done.
  - assert (key1 ≠ key) as Hne by (intros ->; rewrite Hn in Hk; by destruct Hk).
    split; [intros Hin; apply list_elem_of_singleton in Hin; congruence|]. apply IH. rewrite Hp.
    by rewrite lookup_insert_ne.
Qed.

(** A notice is sent once.  However often a refused runner polls,
    as long as the clock does not run backwards: a workspace is told that its
    budget is exhausted at most once in a calendar month, and a prompt about the
    plan's capacity goes to a conversation at most once in its period. *)
Theorem notices_once sha256 ps now d :
  0 ≤ now → clocked now ps →
  NoDup (omap budget_key (polls sha256 ps d)) ∧ NoDup (omap prompt_key (polls sha256 ps d)).
Proof.
  revert now d. induction ps as [|p ps IH]; intros now d H0 Hc; [split; constructor|].
  destruct Hc as [Hle Hc]. simpl. assert (H1 : 0 ≤ po_now p) by lia.
  assert (Hs := claim_route_notices sha256 (po_env p) (po_now p) (po_fresh p) (po_authorization p) (po_workspace_id p) d).
  destruct (claim_route _ _ _ _ _ _ _) as [[resp n] d1]. simpl in *. destruct (IH _ d1 H1 Hc) as [Hb Hp].
  rewrite !omap_app.
  destruct Hs as [d1 _ _|x ws b d1 Hk Hne Hbd Hbd' _|key ws s ch d1 Hk Hpr _]; [done|..].
  - simpl. rewrite Hk. split; [|by destruct x].
    apply NoDup_cons. split; [|done]. eapply told_polls; [exact H1|done| |done].
    eexists _, (po_now p). rewrite Hbd', lookup_insert_eq. split_and!; done || lia.
  - simpl. split; [done|]. apply NoDup_cons. split; [|done]. apply prompted_polls.
    rewrite Hpr, lookup_insert_eq. by eexists.
Qed.

(** ** Concrete polls *)

Example calendar :
  utc_day (seconds 1785499200) = "2026-07-31"
  ∧ bwn_period (currentBudgetWindow (seconds 1709251199)) = "2024-02"
  ∧ bwn_periodEnd (currentBudgetWindow (seconds 1709251199)) = seconds 1709251200.
Proof. vm_compute. repeat split; reflexivity. Qed.

(** A workspace with a ceiling of five dollars on a starter account capped at
    one run by an override, a run of six dollars in July, and a queued entry. *)
Definition july_31 : Z := seconds 1785499200.
Definition august_1 : Z := seconds 1785542401.
Definition starter_account : BillingAccount :=
  mkBillingAccount "Acme" starter (Some "cus_1") None (Some "active") None 0
    (JObj [("monthlyCapacity", JNum 1)]) 0 0.
Definition july_run : Run :=
  mkRun "ws" "repo" "claude" "r" "b" None run_success None None None None 6 "" None None None None july_31 None.
Definition guarded (ceilingCents : option Z) : ClaimDb :=
  mkClaimDb
    (mkAuthDb {[ "k1" := mkApiKey "ws" None "runner" "ar_1" "ar_1" self_hosted None None ]} ∅)
    (mkQueueDb {[ "ws" := mkWorkspace false false ]} []
       {[ "q1" := mkQueueEntry "ws" None github "issue" "acme/app#1" "Fix" "" 0 5 queued [] None None None
                    None None None 0 0 ]}
       {[ "r0" := july_run ]} [] ∅)
    (mkBillingDb {[ "ws" := mkBillingWorkspace false (Some "acct") ]} ∅ ∅ {[ "acct" := starter_account ]})
    {[ "ws" := mkBudgetWorkspace ceilingCents None ]} ∅
    [mkChatSession (Some "ws") "slack" "C1" 5].
Definition poll_at (env : option string) (now : Z) : Poll :=
  mkPoll env now "fresh" (Some "Bearer ar_1") (Some "ws").
Definition answer (env : option string) (now : Z) (d : ClaimDb) : ClaimResponse :=
  (claim_route id env now "fresh" (Some "Bearer ar_1") (Some "ws") d).1.1.

Example gated_polls :
  answer None july_31 (guarded (Some 500)) = resp_blocked "workspace-budget"
  ∧ answer (Some "1") july_31 (guarded None) = resp_blocked "capacity"
  ∧ (match answer (Some "1") august_1 (guarded (Some 500)) with resp_item w => wi_id w | _ => "" end) = "q1"
  ∧ (match answer None july_31 (guarded None) with resp_item w => wi_id w | _ => "" end) = "q1"
  ∧ (claim_route id None july_31 "fresh" (Some "Bearer ar_2") (Some "ws") (guarded None)).1.1 = resp_error 401.
Proof. vm_compute. repeat split; reflexivity. Qed.

(** Two refused polls of July, one notice; two for the capacity, one prompt. *)
Example gated_notices :
  omap budget_key (polls id [poll_at None july_31; poll_at None (july_31 + 1)] (guarded (Some 500)))
    = [("ws", "2026-07")]
  ∧ omap prompt_key (polls id [poll_at (Some "1") july_31; poll_at (Some "1") (july_31 + 1)] (guarded None))
    = [("acct", "capacity", "C1", "2026-07-31")].
Proof. vm_compute. split; reflexivity. Qed.

Lemma budget_window_is_the_month_witness :
  let w := currentBudgetWindow july_31 in bwn_periodStart w ≤ july_31 < bwn_periodEnd w.
Proof.
  assert (H : 0 ≤ july_31) by (vm_compute; discriminate).
  destruct (budget_window_is_the_month july_31 H) as [Hw _]. exact Hw.
Defined.

Lemma notices_once_witness :
  NoDup (omap budget_key (polls id [poll_at None july_31; poll_at None (july_31 + 1)] (guarded (Some 500)))).
Proof.
  assert (H0 : 0 ≤ july_31) by (vm_compute; discriminate).
  assert (Hc : clocked july_31 [poll_at None july_31; poll_at None (july_31 + 1)]).
  { vm_compute. repeat split; discriminate. }
  destruct (notices_once id _ july_31 (guarded (Some 500)) H0 Hc) as [H _]. exact H.
Defined.
