(* ===== verification/Tx.v ===== *)
(** * Tx: database transactions

    The query functions of [change_records.ts] and [jace_sessions.ts] run in
    [db.transaction(async (tx) => ...)]: a sequence of statements that either
    all commit or, when one throws, leave nothing behind.  [tx] is the monad of
    such a sequence over a database [D], with the errors [E] it can throw. *)

From S2P Require Import Prelude.
From stdpp Require Import sorting.
Open Scope Z_scope.

Definition tx (E D A : Type) : Type := D → E + (A * D).

#[export] Instance tx_ret {E D} : MRet (tx E D) := λ A x d, inr (x, d).
#[export] Instance tx_bind {E D} : MBind (tx E D) := λ A B f m d,
  match m d with inl e => inl e | inr (x, d') => f x d' end.

Section Tx.
Context {E D : Type}.
Implicit Types (d : D) (e : E).

(** [throw new Error(...)] *)
Definition throw {A} e : tx E D A := λ _, inl e.
(** A statement that reads. *)
Definition reads {A} (f : D → A) : tx E D A := λ d, inr (f d, d).
(** A statement that writes, with what its RETURNING gives. *)
Definition runs {A} (f : D → A * D) : tx E D A := λ d, inr (f d).
Definition writes (f : D → D) : tx E D unit := λ d, inr (tt, f d).
(** [if (!test) throw e] *)
Definition require_true (b : bool) e : tx E D unit := if b then mret tt else throw e.
(** [rows[0]!], or the exception of a missing row *)
Definition some_or {A} (x : option A) e : tx E D A :=
  match x with Some a => mret a | None => throw e end.

(** [db.transaction]: commit, or roll everything back. *)
Definition transaction {A} (m : tx E D A) d : (E + A) * D :=
  match m d with inr (a, d') => (inr a, d') | inl e => (inl e, d) end.

(** ** Inverting a run that commits *)

Lemma bind_inr {A B} (m : tx E D A) (f : A → tx E D B) d b d' :
  (m ≫= f) d = inr (b, d') ↔ ∃ a d1, m d = inr (a, d1) ∧ f a d1 = inr (b, d').
Proof.
  unfold mbind, tx_bind. split.
  - destruct (m d) as [e|[a d1]] eqn:Em; [done|]. eauto.
  - by intros (a & d1 & -> & H).
Qed.
Lemma ret_inr {A} (a b : A) d d' : mret (M:=tx E D) a d = inr (b, d') ↔ a = b ∧ d = d'.
Proof. split; [by intros [= -> ->]|by intros [-> ->]]. Qed.
Lemma throw_inr {A} e d (r : A * D) : throw (A:=A) e d = inr r ↔ False.
Proof. done. Qed.
Lemma reads_inr {A} (f : D → A) d a d' : reads f d = inr (a, d') ↔ a = f d ∧ d' = d.
Proof. unfold reads. split; [by intros [= -> ->]|by intros [-> ->]]. Qed.
Lemma runs_inr {A} (f : D → A * D) d a d' : runs f d = inr (a, d') ↔ f d = (a, d').
Proof. unfold runs. split; [by intros [= ->]|by intros ->]. Qed.
Lemma writes_inr (f : D → D) d u d' : writes f d = inr (u, d') ↔ d' = f d.
Proof. unfold writes. destruct u. split; [by intros [= ->]|by intros ->]. Qed.
Lemma require_inr b e d u d' : require_true b e d = inr (u, d') ↔ b = true ∧ d' = d.
Proof. destruct u, b; split; try done; [by intros [= ->]|by intros [_ ->]|by intros []]. Qed.
Lemma some_or_inr {A} (x : option A) e d a d' : some_or x e d = inr (a, d') ↔ x = Some a ∧ d' = d.
Proof. destruct x; split; try done; [by intros [= -> ->]|by intros [[= ->] ->]|by intros []]. Qed.

(** ** What every step of a transaction keeps *)

Definition keeps (R : relation D) {A} (m : tx E D A) : Prop :=
  ∀ d a d', m d = inr (a, d') → R d d'.

Section Keeps.
Context (R : relation D) `{!PreOrder R}.
Lemma keeps_ret {A} (a : A) : keeps R (mret a).
Proof. by intros d ? ? [_ <-]%ret_inr. Qed.
Lemma keeps_throw {A} e : keeps R (throw (A:=A) e).
Proof. by intros d ? ? ?. Qed.
Lemma keeps_reads {A} (f : D → A) : keeps R (reads f).
Proof. by intros d ? ? [_ ->]%reads_inr. Qed.
Lemma keeps_require b e : keeps R (require_true b e).
Proof. by intros d ? ? [_ ->]%require_inr. Qed.
Lemma keeps_some_or {A} (x : option A) e : keeps R (some_or x e).
Proof. by intros d ? ? [_ ->]%some_or_inr. Qed.
Lemma keeps_writes f : (∀ d, R d (f d)) → keeps R (writes f).
Proof. by intros Hf d ? ? ->%writes_inr. Qed.
Lemma keeps_runs {A} (f : D → A * D) : (∀ d, R d (f d).2) → keeps R (runs f).
Proof. intros Hf d a d' H%runs_inr. specialize (Hf d). by rewrite H in Hf. Qed.
Lemma keeps_bind {A B} (m : tx E D A) (f : A → tx E D B) :
  keeps R m → (∀ a, keeps R (f a)) → keeps R (m ≫= f).
Proof.
  intros Hm Hf d b d' (a & d1 & H1 & H2)%bind_inr. etrans; [by eapply Hm|by eapply Hf].
Qed.
Lemma keeps_transaction {A} (m : tx E D A) d : keeps R m → R d (transaction m d).2.
Proof.
  intros Hm. unfold transaction. destruct (m d) as [e|[a d']] eqn:H; simpl; [done|by eapply Hm].
Qed.
End Keeps.
End Tx.

(** Walks through a transaction, leaving the statements that write. *)
Ltac keeps_step :=
  match goal with
  | |- keeps _ (_ ≫= _) => apply keeps_bind; [apply _| |intros ?]
  | |- keeps _ (mret _) => apply keeps_ret, _
  | |- keeps _ (throw _) => apply keeps_throw
  | |- keeps _ (reads _) => apply keeps_reads, _
  | |- keeps _ (require_true _ _) => apply keeps_require, _
  | |- keeps _ (some_or _ _) => apply keeps_some_or, _
  | |- keeps _ (match ?x with _ => _ end) => destruct x
  end.
Ltac keeps := repeat keeps_step; eauto with agentrail.

(** Inverts every committed step among the hypotheses. *)
Ltac tx_step :=
  match goal with
  | H : (_ ≫= _) _ = inr (_, _) |- _ =>
      let a := fresh "x" in let d := fresh "d" in let H1 := fresh "H" in let H2 := fresh "H" in
      apply bind_inr in H as (a & d & H1 & H2)
  | H : mret _ _ = inr (_, _) |- _ => apply ret_inr in H as [? ?]; simplify_eq
  | H : throw _ _ = inr _ |- _ => by destruct H
  | H : reads _ _ = inr (_, _) |- _ => apply reads_inr in H as [? ?]; simplify_eq
  | H : runs _ _ = inr (_, _) |- _ => apply runs_inr in H
  | H : writes _ _ = inr (_, _) |- _ => apply writes_inr in H; simplify_eq
  | H : require_true _ _ _ = inr (_, _) |- _ => apply require_inr in H as [? ?]; simplify_eq
  | H : some_or _ _ _ = inr (_, _) |- _ => apply some_or_inr in H as [? ?]; simplify_eq
  | H : transaction _ _ = (inr _, _) |- _ => unfold transaction in H
  end.
Ltac tx_inv := repeat tx_step.
