(* ===== verification/RecordSchema.v ===== *)
(** * RecordSchema: the tables of the Change Records

    [schema/change_records.ts]: the Change Record with its pull-request head,
    its Acceptance Contracts, its timeline and its correction dispatches,
    beside the review jobs and preview boots that the head controls; and the
    JSON values the payloads are made of. *)

From S2P Require Import Prelude Table Intake ReviewJobs PreviewBoots Tx.
From stdpp Require Import sorting.
From Stdlib Require Import QArith.
From Stdlib Require String.
Open Scope Z_scope.

(** ** JSON values up to the order of keys *)

Fixpoint json_eq (x y : json) : {x = y} + {x ≠ y}.
Proof.
  decide equality; first [apply bool_dec|apply String.string_dec|idtac].
  - decide equality; [apply Pos.eq_dec|apply Z.eq_dec].
  - by apply (List.list_eq_dec json_eq).
  - apply List.list_eq_dec. intros [k v] [k' v'].
    destruct (String.string_dec k k') as [->|], (json_eq v v') as [->|];
      [by left|right; congruence..].
Defined.
#[export] Instance json_eq_decision : EqDecision json := json_eq.

Fixpoint insert_field (k : string) (v : json) (l : list (string * json)) : list (string * json) :=
  match l with
  | [] => [(k, v)]
  | (k', v') :: l' =>
      if String.leb k k' then (k, v) :: l else (k', v') :: insert_field k v l'
  end.

(** The value with the keys of every object in order and its numbers in lowest
    terms, as jsonb keeps it. *)
Fixpoint canonical (v : json) : json :=
  match v with
  | JNum q => JNum (Qred q)
  | JArr l => JArr (canonical <$> l)
  | JObj fields => JObj (foldr (λ kv l, insert_field kv.1 (canonical kv.2) l) [] fields)
  | _ => v
  end.

(** [isDeepStrictEqual(a, b)] on JSON values. *)
Definition isDeepStrictEqual (a b : json) : bool := canonical a ≡? canonical b.

Lemma deep_equal_refl a : isDeepStrictEqual a a = true.
Proof. by apply bool_decide_eq_true_2. Qed.
Lemma deep_equal_sym a b : isDeepStrictEqual a b = isDeepStrictEqual b a.
Proof. apply bool_decide_ext. split; congruence. Qed.

Definition jnum (z : Z) : json := JNum (inject_Z z).
(** [x ?? null] *)
Definition jopt (x : option string) : json := match x with Some s => JStr s | None => JNull end.

(** ** Rows *)

Record ChangeRecord := mkChangeRecord {
  cr_workspace_id : string;
  cr_repo : string;
  cr_work_key : option string;
  cr_origin_channel : option string;
  cr_source_references : json;
  cr_issue_number : option Z;
  cr_pr_number : option Z;
  cr_head_sha : option string;
  cr_cycle_id : option string;
  cr_authoritative : bool;
  cr_generation : Z;
  cr_head_shas : list string;
  cr_merged_sha : option string;
  cr_state : string;
  cr_created_at : Z;
  cr_updated_at : Z;
}.

Record AcceptanceContract := mkAcceptanceContract {
  ac_record_id : string;
  ac_version : Z;
  ac_status : string;
  ac_contract : json;
  ac_created_by : string;
  ac_confirmed_by : option string;
  ac_confirmed_at : option Z;
  ac_created_at : Z;
}.

Record ChangeEvent := mkChangeEvent {
  ce_record_id : string;
  ce_event_key : string;
  ce_stage : string;
  ce_at : Z;
  ce_actor : string;
  ce_payload : json;
  ce_created_at : Z;
}.

(** The columns of [acceptance_correction_dispatches] the head transitions use. *)
Record Dispatch := mkDispatch {
  cd_workspace_id : string;
  cd_record_id : string;
  cd_head_sha : string;
  cd_head_cycle_id : string;
  cd_identity_sha256 : string;
  cd_invalidated_at : option Z;
  cd_invalidation_reason : option string;
  cd_successor_sha : option string;
  cd_successor_cycle : option string;
  cd_updated_at : Z;
}.

Record AcceptanceIntake := mkAcceptanceIntake {
  in_workspace_id : string;
  in_origin_channel : string;
  in_conversation_key : string;
  in_source_references : json;
  in_status : string;
  in_record_id : option string;
  in_created_at : Z;
  in_updated_at : Z;
}.

Notation records := (gmap string ChangeRecord).
Notation contracts := (gmap string AcceptanceContract).
Notation events := (gmap string ChangeEvent).
Notation dispatches := (gmap string Dispatch).
Notation intakes := (gmap string AcceptanceIntake).

(** The part of the database the Change Records live in. *)
Record RecordDb := mkRecordDb {
  rd_records : records;
  rd_contracts : contracts;
  rd_events : events;
  rd_dispatches : dispatches;
  rd_intakes : intakes;
  rd_jobs : jobs;
  rd_boots : boots;
}.

Definition with_records (x : records) (d : RecordDb) : RecordDb :=
  mkRecordDb x (rd_contracts d) (rd_events d) (rd_dispatches d) (rd_intakes d) (rd_jobs d) (rd_boots d).
Definition with_contracts (x : contracts) (d : RecordDb) : RecordDb :=
  mkRecordDb (rd_records d) x (rd_events d) (rd_dispatches d) (rd_intakes d) (rd_jobs d) (rd_boots d).
Definition with_events (x : events) (d : RecordDb) : RecordDb :=
  mkRecordDb (rd_records d) (rd_contracts d) x (rd_dispatches d) (rd_intakes d) (rd_jobs d) (rd_boots d).
Definition with_dispatches (x : dispatches) (d : RecordDb) : RecordDb :=
  mkRecordDb (rd_records d) (rd_contracts d) (rd_events d) x (rd_intakes d) (rd_jobs d) (rd_boots d).
Definition with_intakes (x : intakes) (d : RecordDb) : RecordDb :=
  mkRecordDb (rd_records d) (rd_contracts d) (rd_events d) (rd_dispatches d) x (rd_jobs d) (rd_boots d).
Definition with_jobs (x : jobs) (d : RecordDb) : RecordDb :=
  mkRecordDb (rd_records d) (rd_contracts d) (rd_events d) (rd_dispatches d) (rd_intakes d) x (rd_boots d).
Definition with_boots (x : boots) (d : RecordDb) : RecordDb :=
  mkRecordDb (rd_records d) (rd_contracts d) (rd_events d) (rd_dispatches d) (rd_intakes d) (rd_jobs d) x.

(** The database clock and the process clock of one call, in microseconds. *)
Record Clock := mkClock { db_now : Z; js_now : Z }.

(** What a statement or a check throws. *)
Inductive RecordError :=
  | invalid_input
  | unique_violation
  | foreign_key_violation
  | event_not_found
  | event_bound_differently
  | lost_precondition
  | record_not_current
  | job_not_running
  | intake_not_found
  | intake_conflict
  | other_version_confirmed.
#[export] Instance RecordError_eq_dec : EqDecision RecordError.
Proof. solve_decision. Defined.

Notation record_tx := (tx RecordError RecordDb).

(** [Array.from(new Set(l.filter(Boolean))).sort()] and SQL's [SELECT DISTINCT
    ... ORDER BY 1]: the distinct texts in order. *)
Definition sort_distinct (l : list string) : list string := merge_sort String.le (remove_dups l).
Definition normalizeHeadShas (l : list string) : list string :=
  sort_distinct (List.filter (λ s, s ≢? "") l).

Lemma elem_of_sort_distinct s l : s ∈ sort_distinct l ↔ s ∈ l.
Proof. unfold sort_distinct. by rewrite merge_sort_Permutation, elem_of_remove_dups. Qed.
Lemma elem_of_normalizeHeadShas s l : s ∈ normalizeHeadShas l ↔ s ∈ l ∧ s ≠ "".
Proof.
  unfold normalizeHeadShas. rewrite elem_of_sort_distinct, list_elem_of_In, filter_In, <- list_elem_of_In.
  by rewrite negb_true_iff, bool_decide_eq_false.
Qed.

Lemma sort_distinct_sorted l : Sorted String.le (sort_distinct l).
Proof. apply Sorted_merge_sort, _. Qed.
Lemma sort_distinct_NoDup l : NoDup (sort_distinct l).
Proof. unfold sort_distinct. rewrite merge_sort_Permutation. apply NoDup_remove_dups. Qed.

(** Sorting distinct texts again, with some of them repeated, changes nothing. *)
Lemma sort_distinct_absorb l l' : (∀ s, s ∈ l' → s ∈ l) → sort_distinct (sort_distinct l ++ l') = sort_distinct l.
Proof.
  intros Hl. apply (Sorted_unique String.le); [apply sort_distinct_sorted..|].
  apply NoDup_Permutation; [apply sort_distinct_NoDup..|]. intros s.
  rewrite elem_of_sort_distinct, elem_of_app, !elem_of_sort_distinct. naive_solver.
Qed.
Lemma normalizeHeadShas_idem l : sort_distinct (normalizeHeadShas l ++ normalizeHeadShas l) = normalizeHeadShas l.
Proof. apply sort_distinct_absorb. intros s [H1 H2]%elem_of_normalizeHeadShas.
  rewrite list_elem_of_In, filter_In, <- list_elem_of_In.
  by rewrite negb_true_iff, bool_decide_eq_false.
Qed.

(** ** The constraints of [change_records] *)

Definition is_hex (c : Ascii.ascii) : bool :=
  let n := Ascii.nat_of_ascii c in
  ((48 <=? n) && (n <=? 57) || (97 <=? n) && (n <=? 102) || (65 <=? n) && (n <=? 70))%nat.
Definition all_chars (p : Ascii.ascii → bool) (s : string) : bool :=
  forallb p (String.list_ascii_of_string s).
(** [/^[0-9a-f]{lo,hi}$/i] *)
Definition hex_text (lo hi : nat) (s : string) : bool :=
  all_chars is_hex s && (lo <=? String.length s)%nat && (String.length s <=? hi)%nat.
Definition GIT_SHA (s : string) : bool := hex_text 7 64 s.
Definition EXACT_GITHUB_HEAD_SHA (s : string) : bool := hex_text 40 40 s.

Lemma exact_sha_nonempty s : EXACT_GITHUB_HEAD_SHA s = true → s ≠ "".
Proof. by intros H ->. Qed.

(** The checks on the head of a record. *)
Definition record_ok (r : ChangeRecord) : Prop :=
  match cr_head_sha r with
  | Some sha => EXACT_GITHUB_HEAD_SHA sha = true ∧ sha ∈ cr_head_shas r ∧ is_Some (cr_cycle_id r)
  | None => cr_cycle_id r = None ∧ cr_authoritative r = false
  end ∧ 0 ≤ cr_generation r.

(** The partial unique indexes: at most one record per issue, per pull request
    and per work key of a repository. *)
Notation unique_by f := (exclusive (λ r, is_Some (f r)) (λ r, (cr_workspace_id r, cr_repo r, f r))).
Definition records_ok (t : records) : Prop :=
  map_Forall (λ _ r, record_ok r) t
  ∧ unique_by cr_issue_number t ∧ unique_by cr_pr_number t ∧ unique_by cr_work_key t.
