(* ===== verification/JsonText.v ===== *)
(** * JsonText: [JSON.stringify] of the lists the ids are made of

    The cycle and dispatch ids of [change_records.ts] hash the JSON text of a
    list of strings, numbers and nulls.  The text determines the list. *)

From S2P Require Import Prelude.
From Stdlib Require Import Ascii DecimalString DecimalN.
From Stdlib Require String.
Open Scope Z_scope.

(** [`${n}`] of an integer *)
Definition show_Z (z : Z) : string :=
  if z <? 0 then "-" +:+ show_N (Z.to_N (- z)) else show_N (Z.to_N z).

Definition double_quote : ascii := ascii_of_nat 34.
Definition backslash : ascii := ascii_of_nat 92.
Definition hex_char (n : nat) : ascii := ascii_of_nat (if (n <? 10)%nat then 48 + n else 87 + n).

(** One character inside a JSON string. *)
Definition escape (c : ascii) : string :=
  let short (x : string) := String backslash x in
  match nat_of_ascii c with
  | 34 => short (String double_quote "")
  | 92 => short (String backslash "")
  | 8 => short "b" | 9 => short "t" | 10 => short "n" | 12 => short "f" | 13 => short "r"
  | n => if (n <? 32)%nat then short ("u00" +:+ String (hex_char (n / 16)) (String (hex_char (n mod 16)) ""))
         else String c ""
  end%nat.

Fixpoint escaped (s : string) : string :=
  match s with EmptyString => "" | String c s' => escape c +:+ escaped s' end.
Definition json_quote (s : string) : string := String double_quote (escaped s +:+ String double_quote "").

Inductive scalar := sc_null | sc_num (z : Z) | sc_str (s : string).
Definition json_scalar (v : scalar) : string :=
  match v with sc_null => "null" | sc_num z => show_Z z | sc_str s => json_quote s end.
(** [JSON.stringify([...])] *)
Definition json_list (l : list scalar) : string := "[" +:+ join_strings "," (json_scalar <$> l) +:+ "]".
Definition sc_opt (x : option string) : scalar := match x with Some s => sc_str s | None => sc_null end.

(** ** Reading it back *)

Definition hex_value (c : ascii) : nat :=
  let n := nat_of_ascii c in if (n <? 58)%nat then n - 48 else n - 87.

(** The first character of the rest of a JSON string, [None] at its end. *)
Definition unescape (s : string) : option (ascii * string) :=
  match s with
  | String c s' =>
      if c ≡? double_quote then None
      else if c ≡? backslash then
        match s' with
        | String e r =>
            match nat_of_ascii e with
            | 98 => Some (ascii_of_nat 8, r) | 116 => Some (ascii_of_nat 9, r)
            | 110 => Some (ascii_of_nat 10, r) | 102 => Some (ascii_of_nat 12, r)
            | 114 => Some (ascii_of_nat 13, r)
            | 117 => match r with
                | String _ (String _ (String h (String l r'))) =>
                    Some (ascii_of_nat (16 * hex_value h + hex_value l), r')
                | _ => None
                end
            | _ => Some (e, r)
            end%nat
        | EmptyString => None
        end
      else Some (c, s')
  | EmptyString => None
  end.

Lemma unescape_escape c r : unescape (escape c +:+ r) = Some (c, r).
Proof. destruct c as [[] [] [] [] [] [] [] []]; reflexivity. Qed.

Lemma unescape_quote r : unescape (String double_quote r) = None.
Proof. done. Qed.

Lemma append_cons x (a b : string) : String x a +:+ b = String x (a +:+ b).
Proof. reflexivity. Qed.
Lemma append_nil (b : string) : "" +:+ b = b.
Proof. reflexivity. Qed.
Lemma append_assoc (a b c : string) : (a +:+ b) +:+ c = a +:+ b +:+ c.
Proof. induction a as [|x a IH]; [reflexivity|]. rewrite !append_cons. by f_equal. Qed.

Lemma escaped_inj s s' r r' :
  escaped s +:+ String double_quote r = escaped s' +:+ String double_quote r' → s = s' ∧ r = r'.
Proof.
  revert s'. induction s as [|c s IH]; intros [|c' s'] H; cbn [escaped] in H;
    rewrite ?append_assoc, ?append_nil in H.
  - by injection H as ->.
  - apply (f_equal unescape) in H. rewrite unescape_escape in H. by rewrite unescape_quote in H.
  - apply (f_equal unescape) in H. rewrite unescape_escape in H. by rewrite unescape_quote in H.
  - apply (f_equal unescape) in H. rewrite !unescape_escape in H.
    injection H as -> H. by destruct (IH _ H) as [-> ->].
Qed.

(** Two texts that end at the first [,] or [\]]. *)
Definition is_stop (c : ascii) : bool := (c ≡? ","%char) || (c ≡? "]"%char).
Fixpoint no_stop (s : string) : bool :=
  match s with EmptyString => true | String c s' => negb (is_stop c) && no_stop s' end.

Lemma no_stop_split a a' c c' r r' :
  no_stop a = true → no_stop a' = true → is_stop c = true → is_stop c' = true →
  a +:+ String c r = a' +:+ String c' r' → a = a' ∧ c = c' ∧ r = r'.
Proof.
  intros Ha Ha' Hc Hc'. revert a' Ha'.
  induction a as [|x a IH]; intros [|x' a'] Ha' H;
    rewrite ?append_cons, ?append_nil in H; cbn in Ha, Ha'; injection H as -> H.
  - by rewrite H.
  - by rewrite Hc in Ha'.
  - by rewrite Hc' in Ha.
  - apply andb_true_iff in Ha as [_ Ha], Ha' as [_ Ha'].
    destruct (IH Ha a' Ha' H) as (-> & -> & ->). done.
Qed.

Lemma show_N_no_stop n : no_stop (show_N n) = true.
Proof. unfold show_N. induction (N.to_uint n); cbn; auto. Qed.
Lemma show_Z_no_stop z : no_stop (show_Z z) = true.
Proof. unfold show_Z. destruct (z <? 0); cbn; apply show_N_no_stop. Qed.

Lemma show_N_digit n c s : show_N n = String c s → (48 <= nat_of_ascii c <= 57)%nat.
Proof. unfold show_N. destruct (N.to_uint n); cbn; [done|..]; intros [= <- _]; split; apply Nat.leb_le; reflexivity. Qed.

#[export] Instance show_Z_inj : Inj (=) (=) show_Z.
Proof.
  intros x y. unfold show_Z. destruct (Z.ltb_spec x 0), (Z.ltb_spec y 0).
  - intros [= H']%(inj (String.append "-")). apply (inj show_N) in H'. lia.
  - intros H'. symmetry in H'. apply show_N_digit in H' as [H' _]. by apply Nat.leb_le in H'.
  - intros H'. apply show_N_digit in H' as [H' _]. by apply Nat.leb_le in H'.
  - intros H'%(inj show_N). lia.
Qed.

Lemma show_Z_head z c s : show_Z z = String c s → c ≠ double_quote ∧ c ≠ "n"%char.
Proof.
  unfold show_Z. destruct (z <? 0); [by intros [= <- _]|]. intros H%show_N_digit.
  split; intros ->; destruct H as [H1 H2]; apply Nat.leb_le in H1, H2; done.
Qed.
Lemma show_Z_nonempty z : show_Z z ≠ "".
Proof.
  unfold show_Z. destruct (z <? 0); [done|]. unfold show_N.
  intros H. assert (H' := read_show_N (Z.to_N z)). unfold show_N in H'. rewrite H in H'.
  injection H' as H'. rewrite <- H' in H. by vm_compute in H.
Qed.

(** A scalar, up to the comma or bracket after it. *)
Lemma json_scalar_inj v v' c c' r r' :
  is_stop c = true → is_stop c' = true →
  json_scalar v +:+ String c r = json_scalar v' +:+ String c' r' → v = v' ∧ c = c' ∧ r = r'.
Proof.
  intros Hc Hc'.
  assert (Hnum : ∀ z a b, (∀ x s, a = String x s → x = double_quote ∨ x = "n"%char) → a ≠ "" →
    show_Z z +:+ b ≠ a +:+ r' ∧ show_Z z +:+ b ≠ a +:+ String c' r').
  { intros z a b Ha Hne. destruct a as [|x a]; [done|]. destruct (show_Z z) as [|y t] eqn:E; [by apply show_Z_nonempty in E|].
    apply show_Z_head in E as [H1 H2]. destruct (Ha x a eq_refl) as [->| ->]; split; intros [= ? _]; congruence. }
  destruct v as [|z|s], v' as [|z'|s']; cbn [json_scalar]; try done.
  - intros H. apply no_stop_split in H as (_ & -> & ->); done.
  - intros H. symmetry in H. destruct (show_Z z') as [|y t] eqn:E; [by apply show_Z_nonempty in E|].
    apply show_Z_head in E as [_ Hn]. by injection H as -> _.
  - intros H. destruct (show_Z z) as [|y t] eqn:E; [by apply show_Z_nonempty in E|].
    apply show_Z_head in E as [_ Hn]. by injection H as -> _.
  - intros H. apply no_stop_split in H as (->%(inj show_Z) & -> & ->); auto using show_Z_no_stop.
  - intros H. destruct (show_Z z) as [|y t] eqn:E; [by apply show_Z_nonempty in E|].
    apply show_Z_head in E as [Hn _]. by injection H as -> _.
  - intros H. symmetry in H. destruct (show_Z z') as [|y t] eqn:E; [by apply show_Z_nonempty in E|].
    apply show_Z_head in E as [Hn _]. by injection H as -> _.
  - unfold json_quote. cbn [String.append]. intros [= H]. rewrite !append_assoc in H.
    apply escaped_inj in H as [-> H]. cbn in H. by injection H as -> ->.
Qed.

Lemma json_list_inj l l' : json_list l = json_list l' → (length l = length l') → l = l'.
Proof.
  unfold json_list. intros [= H]. revert l' H.
  induction l as [|v l IH]; intros [|v' l'] H Hlen; [done..|]. injection Hlen as Hlen.
  destruct l as [|w l], l' as [|w' l']; try done; cbn [fmap list_fmap join_strings] in H.
  - by apply json_scalar_inj in H as (-> & _).
  - rewrite !append_assoc in H. apply json_scalar_inj in H as (-> & _ & H); [|done..].
    f_equal. by apply IH.
Qed.
