(* ===== verification/Timeline.v ===== *)
(** * Timeline: the immutable events of a Change Record

    The append helpers of [queries/change_records.ts]: an event is written
    once under its (record, key) and never again; a batch commits whole or not
    at all; a retry of a batch finds its own events. *)

From S2P Require Import Prelude Table Intake Tx RecordSchema.
Open Scope Z_scope.

Section Timeline.
Context (sha1 : list Z → list Z).
Implicit Types (t : events) (e : ChangeEvent) (d : RecordDb).

Definition changeRecordEventId (recordId eventKey : string) : string :=
  uuid5Url sha1 ("change-record-event:" +:+ recordId +:+ ":" +:+ eventKey).

Definition under_key (recordId eventKey : string) (_ : string) e : bool :=
  (ce_record_id e ≡? recordId) && (ce_event_key e ≡? eventKey).

(** [SELECT * FROM change_record_events WHERE record_id = ... AND event_key = ... LIMIT 1] *)
Definition find_event (recordId eventKey : string) t : option (string * ChangeEvent) :=
  head (select_where (under_key recordId eventKey) t).

(** [INSERT INTO change_record_events ... ON CONFLICT (record_id, event_key) DO
    NOTHING RETURNING *]: a taken id and a missing record are errors. *)
Definition insert_event (id : string) (e : ChangeEvent) : record_tx bool := λ d,
  match find_event (ce_record_id e) (ce_event_key e) (rd_events d) with
  | Some _ => inr (false, d)
  | None =>
      if is_null (rd_events d !! id) then
        if is_null (rd_records d !! ce_record_id e) then inl foreign_key_violation
        else inr (true, with_events (<[id := e]> (rd_events d)) d)
      else inl unique_violation
  end.

Record EventInput := mkEventInput {
  ei_recordId : string;
  ei_eventKey : string;
  ei_stage : string;
  ei_actor : string;
  ei_payloadRef : json;
  ei_at : option Z;
}.

Definition event_of (c : Clock) (i : EventInput) : ChangeEvent :=
  mkChangeEvent (ei_recordId i) (ei_eventKey i) (ei_stage i) (default (js_now c) (ei_at i))
    (ei_actor i) (ei_payloadRef i) (db_now c).
Definition event_id (i : EventInput) : string := changeRecordEventId (ei_recordId i) (ei_eventKey i).
Definition event_key (i : EventInput) : string * string := (ei_recordId i, ei_eventKey i).

Record AppendResult := mkAppendResult {
  ar_id : string;
  ar_event : ChangeEvent;
  ar_inserted : bool;
}.

Definition same_provenance (i : EventInput) e : bool :=
  (ce_stage e ≡? ei_stage i) && (ce_actor e ≡? ei_actor i)
  && isDeepStrictEqual (ce_payload e) (ei_payloadRef i).

(** One round of the loop of [appendChangeRecordEventsAtomicallyInTransaction]. *)
Definition append_one (c : Clock) (i : EventInput) : record_tx AppendResult :=
  inserted ← insert_event (event_id i) (event_of c i);
  raw ← reads (λ d, find_event (ei_recordId i) (ei_eventKey i) (rd_events d));
  row ← some_or raw event_not_found;
  _ ← require_true (same_provenance i row.2) event_bound_differently;
  mret (mkAppendResult row.1 row.2 inserted).

Fixpoint appendChangeRecordEventsAtomicallyInTransaction (c : Clock) (inputs : list EventInput)
    : record_tx (list AppendResult) :=
  match inputs with
  | [] => mret []
  | i :: inputs' =>
      r ← append_one c i;
      rs ← appendChangeRecordEventsAtomicallyInTransaction c inputs';
      mret (r :: rs)
  end.

(** One event, and the result of its batch. *)
Definition append_single (c : Clock) (i : EventInput) : record_tx AppendResult :=
  rs ← appendChangeRecordEventsAtomicallyInTransaction c [i];
  some_or (head rs) event_not_found.

Definition one_record (inputs : list EventInput) : bool :=
  match inputs with
  | [] => false
  | i :: _ => forallb (λ j, ei_recordId j ≡? ei_recordId i) inputs
  end.
Definition well_formed_batch (inputs : list EventInput) : bool :=
  one_record inputs && bool_decide (NoDup (ei_eventKey <$> inputs)).

Definition appendChangeRecordEventsAtomically (c : Clock) (inputs : list EventInput) d
    : (RecordError + list AppendResult) * RecordDb :=
  if well_formed_batch inputs
  then transaction (appendChangeRecordEventsAtomicallyInTransaction c inputs) d
  else (inl invalid_input, d).

Definition appendChangeRecordEvent (c : Clock) (i : EventInput) d
    : (RecordError + AppendResult) * RecordDb :=
  transaction (
    inserted ← insert_event (event_id i) (event_of c i);
    raw ← reads (λ d, find_event (ei_recordId i) (ei_eventKey i) (rd_events d));
    row ← some_or raw event_not_found;
    mret (mkAppendResult row.1 row.2 inserted)) d.

(** [appendContractEventInTransaction]: the time is the database's. *)
Definition contract_event (c : Clock) (recordId eventKey stage actor : string) (payload : json)
    : ChangeEvent := mkChangeEvent recordId eventKey stage (db_now c) actor payload (db_now c).
Definition appendContractEventInTransaction (c : Clock) (recordId eventKey stage actor : string)
    (payload : json) : record_tx unit :=
  _ ← insert_event (changeRecordEventId recordId eventKey)
        (contract_event c recordId eventKey stage actor payload);
  mret tt.

(** ** Lookup by key *)

Lemma under_keyP r k id e : under_key r k id e = true ↔ ce_record_id e = r ∧ ce_event_key e = k.
Proof. unfold under_key. by rewrite andb_true_iff, !bool_decide_eq_true. Qed.

Lemma find_event_Some r k t id e :
  find_event r k t = Some (id, e) → t !! id = Some e ∧ ce_record_id e = r ∧ ce_event_key e = k.
Proof.
  unfold find_event. destruct (select_where _ t) as [|x l] eqn:E; [done|]. intros [= ->].
  assert (Hin : (id, e) ∈ select_where (under_key r k) t) by (rewrite E; set_solver).
  apply elem_of_select_where in Hin as [H1 H2]. by rewrite under_keyP in H2.
Qed.

Lemma find_event_None r k t :
  find_event r k t = None ↔ ∀ id e, t !! id = Some e → ce_record_id e = r → ce_event_key e ≠ k.
Proof.
  unfold find_event. split.
  - destruct (select_where _ t) as [|x l] eqn:E; [|done]. intros _ id e Hid Hr Hk.
    assert (Hin : (id, e) ∈ select_where (under_key r k) t)
      by by apply elem_of_select_where; rewrite under_keyP.
    rewrite E in Hin. by apply not_elem_of_nil in Hin.
  - intros H. destruct (select_where _ t) as [|[id e] l] eqn:E; [done|].
    assert (Hin : (id, e) ∈ select_where (under_key r k) t) by (rewrite E; set_solver).
    apply elem_of_select_where in Hin as [H1 [H2 H3]%under_keyP]. by destruct (H id e).
Qed.

(** The unique index [change_record_events_record_event_key]. *)
Definition unique_keys t : Prop :=
  ∀ id1 id2 e1 e2, t !! id1 = Some e1 → t !! id2 = Some e2 →
    ce_record_id e1 = ce_record_id e2 → ce_event_key e1 = ce_event_key e2 → id1 = id2.

Lemma find_event_unique t id e :
  unique_keys t → t !! id = Some e → find_event (ce_record_id e) (ce_event_key e) t = Some (id, e).
Proof.
  intros Hu Hid. destruct (find_event _ _ t) as [[id' e']|] eqn:E.
  - apply find_event_Some in E as (H1 & H2 & H3). assert (id' = id) as -> by by eapply Hu.
    congruence.
  - rewrite find_event_None in E. by destruct (E id e).
Qed.

Lemma find_event_mono t t' r k x :
  unique_keys t' → t ⊆ t' → find_event r k t = Some x → find_event r k t' = Some x.
Proof.
  intros Hu Hs H. destruct x as [id e]. apply find_event_Some in H as (H1 & <- & <-).
  apply find_event_unique; [done|]. by eapply lookup_weaken.
Qed.

(** ** Appending *)

(** What a transaction may do to the timeline: add events under fresh keys. *)
Definition timeline_grows d d' : Prop :=
  rd_events d ⊆ rd_events d' ∧ (unique_keys (rd_events d) → unique_keys (rd_events d')).
#[export] Instance timeline_grows_preorder : PreOrder timeline_grows.
Proof.
  split; [by split|]. intros d1 d2 d3 [H1 U1] [H2 U2]. split; [by etrans|auto].
Qed.

Lemma insert_event_inr id e d b d' :
  insert_event id e d = inr (b, d') →
  (b = false ∧ d' = d ∧ is_Some (find_event (ce_record_id e) (ce_event_key e) (rd_events d)))
  ∨ (b = true ∧ d' = with_events (<[id := e]> (rd_events d)) d ∧ rd_events d !! id = None
     ∧ find_event (ce_record_id e) (ce_event_key e) (rd_events d) = None
     ∧ is_Some (rd_records d !! ce_record_id e)).
Proof.
  unfold insert_event. destruct (find_event _ _ _) as [x|] eqn:F.
  - intros [= <- <-]. left. by eauto.
  - destruct (rd_events d !! id) eqn:E; [done|]. simpl.
    destruct (rd_records d !! _) eqn:R; [|done]. simpl. intros [= <- <-]. right. by eauto.
Qed.

Lemma unique_keys_insert t id e :
  unique_keys t → find_event (ce_record_id e) (ce_event_key e) t = None → unique_keys (<[id := e]> t).
Proof.
  intros Hu Hn id1 id2 e1 e2. rewrite find_event_None in Hn.
  rewrite !lookup_insert_Some. intros [[<- <-]|[_ H1]] [[<- <-]|[_ H2]] Hr Hk; try done.
  - by destruct (Hn id2 e2).
  - by destruct (Hn id1 e1).
  - by eapply Hu.
Qed.

Lemma insert_event_grows id e : keeps timeline_grows (insert_event id e).
Proof.
  intros d b d' [(_ & -> & _)|(_ & -> & Hid & Hf & _)]%insert_event_inr; [done|].
  split; [by apply insert_subseteq|]. intros Hu. by apply unique_keys_insert.
Qed.

#[local] Hint Resolve insert_event_grows : agentrail.

Lemma append_one_grows c i : keeps timeline_grows (append_one c i).
Proof. unfold append_one. keeps. Qed.
#[local] Hint Resolve append_one_grows : agentrail.

Lemma append_many_grows c inputs :
  keeps timeline_grows (appendChangeRecordEventsAtomicallyInTransaction c inputs).
Proof. induction inputs; simpl; keeps. Qed.

Lemma append_contract_event_grows c r k stage actor p :
  keeps timeline_grows (appendContractEventInTransaction c r k stage actor p).
Proof. unfold appendContractEventInTransaction. keeps. Qed.

(** What one round does. *)
Lemma append_one_inr c i d r d' :
  append_one c i d = inr (r, d') →
  find_event (ei_recordId i) (ei_eventKey i) (rd_events d') = Some (ar_id r, ar_event r)
  ∧ same_provenance i (ar_event r) = true
  ∧ ((ar_inserted r = false ∧ d' = d
      ∧ find_event (ei_recordId i) (ei_eventKey i) (rd_events d) = Some (ar_id r, ar_event r))
     ∨ (ar_inserted r = true ∧ ar_id r = event_id i ∧ ar_event r = event_of c i
        ∧ d' = with_events (<[event_id i := event_of c i]> (rd_events d)) d
        ∧ rd_events d !! event_id i = None
        ∧ find_event (ei_recordId i) (ei_eventKey i) (rd_events d) = None
        ∧ is_Some (rd_records d !! ei_recordId i))).
Proof.
  unfold append_one. intros H. tx_inv. simpl in *.
  match goal with H : insert_event _ _ _ = _ |- _ => apply insert_event_inr in H; rename H into Hi end.
  destruct x1 as [id e]; simpl in *. split; [done|]. split; [done|].
  destruct Hi as [(-> & -> & _)|(-> & -> & Hid & Hf & Hr)]; simpl in *; [by left|]. right.
  match goal with H : find_event _ _ (<[_ := _]> _) = Some _ |- _ => rename H into Hn end.
  apply find_event_Some in Hn as (Hn & H1 & H2).
  apply lookup_insert_Some in Hn as [[<- <-]|[_ Hn]]; [by split_and!|].
  rewrite find_event_None in Hf. by destruct (Hf id e Hn).
Qed.

Lemma append_one_inl c i d err :
  append_one c i d = inl err →
  (err = event_bound_differently ∧ ∃ x, find_event (ei_recordId i) (ei_eventKey i) (rd_events d) = Some x
     ∧ same_provenance i x.2 = false)
  ∨ (err = foreign_key_violation ∧ find_event (ei_recordId i) (ei_eventKey i) (rd_events d) = None
     ∧ rd_records d !! ei_recordId i = None)
  ∨ (err = unique_violation ∧ find_event (ei_recordId i) (ei_eventKey i) (rd_events d) = None
     ∧ is_Some (rd_events d !! event_id i)).
Proof.
  unfold append_one, mbind, tx_bind, insert_event. simpl.
  destruct (find_event _ _ (rd_events d)) as [[id e]|] eqn:F; cbn [reads].
  - unfold reads, some_or, require_true. rewrite F. simpl.
    destruct (same_provenance i e) eqn:P; simpl; intros [= <-]. left. by eauto.
  - destruct (rd_events d !! event_id i) as [e0|] eqn:E; simpl; [intros [= <-]; right; right; by eauto|].
    destruct (rd_records d !! ei_recordId i) eqn:R; simpl; [|intros [= <-]; right; left; by eauto].
    unfold reads, some_or, require_true. simpl.
    destruct (find_event _ _ (<[_:=_]> _)) as [[id e]|] eqn:F'; simpl.
    + apply find_event_Some in F' as (H & H1 & H2).
      apply lookup_insert_Some in H as [[<- <-]|[_ H]].
      * unfold same_provenance. simpl. rewrite deep_equal_refl, !bool_decide_eq_true_2 by done. done.
      * rewrite find_event_None in F. by destruct (F id e).
    + rewrite find_event_None in F'.
      by destruct (F' (event_id i) (event_of c i) ltac:(apply lookup_insert_eq)).
Qed.

Lemma find_event_other r k t id e :
  t !! id = None → (ce_record_id e, ce_event_key e) ≠ (r, k) →
  find_event r k (<[id := e]> t) = None ↔ find_event r k t = None.
Proof.
  intros Hid Hne. rewrite !find_event_None. split; intros H id' e' Hl Hr Hk.
  - apply (H id' e'); [|done..]. rewrite lookup_insert_ne; [done|]. congruence.
  - apply lookup_insert_Some in Hl as [[<- <-]|[_ Hl]]; [congruence|]. by apply (H id' e').
Qed.

(** The outcome of one input of a batch that took the timeline from [t] to
    [t']. *)
Definition bound t t' (i : EventInput) (r : AppendResult) : Prop :=
  find_event (ei_recordId i) (ei_eventKey i) t' = Some (ar_id r, ar_event r)
  ∧ same_provenance i (ar_event r) = true
  ∧ ar_inserted r = bool_decide (find_event (ei_recordId i) (ei_eventKey i) t = None).

Definition committed c (inputs : list EventInput) d (rs : list AppendResult) d' : Prop :=
  d' = with_events (rd_events d') d
  ∧ rd_events d ⊆ rd_events d'
  ∧ Forall2 (bound (rd_events d) (rd_events d')) inputs rs
  ∧ ∀ id e, rd_events d' !! id = Some e →
      rd_events d !! id = Some e ∨ ∃ i, i ∈ inputs ∧ id = event_id i ∧ e = event_of c i.

Definition refused (inputs : list EventInput) d (err : RecordError) : Prop :=
  ∃ i, i ∈ inputs ∧
    match find_event (ei_recordId i) (ei_eventKey i) (rd_events d) with
    | Some x => err = event_bound_differently ∧ same_provenance i x.2 = false
    | None => (err = foreign_key_violation ∧ rd_records d !! ei_recordId i = None)
        ∨ (err = unique_violation ∧ (is_Some (rd_events d !! event_id i)
             ∨ ∃ j, j ∈ inputs ∧ event_key j ≠ event_key i ∧ event_id j = event_id i))
    end.

Lemma append_manyP c inputs d :
  unique_keys (rd_events d) → NoDup (event_key <$> inputs) →
  match appendChangeRecordEventsAtomicallyInTransaction c inputs d with
  | inr (rs, d') => committed c inputs d rs d'
  | inl err => refused inputs d err
  end.
Proof.
  revert d. induction inputs as [|i inputs IH]; intros d Hu Hnd; simpl.
  { split; [by destruct d|]. split; [done|]. split; [constructor|]. auto. }
  apply NoDup_cons in Hnd as [Hi Hnd].
  unfold mbind at 1, tx_bind at 1.
  destruct (append_one c i d) as [err|[r d1]] eqn:H1.
  { exists i. split; [set_solver|].
    apply append_one_inl in H1 as [(-> & x & -> & Hp)|[(-> & -> & Hr)|(-> & -> & He)]]; auto. }
  assert (Hg := append_one_grows c i d r d1 H1). destruct Hg as [Hs Hu1]. specialize (Hu1 Hu).
  assert (Hone := append_one_inr c i d r d1 H1). destruct Hone as (Hf & Hp & Hcase).
  assert (Hother : ∀ j, j ∈ inputs → find_event (ei_recordId j) (ei_eventKey j) (rd_events d1) = None
    ↔ find_event (ei_recordId j) (ei_eventKey j) (rd_events d) = None).
  { intros j Hj. destruct Hcase as [(_ & -> & _)|(_ & _ & _ & -> & Hid & _)]; [done|].
    apply find_event_other; [done|]. simpl. intros Heq. apply Hi. apply list_elem_of_fmap.
    exists j. by split. }
  specialize (IH d1 Hu1 Hnd). unfold mbind, tx_bind.
  destruct (appendChangeRecordEventsAtomicallyInTransaction c inputs d1) as [err|[rs d2]] eqn:H2.
  - destruct IH as (j & Hj & IH). exists j. split; [set_solver|].
    destruct (find_event (ei_recordId j) (ei_eventKey j) (rd_events d)) as [x|] eqn:Fj.
    + by rewrite (find_event_mono _ _ _ _ _ Hu1 Hs Fj) in IH.
    + rewrite (proj2 (Hother j Hj) Fj) in IH.
      destruct Hcase as [(_ & -> & _)|(_ & _ & _ & -> & Hid & _ & Hrec)]; simpl in *.
      { destruct IH as [IH|(-> & [He|(j' & Hj' & Hne)])]; [by left|right..]; split; auto.
        right. exists j'. split; [set_solver|done]. }
      destruct IH as [IH|(-> & [[e He]|(j' & Hj' & Hne)])]; [by left|right..]; split; auto.
      * apply lookup_insert_Some in He as [[He _]|[_ He]]; [|by eauto]. right.
        exists i. split; [set_solver|]. split; [|done]. intros Hk. apply Hi. rewrite Hk.
        by apply list_elem_of_fmap_2.
      * right. exists j'. split; [set_solver|done].
  - destruct IH as (He2 & Hs2 & Hb & Hnew). unfold mret, tx_ret.
    assert (Hu2 : unique_keys (rd_events d2)).
    { by eapply (append_many_grows c inputs). }
    split; [|split; [by etrans|split]].
    + rewrite He2. destruct Hcase as [(_ & -> & _)|(_ & _ & _ & -> & _)]; done.
    + constructor.
      * split; [by eapply find_event_mono|]. split; [done|].
        destruct Hcase as [(-> & _ & ->)|(-> & _ & _ & _ & _ & -> & _)]; [by rewrite bool_decide_eq_false_2|
          by rewrite bool_decide_eq_true_2].
      * apply Forall2_same_length_lookup in Hb as [Hlen Hb].
        apply Forall2_same_length_lookup. split; [done|]. intros n j r' Hj Hr'.
        destruct (Hb n j r' Hj Hr') as (B1 & B2 & B3). split_and!; [done..|].
        rewrite B3. apply bool_decide_ext, Hother. by eapply list_elem_of_lookup_2.
    + intros id e Hid. destruct (Hnew id e Hid) as [H|(j & Hj & H)].
      * destruct Hcase as [(_ & -> & _)|(_ & _ & _ & -> & _)]; [by left|]. simpl in H.
        apply lookup_insert_Some in H as [[<- <-]|[_ H]]; [|by left].
        right. exists i. split; [set_solver|done].
      * right. exists j. split; [set_solver|done].
Qed.

Lemma well_formed_keys inputs :
  well_formed_batch inputs = true → NoDup (event_key <$> inputs).
Proof.
  unfold well_formed_batch. intros H. bools. rename select (NoDup _) into Hnd. clear -Hnd.
  induction inputs as [|i inputs IH]; simpl in *; [constructor|].
  apply NoDup_cons in Hnd as [Hi Hnd]. constructor; [|by apply IH].
  intros (j & [= _ Hk] & Hj)%list_elem_of_fmap. apply Hi. rewrite Hk. by apply list_elem_of_fmap_2.
Qed.

(** C40 (error).  A batch of events is all or nothing: it either binds every key to
    exactly the stage, actor and payload asked for, adding only the events whose
    keys were free and reporting which, or throws and leaves the database as it
    was - because the batch is empty, spans two records or repeats a key, because
    one of its keys is already bound to different content, because the record
    does not exist, or because the id of an event is taken under another key. *)
Theorem event_batch_atomic c inputs d :
  unique_keys (rd_events d) →
  match appendChangeRecordEventsAtomically c inputs d with
  | (inr rs, d') => well_formed_batch inputs = true ∧ committed c inputs d rs d'
  | (inl err, d') => d' = d
      ∧ if well_formed_batch inputs then refused inputs d err else err = invalid_input
  end.
Proof.
  intros Hu. unfold appendChangeRecordEventsAtomically.
  destruct (well_formed_batch inputs) eqn:Hw; [|done].
  assert (H := append_manyP c inputs d Hu (well_formed_keys _ Hw)). unfold transaction.
  by destruct (appendChangeRecordEventsAtomicallyInTransaction c inputs d) as [err|[rs d']].
Qed.

Lemma append_again c i d r :
  find_event (ei_recordId i) (ei_eventKey i) (rd_events d) = Some (ar_id r, ar_event r) →
  same_provenance i (ar_event r) = true →
  append_one c i d = inr (mkAppendResult (ar_id r) (ar_event r) false, d).
Proof.
  intros Hf Hp. unfold append_one, mbind, tx_bind, insert_event, reads, some_or, require_true. simpl.
  rewrite Hf. simpl. rewrite Hf. simpl. by rewrite Hp.
Qed.

(** Delivering a committed batch again, at any later time and
    after anything that only appends events, finds the events of the first
    delivery, inserts nothing and changes nothing. *)
Theorem event_batch_retry c c' inputs d rs d1 d2 :
  unique_keys (rd_events d) →
  appendChangeRecordEventsAtomically c inputs d = (inr rs, d1) →
  timeline_grows d1 d2 →
  appendChangeRecordEventsAtomically c' inputs d2
  = (inr ((λ r, mkAppendResult (ar_id r) (ar_event r) false) <$> rs), d2).
Proof.
  intros Hu H [Hs Hu2]. unfold appendChangeRecordEventsAtomically in *.
  destruct (well_formed_batch inputs) eqn:Hw; [|done].
  assert (Hb := append_manyP c inputs d Hu (well_formed_keys _ Hw)).
  unfold transaction in *.
  destruct (appendChangeRecordEventsAtomicallyInTransaction c inputs d) as [err|[rs' d']] eqn:E; [done|].
  simplify_eq. destruct Hb as (_ & _ & Hb & _).
  assert (unique_keys (rd_events d2)) as Hu'.
  { apply Hu2. by eapply (append_many_grows c inputs). }
  clear E Hw. assert (Hgoal : appendChangeRecordEventsAtomicallyInTransaction c' inputs d2
    = inr ((λ r, mkAppendResult (ar_id r) (ar_event r) false) <$> rs, d2)); [|by rewrite Hgoal].
  induction Hb as [|i r inputs rs (Hf & Hp & _) Hb IH]; [done|].
  cbn [appendChangeRecordEventsAtomicallyInTransaction]. unfold mbind, tx_bind.
  rewrite (append_again c' i d2 r); [|by eapply find_event_mono|done]. by rewrite IH.
Qed.
End Timeline.

(** ** A batch on a concrete record *)

(** A stand-in for sha1: a polynomial checksum, as twenty bytes. *)
Definition sum_sha1 (bytes : list Z) : list Z :=
  let h := foldl (λ h b, Z.land (h * 131 + b) 0xffffffffff) 7 bytes in
  (λ i, Z.land (Z.shiftr h (8 * Z.of_nat i)) 0xff) <$> seq 0 20.
Definition empty_record : ChangeRecord :=
  mkChangeRecord "ws" "acme/app" None None (JArr []) None None None None false 0 [] None "open" 0 0.
Definition one_record_db : RecordDb := mkRecordDb {["r1" := empty_record]} ∅ ∅ ∅ ∅ ∅ ∅.
Definition event_a : EventInput :=
  mkEventInput "r1" "a" "qa" "server" (JObj [("x", jnum 1); ("b", JStr "y")]) None.
Definition event_b : EventInput := mkEventInput "r1" "b" "qa" "server" (JObj []) (Some 7).
(** The payload of [event_a] with its keys in another order. *)
Definition event_a' : EventInput :=
  mkEventInput "r1" "a" "qa" "server" (JObj [("b", JStr "y"); ("x", jnum 1)]) None.
Definition first_batch := appendChangeRecordEventsAtomically sum_sha1 (mkClock 1 1) [event_a; event_b] one_record_db.
Definition batch_flags (r : (RecordError + list AppendResult) * RecordDb) : RecordError + list bool :=
  match r.1 with inl e => inl e | inr rs => inr (ar_inserted <$> rs) end.

Example batch_inserts : batch_flags first_batch = inr [true; true].
Proof. vm_compute. reflexivity. Qed.
Example batch_retried :
  batch_flags (appendChangeRecordEventsAtomically sum_sha1 (mkClock 9 9) [event_a'; event_b] first_batch.2)
  = inr [false; false].
Proof. vm_compute. reflexivity. Qed.
Example batch_conflict :
  batch_flags (appendChangeRecordEventsAtomically sum_sha1 (mkClock 9 9)
    [mkEventInput "r1" "c" "qa" "server" (JObj []) None;
     mkEventInput "r1" "a" "qa" "server" (JObj []) None] first_batch.2)
  = inl event_bound_differently.
Proof. vm_compute. reflexivity. Qed.

Lemma unique_keys_empty : unique_keys ∅.
Proof. intros id1 id2 e1 e2 H. by rewrite lookup_empty in H. Qed.

Lemma event_batch_atomic_witness :
  match appendChangeRecordEventsAtomically sum_sha1 (mkClock 1 1) [event_a; event_b] one_record_db with
  | (inr rs, d') => well_formed_batch [event_a; event_b] = true
      ∧ committed sum_sha1 (mkClock 1 1) [event_a; event_b] one_record_db rs d'
  | (inl err, d') => d' = one_record_db
      ∧ if well_formed_batch [event_a; event_b] then refused sum_sha1 [event_a; event_b] one_record_db err
        else err = invalid_input
  end.
Proof. exact (event_batch_atomic sum_sha1 (mkClock 1 1) [event_a; event_b] one_record_db unique_keys_empty). Defined.

Lemma event_batch_retry_witness :
  ∃ rs, first_batch.1 = inr rs
    ∧ appendChangeRecordEventsAtomically sum_sha1 (mkClock 9 9) [event_a; event_b] first_batch.2
      = (inr ((λ r, mkAppendResult (ar_id r) (ar_event r) false) <$> rs), first_batch.2).
Proof.
  destruct first_batch as [[err|rs] d1] eqn:E; cbn [fst snd].
  - exfalso. assert (H := f_equal (λ x, match x.1 with inl _ => true | inr _ => false end) E).
    vm_compute in H. discriminate H.
  - exists rs. split; [reflexivity|].
    exact (event_batch_retry sum_sha1 (mkClock 1 1) (mkClock 9 9) [event_a; event_b] one_record_db rs d1 d1
      unique_keys_empty E (reflexivity d1)).
Defined.
