(* ===== verification/ChangeRecords.v ===== *)
(** * ChangeRecords: one record per change, whichever key it is found by

    [queries/change_records.ts]: the deterministic ids, [findOrCreateChangeRecord]
    with its merge of an issue's and a pull request's records, the reads. *)

From S2P Require Import Prelude Table Regex Intake Tx RecordSchema JsonText Timeline.
From stdpp Require Import sorting.
Open Scope Z_scope.

Section ChangeRecords.
Context (sha1 : list Z → list Z).
Implicit Types (t : records) (r : ChangeRecord) (d : RecordDb).

Record Anchor := mkAnchor {
  an_workspaceId : string;
  an_repo : string;
  an_workKey : option string;
  an_issueNumber : option Z;
  an_prNumber : option Z;
}.

(** [None] is the exception. *)
Definition changeRecordId (a : Anchor) : option string :=
  let name kind key :=
    Some (uuid5Url sha1 ("change-record:" +:+ kind +:+ ":" +:+ an_workspaceId a +:+ ":" +:+ an_repo a
                         +:+ ":" +:+ key)) in
  let by_number :=
    match an_issueNumber a, an_prNumber a with
    | Some n, _ => name "issue" (show_Z n)
    | None, Some n => name "pr" (show_Z n)
    | None, None => None
    end in
  match trim <$> an_workKey a with
  | Some (String _ _ as k) => name "work" k
  | _ => by_number
  end.

(** ** Reads *)

Definition in_repo (ws repo : string) r : bool := (cr_workspace_id r ≡? ws) && (cr_repo r ≡? repo).
Definition has_issue (ws repo : string) (n : Z) (_ : string) r : bool :=
  in_repo ws repo r && sql_eq (cr_issue_number r) n.
Definition has_pr (ws repo : string) (n : Z) (_ : string) r : bool :=
  in_repo ws repo r && sql_eq (cr_pr_number r) n.
(** [SELECT * ... LIMIT 1] *)
Definition find_record (p : string → ChangeRecord → bool) t : option (string * ChangeRecord) :=
  head (select_where p t).

Definition readChangeRecordByPr (ws repo : string) (n : Z) t : option (string * ChangeRecord) :=
  if n <=? 0 then None else find_record (has_pr ws repo n) t.

(** [ORDER BY at ASC, created_at ASC] *)
Definition event_order (x y : string * ChangeEvent) : Prop :=
  ce_at x.2 < ce_at y.2 ∨ ce_at x.2 = ce_at y.2 ∧ ce_created_at x.2 ≤ ce_created_at y.2.
#[export] Instance event_order_dec x y : Decision (event_order x y).
Proof. unfold event_order. apply _. Defined.
Definition timeline_of (id : string) (t : events) : list (string * ChangeEvent) :=
  merge_sort event_order (select_where (λ _ e, ce_record_id e ≡? id) t).

Definition readChangeRecordTimeline (ws id : string) d : option (ChangeRecord * list (string * ChangeEvent)) :=
  match rd_records d !! id with
  | Some r => if cr_workspace_id r ≡? ws then Some (r, timeline_of id (rd_events d)) else None
  | None => None
  end.
Definition readChangeRecordTimelineByPr (ws repo : string) (n : Z) d
    : option (ChangeRecord * list (string * ChangeEvent)) :=
  match find_record (has_pr ws repo n) (rd_records d) with
  | Some (id, r) => Some (r, timeline_of id (rd_events d))
  | None => None
  end.

(** ** Find or create *)

Record FindOrCreateInput := mkFindOrCreateInput {
  fc_anchor : Anchor;
  fc_headShas : list string;
  fc_mergedSha : option string;
  fc_state : option string;
}.

(** The UPDATE of a record that was found. *)
Definition enrich (c : Clock) (i : FindOrCreateInput) r : ChangeRecord :=
  mkChangeRecord (cr_workspace_id r) (cr_repo r) (cr_work_key r) (cr_origin_channel r)
    (cr_source_references r)
    (coalesce (cr_issue_number r) (an_issueNumber (fc_anchor i)))
    (coalesce (cr_pr_number r) (an_prNumber (fc_anchor i)))
    (cr_head_sha r) (cr_cycle_id r) (cr_authoritative r) (cr_generation r)
    (sort_distinct (cr_head_shas r ++ normalizeHeadShas (fc_headShas i)))
    (coalesce (fc_mergedSha i) (cr_merged_sha r)) (default (cr_state r) (fc_state i))
    (cr_created_at r) (db_now c).

(** The UPDATE of the issue's record when the pull request's record [p] is
    merged into it. *)
Definition absorb (c : Clock) (i : FindOrCreateInput) (p r : ChangeRecord) : ChangeRecord :=
  let keep {A} (x y : A) : A := if is_null (cr_head_sha r) then y else x in
  mkChangeRecord (cr_workspace_id r) (cr_repo r) (cr_work_key r) (cr_origin_channel r)
    (cr_source_references r) (cr_issue_number r)
    (coalesce (cr_pr_number r) (an_prNumber (fc_anchor i)))
    (coalesce (cr_head_sha r) (cr_head_sha p)) (coalesce (cr_cycle_id r) (cr_cycle_id p))
    (keep (cr_authoritative r) (cr_authoritative p)) (keep (cr_generation r) (cr_generation p))
    (sort_distinct (cr_head_shas r ++ normalizeHeadShas (normalizeHeadShas (fc_headShas i) ++ cr_head_shas p)))
    (coalesce (fc_mergedSha i) (cr_merged_sha r)) (default (cr_state r) (fc_state i))
    (cr_created_at r) (db_now c).

Definition new_record (c : Clock) (i : FindOrCreateInput) : ChangeRecord :=
  mkChangeRecord (an_workspaceId (fc_anchor i)) (an_repo (fc_anchor i)) None None (JArr [])
    (an_issueNumber (fc_anchor i)) (an_prNumber (fc_anchor i)) None None false 0
    (normalizeHeadShas (fc_headShas i)) (fc_mergedSha i) (default "open" (fc_state i))
    (db_now c) (db_now c).

Definition set_ce_record (id : string) (e : ChangeEvent) : ChangeEvent :=
  mkChangeEvent id (ce_event_key e) (ce_stage e) (ce_at e) (ce_actor e) (ce_payload e) (ce_created_at e).
Definition set_in_record (v : option string) (x : AcceptanceIntake) : AcceptanceIntake :=
  mkAcceptanceIntake (in_workspace_id x) (in_origin_channel x) (in_conversation_key x)
    (in_source_references x) (in_status x) v (in_created_at x) (in_updated_at x).

(** The DELETE of duplicated events and the UPDATE that moves the others. *)
Definition move_events (from to : string) (t : events) : events :=
  let kept := filter (λ kv : string * ChangeEvent,
    ¬ (ce_record_id kv.2 = from ∧ find_event to (ce_event_key kv.2) t ≠ None)) t in
  update_where (λ _ e, ce_record_id e ≡? from) (set_ce_record to) kept.

(** [DELETE FROM change_records WHERE id = ...] with the references to it: the
    events and contracts go with it, an intake forgets it.  A dispatch holds
    its contract by ON DELETE RESTRICT, so it stops the statement. *)
Definition delete_record (id : string) : record_tx unit := λ d,
  if bool_decide (select_where (λ _ x, cd_record_id x ≡? id) (rd_dispatches d) = []) then
    inr (tt, mkRecordDb (delete id (rd_records d))
      (filter (λ kv : string * AcceptanceContract, ac_record_id kv.2 ≠ id) (rd_contracts d))
      (filter (λ kv : string * ChangeEvent, ce_record_id kv.2 ≠ id) (rd_events d))
      (rd_dispatches d)
      (update_where (λ _ x, sql_eq (in_record_id x) id) (set_in_record None) (rd_intakes d))
      (rd_jobs d) (rd_boots d))
  else inl foreign_key_violation.

(** [UPDATE change_records SET ... WHERE id = ... RETURNING *] *)
Definition update_record (id : string) (f : ChangeRecord → ChangeRecord) : record_tx ChangeRecord :=
  row ← runs (λ d, let '(row, t) := update_row id (λ _, true) f (rd_records d) in (row, with_records t d));
  some_or row lost_precondition.

(** [INSERT INTO change_records ... RETURNING *] *)
Definition insert_record (id : string) r : record_tx ChangeRecord := λ d,
  if is_null (rd_records d !! id) then inr (r, with_records (<[id := r]> (rd_records d)) d)
  else inl unique_violation.

Definition issue_record (a : Anchor) t : option (string * ChangeRecord) :=
  an_issueNumber a ≫= λ n, find_record (has_issue (an_workspaceId a) (an_repo a) n) t.
Definition pr_record (a : Anchor) t : option (string * ChangeRecord) :=
  an_prNumber a ≫= λ n, find_record (has_pr (an_workspaceId a) (an_repo a) n) t.

Definition find_or_create_tx (c : Clock) (i : FindOrCreateInput) (canonicalId : string)
    : record_tx (string * ChangeRecord) :=
  issueRecord ← reads (λ d, issue_record (fc_anchor i) (rd_records d));
  prRecord ← reads (λ d, pr_record (fc_anchor i) (rd_records d));
  match issueRecord, prRecord with
  | Some (iid, _), Some (pid, p) =>
      if iid ≢? pid then
        _ ← writes (λ d, with_events (move_events pid iid (rd_events d)) d);
        _ ← delete_record pid;
        r ← update_record iid (absorb c i p);
        mret (iid, r)
      else r ← update_record iid (enrich c i); mret (iid, r)
  | Some (id, _), None | None, Some (id, _) => r ← update_record id (enrich c i); mret (id, r)
  | None, None => r ← insert_record canonicalId (new_record c i); mret (canonicalId, r)
  end.

Definition findOrCreateChangeRecord (c : Clock) (i : FindOrCreateInput) d
    : (RecordError + string * ChangeRecord) * RecordDb :=
  if is_null (an_issueNumber (fc_anchor i)) && is_null (an_prNumber (fc_anchor i))
  then (inl invalid_input, d) else
  match changeRecordId (fc_anchor i) with
  | None => (inl invalid_input, d)
  | Some canonicalId => transaction (find_or_create_tx c i canonicalId) d
  end.

(** ** Finding records *)

Lemma find_record_Some p t id r : find_record p t = Some (id, r) → t !! id = Some r ∧ p id r = true.
Proof.
  unfold find_record. intros H. apply elem_of_select_where.
  destruct (select_where p t); [done|]. injection H as ->. set_solver.
Qed.
Lemma find_record_None p t : find_record p t = None ↔ ∀ id r, t !! id = Some r → p id r = false.
Proof.
  unfold find_record. split.
  - destruct (select_where p t) as [|x l] eqn:E; [|done]. intros _ id r Hid.
    apply not_true_iff_false. intros Hp.
    assert (Hin : (id, r) ∈ select_where p t) by by apply elem_of_select_where.
    rewrite E in Hin. by apply not_elem_of_nil in Hin.
  - intros H. destruct (select_where p t) as [|[id r] l] eqn:E; [done|].
    assert (Hin : (id, r) ∈ select_where p t) by (rewrite E; set_solver).
    apply elem_of_select_where in Hin as [H1 H2]. by rewrite (H id r) in H2.
Qed.

Lemma has_issueP ws repo n id r :
  has_issue ws repo n id r = true ↔ cr_workspace_id r = ws ∧ cr_repo r = repo ∧ cr_issue_number r = Some n.
Proof. unfold has_issue, in_repo, sql_eq. rewrite !andb_true_iff, !bool_decide_eq_true. tauto. Qed.
Lemma has_prP ws repo n id r :
  has_pr ws repo n id r = true ↔ cr_workspace_id r = ws ∧ cr_repo r = repo ∧ cr_pr_number r = Some n.
Proof. unfold has_pr, in_repo, sql_eq. rewrite !andb_true_iff, !bool_decide_eq_true. tauto. Qed.

(** A partial unique index finds its row. *)
Lemma find_record_unique {K} (f : ChangeRecord → option K) (p : string → ChangeRecord → bool) k t id r :
  unique_by f t →
  (∀ id r, p id r = true ↔ cr_workspace_id r = k.1.1 ∧ cr_repo r = k.1.2 ∧ f r = Some k.2) →
  t !! id = Some r → p id r = true → find_record p t = Some (id, r).
Proof.
  intros Hu Hp Hid Hpr. destruct (find_record p t) as [[id' r']|] eqn:E.
  - apply find_record_Some in E as [H1 H2]. apply Hp in Hpr as (A1 & A2 & A3), H2 as (B1 & B2 & B3).
    assert (id' = id) as -> by (eapply Hu; [done..|by eexists|by eexists|congruence]). congruence.
  - rewrite find_record_None in E. by rewrite (E id r) in Hpr.
Qed.

(** Replacing a row under a unique index. *)
Lemma unique_by_insert {K} (f : ChangeRecord → option K) t id r :
  unique_by f t →
  (∀ id' r', id' ≠ id → t !! id' = Some r' → cr_workspace_id r' = cr_workspace_id r →
     cr_repo r' = cr_repo r → f r' = f r → f r = None) →
  unique_by f (<[id := r]> t).
Proof.
  intros Hu Hnew id1 id2 r1 r2.
  rewrite !lookup_insert_Some. intros [[<- <-]|[N1 H1]] [[<- <-]|[N2 H2]] S1 S2 Heq; try done;
    injection Heq as W R F.
  - destruct S1 as [x Hx]. rewrite (Hnew id2 r2) in Hx; congruence.
  - destruct S2 as [x Hx]. rewrite (Hnew id1 r1) in Hx; congruence.
  - apply (Hu id1 id2 r1 r2); [done..|congruence].
Qed.

(** A row whose key does not change. *)
Lemma unique_by_keep {K} (f : ChangeRecord → option K) t id r r0 :
  unique_by f t → t !! id = Some r0 → cr_workspace_id r = cr_workspace_id r0 →
  cr_repo r = cr_repo r0 → f r = f r0 → unique_by f (<[id := r]> t).
Proof.
  intros Hu Hid W R F. apply unique_by_insert; [done|]. intros id' r' Hne H' W' R' F'.
  destruct (f r) as [x|] eqn:Fx; [|done]. exfalso. apply Hne.
  eapply Hu; [done..|by eexists|by eexists|congruence].
Qed.

Lemma unique_by_delete {K} (f : ChangeRecord → option K) t id : unique_by f t → unique_by f (delete id t).
Proof. intros Hu id1 id2 r1 r2 [_ H1]%lookup_delete_Some [_ H2]%lookup_delete_Some. by apply Hu. Qed.

(** What a record keeps when an issue or pull request number is filled in. *)
Lemma unique_by_fill {K} (f : ChangeRecord → option K) (x : option K) t id r r0 :
  unique_by f t → t !! id = Some r0 → cr_workspace_id r = cr_workspace_id r0 →
  cr_repo r = cr_repo r0 → f r = coalesce (f r0) x →
  (f r0 = None → ∀ k, x = Some k → ∀ id' r', id' ≠ id → t !! id' = Some r' →
     cr_workspace_id r' = cr_workspace_id r0 → cr_repo r' = cr_repo r0 → f r' ≠ Some k) →
  unique_by f (<[id := r]> t).
Proof.
  intros Hu Hid W R F Hx. destruct (f r0) as [y|] eqn:F0; [by eapply unique_by_keep; [..|by rewrite F, F0]|].
  apply unique_by_insert; [done|]. intros id' r' Hne H' W' R' F'. rewrite F. simpl.
  destruct x as [k|]; [|done]. exfalso. eapply Hx; [done|done|exact Hne|exact H'|congruence|congruence|].
  by rewrite F', F.
Qed.

(** ** The three ways a call ends *)

Lemma update_record_inr id f d r d' :
  update_record id f d = inr (r, d') →
  ∃ r0, rd_records d !! id = Some r0 ∧ r = f r0 ∧ d' = with_records (<[id := f r0]> (rd_records d)) d.
Proof.
  unfold update_record. intros H. tx_inv.
  match goal with H : _ = (Some _, _) |- _ => rename H into Hu end.
  destruct (update_rowP (λ _, true) f id (rd_records d)); simplify_eq. eauto.
Qed.

Lemma insert_record_inr id r0 d r d' :
  insert_record id r0 d = inr (r, d') →
  rd_records d !! id = None ∧ r = r0 ∧ d' = with_records (<[id := r0]> (rd_records d)) d.
Proof. unfold insert_record. destruct (rd_records d !! id) eqn:E; [done|]. by intros [= -> <-]. Qed.

Lemma delete_record_inr id d u d' :
  delete_record id d = inr (u, d') →
  rd_records d' = delete id (rd_records d)
  ∧ rd_events d' = filter (λ kv : string * ChangeEvent, ce_record_id kv.2 ≠ id) (rd_events d).
Proof. unfold delete_record. destruct (bool_decide _); [|done]. by intros [= _ <-]. Qed.

Inductive find_or_create_spec (c : Clock) (i : FindOrCreateInput) (cid : string) d
    : string → ChangeRecord → RecordDb → Prop :=
| fc_merged iid r0 pid p d' :
    issue_record (fc_anchor i) (rd_records d) = Some (iid, r0) →
    pr_record (fc_anchor i) (rd_records d) = Some (pid, p) → iid ≠ pid →
    rd_records d' = <[iid := absorb c i p r0]> (delete pid (rd_records d)) →
    rd_events d' = filter (λ kv : string * ChangeEvent, ce_record_id kv.2 ≠ pid) (move_events pid iid (rd_events d)) →
    find_or_create_spec c i cid d iid (absorb c i p r0) d'
| fc_enriched id r0 :
    rd_records d !! id = Some r0 →
    (issue_record (fc_anchor i) (rd_records d) = Some (id, r0)
     ∧ pr_record (fc_anchor i) (rd_records d) ∈ [None; Some (id, r0)]
     ∨ issue_record (fc_anchor i) (rd_records d) = None
       ∧ pr_record (fc_anchor i) (rd_records d) = Some (id, r0)) →
    find_or_create_spec c i cid d id (enrich c i r0)
      (with_records (<[id := enrich c i r0]> (rd_records d)) d)
| fc_created :
    issue_record (fc_anchor i) (rd_records d) = None →
    pr_record (fc_anchor i) (rd_records d) = None →
    rd_records d !! cid = None →
    find_or_create_spec c i cid d cid (new_record c i)
      (with_records (<[cid := new_record c i]> (rd_records d)) d).

Lemma issue_record_Some a t id r :
  issue_record a t = Some (id, r) →
  t !! id = Some r ∧ ∃ n, an_issueNumber a = Some n ∧ cr_issue_number r = Some n
    ∧ cr_workspace_id r = an_workspaceId a ∧ cr_repo r = an_repo a.
Proof.
  unfold issue_record. intros (n & Hn & [H1 H2]%find_record_Some)%bind_Some.
  apply has_issueP in H2 as (A & B & C). eauto 10.
Qed.
Lemma pr_record_Some a t id r :
  pr_record a t = Some (id, r) →
  t !! id = Some r ∧ ∃ n, an_prNumber a = Some n ∧ cr_pr_number r = Some n
    ∧ cr_workspace_id r = an_workspaceId a ∧ cr_repo r = an_repo a.
Proof.
  unfold pr_record. intros (n & Hn & [H1 H2]%find_record_Some)%bind_Some.
  apply has_prP in H2 as (A & B & C). eauto 10.
Qed.
Lemma issue_record_None a t n id r :
  issue_record a t = None → an_issueNumber a = Some n → t !! id = Some r →
  cr_workspace_id r = an_workspaceId a → cr_repo r = an_repo a → cr_issue_number r ≠ Some n.
Proof.
  unfold issue_record. intros H Hn Hid Hw Hr Hc. rewrite Hn in H. simpl in H. rewrite find_record_None in H.
  specialize (H id r Hid). by rewrite (proj2 (has_issueP _ _ _ id r)) in H.
Qed.
Lemma pr_record_None a t n id r :
  pr_record a t = None → an_prNumber a = Some n → t !! id = Some r →
  cr_workspace_id r = an_workspaceId a → cr_repo r = an_repo a → cr_pr_number r ≠ Some n.
Proof.
  unfold pr_record. intros H Hn Hid Hw Hr Hc. rewrite Hn in H. simpl in H. rewrite find_record_None in H.
  specialize (H id r Hid). by rewrite (proj2 (has_prP _ _ _ id r)) in H.
Qed.

Lemma find_or_create_inr c i cid d id r d' :
  find_or_create_tx c i cid d = inr ((id, r), d') → find_or_create_spec c i cid d id r d'.
Proof.
  unfold find_or_create_tx. intros H.
  apply bind_inr in H as (ir & d1 & [-> ->]%reads_inr & H).
  apply bind_inr in H as (pr & d2 & [-> ->]%reads_inr & H).
  destruct (issue_record (fc_anchor i) _) as [[iid r0]|] eqn:Ei, (pr_record (fc_anchor i) _) as [[pid p]|] eqn:Ep.
  1: assert (Hi := issue_record_Some _ _ _ _ Ei); assert (Hp := pr_record_Some _ _ _ _ Ep).
  1: destruct (decide (iid = pid)) as [->|Hne].
  - rewrite bool_decide_eq_true_2 in H by done. simpl in H. tx_inv.
    match goal with H : update_record _ _ _ = _ |- _ => apply update_record_inr in H as (r1 & Hl & -> & ->) end.
    destruct Hi as [Hi _], Hp as [Hp _]. simplify_eq. apply fc_enriched; [done|]. left. split; [done|set_solver].
  - rewrite bool_decide_eq_false_2 in H by done. simpl in H. tx_inv.
    match goal with H : update_record _ _ _ = _ |- _ => apply update_record_inr in H as (r1 & Hl & -> & ->) end.
    match goal with H : delete_record _ _ = _ |- _ => apply delete_record_inr in H as (Hr & He) end.
    simpl in Hr, He. destruct Hi as [Hi _].
    assert (r1 = r0) as -> by (rewrite Hr, lookup_delete_ne in Hl by done; congruence).
    eapply fc_merged; [done..| |]; simpl; congruence.
  - tx_inv. match goal with H : update_record _ _ _ = _ |- _ => apply update_record_inr in H as (r1 & Hl & -> & ->) end.
    apply issue_record_Some in Ei as Hi. destruct Hi as [Hi _]. simplify_eq.
    apply fc_enriched; [done|]. left. split; [done|set_solver].
  - tx_inv. match goal with H : update_record _ _ _ = _ |- _ => apply update_record_inr in H as (r1 & Hl & -> & ->) end.
    apply pr_record_Some in Ep as Hp. destruct Hp as [Hp _]. simplify_eq.
    apply fc_enriched; [done|]. by right.
  - tx_inv. match goal with H : insert_record _ _ _ = _ |- _ => apply insert_record_inr in H as (Hl & -> & ->) end.
    by apply fc_created.
Qed.

(** ** The constraints hold *)

Lemma absorb_ok c i p r : record_ok p → record_ok r → record_ok (absorb c i p r).
Proof.
  unfold record_ok, absorb. simpl. intros [Hp Gp] [Hr Gr].
  destruct (cr_head_sha r) as [sha|]; simpl.
  - destruct Hr as (H1 & H2 & [x Hx]). rewrite Hx. simpl. split_and!; [done| |by eexists|done].
    rewrite elem_of_sort_distinct, elem_of_app. by left.
  - destruct Hr as [-> _]. simpl. split; [|done]. destruct (cr_head_sha p) as [sha|]; [|done].
    destruct Hp as (H1 & H2 & H3). split_and!; [done| |done].
    rewrite elem_of_sort_distinct, elem_of_app, elem_of_normalizeHeadShas, elem_of_app. right.
    split; [by right|by apply exact_sha_nonempty].
Qed.

Lemma enrich_ok c i r : record_ok r → record_ok (enrich c i r).
Proof.
  unfold record_ok, enrich. simpl. intros [Hr Gr]. destruct (cr_head_sha r); [|done].
  destruct Hr as (H1 & H2 & H3). split; [|done]. split_and!; [done| |done].
  rewrite elem_of_sort_distinct, elem_of_app. by left.
Qed.

Lemma new_record_ok c i : record_ok (new_record c i).
Proof. done. Qed.

(** The pull request's record is the only one with its number. *)
Lemma merge_records_ok c i t iid r0 pid p :
  records_ok t → issue_record (fc_anchor i) t = Some (iid, r0) → pr_record (fc_anchor i) t = Some (pid, p) →
  iid ≠ pid → records_ok (<[iid := absorb c i p r0]> (delete pid t)).
Proof.
  intros (Ht & Ui & Up & Uw) Hi Hp Hne.
  apply issue_record_Some in Hi as (Hi & n & _ & _ & Wi & Ri).
  apply pr_record_Some in Hp as (Hp & m & Hm & Pm & Wp & Rp).
  assert (Hi' : delete pid t !! iid = Some r0) by (rewrite lookup_delete_ne; congruence).
  split; [|split_and!].
  - apply map_Forall_insert_2; [apply absorb_ok; [by apply (Ht pid)|by apply (Ht iid)]|].
    intros id r [_ H]%lookup_delete_Some. by apply (Ht id).
  - by eapply unique_by_keep; [apply unique_by_delete|..].
  - eapply (unique_by_fill _ (an_prNumber (fc_anchor i))); [by apply unique_by_delete|done..|].
    intros _ k Hk id r Hid [Hd Hr]%lookup_delete_Some W R F. apply Hd.
    eapply Up; [exact Hp|exact Hr|by eexists|by eexists|congruence].
  - by eapply unique_by_keep; [apply unique_by_delete|..].
Qed.

Lemma find_or_create_records c i cid d id r d' :
  find_or_create_spec c i cid d id r d' → records_ok (rd_records d) → records_ok (rd_records d').
Proof.
  intros [iid r0 pid p d1 Hi Hp Hne -> _|id0 r0 Hid Hcase|Hi Hp Hfresh] Hok; simpl;
    [by apply merge_records_ok| |]; destruct Hok as (Ht & Ui & Up & Uw).
  - assert (W : cr_workspace_id r0 = an_workspaceId (fc_anchor i) ∧ cr_repo r0 = an_repo (fc_anchor i)).
    { destruct Hcase as [[H _]|[_ H]]; [apply issue_record_Some in H|apply pr_record_Some in H]; naive_solver. }
    destruct W as [W R]. split; [|split_and!].
    + apply map_Forall_insert_2; [apply enrich_ok, (Ht id0), Hid|done].
    + eapply (unique_by_fill _ (an_issueNumber (fc_anchor i))); [done..|].
      intros Hn k Hk id' r' _ H' W' R' F. destruct Hcase as [[H _]|[H _]].
      * apply issue_record_Some in H as (_ & m & _ & Hm & _). congruence.
      * eapply (issue_record_None (fc_anchor i)); [done..|congruence|congruence|done].
    + eapply (unique_by_fill _ (an_prNumber (fc_anchor i))); [done..|].
      intros Hn k Hk id' r' _ H' W' R' F.
      assert (Hp : pr_record (fc_anchor i) (rd_records d) ∈ [None; Some (id0, r0)]) by (destruct Hcase as [[_ H]|[_ ->]]; [done|set_solver]).
      rewrite elem_of_cons, list_elem_of_singleton in Hp. destruct Hp as [H|H].
      * eapply (pr_record_None (fc_anchor i)); [done..|congruence|congruence|done].
      * apply pr_record_Some in H as (_ & m & _ & Hm & _). congruence.
    + by eapply unique_by_keep.
  - split; [|split_and!].
    + by apply map_Forall_insert_2.
    + apply unique_by_insert; [done|]. simpl. intros id' r' _ H' W R F.
      destruct (an_issueNumber (fc_anchor i)) as [n|] eqn:N; [|done].
      by destruct (issue_record_None _ _ _ _ _ Hi N H' W R).
    + apply unique_by_insert; [done|]. simpl. intros id' r' _ H' W R F.
      destruct (an_prNumber (fc_anchor i)) as [n|] eqn:N; [|done].
      by destruct (pr_record_None _ _ _ _ _ Hp N H' W R).
    + by apply unique_by_insert.
Qed.

(** ** Asking again *)

Definition touched (now : Z) r : ChangeRecord :=
  mkChangeRecord (cr_workspace_id r) (cr_repo r) (cr_work_key r) (cr_origin_channel r)
    (cr_source_references r) (cr_issue_number r) (cr_pr_number r) (cr_head_sha r) (cr_cycle_id r)
    (cr_authoritative r) (cr_generation r) (cr_head_shas r) (cr_merged_sha r) (cr_state r)
    (cr_created_at r) now.

Lemma coalesce_twice {A} (x y : option A) : coalesce (coalesce x y) y = coalesce x y.
Proof. by destruct x, y. Qed.
Lemma coalesce_front {A} (x y : option A) : coalesce x (coalesce x y) = coalesce x y.
Proof. by destruct x. Qed.
Lemma default_twice {A} (x : A) (y : option A) : default (default x y) y = default x y.
Proof. by destruct y. Qed.

Lemma enrich_enrich c c' i r : enrich c' i (enrich c i r) = touched (db_now c') (enrich c i r).
Proof.
  unfold enrich, touched. simpl. f_equal; auto using coalesce_twice, coalesce_front, default_twice.
  apply sort_distinct_absorb. set_solver.
Qed.
Lemma enrich_new c c' i : enrich c' i (new_record c i) = touched (db_now c') (new_record c i).
Proof.
  unfold enrich, new_record, touched. simpl. f_equal; auto using default_twice, normalizeHeadShas_idem.
  - by destruct (an_issueNumber _).
  - by destruct (an_prNumber _).
  - by destruct (fc_mergedSha i).
Qed.
Lemma enrich_absorb c c' i p r n :
  cr_issue_number r = Some n → enrich c' i (absorb c i p r) = touched (db_now c') (absorb c i p r).
Proof.
  intros Hn. unfold enrich, absorb, touched. simpl.
  f_equal; rewrite ?Hn; auto using coalesce_twice, coalesce_front, default_twice.
  apply sort_distinct_absorb. intros s. rewrite elem_of_app, !elem_of_normalizeHeadShas, elem_of_app,
    elem_of_normalizeHeadShas. naive_solver.
Qed.

(** A call whose keys lead to one record only updates it. *)
Lemma find_or_create_known c i cid d id r :
  rd_records d !! id = Some r →
  (∀ x, issue_record (fc_anchor i) (rd_records d) = Some x → x = (id, r)) →
  (∀ x, pr_record (fc_anchor i) (rd_records d) = Some x → x = (id, r)) →
  (is_Some (issue_record (fc_anchor i) (rd_records d)) ∨ is_Some (pr_record (fc_anchor i) (rd_records d))) →
  find_or_create_tx c i cid d
  = inr ((id, enrich c i r), with_records (<[id := enrich c i r]> (rd_records d)) d).
Proof.
  intros Hid Hi Hp Hs. unfold find_or_create_tx, mbind, tx_bind, reads.
  assert (Hu : update_record id (enrich c i) d
    = inr (enrich c i r, with_records (<[id := enrich c i r]> (rd_records d)) d)).
  { unfold update_record, update_row, mbind, tx_bind, runs. by rewrite Hid. }
  destruct (issue_record _ _) as [x|]; [rewrite (Hi x eq_refl)|];
    (destruct (pr_record _ _) as [y|]; [rewrite (Hp y eq_refl)|]);
    rewrite ?(bool_decide_eq_true_2 (id = id)) by done; simpl; rewrite ?Hu; try done.
  by destruct Hs as [[??]|[??]].
Qed.

(** The keys of a call lead, after it, to the record it returned and to no
    other. *)
Lemma find_or_create_keys c i cid d id r d' :
  find_or_create_spec c i cid d id r d' → records_ok (rd_records d) →
  rd_records d' !! id = Some r
  ∧ (∀ x, issue_record (fc_anchor i) (rd_records d') = Some x → x = (id, r))
  ∧ (∀ x, pr_record (fc_anchor i) (rd_records d') = Some x → x = (id, r)).
Proof.
  intros Hs Hok. assert (Hok' := find_or_create_records _ _ _ _ _ _ _ Hs Hok).
  destruct Hok as (_ & Ui & Up & _), Hok' as (_ & Ui' & Up' & _). revert Ui' Up'.
  destruct Hs as [iid r0 pid p d1 Hi Hp Hne -> _|id0 r0 Hid Hcase|Hi Hp Hfresh]; simpl; intros Ui' Up';
    (split; [apply lookup_insert_eq|]).
  - apply issue_record_Some in Hi as (Hi & n & Hn & In & Wi & Ri).
    apply pr_record_Some in Hp as (Hp & m & Hm & Pm & Wp & Rp).
    split; intros [id' r'] H;
      [apply issue_record_Some in H as (H & k & Hk & Fk & W & R)|apply pr_record_Some in H as (H & k & Hk & Fk & W & R)];
      (destruct (decide (id' = iid)) as [->|Hd]; [by rewrite lookup_insert_eq in H; simplify_eq|]);
      rewrite lookup_insert_ne in H by done; apply lookup_delete_Some in H as [Hd' H].
    + exfalso. apply Hd. eapply Ui; [exact H|exact Hi|by eexists|by eexists|congruence].
    + exfalso. apply Hd'. eapply Up; [exact Hp|exact H|by eexists|by eexists|congruence].
  - split; intros [id' r'] H;
      [apply issue_record_Some in H as (H & k & Hk & Fk & W & R)|apply pr_record_Some in H as (H & k & Hk & Fk & W & R)];
      (destruct (decide (id' = id0)) as [->|Hd]; [by rewrite lookup_insert_eq in H; simplify_eq|]);
      rewrite lookup_insert_ne in H by done; exfalso.
    + destruct Hcase as [[Hi _]|[Hi _]]; [|by eapply (issue_record_None (fc_anchor i))].
      apply issue_record_Some in Hi as (Hi & n & Hn & In & Wi & Ri). apply Hd.
      eapply Ui; [exact H|exact Hi|by eexists|by eexists|congruence].
    + destruct (pr_record (fc_anchor i) (rd_records d)) as [[pid p]|] eqn:Hp; [|by eapply (pr_record_None (fc_anchor i))].
      assert (pid = id0) as -> by (destruct Hcase as [[_ Hin]|[_ ?]]; [set_solver|congruence]).
      apply pr_record_Some in Hp as (Hp & n & Hn & In & Wi & Ri). apply Hd.
      eapply Up; [exact H|exact Hp|by eexists|by eexists|congruence].
  - split; intros [id' r'] H;
      [apply issue_record_Some in H as (H & k & Hk & Fk & W & R)|apply pr_record_Some in H as (H & k & Hk & Fk & W & R)];
      (destruct (decide (id' = cid)) as [->|Hd]; [by rewrite lookup_insert_eq in H; simplify_eq|]);
      rewrite lookup_insert_ne in H by done; exfalso.
    + by eapply (issue_record_None (fc_anchor i)).
    + by eapply (pr_record_None (fc_anchor i)).
Qed.

Lemma issue_record_found a t id r n :
  t !! id = Some r → an_issueNumber a = Some n → cr_issue_number r = Some n →
  cr_workspace_id r = an_workspaceId a → cr_repo r = an_repo a → is_Some (issue_record a t).
Proof.
  intros Hid Hn Hc W R. destruct (issue_record a t) eqn:E; [by eexists|].
  by destruct (issue_record_None _ _ _ _ _ E Hn Hid W R).
Qed.
Lemma pr_record_found a t id r n :
  t !! id = Some r → an_prNumber a = Some n → cr_pr_number r = Some n →
  cr_workspace_id r = an_workspaceId a → cr_repo r = an_repo a → is_Some (pr_record a t).
Proof.
  intros Hid Hn Hc W R. destruct (pr_record a t) eqn:E; [by eexists|].
  by destruct (pr_record_None _ _ _ _ _ E Hn Hid W R).
Qed.

Lemma find_or_create_found c i cid d id r d' :
  find_or_create_spec c i cid d id r d' →
  an_issueNumber (fc_anchor i) ≠ None ∨ an_prNumber (fc_anchor i) ≠ None →
  is_Some (issue_record (fc_anchor i) (rd_records d')) ∨ is_Some (pr_record (fc_anchor i) (rd_records d')).
Proof.
  intros [iid r0 pid p d1 Hi Hp Hne -> _|id0 r0 Hid Hcase|Hi Hp Hfresh] Ha; simpl.
  - left. apply issue_record_Some in Hi as (Hi & n & Hn & In & Wi & Ri).
    eapply issue_record_found; [apply lookup_insert_eq|done..].
  - destruct Hcase as [[Hi _]|[_ Hp]].
    + left. apply issue_record_Some in Hi as (_ & n & Hn & In & Wi & Ri).
      eapply issue_record_found; [apply lookup_insert_eq|done| |done..]. simpl. by rewrite In.
    + right. apply pr_record_Some in Hp as (_ & n & Hn & In & Wi & Ri).
      eapply pr_record_found; [apply lookup_insert_eq|done| |done..]. simpl. by rewrite In.
  - destruct (an_issueNumber (fc_anchor i)) as [n|] eqn:N.
    + left. by eapply issue_record_found; [apply lookup_insert_eq|..].
    + right. destruct Ha as [?|Ha]; [done|]. destruct (an_prNumber (fc_anchor i)) as [m|] eqn:M; [|done].
      by eapply pr_record_found; [apply lookup_insert_eq|..].
Qed.

Lemma enrich_settled c c' i cid d id r d' :
  find_or_create_spec c i cid d id r d' → enrich c' i r = touched (db_now c') r.
Proof.
  intros [iid r0 pid p d1 Hi _ _ _ _|id0 r0 _ _|_ _ _];
    [|apply enrich_enrich|apply enrich_new].
  apply issue_record_Some in Hi as (_ & n & _ & Hn & _). by eapply enrich_absorb.
Qed.

(** Asking again with the same keys gives the same record: whichever way
    the first call ended - a record created, one found and filled in, two merged
    into one - the second finds that one record by every key of the request, and
    changes nothing but its [updated_at]. *)
Theorem findOrCreate_settles c c' i d id r d1 :
  records_ok (rd_records d) →
  findOrCreateChangeRecord c i d = (inr (id, r), d1) →
  records_ok (rd_records d1) ∧ rd_records d1 !! id = Some r
  ∧ findOrCreateChangeRecord c' i d1
    = (inr (id, touched (db_now c') r),
       with_records (<[id := touched (db_now c') r]> (rd_records d1)) d1).
Proof.
  intros Hok. unfold findOrCreateChangeRecord.
  destruct (is_null _ && is_null _) eqn:Hnull; [done|].
  destruct (changeRecordId _) as [cid|]; [|done]. unfold transaction.
  destruct (find_or_create_tx c i cid d) as [e|[[id0 r0] d0]] eqn:E; [done|]. intros [= -> -> ->].
  apply find_or_create_inr in E as Hs.
  destruct (find_or_create_keys _ _ _ _ _ _ _ Hs Hok) as (Hid & Hi & Hp).
  split; [by eapply find_or_create_records|]. split; [done|].
  rewrite (find_or_create_known c' i cid d1 id r Hid Hi Hp), (enrich_settled c c' i cid d id r d1 Hs); [done|].
  eapply find_or_create_found; [done|]. apply andb_false_iff in Hnull as [H|H].
  - left. by intros Hn; rewrite Hn in H.
  - right. by intros Hn; rewrite Hn in H.
Qed.

(** ** The merged timeline *)

Lemma lookup_merged pid iid (es : events) id e' :
  filter (λ kv : string * ChangeEvent, ce_record_id kv.2 ≠ pid) (move_events pid iid es) !! id = Some e' ↔
  ce_record_id e' ≠ pid ∧ ∃ e, es !! id = Some e ∧
    (ce_record_id e ≠ pid ∧ e' = e
     ∨ ce_record_id e = pid ∧ find_event iid (ce_event_key e) es = None ∧ e' = set_ce_record iid e).
Proof.
  rewrite map_lookup_filter_Some. unfold move_events. rewrite lookup_update_where. simpl.
  rewrite fmap_Some. split.
  - intros [(e & He & ->) Hne]. apply map_lookup_filter_Some in He as [He Hk]. simpl in Hk.
    split; [done|]. exists e. split; [done|]. case_bool_decide as Hr; [|by left]. right.
    split_and!; [done| |done]. destruct (find_event iid _ es) eqn:F; [|done].
    exfalso. by apply Hk.
  - intros (Hne & e & He & Hcase). split; [|done]. exists e. split.
    + apply map_lookup_filter_Some. split; [done|]. simpl. destruct Hcase as [[H _]|(H & F & _)]; naive_solver.
    + destruct Hcase as [[H ->]|(H & _ & ->)]; [by rewrite bool_decide_eq_false_2|by rewrite bool_decide_eq_true_2].
Qed.

Lemma merged_unique pid iid (es : events) :
  iid ≠ pid → unique_keys es →
  unique_keys (filter (λ kv : string * ChangeEvent, ce_record_id kv.2 ≠ pid) (move_events pid iid es)).
Proof.
  intros Hne Hu id1 id2 e1 e2 (_ & f1 & H1 & C1)%lookup_merged (_ & f2 & H2 & C2)%lookup_merged Hr Hk.
  destruct C1 as [[R1 ->]|(R1 & F1 & ->)], C2 as [[R2 ->]|(R2 & F2 & ->)]; simpl in *.
  - by eapply Hu.
  - rewrite find_event_None in F2. by destruct (F2 id1 f1).
  - rewrite find_event_None in F1. by destruct (F1 id2 f2).
  - eapply Hu; [done..|congruence|done].
Qed.

(** When a call joins the records of an issue and of its pull request, no
    event is lost and none is rewritten: on the surviving record every key leads
    to the issue's event if it had one and otherwise to the pull request's, moved
    over; the pull request's record and its keys are gone; every other record
    keeps its timeline. *)
Theorem merge_keeps_timeline c i cid d id r d' pid p iid r0 :
  unique_keys (rd_events d) →
  issue_record (fc_anchor i) (rd_records d) = Some (iid, r0) →
  pr_record (fc_anchor i) (rd_records d) = Some (pid, p) → iid ≠ pid →
  find_or_create_tx c i cid d = inr ((id, r), d') →
  id = iid ∧ rd_records d' !! pid = None ∧ unique_keys (rd_events d')
  ∧ ∀ rec key, find_event rec key (rd_events d') =
      if decide (rec = pid) then None
      else if decide (rec = iid) then
        match find_event iid key (rd_events d) with
        | Some x => Some x
        | None => prod_map (λ id, id) (set_ce_record iid) <$> find_event pid key (rd_events d)
        end
      else find_event rec key (rd_events d).
Proof.
  intros Hu Hi Hp Hne Hs%find_or_create_inr.
  destruct Hs as [iid' r0' pid' p' d1 Hi' Hp' Hne' Hr He|id0 r1 _ Hcase|Hi' Hp' _]; [|exfalso..].
  2: { destruct Hcase as [[H1 H2]|[H1 _]]; set_solver. }
  2: congruence.
  simplify_eq. assert (Hu' := merged_unique pid iid _ Hne Hu). rewrite Hr, He.
  split_and!; [done|by rewrite lookup_insert_ne, lookup_delete_eq by done|done|].
  intros rec key. destruct (decide (rec = pid)) as [->|Hd1].
  { apply find_event_None. intros id e (H & _)%lookup_merged ?. done. }
  set (t' := filter _ _) in *.
  assert (Hfind : ∀ id e, t' !! id = Some e → ce_record_id e = rec → ce_event_key e = key →
    find_event rec key t' = Some (id, e)).
  { intros id e H <- <-. by apply find_event_unique. }
  destruct (decide (rec = iid)) as [->|Hd2].
  - destruct (find_event iid key (rd_events d)) as [[id e]|] eqn:F.
    + apply find_event_Some in F as (H1 & H2 & H3). apply Hfind; [|done..].
      apply lookup_merged. split; [by rewrite H2|]. exists e. split; [done|]. left. split; [by rewrite H2|done].
    + destruct (find_event pid key (rd_events d)) as [[id e]|] eqn:G; simpl.
      * apply find_event_Some in G as (H1 & H2 & H3). apply Hfind; [|done..].
        apply lookup_merged. split; [done|]. exists e. split; [done|]. right. by rewrite H3.
      * rewrite find_event_None in F, G. apply find_event_None.
        intros id e (_ & f & H & [[Hn ->]|(Hn & _ & ->)])%lookup_merged Hrec; [by apply (F id f)|by apply (G id f)].
  - destruct (find_event rec key (rd_events d)) as [[id e]|] eqn:F.
    + apply find_event_Some in F as (H1 & H2 & H3). apply Hfind; [|done..].
      apply lookup_merged. split; [by rewrite H2|]. exists e. split; [done|]. left. split; [by rewrite H2|done].
    + rewrite find_event_None in F. apply find_event_None.
      intros id e (_ & f & H & [[Hn ->]|(Hn & _ & ->)])%lookup_merged Hrec; [by apply (F id f)|].
      by destruct Hd2.
Qed.
End ChangeRecords.

(** ** Records on concrete data *)

Definition sha_a : string := "aaaaaaaaaaaaaaaaaaaaaaaaaaaaaaaaaaaaaaaa".
Definition sha_b : string := "bbbbbbbbbbbbbbbbbbbbbbbbbbbbbbbbbbbbbbbb".
Definition app_issue (n : option Z) (pr : option Z) (merged : option string) (state : string) : ChangeRecord :=
  mkChangeRecord "ws" "acme/app" None None (JArr []) n pr None None false 0 [] merged state 0 0.
Definition two_records : RecordDb :=
  mkRecordDb
    (list_to_map [("i5", app_issue (Some 5) None None "open"); ("p7", app_issue None (Some 7) (Some sha_a) "merged")])
    ∅ (list_to_map [("e1", mkChangeEvent "i5" "k" "qa" 1 "a" (JObj []) 1);
                    ("e2", mkChangeEvent "p7" "k" "qa" 2 "b" (JObj []) 2);
                    ("e3", mkChangeEvent "p7" "m" "qa" 3 "b" (JObj []) 3)])
    ∅ ∅ ∅ ∅.
Definition both_keys : FindOrCreateInput :=
  mkFindOrCreateInput (mkAnchor "ws" "acme/app" None (Some 5) (Some 7)) [sha_b; ""; sha_a; sha_b] None None.
Definition joined := findOrCreateChangeRecord sum_sha1 (mkClock 10 10) both_keys two_records.

Example joined_record :
  joined.1 = inr ("i5", mkChangeRecord "ws" "acme/app" None None (JArr []) (Some 5) (Some 7) None None false 0
    [sha_a; sha_b] None "open" 0 10).
Proof. vm_compute. reflexivity. Qed.
Example joined_timeline : (timeline_of "i5" (rd_events joined.2)).*1 = ["e1"; "e3"].
Proof. vm_compute. reflexivity. Qed.
Example created_record :
  ∃ r, (findOrCreateChangeRecord sum_sha1 (mkClock 10 10) both_keys (mkRecordDb ∅ ∅ ∅ ∅ ∅ ∅ ∅)).1 = inr r
    ∧ cr_head_shas r.2 = [sha_a; sha_b].
Proof. eexists. split; vm_compute; reflexivity. Qed.

(** The comment of [findOrCreateChangeRecord] says that the pull request's
    fields are moved onto the issue's record; the merge commit and the state are
    not, and go with the deleted record. *)
Theorem merge_forgets_the_merge :
  find_record (has_pr "ws" "acme/app" 7) (rd_records two_records)
    = Some ("p7", app_issue None (Some 7) (Some sha_a) "merged")
  ∧ select_where (λ _ r, negb (is_null (cr_merged_sha r)) || (cr_state r ≡? "merged")) (rd_records joined.2) = [].
Proof. split; vm_compute; reflexivity. Qed.

(** The pull request's record is deleted even when it is the record of another
    issue. *)
Definition rival_records : RecordDb :=
  mkRecordDb
    (list_to_map [("i5", app_issue (Some 5) None None "open"); ("i9", app_issue (Some 9) (Some 7) None "open")])
    ∅ ∅ ∅ ∅ ∅ ∅.
Theorem merge_deletes_another_issue :
  ∃ d, findOrCreateChangeRecord sum_sha1 (mkClock 10 10) both_keys rival_records
       = (inr ("i5", absorb (mkClock 10 10) both_keys (app_issue (Some 9) (Some 7) None "open")
                       (app_issue (Some 5) None None "open")), d)
    ∧ find_record (has_issue "ws" "acme/app" 9) (rd_records rival_records) ≠ None
    ∧ find_record (has_issue "ws" "acme/app" 9) (rd_records d) = None.
Proof. eexists. split_and!; [vm_compute; reflexivity|done|vm_compute; reflexivity]. Qed.

(** Case analysis on two members of a concrete list. *)
Ltac one_of H := repeat (apply elem_of_cons in H as [[= -> ->]|H]); [..|by apply not_elem_of_nil in H].
Ltac two_of H1 H2 := one_of H1; one_of H2; simpl in *; simplify_eq.

Lemma two_records_ok : records_ok (rd_records two_records).
Proof.
  assert (Hl : ∀ id r, rd_records two_records !! id = Some r →
    (id, r) ∈ [("i5", app_issue (Some 5) None None "open"); ("p7", app_issue None (Some 7) (Some sha_a) "merged")]).
  { intros id r H%elem_of_list_to_map; [done|]. by repeat constructor; set_solver. }
  split_and!.
  - intros id r H%Hl. one_of H; done.
  - intros id1 id2 r1 r2 H1%Hl H2%Hl [x1 S1] [x2 S2] E. by two_of H1 H2.
  - intros id1 id2 r1 r2 H1%Hl H2%Hl [x1 S1] [x2 S2] E. by two_of H1 H2.
  - intros id1 id2 r1 r2 H1%Hl H2%Hl [x1 S1] [x2 S2] E. by two_of H1 H2.
Qed.

Lemma findOrCreate_settles_witness :
  ∃ id r, joined.1 = inr (id, r)
  ∧ records_ok (rd_records joined.2) ∧ rd_records joined.2 !! id = Some r
  ∧ findOrCreateChangeRecord sum_sha1 (mkClock 20 20) both_keys joined.2
    = (inr (id, touched 20 r), with_records (<[id := touched 20 r]> (rd_records joined.2)) joined.2).
Proof.
  destruct joined as [[err|[id r]] d1] eqn:E; cbn [fst snd].
  - exfalso. assert (H := f_equal (λ x, match x.1 with inl _ => true | inr _ => false end) E).
    vm_compute in H. discriminate H.
  - exists id, r. split; [reflexivity|].
    exact (findOrCreate_settles sum_sha1 (mkClock 10 10) (mkClock 20 20) both_keys two_records id r d1 two_records_ok E).
Defined.

Lemma merge_keeps_timeline_witness :
  find_event "i5" "m" (rd_events joined.2) = Some ("e3", mkChangeEvent "i5" "m" "qa" 3 "b" (JObj []) 3).
Proof.
  assert (Hu : unique_keys (rd_events two_records)).
  { assert (Hl : ∀ id e, rd_events two_records !! id = Some e →
      (id, e) ∈ [("e1", mkChangeEvent "i5" "k" "qa" 1 "a" (JObj []) 1);
                    ("e2", mkChangeEvent "p7" "k" "qa" 2 "b" (JObj []) 2);
                    ("e3", mkChangeEvent "p7" "m" "qa" 3 "b" (JObj []) 3)]).
    { intros id e H%elem_of_list_to_map; [done|]. by repeat constructor; set_solver. }
    intros id1 id2 e1 e2 H1%Hl H2%Hl Hr Hk. by two_of H1 H2. }
  destruct (find_or_create_tx (mkClock 10 10) both_keys "x" two_records) as [err|[[id r] d1]] eqn:E;
    [vm_compute in E; discriminate E|].
  assert (Hj : joined.2 = d1).
  { assert (H : transaction (find_or_create_tx (mkClock 10 10) both_keys "x") two_records = (inr (id, r), d1))
      by (unfold transaction; by rewrite E).
    assert (H' : joined.2 = (transaction (find_or_create_tx (mkClock 10 10) both_keys "x") two_records).2)
      by (vm_compute; reflexivity).
    by rewrite H', H. }
  destruct (merge_keeps_timeline (mkClock 10 10) both_keys "x" two_records id r d1 "p7"
    (app_issue None (Some 7) (Some sha_a) "merged") "i5" (app_issue (Some 5) None None "open"))
    as (_ & _ & _ & H); [exact Hu|vm_compute; reflexivity..|done|exact E|].
  rewrite Hj, (H "i5" "m"). vm_compute. reflexivity.
Defined.
