(* ===== verification/PrHead.v ===== *)
(** * PrHead: which head of a pull request is the current one

    [queries/change_records.ts]: the attachment of a pull request to a
    confirmed Acceptance Record, the signed deliveries that advance or block
    its head, the terminal deliveries, the reconciliation against the GitHub
    API, and the two writes that only the current head's review may make.
    Every operation takes the advisory lock of the record's pull request, so
    each is one step; each also drives the review jobs and preview boots. *)

From S2P Require Import Prelude Table Regex Intake ReviewJobs.
From S2P Require Import PreviewBoots Tx RecordSchema JsonText Timeline ChangeRecords.
From Stdlib Require Import QArith Ascii.
From Stdlib Require String.
Open Scope Z_scope.

(** ** Bounded text *)

Definition is_control (c : ascii) : bool :=
  let n := nat_of_ascii c in ((n <? 32) || (n =? 127))%nat.
Definition boundedPullRequestProvenanceText (limit : nat) (s : string) : bool :=
  (0 <? String.length s)%nat && (String.length s <=? limit)%nat && (s ≡? trim s)
  && negb (existsb is_control (String.list_ascii_of_string s)).

(** [/^[0-9a-f]{8}-[0-9a-f]{4}-[1-5][0-9a-f]{3}-[89ab][0-9a-f]{3}-[0-9a-f]{12}$/i] *)
Definition uuid_char (i : nat) (c : ascii) : bool :=
  if bool_decide (i ∈ [8; 13; 18; 23]%nat) then c ≡? "-"%char
  else if (i =? 14)%nat then one_of "12345" c
  else if (i =? 19)%nat then one_of "89abAB" c
  else is_hex c.
Fixpoint chars_from (p : nat → ascii → bool) (i : nat) (s : string) : bool :=
  match s with EmptyString => true | String c s' => p i c && chars_from p (S i) s' end.
Definition isUuid (s : string) : bool := (String.length s =? 36)%nat && chars_from uuid_char 0 s.

Definition HEAD_EVENTS : list string := ["opened"; "ready_for_review"; "reopened"; "synchronize"].
Definition TERMINAL_HEAD_EVENTS : list string := ["closed"; "merged"].

Definition pr_text (n : Z) : string := show_Z n.
Definition prUrl (repo : string) (n : Z) : string := "https://github.com/" +:+ repo +:+ "/pull/" +:+ pr_text n.

Section PrHead.
Context (sha1 : list Z → list Z).
Implicit Types (t : records) (r : ChangeRecord) (d : RecordDb).

(** ** What the transitions share *)

(** The pull request an operation is about. *)
Record Target := mkTarget {
  tg_workspaceId : string;
  tg_recordId : string;
  tg_repo : string;
  tg_prNumber : Z;
}.

Definition target_record (g : Target) t : option ChangeRecord :=
  match t !! tg_recordId g with
  | Some r => if in_repo (tg_workspaceId g) (tg_repo g) r then Some r else None
  | None => None
  end.

(** [SELECT id, version ... WHERE record_id = ... AND status = 'confirmed' LIMIT 1] *)
Definition confirmed_contract (recordId : string) (t : contracts) : option (string * AcceptanceContract) :=
  head (select_where (λ _ x, (ac_record_id x ≡? recordId) && (ac_status x ≡? "confirmed")) t).

Definition target_pr (g : Target) t : option (string * ChangeRecord) :=
  find_record (has_pr (tg_workspaceId g) (tg_repo g) (tg_prNumber g)) t.

(** The record has another pull request, or the pull request another record. *)
Definition attached_elsewhere (g : Target) r t : bool :=
  match cr_pr_number r with Some n => n ≢? tg_prNumber g | None => false end
  || match target_pr g t with Some (id, _) => id ≢? tg_recordId g | None => false end.

(** What every operation reads first: the record, the version of its confirmed
    contract, and whether the pull request belongs elsewhere. *)
Inductive Found := no_record | no_contract | loaded (r : ChangeRecord) (version : Z) (elsewhere : bool).
Definition load (g : Target) d : Found :=
  match target_record g (rd_records d), confirmed_contract (tg_recordId g) (rd_contracts d) with
  | None, _ => no_record
  | Some _, None => no_contract
  | Some r, Some (_, x) => loaded r (ac_version x) (attached_elsewhere g r (rd_records d))
  end.

Definition pr_job (g : Target) (r : ReviewJob) : bool :=
  (rj_workspace_id r ≡? tg_workspaceId g) && (rj_repo r ≡? tg_repo g) && (rj_pr_number r ≡? tg_prNumber g).
Definition active_job (r : ReviewJob) : bool := bool_decide (rj_state r ∈ [rj_queued; rj_running]).
Definition pr_boot (g : Target) (r : PreviewBoot) : bool :=
  (pb_workspace_id r ≡? tg_workspaceId g) && (pb_repo r ≡? tg_repo g) && (pb_pr_number r ≡? tg_prNumber g).

(** [UPDATE review_jobs SET state = 'superseded' ... RETURNING id], but for the
    job [but]; the number of rows. *)
Definition supersede_jobs (c : Clock) (g : Target) (but : option string) : record_tx nat :=
  runs (λ d,
    let p id (j : ReviewJob) := pr_job g j && active_job j && bool_decide (Some id ≠ but) in
    (count_where p (rd_jobs d),
     with_jobs (update_where p (set_rj_state rj_superseded (db_now c)) (rd_jobs d)) d)).

Definition tear_down_boots (c : Clock) (g : Target) (but : option string) (reason : string) : record_tx nat :=
  runs (λ d,
    let p id (b : PreviewBoot) := pr_boot g b && in_flight b && bool_decide (Some id ≠ but) in
    (count_where p (rd_boots d),
     with_boots (update_where p (set_pb_end pb_torn_down (Some reason) (db_now c)) (rd_boots d)) d)).

(** ** Correction dispatches *)

Definition set_cd_invalid (reason : string) (succ : option (string * string)) (now : Z) (x : Dispatch) : Dispatch :=
  mkDispatch (cd_workspace_id x) (cd_record_id x) (cd_head_sha x) (cd_head_cycle_id x) (cd_identity_sha256 x)
    (Some now) (Some reason) (fst <$> succ) (snd <$> succ) now.
Definition set_cd_successor (succ : string * string) (now : Z) (x : Dispatch) : Dispatch :=
  mkDispatch (cd_workspace_id x) (cd_record_id x) (cd_head_sha x) (cd_head_cycle_id x) (cd_identity_sha256 x)
    (cd_invalidated_at x) (cd_invalidation_reason x) (Some succ.1) (Some succ.2) now.

Definition head_dispatch (g : Target) (sha cycle : string) (x : Dispatch) : bool :=
  (cd_workspace_id x ≡? tg_workspaceId g) && (cd_record_id x ≡? tg_recordId g)
  && (cd_head_sha x ≡? sha) && (cd_head_cycle_id x ≡? cycle).

Definition dispatch_event (g : Target) (key : string) (payload : json) : EventInput :=
  mkEventInput (tg_recordId g) key "builder_handoff" "server:dispatch-preparation" payload None.

Definition successor_event (g : Target) (cycle : string) (succ : string * string) (id : string)
    (x : Dispatch) : EventInput :=
  dispatch_event g ("acceptance-correction-dispatch:successor:" +:+ cycle +:+ ":" +:+ succ.2)
    (JObj [("kind", JStr "acceptance_correction_dispatch_successor_recorded"); ("version", jnum 1);
      ("dispatchId", JStr id); ("dispatchIdentitySha256", JStr (cd_identity_sha256 x));
      ("invalidationReason", jopt (cd_invalidation_reason x));
      ("successorHeadSha", JStr succ.1); ("successorHeadCycleId", JStr succ.2)]).
Definition invalidated_event (g : Target) (sha cycle reason : string)
    (succ : option (string * string)) (id : string) (x : Dispatch) : EventInput :=
  dispatch_event g ("acceptance-correction-dispatch:invalidated:" +:+ cycle)
    (JObj [("kind", JStr "acceptance_correction_dispatch_invalidated"); ("version", jnum 1);
      ("dispatchId", JStr id); ("dispatchIdentitySha256", JStr (cd_identity_sha256 x));
      ("reason", JStr reason); ("headSha", JStr sha); ("headCycleId", JStr cycle);
      ("successorHeadSha", jopt (fst <$> succ)); ("successorHeadCycleId", jopt (snd <$> succ))]).

(** A successor of a dispatch that was invalidated before is recorded once. *)
Definition record_successor (c : Clock) (g : Target) (sha cycle : string) (succ : string * string) : record_tx unit :=
  tombstone ← reads (λ d, head (select_where (λ _, head_dispatch g sha cycle) (rd_dispatches d)));
  match tombstone with
  | Some (id, x) =>
      if is_null (cd_invalidated_at x) then mret tt else
      _ ← append_single sha1 c (successor_event g cycle succ id x);
      writes (λ d, with_dispatches (update_row id
        (λ x, is_null (cd_successor_sha x) && is_null (cd_successor_cycle x))
        (set_cd_successor succ (js_now c)) (rd_dispatches d)).2 d)
  | None => mret tt
  end.

Definition invalidateAcceptanceCorrectionDispatchForHeadInTransaction (c : Clock) (g : Target)
    (headSha headCycleId : option string) (reason : string) (succ : option (string * string)) : record_tx Z :=
  match headSha, headCycleId with
  | Some (String _ _ as sha), Some (String _ _ as cycle) =>
      active ← reads (λ d, head (select_where
        (λ _ x, head_dispatch g sha cycle x && is_null (cd_invalidated_at x)) (rd_dispatches d)));
      match active with
      | None => match succ with
                | Some s => _ ← record_successor c g sha cycle s; mret 0
                | None => mret 0
                end
      | Some (id, x) =>
          event ← append_single sha1 c (invalidated_event g sha cycle reason succ id x);
          _ ← require_true (ar_inserted event) lost_precondition;
          row ← runs (λ d, let '(row, t) := update_row id (λ x, is_null (cd_invalidated_at x))
                             (set_cd_invalid reason succ (js_now c)) (rd_dispatches d) in
                           (row, with_dispatches t d));
          _ ← some_or row lost_precondition;
          mret 1
      end
  | _, _ => mret 0
  end.

(** ** Attachment by hand *)

Inductive AttachResult :=
  | at_attached (record : ChangeRecord) (inserted : bool)
  | at_not_found | at_not_confirmed | at_already_attached | at_head_advance_required.

Record AttachInput := mkAttachInput {
  at_target : Target;
  at_headSha : string;
  at_source : string;
  at_prUrl : option string;
}.

Definition set_cr_pr (n : Z) (shas : list string) (now : Z) r : ChangeRecord :=
  mkChangeRecord (cr_workspace_id r) (cr_repo r) (cr_work_key r) (cr_origin_channel r)
    (cr_source_references r) (cr_issue_number r) (Some n) (cr_head_sha r) (cr_cycle_id r)
    (cr_authoritative r) (cr_generation r) shas (cr_merged_sha r) (cr_state r) (cr_created_at r) now.

Definition attached_event (i : AttachInput) (version : Z) : EventInput :=
  let g := at_target i in
  mkEventInput (tg_recordId g)
    ("external-pr:attached:" +:+ pr_text (tg_prNumber g) +:+ ":" +:+ at_headSha i) "external_pr" (at_source i)
    (JObj [("kind", JStr "external_pr_attachment"); ("repo", JStr (tg_repo g)); ("prNumber", jnum (tg_prNumber g));
      ("headSha", JStr (at_headSha i)); ("prUrl", jopt (at_prUrl i)); ("acceptanceContractVersion", jnum version)])
    None.

(** [INSERT ... ON CONFLICT DO NOTHING RETURNING id], whatever the conflict; the
    time is the database's. *)
Definition insert_event_or_skip (c : Clock) (i : EventInput) : record_tx bool := λ d,
  match find_event (ei_recordId i) (ei_eventKey i) (rd_events d), rd_events d !! event_id sha1 i with
  | None, None => insert_event (event_id sha1 i) (event_of (mkClock (db_now c) (db_now c)) i) d
  | _, _ => inr (false, d)
  end.

Definition attach_tx (c : Clock) (i : AttachInput) : record_tx AttachResult :=
  let g := at_target i in
  found ← reads (load g);
  match found with
  | no_record => mret at_not_found
  | no_contract => mret at_not_confirmed
  | loaded r version elsewhere =>
      if (elsewhere : bool) then mret at_already_attached else
      if negb (is_null (cr_head_sha r)) && (negb (cr_authoritative r) || (cr_head_sha r ≢? Some (at_headSha i)))
      then mret at_head_advance_required else
      if negb (is_null (cr_pr_number r)) && negb (bool_decide (at_headSha i ∈ cr_head_shas r))
      then mret at_head_advance_required else
      attached ← (if is_null (cr_pr_number r)
                  then update_record (tg_recordId g)
                         (set_cr_pr (tg_prNumber g) (normalizeHeadShas (cr_head_shas r ++ [at_headSha i])) (js_now c))
                  else mret r);
      inserted ← insert_event_or_skip c (attached_event i version);
      mret (at_attached attached inserted)
  end.

Definition attachConfirmedAcceptanceRecordToExternalPullRequest (c : Clock) (i : AttachInput) d
    : (RecordError + AttachResult) * RecordDb :=
  if (0 <? tg_prNumber (at_target i)) && GIT_SHA (at_headSha i)
  then transaction (attach_tx c i) d else (inl invalid_input, d).

(** ** Signed deliveries *)

Record AdvanceInput := mkAdvanceInput {
  av_target : Target;
  av_headSha : string;
  av_event : string;
  av_deliveryId : string;
  av_admitReviewJob : bool;
  (** before and after *)
  av_headTransition : option (string * string);
  av_source : string;
  av_prUrl : option string;
}.

Definition valid_transition (i : AdvanceInput) : bool :=
  match av_headTransition i with
  | Some (before, after) => (av_event i ≡? "synchronize") && EXACT_GITHUB_HEAD_SHA before
                            && EXACT_GITHUB_HEAD_SHA after && (after ≡? av_headSha i)
  | None => av_event i ≢? "synchronize"
  end.
Definition valid_advance (i : AdvanceInput) : bool :=
  (0 <? tg_prNumber (av_target i)) && EXACT_GITHUB_HEAD_SHA (av_headSha i)
  && bool_decide (av_event i ∈ HEAD_EVENTS) && boundedPullRequestProvenanceText 256 (av_deliveryId i)
  && (av_source i ≡? "github_webhook")
  && match av_prUrl i with Some u => u ≡? prUrl (tg_repo (av_target i)) (tg_prNumber (av_target i)) | None => true end
  && valid_transition i.

Definition transition_json (x : option (string * string)) : json :=
  match x with
  | Some (before, after) => JObj [("beforeHeadSha", JStr before); ("afterHeadSha", JStr after)]
  | None => JNull
  end.

(** The text whose hash is the cycle of a delivery. *)
Definition head_cycle_list (i : AdvanceInput) : list scalar :=
  let g := av_target i in
  [sc_str (tg_workspaceId g); sc_str (tg_recordId g); sc_str (tg_repo g); sc_num (tg_prNumber g);
   sc_str (av_headSha i); sc_str (av_event i); sc_str (av_deliveryId i);
   sc_opt (fst <$> av_headTransition i); sc_opt (snd <$> av_headTransition i)].
Definition head_cycle_name (i : AdvanceInput) : string :=
  "acceptance-record-pr-head-cycle:" +:+ json_list (head_cycle_list i).
Definition acceptanceRecordPullRequestHeadCycleId (i : AdvanceInput) : string :=
  uuid5Url sha1 (head_cycle_name i).

Definition pr_key (g : Target) (kind id : string) : string :=
  "external-pr:" +:+ kind +:+ ":" +:+ pr_text (tg_prNumber g) +:+ ":" +:+ id.

Definition delivery_event (g : Target) (headSha event deliveryId : string) (tr : option (string * string))
    (adm : bool) (source : string) (url : option string) : EventInput :=
  mkEventInput (tg_recordId g) (pr_key g "delivery" deliveryId) "external_pr" source
    (JObj [("kind", JStr "external_pr_delivery"); ("repo", JStr (tg_repo g)); ("prNumber", jnum (tg_prNumber g));
      ("headSha", JStr headSha); ("event", JStr event); ("deliveryId", JStr deliveryId);
      ("headTransition", transition_json tr); ("admitReviewJob", JBool adm); ("prUrl", jopt url)]) None.
Definition advance_receipt (i : AdvanceInput) : EventInput :=
  delivery_event (av_target i) (av_headSha i) (av_event i) (av_deliveryId i) (av_headTransition i)
    (av_admitReviewJob i) (av_source i) (av_prUrl i).

Definition held_event (i : AdvanceInput) r (version : Z) : EventInput :=
  let g := av_target i in
  mkEventInput (tg_recordId g) (pr_key g "head-transition-held" (av_deliveryId i)) "external_pr" "github_webhook"
    (JObj [("kind", JStr "external_pr_head_transition_held"); ("currentHeadSha", jopt (cr_head_sha r));
      ("currentHeadCycleId", jopt (cr_cycle_id r)); ("authorityGenerationBefore", jnum (cr_generation r));
      ("authorityGenerationAfter", jnum (cr_generation r + 1)); ("observedHeadSha", JStr (av_headSha i));
      ("event", JStr (av_event i)); ("deliveryId", JStr (av_deliveryId i));
      ("headTransition", transition_json (av_headTransition i)); ("acceptanceContractVersion", jnum version)]) None.

Definition authority_event (i : AdvanceInput) r (cycle : string) (version : Z) : EventInput :=
  let g := av_target i in
  let wasAttached := negb (is_null (cr_pr_number r)) in
  mkEventInput (tg_recordId g) (pr_key g (if wasAttached then "head-advanced" else "attached") cycle)
    "external_pr" (av_source i)
    (JObj [("kind", JStr (if wasAttached then "external_pr_head_advanced" else "external_pr_attachment"));
      ("repo", JStr (tg_repo g)); ("prNumber", jnum (tg_prNumber g)); ("previousHeadSha", jopt (cr_head_sha r));
      ("headSha", JStr (av_headSha i)); ("headCycleId", JStr cycle); ("event", JStr (av_event i));
      ("deliveryId", JStr (av_deliveryId i)); ("headTransition", transition_json (av_headTransition i));
      ("prUrl", jopt (av_prUrl i)); ("acceptanceContractVersion", jnum version)]) None.

Record Superseded := mkSuperseded { sp_jobs : nat; sp_boots : nat }.

Inductive AdvanceResult :=
  | av_advanced (record : ChangeRecord) (jobId : string) (jobAdmitted deduped : bool) (work : Superseded)
      (previousHeadSha : option string) (headChanged : bool)
  | av_not_found | av_not_confirmed | av_already_attached
  | av_stale_delivery (provenanceEventId : string) (blockedHeadSha : string) (blockedCycleId : option string)
      (authorityGeneration : Z) (replayed : bool) (work : Superseded)
  | av_delivery_replayed (record : ChangeRecord).

(** The numbers of a payload are integers. *)
Definition json_int (v : option json) : option Z :=
  match v with
  | Some (JNum q) => let q' := Qred q in if (Qden q' =? 1)%positive then Some (Qnum q') else None
  | _ => None
  end.
Definition json_text (v : option json) : option string :=
  match v with Some (JStr s) => Some s | _ => None end.

(** A delivery that was received before: what the record says of it now. *)
Definition replayed_delivery (i : AdvanceInput) r (version : Z) (held : option (string * ChangeEvent)) : AdvanceResult :=
  match held with
  | Some (id, e) =>
      let f key := json_field (ce_payload e) key in
      let heldCycle := json_text (f "currentHeadCycleId") in
      match json_int (f "authorityGenerationBefore"), json_int (f "authorityGenerationAfter"),
            json_text (f "currentHeadSha") with
      | Some before, Some after, Some (String _ _ as heldHead) =>
          if (ce_stage e ≡? "external_pr") && (ce_actor e ≡? "github_webhook")
             && (f "kind" ≡? Some (JStr "external_pr_head_transition_held"))
             && (f "observedHeadSha" ≡? Some (JStr (av_headSha i))) && (f "event" ≡? Some (JStr (av_event i)))
             && (f "deliveryId" ≡? Some (JStr (av_deliveryId i)))
             && match f "headTransition" with
                | Some v => isDeepStrictEqual v (transition_json (av_headTransition i))
                | None => false
                end
             && (json_int (f "acceptanceContractVersion") ≡? Some version)
             && (0 <=? before) && (after ≡? before + 1)
             && negb (cr_authoritative r) && (cr_head_sha r ≡? Some heldHead) && (cr_cycle_id r ≡? heldCycle)
             && (cr_generation r ≡? after)
          then av_stale_delivery id heldHead heldCycle after true (mkSuperseded 0 0)
          else av_delivery_replayed r
      | _, _, _ => av_delivery_replayed r
      end
  | None => av_delivery_replayed r
  end.

(** The columns a head transition sets. *)
Definition set_cr_authority (authoritative : bool) (generation : Z) (now : Z) r : ChangeRecord :=
  mkChangeRecord (cr_workspace_id r) (cr_repo r) (cr_work_key r) (cr_origin_channel r)
    (cr_source_references r) (cr_issue_number r) (cr_pr_number r) (cr_head_sha r) (cr_cycle_id r)
    authoritative generation (cr_head_shas r) (cr_merged_sha r) (cr_state r) (cr_created_at r) now.
Definition set_cr_head (sha cycle : string) (shas : list string) r : ChangeRecord :=
  mkChangeRecord (cr_workspace_id r) (cr_repo r) (cr_work_key r) (cr_origin_channel r)
    (cr_source_references r) (cr_issue_number r) (cr_pr_number r) (Some sha) (Some cycle)
    (cr_authoritative r) (cr_generation r) shas (cr_merged_sha r) (cr_state r) (cr_created_at r) (cr_updated_at r).

(** Authority is withdrawn: the record's head is no longer to be acted on. *)
Definition withdraw (c : Clock) r : ChangeRecord := set_cr_authority false (cr_generation r + 1) (js_now c) r.
(** A new head takes over. *)
Definition take_head (c : Clock) (n : Z) (sha cycle : string) (step : Z) r : ChangeRecord :=
  set_cr_authority true (cr_generation r + step) (js_now c)
    (set_cr_head sha cycle (normalizeHeadShas (cr_head_shas r ++ [sha]))
      (set_cr_pr n (cr_head_shas r) (js_now c) r)).

(** The head is blocked: authority goes, and with it all work under way. *)
Definition block_head (c : Clock) (g : Target) r (reason boot_reason : string) : record_tx Superseded :=
  _ ← update_record (tg_recordId g) (withdraw c);
  j ← supersede_jobs c g None;
  b ← tear_down_boots c g None boot_reason;
  _ ← invalidateAcceptanceCorrectionDispatchForHeadInTransaction c g (cr_head_sha r) (cr_cycle_id r) reason None;
  mret (mkSuperseded j b).

(** A delivery that does not continue the head the record knows. *)
Definition breaks_chain (i : AdvanceInput) r : bool :=
  match cr_head_sha r with
  | None => false
  | Some previous =>
      negb (cr_authoritative r)
      || if previous ≡? av_headSha i
         then (av_event i ≢? "ready_for_review")
              && (cr_cycle_id r ≢? Some (acceptanceRecordPullRequestHeadCycleId i))
         else (av_event i ≢? "synchronize")
              || match av_headTransition i with Some (before, _) => before ≢? previous | None => true end
  end.

Definition hold_transition (c : Clock) (i : AdvanceInput) r (version : Z) : record_tx AdvanceResult :=
  held ← append_single sha1 c (held_event i r version);
  work ← (if ar_inserted held
          then block_head c (av_target i) r "authority_blocked" "acceptance record head transition held"
          else mret (mkSuperseded 0 0));
  mret (av_stale_delivery (ar_id held) (default "" (cr_head_sha r)) (cr_cycle_id r)
          (cr_generation r + if ar_inserted held then 1 else 0) false work).

(** [INSERT INTO review_jobs ... ON CONFLICT (id) DO NOTHING RETURNING id] *)
Definition insert_job (c : Clock) (g : Target) (id sha event : string) : record_tx bool :=
  runs (λ d, let '(fresh, t) := insert_new id (new_review_job (db_now c)
                 (mkReviewInput (tg_workspaceId g) (tg_repo g) (Z.to_N (tg_prNumber g)) sha event)) (rd_jobs d) in
             (fresh, with_jobs t d)).

Definition accept_head (c : Clock) (i : AdvanceInput) r (version : Z) : record_tx AdvanceResult :=
  let g := av_target i in
  let headChanged := cr_head_sha r ≢? Some (av_headSha i) in
  let moves := headChanged || is_null (cr_pr_number r) in
  cycleId ← some_or (match (if headChanged then Some (acceptanceRecordPullRequestHeadCycleId i) else cr_cycle_id r) with
                     | Some EmptyString => None
                     | x => x
                     end) lost_precondition;
  step ← (if moves
          then provenance ← append_single sha1 c (authority_event i r cycleId version);
               mret (if ar_inserted provenance then 1 else 0)
          else mret 0);
  advanced ← (if moves
              then update_record (tg_recordId g) (take_head c (tg_prNumber g) (av_headSha i) cycleId step)
              else mret r);
  jobInserted ← (if av_admitReviewJob i then insert_job c g cycleId (av_headSha i) (av_event i) else mret false);
  j ← (if headChanged || jobInserted then supersede_jobs c g (Some cycleId) else mret O);
  b ← (if headChanged then tear_down_boots c g None "acceptance record head advanced" else mret O);
  _ ← (if headChanged
       then invalidateAcceptanceCorrectionDispatchForHeadInTransaction c g (cr_head_sha r) (cr_cycle_id r)
              "head_advanced" (Some (av_headSha i, cycleId))
       else mret 0);
  mret (av_advanced advanced cycleId (av_admitReviewJob i)
          (negb (moves || jobInserted) && (negb (av_admitReviewJob i) || negb jobInserted))
          (mkSuperseded j b) (cr_head_sha r) headChanged).

Definition advance_tx (c : Clock) (i : AdvanceInput) : record_tx AdvanceResult :=
  found ← reads (load (av_target i));
  match found with
  | no_record => mret av_not_found
  | no_contract => mret av_not_confirmed
  | loaded r version elsewhere =>
      if (elsewhere : bool) then mret av_already_attached else
      receipt ← append_single sha1 c (advance_receipt i);
      if negb (ar_inserted receipt) then
        held ← reads (λ d, find_event (tg_recordId (av_target i))
                             (pr_key (av_target i) "head-transition-held" (av_deliveryId i)) (rd_events d));
        mret (replayed_delivery i r version held)
      else if breaks_chain i r then hold_transition c i r version
      else accept_head c i r version
  end.

Definition advanceConfirmedAcceptanceRecordPullRequestHead (c : Clock) (i : AdvanceInput) d
    : (RecordError + AdvanceResult) * RecordDb :=
  if valid_advance i then transaction (advance_tx c i) d else (inl invalid_input, d).

(** ** Terminal deliveries *)

Record TerminalInput := mkTerminalInput {
  ti_target : Target;
  ti_headSha : string;
  ti_event : string;
  ti_deliveryId : string;
  ti_source : string;
}.

Inductive TerminalResult :=
  | ti_invalidated (inserted : bool) (provenanceEventId : string) (work : Superseded)
      (currentHeadSha currentHeadCycleId : option string) (authorityGeneration : Z) (currentAuthoritative : bool)
  | ti_not_found | ti_not_confirmed | ti_not_attached.

Definition valid_terminal (i : TerminalInput) : bool :=
  (0 <? tg_prNumber (ti_target i)) && EXACT_GITHUB_HEAD_SHA (ti_headSha i)
  && bool_decide (ti_event i ∈ TERMINAL_HEAD_EVENTS) && boundedPullRequestProvenanceText 256 (ti_deliveryId i)
  && (ti_source i ≡? "github_webhook").

Definition terminal_receipt (i : TerminalInput) : EventInput :=
  delivery_event (ti_target i) (ti_headSha i) (ti_event i) (ti_deliveryId i) None false (ti_source i) None.
Definition terminal_event (i : TerminalInput) r (version : Z) : EventInput :=
  let g := ti_target i in
  mkEventInput (tg_recordId g) (pr_key g "head-invalidated" (ti_deliveryId i)) "external_pr" "github_webhook"
    (JObj [("kind", JStr "external_pr_head_invalidated_terminal"); ("repo", JStr (tg_repo g));
      ("prNumber", jnum (tg_prNumber g)); ("currentHeadSha", jopt (cr_head_sha r));
      ("currentHeadCycleId", jopt (cr_cycle_id r)); ("observedHeadSha", JStr (ti_headSha i));
      ("event", JStr (ti_event i)); ("deliveryId", JStr (ti_deliveryId i));
      ("acceptanceContractVersion", jnum version)]) None.

Definition terminal_replay (eventId : string) r : TerminalResult :=
  ti_invalidated false eventId (mkSuperseded 0 0) (cr_head_sha r) (cr_cycle_id r) (cr_generation r) (cr_authoritative r).

Definition invalidate_tx (c : Clock) (i : TerminalInput) : record_tx TerminalResult :=
  let g := ti_target i in
  found ← reads (load g);
  match found with
  | no_record => mret ti_not_found
  | no_contract => mret ti_not_confirmed
  | loaded r version _ =>
      if cr_pr_number r ≢? Some (tg_prNumber g) then mret ti_not_attached else
      receipt ← append_single sha1 c (terminal_receipt i);
      if negb (ar_inserted receipt) then mret (terminal_replay (ar_id receipt) r) else
      existing ← reads (λ d, find_event (tg_recordId g) (pr_key g "head-invalidated" (ti_deliveryId i)) (rd_events d));
      match existing with
      | Some (id, _) => mret (terminal_replay id r)
      | None =>
          provenance ← append_single sha1 c (terminal_event i r version);
          work ← (if ar_inserted provenance
                  then block_head c g r "terminal" "acceptance record PR closed or merged"
                  else mret (mkSuperseded 0 0));
          mret (ti_invalidated (ar_inserted provenance) (ar_id provenance) work (cr_head_sha r) (cr_cycle_id r)
                  (cr_generation r + if ar_inserted provenance then 1 else 0) false)
      end
  end.

Definition invalidateConfirmedAcceptanceRecordPullRequestHeadForTerminalEvent (c : Clock) (i : TerminalInput) d
    : (RecordError + TerminalResult) * RecordDb :=
  if valid_terminal i then transaction (invalidate_tx c i) d else (inl invalid_input, d).

(** ** Reconciliation with the GitHub API *)

Record ReconcileInput := mkReconcileInput {
  rn_target : Target;
  rn_blockedHeadSha : string;
  rn_blockedCycleId : string;
  rn_blockedGeneration : Z;
  rn_observedHeadSha : string;
  rn_observedBaseSha : string;
  rn_observedState : string;
  rn_observedDraft : bool;
  rn_observedMerged : bool;
  rn_source : string;
}.

Definition valid_reconcile (i : ReconcileInput) : bool :=
  (0 <? tg_prNumber (rn_target i)) && EXACT_GITHUB_HEAD_SHA (rn_blockedHeadSha i)
  && isUuid (rn_blockedCycleId i) && (0 <=? rn_blockedGeneration i)
  && EXACT_GITHUB_HEAD_SHA (rn_observedHeadSha i) && EXACT_GITHUB_HEAD_SHA (rn_observedBaseSha i)
  && bool_decide (rn_observedState i ∈ ["open"; "closed"]) && (rn_source i ≡? "github_app_api").

Definition reconcile_cycle_list (i : ReconcileInput) : list scalar :=
  let g := rn_target i in
  [sc_str (tg_workspaceId g); sc_str (tg_recordId g); sc_str (tg_repo g); sc_num (tg_prNumber g);
   sc_str (rn_blockedHeadSha i); sc_str (rn_blockedCycleId i); sc_num (rn_blockedGeneration i);
   sc_str (rn_observedHeadSha i); sc_str (rn_observedBaseSha i)].
Definition reconcile_cycle_name (i : ReconcileInput) : string :=
  "acceptance-record-pr-head-reconciliation-cycle:" +:+ json_list (reconcile_cycle_list i).
Definition acceptanceRecordPullRequestReconciliationCycleId (i : ReconcileInput) : string :=
  uuid5Url sha1 (reconcile_cycle_name i).

Definition still_open (i : ReconcileInput) : bool := (rn_observedState i ≡? "open") && negb (rn_observedMerged i).

(** The reconciliation's event, of an open or of a closed pull request. *)
Definition reconcile_event (i : ReconcileInput) (cycle : string) (version : Z) : EventInput :=
  let g := rn_target i in
  mkEventInput (tg_recordId g)
    (pr_key g (if still_open i then "head-reconciled" else "head-reconciliation-closed") cycle)
    "external_pr" (rn_source i)
    (JObj [("kind", JStr (if still_open i then "external_pr_head_reconciled"
                          else "external_pr_head_reconciliation_closed"));
      ("repo", JStr (tg_repo g)); ("prNumber", jnum (tg_prNumber g));
      ("expectedBlockedHeadSha", JStr (rn_blockedHeadSha i)); ("expectedBlockedCycleId", JStr (rn_blockedCycleId i));
      ("expectedBlockedAuthorityGeneration", jnum (rn_blockedGeneration i));
      ("observedHeadSha", JStr (rn_observedHeadSha i)); ("observedBaseSha", JStr (rn_observedBaseSha i));
      ("observedState", JStr (rn_observedState i)); ("observedDraft", JBool (rn_observedDraft i));
      ("observedMerged", JBool (rn_observedMerged i)); ("headCycleId", JStr cycle);
      ("acceptanceContractVersion", jnum version)]) None.

Inductive ReconcileResult :=
  | rn_reconciled (record : ChangeRecord) (jobId : option string) (jobAdmitted : bool) (work : Superseded)
  | rn_already_current (record : ChangeRecord) (jobId : option string)
  | rn_closed (record : ChangeRecord) (work : Superseded)
  | rn_precondition_changed (record : ChangeRecord)
  | rn_not_found | rn_not_confirmed | rn_not_attached.

Definition pr_job_row (g : Target) (id : string) (t : jobs) : option ReviewJob :=
  match t !! id with Some j => if pr_job g j then Some j else None | None => None end.

(** Whether the job of the cycle is the one the reconciliation admits, or the
    one a later delivery admitted for a draft. *)
Definition job_matches (i : ReconcileInput) (job : option ReviewJob) : bool :=
  match job with
  | Some j => (rj_head_sha j ≡? rn_observedHeadSha i)
              && (rj_event j ≡? if rn_observedDraft i then "ready_for_review" else "reconciled")
  | None => rn_observedDraft i
  end.

Definition event_matches (i : EventInput) (x : option (string * ChangeEvent)) : bool :=
  match x with Some (_, e) => same_provenance i e | None => false end.

(** The head the caller saw blocked. *)
Definition blocked_as_expected (i : ReconcileInput) (generation : Z) r : bool :=
  (cr_head_sha r ≡? Some (rn_blockedHeadSha i)) && (cr_cycle_id r ≡? Some (rn_blockedCycleId i))
  && negb (cr_authoritative r) && (cr_generation r ≡? generation).

Definition restored (i : ReconcileInput) (cycle : string) r : bool :=
  cr_authoritative r && (cr_head_sha r ≡? Some (rn_observedHeadSha i)) && (cr_cycle_id r ≡? Some cycle)
  && (cr_generation r ≡? rn_blockedGeneration i + 1).

Definition close_tx (c : Clock) (i : ReconcileInput) (e : EventInput) r : record_tx ReconcileResult :=
  let g := rn_target i in
  receipt ← append_single sha1 c e;
  _ ← require_true (ar_inserted receipt) lost_precondition;
  closed ← update_record (tg_recordId g) (withdraw c);
  j ← supersede_jobs c g None;
  b ← tear_down_boots c g None "acceptance record reconciliation observed closed PR";
  _ ← invalidateAcceptanceCorrectionDispatchForHeadInTransaction c g
        (Some (rn_blockedHeadSha i)) (Some (rn_blockedCycleId i)) "authority_blocked" None;
  mret (rn_closed closed (mkSuperseded j b)).

Definition restore_tx (c : Clock) (i : ReconcileInput) (cycle : string) (e : EventInput) r : record_tx ReconcileResult :=
  let g := rn_target i in
  provenance ← append_single sha1 c e;
  _ ← require_true (ar_inserted provenance) lost_precondition;
  reconciled ← update_record (tg_recordId g) (take_head c (tg_prNumber g) (rn_observedHeadSha i) cycle 1);
  job ← (if rn_observedDraft i then mret None
         else fresh ← insert_job c g cycle (rn_observedHeadSha i) "reconciled";
              _ ← require_true fresh lost_precondition;
              mret (Some cycle));
  j ← supersede_jobs c g (Some cycle);
  b ← tear_down_boots c g None "acceptance record head reconciled";
  _ ← invalidateAcceptanceCorrectionDispatchForHeadInTransaction c g
        (Some (rn_blockedHeadSha i)) (Some (rn_blockedCycleId i)) "reconciled" (Some (rn_observedHeadSha i, cycle));
  mret (rn_reconciled reconciled job (negb (is_null job)) (mkSuperseded j b)).

Definition reconcile_tx (c : Clock) (i : ReconcileInput) : record_tx ReconcileResult :=
  let g := rn_target i in
  let cycle := acceptanceRecordPullRequestReconciliationCycleId i in
  found ← reads (load g);
  match found with
  | no_record => mret rn_not_found
  | no_contract => mret rn_not_confirmed
  | loaded r version _ =>
      if cr_pr_number r ≢? Some (tg_prNumber g) then mret rn_not_attached else
      let e := reconcile_event i cycle version in
      existing ← reads (λ d, find_event (ei_recordId e) (ei_eventKey e) (rd_events d));
      job ← reads (λ d, pr_job_row g cycle (rd_jobs d));
      if still_open i && restored i cycle r then
        mret (if event_matches e existing && job_matches i job
              then rn_already_current r (if is_null job then None else Some cycle)
              else rn_precondition_changed r)
      else if negb (still_open i) && event_matches e existing && blocked_as_expected i (rn_blockedGeneration i + 1) r
      then mret (rn_closed r (mkSuperseded 0 0))
      else if negb (blocked_as_expected i (rn_blockedGeneration i) r) then mret (rn_precondition_changed r)
      else if negb (still_open i) then close_tx c i e r
      else if negb (is_null existing) then mret (rn_precondition_changed r)
      else restore_tx c i cycle e r
  end.

Definition reconcileConfirmedAcceptanceRecordPullRequestHead (c : Clock) (i : ReconcileInput) d
    : (RecordError + ReconcileResult) * RecordDb :=
  if valid_reconcile i then transaction (reconcile_tx c i) d else (inl invalid_input, d).

(** ** What only the current head's running review may write *)

Definition owns_head (g : Target) (jobId headSha : string) d : bool :=
  match target_record g (rd_records d) with
  | Some r => (cr_pr_number r ≡? Some (tg_prNumber g)) && cr_authoritative r
              && (cr_head_sha r ≡? Some headSha) && (cr_cycle_id r ≡? Some jobId)
  | None => false
  end.
Definition runs_review (g : Target) (jobId headSha : string) d : bool :=
  match pr_job_row g jobId (rd_jobs d) with
  | Some j => (rj_head_sha j ≡? headSha) && (rj_state j ≡? rj_running)
  | None => false
  end.
(** The two checks, in order. *)
Definition require_current (g : Target) (jobId headSha : string) : record_tx unit :=
  current ← reads (owns_head g jobId headSha);
  _ ← require_true current record_not_current;
  running ← reads (runs_review g jobId headSha);
  require_true running job_not_running.

Definition appendCurrentReviewJobEventsAtomically (c : Clock) (g : Target) (jobId headSha : string)
    (inputs : list EventInput) d : (RecordError + list AppendResult) * RecordDb :=
  let inputs := (λ i, mkEventInput (tg_recordId g) (ei_eventKey i) (ei_stage i) (ei_actor i) (ei_payloadRef i) (ei_at i))
                <$> inputs in
  if (0 <? tg_prNumber g) && EXACT_GITHUB_HEAD_SHA headSha && negb (bool_decide (inputs = []))
     && bool_decide (NoDup (ei_eventKey <$> inputs))
  then transaction (_ ← require_current g jobId headSha;
                    appendChangeRecordEventsAtomicallyInTransaction sha1 c inputs) d
  else (inl invalid_input, d).

Definition same_boot (g : Target) (headSha ref : string) (b : PreviewBoot) : bool :=
  pr_boot g b && (pb_head_sha b ≡? headSha) && (pb_ref b ≡? ref).

Definition enqueueCurrentReviewJobPreviewBoot (c : Clock) (g : Target) (jobId headSha ref : string) d
    : (RecordError + EnqueuePreviewBootResult) * RecordDb :=
  let n := Z.to_N (tg_prNumber g) in
  let id := previewBootId sha1 (tg_workspaceId g) (tg_repo g) n headSha (Some jobId) in
  if (0 <? tg_prNumber g) && isUuid (tg_workspaceId g) && isUuid (tg_recordId g) && isUuid jobId
     && EXACT_GITHUB_HEAD_SHA headSha
     && ((ref ≡? headSha) || (ref ≡? "refs/pull/" +:+ pr_text (tg_prNumber g) +:+ "/head"))
  then transaction (
    _ ← require_current g jobId headSha;
    inserted ← runs (λ d, let '(fresh, t) := insert_new id (new_boot (db_now c)
                   (mkBootInput (tg_workspaceId g) (tg_repo g) n headSha ref)) (rd_boots d) in
               (fresh, with_boots t d));
    row ← reads (λ d, rd_boots d !! id);
    _ ← require_true (match row with Some b => same_boot g headSha ref b | None => false end) event_bound_differently;
    b ← tear_down_boots c g (Some id) "superseded by current Acceptance Record cycle";
    mret (mkEnqueuePreviewBootResult id (negb inserted) b)) d
  else (inl invalid_input, d).
End PrHead.

(** ** Cycle ids *)

(** The text whose hash is a head's cycle determines what the
    cycle is for: the workspace, the record, the pull request, the head, the
    delivery and its transition, or the blocked head, its cycle and generation and
    what was observed; and no text of a delivery is one of a reconciliation. *)
Theorem cycle_name_determines :
  (∀ i i', head_cycle_name i = head_cycle_name i' →
     av_target i = av_target i' ∧ av_headSha i = av_headSha i' ∧ av_event i = av_event i'
     ∧ av_deliveryId i = av_deliveryId i' ∧ av_headTransition i = av_headTransition i')
  ∧ (∀ i i', reconcile_cycle_name i = reconcile_cycle_name i' →
     rn_target i = rn_target i' ∧ rn_blockedHeadSha i = rn_blockedHeadSha i'
     ∧ rn_blockedCycleId i = rn_blockedCycleId i' ∧ rn_blockedGeneration i = rn_blockedGeneration i'
     ∧ rn_observedHeadSha i = rn_observedHeadSha i' ∧ rn_observedBaseSha i = rn_observedBaseSha i')
  ∧ ∀ i j, head_cycle_name i ≠ reconcile_cycle_name j.
Proof.
  split_and!.
  - intros [[w r p n] h e id ad tr so u] [[w' r' p' n'] h' e' id' ad' tr' so' u'] H.
    apply (inj (String.append _)) in H. apply json_list_inj in H; [|done].
    injection H as -> -> -> -> -> -> -> Hb Ha. split_and!; try done. destruct tr as [[]|], tr' as [[]|]; try done.
    simpl in *. congruence.
  - intros [[w r p n] h cy ge oh ob st dr me so] [[w' r' p' n'] h' cy' ge' oh' ob' st' dr' me' so'] H.
    apply (inj (String.append _)) in H. apply json_list_inj in H; [|done].
    by injection H as -> -> -> -> -> -> -> -> ->.
  - intros i j H. discriminate H.
Qed.

(** ** A pull request on concrete data *)

Definition sha_c : string := "cccccccccccccccccccccccccccccccccccccccc".
Definition confirmed_db : RecordDb :=
  mkRecordDb {["r1" := app_issue (Some 5) None None "open"]}
    {["c1" := mkAcceptanceContract "r1" 1 "confirmed" (JObj []) "jace" (Some "u") (Some 1) 1]} ∅ ∅ ∅ ∅ ∅.
Definition pull_7 : Target := mkTarget "ws" "r1" "acme/app" 7.
Definition delivery (sha event id : string) (tr : option (string * string)) : AdvanceInput :=
  mkAdvanceInput pull_7 sha event id true tr "github_webhook" None.
Definition opened : AdvanceInput := delivery sha_a "opened" "d-1" None.
Definition pushed : AdvanceInput := delivery sha_b "synchronize" "d-2" (Some (sha_a, sha_b)).
(** A push whose parent the record never saw. *)
Definition jumped : AdvanceInput := delivery sha_b "synchronize" "d-3" (Some (sha_c, sha_b)).
Definition tick (n : Z) : Clock := mkClock n n.
Notation after i n d := (advanceConfirmedAcceptanceRecordPullRequestHead sum_sha1 (tick n) i d).2.

Definition head_summary (d : RecordDb) : option (option string * bool * Z) :=
  (λ r, (cr_head_sha r, cr_authoritative r, cr_generation r)) <$> rd_records d !! "r1".
Definition live_jobs (d : RecordDb) : list (string * string) :=
  (λ kj : string * ReviewJob, (rj_head_sha kj.2, rj_event kj.2)) <$> select_where (λ _, active_job) (rd_jobs d).

Example opened_takes_head :
  head_summary (after opened 10 confirmed_db) = Some (Some sha_a, true, 1)
  ∧ live_jobs (after opened 10 confirmed_db) = [(sha_a, "opened")].
Proof. split; vm_compute; reflexivity. Qed.
Example pushed_supersedes :
  let d := after pushed 20 (after opened 10 confirmed_db) in
  head_summary d = Some (Some sha_b, true, 2) ∧ live_jobs d = [(sha_b, "synchronize")].
Proof. split; vm_compute; reflexivity. Qed.
Example jumped_blocks :
  let d := after jumped 20 (after opened 10 confirmed_db) in
  head_summary d = Some (Some sha_a, false, 2) ∧ live_jobs d = [].
Proof. split; vm_compute; reflexivity. Qed.

(** The reconciliation of the blocked head with what GitHub says. *)
Definition reconciliation (d : RecordDb) (state : string) : ReconcileInput :=
  mkReconcileInput pull_7 sha_a (default "" (rd_records d !! "r1" ≫= cr_cycle_id)) 2 sha_b sha_c state false false
    "github_app_api".
Definition blocked_db : RecordDb := after jumped 20 (after opened 10 confirmed_db).
Example reconciled_takes_head :
  let d := (reconcileConfirmedAcceptanceRecordPullRequestHead sum_sha1 (tick 30) (reconciliation blocked_db "open") blocked_db).2 in
  head_summary d = Some (Some sha_b, true, 3) ∧ live_jobs d = [(sha_b, "reconciled")].
Proof. split; vm_compute; reflexivity. Qed.
Example reconciled_closed :
  let d := (reconcileConfirmedAcceptanceRecordPullRequestHead sum_sha1 (tick 30) (reconciliation blocked_db "closed") blocked_db).2 in
  head_summary d = Some (Some sha_a, false, 3) ∧ live_jobs d = [].
Proof. split; vm_compute; reflexivity. Qed.
