(* ===== verification/PrDeliveries.v ===== *)
(** * PrDeliveries: every delivery the timeline names has its receipt

    The webhook operations write the receipt of a delivery before any event
    that names it, so the receipt tells whether the delivery was acted on. *)

From S2P Require Import Prelude Table Intake Tx.
From S2P Require Import RecordSchema JsonText Timeline ChangeRecords PrHead.
From Stdlib Require Import QArith Qcanon.
From Stdlib Require String.
Open Scope Z_scope.

(** ** Deep equality and the fields of an object *)

Lemma json_field_cons k v (l : list (string * json)) key :
  json_field (JObj ((k, v) :: l)) key
  = match json_field (JObj l) key with Some x => Some x | None => if k ≡? key then Some v else None end.
Proof.
  simpl. generalize (rev l). intros l'. induction l' as [|[k' v'] l' IH]; simpl.
  - by destruct (bool_decide (k = key)).
  - by destruct (bool_decide (k' = key)).
Qed.

Lemma leb_refl s : String.leb s s = true.
Proof. by destruct (String.leb_total s s) as [H|H]. Qed.

Lemma json_field_insert k v (l : list (string * json)) key :
  json_field (JObj (insert_field k v l)) key = json_field (JObj ((k, v) :: l)) key.
Proof.
  induction l as [|[k' v'] l IH]; cbn [insert_field]; [done|].
  destruct (String.leb k k') eqn:E; [done|].
  rewrite (json_field_cons k' v' (insert_field k v l)), IH, !json_field_cons.
  destruct (json_field (JObj l) key); [done|].
  assert (k ≠ k') by (intros ->; by rewrite leb_refl in E).
  repeat case_bool_decide; congruence.
Qed.

Lemma canonical_field (l : list (string * json)) key :
  json_field (canonical (JObj l)) key = canonical <$> json_field (JObj l) key.
Proof.
  induction l as [|[k v] l IH]; [done|].
  change (canonical (JObj ((k, v) :: l))) with
    (JObj (insert_field k (canonical v) (foldr (λ kv l, insert_field kv.1 (canonical kv.2) l) [] l))).
  rewrite json_field_insert, json_field_cons, json_field_cons.
  change (JObj (foldr _ [] l)) with (canonical (JObj l)). rewrite IH.
  destruct (json_field (JObj l) key); [done|]. simpl. by destruct (bool_decide (k = key)).
Qed.

Lemma canonical_is_obj v l : canonical v = canonical (JObj l) → ∃ l', v = JObj l'.
Proof. destruct v; try done. eauto. Qed.

Lemma json_text_canonical v : json_text (canonical <$> v) = json_text v.
Proof. by destruct v as [[]|]. Qed.
Lemma Qred_idem q : Qred (Qred q) = Qred q.
Proof. apply Qred_complete, Qred_correct. Qed.
Lemma json_int_canonical v : json_int (canonical <$> v) = json_int v.
Proof. destruct v as [[]|]; try done. cbn [canonical fmap option_fmap option_map json_int]. by rewrite Qred_idem. Qed.
Lemma json_int_jnum n : json_int (Some (jnum n)) = Some n.
Proof.
  unfold json_int, jnum, inject_Z. assert (H : Qred (n # 1) = n # 1).
  { apply Qred_identity. by rewrite Z.gcd_1_r. }
  by rewrite H.
Qed.

(** ** The delivery an event names *)

Definition delivery_key (n : Z) (id : string) : string := pr_key (mkTarget "" "" "" n) "delivery" id.

(** The key of the receipt of the delivery named by an event of the pull
    request plane. *)
Definition names_delivery (stage : string) (payload : json) : option string :=
  if stage ≡? "external_pr" then
    n ← json_int (json_field payload "prNumber");
    id ← json_text (json_field payload "deliveryId");
    Some (delivery_key n id)
  else None.

Lemma names_delivery_equal stage l payload :
  isDeepStrictEqual payload (JObj l) = true → names_delivery stage payload = names_delivery stage (JObj l).
Proof.
  intros H. apply bool_decide_eq_true in H. destruct (canonical_is_obj _ _ H) as [l' ->].
  unfold names_delivery.
  assert (Hf : ∀ key, canonical <$> json_field (JObj l') key = canonical <$> json_field (JObj l) key).
  { intros key. by rewrite <- !canonical_field, H. }
  assert (Hn := f_equal json_int (Hf "prNumber")). assert (Hd := f_equal json_text (Hf "deliveryId")).
  rewrite !json_int_canonical in Hn. rewrite !json_text_canonical in Hd. by rewrite Hn, Hd.
Qed.

Definition accounted (d : RecordDb) : Prop :=
  ∀ id e k, rd_events d !! id = Some e → names_delivery (ce_stage e) (ce_payload e) = Some k →
    is_Some (find_event (ce_record_id e) k (rd_events d)).

(** What keeps the timeline accounted for, given the events of the keys [K]. *)
Definition accounts (K : string * string → Prop) (d d' : RecordDb) : Prop :=
  timeline_grows d d'
  ∧ (unique_keys (rd_events d) → (∀ k, K k → is_Some (find_event k.1 k.2 (rd_events d))) →
     accounted d → accounted d').

#[export] Instance accounts_preorder K : PreOrder (accounts K).
Proof.
  split; [by split|]. intros d1 d2 d3 [G1 A1] [G2 A2]. split; [by etrans|]. intros Hu HK Ha.
  destruct G1 as [S1 U1]. apply A2; [auto| |auto]. intros k Hk.
  destruct (HK k Hk) as [x Hx]. exists x. eapply find_event_mono; eauto.
Qed.

Lemma accounts_same K d d' : rd_events d' = rd_events d → accounts K d d'.
Proof. intros H. unfold accounts, timeline_grows, accounted. rewrite H. done. Qed.

Section Deliveries.
Context (sha1 : list Z → list Z).
Implicit Types (d : RecordDb) (r : ChangeRecord) (g : Target).

Definition no_keys : string * string → Prop := λ _, False.
Definition only (g : Target) (id : string) : string * string → Prop :=
  λ k, k = (tg_recordId g, pr_key g "delivery" id).

(** The event may be appended when the keys [K] are taken. *)
Definition tells (K : string * string → Prop) (i : EventInput) : Prop :=
  ∀ k, names_delivery (ei_stage i) (ei_payloadRef i) = Some k → K (ei_recordId i, k) ∨ k = ei_eventKey i.

Lemma insert_event_accounts K id e :
  (∀ k, names_delivery (ce_stage e) (ce_payload e) = Some k → K (ce_record_id e, k) ∨ k = ce_event_key e) →
  keeps (accounts K) (insert_event id e).
Proof.
  intros He d b d' H. assert (Hg := insert_event_grows id e d b d' H). split; [done|].
  intros Hu HK Ha. destruct Hg as [Hs Hu']. specialize (Hu' Hu).
  apply insert_event_inr in H as [(_ & -> & _)|(_ & -> & Hid & Hf & _)]; [done|]. simpl in *.
  intros id1 e1 k Hl Hn. simpl in *. apply lookup_insert_Some in Hl as [[<- <-]|[_ Hl]].
  - destruct (He k Hn) as [Hk|Hk].
    + destruct (HK _ Hk) as [x Hx]. exists x. by eapply find_event_mono.
    + subst k. eexists. apply find_event_unique; [done|apply lookup_insert_eq].
  - destruct (Ha id1 e1 k Hl Hn) as [x Hx]. exists x. by eapply find_event_mono.
Qed.

Lemma append_one_accounts K c i : tells K i → keeps (accounts K) (append_one sha1 c i).
Proof.
  intros Hi. unfold append_one. apply keeps_bind; [apply _|by apply insert_event_accounts|intros ?]. keeps.
Qed.
Lemma append_many_accounts K c inputs :
  Forall (tells K) inputs → keeps (accounts K) (appendChangeRecordEventsAtomicallyInTransaction sha1 c inputs).
Proof.
  induction 1; simpl; [keeps|]. apply keeps_bind; [apply _|by apply append_one_accounts|intros ?].
  apply keeps_bind; [apply _|done|intros ?]. keeps.
Qed.
Lemma append_single_accounts K c i : tells K i → keeps (accounts K) (append_single sha1 c i).
Proof.
  intros Hi. unfold append_single. apply keeps_bind; [apply _|by apply append_many_accounts, Forall_singleton|].
  intros ?. keeps.
Qed.
Lemma append_single_inr c i d x d' : append_single sha1 c i d = inr (x, d') → append_one sha1 c i d = inr (x, d').
Proof.
  unfold append_single. intros H. apply bind_inr in H as (l & d1 & H1 & H).
  apply some_or_inr in H as [Hl ->]. simpl in H1. apply bind_inr in H1 as (y & d2 & Hy & H1).
  apply bind_inr in H1 as (ys & d3 & H2 & H1). apply ret_inr in H1 as [<- <-].
  apply ret_inr in H2 as [_ <-]. simpl in Hl. injection Hl as <-. done.
Qed.
Lemma append_single_found c i d x d' :
  append_single sha1 c i d = inr (x, d') → is_Some (find_event (ei_recordId i) (ei_eventKey i) (rd_events d')).
Proof. intros H%append_single_inr%append_one_inr. destruct H as [H _]. by eexists. Qed.

Lemma insert_or_skip_accounts K c i : tells K i → keeps (accounts K) (insert_event_or_skip sha1 c i).
Proof.
  intros Hi d b d'. unfold insert_event_or_skip.
  assert (Hs : accounts K d d) by by apply accounts_same.
  destruct (find_event _ _ _) as [x|], (rd_events d !! event_id sha1 i) as [e|]; intros H;
    try (by injection H as _ <-).
  eapply (insert_event_accounts K); [|exact H]. exact Hi.
Qed.

(** ** The events the operations write *)

Lemma tells_other_stage K i : ei_stage i ≠ "external_pr" → tells K i.
Proof. intros H k. unfold names_delivery. rewrite bool_decide_eq_false_2; done. Qed.
Lemma tells_no_delivery K i : json_text (json_field (ei_payloadRef i) "deliveryId") = None → tells K i.
Proof.
  intros H k. unfold names_delivery. destruct (bool_decide _); [|done].
  destruct (json_int _); cbn [mbind option_bind]; [rewrite H|]; done.
Qed.
Lemma tells_no_number K i : json_int (json_field (ei_payloadRef i) "prNumber") = None → tells K i.
Proof. intros H k. unfold names_delivery. destruct (bool_decide _); [rewrite H|]; done. Qed.

Lemma tells_receipt K g sha event id tr adm source url :
  tells K (delivery_event g sha event id tr adm source url).
Proof.
  intros k. unfold names_delivery, delivery_event. cbn [ei_stage ei_payloadRef ei_eventKey].
  rewrite bool_decide_eq_true_2 by done.
  change (json_field (JObj _) "prNumber") with (Some (jnum (tg_prNumber g))). rewrite json_int_jnum.
  change (json_field (JObj _) "deliveryId") with (Some (JStr id)). simpl. intros [= <-]. by right.
Qed.
Lemma names_authority i r cycle v :
  names_delivery (ei_stage (authority_event i r cycle v)) (ei_payloadRef (authority_event i r cycle v))
  = Some (pr_key (av_target i) "delivery" (av_deliveryId i)).
Proof.
  unfold names_delivery, authority_event. cbn [ei_stage ei_payloadRef].
  rewrite bool_decide_eq_true_2 by done.
  change (json_field (JObj _) "prNumber") with (Some (jnum (tg_prNumber (av_target i)))). rewrite json_int_jnum.
  reflexivity.
Qed.
Lemma tells_authority i r cycle v : tells (only (av_target i) (av_deliveryId i)) (authority_event i r cycle v).
Proof. intros k. rewrite names_authority. intros [= <-]. by left. Qed.
Lemma tells_terminal i r v : tells (only (ti_target i) (ti_deliveryId i)) (terminal_event i r v).
Proof.
  intros k. unfold names_delivery, terminal_event. cbn [ei_stage ei_payloadRef ei_eventKey].
  rewrite bool_decide_eq_true_2 by done.
  change (json_field (JObj _) "prNumber") with (Some (jnum (tg_prNumber (ti_target i)))). rewrite json_int_jnum.
  change (json_field (JObj _) "deliveryId") with (Some (JStr (ti_deliveryId i))). simpl. intros [= <-]. by left.
Qed.
Lemma tells_held K i r v : tells K (held_event i r v).
Proof. by apply tells_no_number. Qed.
Lemma tells_attached K i v : tells K (attached_event i v).
Proof. by apply tells_no_delivery. Qed.
Lemma tells_reconcile K i cycle v : tells K (reconcile_event i cycle v).
Proof. by apply tells_no_delivery. Qed.
Lemma tells_dispatch K g key payload : tells K (dispatch_event g key payload).
Proof. by apply tells_other_stage. Qed.

(** ** The operations *)

#[local] Hint Resolve append_single_accounts append_many_accounts insert_or_skip_accounts tells_receipt tells_authority
  tells_terminal tells_held tells_attached tells_reconcile tells_dispatch : agentrail.

Lemma runs_accounts {A} K (f : RecordDb → A * RecordDb) :
  (∀ d, rd_events (f d).2 = rd_events d) → keeps (accounts K) (runs (E:=RecordError) f).
Proof. intros Hf. apply keeps_runs. intros d. by apply accounts_same. Qed.
Lemma update_record_accounts K id f : keeps (accounts K) (update_record id f).
Proof.
  unfold update_record. keeps. apply runs_accounts. intros d. by destruct (update_row _ _ _ _).
Qed.
Lemma supersede_accounts K c g but : keeps (accounts K) (supersede_jobs c g but).
Proof. by apply runs_accounts. Qed.
Lemma tear_down_accounts K c g but reason : keeps (accounts K) (tear_down_boots c g but reason).
Proof. by apply runs_accounts. Qed.
Lemma insert_job_accounts K c g id sha event : keeps (accounts K) (insert_job c g id sha event).
Proof. apply runs_accounts. intros d. by destruct (insert_new _ _ _). Qed.
#[local] Hint Resolve update_record_accounts supersede_accounts tear_down_accounts insert_job_accounts : agentrail.

Lemma invalidate_dispatch_accounts K c g sha cycle reason succ :
  keeps (accounts K) (invalidateAcceptanceCorrectionDispatchForHeadInTransaction sha1 c g sha cycle reason succ).
Proof.
  unfold invalidateAcceptanceCorrectionDispatchForHeadInTransaction, record_successor, successor_event, invalidated_event.
  keeps; try (apply keeps_writes; intros ?; by apply accounts_same).
  apply runs_accounts. intros ?. by destruct (update_row _ _ _ _).
Qed.
#[local] Hint Resolve invalidate_dispatch_accounts : agentrail.
Lemma block_head_accounts K c g r reason boot_reason :
  keeps (accounts K) (block_head sha1 c g r reason boot_reason).
Proof. unfold block_head. keeps. Qed.
#[local] Hint Resolve block_head_accounts : agentrail.

Definition received g id d : Prop := is_Some (find_event (tg_recordId g) (pr_key g "delivery" id) (rd_events d)).

(** After the receipt, the keys of the delivery are taken. *)
Lemma after_receipt {A} g (f : AppendResult → record_tx A) c i id d b d' :
  ei_recordId i = tg_recordId g → ei_eventKey i = pr_key g "delivery" id → tells no_keys i →
  (∀ x, keeps (accounts (only g id)) (f x)) →
  (x ← append_single sha1 c i; f x) d = inr (b, d') →
  accounts no_keys d d' ∧ (unique_keys (rd_events d) → received g id d').
Proof.
  intros Hr Hk Ht Hf (x & d1 & H1 & H2)%bind_inr.
  assert (A1 := append_single_accounts _ c i Ht d x d1 H1). assert (A2 := Hf x d1 b d' H2).
  apply append_single_found in H1. rewrite Hr, Hk in H1.
  destruct A1 as [G1 A1], A2 as [G2 A2]. split; [split; [by etrans|]|].
  - intros Hu _ Ha. apply A2; [by apply G1| |by apply A1]. intros k ->. done.
  - intros Hu. destruct H1 as [y Hy]. exists y. eapply find_event_mono; [by apply G2, G1|by apply G2|done].
Qed.

(** The operation dealt with the delivery, now or before. *)
Definition dealt_with (x : AdvanceResult) : Prop :=
  match x with av_advanced _ _ _ _ _ _ _ | av_stale_delivery _ _ _ _ _ _ | av_delivery_replayed _ => True | _ => False end.

Lemma advance_tx_accounts c i d x d' :
  advance_tx sha1 c i d = inr (x, d') →
  accounts no_keys d d' ∧ (unique_keys (rd_events d) → dealt_with x → received (av_target i) (av_deliveryId i) d').
Proof.
  unfold advance_tx. intros (f & d1 & [-> ->]%reads_inr & H)%bind_inr.
  destruct (load _ d) as [| |r v []]; [by apply ret_inr in H as [<- <-]..|].
  eapply (after_receipt (av_target i) _ c _ (av_deliveryId i)) in H;
    [|reflexivity..|apply tells_receipt|intros y; unfold hold_transition, accept_head; keeps].
  destruct H as [Ha Hr]. auto.
Qed.
Lemma advance_accounts c i : keeps (accounts no_keys) (advance_tx sha1 c i).
Proof. intros d x d' H. by apply advance_tx_accounts in H as [H _]. Qed.
(** The same of a closing delivery. *)
Definition closed_with (x : TerminalResult) : Prop :=
  match x with ti_invalidated _ _ _ _ _ _ _ => True | _ => False end.

Lemma terminal_tx_accounts c i d x d' :
  invalidate_tx sha1 c i d = inr (x, d') →
  accounts no_keys d d' ∧ (unique_keys (rd_events d) → closed_with x → received (ti_target i) (ti_deliveryId i) d').
Proof.
  unfold invalidate_tx. intros (f & d1 & [-> ->]%reads_inr & H)%bind_inr.
  destruct (load _ d) as [| |r v e]; [by apply ret_inr in H as [<- <-]..|].
  destruct (negb _); [by apply ret_inr in H as [<- <-]|].
  eapply (after_receipt (ti_target i) _ c _ (ti_deliveryId i)) in H;
    [|reflexivity..|apply tells_receipt|intros y; keeps].
  destruct H as [Ha Hr]. auto.
Qed.
Lemma terminal_accounts c i : keeps (accounts no_keys) (invalidate_tx sha1 c i).
Proof. intros d x d' H. by apply terminal_tx_accounts in H as [H _]. Qed.
Lemma attach_accounts c i : keeps (accounts no_keys) (attach_tx sha1 c i).
Proof. unfold attach_tx. keeps. Qed.
Lemma reconcile_accounts c i : keeps (accounts no_keys) (reconcile_tx sha1 c i).
Proof. unfold reconcile_tx, close_tx, restore_tx. keeps. Qed.

(** ** A fresh receipt *)

(** When the receipt of a delivery is new, so is the event of the head it
    brings. *)
Lemma authority_fresh c i r cycle v d0 receipt d p d' :
  append_single sha1 c (advance_receipt i) d0 = inr (receipt, d) → ar_inserted receipt = true →
  append_single sha1 c (authority_event i r cycle v) d = inr (p, d') → accounted d0 → ar_inserted p = true.
Proof.
  intros H1%append_single_inr%append_one_inr Hi H2%append_single_inr%append_one_inr Ha.
  destruct H1 as (_ & _ & [[? _]|(_ & _ & Hev & -> & Hid & Hf & _)]); [congruence|].
  destruct H2 as (_ & Hp & [(_ & -> & Hx)|[? _]]); [exfalso|done].
  unfold same_provenance in Hp. bools. rename select (isDeepStrictEqual _ _ = true) into Hd.
  rename select (ce_stage _ = _) into Hst.
  apply find_event_Some in Hx as (Hl & Hr & Hk). simpl in Hl.
  apply lookup_insert_Some in Hl as [[_ He]|[_ Hl]].
  - rewrite <- He in Hk. apply (f_equal (String.substring 12 8)) in Hk. revert Hk.
    unfold authority_event. destruct (is_null (cr_pr_number r)); simpl; discriminate.
  - assert (Hn : names_delivery (ce_stage (ar_event p)) (ce_payload (ar_event p))
      = Some (pr_key (av_target i) "delivery" (av_deliveryId i))).
    { rewrite Hst, (names_delivery_equal _ _ _ Hd). exact (names_authority i r cycle v). }
    destruct (Ha _ _ _ Hl Hn) as [y Hy].
    rewrite Hr in Hy. change (find_event _ _ _ = Some y) with
      (find_event (ei_recordId (advance_receipt i)) (ei_eventKey (advance_receipt i)) (rd_events d0) = Some y) in Hy.
    congruence.
Qed.
End Deliveries.
