(* ===== verification/PrHeadFacts.v ===== *)
(** * PrHeadFacts: what the head operations do to the tables

    Every operation of [PrHead] ends in one of six ways, the constructors of
    [head_effect]; the theorems of [PrAuthority] are by cases on these. *)

From S2P Require Import Prelude Table Intake ReviewJobs PreviewBoots Tx.
From S2P Require Import RecordSchema JsonText Timeline ChangeRecords PrHead PrDeliveries.
Open Scope Z_scope.

Section Facts.
Context (sha1 : list Z → list Z).
Implicit Types (t : records) (r : ChangeRecord) (d : RecordDb) (g : Target).

(** Only the timeline and the dispatches may change. *)
Definition side d d' : Prop :=
  rd_records d' = rd_records d ∧ rd_contracts d' = rd_contracts d ∧ rd_intakes d' = rd_intakes d
  ∧ rd_jobs d' = rd_jobs d ∧ rd_boots d' = rd_boots d.
#[export] Instance side_preorder : PreOrder side.
Proof. split; [by split|]. intros d1 d2 d3 (?&?&?&?&?) (?&?&?&?&?). split_and!; congruence. Qed.

Lemma insert_event_side id e : keeps side (insert_event id e).
Proof. intros d b d' [(_ & -> & _)|(_ & -> & _)]%insert_event_inr; done. Qed.
#[local] Hint Resolve insert_event_side : agentrail.
Lemma append_one_side c i : keeps side (append_one sha1 c i).
Proof. unfold append_one. keeps. Qed.
#[local] Hint Resolve append_one_side : agentrail.
Lemma append_many_side c inputs : keeps side (appendChangeRecordEventsAtomicallyInTransaction sha1 c inputs).
Proof. induction inputs; simpl; keeps. Qed.
#[local] Hint Resolve append_many_side : agentrail.
Lemma append_single_side c i : keeps side (append_single sha1 c i).
Proof. unfold append_single. keeps. Qed.
#[local] Hint Resolve append_single_side : agentrail.
Lemma insert_or_skip_side c i : keeps side (insert_event_or_skip sha1 c i).
Proof.
  intros d b d'. unfold insert_event_or_skip.
  destruct (find_event _ _ _) as [x|], (rd_events d !! event_id sha1 i) as [e|]; intros H;
    try (by injection H as _ <-). by eapply insert_event_side.
Qed.

Lemma update_dispatch_side {A} (f : dispatches → A * dispatches) :
  keeps side (runs (E:=RecordError) (λ d, let '(row, t) := f (rd_dispatches d) in (row, with_dispatches t d))).
Proof. apply keeps_runs. intros d. by destruct (f _). Qed.
#[local] Hint Resolve update_dispatch_side : agentrail.
Lemma invalidate_dispatch_side c g sha cycle reason succ :
  keeps side (invalidateAcceptanceCorrectionDispatchForHeadInTransaction sha1 c g sha cycle reason succ).
Proof.
  unfold invalidateAcceptanceCorrectionDispatchForHeadInTransaction, record_successor.
  keeps; try (by apply keeps_writes); apply (update_dispatch_side (update_row _ _ _)).
Qed.

(** ** The six effects *)

Definition superseded_jobs (c : Clock) g (but : option string) (t : jobs) : jobs :=
  update_where (λ id j, pr_job g j && active_job j && bool_decide (Some id ≠ but))
    (set_rj_state rj_superseded (db_now c)) t.
Definition torn_boots (c : Clock) g (but : option string) (reason : string) (t : boots) : boots :=
  update_where (λ id b, pr_boot g b && in_flight b && bool_decide (Some id ≠ but))
    (set_pb_end pb_torn_down (Some reason) (db_now c)) t.
Definition admitted_job (c : Clock) g (adm : bool) (id sha event : string) (t : jobs) : jobs :=
  if adm then
    (insert_new id (new_review_job (db_now c)
       (mkReviewInput (tg_workspaceId g) (tg_repo g) (Z.to_N (tg_prNumber g)) sha event)) t).2
  else t.

(** No other record has the target's pull request. *)
Definition unshared g r t : Prop :=
  attached_elsewhere g r t = false ∨ cr_pr_number r = Some (tg_prNumber g).

Inductive head_effect g d d' : Prop :=
| he_same : side d d' → head_effect g d d'
| he_attach r shas now :
    target_record g (rd_records d) = Some r → cr_pr_number r = None → unshared g r (rd_records d) →
    (∀ s, s ∈ cr_head_shas r → s ≠ "" → s ∈ shas) →
    rd_records d' = <[tg_recordId g := set_cr_pr (tg_prNumber g) shas now r]> (rd_records d) →
    rd_jobs d' = rd_jobs d → rd_boots d' = rd_boots d → head_effect g d d'
| he_block c r reason :
    target_record g (rd_records d) = Some r → unshared g r (rd_records d) →
    rd_records d' = <[tg_recordId g := withdraw c r]> (rd_records d) →
    rd_jobs d' = superseded_jobs c g None (rd_jobs d) →
    rd_boots d' = torn_boots c g None reason (rd_boots d) → head_effect g d d'
| he_take c r sha cycle step adm event reason :
    target_record g (rd_records d) = Some r → unshared g r (rd_records d) →
    EXACT_GITHUB_HEAD_SHA sha = true → step = 0 ∨ step = 1 → (accounted d → step = 1) → 0 < tg_prNumber g →
    rd_records d' = <[tg_recordId g := take_head c (tg_prNumber g) sha cycle step r]> (rd_records d) →
    rd_jobs d' = superseded_jobs c g (Some cycle) (admitted_job c g adm cycle sha event (rd_jobs d)) →
    rd_boots d' = torn_boots c g None reason (rd_boots d) → head_effect g d d'
| he_readmit c r r' sha cycle adm event (sup : bool) :
    target_record g (rd_records d) = Some r → unshared g r (rd_records d) →
    cr_head_sha r = Some sha → cr_cycle_id r = Some cycle → cr_authoritative r = true →
    EXACT_GITHUB_HEAD_SHA sha = true → 0 < tg_prNumber g →
    (r' = r ∨ cr_pr_number r = None ∧ ∃ step, (step = 0 ∨ step = 1) ∧ r' = take_head c (tg_prNumber g) sha cycle step r) →
    rd_records d' = <[tg_recordId g := r']> (rd_records d) →
    (let t := admitted_job c g adm cycle sha event (rd_jobs d) in
     rd_jobs d' = if sup then superseded_jobs c g (Some cycle) t else t) →
    rd_boots d' = rd_boots d → head_effect g d d'
| he_boot c cycle sha ref reason :
    owns_head g cycle sha d = true → 0 < tg_prNumber g →
    let id := previewBootId sha1 (tg_workspaceId g) (tg_repo g) (Z.to_N (tg_prNumber g)) sha (Some cycle) in
    let t := (insert_new id (new_boot (db_now c)
                (mkBootInput (tg_workspaceId g) (tg_repo g) (Z.to_N (tg_prNumber g)) sha ref)) (rd_boots d)).2 in
    rd_records d' = rd_records d → rd_jobs d' = rd_jobs d →
    (∃ b, t !! id = Some b ∧ same_boot g sha ref b = true) →
    rd_boots d' = torn_boots c g (Some id) reason t → head_effect g d d'.

Lemma supersede_jobs_inr c g but d n d' :
  supersede_jobs c g but d = inr (n, d') → d' = with_jobs (superseded_jobs c g but (rd_jobs d)) d.
Proof. unfold supersede_jobs. intros H%runs_inr. by injection H as _ <-. Qed.
Lemma tear_down_boots_inr c g but reason d n d' :
  tear_down_boots c g but reason d = inr (n, d') → d' = with_boots (torn_boots c g but reason (rd_boots d)) d.
Proof. unfold tear_down_boots. intros H%runs_inr. by injection H as _ <-. Qed.
Lemma insert_job_inr c g id sha event d b d' :
  insert_job c g id sha event d = inr (b, d') →
  d' = with_jobs (admitted_job c g true id sha event (rd_jobs d)) d.
Proof.
  unfold insert_job, admitted_job. intros H%runs_inr.
  destruct (insert_new _ _ _) as [fresh t]. by injection H as _ <-.
Qed.

(** Turns the committed statements among the hypotheses into equations. *)
Ltac statements :=
  repeat match goal with
  | H : append_single _ _ _ _ = inr _ |- _ => apply append_single_side in H
  | H : insert_event_or_skip _ _ _ _ = inr _ |- _ => apply insert_or_skip_side in H
  | H : invalidateAcceptanceCorrectionDispatchForHeadInTransaction _ _ _ _ _ _ _ _ = inr _ |- _ =>
      apply invalidate_dispatch_side in H
  | H : supersede_jobs _ _ _ _ = inr _ |- _ => apply supersede_jobs_inr in H; subst
  | H : tear_down_boots _ _ _ _ _ = inr _ |- _ => apply tear_down_boots_inr in H; subst
  | H : insert_job _ _ _ _ _ _ = inr _ |- _ => apply insert_job_inr in H; subst
  | H : update_record _ _ _ = inr _ |- _ => apply update_record_inr in H as (? & ? & ? & ?); subst
  | H : side _ _ |- _ => destruct H as (? & ? & ? & ? & ?); simpl in *
  end.

Lemma target_recordP g t r :
  target_record g t = Some r ↔
  t !! tg_recordId g = Some r ∧ cr_workspace_id r = tg_workspaceId g ∧ cr_repo r = tg_repo g.
Proof.
  unfold target_record, in_repo.
  destruct (t !! tg_recordId g) as [r0|]; [|split; [done|by intros [? _]]].
  destruct ((cr_workspace_id r0 ≡? _) && _) eqn:E.
  - bools. split; [by intros [= <-]|by intros ([= ->] & _)].
  - split; [done|]. intros ([= ->] & W & R). by rewrite W, R, !bool_decide_eq_true_2 in E.
Qed.

Lemma load_inv g d r version elsewhere :
  load g d = loaded r version elsewhere →
  target_record g (rd_records d) = Some r ∧ elsewhere = attached_elsewhere g r (rd_records d)
  ∧ ∃ id x, confirmed_contract (tg_recordId g) (rd_contracts d) = Some (id, x) ∧ version = ac_version x.
Proof.
  unfold load. destruct (target_record _ _); [|done]. destruct (confirmed_contract _ _) as [[id x]|]; [|done].
  intros [= -> <- <-]. eauto 10.
Qed.

Lemma block_head_effect c g r reason boot_reason d0 d w d' :
  block_head sha1 c g r reason boot_reason d = inr (w, d') → side d0 d →
  target_record g (rd_records d0) = Some r → unshared g r (rd_records d0) → head_effect g d0 d'.
Proof.
  unfold block_head. intros H Hs Ht Hu. tx_inv. statements.
  apply target_recordP in Ht as Hr. destruct Hr as [Hr _].
  apply (he_block g d0 d' c r boot_reason); [done|done|congruence..].
Qed.

Lemma he_side_front g d0 d d' : side d0 d → side d d' → head_effect g d0 d'.
Proof. intros H1 H2. apply he_same. by etrans. Qed.

Lemma hold_transition_effect c i r version d0 d x d' :
  hold_transition sha1 c i r version d = inr (x, d') → side d0 d →
  target_record (av_target i) (rd_records d0) = Some r → unshared (av_target i) r (rd_records d0) →
  head_effect (av_target i) d0 d'.
Proof.
  unfold hold_transition. intros H Hs Ht Hu.
  apply bind_inr in H as (held & d1 & H1 & H). apply append_single_side in H1.
  assert (Hs1 : side d0 d1) by by etrans.
  apply bind_inr in H as (work & d2 & H2 & H). apply ret_inr in H as [_ <-].
  destruct (ar_inserted held); [by eapply block_head_effect|].
  apply ret_inr in H2 as [_ <-]. by apply he_same.
Qed.

Lemma advance_moves i r :
  breaks_chain sha1 i r = false → cr_head_sha r = Some (av_headSha i) → cr_authoritative r = true.
Proof.
  unfold breaks_chain. intros H E. rewrite E in H. apply orb_false_iff in H as [H _].
  by apply negb_false_iff in H.
Qed.

Lemma accept_head_effect c i r version d0 receipt d x d' :
  append_single sha1 c (advance_receipt i) d0 = inr (receipt, d) → ar_inserted receipt = true →
  accept_head sha1 c i r version d = inr (x, d') → valid_advance i = true →
  breaks_chain sha1 i r = false →
  target_record (av_target i) (rd_records d0) = Some r → unshared (av_target i) r (rd_records d0) →
  head_effect (av_target i) d0 d'.
Proof.
  unfold accept_head. intros Hrec Hfresh H Hv Hb Ht Hu. unfold valid_advance in Hv. bools.
  assert (Hs := append_single_side c _ d0 _ d Hrec).
  set (g := av_target i) in *. apply target_recordP in Ht as Hr. destruct Hr as [Hr _].
  apply bind_inr in H as (cycle & d1 & [Hc ->]%some_or_inr & H).
  apply bind_inr in H as (step & d2 & Hstep & H).
  apply bind_inr in H as (adv & d3 & Hadv & H).
  apply bind_inr in H as (fresh & d4 & Hjob & H).
  apply bind_inr in H as (nj & d5 & Hsup & H).
  apply bind_inr in H as (nb & d6 & Hboot & H).
  apply bind_inr in H as (nd & d7 & Hdis & H). apply ret_inr in H as [_ <-].
  assert (Hjobs : d4 = with_jobs (admitted_job c g (av_admitReviewJob i) cycle (av_headSha i) (av_event i) (rd_jobs d3)) d3).
  { destruct (av_admitReviewJob i); [by apply insert_job_inr in Hjob|].
    apply ret_inr in Hjob as [_ <-]. by destruct d3. }
  destruct (bool_decide (cr_head_sha r = Some (av_headSha i))) eqn:Heq; simpl in *.
  - bools. rename select (cr_head_sha r = _) into Hsha.
    assert (Hcy : cr_cycle_id r = Some cycle).
    { destruct (cr_cycle_id r) as [[|ch y]|]; [done|congruence|done]. }
    apply ret_inr in Hboot as [_ <-]. apply ret_inr in Hdis as [_ <-].
    assert (Hend : ∃ r', rd_records d3 = <[tg_recordId g := r']> (rd_records d0)
      ∧ rd_jobs d3 = rd_jobs d0 ∧ rd_boots d3 = rd_boots d0
      ∧ (r' = r ∨ cr_pr_number r = None ∧ ∃ step, (step = 0 ∨ step = 1)
         ∧ r' = take_head c (tg_prNumber g) (av_headSha i) cycle step r)).
    { destruct (cr_pr_number r) as [n|]; simpl in *.
      - apply ret_inr in Hstep as [_ <-]. apply ret_inr in Hadv as [_ <-]. exists r.
        destruct Hs as (E1 & _ & _ & E2 & E3). rewrite E1, insert_id by done. auto.
      - apply bind_inr in Hstep as (p & d2' & Hp & Hstep). apply ret_inr in Hstep as [<- <-]. statements.
        exists (take_head c (tg_prNumber g) (av_headSha i) cycle (if ar_inserted p then 1 else 0) r).
        simpl in *. split_and!; [congruence..|right]. split; [done|].
        eexists. split; [|reflexivity]. by destruct (ar_inserted p); auto. }
    destruct Hend as (r' & E1 & E2 & E3 & Hr').
    destruct fresh; simpl in Hsup.
    + statements. apply (he_readmit g d0 _ c r r' (av_headSha i) cycle (av_admitReviewJob i) (av_event i) true);
        eauto using advance_moves; simpl; congruence.
    + apply ret_inr in Hsup as [_ <-]. subst d4.
      apply (he_readmit g d0 _ c r r' (av_headSha i) cycle (av_admitReviewJob i) (av_event i) false);
        eauto using advance_moves; simpl; congruence.
  - apply bind_inr in Hstep as (p & d2' & Hp & Hstep). apply ret_inr in Hstep as [<- <-].
    assert (Hone := authority_fresh sha1 c i r cycle version d0 receipt d p d2' Hrec Hfresh Hp).
    statements. eapply (he_take g d0 d7 c r (av_headSha i) cycle (if ar_inserted p then 1 else 0)
      (av_admitReviewJob i) (av_event i) "acceptance record head advanced"); simpl in *; try congruence; try done.
    + destruct (ar_inserted p); auto.
    + intros Ha. by rewrite (Hone Ha).
Qed.

Lemma advance_effect c i d :
  head_effect (av_target i) d (advanceConfirmedAcceptanceRecordPullRequestHead sha1 c i d).2.
Proof.
  unfold advanceConfirmedAcceptanceRecordPullRequestHead.
  destruct (valid_advance i) eqn:Hv; [|by apply he_same].
  unfold transaction. destruct (advance_tx sha1 c i d) as [e|[x d']] eqn:H; simpl; [by apply he_same|].
  unfold advance_tx in H. apply bind_inr in H as (f & d1 & [Hf ->]%reads_inr & H).
  destruct f as [| |r version elsewhere]; try (by apply ret_inr in H as [_ <-]; apply he_same).
  symmetry in Hf. apply load_inv in Hf as (Ht & -> & _).
  destruct (attached_elsewhere _ _ _) eqn:He; [by apply ret_inr in H as [_ <-]; apply he_same|].
  apply bind_inr in H as (receipt & d1 & Hr & H). assert (H1 := append_single_side c _ d _ d1 Hr).
  destruct (ar_inserted receipt) eqn:Hi; simpl in H.
  - destruct (breaks_chain sha1 i r) eqn:Hb.
    + eapply hold_transition_effect; [done..|by left].
    + eapply (accept_head_effect c i r version d receipt d1); [done..|by left].
  - apply bind_inr in H as (held & d2 & [_ ->]%reads_inr & H). apply ret_inr in H as [_ <-]. by apply he_same.
Qed.

Lemma terminal_effect c i d :
  head_effect (ti_target i) d (invalidateConfirmedAcceptanceRecordPullRequestHeadForTerminalEvent sha1 c i d).2.
Proof.
  unfold invalidateConfirmedAcceptanceRecordPullRequestHeadForTerminalEvent.
  destruct (valid_terminal i); [|by apply he_same].
  unfold transaction. destruct (invalidate_tx sha1 c i d) as [e|[x d']] eqn:H; simpl; [by apply he_same|].
  unfold invalidate_tx in H. apply bind_inr in H as (f & d1 & [Hf ->]%reads_inr & H).
  destruct f as [| |r version elsewhere]; try (by apply ret_inr in H as [_ <-]; apply he_same).
  symmetry in Hf. apply load_inv in Hf as (Ht & -> & _).
  destruct (bool_decide (cr_pr_number r = _)) eqn:Hn; simpl in H; [|by apply ret_inr in H as [_ <-]; apply he_same].
  bools. apply bind_inr in H as (receipt & d1 & H1%append_single_side & H).
  destruct (ar_inserted receipt); simpl in H; [|by apply ret_inr in H as [_ <-]; apply he_same].
  apply bind_inr in H as (existing & d2 & [_ ->]%reads_inr & H).
  destruct existing as [[id e]|]; [by apply ret_inr in H as [_ <-]; apply he_same|].
  apply bind_inr in H as (p & d2 & H2%append_single_side & H).
  apply bind_inr in H as (work & d3 & H3 & H). apply ret_inr in H as [_ <-].
  assert (side d d2) by by etrans.
  destruct (ar_inserted p); [|by apply ret_inr in H3 as [_ <-]; apply he_same].
  eapply block_head_effect; [done..|by right].
Qed.

Lemma reconcile_effect c i d :
  head_effect (rn_target i) d (reconcileConfirmedAcceptanceRecordPullRequestHead sha1 c i d).2.
Proof.
  unfold reconcileConfirmedAcceptanceRecordPullRequestHead.
  destruct (valid_reconcile i) eqn:Hv; [|by apply he_same].
  unfold transaction. destruct (reconcile_tx sha1 c i d) as [e|[x d']] eqn:H; simpl; [by apply he_same|].
  unfold reconcile_tx in H. apply bind_inr in H as (f & d1 & [Hf ->]%reads_inr & H).
  destruct f as [| |r version elsewhere]; try (by apply ret_inr in H as [_ <-]; apply he_same).
  symmetry in Hf. apply load_inv in Hf as (Ht & -> & _).
  destruct (bool_decide (cr_pr_number r = _)) eqn:Hn; simpl in H; [|by apply ret_inr in H as [_ <-]; apply he_same].
  bools. apply bind_inr in H as (existing & d1 & [_ ->]%reads_inr & H).
  apply bind_inr in H as (job & d1 & [_ ->]%reads_inr & H).
  destruct (still_open i && restored _ _ r); [by apply ret_inr in H as [_ <-]; apply he_same|].
  destruct (negb (still_open i) && _ && _); [by apply ret_inr in H as [_ <-]; apply he_same|].
  destruct (blocked_as_expected i (rn_blockedGeneration i) r) eqn:Hblk; simpl in H;
    [|by apply ret_inr in H as [_ <-]; apply he_same].
  assert (Hu : unshared (rn_target i) r (rd_records d)) by by right.
  apply target_recordP in Ht as Hr. destruct Hr as [Hr _].
  destruct (still_open i); simpl in H.
  - destruct (is_null existing); simpl in H; [|by apply ret_inr in H as [_ <-]; apply he_same].
    unfold restore_tx in H. unfold valid_reconcile in Hv. bools. set (cycle := acceptanceRecordPullRequestReconciliationCycleId sha1 i) in *.
    apply bind_inr in H as (p & d1 & Hp & H). apply bind_inr in H as (u & d2 & [_ ->]%require_inr & H).
    apply bind_inr in H as (rec & d3 & Hrec & H). apply bind_inr in H as (j & d4 & Hj & H).
    assert (Hjobs : ∃ adm, d4 = with_jobs (admitted_job c (rn_target i) adm cycle (rn_observedHeadSha i) "reconciled" (rd_jobs d3)) d3).
    { destruct (rn_observedDraft i).
      - apply ret_inr in Hj as [_ <-]. exists false. by destruct d3.
      - apply bind_inr in Hj as (fresh & d5 & Hj1%insert_job_inr & Hj).
        apply bind_inr in Hj as (v & d6 & [_ ->]%require_inr & Hj). apply ret_inr in Hj as [_ <-]. by exists true. }
    destruct Hjobs as [adm Hjobs]. tx_inv. statements.
    eapply (he_take (rn_target i) d _ c r (rn_observedHeadSha i) cycle 1 adm "reconciled" "acceptance record head reconciled");
      simpl in *; try congruence; auto.
  - unfold close_tx in H. tx_inv. statements.
    apply (he_block (rn_target i) d _ c r "acceptance record reconciliation observed closed PR"); simpl in *;
      (done || congruence).
Qed.

Lemma attach_effect c i d :
  head_effect (at_target i) d (attachConfirmedAcceptanceRecordToExternalPullRequest sha1 c i d).2.
Proof.
  unfold attachConfirmedAcceptanceRecordToExternalPullRequest.
  destruct (_ && _); [|by apply he_same].
  unfold transaction. destruct (attach_tx sha1 c i d) as [e|[x d']] eqn:H; simpl; [by apply he_same|].
  unfold attach_tx in H. apply bind_inr in H as (f & d1 & [Hf ->]%reads_inr & H).
  destruct f as [| |r version elsewhere]; try (by apply ret_inr in H as [_ <-]; apply he_same).
  symmetry in Hf. apply load_inv in Hf as (Ht & -> & _).
  destruct (attached_elsewhere _ _ _) eqn:He; [by apply ret_inr in H as [_ <-]; apply he_same|].
  destruct (negb (is_null (cr_head_sha r)) && _); [by apply ret_inr in H as [_ <-]; apply he_same|].
  destruct (negb (is_null (cr_pr_number r)) && _); [by apply ret_inr in H as [_ <-]; apply he_same|].
  apply bind_inr in H as (adv & d1 & H1 & H). apply bind_inr in H as (ins & d2 & H2%insert_or_skip_side & H).
  apply ret_inr in H as [_ <-]. apply target_recordP in Ht as Hr. destruct Hr as [Hr _].
  destruct (cr_pr_number r) as [n|] eqn:Hn; simpl in H1.
  - apply ret_inr in H1 as [_ <-]. by apply he_same.
  - statements. eapply (he_attach (at_target i) d _ r (normalizeHeadShas (cr_head_shas r ++ [at_headSha i])) (js_now c));
      simpl in *; try congruence; [by left|].
    intros s Hs Hne. rewrite elem_of_normalizeHeadShas, elem_of_app. auto.
Qed.

Lemma review_events_effect c g jobId sha inputs d :
  head_effect g d (appendCurrentReviewJobEventsAtomically sha1 c g jobId sha inputs d).2.
Proof.
  unfold appendCurrentReviewJobEventsAtomically. destruct (_ && _); [|by apply he_same].
  apply he_same. apply keeps_transaction; [apply _|]. unfold require_current. keeps.
Qed.

Lemma review_boot_effect c g jobId sha ref d :
  head_effect g d (enqueueCurrentReviewJobPreviewBoot sha1 c g jobId sha ref d).2.
Proof.
  unfold enqueueCurrentReviewJobPreviewBoot. destruct (_ && _) eqn:Hg; [|by apply he_same]. bools.
  unfold transaction.
  match goal with |- head_effect _ _ (match ?m with _ => _ end).2 => destruct m as [e|[x d']] eqn:Hm end;
    simpl; [by apply he_same|].
  apply bind_inr in Hm as (u & d1 & Hc & Hm). unfold require_current in Hc.
  apply bind_inr in Hc as (own & d2 & [-> ->]%reads_inr & Hc).
  apply bind_inr in Hc as (u2 & d2 & [Hown ->]%require_inr & Hc).
  apply bind_inr in Hc as (run & d2 & [-> ->]%reads_inr & Hc). apply require_inr in Hc as [_ ->].
  apply bind_inr in Hm as (ins & d1 & Hins%runs_inr & Hm).
  apply bind_inr in Hm as (row & d2 & [-> ->]%reads_inr & Hm).
  apply bind_inr in Hm as (u3 & d2 & [Hsame ->]%require_inr & Hm).
  apply bind_inr in Hm as (nb & d2 & Htear & Hm). apply ret_inr in Hm as [_ <-]. statements.
  destruct (insert_new _ _ _) as [fresh t] eqn:Hi. injection Hins as <- <-. simpl in *.
  assert (Hex : ∃ b, t !! previewBootId sha1 (tg_workspaceId g) (tg_repo g) (Z.to_N (tg_prNumber g)) sha (Some jobId)
    = Some b ∧ same_boot g sha ref b = true).
  { revert Hsame. simpl. destruct (t !! _) as [b|]; [by exists b|done]. }
  eapply (he_boot g d _ c jobId sha ref "superseded by current Acceptance Record cycle");
    simpl; rewrite ?Hi; done.
Qed.
End Facts.
