(* ===== verification/PrHistory.v ===== *)
(** * PrHistory: any sequence of the operations on a pull request's record

    The operations of [Timeline], [ChangeRecords] and [PrHead] as steps on one
    database, with the review workers' and the boot plane's; the constraints of
    [change_records] hold throughout, and a delivery acts once. *)

From S2P Require Import Prelude Table Regex Intake ReviewJobs PreviewBoots Tx.
From S2P Require Import RecordSchema JsonText Timeline ChangeRecords PrHead PrDeliveries PrHeadFacts.
Open Scope Z_scope.

Section History.
Context (sha1 : list Z → list Z).
Implicit Types (t : records) (r : ChangeRecord) (d : RecordDb) (g : Target).

Inductive record_op :=
  | op_attach (c : Clock) (i : AttachInput)
  | op_advance (c : Clock) (i : AdvanceInput)
  | op_terminal (c : Clock) (i : TerminalInput)
  | op_reconcile (c : Clock) (i : ReconcileInput)
  | op_review_events (c : Clock) (g : Target) (jobId headSha : string) (inputs : list EventInput)
  | op_review_boot (c : Clock) (g : Target) (jobId headSha ref : string)
  | op_append (c : Clock) (inputs : list EventInput)
  | op_claim (now : Z) (workerId : string) (dailyBudget : Z)
  | op_complete (now : Z) (jobId : string) (o : Outcome)
  | op_release (now : Z) (jobId : string)
  | op_boots (o : boot_op)
  | op_find (c : Clock) (i : FindOrCreateInput).

(** The heads the claim of a review job joins with. *)
Definition heads_of (t : records) : list ChangeHead :=
  omap (λ kr : string * ChangeRecord,
    (λ n, mkChangeHead (cr_workspace_id kr.2) (cr_repo kr.2) n (cr_authoritative kr.2) (cr_head_sha kr.2)
            (cr_cycle_id kr.2)) <$> cr_pr_number kr.2) (map_to_list t).

(** The step of the review plane in the terms of [ReviewJobs]. *)
Definition review_step (o : record_op) t : option review_op :=
  match o with
  | op_claim now w budget => Some (ro_claim now (mkReviewClaim w (heads_of t)) budget)
  | op_complete now id out => Some (ro_complete now id out)
  | op_release now id => Some (ro_release now id)
  | _ => None
  end.

Definition exec_record (o : record_op) d : RecordDb :=
  match o with
  | op_attach c i => (attachConfirmedAcceptanceRecordToExternalPullRequest sha1 c i d).2
  | op_advance c i => (advanceConfirmedAcceptanceRecordPullRequestHead sha1 c i d).2
  | op_terminal c i => (invalidateConfirmedAcceptanceRecordPullRequestHeadForTerminalEvent sha1 c i d).2
  | op_reconcile c i => (reconcileConfirmedAcceptanceRecordPullRequestHead sha1 c i d).2
  | op_review_events c g j sha inputs => (appendCurrentReviewJobEventsAtomically sha1 c g j sha inputs d).2
  | op_review_boot c g j sha ref => (enqueueCurrentReviewJobPreviewBoot sha1 c g j sha ref d).2
  | op_append c inputs => (appendChangeRecordEventsAtomically sha1 c inputs d).2
  | op_boots o => with_boots (exec_boot sha1 o (rd_boots d)).2 d
  | op_find c i => (findOrCreateChangeRecord sha1 c i d).2
  | op_claim _ _ _ | op_complete _ _ _ | op_release _ _ =>
      match review_step o (rd_records d) with
      | Some ro => with_jobs (exec_review sha1 ro (rd_jobs d)) d
      | None => d
      end
  end.
Definition exec_records (os : list record_op) d : RecordDb := foldl (λ d o, exec_record o d) d os.

(** Steps that leave every record under its id. *)
Definition in_place (o : record_op) : Prop := match o with op_find _ _ => False | _ => True end.
(** Steps whose events leave the stage of the pull request plane alone. *)
Definition own_stage (o : record_op) : Prop :=
  match o with
  | op_review_events _ _ _ _ inputs | op_append _ inputs => Forall (λ i, ei_stage i ≠ "external_pr") inputs
  | _ => True
  end.

(** The pull request an operation of [PrHead] is about. *)
Definition head_target (o : record_op) : option Target :=
  match o with
  | op_attach _ i => Some (at_target i)
  | op_advance _ i => Some (av_target i)
  | op_terminal _ i => Some (ti_target i)
  | op_reconcile _ i => Some (rn_target i)
  | op_review_events _ g _ _ _ | op_review_boot _ g _ _ _ => Some g
  | _ => None
  end.

Lemma exec_head_effect o g d : head_target o = Some g → head_effect sha1 g d (exec_record o d).
Proof.
  destruct o; try done; intros [= <-];
    [apply attach_effect|apply advance_effect|apply terminal_effect|apply reconcile_effect
    |apply review_events_effect|apply review_boot_effect].
Qed.

Lemma append_batch_side c inputs d : side d (appendChangeRecordEventsAtomically sha1 c inputs d).2.
Proof.
  unfold appendChangeRecordEventsAtomically. destruct (well_formed_batch _); [|done].
  apply keeps_transaction; [apply _|]. apply append_many_side.
Qed.

(** The other steps that stay in place do not touch the records. *)
Lemma exec_other o d : in_place o → head_target o = None → rd_records (exec_record o d) = rd_records d.
Proof. destruct o; try done; intros _ _; simpl; try done. apply append_batch_side. Qed.

(** ** The constraints of [change_records] *)

Lemma set_head_ok c n sha cycle step r :
  record_ok r → EXACT_GITHUB_HEAD_SHA sha = true → step = 0 ∨ step = 1 →
  record_ok (take_head c n sha cycle step r).
Proof.
  intros [_ Hg] Hs Hstep. unfold record_ok, take_head. simpl. split; [|lia].
  split_and!; [done| |by eexists]. rewrite elem_of_normalizeHeadShas, elem_of_app.
  split; [right; by apply list_elem_of_singleton|by apply exact_sha_nonempty].
Qed.

(** A row may take the target's pull request. *)
Lemma retarget_ok g t r r' :
  records_ok t → target_record g t = Some r → unshared g r t → record_ok r' →
  cr_workspace_id r' = cr_workspace_id r → cr_repo r' = cr_repo r → cr_issue_number r' = cr_issue_number r →
  cr_work_key r' = cr_work_key r →
  cr_pr_number r' = cr_pr_number r ∨ cr_pr_number r' = Some (tg_prNumber g) →
  records_ok (<[tg_recordId g := r']> t).
Proof.
  intros (Ht & Ui & Up & Uw) Hg Hu Hok W R I K P. apply target_recordP in Hg as (Hr & Wr & Rr).
  split; [by apply map_Forall_insert_2|]. split_and!; [by eapply unique_by_keep| |by eapply unique_by_keep].
  destruct P as [P|P]; [by eapply unique_by_keep|]. unfold unshared, attached_elsewhere in Hu.
  destruct (cr_pr_number r) as [m|] eqn:Hm.
  { eapply unique_by_keep; [done..|]. rewrite P, Hm. destruct Hu as [Hu|Hu]; [|done].
    apply orb_false_iff in Hu as [Hu _]. apply negb_false_iff in Hu. bools. by subst. }
  eapply (unique_by_fill _ (Some (tg_prNumber g))); [done..|by rewrite P, Hm|].
  intros _ k [= <-] id' r2 Hne Hid W2 R2 F2. destruct Hu as [Hu|Hu]; [|done]. simpl in Hu.
  unfold target_pr in Hu.
  destruct (find_record _ t) as [[id x]|] eqn:Hf.
  - apply negb_false_iff in Hu. bools. subst id. apply find_record_Some in Hf as [Hx Hp].
    apply has_prP in Hp as (A1 & A2 & A3). congruence.
  - rewrite find_record_None in Hf. specialize (Hf id' r2 Hid). by rewrite (proj2 (has_prP _ _ _ id' r2)) in Hf; [|split_and!; congruence].
Qed.

Lemma head_effect_records g d d' :
  head_effect sha1 g d d' → records_ok (rd_records d) → records_ok (rd_records d').
Proof.
  intros He Hok. assert (Hrow : ∀ r, target_record g (rd_records d) = Some r → record_ok r).
  { intros r Hr. apply target_recordP in Hr as [Hr _]. by eapply (proj1 Hok). }
  destruct He as [(-> & _)|r shas now Hr Hn Hu Hs -> _ _|c r reason Hr Hu -> _ _
    |c r sha cycle step adm event reason Hr Hu Hsha Hst _ Hpos -> _ _
    |c r r' sha cycle adm event sup Hr Hu Hsha Hcy Ha Hex Hpos Hr' -> _ _
    |c cycle sha ref reason Hown Hpos id t' -> _ _ _]; try done.
  - eapply retarget_ok; try done; [|by right]. destruct (Hrow r Hr) as [Hc Hg].
    split; [|done]. simpl. destruct (cr_head_sha r) as [x|]; [|done].
    destruct Hc as (H1 & H2 & H3). split_and!; [done| |done]. apply Hs; [done|by apply exact_sha_nonempty].
  - eapply retarget_ok; try done; [|by left]. destruct (Hrow r Hr) as [Hc Hg]. unfold record_ok, withdraw.
    simpl. split; [|lia]. destruct (cr_head_sha r); [done|]. by destruct Hc.
  - eapply retarget_ok; try done; [by apply set_head_ok; [apply Hrow|..]|by right].
  - eapply retarget_ok; try done; destruct Hr' as [->|(Hpr & step & Hst & ->)]; try done; try (by left); try by right.
    + by apply Hrow.
    + apply set_head_ok; [by apply Hrow|done..].
Qed.

Lemma exec_records_ok o d : records_ok (rd_records d) → records_ok (rd_records (exec_record o d)).
Proof.
  intros Hok. destruct (head_target o) as [g|] eqn:Hg.
  { eapply head_effect_records; [|done]. by apply exec_head_effect. }
  destruct o; try done.
  - by rewrite exec_other.
  - simpl. unfold findOrCreateChangeRecord. destruct (_ && _); [done|]. destruct (changeRecordId _ _) as [cid|]; [|done].
    unfold transaction. destruct (find_or_create_tx c i cid d) as [e|[[id r] d']] eqn:E; [done|].
    apply find_or_create_inr in E. by eapply find_or_create_records.
Qed.

(** ** The timeline *)

Lemma accounts_transaction {A} (m : record_tx A) d :
  keeps (accounts no_keys) m → accounts no_keys d (transaction m d).2.
Proof. by apply keeps_transaction, _. Qed.

Lemma other_stage_tells K (inputs : list EventInput) :
  Forall (λ i, ei_stage i ≠ "external_pr") inputs → Forall (tells K) inputs.
Proof. intros H. eapply Forall_impl; [exact H|]. intros i. apply tells_other_stage. Qed.

Lemma review_boot_accounts K c g j sha ref d :
  accounts K d (enqueueCurrentReviewJobPreviewBoot sha1 c g j sha ref d).2.
Proof.
  unfold enqueueCurrentReviewJobPreviewBoot. destruct (_ && _); [|by apply accounts_same].
  apply keeps_transaction; [apply _|]. unfold require_current. keeps.
  - apply runs_accounts. intros d1. by destruct (insert_new _ _ _).
  - apply tear_down_accounts.
Qed.

Lemma exec_accounts o d : in_place o → own_stage o → accounts no_keys d (exec_record o d).
Proof.
  intros Hi Ho. destruct o; simpl in *; try done; try (by apply accounts_same).
  - unfold attachConfirmedAcceptanceRecordToExternalPullRequest. destruct (_ && _); [|done].
    apply accounts_transaction, attach_accounts.
  - unfold advanceConfirmedAcceptanceRecordPullRequestHead. destruct (valid_advance _); [|done].
    apply accounts_transaction, advance_accounts.
  - unfold invalidateConfirmedAcceptanceRecordPullRequestHeadForTerminalEvent. destruct (valid_terminal _); [|done].
    apply accounts_transaction, terminal_accounts.
  - unfold reconcileConfirmedAcceptanceRecordPullRequestHead. destruct (valid_reconcile _); [|done].
    apply accounts_transaction, reconcile_accounts.
  - unfold appendCurrentReviewJobEventsAtomically. destruct (_ && _); [|done].
    apply accounts_transaction. unfold require_current. keeps.
    apply append_many_accounts, other_stage_tells, Forall_fmap. eapply Forall_impl; [exact Ho|done].
  - apply review_boot_accounts.
  - unfold appendChangeRecordEventsAtomically. destruct (well_formed_batch _); [|done].
    apply accounts_transaction, append_many_accounts. by apply other_stage_tells.
Qed.

Lemma exec_grows o d : in_place o → timeline_grows d (exec_record o d).
Proof.
  intros Hi. destruct o; try (by apply exec_accounts); simpl.
  - unfold appendCurrentReviewJobEventsAtomically. destruct (_ && _); [|done].
    apply keeps_transaction; [apply _|]. unfold require_current. keeps. apply append_many_grows.
  - unfold appendChangeRecordEventsAtomically. destruct (well_formed_batch _); [|done].
    apply keeps_transaction; [apply _|]. apply append_many_grows.
Qed.

(** A property of every state reached by the allowed steps. *)
Lemma exec_records_ind (allowed : record_op → Prop) (P : RecordDb → Prop) os d :
  (∀ o d, allowed o → P d → P (exec_record o d)) → Forall allowed os → P d → P (exec_records os d).
Proof. intros HP Hos. revert d. induction Hos as [|o os Ho Hos IH]; intros d Hd; simpl; [done|]. by apply IH, HP. Qed.

Lemma exec_records_app os1 os2 d : exec_records (os1 ++ os2) d = exec_records os2 (exec_records os1 d).
Proof. apply foldl_app. Qed.

Lemma exec_records_grow os d : Forall in_place os → timeline_grows d (exec_records os d).
Proof.
  intros Hos. apply (exec_records_ind in_place (timeline_grows d)); [|done..].
  intros o d1 Ho H. etrans; [exact H|]. by apply exec_grows.
Qed.

Lemma find_unique o d : unique_keys (rd_events d) → unique_keys (rd_events (exec_record o d)).
Proof.
  intros Hu. destruct o as [| | | | | | | | | | |c i]; try (by apply exec_grows). simpl.
  unfold findOrCreateChangeRecord. destruct (_ && _); [done|]. destruct (changeRecordId _ _) as [cid|]; [|done].
  unfold transaction. destruct (find_or_create_tx c i cid d) as [e|[[id r] d']] eqn:E; [done|]. simpl.
  apply find_or_create_inr in E. destruct E as [iid r0 pid p d1 _ _ Hne _ He|id0 r0 _ _|_ _ _]; [|done..].
  rewrite He. by apply merged_unique.
Qed.

(** C25 (type).  The constraints of [change_records] are an invariant of the
    program, not only of the database that would refuse a violation: after any
    sequence of creations, merges, attachments, deliveries, reconciliations,
    reviews and appended events, every record with a head has a full commit hash
    that is among its head hashes and a review cycle, a record without one has no
    authority, no generation is negative, an issue, a pull request and a work key
    of a repository have one record each, and an event key of a record one
    event. *)
Theorem records_well_typed os d :
  records_ok (rd_records d) → unique_keys (rd_events d) →
  records_ok (rd_records (exec_records os d)) ∧ unique_keys (rd_events (exec_records os d)).
Proof.
  intros Hr He. apply (exec_records_ind (λ _, True) (λ d, records_ok (rd_records d) ∧ unique_keys (rd_events d)));
    [|by apply Forall_true|done]. intros o d1 _ [H1 H2]. split; [by apply exec_records_ok|by apply find_unique].
Qed.

(** ** One delivery *)

Lemma append_taken c i d x d' :
  append_single sha1 c i d = inr (x, d') → is_Some (find_event (ei_recordId i) (ei_eventKey i) (rd_events d)) →
  ar_inserted x = false ∧ d' = d.
Proof.
  intros H%append_single_inr%append_one_inr [y Hy].
  destruct H as (_ & _ & [(Hi & -> & _)|(_ & _ & _ & _ & _ & Hf & _)]); [done|congruence].
Qed.

Lemma advance_received c i d :
  received (av_target i) (av_deliveryId i) d → (advanceConfirmedAcceptanceRecordPullRequestHead sha1 c i d).2 = d.
Proof.
  intros Hrec. unfold advanceConfirmedAcceptanceRecordPullRequestHead. destruct (valid_advance i); [|done].
  unfold transaction. destruct (advance_tx sha1 c i d) as [e|[x d']] eqn:H; [done|]. simpl.
  unfold advance_tx in H. apply bind_inr in H as (f & d1 & [-> ->]%reads_inr & H).
  destruct (load _ d) as [| |r v e]; [by apply ret_inr in H as [_ <-]..|].
  destruct e; [by apply ret_inr in H as [_ <-]|].
  apply bind_inr in H as (y & d1 & H1 & H). apply append_taken in H1 as [Hi ->]; [|done]. rewrite Hi in H. simpl in H.
  apply bind_inr in H as (held & d2 & [_ ->]%reads_inr & H). by apply ret_inr in H as [_ <-].
Qed.
Lemma terminal_received c i d :
  received (ti_target i) (ti_deliveryId i) d →
  (invalidateConfirmedAcceptanceRecordPullRequestHeadForTerminalEvent sha1 c i d).2 = d.
Proof.
  intros Hrec. unfold invalidateConfirmedAcceptanceRecordPullRequestHeadForTerminalEvent.
  destruct (valid_terminal i); [|done].
  unfold transaction. destruct (invalidate_tx sha1 c i d) as [e|[x d']] eqn:H; [done|]. simpl.
  unfold invalidate_tx in H. apply bind_inr in H as (f & d1 & [-> ->]%reads_inr & H).
  destruct (load _ d) as [| |r v e]; [by apply ret_inr in H as [_ <-]..|].
  destruct (negb _); [by apply ret_inr in H as [_ <-]|].
  apply bind_inr in H as (y & d1 & H1 & H). apply append_taken in H1 as [Hi ->]; [|done]. rewrite Hi in H.
  by apply ret_inr in H as [_ <-].
Qed.


(** A signed delivery: of a head, or of the closing of a pull request. *)
Inductive Delivery := head_delivery (i : AdvanceInput) | closing_delivery (i : TerminalInput).
Definition delivered_for (x : Delivery) : Target * string :=
  match x with
  | head_delivery i => (av_target i, av_deliveryId i)
  | closing_delivery i => (ti_target i, ti_deliveryId i)
  end.
Definition deliver c (x : Delivery) d : RecordDb :=
  match x with
  | head_delivery i => (advanceConfirmedAcceptanceRecordPullRequestHead sha1 c i d).2
  | closing_delivery i => (invalidateConfirmedAcceptanceRecordPullRequestHeadForTerminalEvent sha1 c i d).2
  end.
(** The answer says that the delivery was dealt with, now or before. *)
Definition delivery_dealt_with c (x : Delivery) d : Prop :=
  match x with
  | head_delivery i =>
      match (advanceConfirmedAcceptanceRecordPullRequestHead sha1 c i d).1 with inr y => dealt_with y | inl _ => False end
  | closing_delivery i =>
      match (invalidateConfirmedAcceptanceRecordPullRequestHeadForTerminalEvent sha1 c i d).1 with
      | inr y => closed_with y
      | inl _ => False
      end
  end.

Lemma delivery_received c x d : unique_keys (rd_events d) → delivery_dealt_with c x d →
  received (delivered_for x).1 (delivered_for x).2 (deliver c x d) ∧ unique_keys (rd_events (deliver c x d)).
Proof.
  intros Hu H. destruct x as [i|i]; cbn [delivery_dealt_with deliver delivered_for fst snd] in *.
  - unfold advanceConfirmedAcceptanceRecordPullRequestHead, transaction in *. destruct (valid_advance i); [|done].
    destruct (advance_tx sha1 c i d) as [e|[y d']] eqn:E; [done|]. apply advance_tx_accounts in E as [[[_ Hg] _] Hr].
    cbn in *. auto.
  - unfold invalidateConfirmedAcceptanceRecordPullRequestHeadForTerminalEvent, transaction in *.
    destruct (valid_terminal i); [|done].
    destruct (invalidate_tx sha1 c i d) as [e|[y d']] eqn:E; [done|]. apply terminal_tx_accounts in E as [[[_ Hg] _] Hr].
    cbn in *. auto.
Qed.
Lemma received_delivery c x d : received (delivered_for x).1 (delivered_for x).2 d → deliver c x d = d.
Proof. destruct x as [i|i]; [apply advance_received|apply terminal_received]. Qed.

(** C24 (safety).  A signed delivery acts at most once.  Once a delivery, of a head
    or of a closing, has been dealt with - a head applied, held as stale or
    recognised as a replay, a closing received - then after anything else that
    happens in place, a delivery with the same id for the same pull request
    leaves the whole database as it is: whatever head it names now, and whether
    it is of a head or of a closing. *)
Theorem delivery_acts_once c x d os c' x' :
  unique_keys (rd_events d) → delivery_dealt_with c x d → Forall in_place os →
  delivered_for x' = delivered_for x →
  let d2 := exec_records os (deliver c x d) in deliver c' x' d2 = d2.
Proof.
  intros Hu Hx Hos Hsame d2. destruct (delivery_received c x d Hu Hx) as [[y Hy] Hu1].
  destruct (exec_records_grow os (deliver c x d) Hos) as [Hs Hu2]. apply received_delivery. rewrite Hsame.
  exists y. eapply find_event_mono; [by apply Hu2|exact Hs|exact Hy].
Qed.
End History.

(** ** On concrete data *)

Lemma confirmed_records_ok : records_ok (rd_records confirmed_db).
Proof.
  assert (Hl : ∀ id r, rd_records confirmed_db !! id = Some r → id = "r1" ∧ r = app_issue (Some 5) None None "open").
  { intros id r H. unfold confirmed_db in H. cbn [rd_records] in H. apply lookup_singleton_Some in H as [<- <-]. done. }
  split_and!; [intros id r [_ ->]%Hl; done|..];
    intros id1 id2 r1 r2 [-> ->]%Hl [-> ->]%Hl _ _ _; reflexivity.
Qed.
Lemma confirmed_unique_keys : unique_keys (rd_events confirmed_db).
Proof. exact unique_keys_empty. Qed.

Definition pr_history : list record_op :=
  [op_advance (tick 10) opened; op_claim 15 "w1" 5; op_advance (tick 20) jumped;
   op_reconcile (tick 30) (reconciliation blocked_db "open");
   op_find (tick 35) (mkFindOrCreateInput (mkAnchor "ws" "acme/app" None (Some 5) (Some 7)) [sha_b] None None);
   op_append (tick 40) [event_a]].

Lemma records_well_typed_witness :
  records_ok (rd_records (exec_records sum_sha1 pr_history confirmed_db))
  ∧ unique_keys (rd_events (exec_records sum_sha1 pr_history confirmed_db)).
Proof.
  exact (records_well_typed sum_sha1 pr_history confirmed_db confirmed_records_ok confirmed_unique_keys).
Defined.

Definition closing (sha id : string) : TerminalInput := mkTerminalInput pull_7 sha "closed" id "github_webhook".

(** A head, then a closing of the same id; and a closing, then its redelivery. *)
Lemma delivery_acts_once_witness :
  let head := head_delivery opened in
  let closed := closing_delivery (closing sha_b "d-9") in
  let d1 := deliver sum_sha1 (tick 10) head confirmed_db in
  let d2 := exec_records sum_sha1 [op_advance (tick 20) jumped] d1 in
  let d3 := deliver sum_sha1 (tick 30) closed d1 in
  deliver sum_sha1 (tick 90) (head_delivery (delivery sha_c "reopened" "d-1" None)) d2 = d2
  ∧ deliver sum_sha1 (tick 90) (closing_delivery (closing sha_b "d-1")) d2 = d2
  ∧ deliver sum_sha1 (tick 90) closed d3 = d3.
Proof.
  cbn zeta. set (d1 := deliver sum_sha1 (tick 10) (head_delivery opened) confirmed_db).
  assert (Hx : delivery_dealt_with sum_sha1 (tick 10) (head_delivery opened) confirmed_db) by (vm_compute; exact I).
  assert (Hu : unique_keys (rd_events d1))
    by exact (proj2 (delivery_received sum_sha1 (tick 10) (head_delivery opened) confirmed_db confirmed_unique_keys Hx)).
  assert (Hx1 : delivery_dealt_with sum_sha1 (tick 30) (closing_delivery (closing sha_b "d-9")) d1) by (vm_compute; exact I).
  split; [|split].
  - exact (delivery_acts_once sum_sha1 (tick 10) (head_delivery opened) confirmed_db [op_advance (tick 20) jumped] (tick 90)
      (head_delivery (delivery sha_c "reopened" "d-1" None)) confirmed_unique_keys Hx ltac:(repeat constructor) eq_refl).
  - exact (delivery_acts_once sum_sha1 (tick 10) (head_delivery opened) confirmed_db [op_advance (tick 20) jumped] (tick 90)
      (closing_delivery (closing sha_b "d-1")) confirmed_unique_keys Hx ltac:(repeat constructor) eq_refl).
  - exact (delivery_acts_once sum_sha1 (tick 30) (closing_delivery (closing sha_b "d-9")) d1 [] (tick 90)
      (closing_delivery (closing sha_b "d-9")) Hu Hx1 ltac:(constructor) eq_refl).
Defined.
