(* ===== verification/PrAuthority.v ===== *)
(** * PrAuthority: one head, and only its work

    Over any sequence of the operations: a head never changes without a higher
    authority generation, so a reconciliation is a compare-and-swap; and the
    review jobs and preview boots under way are those of the current head. *)

From S2P Require Import Prelude Table Regex Intake ReviewJobs PreviewBoots Tx.
From S2P Require Import RecordSchema JsonText Timeline ChangeRecords PrHead PrDeliveries PrHeadFacts PrHistory.
Open Scope Z_scope.

Section Authority.
Context (sha1 : list Z → list Z).
Implicit Types (t : records) (r : ChangeRecord) (d : RecordDb) (g : Target).

(** A record with a head has a pull request. *)
Definition headed t : Prop := map_Forall (λ _ r, is_Some (cr_head_sha r) → is_Some (cr_pr_number r)) t.

(** What the operations rely on between transactions. *)
Record authority_inv d : Prop := {
  ai_records : records_ok (rd_records d);
  ai_headed : headed (rd_records d);
  ai_keys : unique_keys (rd_events d);
  ai_accounted : accounted d;
}.
Definition allowed (o : record_op) : Prop := in_place o ∧ own_stage o.

Lemma head_effect_headed g d d' : head_effect sha1 g d d' → headed (rd_records d) → headed (rd_records d').
Proof.
  intros He Hh. assert (Hrow : ∀ r, target_record g (rd_records d) = Some r → is_Some (cr_head_sha r) → is_Some (cr_pr_number r)).
  { intros r [Hr _]%target_recordP. by apply (Hh (tg_recordId g)). }
  destruct He as [(-> & _)|r shas now Hr _ _ _ -> _ _|c r reason Hr _ -> _ _
    |c r sha cycle step adm event reason Hr _ _ _ _ _ -> _ _
    |c r r' sha cycle adm event sup Hr _ Hsha _ _ _ _ Hr' -> _ _
    |c cycle sha ref reason _ _ id t' -> _ _ _]; try done; apply map_Forall_insert_2; try done.
  - exact (Hrow r Hr).
  - destruct Hr' as [->|(_ & step & _ & ->)]; [exact (Hrow r Hr)|by intros _; eexists].
Qed.

Lemma headed_pr g t r :
  headed t → target_record g t = Some r → unshared g r t → is_Some (cr_head_sha r) →
  cr_pr_number r = Some (tg_prNumber g).
Proof.
  intros Hh [Hr _]%target_recordP Hu Hs. destruct (Hh (tg_recordId g) r Hr Hs) as [m Hm].
  destruct Hu as [Hu|Hu]; [|done]. unfold attached_elsewhere in Hu. rewrite Hm in *.
  apply orb_false_iff in Hu as [Hu _]. apply negb_false_iff in Hu. bools. by subst.
Qed.

Lemma exec_authority_inv o d : allowed o → authority_inv d → authority_inv (exec_record sha1 o d).
Proof.
  intros [Hi Ho] [Hr Hh Hu Ha]. destruct (exec_accounts sha1 o d Hi Ho) as [[_ Hk] Hacc]. split.
  - by apply exec_records_ok.
  - destruct (head_target o) as [g|] eqn:Hg.
    + eapply head_effect_headed; [by apply exec_head_effect|done].
    + by rewrite exec_other.
  - auto.
  - apply Hacc; [done|by intros ? []|done].
Qed.
Lemma exec_records_inv os d : Forall allowed os → authority_inv d → authority_inv (exec_records sha1 os d).
Proof. apply exec_records_ind. intros. by apply exec_authority_inv. Qed.

(** ** The generation *)

Definition head_of r : option string * option string * bool := (cr_head_sha r, cr_cycle_id r, cr_authoritative r).
(** What a record may become. *)
Definition moved r r' : Prop :=
  head_of r' = head_of r ∧ cr_generation r' = cr_generation r ∨ cr_generation r < cr_generation r'.
#[export] Instance moved_preorder : PreOrder moved.
Proof.
  split; [by left|]. intros r1 r2 r3 [[H1 G1]|G1] [[H2 G2]|G2]; unfold moved; [left; split; congruence|right; lia..].
Qed.

Lemma exec_moved o d : in_place o → authority_inv d → rows moved (rd_records d) (rd_records (exec_record sha1 o d)).
Proof.
  intros Hi Hinv. destruct (head_target o) as [g|] eqn:Hg; [|by rewrite exec_other].
  assert (He := exec_head_effect sha1 o g d Hg). destruct Hinv as [_ Hh _ Ha].
  destruct He as [(-> & _)|r shas now Hr _ _ _ -> _ _|c r reason Hr _ -> _ _
    |c r sha cycle step adm event reason Hr _ _ _ Hstep _ -> _ _
    |c r r' sha cycle adm event sup Hr _ Hsha Hcy Hau _ _ Hr' -> _ _
    |c cycle sha ref reason _ _ id t' -> _ _ _]; try done;
    apply target_recordP in Hr as [Hr _]; (eapply rows_insert; [apply _|exact Hr|]).
  - by left.
  - right. simpl. lia.
  - right. simpl. rewrite (Hstep Ha). lia.
  - destruct Hr' as [->|(Hn & _)]; [done|].
    destruct (Hh _ _ Hr) as [n Hpr]; [by eexists|congruence].
Qed.
Lemma exec_records_moved os d :
  Forall allowed os → authority_inv d → rows moved (rd_records d) (rd_records (exec_records sha1 os d)).
Proof.
  intros Hos Hinv.
  apply (exec_records_ind sha1 allowed (λ d', authority_inv d' ∧ rows moved (rd_records d) (rd_records d')));
    [|done..]. intros o d1 Ho [H1 H2]. split; [by apply exec_authority_inv|].
  etrans; [exact H2|]. by apply exec_moved; [apply Ho|].
Qed.

(** A reconciliation writes only over the head its caller saw blocked. *)
Lemma reconcile_needs c i d r :
  rd_records d !! tg_recordId (rn_target i) = Some r → blocked_as_expected i (rn_blockedGeneration i) r = false →
  (reconcileConfirmedAcceptanceRecordPullRequestHead sha1 c i d).2 = d.
Proof.
  intros Hr Hb. unfold reconcileConfirmedAcceptanceRecordPullRequestHead. destruct (valid_reconcile i); [|done].
  unfold transaction. destruct (reconcile_tx sha1 c i d) as [e|[x d']] eqn:H; [done|]. simpl.
  unfold reconcile_tx in H. apply bind_inr in H as (f & d1 & [Hf ->]%reads_inr & H).
  destruct f as [| |r0 v e]; [by apply ret_inr in H as [_ <-]..|].
  symmetry in Hf. apply load_inv in Hf as ([Hr0 _]%target_recordP & _). simplify_eq.
  destruct (negb (bool_decide (cr_pr_number r = _))); [by apply ret_inr in H as [_ <-]|].
  apply bind_inr in H as (existing & d1 & [_ ->]%reads_inr & H).
  apply bind_inr in H as (job & d1 & [_ ->]%reads_inr & H).
  destruct (still_open i && restored _ _ r); [by apply ret_inr in H as [_ <-]|].
  destruct (negb (still_open i) && _ && _); [by apply ret_inr in H as [_ <-]|].
  rewrite Hb in H. by apply ret_inr in H as [_ <-].
Qed.

(** Reconciling a blocked head is a compare-and-swap without
    the ABA problem.  A caller reads a record and asks GitHub about its pull
    request; if at any moment between the read and the write the record's head,
    its cycle or its authority was different - even if it has come back to what
    the caller saw - the reconciliation changes nothing at all. *)
Theorem reconcile_compare_and_swap os1 os2 c i d r r1 :
  authority_inv d → Forall allowed os1 → Forall allowed os2 →
  rd_records d !! tg_recordId (rn_target i) = Some r → cr_generation r = rn_blockedGeneration i →
  let d1 := exec_records sha1 os1 d in
  rd_records d1 !! tg_recordId (rn_target i) = Some r1 → head_of r1 ≠ head_of r →
  let d2 := exec_records sha1 os2 d1 in
  (reconcileConfirmedAcceptanceRecordPullRequestHead sha1 c i d2).2 = d2.
Proof.
  intros Hinv Ho1 Ho2 Hr Hg d1 Hr1 Hne d2.
  assert (M1 := exec_records_moved os1 d Ho1 Hinv). assert (Hinv1 := exec_records_inv os1 d Ho1 Hinv).
  assert (M2 := exec_records_moved os2 d1 Ho2 Hinv1).
  destruct (M1 _ _ Hr) as (r1' & Hr1' & Hm1). fold d1 in Hr1'. assert (r1' = r1) as -> by congruence.
  destruct Hm1 as [[Hh _]|G1]; [done|].
  destruct (M2 _ _ Hr1) as (r2 & Hr2 & Hm2).
  apply (reconcile_needs c i d2 r2 Hr2). unfold blocked_as_expected.
  rewrite (bool_decide_eq_false_2 (cr_generation r2 = _)); [by rewrite andb_false_r|].
  destruct Hm2 as [[_ ?]|?]; lia.
Qed.

(** ** The work under way *)

(** Review jobs and preview boots alike: rows of a pull request, some of them
    under way, each for a head. *)
Section Work.
Context {A : Type} (busy : A → bool) (pull : A → string * string * Z) (sha : A → string)
  (fits : ChangeRecord → string → string → Prop).
Notation under_way := (λ x, busy x = true).
Notation face := (λ x, (pull x, sha x)).

(** What is under way for the pull request of a record with a head is of that
    head, which has authority. *)
Definition current t (rows : gmap string A) : Prop :=
  ∀ k r id x, t !! k = Some r → is_Some (cr_head_sha r) → rows !! id = Some x → busy x = true →
    (cr_workspace_id r, cr_repo r, cr_pr_number r) = ((pull x).1.1, (pull x).1.2, Some (pull x).2) →
    cr_authoritative r = true ∧ fits r id (sha x).

Lemma current_no_start t rows rows' :
  no_start under_way face rows rows' → current t rows → current t rows'.
Proof.
  intros Hn Hc k r id x Hr Hh Hx Hb Hp. destruct (Hn id x Hx Hb) as (x0 & Hx0 & Hb0 & [= Hpull Hsha]).
  rewrite <- Hsha. eapply Hc; [done..|]. by rewrite Hpull.
Qed.

Definition of_target g (x : A) : Prop := pull x = (tg_workspaceId g, tg_repo g, tg_prNumber g).

(** The target's is the only record with its pull request. *)
Lemma target_unique g t r k r2 :
  records_ok t → target_record g t = Some r → unshared g r t → t !! k = Some r2 →
  cr_workspace_id r2 = tg_workspaceId g → cr_repo r2 = tg_repo g → cr_pr_number r2 = Some (tg_prNumber g) →
  k = tg_recordId g.
Proof.
  intros (_ & _ & Up & _) [Hr [W R]]%target_recordP Hu H2 W2 R2 P2. unfold unshared, attached_elsewhere in Hu.
  assert (Hp : cr_pr_number r = Some (tg_prNumber g) → k = tg_recordId g).
  { intros Hp. eapply Up; [exact H2|exact Hr|by eexists|by eexists|congruence]. }
  destruct Hu as [Hu|Hu]; [|by apply Hp]. apply orb_false_iff in Hu as [_ Hu].
  assert (Hf : target_pr g t = Some (k, r2)).
  { eapply (find_record_unique cr_pr_number _ (tg_workspaceId g, tg_repo g, tg_prNumber g)); [exact Up| |exact H2|].
    - intros id x. apply has_prP.
    - by apply has_prP. }
  rewrite Hf in Hu. apply negb_false_iff in Hu. by bools.
Qed.

Lemma current_step g t r r' rows rows' :
  records_ok t → target_record g t = Some r → unshared g r t →
  cr_workspace_id r' = cr_workspace_id r → cr_repo r' = cr_repo r →
  (is_Some (cr_head_sha r') → cr_pr_number r' = Some (tg_prNumber g)) →
  (∀ id x, rows' !! id = Some x → busy x = true → of_target g x → is_Some (cr_head_sha r') →
     cr_authoritative r' = true ∧ fits r' id (sha x)) →
  (∀ id x, rows' !! id = Some x → busy x = true → ¬ of_target g x → rows !! id = Some x) →
  current t rows → current (<[tg_recordId g := r']> t) rows'.
Proof.
  intros Hok Hg Hu W R Hp Hin Hout Hc k r2 id x Hr2 Hh Hx Hb [= E1 E2 E3].
  apply target_recordP in Hg as Hrow. destruct Hrow as (Hr & Wr & Rr).
  apply lookup_insert_Some in Hr2 as [[<- <-]|[Hne Hr2]].
  - apply (Hin id x); [done..| |done]. specialize (Hp Hh). unfold of_target.
    destruct (pull x) as [[ws repo] n]; simpl in *. congruence.
  - eapply (Hc k r2 id x); [done..| |done|congruence]. apply Hout; [done..|].
    unfold of_target. intros Ht. rewrite Ht in E1, E2, E3. simpl in *. destruct Hne. symmetry.
    by eapply (target_unique g t r k r2).
Qed.
End Work.

(** ** Review jobs *)

Definition job_pull (j : ReviewJob) : string * string * Z := (rj_workspace_id j, rj_repo j, rj_pr_number j).
Definition jobs_current t (js : jobs) : Prop :=
  current active_job job_pull rj_head_sha (λ r id _, cr_cycle_id r = Some id) t js.
Notation no_new_job := (no_start (λ j, active_job j = true) (λ j, (job_pull j, rj_head_sha j))).

Lemma pr_jobP g j : pr_job g j = true ↔ of_target job_pull g j.
Proof.
  unfold pr_job, of_target, job_pull. rewrite !andb_true_iff, !bool_decide_eq_true. split; [by intros [[-> ->] ->]|].
  intros H. injection H as -> -> ->. done.
Qed.

Lemma superseded_active c g but (t : jobs) id j :
  superseded_jobs c g but t !! id = Some j → active_job j = true →
  t !! id = Some j ∧ (of_target job_pull g j → Some id = but).
Proof.
  unfold superseded_jobs. rewrite lookup_update_where. intros (j0 & Hj & ->)%fmap_Some.
  destruct (pr_job g j0 && active_job j0 && _) eqn:E; [done|]. intros Ha. split; [done|].
  rewrite <- pr_jobP. intros Hp. rewrite Hp, Ha in E. simpl in E. apply bool_decide_eq_false in E.
  by apply dec_stable.
Qed.
Lemma admitted_found c g adm id0 sha event (t : jobs) id j :
  0 < tg_prNumber g → admitted_job c g adm id0 sha event t !! id = Some j →
  t !! id = Some j ∨ id = id0 ∧ of_target job_pull g j.
Proof.
  intros Hpos. unfold admitted_job, insert_new. destruct adm; [|by left].
  destruct (t !! id0) eqn:E; simpl; [by left|].
  intros [[<- <-]|[_ H]]%lookup_insert_Some; [right; split; [done|]|by left].
  unfold of_target, job_pull. simpl. by rewrite Z2N.id by lia.
Qed.

Lemma head_effect_jobs g d d' :
  head_effect sha1 g d d' → records_ok (rd_records d) → headed (rd_records d) →
  jobs_current (rd_records d) (rd_jobs d) → jobs_current (rd_records d') (rd_jobs d').
Proof.
  intros He Hok Hh Hc.
  destruct He as [(E1 & _ & _ & E2 & _)|r shas now Hr Hn Hu _ Er Ej _|c r reason Hr Hu Er Ej _
    |c r sha cycle step adm event reason Hr Hu _ _ _ Hpos Er Ej _
    |c r r' sha cycle adm event sup Hr Hu Hsha Hcy Ha _ Hpos Hr' Er Ej _
    |c cycle sha ref reason _ _ id t' E1 E2 _ _]; unfold jobs_current in *.
  - by rewrite E1, E2.
  - rewrite Er, Ej. apply (current_step _ _ _ _ g _ r _ (rd_jobs d)); try done. simpl. intros id j Hj Hb Hp [sha Hsha].
    rewrite (headed_pr g _ r Hh Hr Hu) in Hn; [done|by eexists].
  - assert (Hnone : ∀ id j, rd_jobs d' !! id = Some j → active_job j = true → of_target job_pull g j → False).
    { rewrite Ej. intros id j Hj Hb Hp. apply superseded_active in Hj as [_ Hj]; [|done]. by discriminate (Hj Hp). }
    rewrite Er. apply (current_step _ _ _ _ g _ r _ (rd_jobs d)); try done; simpl.
    + by apply (headed_pr g (rd_records d)).
    + intros id j Hj Hb Hp. by destruct (Hnone id j).
    + rewrite Ej. intros id j Hj Hb _. by apply superseded_active in Hj as [Hj _].
  - rewrite Er, Ej. apply (current_step _ _ _ _ g _ r _ (rd_jobs d)); try done; simpl.
    + intros id j Hj Hb Hp _. apply superseded_active in Hj as [_ Hj]; [|done]. by rewrite (Hj Hp).
    + intros id j Hj Hb Hp. apply superseded_active in Hj as [Hj _]; [|done].
      apply admitted_found in Hj as [Hj|[_ Hj]]; done.
  - assert (Hpr : cr_pr_number r = Some (tg_prNumber g)) by (apply (headed_pr g (rd_records d)); [done..|by eexists]).
    destruct Hr' as [->|(Hn & _)]; [|congruence].
    set (js := admitted_job c g adm cycle sha event (rd_jobs d)) in *.
    assert (Hin : ∀ id j, rd_jobs d' !! id = Some j → active_job j = true → js !! id = Some j).
    { rewrite Ej. intros id j Hj Hb. destruct sup; [|done]. by apply superseded_active in Hj as [Hj _]. }
    rewrite Er. apply (current_step _ _ _ _ g _ r _ (rd_jobs d)); try done; simpl; intros id j Hj Hb Hp;
      (apply Hin in Hj; [|done]); apply admitted_found in Hj as [Hj|[-> Hj]]; try done.
    intros _. apply target_recordP in Hr as (Hr & W & R). unfold of_target in Hp.
    apply (Hc (tg_recordId g) r id j); try done. rewrite Hp. simpl. congruence.
  - by rewrite E1, E2.
Qed.
(** What the review workers do starts no job. *)
Lemma skip_no_job now k (t : jobs) : no_new_job t (update_row k (λ _, true) (skip_job now) t).2.
Proof. apply no_start_update_row. by intros. Qed.
Lemma claim_next_no_job q now (t : jobs) : no_new_job t (claim_next q now t).2.
Proof.
  destruct (claim_nextP q now t) as [k j Hk Hp _|_]; simpl; [|done].
  eapply no_start_insert_known; [exact Hk|]. simpl in Hp. bools. intros _. split; [|done].
  apply bool_decide_eq_true_2. rename select (rj_state j = _) into Hs. rewrite Hs. set_solver.
Qed.
Lemma claim_eligible_no_job fuel now q budget (t : jobs) res (t' : jobs) :
  claimEligibleReviewJob fuel now q budget t = Some (res, t') → no_new_job t t'.
Proof.
  revert t. induction fuel as [|fuel IH]; intros t; simpl; [done|].
  assert (H := claim_next_no_job q now t). destruct (claim_next q now t) as [[[id row]|] t1]; simpl in H.
  - destruct (budget <? _); [|by intros [= _ <-]]. intros Ht. etrans; [exact H|].
    etrans; [|by eapply IH]. apply skip_no_job.
  - by intros [= _ <-].
Qed.
Lemma running_active (j : ReviewJob) : is_running j = true → active_job j = true.
Proof. unfold is_running, active_job. intros H. bools. apply bool_decide_eq_true_2. rewrite H. set_solver. Qed.
Lemma review_step_no_job o t (js : jobs) ro : review_step o t = Some ro → no_new_job js (exec_review sha1 ro js).
Proof.
  destruct o; try done; intros [= <-]; simpl.
  - unfold claimReviewJob. destruct (claimEligibleReviewJob _ _ _ _ _) as [[res js']|] eqn:E; [|done].
    apply claim_eligible_no_job in E. etrans; [|exact E].
    unfold failStaleQueuedReviewJobs, requeueStaleRunningReviewJobs.
    etrans; apply no_start_update_where; intros k j H Hb; [|discriminate Hb].
    apply andb_true_iff in H as [H _]. by apply running_active in H.
  - destruct o; simpl; apply no_start_update_row; intros j Hj%running_active; [done|].
    unfold failed_row. by destruct (_ <? _).
  - apply no_start_update_row. by intros j Hj%running_active.
Qed.

(** ** Preview boots *)

Definition boot_pull (b : PreviewBoot) : string * string * Z := (pb_workspace_id b, pb_repo b, pb_pr_number b).
Definition boots_current t (bs : boots) : Prop :=
  current in_flight boot_pull pb_head_sha (λ r _ sha, cr_head_sha r = Some sha) t bs.
(** Boots that are asked for on the cycle of a record's head: the route for
    boots on demand does not look at the record. *)
Definition on_cycle (o : record_op) : Prop := match o with op_boots (bo_enqueue _ _) => False | _ => True end.

Lemma pr_bootP g b : pr_boot g b = true ↔ of_target boot_pull g b.
Proof.
  unfold pr_boot, of_target, boot_pull. rewrite !andb_true_iff, !bool_decide_eq_true.
  split; [by intros [[-> ->] ->]|]. intros H. injection H as -> -> ->. done.
Qed.
Lemma torn_active c g but reason (t : boots) id b :
  torn_boots c g but reason t !! id = Some b → in_flight b = true →
  t !! id = Some b ∧ (of_target boot_pull g b → Some id = but).
Proof.
  unfold torn_boots. rewrite lookup_update_where. intros (b0 & Hb & ->)%fmap_Some.
  destruct (pr_boot g b0 && in_flight b0 && _) eqn:E; [done|]. intros Ha. split; [done|].
  rewrite <- pr_bootP. intros Hp. rewrite Hp, Ha in E. simpl in E. apply bool_decide_eq_false in E.
  by apply dec_stable.
Qed.

Lemma owns_headP g cycle sha d :
  owns_head g cycle sha d = true → ∃ r, target_record g (rd_records d) = Some r
    ∧ cr_pr_number r = Some (tg_prNumber g) ∧ cr_authoritative r = true ∧ cr_head_sha r = Some sha.
Proof. unfold owns_head. destruct (target_record _ _) as [r|]; [|done]. intros H. bools. by exists r. Qed.

(** Tearing down the target's boots, all but those of its head. *)
Lemma torn_step c g t r r' but reason (bs bs' : boots) :
  records_ok t → headed t → target_record g t = Some r → unshared g r t →
  cr_workspace_id r' = cr_workspace_id r → cr_repo r' = cr_repo r →
  (is_Some (cr_head_sha r') → cr_pr_number r' = Some (tg_prNumber g)) →
  (∀ id b, bs' !! id = Some b → of_target boot_pull g b → Some id = but →
     cr_authoritative r' = true ∧ cr_head_sha r' = Some (pb_head_sha b)) →
  (∀ id b, bs' !! id = Some b → ¬ of_target boot_pull g b → bs !! id = Some b) →
  boots_current t bs → boots_current (<[tg_recordId g := r']> t) (torn_boots c g but reason bs').
Proof.
  intros Hok Hh Hr Hu W R Hp Hin Hout Hc.
  apply (current_step _ _ _ _ g _ r _ bs); try done.
  - intros id b Hb Hf Ht _. apply torn_active in Hb as [Hb Hbut]; [|done]. apply (Hin id b); auto.
  - intros id b Hb Hf Ht. apply torn_active in Hb as [Hb _]; [|done]. by apply Hout.
Qed.

Lemma head_effect_boots g d d' :
  head_effect sha1 g d d' → records_ok (rd_records d) → headed (rd_records d) →
  boots_current (rd_records d) (rd_boots d) → boots_current (rd_records d') (rd_boots d').
Proof.
  intros He Hok Hh Hc.
  destruct He as [(E1 & _ & _ & _ & E2)|r shas now Hr Hn Hu _ Er _ Eb|c r reason Hr Hu Er _ Eb
    |c r sha cycle step adm event reason Hr Hu _ _ _ Hpos Er _ Eb
    |c r r' sha cycle adm event sup Hr Hu Hsha Hcy Ha _ Hpos Hr' Er _ Eb
    |c cycle sha ref reason Hown Hpos id t' E1 _ Hsame Eb].
  - by rewrite E1, E2.
  - rewrite Er, Eb. apply (current_step _ _ _ _ g _ r _ (rd_boots d)); try done. simpl. intros id b Hb Hf Hp [sha Hsha].
    rewrite (headed_pr g _ r Hh Hr Hu) in Hn; [done|by eexists].
  - rewrite Er, Eb. apply (torn_step _ _ _ r _ _ _ (rd_boots d)); try done.
    simpl. by apply (headed_pr g (rd_records d)).
  - rewrite Er, Eb. by apply (torn_step _ _ _ r _ _ _ (rd_boots d)).
  - assert (Hpr : cr_pr_number r = Some (tg_prNumber g)) by (apply (headed_pr g (rd_records d)); [done..|by eexists]).
    destruct Hr' as [->|(Hn & _)]; [|congruence]. rewrite Er, Eb.
    rewrite insert_id; [done|]. by apply target_recordP in Hr as [Hr _].
  - destruct (owns_headP _ _ _ _ Hown) as (r & Hr & Hpr & Ha & Hsha).
    destruct Hsame as (b0 & Hb0 & Hsame). rewrite E1, Eb.
    rewrite <- (insert_id (rd_records d) (tg_recordId g) r) by by apply target_recordP in Hr as [Hr _].
    apply (torn_step _ _ _ r _ _ _ (rd_boots d)); try done; [by right| |].
    + intros id1 b Hb Ht [= ->]. assert (b = b0) as -> by congruence. split; [done|].
      unfold same_boot in Hsame. bools. congruence.
    + intros id1 b Hb Ht. unfold t', insert_new in Hb. destruct (rd_boots d !! id); [done|]. simpl in Hb.
      apply lookup_insert_Some in Hb as [[<- <-]|[_ Hb]]; [|done]. destruct Ht.
      unfold of_target, boot_pull. simpl. by rewrite Z2N.id by lia.
Qed.
Lemma boot_plane_none o (bs : boots) :
  on_cycle (op_boots o) →
  no_start (λ b, in_flight b = true) (λ b, (boot_pull b, pb_head_sha b)) bs (exec_boot sha1 o bs).2.
Proof.
  intros Ho id b' Hb' Hf. assert (Hl := exec_boot_later sha1 o bs).
  destruct (bs !! id) as [b|] eqn:Hb.
  - destruct (Hl id b Hb) as (b2 & Hb2 & Hreq & _ & _ & Hface & _). assert (b2 = b') as -> by congruence.
    exists b. split; [done|]. injection Hreq as E1 E2 E3 E4 _ _. split.
    + destruct (in_flight b) eqn:Hfb; [done|]. specialize (Hface eq_refl). injection Hface as Est _ _ _ _.
      unfold in_flight in Hf. rewrite Est in Hf. fold (in_flight b) in Hf. congruence.
    + unfold boot_pull. congruence.
  - exfalso. destruct o as [| |now q|now k w o|now k w key]; simpl in Hb'; try done.
    + unfold expireStalePreviewBoots in Hb'. by rewrite !lookup_update_where, Hb in Hb'.
    + unfold claimPreviewBoot in Hb'.
      destruct (claim_nextP q now (expireStalePreviewBoots now bs)) as [k b Hk _ _|_]; simpl in Hb'.
      * apply lookup_insert_Some in Hb' as [[<- _]|[_ Hb']]; [unfold expireStalePreviewBoots in Hk|unfold expireStalePreviewBoots in Hb'];
          by rewrite !lookup_update_where, Hb in *.
      * unfold expireStalePreviewBoots in Hb'. by rewrite !lookup_update_where, Hb in Hb'.
    + unfold reportPreviewBoot in Hb'. by rewrite update_row_none in Hb'.
    + unfold setPreviewBootLogKey in Hb'. by rewrite update_row_none in Hb'.
Qed.

Definition work_current d : Prop :=
  jobs_current (rd_records d) (rd_jobs d) ∧ boots_current (rd_records d) (rd_boots d).

Lemma exec_work_current o d :
  allowed o → on_cycle o → authority_inv d → work_current d → work_current (exec_record sha1 o d).
Proof.
  intros [Hi Ho] Hc [Hok Hh _ _] [Hj Hb]. destruct (head_target o) as [g|] eqn:Hg.
  { assert (He := exec_head_effect sha1 o g d Hg). split.
    - by eapply head_effect_jobs.
    - by eapply head_effect_boots. }
  unfold work_current. destruct o; try done.
  - destruct (append_batch_side sha1 c inputs d) as (E1 & _ & _ & E2 & E3). simpl. by rewrite E1, E2, E3.
  - split; [|done]. simpl. eapply current_no_start; [|exact Hj]. 
    exact (review_step_no_job (op_claim now workerId dailyBudget) (rd_records d) (rd_jobs d) _ eq_refl).
  - split; [|done]. simpl. eapply current_no_start; [|exact Hj]. 
    exact (review_step_no_job (op_complete now jobId o) (rd_records d) (rd_jobs d) _ eq_refl).
  - split; [|done]. simpl. eapply current_no_start; [|exact Hj]. 
    exact (review_step_no_job (op_release now jobId) (rd_records d) (rd_jobs d) _ eq_refl).
  - split; [done|]. simpl. eapply current_no_start; [|exact Hb]. by apply boot_plane_none.
Qed.

(** C23 (invariant).  Only the current head is worked on.  Over any sequence of
    attachments, signed deliveries, reconciliations, reviews and reports of the
    workers and the boot plane, in any order and with any replay: for a record
    with a head, a review job of its pull request that is queued or running is
    the job of the record's own review cycle, a preview boot that is under way
    is of its head commit, and neither exists while the head has no authority.
    So neither a late delivery nor a racing reconciliation leaves an older head
    under review.  (Boots on demand are left out: their route does not consult
    the record.) *)
Theorem only_current_head_works os d :
  authority_inv d → Forall (λ o, allowed o ∧ on_cycle o) os → work_current d →
  work_current (exec_records sha1 os d).
Proof.
  intros Hinv Hos Hw.
  apply (exec_records_ind sha1 (λ o, allowed o ∧ on_cycle o) (λ d, authority_inv d ∧ work_current d)); [|done..].
  intros o d1 [Ho Hc] [H1 H2]. split; [by apply exec_authority_inv|by apply exec_work_current].
Qed.

End Authority.

(** ** On concrete data *)

Lemma confirmed_authority_inv : authority_inv confirmed_db.
Proof.
  split; [exact confirmed_records_ok| |exact confirmed_unique_keys|].
  - intros id r H. unfold confirmed_db in H. cbn [rd_records] in H. apply lookup_singleton_Some in H as [_ <-]. by intros [x Hx].
  - intros id e k H. unfold confirmed_db in H. cbn [rd_events] in H. by rewrite lookup_empty in H.
Qed.
Lemma confirmed_work : work_current confirmed_db.
Proof. split; intros k r id x _ _ H; unfold confirmed_db in H; cbn [rd_jobs rd_boots] in H; by rewrite lookup_empty in H. Qed.

Definition late_history : list record_op :=
  [op_advance (tick 10) opened; op_claim 15 "w1" 5; op_advance (tick 20) pushed;
   op_review_boot (tick 21) pull_7 "x" sha_a sha_a; op_advance (tick 25) opened; op_boots (bo_expire 99)].
Lemma only_current_head_works_witness : work_current (exec_records sum_sha1 late_history confirmed_db).
Proof.
  exact (only_current_head_works sum_sha1 late_history confirmed_db confirmed_authority_inv
    ltac:(repeat constructor) confirmed_work).
Defined.

(** A head blocked at generation 2, reconciled by one caller and blocked again
    at the same commit, while another caller still holds the first answer. *)
Lemma blocked_inv : authority_inv blocked_db.
Proof.
  exact (exec_records_inv sum_sha1 [op_advance (tick 10) opened; op_advance (tick 20) jumped] confirmed_db
    ltac:(repeat constructor) confirmed_authority_inv).
Qed.
Definition first_answer : ReconcileInput := reconciliation blocked_db "open".
Definition winner : list record_op := [op_reconcile (tick 30) first_answer].
Lemma reconcile_compare_and_swap_witness :
  let d2 := exec_records sum_sha1 [op_terminal (tick 40) (closing sha_b "d-9")] (exec_records sum_sha1 winner blocked_db) in
  (reconcileConfirmedAcceptanceRecordPullRequestHead sum_sha1 (tick 50) first_answer d2).2 = d2.
Proof.
  assert (Hs : head_summary blocked_db = Some (Some sha_a, false, 2)) by (vm_compute; reflexivity).
  assert (Hs1 : head_summary (exec_records sum_sha1 winner blocked_db) = Some (Some sha_b, true, 3))
    by (vm_compute; reflexivity).
  unfold head_summary in Hs, Hs1.
  destruct (rd_records blocked_db !! "r1") as [r|] eqn:E; [|discriminate Hs].
  destruct (rd_records (exec_records sum_sha1 winner blocked_db) !! "r1") as [r1|] eqn:E1; [|discriminate Hs1].
  injection Hs as Hs _ Hg. injection Hs1 as Hs1 _ _.
  exact (reconcile_compare_and_swap sum_sha1 winner [op_terminal (tick 40) (closing sha_b "d-9")] (tick 50) first_answer
    blocked_db r r1 blocked_inv ltac:(repeat constructor) ltac:(repeat constructor) E Hg E1
    ltac:(unfold head_of; intros Hx; injection Hx as Hx _ _; rewrite Hs, Hs1 in Hx; discriminate Hx)).
Defined.
