(* ===== verification/Approvals.v ===== *)
(** * Approvals: a human's decision, taken once

    [queries/jace_sessions.ts]: the approvals Jace asks for, their resolution,
    and the issue URL stamped on an approved one. *)

From S2P Require Import Prelude Table Regex Intake Tx RecordSchema.
From Stdlib Require Import QArith.
Open Scope Z_scope.

(** ** Rows *)

Record JaceApproval := mkJaceApproval {
  ap_workspace_id : option string;
  ap_chat_identity_id : option string;
  ap_session_id : string;
  ap_eve_session_id : string;
  ap_request_id : string;
  ap_callback_token : string;
  ap_tool_name : string;
  ap_tool_input : json;
  ap_approve_option_id : string;
  ap_deny_option_id : string;
  ap_status : string;
  ap_published_issue_url : option string;
  ap_queue_entry_id : option string;
  ap_dependency_contract_id : option string;
  ap_acceptance_contract_id : option string;
  ap_requirement_decision : option string;
  ap_requirement_task_family : option string;
  ap_requirement_refusal_code : option string;
  ap_requirement_confidence : option (list string);
  ap_requirement_status : option string;
  ap_requirement_override : bool;
  ap_requirement_override_at : option Z;
  ap_created_at : Z;
  ap_resolved_at : option Z;
}.
Notation approval_table := (gmap string JaceApproval).

Definition set_ap_status (status : string) (resolvedAt : Z) (r : JaceApproval) : JaceApproval :=
  mkJaceApproval (ap_workspace_id r) (ap_chat_identity_id r) (ap_session_id r) (ap_eve_session_id r)
    (ap_request_id r) (ap_callback_token r) (ap_tool_name r) (ap_tool_input r) (ap_approve_option_id r)
    (ap_deny_option_id r) status (ap_published_issue_url r) (ap_queue_entry_id r) (ap_dependency_contract_id r)
    (ap_acceptance_contract_id r) (ap_requirement_decision r) (ap_requirement_task_family r)
    (ap_requirement_refusal_code r) (ap_requirement_confidence r) (ap_requirement_status r)
    (ap_requirement_override r) (ap_requirement_override_at r) (ap_created_at r) (Some resolvedAt).
Definition set_ap_url (url : option string) (r : JaceApproval) : JaceApproval :=
  mkJaceApproval (ap_workspace_id r) (ap_chat_identity_id r) (ap_session_id r) (ap_eve_session_id r)
    (ap_request_id r) (ap_callback_token r) (ap_tool_name r) (ap_tool_input r) (ap_approve_option_id r)
    (ap_deny_option_id r) (ap_status r) url (ap_queue_entry_id r) (ap_dependency_contract_id r)
    (ap_acceptance_contract_id r) (ap_requirement_decision r) (ap_requirement_task_family r)
    (ap_requirement_refusal_code r) (ap_requirement_confidence r) (ap_requirement_status r)
    (ap_requirement_override r) (ap_requirement_override_at r) (ap_created_at r) (ap_resolved_at r).
Definition set_ap_requirement (status : option string) (override : bool) (at_ : option Z) (r : JaceApproval)
    : JaceApproval :=
  mkJaceApproval (ap_workspace_id r) (ap_chat_identity_id r) (ap_session_id r) (ap_eve_session_id r)
    (ap_request_id r) (ap_callback_token r) (ap_tool_name r) (ap_tool_input r) (ap_approve_option_id r)
    (ap_deny_option_id r) (ap_status r) (ap_published_issue_url r) (ap_queue_entry_id r)
    (ap_dependency_contract_id r) (ap_acceptance_contract_id r) (ap_requirement_decision r)
    (ap_requirement_task_family r) (ap_requirement_refusal_code r) (ap_requirement_confidence r)
    status override at_ (ap_created_at r) (ap_resolved_at r).

(** ** The requirement evidence of a tool call *)

Definition REQUIREMENT_REFUSAL_CODES : list string :=
  ["conflicting_acceptance_criteria"; "unresolved_blocking_question"; "unsupported_environment";
   "excessive_scope"; "missing_proof_path"; "unavailable_evidence"].

Record Requirement := mkRequirement {
  rq_decision : string;
  rq_task_family : option string;
  rq_refusal_code : option string;
  (** the basis of an unknown confidence *)
  rq_confidence : option (list string);
}.

Definition as_object (v : option json) : option json :=
  match v with Some (JObj l) => Some (JObj l) | _ => None end.
(** [x ?? y] *)
Definition nullish (x y : option json) : option json :=
  match x with None | Some JNull => y | _ => x end.
Definition field_of (v : option json) (key : string) : option json := v ≫= λ v, json_field v key.

Definition task_family (record : json) : option string :=
  match json_field record "taskFamily" with
  | Some (JStr s) => match trim s with EmptyString => None | t => Some t end
  | _ => None
  end.
Definition refusal_code (record : json) : option string :=
  match field_of (as_object (json_field record "refusal")) "code" with
  | Some (JStr c) => if bool_decide (c ∈ REQUIREMENT_REFUSAL_CODES) then Some c else None
  | _ => None
  end.
Definition strings_of (v : option json) : list string :=
  match v with Some (JArr l) => omap (λ x, match x with JStr s => Some s | _ => None end) l | _ => [] end.
Definition unknown_confidence (record : json) : option (list string) :=
  let confidence := as_object (json_field record "confidence") in
  match field_of confidence "state" with
  | Some (JStr s) => if s ≡? "unknown" then Some (strings_of (field_of confidence "basis")) else None
  | _ => None
  end.

Definition requirementEvidenceFromToolInput (input : json) : option Requirement :=
  let brief := as_object (json_field input "_brief") in
  match nullish (json_field input "requirementDecision") (field_of brief "requirementDecision") with
  | Some (JObj l) =>
      let record := JObj l in
      match json_field record "decision" with
      | Some (JStr d) =>
          if negb (bool_decide (d ∈ ["accept"; "refuse"])) then None
          else if (d ≡? "refuse") && is_null (refusal_code record) then None
          else Some (mkRequirement d (task_family record) (refusal_code record) (unknown_confidence record))
      | _ => None
      end
  | _ => None
  end.

(** ** Recording a request *)

Record ApprovalInput := mkApprovalInput {
  ai_workspaceId : option string;
  ai_chatIdentityId : option string;
  ai_sessionId : string;
  ai_eveSessionId : string;
  ai_requestId : string;
  ai_toolName : string;
  ai_toolInput : json;
  ai_approveOptionId : string;
  ai_denyOptionId : string;
  ai_acceptanceContractId : option string;
  ai_queueEntryId : option string;
  ai_dependencyContractId : option string;
}.

Definition new_approval (now : Z) (token : string) (i : ApprovalInput) : JaceApproval :=
  let q := requirementEvidenceFromToolInput (ai_toolInput i) in
  mkJaceApproval (ai_workspaceId i) (ai_chatIdentityId i) (ai_sessionId i) (ai_eveSessionId i) (ai_requestId i)
    token (ai_toolName i) (ai_toolInput i) (ai_approveOptionId i) (ai_denyOptionId i) "pending" None
    (ai_queueEntryId i) (ai_dependencyContractId i) (ai_acceptanceContractId i)
    (rq_decision <$> q) (q ≫= rq_task_family) (q ≫= rq_refusal_code) (q ≫= rq_confidence)
    (match q with Some _ => Some "pending" | None => None end) false None now None.

Definition of_request (eve request : string) (_ : string) (r : JaceApproval) : bool :=
  (ap_eve_session_id r ≡? eve) && (ap_request_id r ≡? request).
Definition with_token (token : string) (_ : string) (r : JaceApproval) : bool := ap_callback_token r ≡? token.

(** An absent or empty anchor. *)
Definition no_anchor (x : option string) : bool := match x with None | Some EmptyString => true | _ => false end.

Inductive ApprovalError := no_anchor_given | approval_key_taken.

(** [id] and [token] are the random ids of the insert; a collision of either is
    a unique violation.  The result is the row, and whether this call made it. *)
Definition recordApprovalRequest (now : Z) (id token : string) (i : ApprovalInput) (t : approval_table)
    : (ApprovalError + (string * JaceApproval * bool)) * approval_table :=
  if no_anchor (ai_workspaceId i) && no_anchor (ai_chatIdentityId i) then (inl no_anchor_given, t) else
  match head (select_where (of_request (ai_eveSessionId i) (ai_requestId i)) t) with
  | Some (k, r) => (inr (k, r, false), t)
  | None =>
      if is_null (t !! id) && bool_decide (select_where (with_token token) t = []) then
        let r := new_approval now token i in (inr (id, r, true), <[id := r]> t)
      else (inl approval_key_taken, t)
  end.

Definition findApprovalByCallbackToken (workspaceId token : string) (t : approval_table)
    : option (string * JaceApproval) :=
  head (select_where (λ k r, sql_eq (ap_workspace_id r) workspaceId && with_token token k r) t).
Definition getApprovalByCallbackToken (token : string) (t : approval_table) : option (string * JaceApproval) :=
  head (select_where (with_token token) t).
Definition getApprovalById (id : string) (t : approval_table) : option JaceApproval := t !! id.

(** ** Resolving *)

(** The two decisions. *)
Inductive Decision := dec_approved | dec_denied.
#[export] Instance Decision_eq_dec : EqDecision Decision.
Proof. solve_decision. Defined.
Definition decision_text (d : Decision) : string := match d with dec_approved => "approved" | dec_denied => "denied" end.

Definition is_pending (r : JaceApproval) : bool := ap_status r ≡? "pending".

Definition resolved_requirement (now : Z) (d : Decision) (r : JaceApproval) : JaceApproval :=
  let refused := sql_eq (ap_requirement_decision r) "refuse" in
  let accepted := sql_eq (ap_requirement_decision r) "accept" in
  match d with
  | dec_approved =>
      if refused then set_ap_requirement (Some "waived") true (Some now) r
      else if accepted then set_ap_requirement (Some "accepted") (ap_requirement_override r) (ap_requirement_override_at r) r
      else r
  | dec_denied =>
      if is_null (ap_requirement_decision r) then r
      else set_ap_requirement (Some "denied") (ap_requirement_override r) (ap_requirement_override_at r) r
  end.

Definition resolveApproval (c : Clock) (id : string) (d : Decision) (publishedIssueUrl : option string)
    (t : approval_table) : bool * approval_table :=
  let '(row, t') := update_row id is_pending
    (λ r, set_ap_status (decision_text d) (js_now c)
            (set_ap_url publishedIssueUrl (resolved_requirement (db_now c) d r))) t in
  (negb (is_null row), t').

Inductive StampPublishedIssueUrlOutcome := stamped | stamp_not_approved | stamp_conflict.

Definition stampable (url : string) (r : JaceApproval) : bool :=
  (ap_status r ≡? "approved") && (is_null (ap_published_issue_url r) || sql_eq (ap_published_issue_url r) url).
Definition stampPublishedIssueUrl (id url : string) (t : approval_table)
    : StampPublishedIssueUrlOutcome * approval_table :=
  match update_row id (stampable url) (set_ap_url (Some url)) t with
  | (Some _, t') => (stamped, t')
  | (None, t') =>
      (match t' !! id with
       | Some r => if ap_status r ≡? "approved" then stamp_conflict else stamp_not_approved
       | None => stamp_not_approved
       end, t')
  end.

(** The sessions' channel and conversation, by id. *)
Record PendingApproval := mkPendingApproval {
  pa_id : string;
  pa_toolName : string;
  pa_toolInput : json;
  pa_approveOptionId : string;
  pa_denyOptionId : string;
  pa_channel : string;
  pa_conversationKey : string;
  pa_createdAt : Z;
}.
Definition pendingApprovalsForWorkspace (sessions : gmap string (string * string)) (workspaceId : string)
    (t : approval_table) : list PendingApproval :=
  omap (λ kr : string * JaceApproval,
    (λ s : string * string, mkPendingApproval kr.1 (ap_tool_name kr.2) (ap_tool_input kr.2)
       (ap_approve_option_id kr.2) (ap_deny_option_id kr.2) s.1 s.2 (ap_created_at kr.2))
    <$> sessions !! ap_session_id kr.2)
  (rev (order_by ap_created_at
    (select_where (λ _ r, sql_eq (ap_workspace_id r) workspaceId && is_pending r) t))).

(** ** What an approval keeps *)

(** The columns fixed when the request is recorded. *)
Definition request_part (r : JaceApproval) :=
  (ap_workspace_id r, ap_chat_identity_id r, ap_session_id r, ap_eve_session_id r, ap_request_id r,
   ap_callback_token r, ap_tool_name r, ap_tool_input r, ap_approve_option_id r, ap_deny_option_id r,
   (ap_queue_entry_id r, ap_dependency_contract_id r, ap_acceptance_contract_id r, ap_created_at r),
   (ap_requirement_decision r, ap_requirement_task_family r, ap_requirement_refusal_code r,
    ap_requirement_confidence r)).
(** The columns of the decision. *)
Definition decision_part (r : JaceApproval) :=
  (ap_status r, ap_resolved_at r, ap_requirement_status r, ap_requirement_override r,
   ap_requirement_override_at r).

Record approval_later (r r' : JaceApproval) : Prop := {
  later_request : request_part r' = request_part r;
  later_decision : is_pending r = false → decision_part r' = decision_part r;
  later_url : is_pending r = false → is_Some (ap_published_issue_url r) ∨ ap_status r ≠ "approved" →
    ap_published_issue_url r' = ap_published_issue_url r;
}.

Lemma is_pending_decision r r' : decision_part r' = decision_part r → is_pending r' = is_pending r.
Proof. unfold decision_part, is_pending. intros H. by injection H as -> _ _ _ _. Qed.
Lemma pending_spec r : is_pending r = true ↔ ap_status r = "pending".
Proof. apply bool_decide_eq_true. Qed.

#[export] Instance approval_later_preorder : PreOrder approval_later.
Proof.
  split; [done|]. intros r1 r2 r3 [Q1 D1 U1] [Q2 D2 U2].
  assert (Hp : is_pending r1 = false → is_pending r2 = false).
  { intros H. by rewrite (is_pending_decision r1 r2) by auto. }
  split; [congruence|intros H; rewrite D2, D1; auto|].
  intros H Hu. rewrite <- U1 by auto. apply U2; [by auto|]. rewrite U1 by auto.
  specialize (D1 H). unfold decision_part in D1. injection D1 as -> _ _ _ _. done.
Qed.

Lemma resolved_later c d url r : is_pending r = true →
  approval_later r (set_ap_status (decision_text d) (js_now c)
    (set_ap_url url (resolved_requirement (db_now c) d r))).
Proof.
  intros Hp. split; [|congruence..]. unfold resolved_requirement.
  by destruct d; repeat case_match.
Qed.
Lemma stamped_later url r : stampable url r = true → approval_later r (set_ap_url (Some url) r).
Proof.
  unfold stampable. intros [Hs Hu]%andb_true_iff. apply bool_decide_eq_true in Hs.
  split; [done..|]. intros _ [[u Hs']|]; [|done]. rewrite Hs' in Hu. simpl in Hu.
  apply bool_decide_eq_true in Hu. simpl. congruence.
Qed.

Notation approvals_later := (rows approval_later).

Lemma record_request_spec now id token i t :
  match recordApprovalRequest now id token i t with
  | (inl _, t') => t' = t
  | (inr (k, r, false), t') => t' = t ∧ t !! k = Some r ∧ of_request (ai_eveSessionId i) (ai_requestId i) k r = true
  | (inr (k, r, true), t') => k = id ∧ t !! id = None ∧ t' = <[id := r]> t ∧ r = new_approval now token i
      ∧ select_where (of_request (ai_eveSessionId i) (ai_requestId i)) t = []
      ∧ select_where (with_token token) t = []
  end.
Proof.
  unfold recordApprovalRequest. destruct (_ && _); [done|].
  destruct (select_where (of_request _ _) t) as [|[k r] l] eqn:Hs; simpl.
  - destruct (t !! id) eqn:Hid; [done|]. simpl. case_bool_decide; [|done]. by split_and!.
  - split; [done|]. apply elem_of_select_where. rewrite Hs. set_solver.
Qed.

Lemma record_request_later now id token i t : approvals_later t (recordApprovalRequest now id token i t).2.
Proof.
  pose proof (record_request_spec now id token i t) as H.
  destruct (recordApprovalRequest _ _ _ _ _) as [[e|[[k r] [|]]] t']; simpl in *.
  - by subst.
  - destruct H as (_ & Hid & -> & _). by apply rows_insert_fresh; [apply _|].
  - by destruct H as [-> _].
Qed.
Lemma resolve_later c id d url t : approvals_later t (resolveApproval c id d url t).2.
Proof.
  unfold resolveApproval.
  pose proof (rows_update_row approval_later id is_pending
    (λ r, set_ap_status (decision_text d) (js_now c) (set_ap_url url (resolved_requirement (db_now c) d r))) t
    (λ r, resolved_later c d url r)) as H.
  by destruct (update_row _ _ _ _) as [row t'].
Qed.
Lemma stamp_later id url t : approvals_later t (stampPublishedIssueUrl id url t).2.
Proof.
  unfold stampPublishedIssueUrl.
  pose proof (rows_update_row approval_later id (stampable url) (set_ap_url (Some url)) t (stamped_later url)) as H.
  by destruct (update_row _ _ _ _) as [[?|] t'].
Qed.

(** ** Histories *)

Inductive approval_op :=
  | op_request (now : Z) (id token : string) (i : ApprovalInput)
  | op_resolve (c : Clock) (id : string) (d : Decision) (url : option string)
  | op_stamp (id url : string).

Definition exec_approval (o : approval_op) (t : approval_table) : approval_table :=
  match o with
  | op_request now id token i => (recordApprovalRequest now id token i t).2
  | op_resolve c id d url => (resolveApproval c id d url t).2
  | op_stamp id url => (stampPublishedIssueUrl id url t).2
  end.
Definition exec_approvals (l : list approval_op) (t : approval_table) : approval_table :=
  fold_left (λ t o, exec_approval o t) l t.

(** The operation is a call of [resolveApproval] on [id] that answers [true]. *)
Definition flips (id : string) (o : approval_op) (t : approval_table) : bool :=
  match o with
  | op_resolve c k d url => (k ≡? id) && (resolveApproval c k d url t).1
  | _ => false
  end.
Fixpoint flips_of (id : string) (l : list approval_op) (t : approval_table) : nat :=
  match l with
  | [] => 0
  | o :: l' => (if flips id o t then 1 else 0) + flips_of id l' (exec_approval o t)
  end.

Lemma exec_approval_later o t : approvals_later t (exec_approval o t).
Proof. destruct o; [apply record_request_later|apply resolve_later|apply stamp_later]. Qed.
Lemma exec_approvals_later l t : approvals_later t (exec_approvals l t).
Proof. revert t. induction l as [|o l IH]; intros t; simpl; [done|]. etrans; [apply exec_approval_later|apply IH]. Qed.

(** The approval exists and is decided. *)
Definition decided (id : string) (t : approval_table) : bool :=
  match t !! id with Some r => negb (is_pending r) | None => false end.

Lemma decided_later id t t' : approvals_later t t' → decided id t = true → decided id t' = true.
Proof.
  unfold decided. intros Hl. destruct (t !! id) as [r|] eqn:Hr; [|done]. intros Hd%negb_true_iff.
  destruct (Hl id r Hr) as (r' & -> & [_ D _]). by rewrite (is_pending_decision r r') by auto; rewrite Hd.
Qed.
Lemma not_pending_decided d : decision_text d ≡? "pending" = false.
Proof. by destruct d. Qed.

(** Each operation adds to the decided approvals exactly what it flips. *)
Lemma flips_step id o t :
  ((if flips id o t then 1 else 0) + (if decided id t then 1 else 0)
   = if decided id (exec_approval o t) then 1 else 0)%nat.
Proof.
  unfold decided. destruct o as [now k token i|c k d url|k url]; simpl.
  - pose proof (record_request_spec now k token i t) as H.
    destruct (recordApprovalRequest _ _ _ _ _) as [[e|[[k' r] [|]]] t']; simpl in *; [by subst| |by destruct H as [-> _]].
    destruct H as (_ & Hk & -> & -> & _). destruct (decide (k = id)) as [<-|Hne].
    + by rewrite Hk, lookup_insert_eq.
    + by rewrite lookup_insert_ne.
  - unfold resolveApproval.
    destruct (update_rowP is_pending (λ r, set_ap_status (decision_text d) (js_now c)
      (set_ap_url url (resolved_requirement (db_now c) d r))) k t) as [r Hk Hp|_]; simpl.
    + destruct (decide (k = id)) as [<-|Hne].
      * rewrite bool_decide_eq_true_2, Hk, lookup_insert_eq, Hp by done. simpl.
        unfold is_pending. simpl. by rewrite not_pending_decided.
      * rewrite bool_decide_eq_false_2, lookup_insert_ne by done. done.
    + by rewrite andb_false_r.
  - unfold stampPublishedIssueUrl.
    destruct (update_rowP (stampable url) (set_ap_url (Some url)) k t) as [r Hk Hp|_]; simpl; [|done].
    destruct (decide (k = id)) as [<-|Hne]; [by rewrite Hk, lookup_insert_eq|by rewrite lookup_insert_ne].
Qed.
Lemma flips_exact id l t :
  (flips_of id l t + (if decided id t then 1 else 0) = if decided id (exec_approvals l t) then 1 else 0)%nat.
Proof.
  revert t. induction l as [|o l IH]; intros t; simpl; [done|].
  specialize (IH (exec_approval o t)). pose proof (flips_step id o t). unfold exec_approvals in *. simpl. lia.
Qed.

(** C22 (safety).  An approval is decided once, whatever the redeliveries and
    races: over any history of requests, resolutions and stamps, the calls of
    [resolveApproval] that answer [true] for it are exactly one if it was
    undecided and ends decided, and none otherwise.  What was asked never
    changes; once decided the decision, its instant and the requirement's
    outcome never change, and the issue URL only by the first stamp of an
    approved row. *)
Theorem approval_resolves_once id l t r :
  t !! id = Some r →
  (flips_of id l t + (if decided id t then 1 else 0) = if decided id (exec_approvals l t) then 1 else 0)%nat
  ∧ ∃ r', exec_approvals l t !! id = Some r' ∧ request_part r' = request_part r
    ∧ (is_pending r = false → decision_part r' = decision_part r)
    ∧ (is_pending r = false → is_Some (ap_published_issue_url r) ∨ ap_status r ≠ "approved" →
       ap_published_issue_url r' = ap_published_issue_url r).
Proof.
  intros Hr. split; [apply flips_exact|].
  destruct (exec_approvals_later l t id r Hr) as (r' & Hr' & [Q D U]). by exists r'.
Qed.

Definition card_request : ApprovalInput :=
  mkApprovalInput (Some "w1") None "s1" "eve-1" "req-1" "create_issue"
    (JObj [("requirementDecision", JObj [("decision", JStr "refuse");
       ("refusal", JObj [("code", JStr "excessive_scope")]);
       ("confidence", JObj [("state", JStr "unknown"); ("basis", JArr [JStr "no tests"; JNull])])])])
    "yes" "no" None None None.
Definition approval_run : list approval_op :=
  [op_request 10 "a1" "t1" card_request; op_resolve (mkClock 20 20) "a1" dec_approved None;
   op_request 21 "a2" "t2" card_request; op_stamp "a1" "u"; op_resolve (mkClock 22 22) "a1" dec_denied None;
   op_stamp "a1" "v"].
Example approval_run_ends :
  (λ r, (ap_status r, ap_published_issue_url r, ap_requirement_status r, ap_requirement_override r,
         ap_requirement_confidence r)) <$> exec_approvals approval_run ∅ !! "a1"
    = Some ("approved", Some "u", Some "waived", true, Some ["no tests"])
  ∧ exec_approvals approval_run ∅ !! "a2" = None ∧ flips_of "a1" approval_run ∅ = 1%nat.
Proof. vm_compute. done. Qed.

Definition asked : approval_table := {["a1" := new_approval 10 "t1" card_request]}.
Lemma approval_resolves_once_witness :
  flips_of "a1" (drop 1 approval_run) asked = 1%nat
  ∧ (flips_of "a1" (drop 1 approval_run) asked + (if decided "a1" asked then 1 else 0)
     = if decided "a1" (exec_approvals (drop 1 approval_run) asked) then 1 else 0)%nat.
Proof.
  split; [by vm_compute|].
  exact (proj1 (approval_resolves_once "a1" (drop 1 approval_run) asked (new_approval 10 "t1" card_request) eq_refl)).
Defined.

Lemma of_request_spec eve rid k r : of_request eve rid k r = true ↔ ap_eve_session_id r = eve ∧ ap_request_id r = rid.
Proof. unfold of_request. by rewrite andb_true_iff, !bool_decide_eq_true. Qed.
Lemma select_nil {A} (p : string → A → bool) t k r : select_where p t = [] → t !! k = Some r → p k r = false.
Proof.
  intros Hn Hk. apply not_true_iff_false. intros Hp.
  assert (H : (k, r) ∈ select_where p t) by by apply elem_of_select_where. rewrite Hn in H. set_solver.
Qed.
Lemma set_ap_url_same u r : ap_published_issue_url r = Some u → set_ap_url (Some u) r = r.
Proof. destruct r. simpl. by intros ->. Qed.

(** What each operation answers and leaves.  A request without an
    anchor throws and stores nothing; a request already recorded gets the
    stored row, and no row or token is added; otherwise exactly one pending row
    is added.  Stamping answers [stamped] exactly when the row is approved with
    no URL or this one, [stamp_conflict] when it is approved with another, and
    [stamp_not_approved] in every other case, and only the first writes. *)
Theorem approval_outcomes :
  (∀ now id token i t,
     match recordApprovalRequest now id token i t with
     | (inl e, t') => t' = t ∧ (e = no_anchor_given ↔ no_anchor (ai_workspaceId i) = true ∧ no_anchor (ai_chatIdentityId i) = true)
     | (inr (k, r, created), t') =>
         t' = (if created then <[k := r]> t else t) ∧ t' !! k = Some r
         ∧ ap_eve_session_id r = ai_eveSessionId i ∧ ap_request_id r = ai_requestId i
         ∧ (created = true → t !! k = None ∧ is_pending r = true
            ∧ ∀ k' r', t !! k' = Some r' → ap_callback_token r' ≠ ap_callback_token r
                ∧ ¬ (ap_eve_session_id r' = ai_eveSessionId i ∧ ap_request_id r' = ai_requestId i))
     end)
  ∧ (∀ id url t, stampPublishedIssueUrl id url t =
       match t !! id with
       | Some r =>
           if ap_status r ≢? "approved" then (stamp_not_approved, t) else
           match ap_published_issue_url r with
           | Some u => if u ≡? url then (stamped, <[id := r]> t) else (stamp_conflict, t)
           | None => (stamped, <[id := set_ap_url (Some url) r]> t)
           end
       | None => (stamp_not_approved, t)
       end).
Proof.
  split; [intros now id token i t|intros id url t].
  - pose proof (record_request_spec now id token i t) as H.
    assert (He : ∀ e t', recordApprovalRequest now id token i t = (inl e, t') →
      e = no_anchor_given ↔ no_anchor (ai_workspaceId i) = true ∧ no_anchor (ai_chatIdentityId i) = true).
    { intros e t'. unfold recordApprovalRequest. rewrite <- andb_true_iff.
      destruct (_ && _); [by intros [= <- _]|]. repeat case_match; intros [= <- _]; naive_solver. }
    destruct (recordApprovalRequest _ _ _ _ _) as [[e|[[k r] [|]]] t']; [by eauto| |].
    + destruct H as (-> & Hk & -> & -> & Hr & Ht). rewrite lookup_insert_eq. split_and!; try done.
      intros _. split_and!; try done. intros k' r' Hk'. split.
      * intros E. pose proof (select_nil _ _ _ _ Ht Hk') as H. unfold with_token in H.
        by apply bool_decide_eq_false in H.
      * intros E. pose proof (select_nil _ _ _ _ Hr Hk') as H. apply not_true_iff_false in H.
        by apply H, of_request_spec.
    + destruct H as (-> & Hk & [H1 H2]%of_request_spec). by split_and!.
  - unfold stampPublishedIssueUrl.
    destruct (update_rowP (stampable url) (set_ap_url (Some url)) id t) as [r Hk Hp|Hm].
    + rewrite Hk. apply andb_true_iff in Hp as [Hs Hu]. rewrite Hs. simpl.
      destruct (ap_published_issue_url r) as [u|] eqn:Eu; [|done]. simpl in Hu.
      apply bool_decide_eq_true in Hu. simplify_eq. by rewrite bool_decide_eq_true_2, set_ap_url_same.
    + destruct (t !! id) as [r|] eqn:Hk; [|done]. specialize (Hm r eq_refl). unfold stampable in Hm.
      destruct (ap_status r ≡? "approved"); [|done]. simpl in *.
      destruct (ap_published_issue_url r) as [u|]; [|done]. simpl in Hm.
      unfold sql_eq in Hm. apply bool_decide_eq_false in Hm. rewrite bool_decide_eq_false_2 by congruence. done.
Qed.
