(* ===== verification/Contracts.v ===== *)
(** * Contracts: the Acceptance Contract, drafted in versions and confirmed once

    [queries/change_records.ts]: validating, drafting and versioning the
    Acceptance Contracts of a Change Record, from an issue or from an intake;
    [queries/jace_sessions.ts]: the approval that confirms one of them. *)

From S2P Require Import Prelude Table Regex Intake Tx RecordSchema JsonText Timeline.
From S2P Require Import ChangeRecords Approvals.
Open Scope Z_scope.

(** ** What a complete contract is *)

Definition isRecord (v : option json) : bool := match v with Some (JObj _) => true | _ => false end.
Definition isNonBlankString (v : option json) : bool :=
  match v with Some (JStr s) => trim s ≢? "" | _ => false end.
Definition hasNamedText (item : json) : bool :=
  isRecord (Some item) && isNonBlankString (json_field item "id") && isNonBlankString (json_field item "text").
Definition isAcceptanceCriterion (item : json) : bool :=
  hasNamedText item && match json_field item "userVisible" with Some (JBool _) => true | _ => false end.
(** [Array.isArray(v)], with the elements. *)
Definition array_of (v : option json) : option (list json) := match v with Some (JArr l) => Some l | _ => None end.

(** The names of the fields that are missing or malformed, in the order they
    are reported; [ok] is the empty list. *)
Definition validateAcceptanceContract (contract : json) : list string :=
  let field := json_field contract in
  let unless (b : bool) (name : string) : list string := if b then [] else [name] in
  let is_array name := negb (is_null (array_of (field name))) in
  unless (isNonBlankString (field "originalRequest")) "originalRequest"
  ++ unless (is_array "normalizedRequirements") "normalizedRequirements"
  ++ unless (match array_of (field "acceptanceCriteria") with
             | Some criteria => negb (bool_decide (criteria = [])) && forallb isAcceptanceCriterion criteria
             | None => false
             end) "acceptanceCriteria"
  ++ mjoin ((λ name, unless (is_array name) name) <$> ["nonGoals"; "risks"; "stops"; "unresolvedQuestions"])
  ++ unless (isRecord (field "environment")) "environment"
  ++ unless (match array_of (field "unresolvedQuestions") with
             | Some questions => forallb hasNamedText questions
             | None => true
             end) "unresolvedQuestions".

(** [assertValidAcceptanceContract] *)
Definition complete (contract : json) : bool := bool_decide (validateAcceptanceContract contract = []).
Definition open_questions (contract : json) : bool :=
  match array_of (json_field contract "unresolvedQuestions") with
  | Some questions => negb (bool_decide (questions = []))
  | None => false
  end.

Section Contracts.
Context (sha1 : list Z → list Z).
Implicit Types (t : contracts) (k : AcceptanceContract) (d : RecordDb).

Definition acceptanceContractId (recordId : string) (version : Z) : string :=
  uuid5Url sha1 ("acceptance-contract:" +:+ recordId +:+ ":" +:+ show_Z version).

(** ** Drafting *)

(** [ORDER BY version DESC LIMIT 1] *)
Definition latest_contract (recordId : string) t : option (string * AcceptanceContract) :=
  newest ac_version (select_where (λ _ k, ac_record_id k ≡? recordId) t).
Definition has_version (recordId : string) (version : Z) (_ : string) k : bool :=
  (ac_record_id k ≡? recordId) && (ac_version k =? version).

(** [INSERT INTO acceptance_contracts ... RETURNING *] *)
Definition insert_contract (id : string) k : record_tx (string * AcceptanceContract) := λ d,
  if is_null (rd_contracts d !! id)
     && bool_decide (select_where (has_version (ac_record_id k) (ac_version k)) (rd_contracts d) = []) then
    if is_null (rd_records d !! ac_record_id k) then inl foreign_key_violation
    else inr ((id, k), with_contracts (<[id := k]> (rd_contracts d)) d)
  else inl unique_violation.

Definition draft (c : Clock) (recordId : string) (version : Z) (contract : json) (createdBy : string)
    : AcceptanceContract := mkAcceptanceContract recordId version "draft" contract createdBy None None (db_now c).

Definition contract_payload (id : string) (version : Z) (status : string) : json :=
  JObj [("kind", JStr "acceptance_contract"); ("contractId", JStr id); ("version", jnum version);
        ("status", JStr status)].

Definition draft_event (c : Clock) (id : string) k : record_tx unit :=
  appendContractEventInTransaction sha1 c (ac_record_id k)
    ("acceptance-contract:draft:" +:+ show_Z (ac_version k)) "acceptance_contract" (ac_created_by k)
    (contract_payload id (ac_version k) (ac_status k)).

Record DraftInput := mkDraftInput {
  di_workspaceId : string;
  di_repo : string;
  di_originChannel : string;
  di_contract : json;
  di_createdBy : string;
}.

Definition has_work_key (ws repo workKey : string) (_ : string) (r : ChangeRecord) : bool :=
  in_repo ws repo r && sql_eq (cr_work_key r) workKey.
Definition work_record (c : Clock) (i : DraftInput) (workKey : string) (sourceReferences : json) : ChangeRecord :=
  mkChangeRecord (di_workspaceId i) (di_repo i) (Some workKey) (Some (di_originChannel i)) sourceReferences
    None None None None false 0 [] None "open" (db_now c) (db_now c).
Definition touch_record (c : Clock) (r : ChangeRecord) : ChangeRecord :=
  mkChangeRecord (cr_workspace_id r) (cr_repo r) (cr_work_key r) (cr_origin_channel r) (cr_source_references r)
    (cr_issue_number r) (cr_pr_number r) (cr_head_sha r) (cr_cycle_id r) (cr_authoritative r) (cr_generation r)
    (cr_head_shas r) (cr_merged_sha r) (cr_state r) (cr_created_at r) (db_now c).

(** [INSERT ... ON CONFLICT (workspace_id, repo, work_key) DO UPDATE SET
    updated_at = now() RETURNING *] *)
Definition upsert_work_record (c : Clock) (id : string) (i : DraftInput) (workKey : string)
    (sourceReferences : json) : record_tx (string * ChangeRecord) :=
  found ← reads (λ d, find_record (has_work_key (di_workspaceId i) (di_repo i) workKey) (rd_records d));
  match found with
  | Some (k, _) => r ← update_record k (touch_record c); mret (k, r)
  | None => r ← insert_record id (work_record c i workKey sourceReferences); mret (id, r)
  end.

Notation draft_result := (string * ChangeRecord * (string * AcceptanceContract))%type.

Definition createDraftAcceptanceRecordInTransaction (c : Clock) (i : DraftInput) (workKey : string)
    (sourceReferences : json) : record_tx draft_result :=
  recordId ← some_or (changeRecordId sha1 (mkAnchor (di_workspaceId i) (di_repo i) (Some workKey) None None))
               invalid_input;
  record ← upsert_work_record c recordId i workKey sourceReferences;
  existing ← reads (λ d, latest_contract record.1 (rd_contracts d));
  match existing with
  | Some k => mret (record, k)
  | None =>
      k ← insert_contract (acceptanceContractId recordId 1)
            (draft c record.1 1 (di_contract i) (di_createdBy i));
      _ ← draft_event c k.1 k.2;
      mret (record, k)
  end.

(** [candidate] is the caller's work key, [uuid] the random one of a caller
    without. *)
Definition normalizedWorkKey (uuid : string) (candidate : option string) : string :=
  match trim <$> candidate with Some (String _ _ as k) => k | _ => uuid end.
Definition normalizeSourceReferences (x : option json) : json :=
  match x with Some (JArr l) => JArr l | _ => JArr [] end.

Definition createDraftAcceptanceRecord (c : Clock) (uuid : string) (i : DraftInput) (workKey : option string)
    (sourceReferences : option json) d : (RecordError + draft_result) * RecordDb :=
  if complete (di_contract i) then
    transaction (createDraftAcceptanceRecordInTransaction c i (normalizedWorkKey uuid workKey)
                   (normalizeSourceReferences sourceReferences)) d
  else (inl invalid_input, d).

(** Adds a version. *)
Definition next_version (recordId : string) t : Z :=
  match latest_contract recordId t with Some (_, k) => ac_version k + 1 | None => 1 end.
Definition createDraftAcceptanceContract (c : Clock) (recordId : string) (contract : json) (createdBy : string) d
    : (RecordError + string * AcceptanceContract) * RecordDb :=
  if complete contract then
    transaction (
      version ← reads (λ d, next_version recordId (rd_contracts d));
      k ← insert_contract (acceptanceContractId recordId version) (draft c recordId version contract createdBy);
      _ ← draft_event c k.1 k.2;
      mret k) d
  else (inl invalid_input, d).

(** [ORDER BY version ASC] *)
Definition readAcceptanceContracts (ws recordId : string) d : option (list (string * AcceptanceContract)) :=
  match rd_records d !! recordId with
  | Some r =>
      if cr_workspace_id r ≡? ws
      then Some (order_by ac_version (select_where (λ _ k, ac_record_id k ≡? recordId) (rd_contracts d)))
      else None
  | None => None
  end.

(** ** Drafting from an intake *)

Record IntakeDraftInput := mkIntakeDraftInput {
  ti_workspaceId : string;
  ti_intakeId : string;
  ti_repo : string;
  ti_contract : json;
  ti_createdBy : string;
}.
Record IntakeDraft := mkIntakeDraft {
  id_intake : AcceptanceIntake;
  id_record : string * ChangeRecord;
  id_contract : string * AcceptanceContract;
  id_created : bool;
}.

Definition intake_of (ws id : string) d : option AcceptanceIntake :=
  match rd_intakes d !! id with
  | Some x => if in_workspace_id x ≡? ws then Some x else None
  | None => None
  end.
Definition intake_work_key (intakeId : string) : string := "acceptance-intake:" +:+ intakeId.

(** The record and contract are the ones this draft would make. *)
Definition same_draft (i : IntakeDraftInput) (x : AcceptanceIntake) (r : ChangeRecord) k : bool :=
  sql_eq (cr_origin_channel r) (in_origin_channel x)
  && isDeepStrictEqual (cr_source_references r) (in_source_references x)
  && isDeepStrictEqual (ac_contract k) (ti_contract i).

Definition assertExistingDraft (i : IntakeDraftInput) (x : AcceptanceIntake) (recordId : string)
    : record_tx IntakeDraft :=
  record ← reads (λ d, match rd_records d !! recordId with
                       | Some r => if cr_workspace_id r ≡? ti_workspaceId i then Some r else None
                       | None => None
                       end);
  r ← some_or record intake_conflict;
  contract ← reads (λ d, latest_contract recordId (rd_contracts d));
  k ← some_or contract intake_conflict;
  _ ← require_true ((cr_repo r ≡? trim (ti_repo i)) && sql_eq (cr_work_key r) (intake_work_key (ti_intakeId i))
                    && same_draft i x r k.2) intake_conflict;
  mret (mkIntakeDraft x (recordId, r) k false).

Definition set_drafted (recordId : string) (now : Z) (x : AcceptanceIntake) : AcceptanceIntake :=
  mkAcceptanceIntake (in_workspace_id x) (in_origin_channel x) (in_conversation_key x) (in_source_references x)
    "drafted" (Some recordId) (in_created_at x) now.

(** [UPDATE acceptance_intakes SET record_id, status WHERE workspace_id AND id
    AND record_id IS NULL RETURNING *]; a record has at most one intake
    ([acceptance_intakes_record_key]). *)
Definition link_intake (ws id recordId : string) (now : Z) : record_tx AcceptanceIntake :=
  row ← runs (λ d,
    let '(row, t) := update_row id (λ x, (in_workspace_id x ≡? ws) && is_null (in_record_id x))
                       (set_drafted recordId now) (rd_intakes d) in
    (row, with_intakes t d));
  x ← some_or row intake_conflict;
  others ← reads (λ d, select_where (λ other y, (other ≢? id) && sql_eq (in_record_id y) recordId) (rd_intakes d));
  _ ← require_true (bool_decide (others = [])) unique_violation;
  mret x.

Definition intake_payload (id : string) (x : AcceptanceIntake) : json :=
  JObj [("kind", JStr "acceptance_intake"); ("intakeId", JStr id); ("originChannel", JStr (in_origin_channel x));
        ("conversationKey", JStr (in_conversation_key x));
        ("sourceReferenceCount",
         jnum (match in_source_references x with JArr l => Z.of_nat (length l) | _ => 0 end))].

Definition draft_from_intake_tx (c : Clock) (i : IntakeDraftInput) : record_tx IntakeDraft :=
  let id := ti_intakeId i in
  intake ← reads (intake_of (ti_workspaceId i) id);
  x ← some_or intake intake_not_found;
  match in_record_id x with
  | Some recordId => assertExistingDraft i x recordId
  | None =>
      drafted ← createDraftAcceptanceRecordInTransaction c
        (mkDraftInput (ti_workspaceId i) (trim (ti_repo i)) (in_origin_channel x) (ti_contract i) (ti_createdBy i))
        (intake_work_key id) (in_source_references x);
      let '(record, k) := drafted in
      _ ← require_true (same_draft i x record.2 k.2) intake_conflict;
      linked ← link_intake (ti_workspaceId i) id record.1 (js_now c);
      _ ← appendContractEventInTransaction sha1 c record.1 (intake_work_key id +:+ ":drafted") "acceptance_intake"
            (ti_createdBy i) (intake_payload id x);
      mret (mkIntakeDraft linked record k true)
  end.

Definition createDraftAcceptanceRecordFromIntake (c : Clock) (i : IntakeDraftInput) d
    : (RecordError + IntakeDraft) * RecordDb :=
  if complete (ti_contract i) && (trim (ti_repo i) ≢? "") then transaction (draft_from_intake_tx c i) d
  else (inl invalid_input, d).

(** ** Confirming *)

Record ContractDb := mkContractDb {
  kd_records : RecordDb;
  kd_approvals : approval_table;
}.
Notation contract_tx := (tx RecordError ContractDb).
Implicit Types (g : ContractDb).

(** A statement on the tables of the records, in a transaction over both. *)
Definition on_records {A} (m : record_tx A) : contract_tx A := λ g,
  match m (kd_records g) with
  | inl e => inl e
  | inr (a, d) => inr (a, mkContractDb d (kd_approvals g))
  end.

Inductive Unresolved :=
  | nr_not_found | nr_wrong_workspace | nr_not_pending | nr_wrong_tool_name | nr_missing_contract_binding
  | nr_foreign_contract | nr_not_draft | nr_incomplete_contract | nr_open_questions.
Inductive ResolveOutcome :=
  | resolved (contract : option (string * AcceptanceContract))
  | unresolved (reason : Unresolved).

Record ResolveInput := mkResolveInput {
  ri_workspaceId : string;
  ri_approvalId : string;
  ri_decision : Decision;
  ri_confirmedBy : string;
}.

(** The contract with its record's workspace. *)
Definition contract_in (ws id : string) d : option AcceptanceContract :=
  k ← rd_contracts d !! id;
  r ← rd_records d !! ac_record_id k;
  if cr_workspace_id r ≡? ws then Some k else None.

(** [UPDATE jace_approvals SET status, resolved_at WHERE id AND status =
    'pending' RETURNING id] *)
Definition close_approval (c : Clock) (id status : string) : contract_tx bool := runs (λ g,
  let '(row, t) := update_row id is_pending (set_ap_status status (js_now c)) (kd_approvals g) in
  (negb (is_null row), mkContractDb (kd_records g) t)).

(** An absent or empty contract id. *)
Definition contract_binding (a : JaceApproval) : option string :=
  if no_anchor (ap_acceptance_contract_id a) then None else ap_acceptance_contract_id a.

(** Up to the advisory lock: the answer, or the contract to confirm as it was
    read.  The approval's row is locked from here to the end. *)
Definition resolve_checks (c : Clock) (i : ResolveInput)
    : contract_tx (ResolveOutcome + (string * AcceptanceContract)) :=
  let fails reason : contract_tx (ResolveOutcome + (string * AcceptanceContract)) :=
    mret (inl (unresolved reason)) in
  approval ← reads (λ g, kd_approvals g !! ri_approvalId i);
  match approval with
  | None => fails nr_not_found
  | Some a =>
      if negb (sql_eq (ap_workspace_id a) (ri_workspaceId i)) then fails nr_wrong_workspace else
      match ri_decision i with
      | dec_denied =>
          if negb (is_pending a) then fails nr_not_pending else
          denied ← close_approval c (ri_approvalId i) "denied";
          match denied with true => mret (inl (resolved None)) | false => fails nr_not_pending end
      | dec_approved =>
          if ap_status a ≡? "approved" then
            match contract_binding a with
            | None => fails nr_missing_contract_binding
            | Some id =>
                k ← reads (λ g, contract_in (ri_workspaceId i) id (kd_records g));
                match k with
                | Some k => if ac_status k ≡? "confirmed" then mret (inl (resolved (Some (id, k))))
                            else fails nr_not_pending
                | None => fails nr_not_pending
                end
            end
          else if negb (is_pending a) then fails nr_not_pending
          else if ap_tool_name a ≢? "confirm_acceptance_contract" then fails nr_wrong_tool_name
          else
            match contract_binding a with
            | None => fails nr_missing_contract_binding
            | Some id =>
                k ← reads (λ g, contract_in (ri_workspaceId i) id (kd_records g));
                match k with
                | None => fails nr_foreign_contract
                | Some k =>
                    if ac_status k ≢? "draft" then fails nr_not_draft
                    else if negb (complete (ac_contract k)) then fails nr_incomplete_contract
                    else if open_questions (ac_contract k) then fails nr_open_questions
                    else mret (inr (id, k))
                end
            end
      end
  end.

Definition is_confirmed_of (recordId : string) (_ : string) k : bool :=
  (ac_record_id k ≡? recordId) && (ac_status k ≡? "confirmed").
Definition set_confirmed (by_ : string) (now : Z) k : AcceptanceContract :=
  mkAcceptanceContract (ac_record_id k) (ac_version k) "confirmed" (ac_contract k) (ac_created_by k) (Some by_)
    (Some now) (ac_created_at k).
Definition draft_version (recordId : string) (version : Z) (id : string) k : bool :=
  has_version recordId version id k && (ac_status k ≡? "draft").

(** [UPDATE acceptance_contracts SET status = 'confirmed' WHERE record_id AND
    version AND status = 'draft' RETURNING *], with its first row. *)
Definition confirm_draft (recordId : string) (version : Z) (by_ : string) (now : Z)
    : record_tx (option (string * AcceptanceContract)) := runs (λ d,
  let rows := select_where (draft_version recordId version) (rd_contracts d) in
  (prod_map id (set_confirmed by_ now) <$> head rows,
   with_contracts (update_where (draft_version recordId version) (set_confirmed by_ now) (rd_contracts d)) d)).

Definition appendAcceptanceContractConfirmedEventInTransaction (c : Clock) (by_ id : string) k : record_tx unit :=
  let key := "acceptance-contract:confirmed:" +:+ show_Z (ac_version k) in
  _ ← insert_event (changeRecordEventId sha1 (ac_record_id k) key)
        (contract_event c (ac_record_id k) key "acceptance_contract" by_
           (contract_payload id (ac_version k) "confirmed"));
  mret tt.

(** Under the advisory lock of the record. [read] is the contract read before. *)
Definition resolve_locked (c : Clock) (i : ResolveInput) (read : string * AcceptanceContract)
    : contract_tx (string * AcceptanceContract) :=
  let '(recordId, version) := (ac_record_id read.2, ac_version read.2) in
  current ← reads (λ g, head (select_where (is_confirmed_of recordId) (rd_contracts (kd_records g))));
  match current with
  | Some k =>
      if ac_version k.2 =? version then
        _ ← close_approval c (ri_approvalId i) "approved";
        mret k
      else throw other_version_confirmed
  | None =>
      confirmed ← on_records (confirm_draft recordId version (ri_confirmedBy i) (js_now c));
      k ← some_or confirmed lost_precondition;
      _ ← on_records (appendAcceptanceContractConfirmedEventInTransaction c (ri_confirmedBy i) k.1 k.2);
      closed ← close_approval c (ri_approvalId i) "approved";
      _ ← require_true closed lost_precondition;
      mret k
  end.

Definition resolve_tx (c : Clock) (i : ResolveInput) : contract_tx ResolveOutcome :=
  checked ← resolve_checks c i;
  match checked with
  | inl outcome => mret outcome
  | inr read => k ← resolve_locked c i read; mret (resolved (Some k))
  end.
Definition resolveAcceptanceContractApproval (c : Clock) (i : ResolveInput) g
    : (RecordError + ResolveOutcome) * ContractDb := transaction (resolve_tx c i) g.

End Contracts.
