(* ===== verification/ContractFacts.v ===== *)
(** * ContractFacts: what drafting and confirming do to the contracts

    The versions of a record are unique and dense, at most one is confirmed,
    and no operation of [Contracts] edits what a version says. *)

From S2P Require Import Prelude Table Regex Intake Tx RecordSchema JsonText Timeline.
From S2P Require Import ChangeRecords Approvals Contracts.
Open Scope Z_scope.

Implicit Types (t : contracts) (k : AcceptanceContract) (d : RecordDb) (g : ContractDb).

(** ** One contract *)

Definition contract_text k := (ac_record_id k, ac_version k, ac_contract k, ac_created_by k, ac_created_at k).

(** The text never changes; a draft may be confirmed, and then stays. *)
Record contract_later k k' : Prop := {
  cl_text : contract_text k' = contract_text k;
  cl_confirmed : ac_status k = "confirmed" → k' = k;
  cl_status : ac_status k' = ac_status k ∨ ac_status k = "draft" ∧ ac_status k' = "confirmed";
}.
#[export] Instance contract_later_preorder : PreOrder contract_later.
Proof.
  split; [by split; auto|]. intros k1 k2 k3 [T1 C1 S1] [T2 C2 S2]. split; [congruence| |].
  - intros H. rewrite <- (C1 H) at 1. apply C2. by rewrite (C1 H).
  - destruct S1 as [S1|[S1 S1']], S2 as [S2|[S2 S2']]; rewrite ?S1, ?S2 in *; auto; congruence.
Qed.

Lemma confirm_later by_ now k : ac_status k = "draft" → contract_later k (set_confirmed by_ now k).
Proof. intros H. split; [done|congruence|by right]. Qed.

(** ** The versions of a record *)

Record versions_ok t : Prop := {
  vo_unique : exclusive (λ _, True) (λ k, (ac_record_id k, ac_version k)) t;
  vo_positive : map_Forall (λ _ k, 1 ≤ ac_version k) t;
  vo_dense : ∀ id k, t !! id = Some k → ac_version k = 1 ∨
    ∃ id' k', t !! id' = Some k' ∧ ac_record_id k' = ac_record_id k ∧ ac_version k' = ac_version k - 1;
}.

Lemma latest_contract_Some r t id k :
  latest_contract r t = Some (id, k) →
  t !! id = Some k ∧ ac_record_id k = r
  ∧ ∀ id' k', t !! id' = Some k' → ac_record_id k' = r → ac_version k' ≤ ac_version k.
Proof.
  unfold latest_contract, newest. intros [Hin Hmin]%oldest_Some.
  apply elem_of_select_where in Hin as [H1 H2%bool_decide_eq_true]. split_and!; [done..|].
  intros id' k' Hk' Hr. specialize (Hmin id' k'). rewrite elem_of_select_where, bool_decide_eq_true in Hmin.
  specialize (Hmin (conj Hk' Hr)). lia.
Qed.
Lemma latest_contract_None r t :
  latest_contract r t = None ↔ ∀ id k, t !! id = Some k → ac_record_id k ≠ r.
Proof.
  unfold latest_contract, newest. rewrite oldest_None. split.
  - intros Hn id k Hk Hr. pose proof (select_nil _ _ _ _ Hn Hk) as H. by apply bool_decide_eq_false in H.
  - intros H. destruct (select_where _ t) as [|[id k] l] eqn:E; [done|].
    assert (Hin : (id, k) ∈ select_where (λ _ k, ac_record_id k ≡? r) t) by (rewrite E; set_solver).
    apply elem_of_select_where in Hin as [H1 H2%bool_decide_eq_true]. by destruct (H id k).
Qed.

(** The next version is above every version there is, and next to one. *)
Lemma next_version_spec r t :
  versions_ok t →
  1 ≤ next_version r t
  ∧ (∀ id k, t !! id = Some k → ac_record_id k = r → ac_version k < next_version r t)
  ∧ (next_version r t = 1 ∨
     ∃ id k, t !! id = Some k ∧ ac_record_id k = r ∧ ac_version k = next_version r t - 1).
Proof.
  intros [_ Hp _]. unfold next_version. destruct (latest_contract r t) as [[id k]|] eqn:E.
  - apply latest_contract_Some in E as (Hk & Hr & Hmax). specialize (Hp id k Hk). split_and!; [simpl in *; lia| |].
    + intros id' k' Hk' Hr'. specialize (Hmax id' k' Hk' Hr'). lia.
    + right. exists id, k. split_and!; [done..|lia].
  - rewrite latest_contract_None in E. split_and!; [done| |by left].
    intros id k Hk Hr. by destruct (E id k).
Qed.

Lemma versions_insert t id k :
  versions_ok t → t !! id = None → ac_version k = next_version (ac_record_id k) t → versions_ok (<[id := k]> t).
Proof.
  intros Hv Hid Hk. destruct (next_version_spec (ac_record_id k) t Hv) as (H1 & Hlt & Hprev).
  destruct Hv as [Hu Hp Hd]. split.
  - intros id1 id2 k1 k2. rewrite !lookup_insert_Some.
    intros [[<- <-]|[_ L1]] [[<- <-]|[_ L2]] _ _ Heq; try done; injection Heq as R V; [..|by apply (Hu id1 id2 k1 k2); try done; congruence].
    + specialize (Hlt id2 k2 L2 (eq_sym R)). lia.
    + specialize (Hlt id1 k1 L1 R). lia.
  - apply map_Forall_insert_2; [lia|done].
  - intros id1 k1. rewrite lookup_insert_Some. intros [[<- <-]|[N L]].
    + destruct Hprev as [Hprev|(id' & k' & L & R & V)]; [left; lia|right].
      exists id', k'. rewrite lookup_insert_ne by congruence. split_and!; [done..|lia].
    + destruct (Hd id1 k1 L) as [?|(id' & k' & L' & R & V)]; [by left|right].
      exists id', k'. rewrite lookup_insert_ne by congruence. done.
Qed.

(** Confirming keeps the versions. *)
Lemma versions_update p f t :
  (∀ k, contract_text (f k) = contract_text k) → versions_ok t → versions_ok (update_where p f t).
Proof.
  intros Hf [Hu Hp Hd].
  assert (Hback : ∀ id k', update_where p f t !! id = Some k' →
    ∃ k, t !! id = Some k ∧ ac_record_id k' = ac_record_id k ∧ ac_version k' = ac_version k).
  { intros id k'. rewrite lookup_update_where. destruct (t !! id) as [k|]; [|done]. simpl. intros [= <-].
    exists k. pose proof (Hf k) as H. unfold contract_text in H. destruct (p id k); [|done].
    injection H as -> -> _ _ _. done. }
  split.
  - intros id1 id2 k1 k2 H1 H2 _ _ [= R V].
    apply Hback in H1 as (k1' & L1 & R1 & V1), H2 as (k2' & L2 & R2 & V2). eapply Hu; eauto; congruence.
  - intros id k (k' & L & R & V)%Hback. rewrite V. by apply (Hp id).
  - intros id k (k' & L & R & V)%Hback. rewrite R, V.
    destruct (Hd id k' L) as [?|(id' & k0 & L' & R' & V')]; [by left|right].
    exists id', (if p id' k0 then f k0 else k0). rewrite lookup_update_where, L'. simpl.
    pose proof (Hf k0) as H. unfold contract_text in H. injection H as H1 H2 _ _ _.
    destruct (p id' k0); split_and!; congruence.
Qed.

(** ** What drafting keeps *)

Definition same_workspace (r r' : ChangeRecord) : Prop := cr_workspace_id r' = cr_workspace_id r.
#[export] Instance same_workspace_preorder : PreOrder same_workspace.
Proof. split; [done|]. unfold same_workspace. intros ????. congruence. Qed.

(** A version nobody confirmed. *)
Definition is_draft k : Prop := ac_status k = "draft" ∧ ac_confirmed_by k = None ∧ ac_confirmed_at k = None.

Record drafts d d' : Prop := {
  dr_records : rows same_workspace (rd_records d) (rd_records d');
  dr_events : rd_events d ⊆ rd_events d';
  dr_contracts : rd_contracts d ⊆ rd_contracts d';
  dr_new : ∀ id k, rd_contracts d' !! id = Some k →
    rd_contracts d !! id = Some k ∨ is_draft k ∧ complete (ac_contract k) = true;
  dr_versions : versions_ok (rd_contracts d) → versions_ok (rd_contracts d');
}.
#[export] Instance drafts_preorder : PreOrder drafts.
Proof.
  split; [by split; auto|]. intros d1 d2 d3 [] []. split; try by etrans; eauto.
  - intros id k H. destruct (dr_new1 id k H) as [?|?]; eauto.
  - auto.
Qed.

Lemma drafts_contracts_same d d' :
  rd_contracts d' = rd_contracts d → rd_events d ⊆ rd_events d' →
  rows same_workspace (rd_records d) (rd_records d') → drafts d d'.
Proof. intros Hc ??. split; rewrite ?Hc; eauto. Qed.

Lemma drafts_event id e : keeps drafts (insert_event id e).
Proof.
  intros d b d' [(_ & -> & _)|(_ & -> & Hid & _)]%insert_event_inr; [done|].
  apply drafts_contracts_same; [done|by apply insert_subseteq|done].
Qed.
#[local] Hint Resolve drafts_event : agentrail.

Lemma drafts_update_record id f : (∀ r, same_workspace r (f r)) → keeps drafts (update_record id f).
Proof.
  intros Hf d r d' (r0 & Hr & -> & ->)%update_record_inr. apply drafts_contracts_same; [done..|].
  apply rows_insert with r0; [apply _|done|apply Hf].
Qed.
Lemma drafts_insert_record id r : keeps drafts (insert_record id r).
Proof.
  intros d r' d' (Hr & -> & ->)%insert_record_inr. apply drafts_contracts_same; [done..|].
  by apply rows_insert_fresh; [apply _|].
Qed.
#[local] Hint Resolve drafts_update_record drafts_insert_record : agentrail.

Lemma drafts_upsert c id i wk refs : keeps drafts (upsert_work_record c id i wk refs).
Proof. unfold upsert_work_record. keeps; (apply drafts_update_record || apply drafts_insert_record); done. Qed.

#[local] Hint Resolve drafts_upsert : agentrail.

Section Drafts.
Context (sha1 : list Z → list Z).

Lemma drafts_contract_event c id k : keeps drafts (draft_event sha1 c id k).
Proof. unfold draft_event, appendContractEventInTransaction. keeps. Qed.

Lemma insert_contract_inr id k d x d' :
  insert_contract id k d = inr (x, d') →
  x = (id, k) ∧ rd_contracts d !! id = None
  ∧ is_Some (rd_records d !! ac_record_id k)
  ∧ (∀ id' k', rd_contracts d !! id' = Some k' → ac_record_id k' = ac_record_id k → ac_version k' ≠ ac_version k)
  ∧ d' = with_contracts (<[id := k]> (rd_contracts d)) d.
Proof.
  unfold insert_contract. destruct (rd_contracts d !! id) eqn:E; [done|]. simpl.
  case_bool_decide as Hn; [|done]. destruct (rd_records d !! _) eqn:Er; [|done]. simpl. intros [= <- <-].
  split_and!; [done..|by eexists| |done]. intros id' k' Hk' Hr Hv.
  pose proof (select_nil _ _ _ _ Hn Hk') as H. unfold has_version in H.
  by rewrite bool_decide_eq_true_2, (proj2 (Z.eqb_eq _ _)) in H.
Qed.

(** Inserting the next version of a record, complete. *)
Lemma drafts_insert c id r contract by_ d x d' :
  complete contract = true →
  insert_contract id (draft c r (next_version r (rd_contracts d)) contract by_) d = inr (x, d') → drafts d d'.
Proof.
  intros Hc (-> & Hid & _ & _ & ->)%insert_contract_inr. split; simpl; [done..|by apply insert_subseteq| |].
  - intros id' k' [[<- <-]|[_ ?]]%lookup_insert_Some; [by right|by left].
  - intros Hv. by apply versions_insert.
Qed.

Lemma drafts_in_transaction c i wk refs :
  complete (di_contract i) = true → keeps drafts (createDraftAcceptanceRecordInTransaction sha1 c i wk refs).
Proof.
  intros Hc. unfold createDraftAcceptanceRecordInTransaction.
  apply keeps_bind; [apply _|keeps|intros rid]. apply keeps_bind; [apply _|keeps|intros [r row]].
  intros d x d' H. apply bind_inr in H as (existing & d1 & [-> ->]%reads_inr & H). simpl in H.
  destruct (latest_contract r (rd_contracts d)) as [k|] eqn:E; [by apply ret_inr in H as [_ ->]|].
  apply bind_inr in H as (k & d1 & H1 & H). apply bind_inr in H as (u & d2 & H2 & [_ ->]%ret_inr).
  etrans; [|by eapply drafts_contract_event]. eapply (drafts_insert c); [exact Hc|].
  unfold next_version. rewrite E. exact H1.
Qed.

Lemma drafts_version c r contract by_ d : drafts d (createDraftAcceptanceContract sha1 c r contract by_ d).2.
Proof.
  unfold createDraftAcceptanceContract. destruct (complete contract) eqn:Hc; [|done].
  apply keeps_transaction; [apply _|]. intros d0 x d' H.
  apply bind_inr in H as (v & d1 & [-> ->]%reads_inr & H).
  apply bind_inr in H as (k & d1 & H1 & H). apply bind_inr in H as (u & d2 & H2 & [_ ->]%ret_inr).
  etrans; [by eapply drafts_insert|by eapply drafts_contract_event].
Qed.

Lemma drafts_record c uuid i wk refs d : drafts d (createDraftAcceptanceRecord sha1 c uuid i wk refs d).2.
Proof.
  unfold createDraftAcceptanceRecord. destruct (complete _) eqn:Hc; [|done].
  by apply keeps_transaction, drafts_in_transaction; [apply _|].
Qed.

Lemma drafts_link ws id r now : keeps drafts (link_intake ws id r now).
Proof.
  unfold link_intake. keeps. apply keeps_runs. intros d. destruct (update_row _ _ _ _). simpl.
  by apply drafts_contracts_same.
Qed.
#[local] Hint Resolve drafts_link : agentrail.

Lemma drafts_from_intake c i d : drafts d (createDraftAcceptanceRecordFromIntake sha1 c i d).2.
Proof.
  unfold createDraftAcceptanceRecordFromIntake. destruct (complete _) eqn:Hc; [|done]. simpl.
  destruct (trim _ ≢? _); [|done].
  apply keeps_transaction; [apply _|]. unfold draft_from_intake_tx, assertExistingDraft.
  apply keeps_bind; [apply _|keeps|intros o]. apply keeps_bind; [apply _|keeps|intros x].
  destruct (in_record_id x); [keeps|].
  apply keeps_bind; [apply _|by apply drafts_in_transaction|intros [r k]].
  unfold appendContractEventInTransaction. keeps.
Qed.
End Drafts.

(** ** One record per intake *)

Lemma upsert_inr c id i wk refs d x d' :
  upsert_work_record c id i wk refs d = inr (x, d') →
  rd_records d' !! x.1 = Some x.2 ∧ cr_workspace_id x.2 = di_workspaceId i ∧ cr_repo x.2 = di_repo i
  ∧ cr_work_key x.2 = Some wk ∧ rd_contracts d' = rd_contracts d ∧ rd_intakes d' = rd_intakes d.
Proof.
  unfold upsert_work_record. intros H. apply bind_inr in H as (o & d1 & [-> ->]%reads_inr & H).
  destruct (find_record _ _) as [[k r0]|] eqn:F.
  - apply find_record_Some in F as [F1 F2]. apply bind_inr in H as (r & d1 & Hu & [<- ->]%ret_inr).
    apply update_record_inr in Hu as (r1 & Hr1 & -> & ->). simpl.
    unfold has_work_key, in_repo, sql_eq in F2. rewrite !andb_true_iff, !bool_decide_eq_true in F2.
    assert (r1 = r0) as -> by congruence. simpl. rewrite lookup_insert_eq. naive_solver.
  - apply bind_inr in H as (r & d1 & Hu & [<- ->]%ret_inr). apply insert_record_inr in Hu as (Hn & -> & ->). simpl.
    by rewrite lookup_insert_eq.
Qed.

Lemma contract_event_inr sha1 c r key stage actor p d u d' :
  appendContractEventInTransaction sha1 c r key stage actor p d = inr (u, d') →
  rd_records d' = rd_records d ∧ rd_contracts d' = rd_contracts d ∧ rd_intakes d' = rd_intakes d.
Proof.
  unfold appendContractEventInTransaction. intros H. apply bind_inr in H as (b & d1 & H & [_ ->]%ret_inr).
  by apply insert_event_inr in H as [(_ & -> & _)|(_ & -> & _)].
Qed.

Lemma in_transaction_inr sha1 c i wk refs d x (k : string * AcceptanceContract) d' :
  createDraftAcceptanceRecordInTransaction sha1 c i wk refs d = inr ((x, k), d') →
  rd_records d' !! x.1 = Some x.2 ∧ cr_workspace_id x.2 = di_workspaceId i ∧ cr_repo x.2 = di_repo i
  ∧ cr_work_key x.2 = Some wk ∧ latest_contract x.1 (rd_contracts d') = Some k ∧ rd_intakes d' = rd_intakes d.
Proof.
  unfold createDraftAcceptanceRecordInTransaction. intros H.
  apply bind_inr in H as (rid & d1 & [_ ->]%some_or_inr & H).
  apply bind_inr in H as (x1 & d1 & Hu & H). apply upsert_inr in Hu as (H1 & H2 & H3 & H4 & Hc & Hin).
  apply bind_inr in H as (o & d2 & [-> ->]%reads_inr & H).
  destruct (latest_contract x1.1 (rd_contracts d1)) as [k1|] eqn:E.
  - apply ret_inr in H as [[= <- <-] <-]. done.
  - apply bind_inr in H as (k1 & d2 & Hk & H). apply bind_inr in H as (u & d3 & He & [[= <- <-] <-]%ret_inr).
    apply insert_contract_inr in Hk as (-> & Hn & _ & _ & ->). apply contract_event_inr in He as (-> & -> & ->).
    simpl in *. split_and!; try done. rewrite latest_contract_None in E.
    destruct (latest_contract x1.1 _) as [[id' k']|] eqn:E'.
    + apply latest_contract_Some in E' as ([[<- <-]|[_ L]]%lookup_insert_Some & R & _); [done|].
      by destruct (E id' k' L).
    + rewrite latest_contract_None in E'.
      by destruct (E' (acceptanceContractId sha1 rid 1) (draft c x1.1 1 (di_contract i) (di_createdBy i)) (lookup_insert_eq _ _ _)).
Qed.

(** The draft the intake [id] of [ws] is bound to, in [d]. *)
Record bound_draft (ws id : string) (y : IntakeDraft) d : Prop := {
  bd_intake : intake_of ws id d = Some (id_intake y);
  bd_bound : in_record_id (id_intake y) = Some (id_record y).1;
  bd_record : rd_records d !! (id_record y).1 = Some (id_record y).2;
  bd_workspace : cr_workspace_id (id_record y).2 = ws;
  bd_contract : latest_contract (id_record y).1 (rd_contracts d) = Some (id_contract y);
}.

Lemma link_intake_inr ws id r now d x d' :
  link_intake ws id r now d = inr (x, d') →
  ∃ x0, rd_intakes d !! id = Some x0 ∧ in_workspace_id x0 = ws ∧ x = set_drafted r now x0
    ∧ d' = with_intakes (<[id := x]> (rd_intakes d)) d.
Proof.
  unfold link_intake. intros H. apply bind_inr in H as (o & d1 & Hr%runs_inr & H).
  apply bind_inr in H as (x1 & d2 & [Ho ->]%some_or_inr & H). apply bind_inr in H as (l & d2 & [_ ->]%reads_inr & H).
  apply bind_inr in H as (u & d2 & [_ ->]%require_inr & [-> <-]%ret_inr).
  destruct (update_rowP (λ x, (in_workspace_id x ≡? ws) && is_null (in_record_id x)) (set_drafted r now) id
    (rd_intakes d)) as [x0 Hx0 Hp|_]; simplify_eq.
  apply andb_true_iff in Hp as [Hp%bool_decide_eq_true _]. by exists x0.
Qed.

Lemma existing_draft_run sha1 c i d x r :
  intake_of (ti_workspaceId i) (ti_intakeId i) d = Some x → in_record_id x = Some r →
  draft_from_intake_tx sha1 c i d = assertExistingDraft i x r d.
Proof. intros Hx Hr. unfold draft_from_intake_tx, mbind, tx_bind, reads, some_or, mret, tx_ret. rewrite Hx, Hr. reflexivity. Qed.

Lemma assert_existing_inr i x r d y d' :
  assertExistingDraft i x r d = inr (y, d') →
  d' = d ∧ id_intake y = x ∧ id_created y = false ∧ (id_record y).1 = r
  ∧ rd_records d !! r = Some (id_record y).2 ∧ cr_workspace_id (id_record y).2 = ti_workspaceId i
  ∧ latest_contract r (rd_contracts d) = Some (id_contract y)
  ∧ cr_repo (id_record y).2 = trim (ti_repo i) ∧ cr_work_key (id_record y).2 = Some (intake_work_key (ti_intakeId i))
  ∧ same_draft i x (id_record y).2 (id_contract y).2 = true.
Proof.
  unfold assertExistingDraft. intros H.
  apply bind_inr in H as (o & d1 & [-> ->]%reads_inr & H). apply bind_inr in H as (r0 & d1 & [Hr ->]%some_or_inr & H).
  apply bind_inr in H as (o & d1 & [-> ->]%reads_inr & H). apply bind_inr in H as (k & d1 & [Hk ->]%some_or_inr & H).
  apply bind_inr in H as (u & d1 & [Hb ->]%require_inr & [<- <-]%ret_inr). simpl.
  destruct (rd_records d !! r) as [r1|]; [|done].
  destruct (cr_workspace_id r1 ≡? ti_workspaceId i) eqn:Hws; [|done]. apply bool_decide_eq_true in Hws. injection Hr as ->.
  apply andb_true_iff in Hb as [[Hb1%bool_decide_eq_true Hb2%bool_decide_eq_true]%andb_true_iff Hb3].
  split_and!; (reflexivity || assumption).
Qed.
Lemma assert_existing_run i x r r0 (k : string * AcceptanceContract) d :
  rd_records d !! r = Some r0 → cr_workspace_id r0 = ti_workspaceId i → latest_contract r (rd_contracts d) = Some k →
  cr_repo r0 = trim (ti_repo i) → cr_work_key r0 = Some (intake_work_key (ti_intakeId i)) →
  same_draft i x r0 k.2 = true → assertExistingDraft i x r d = inr (mkIntakeDraft x (r, r0) k false, d).
Proof.
  intros H1 H2 H3 H4 H5 H6. unfold assertExistingDraft, mbind, tx_bind, reads. rewrite H1, H2. simpl.
  rewrite bool_decide_eq_true_2 by done. simpl. rewrite H3. simpl. rewrite H4, H5, H6. unfold sql_eq.
  by rewrite !bool_decide_eq_true_2.
Qed.

(** What a draft from an intake commits. *)
Lemma from_intake_inr sha1 c i d y d1 :
  draft_from_intake_tx sha1 c i d = inr (y, d1) →
  bound_draft (ti_workspaceId i) (ti_intakeId i) y d1
  ∧ cr_repo (id_record y).2 = trim (ti_repo i) ∧ cr_work_key (id_record y).2 = Some (intake_work_key (ti_intakeId i))
  ∧ same_draft i (id_intake y) (id_record y).2 (id_contract y).2 = true
  ∧ (id_created y = false → d1 = d).
Proof.
  intros H. destruct (intake_of (ti_workspaceId i) (ti_intakeId i) d) as [x|] eqn:Hx.
  2: { unfold draft_from_intake_tx, mbind, tx_bind, reads in H. by rewrite Hx in H. }
  destruct (in_record_id x) as [r|] eqn:Hr.
  { rewrite (existing_draft_run _ _ _ _ _ _ Hx Hr) in H.
    apply assert_existing_inr in H as (-> & E1 & E2 & E3 & E4 & E5 & E6 & E7 & E8 & E9). subst x r.
    split_and!; try done. }
  unfold draft_from_intake_tx in H. apply bind_inr in H as (o & d2 & [-> ->]%reads_inr & H).
  rewrite Hx in H. apply bind_inr in H as (x' & d2 & [[= <-] ->]%some_or_inr & H). rewrite Hr in H.
  apply bind_inr in H as ([rec k] & d2 & Ht & H).
  apply in_transaction_inr in Ht as (H1 & H2 & H3 & H4 & H5 & H6). simpl in *.
  apply bind_inr in H as (u & d3 & [Hb ->]%require_inr & H). apply bind_inr in H as (l & d3 & Hl & H).
  apply bind_inr in H as (u' & d4 & He & [<- ->]%ret_inr).
  apply link_intake_inr in Hl as (x0 & Hx0 & Hw & -> & ->). apply contract_event_inr in He as (R & C & I).
  assert (x0 = x) as ->.
  { rewrite H6 in Hx0. unfold intake_of in Hx. rewrite Hx0 in Hx. case_bool_decide; congruence. }
  split_and!; simpl in *; try done. split; simpl; try done.
  - unfold intake_of. rewrite I, lookup_insert_eq. simpl. by rewrite bool_decide_eq_true_2.
  - by rewrite R.
  - by rewrite C.
Qed.

(** An intake is drafted once.  After a call that succeeds the
    intake is bound to the record and the contract it returned; from then on a
    call for that intake changes nothing whatever it asks for, a call with the
    same repository and contract returns the same record and contract, and a
    call that succeeds never returns others. *)
Theorem intake_drafted_once sha1 c i d y d1 :
  createDraftAcceptanceRecordFromIntake sha1 c i d = (inr y, d1) →
  bound_draft (ti_workspaceId i) (ti_intakeId i) y d1
  ∧ (∀ c' i', ti_workspaceId i' = ti_workspaceId i → ti_intakeId i' = ti_intakeId i →
       (createDraftAcceptanceRecordFromIntake sha1 c' i' d1).2 = d1
       ∧ ∀ y', (createDraftAcceptanceRecordFromIntake sha1 c' i' d1).1 = inr y' →
           id_record y' = id_record y ∧ id_contract y' = id_contract y ∧ id_created y' = false)
  ∧ ∀ c', (createDraftAcceptanceRecordFromIntake sha1 c' i d1).1
          = inr (mkIntakeDraft (id_intake y) (id_record y) (id_contract y) false).
Proof.
  unfold createDraftAcceptanceRecordFromIntake. destruct (complete (ti_contract i) && _) eqn:Hok; [|done].
  unfold transaction at 1. destruct (draft_from_intake_tx sha1 c i d) as [e|[y0 d0]] eqn:H; [done|].
  intros [= -> ->]. apply from_intake_inr in H as ([B1 B2 B3 B4 B5] & Hr & Hw & Hs & _).
  split_and!; [done| |].
  - intros c' i' Ew Ei. destruct (complete (ti_contract i') && _); [|done].
    unfold transaction. rewrite (existing_draft_run sha1 c' i' d1 (id_intake y) (id_record y).1); [|by rewrite Ew, Ei|done].
    destruct (assertExistingDraft _ _ _ _) as [e|[y' d']] eqn:E; simpl; [done|].
    apply assert_existing_inr in E as (-> & E1 & E2 & E3 & E4 & _ & E6 & _). split; [done|]. intros y1 [= <-].
    split_and!; [|congruence|done]. destruct (id_record y'), (id_record y); simpl in *; congruence.
  - intros c'. unfold transaction.
    rewrite (existing_draft_run sha1 c' i d1 (id_intake y) (id_record y).1) by done.
    rewrite (assert_existing_run i (id_intake y) _ _ _ _ B3 B4 B5 Hr Hw Hs). simpl.
    do 2 f_equal. by destruct (id_record y).
Qed.

(** ** A contract, and an intake that drafts it *)

Definition contract_doc (questions : list json) : json :=
  JObj [("originalRequest", JStr "Add a dark mode"); ("normalizedRequirements", JArr []);
        ("acceptanceCriteria", JArr [JObj [("id", JStr "c1"); ("text", JStr "A toggle"); ("userVisible", JBool true)]]);
        ("nonGoals", JArr []); ("risks", JArr []); ("stops", JArr []); ("unresolvedQuestions", JArr questions);
        ("environment", JObj [])].
Definition open_question : json := JObj [("id", JStr "q1"); ("text", JStr "Which theme?")].
Example contract_docs_checked :
  validateAcceptanceContract (contract_doc []) = []
  ∧ complete (contract_doc [open_question]) = true ∧ open_questions (contract_doc [open_question]) = true
  ∧ validateAcceptanceContract (contract_doc [JStr "?"]) = ["unresolvedQuestions"]
  ∧ validateAcceptanceContract (JObj [("risks", JArr [])])
    = ["originalRequest"; "normalizedRequirements"; "acceptanceCriteria"; "nonGoals"; "stops"; "unresolvedQuestions";
       "environment"].
Proof. vm_compute. done. Qed.


Definition intake_db : RecordDb :=
  mkRecordDb ∅ ∅ ∅ ∅ {["i1" := mkAcceptanceIntake "w1" "telegram" "chat-7" (JArr [JStr "ref"]) "collecting_context" None 1 1]} ∅ ∅.
Definition intake_draft (repo : string) : IntakeDraftInput :=
  mkIntakeDraftInput "w1" "i1" repo (contract_doc []) "jace".
Definition intake_drafted : (RecordError + IntakeDraft) * RecordDb :=
  createDraftAcceptanceRecordFromIntake sum_sha1 (mkClock 5 5) (intake_draft " acme/app ") intake_db.

Example intake_draft_ends :
  (in_status <$> rd_intakes intake_drafted.2 !! "i1") = Some "drafted"
  ∧ size (rd_contracts intake_drafted.2) = 1%nat ∧ size (rd_events intake_drafted.2) = 2%nat
  ∧ (createDraftAcceptanceRecordFromIntake sum_sha1 (mkClock 6 6) (intake_draft "acme/other") intake_drafted.2).1
    = inl intake_conflict
  ∧ (createDraftAcceptanceRecordFromIntake sum_sha1 (mkClock 6 6) (mkIntakeDraftInput "w2" "i1" "a/b" (contract_doc []) "x")
       intake_db).1 = inl intake_not_found.
Proof. vm_compute. done. Qed.

Lemma intake_drafted_once_witness :
  ∃ y, createDraftAcceptanceRecordFromIntake sum_sha1 (mkClock 5 5) (intake_draft " acme/app ") intake_db
       = (inr y, intake_drafted.2)
    ∧ (createDraftAcceptanceRecordFromIntake sum_sha1 (mkClock 9 9) (intake_draft " acme/app ") intake_drafted.2).1
      = inr (mkIntakeDraft (id_intake y) (id_record y) (id_contract y) false).
Proof.
  assert (E : ∃ y, createDraftAcceptanceRecordFromIntake sum_sha1 (mkClock 5 5) (intake_draft " acme/app ") intake_db
       = (inr y, intake_drafted.2)) by (eexists; vm_compute; reflexivity).
  destruct E as [y E]. exists y. split; [exact E|].
  exact (proj2 (proj2 (intake_drafted_once sum_sha1 (mkClock 5 5) (intake_draft " acme/app ") intake_db y
    intake_drafted.2 E)) (mkClock 9 9)).
Defined.
