(* ===== verification/ContractHistory.v ===== *)
(** * ContractHistory: drafting, approving and confirming, interleaved

    The operations of [Contracts] and [Approvals] as one transition system.
    The approval that confirms a contract takes two steps - its checks, under
    the lock of the approval's row, and the rest, under the advisory lock of
    the record - with any other operation in between. *)

From S2P Require Import Prelude Table Regex Intake Tx RecordSchema JsonText Timeline.
From S2P Require Import ChangeRecords Approvals Contracts ContractFacts.
Open Scope Z_scope.

(** The database, and the resolutions that have passed their checks and hold
    their approval: what they were asked, and the contract they read. *)
Record ContractState := mkContractState {
  cs_db : ContractDb;
  cs_locked : gmap string (ResolveInput * (string * AcceptanceContract));
}.

Inductive contract_op :=
  | co_record (c : Clock) (uuid : string) (i : DraftInput) (workKey : option string) (refs : option json)
  | co_intake (c : Clock) (i : IntakeDraftInput)
  | co_version (c : Clock) (recordId : string) (contract : json) (createdBy : string)
  | co_approval (o : approval_op)
  | co_begin (c : Clock) (i : ResolveInput)
  | co_finish (c : Clock) (approvalId : string).

(** The approval an operation writes: it waits while the row is locked. *)
Definition writes_approval (o : approval_op) : option string :=
  match o with op_request _ _ _ _ => None | op_resolve _ id _ _ | op_stamp id _ => Some id end.
Definition waits (s : ContractState) (id : option string) : bool :=
  match id with Some id => negb (is_null (cs_locked s !! id)) | None => false end.

Section History.
Context (sha1 : list Z → list Z).
Implicit Types (t : contracts) (k : AcceptanceContract) (d : RecordDb) (g : ContractDb) (s : ContractState).

Definition with_db d s : ContractState :=
  mkContractState (mkContractDb d (kd_approvals (cs_db s))) (cs_locked s).
Definition exec_contract (o : contract_op) s : ContractState :=
  let d := kd_records (cs_db s) in
  match o with
  | co_record c uuid i wk refs => with_db (createDraftAcceptanceRecord sha1 c uuid i wk refs d).2 s
  | co_intake c i => with_db (createDraftAcceptanceRecordFromIntake sha1 c i d).2 s
  | co_version c r contract by_ => with_db (createDraftAcceptanceContract sha1 c r contract by_ d).2 s
  | co_approval o =>
      if waits s (writes_approval o) then s
      else mkContractState (mkContractDb d (exec_approval o (kd_approvals (cs_db s)))) (cs_locked s)
  | co_begin c i =>
      if waits s (Some (ri_approvalId i)) then s else
      match transaction (resolve_checks c i) (cs_db s) with
      | (inr (inr read), g) => mkContractState g (<[ri_approvalId i := (i, read)]> (cs_locked s))
      | (_, g) => mkContractState g (cs_locked s)
      end
  | co_finish c id =>
      match cs_locked s !! id with
      | Some (i, read) =>
          mkContractState (transaction (resolve_locked sha1 c i read) (cs_db s)).2 (delete id (cs_locked s))
      | None => s
      end
  end.
Definition exec_contracts (l : list contract_op) s : ContractState := fold_left (λ s o, exec_contract o s) l s.

(** ** The checks *)

(** The approval [a] asks to confirm the contract [id] of workspace [ws]. *)
Definition asks (ws id : string) (a : JaceApproval) : Prop :=
  ap_tool_name a = "confirm_acceptance_contract" ∧ contract_binding a = Some id
  ∧ ap_workspace_id a = Some ws.

Lemma contract_inP ws id d k :
  contract_in ws id d = Some k ↔
  rd_contracts d !! id = Some k ∧ ∃ r, rd_records d !! ac_record_id k = Some r ∧ cr_workspace_id r = ws.
Proof.
  unfold contract_in. rewrite bind_Some. split.
  - intros (k' & Hk & H). apply bind_Some in H as (r & Hr & H). case_bool_decide; naive_solver.
  - intros (Hk & r & Hr & Hw). exists k. split; [done|]. rewrite Hr. simpl. by rewrite bool_decide_eq_true_2.
Qed.

Definition with_approvals (t : approval_table) g : ContractDb := mkContractDb (kd_records g) t.

Inductive checks_spec (c : Clock) (i : ResolveInput) g : ResolveOutcome + (string * AcceptanceContract) → ContractDb → Prop :=
| checks_no reason : checks_spec c i g (inl (unresolved reason)) g
| checks_denied a :
    ri_decision i = dec_denied → kd_approvals g !! ri_approvalId i = Some a → is_pending a = true →
    ap_workspace_id a = Some (ri_workspaceId i) →
    checks_spec c i g (inl (resolved None))
      (with_approvals (<[ri_approvalId i := set_ap_status "denied" (js_now c) a]> (kd_approvals g)) g)
| checks_again a id k :
    ri_decision i = dec_approved → kd_approvals g !! ri_approvalId i = Some a → ap_status a = "approved" →
    ap_workspace_id a = Some (ri_workspaceId i) → contract_binding a = Some id → contract_in (ri_workspaceId i) id (kd_records g) = Some k →
    ac_status k = "confirmed" → checks_spec c i g (inl (resolved (Some (id, k)))) g
| checks_passed a id k :
    ri_decision i = dec_approved → kd_approvals g !! ri_approvalId i = Some a → is_pending a = true →
    asks (ri_workspaceId i) id a → contract_in (ri_workspaceId i) id (kd_records g) = Some k →
    ac_status k = "draft" → complete (ac_contract k) = true → open_questions (ac_contract k) = false →
    checks_spec c i g (inr (id, k)) g.

Lemma close_approval_run c id status g :
  close_approval c id status g =
  inr (match kd_approvals g !! id with
       | Some a => if is_pending a
                   then (true, with_approvals (<[id := set_ap_status status (js_now c) a]> (kd_approvals g)) g)
                   else (false, g)
       | None => (false, g)
       end).
Proof.
  unfold close_approval, runs, update_row. destruct g as [d t]. simpl.
  destruct (t !! id) as [a|]; [by destruct (is_pending a)|done].
Qed.

Lemma resolve_checks_run c i g : ∃ o g', resolve_checks c i g = inr (o, g') ∧ checks_spec c i g o g'.
Proof.
  unfold resolve_checks, mbind, tx_bind, reads. simpl.
  destruct (kd_approvals g !! ri_approvalId i) as [a|] eqn:Ha; [|by do 2 eexists; split; [done|constructor]].
  destruct (sql_eq (ap_workspace_id a) (ri_workspaceId i)) eqn:Hw; simpl;
    [|by do 2 eexists; split; [done|constructor]].
  apply bool_decide_eq_true in Hw.
  destruct (ri_decision i) eqn:Hd.
  - destruct (ap_status a ≡? "approved") eqn:Hs.
    + destruct (contract_binding a) as [id|] eqn:Hb; [|by do 2 eexists; split; [done|constructor]].
      unfold mbind, tx_bind. destruct (contract_in _ id _) as [k|] eqn:Hk;
        [|by do 2 eexists; split; [done|constructor]].
      destruct (ac_status k ≡? "confirmed") eqn:Hc; [|by do 2 eexists; split; [done|constructor]].
      apply bool_decide_eq_true in Hs, Hc. by do 2 eexists; split; [done|econstructor].
    + destruct (is_pending a) eqn:Hp; simpl; [|by do 2 eexists; split; [done|constructor]].
      destruct (ap_tool_name a ≡? _) eqn:Ht; simpl; [|by do 2 eexists; split; [done|constructor]].
      destruct (contract_binding a) as [id|] eqn:Hb; [|by do 2 eexists; split; [done|constructor]].
      unfold mbind, tx_bind. destruct (contract_in _ id _) as [k|] eqn:Hk;
        [|by do 2 eexists; split; [done|constructor]].
      destruct (ac_status k ≡? "draft") eqn:Hc; simpl; [|by do 2 eexists; split; [done|constructor]].
      destruct (complete _) eqn:Hv; simpl; [|by do 2 eexists; split; [done|constructor]].
      destruct (open_questions _) eqn:Ho; [by do 2 eexists; split; [done|constructor]|].
      apply bool_decide_eq_true in Ht, Hc.
      by do 2 eexists; split; [done|econstructor].
  - destruct (is_pending a) eqn:Hp; simpl; [|by do 2 eexists; split; [done|constructor]].
    unfold update_row. rewrite Ha, Hp. simpl.
    by do 2 eexists; split; [done|econstructor].
Qed.

(** With nothing in between, the two steps are the operation. *)
Lemma begin_finish c i g :
  cs_db (exec_contract (co_finish c (ri_approvalId i)) (exec_contract (co_begin c i) (mkContractState g ∅)))
  = (resolveAcceptanceContractApproval sha1 c i g).2.
Proof.
  unfold resolveAcceptanceContractApproval, resolve_tx. simpl. rewrite lookup_empty. simpl.
  unfold transaction, mbind, tx_bind. destruct (resolve_checks_run c i g) as (o & g' & -> & Hs).
  destruct o as [o|read]; simpl; [by rewrite lookup_empty|]. rewrite lookup_insert_eq. simpl.
  inversion Hs; subst. by destruct (resolve_locked _ _ _ _ _) as [e|[k' g'']].
Qed.

(** ** The invariant *)

(** A human approved this very contract, and it is on the timeline. *)
Definition approved_contract g (id : string) k : Prop :=
  (∃ aid a r, kd_approvals g !! aid = Some a ∧ ap_status a = "approved"
     ∧ rd_records (kd_records g) !! ac_record_id k = Some r ∧ asks (cr_workspace_id r) id a)
  ∧ ∃ eid e, rd_events (kd_records g) !! eid = Some e ∧ ce_record_id e = ac_record_id k
      ∧ ce_event_key e = "acceptance-contract:confirmed:" +:+ show_Z (ac_version k).

Definition contract_ok g (id : string) k : Prop :=
  complete (ac_contract k) = true
  ∧ (is_draft k
     ∨ ac_status k = "confirmed" ∧ open_questions (ac_contract k) = false ∧ is_Some (ac_confirmed_by k)
       ∧ is_Some (ac_confirmed_at k) ∧ approved_contract g id k).

(** What a resolution between its two steps relies on. *)
Definition locked_ok g (aid : string) (x : ResolveInput * (string * AcceptanceContract)) : Prop :=
  let '(i, (id, read)) := x in
  ri_approvalId i = aid ∧ open_questions (ac_contract read) = false
  ∧ (∃ a, kd_approvals g !! aid = Some a ∧ is_pending a = true ∧ asks (ri_workspaceId i) id a)
  ∧ ∃ k, contract_in (ri_workspaceId i) id (kd_records g) = Some k ∧ contract_later read k.

Notation one_confirmed := (exclusive (λ k, ac_status k = "confirmed") ac_record_id).

Record contract_inv s : Prop := {
  ci_versions : versions_ok (rd_contracts (kd_records (cs_db s)));
  ci_one : one_confirmed (rd_contracts (kd_records (cs_db s)));
  ci_contracts : map_Forall (contract_ok (cs_db s)) (rd_contracts (kd_records (cs_db s)));
  ci_locked : map_Forall (locked_ok (cs_db s)) (cs_locked s);
}.

(** What each step leaves in place. *)
Record kept g g' : Prop := {
  kp_records : rows same_workspace (rd_records (kd_records g)) (rd_records (kd_records g'));
  kp_events : rd_events (kd_records g) ⊆ rd_events (kd_records g');
  kp_contracts : rows contract_later (rd_contracts (kd_records g)) (rd_contracts (kd_records g'));
  kp_approvals : approvals_later (kd_approvals g) (kd_approvals g');
}.
#[export] Instance kept_preorder : PreOrder kept.
Proof. split; [by split|]. intros g1 g2 g3 [] []. by split; etrans. Qed.

Lemma asks_later ws id a a' : approval_later a a' → asks ws id a → asks ws id a'.
Proof.
  intros [Q _ _] (H1 & H2 & H3). unfold request_part in Q. injection Q as Q1 _ _ _ _ _ Q2 _ _ _ _ _ Q3 _ _ _ _ _.
  split_and!; [congruence| |congruence]. revert H2. unfold contract_binding. by rewrite Q3.
Qed.
Lemma approved_later a a' : approval_later a a' → ap_status a = "approved" → ap_status a' = "approved".
Proof.
  intros [_ D _] Hs. assert (Hp : is_pending a = false) by by unfold is_pending; rewrite Hs.
  specialize (D Hp). unfold decision_part in D. by injection D as -> _ _ _ _.
Qed.

Lemma contract_ok_kept g g' id k : kept g g' → contract_ok g id k → contract_ok g' id k.
Proof.
  intros [Hr He _ Ha] [Hc Hs]. split; [done|].
  destruct Hs as [?|(Hs & Ho & Hb & Hat & (aid & a & r & A1 & A2 & A3 & A4) & eid & e & E1 & E2)]; [by left|right].
  split_and!; try done. split.
  - destruct (Ha aid a A1) as (a' & A1' & La). destruct (Hr _ r A3) as (r' & A3' & Lr). exists aid, a', r'.
    split_and!; [done|by eapply approved_later|done|]. rewrite Lr. by eapply asks_later.
  - exists eid, e. split; [by eapply lookup_weaken|done].
Qed.

Lemma contract_in_kept g g' ws id k :
  kept g g' → contract_in ws id (kd_records g) = Some k →
  ∃ k', contract_in ws id (kd_records g') = Some k' ∧ contract_later k k'.
Proof.
  intros [Hr _ Hc _] (Hk & r & Hrec & Hw)%contract_inP. destruct (Hc id k Hk) as (k' & Hk' & L).
  destruct (Hr _ r Hrec) as (r' & Hr' & Lr). exists k'. split; [|done]. apply contract_inP. split; [done|].
  exists r'. destruct L as [T _ _]. unfold contract_text in T. injection T as -> _ _ _ _.
  split; [done|]. unfold same_workspace in Lr. congruence.
Qed.

(** A step that leaves the locked approvals pending leaves the resolutions. *)
Lemma locked_ok_kept g g' aid x :
  kept g g' → kd_approvals g' !! aid = kd_approvals g !! aid → locked_ok g aid x → locked_ok g' aid x.
Proof.
  destruct x as [i [id read]]. intros Hk Ha (H1 & H2 & (a & H3) & k & H4 & H5). simpl.
  split_and!; [done..|by rewrite Ha; eauto|]. destruct (contract_in_kept _ _ _ _ _ Hk H4) as (k' & H4' & L).
  exists k'. split; [done|by etrans].
Qed.

(** A step keeps the invariant when its new contracts are sound and the locked
    approvals are left alone. *)
Lemma inv_step g g' L :
  contract_inv (mkContractState g L) → kept g g' →
  versions_ok (rd_contracts (kd_records g')) → one_confirmed (rd_contracts (kd_records g')) →
  (∀ id k, rd_contracts (kd_records g') !! id = Some k →
     rd_contracts (kd_records g) !! id = Some k ∨ contract_ok g' id k) →
  (∀ aid, is_Some (L !! aid) → kd_approvals g' !! aid = kd_approvals g !! aid) →
  contract_inv (mkContractState g' L).
Proof.
  intros [_ _ Hc Hl] Hk Hv Ho Hnew Ha. split; simpl in *; [done..| |].
  - intros id k H. destruct (Hnew id k H) as [H'|]; [|done]. by eapply contract_ok_kept, Hc.
  - intros aid x Hx. eapply locked_ok_kept; [done|by eauto|by apply Hl].
Qed.

Lemma kept_drafts d d' a : drafts d d' → kept (mkContractDb d a) (mkContractDb d' a).
Proof.
  intros []. split; simpl; [done..| |done]. intros id k Hk. exists k. split; [by eapply lookup_weaken|done].
Qed.
Lemma inv_drafts d d' a L :
  drafts d d' → contract_inv (mkContractState (mkContractDb d a) L) → contract_inv (mkContractState (mkContractDb d' a) L).
Proof.
  intros Hd Hi. pose proof (kept_drafts _ _ a Hd) as Hk. destruct Hd as [_ _ _ Hn Hv].
  eapply inv_step; simpl; [done..|by apply Hv, Hi| | |done].
  - eapply (exclusive_no_start _ _ (rd_contracts d)); [|apply Hi]. intros id k H S.
    destruct (Hn id k H) as [?|[[? _] _]]; [by eauto|congruence].
  - intros id k H. destruct (Hn id k H) as [?|[??]]; [by left|right]. split; [done|by left].
Qed.

Lemma inv_approvals d a a' L :
  approvals_later a a' → (∀ aid, is_Some (L !! aid) → a' !! aid = a !! aid) →
  contract_inv (mkContractState (mkContractDb d a) L) → contract_inv (mkContractState (mkContractDb d a') L).
Proof.
  intros Ha Hs Hi. eapply inv_step; simpl; [done..|by split|apply Hi|apply Hi|by auto|done].
Qed.

(** An approval operation leaves the other rows. *)
Lemma exec_approval_other o a aid :
  writes_approval o ≠ Some aid → is_Some (a !! aid) → exec_approval o a !! aid = a !! aid.
Proof.
  intros Hw [r Hr]. destruct o as [now id token i|c id dec url|id url]; simpl in *.
  - pose proof (record_request_spec now id token i a) as H.
    destruct (recordApprovalRequest _ _ _ _ _) as [[e|[[k' r'] [|]]] a']; simpl in *; [by subst| |by destruct H as [-> _]].
    destruct H as (_ & Hid & -> & _). rewrite lookup_insert_ne; congruence.
  - unfold resolveApproval. pose proof (update_row_other is_pending (λ r, set_ap_status (decision_text dec) (js_now c)
      (set_ap_url url (resolved_requirement (db_now c) dec r))) id aid a ltac:(congruence)) as H.
    by destruct (update_row _ _ _ _).
  - unfold stampPublishedIssueUrl.
    pose proof (update_row_other (stampable url) (set_ap_url (Some url)) id aid a ltac:(congruence)) as H.
    by destruct (update_row _ _ _ _) as [[?|] ?].
Qed.

(** ** Under the record's lock *)

Lemma confirm_draft_unique r v by_ now d id k :
  versions_ok (rd_contracts d) → rd_contracts d !! id = Some k → ac_record_id k = r → ac_version k = v →
  ac_status k = "draft" →
  confirm_draft r v by_ now d
  = inr (Some (id, set_confirmed by_ now k), with_contracts (<[id := set_confirmed by_ now k]> (rd_contracts d)) d).
Proof.
  intros [Hu _ _] Hk <- <- Hs. unfold confirm_draft, runs.
  set (p := draft_version _ _).
  assert (Hp : ∀ id' k', rd_contracts d !! id' = Some k' → p id' k' = true ↔ id' = id).
  { intros id' k' Hk'. unfold p, draft_version, has_version. split.
    - intros [[R%bool_decide_eq_true V%Z.eqb_eq]%andb_true_iff _]%andb_true_iff. eapply Hu; eauto; congruence.
    - intros ->. simplify_eq. by rewrite bool_decide_eq_true_2, Z.eqb_refl, bool_decide_eq_true_2. }
  assert (Hrows : head (select_where p (rd_contracts d)) = Some (id, k)).
  { destruct (select_where p (rd_contracts d)) as [|[id' k'] l] eqn:E.
    - pose proof (select_nil _ _ _ _ E Hk) as H. by rewrite (proj2 (Hp id k Hk)) in H.
    - assert (Hin : (id', k') ∈ select_where p (rd_contracts d)) by (rewrite E; set_solver).
      apply elem_of_select_where in Hin as [H1 H2]. apply Hp in H2 as ->; [|done]. simpl. congruence. }
  rewrite Hrows. simpl. do 3 f_equal. apply map_eq. intros id'. rewrite lookup_update_where.
  destruct (decide (id = id')) as [<-|Hne].
  - rewrite lookup_insert_eq, Hk. simpl. by rewrite (proj2 (Hp id k Hk)).
  - rewrite lookup_insert_ne by done. destruct (rd_contracts d !! id') as [k'|] eqn:Hk'; [|done]. simpl.
    destruct (p id' k') eqn:E; [|done]. by apply Hp in E.
Qed.

Definition confirm_event c by_ id k : record_tx unit :=
  appendAcceptanceContractConfirmedEventInTransaction sha1 c by_ id k.

(** The two ways the locked step commits. *)
Inductive locked_spec c (i : ResolveInput) (read : string * AcceptanceContract) g
    : string * AcceptanceContract → ContractDb → Prop :=
| locked_again id k g' :
    rd_contracts (kd_records g) !! id = Some k → ac_status k = "confirmed" →
    contract_text k = contract_text read.2 → close_approval c (ri_approvalId i) "approved" g = inr (true, g') →
    locked_spec c i read g (id, k) g'
| locked_confirms k d g' :
    rd_contracts (kd_records g) !! read.1 = Some k → is_draft k → contract_text k = contract_text read.2 →
    (∀ id' k', rd_contracts (kd_records g) !! id' = Some k' → ac_record_id k' = ac_record_id k → ac_status k' ≠ "confirmed") →
    let k' := set_confirmed (ri_confirmedBy i) (js_now c) k in
    confirm_event c (ri_confirmedBy i) read.1 k'
      (with_contracts (<[read.1 := k']> (rd_contracts (kd_records g))) (kd_records g)) = inr (tt, d) →
    close_approval c (ri_approvalId i) "approved" (mkContractDb d (kd_approvals g)) = inr (true, g') →
    locked_spec c i read g (read.1, k') g'.

Definition confirm_key k : string := "acceptance-contract:confirmed:" +:+ show_Z (ac_version k).
Definition locked_failure (read : string * AcceptanceContract) g (e : RecordError) : Prop :=
  e = other_version_confirmed
    ∧ (∃ id k, rd_contracts (kd_records g) !! id = Some k ∧ ac_status k = "confirmed"
       ∧ ac_record_id k = ac_record_id read.2 ∧ ac_version k ≠ ac_version read.2)
  ∨ e = unique_violation
    ∧ is_Some (rd_events (kd_records g) !! changeRecordEventId sha1 (ac_record_id read.2) (confirm_key read.2))
    ∧ find_event (ac_record_id read.2) (confirm_key read.2) (rd_events (kd_records g)) = None.

Lemma confirm_event_run c by_ id k d :
  is_Some (rd_records d !! ac_record_id k) →
  match confirm_event c by_ id k d with
  | inr (_, d') => drafts d d' ∧ rd_contracts d' = rd_contracts d ∧ rd_records d' = rd_records d
      ∧ (∃ eid e, rd_events d' !! eid = Some e ∧ ce_record_id e = ac_record_id k ∧ ce_event_key e = confirm_key k)
  | inl e => e = unique_violation ∧ is_Some (rd_events d !! changeRecordEventId sha1 (ac_record_id k) (confirm_key k))
      ∧ find_event (ac_record_id k) (confirm_key k) (rd_events d) = None
  end.
Proof.
  intros [r Hr]. unfold confirm_event, appendAcceptanceContractConfirmedEventInTransaction, mbind, tx_bind.
  pose proof (drafts_event (changeRecordEventId sha1 (ac_record_id k) (confirm_key k))
    (contract_event c (ac_record_id k) (confirm_key k) "acceptance_contract" by_
       (contract_payload id (ac_version k) "confirmed")) d) as Hd.
  fold (confirm_key k). unfold insert_event in *. simpl in *.
  destruct (find_event _ _ _) as [[eid e]|] eqn:F.
  - split_and!; [by eapply Hd|done|done|]. apply find_event_Some in F as (? & ? & ?). by exists eid, e.
  - destruct (rd_events d !! _) eqn:E; simpl in *; [by eauto|]. rewrite Hr in *. simpl in *.
    split_and!; [by eapply Hd|done|done|]. do 2 eexists. split; [by rewrite lookup_insert_eq|done].
Qed.

Lemma one_confirmed_head r t :
  match head (select_where (is_confirmed_of r) t) with
  | Some (id, k) => t !! id = Some k ∧ ac_record_id k = r ∧ ac_status k = "confirmed"
  | None => ∀ id k, t !! id = Some k → ac_record_id k = r → ac_status k ≠ "confirmed"
  end.
Proof.
  destruct (select_where _ t) as [|[id k] l] eqn:E; simpl.
  - intros id k Hk Hr Hs. pose proof (select_nil _ _ _ _ E Hk) as H. unfold is_confirmed_of in H.
    by rewrite !bool_decide_eq_true_2 in H.
  - assert (Hin : (id, k) ∈ select_where (is_confirmed_of r) t) by (rewrite E; set_solver).
    apply elem_of_select_where in Hin as [H1 H2]. unfold is_confirmed_of in H2.
    by rewrite andb_true_iff, !bool_decide_eq_true in H2.
Qed.

Lemma resolve_locked_run c aid i read g L :
  contract_inv (mkContractState g L) → locked_ok g aid (i, read) →
  match resolve_locked sha1 c i read g with
  | inr (x, g') => locked_spec c i read g x g'
  | inl e => locked_failure read g e
  end.
Proof.
  destruct read as [id k0]. intros [Hv _ Hc _] (<- & Ho & (a & Ha & Hp & _) & k & (Hk & r & Hr & _)%contract_inP & Hl).
  simpl in *. assert (T := cl_text _ _ Hl). assert (T' := T). unfold contract_text in T'. injection T' as R V _ _ _.
  unfold resolve_locked, mbind at 1, tx_bind at 1, reads. simpl.
  pose proof (one_confirmed_head (ac_record_id k0) (rd_contracts (kd_records g))) as Hh.
  destruct (head _) as [[id' k']|].
  - destruct Hh as (H1 & H2 & H3). simpl. destruct (Z.eqb_spec (ac_version k') (ac_version k0)) as [E|E].
    + assert (id' = id) as -> by (eapply (vo_unique _ Hv id' id k' k); [done..|congruence]).
      unfold mbind, tx_bind. rewrite close_approval_run, Ha, Hp.
      assert (k' = k) as -> by congruence.
      eapply locked_again; simpl; [done..|]. by rewrite close_approval_run, Ha, Hp.
    + left. split; [done|]. by exists id', k'.
  - assert (Hd : is_draft k).
    { destruct (Hc id k Hk) as [_ [?|(Hs & _)]]; [done|]. by destruct (Hh id k Hk R). }
    unfold mbind, tx_bind, on_records.
    rewrite (confirm_draft_unique (ac_record_id k0) (ac_version k0) _ _ _ id k); [|done..|by destruct Hd].
    simpl. pose proof (confirm_event_run c (ri_confirmedBy i) id (set_confirmed (ri_confirmedBy i) (js_now c) k)
      (with_contracts (<[id := set_confirmed (ri_confirmedBy i) (js_now c) k]> (rd_contracts (kd_records g))) (kd_records g))
      ltac:(by eexists)) as He. unfold confirm_event in He.
    destruct (appendAcceptanceContractConfirmedEventInTransaction _ _ _ _ _ _) as [e|[[] d']] eqn:Ed.
    + right. simpl in He. unfold confirm_key in *. simpl in *. by rewrite R, V in He.
    + unfold update_row. simpl. rewrite Ha, Hp. simpl.
      eapply (locked_confirms c i (id, k0) g k d'); [done..|intros ???; rewrite R; by eapply Hh|done|].
      rewrite close_approval_run. simpl. by rewrite Ha, Hp.
Qed.

(** ** Every operation keeps the invariant *)

Lemma inv_unlock g L aid : contract_inv (mkContractState g L) → contract_inv (mkContractState g (delete aid L)).
Proof. intros [Hv Ho Hc Hl]. split; simpl in *; try done. by apply map_Forall_delete. Qed.

Lemma inv_close c g L aid a :
  contract_inv (mkContractState g L) → kd_approvals g !! aid = Some a → is_pending a = true → L !! aid = None →
  ∀ status, contract_inv (mkContractState (with_approvals (<[aid := set_ap_status status (js_now c) a]> (kd_approvals g)) g) L).
Proof.
  intros Hi Ha Hp Hl status. destruct g as [d t]. eapply (inv_approvals d t); [| |done]; simpl in *.
  - apply rows_insert with a; [apply _|done|]. split; [done|congruence..].
  - intros aid' [x Hx]. rewrite lookup_insert_ne; congruence.
Qed.

Lemma close_approval_inr c id status g b g' :
  close_approval c id status g = inr (b, g') → kept g g' ∧ kd_records g' = kd_records g
    ∧ (b = true → ∃ a, kd_approvals g !! id = Some a ∧ is_pending a = true
        ∧ g' = with_approvals (<[id := set_ap_status status (js_now c) a]> (kd_approvals g)) g).
Proof.
  rewrite close_approval_run. intros [= Hm]. destruct (kd_approvals g !! id) as [a|] eqn:Ha; simplify_eq; [|done].
  destruct (is_pending a) eqn:Hp; simplify_eq; [|done]. split_and!; [|done|by eauto].
  split; simpl; [done..|]. apply rows_insert with a; [apply _|done|]. split; [done|congruence..].
Qed.

Lemma one_confirmed_insert t id k k' :
  one_confirmed t → t !! id = Some k → ac_record_id k' = ac_record_id k →
  (∀ id' k', t !! id' = Some k' → ac_record_id k' = ac_record_id k → ac_status k' ≠ "confirmed") →
  one_confirmed (<[id := k']> t).
Proof.
  intros Ho Hk Hr Hn. apply exclusive_start; [done|]. intros id' k0 H S E. rewrite Hr in E. by eapply Hn.
Qed.

Lemma versions_insert_same t id k k' :
  versions_ok t → t !! id = Some k → contract_text k' = contract_text k → versions_ok (<[id := k']> t).
Proof.
  intros Hv Hk Ht.
  replace (<[id := k']> t) with (update_where (λ i _, i ≡? id) (λ x, mkAcceptanceContract (ac_record_id x) (ac_version x)
    (ac_status k') (ac_contract x) (ac_created_by x) (ac_confirmed_by k') (ac_confirmed_at k') (ac_created_at x)) t).
  { by apply versions_update. }
  apply map_eq. intros id'. rewrite lookup_update_where. destruct (decide (id = id')) as [<-|Hne].
  - rewrite lookup_insert_eq, Hk. simpl. rewrite bool_decide_eq_true_2 by done. f_equal.
    unfold contract_text in Ht. injection Ht as <- <- <- <- <-. by destruct k'.
  - rewrite lookup_insert_ne by done. destruct (t !! id'); simpl; [|done]. by rewrite bool_decide_eq_false_2.
Qed.

Lemma locked_spec_inv c i read g x g' L :
  contract_inv (mkContractState g L) → locked_ok g (ri_approvalId i) (i, read) → L !! ri_approvalId i = None →
  locked_spec c i read g x g' → kept g g' ∧ contract_inv (mkContractState g' L).
Proof.
  intros Hi Hlo Hl [id k g1 H1 H2 H3 Hc|k d g1 H1 H2 H3 H4 k' He Hc].
  - apply close_approval_inr in Hc as (Hk & _ & Hc). destruct (Hc eq_refl) as (a & Ha & Hp & ->).
    split; [done|]. by apply inv_close.
  - destruct read as [kid k0]. simpl in *.
    destruct Hlo as (_ & Ho & (a & Ha & Hp & Hasks) & k1 & (Hk1 & r & Hr & Hw)%contract_inP & Hlat).
    assert (k1 = k) as -> by congruence.
    assert (Hrow : contract_later k k') by by apply confirm_later, H2.
    pose proof (confirm_event_run c (ri_confirmedBy i) kid k'
      (with_contracts (<[kid := k']> (rd_contracts (kd_records g))) (kd_records g)) ltac:(by eexists)) as Hev.
    rewrite He in Hev. destruct Hev as (Hd & Hct & Hrec & eid & e & E1 & E2 & E3). simpl in *.
    apply close_approval_inr in Hc as (_ & _ & Hc). destruct (Hc eq_refl) as (a' & Ha' & Hp' & ->). simpl in *.
    assert (a' = a) as -> by congruence.
    set (g2 := with_approvals _ _).
    assert (Hkept : kept g g2).
    { split; simpl; [by rewrite Hrec|apply Hd| |].
      - rewrite Hct. by apply rows_insert with k; [apply _|..].
      - apply rows_insert with a; [apply _|done|]. split; [done|congruence..]. }
    split; [done|]. eapply inv_step; simpl; [done|done|..].
    + rewrite Hct. eapply versions_insert_same; [apply Hi|done|apply Hrow].
    + rewrite Hct. eapply one_confirmed_insert; [apply Hi|done|done|done].
    + intros id' k2. rewrite Hct. intros [[<- <-]|[_ ?]]%lookup_insert_Some; [right|by left].
      destruct (ci_contracts _ Hi kid k H1) as [Hcomp _]. split; [done|]. right. simpl.
      split_and!; [done| |by eexists|by eexists|].
      { assert (T := cl_text _ _ Hlat). unfold contract_text in T. injection T as _ _ -> _ _. done. }
      split; [|by exists eid, e]. exists (ri_approvalId i), (set_ap_status "approved" (js_now c) a), r.
      unfold g2. simpl. rewrite lookup_insert_eq, Hrec. by split_and!; [..|rewrite Hw].
    + intros aid [y Hy]. rewrite lookup_insert_ne; congruence.
Qed.

Lemma exec_step o s : contract_inv s → kept (cs_db s) (cs_db (exec_contract o s)) ∧ contract_inv (exec_contract o s).
Proof.
  destruct s as [[d a] L]. intros Hi.
  destruct o as [c uuid i wk refs|c i|c r contract by_|o|c i|c aid]; simpl.
  - pose proof (drafts_record sha1 c uuid i wk refs d) as H. split; [by apply kept_drafts|by eapply inv_drafts].
  - pose proof (drafts_from_intake sha1 c i d) as H. split; [by apply kept_drafts|by eapply inv_drafts].
  - pose proof (drafts_version sha1 c r contract by_ d) as H. split; [by apply kept_drafts|by eapply inv_drafts].
  - pose proof (exec_approval_later o a) as H. destruct (waits _ _) eqn:W; [by split|].
    split; [by split|]. eapply inv_approvals; [done| |done]. intros aid [x Hx].
    destruct x as [i [id read]].
    assert (Ha : is_Some (a !! aid)) by (destruct (ci_locked _ Hi aid _ Hx) as (_ & _ & (y & Hy & _) & _); by exists y).
    apply exec_approval_other; [|done]. intros E. unfold waits in W. rewrite E in W. simpl in W. by rewrite Hx in W.
  - destruct (L !! ri_approvalId i) as [x|] eqn:Hx; [by split|]. simpl.
    unfold transaction. destruct (resolve_checks_run c i (mkContractDb d a)) as (o & g' & -> & Hs).
    destruct Hs as [reason|x Hd Hx' Hp Hw|x id k|x id k Hd Hx' Hp Hasks Hk Hst Hc Ho]; simpl; [by split| |by split|].
    + split; [|by eapply inv_close in Hi].
      split; simpl; [done..|]. apply rows_insert with x; [apply _|done|]. split; [done|congruence..].
    + split; [done|]. destruct Hi as [H1 H2 H3 H4]. split; [done..|]. simpl in *.
      apply map_Forall_insert_2; [|done]. simpl. split_and!; [done..|by exists x|by exists k].
  - destruct (L !! aid) as [[i read]|] eqn:Hx; [|by split].
    assert (Hlo := ci_locked _ Hi aid _ Hx). assert (ri_approvalId i = aid) as <- by (destruct read; apply Hlo).
    apply (inv_unlock _ _ (ri_approvalId i)) in Hi as Hi'. simpl. unfold transaction.
    pose proof (resolve_locked_run c _ i read _ _ Hi Hlo) as Hr.
    destruct (resolve_locked _ _ _ _ _) as [e|[x g']]; simpl; [by split|].
    eapply locked_spec_inv; [done..|apply lookup_delete_eq|done].
Qed.
Lemma exec_kept l s : contract_inv s → kept (cs_db s) (cs_db (exec_contracts l s)) ∧ contract_inv (exec_contracts l s).
Proof.
  revert s. induction l as [|o l IH]; intros s Hi; simpl; [done|].
  destruct (exec_step o s Hi) as [Hk Hi']. destruct (IH _ Hi') as [Hk' Hi'']. split; [by etrans|done].
Qed.

(** C20 (invariant).  Over any interleaving of drafting, versioning, approving
    and confirming: the versions of a record are distinct and without gaps from
    1, every version is complete, and at most one of a record is confirmed; a
    confirmed one leaves no question open, carries who confirmed it and when,
    stands on the timeline, and was approved by an approval of its workspace
    that names exactly this contract.  A resolution between its two steps
    still holds a pending approval of the contract it read. *)
Theorem contracts_sound l s : contract_inv s → contract_inv (exec_contracts l s).
Proof. intros Hi. by apply exec_kept. Qed.

(** What a version says is never edited: over any such history
    a contract keeps its record, version, text, author and creation, a
    confirmed one stays exactly as it is, and the only other change is from
    draft to confirmed. *)
Theorem contract_never_edited l s id k :
  contract_inv s → rd_contracts (kd_records (cs_db s)) !! id = Some k →
  ∃ k', rd_contracts (kd_records (cs_db (exec_contracts l s))) !! id = Some k'
    ∧ contract_text k' = contract_text k
    ∧ (ac_status k = "confirmed" → k' = k)
    ∧ (ac_status k' = ac_status k ∨ ac_status k = "draft" ∧ ac_status k' = "confirmed").
Proof.
  intros Hi Hk. destruct (exec_kept l s Hi) as [[_ _ Hc _] _].
  destruct (Hc id k Hk) as (k' & Hk' & [T C S]). by exists k'.
Qed.

(** ** One resolution, run whole *)

Definition confirmable g (i : ResolveInput) (id : string) k : Prop :=
  ri_decision i = dec_approved
  ∧ (∃ a, kd_approvals g !! ri_approvalId i = Some a ∧ is_pending a = true ∧ asks (ri_workspaceId i) id a)
  ∧ contract_in (ri_workspaceId i) id (kd_records g) = Some k
  ∧ ac_status k = "draft" ∧ complete (ac_contract k) = true ∧ open_questions (ac_contract k) = false.

Lemma checks_of_confirmable c i g id k : confirmable g i id k → resolve_checks c i g = inr (inr (id, k), g).
Proof.
  intros (Hd & (a & Ha & Hp & (Ht & Hb & Hw)) & Hk & Hs & Hc & Ho).
  assert (Hs' := Hp). apply pending_spec in Hs'.
  unfold resolve_checks, mbind, tx_bind, reads. rewrite Ha, Hw, Hd. unfold sql_eq. rewrite bool_decide_eq_true_2 by done.
  cbn [negb]. rewrite Hs', Hp, Ht, Hb. unfold mbind, tx_bind.
  rewrite (bool_decide_eq_false_2 ("pending" = "approved")) by done.
  rewrite (bool_decide_eq_true_2 ("confirm_acceptance_contract" = _)) by done. cbn [negb]. cbv beta.
  rewrite Hk, Hs, Hc, Ho. done.
Qed.

Lemma locked_spec_result c i read g x g' L :
  contract_inv (mkContractState g L) → locked_ok g (ri_approvalId i) (i, read) → locked_spec c i read g x g' →
  x.1 = read.1 ∧ rd_contracts (kd_records g') !! x.1 = Some x.2 ∧ ac_status x.2 = "confirmed"
  ∧ contract_text x.2 = contract_text read.2
  ∧ ∃ a, kd_approvals g !! ri_approvalId i = Some a
      ∧ kd_approvals g' = <[ri_approvalId i := set_ap_status "approved" (js_now c) a]> (kd_approvals g).
Proof.
  intros Hi Hlo [id k g1 H1 H2 H3 Hc|k d g1 H1 H2 H3 H4 k' He Hc]; simpl.
  - apply close_approval_inr in Hc as (_ & _ & Hc). destruct (Hc eq_refl) as (a & Ha & _ & ->).
    destruct read as [kid k0]. destruct Hlo as (_ & _ & _ & k1 & (Hk1 & _)%contract_inP & Hl). simpl in *.
    split_and!; [|done..|by exists a]. assert (T := cl_text _ _ Hl).
    rewrite <- T in H3. unfold contract_text in H3. injection H3 as R V _ _ _.
    eapply (vo_unique _ (ci_versions _ Hi)); [exact H1|exact Hk1|done..|congruence].
  - pose proof (confirm_event_run c (ri_confirmedBy i) read.1 k'
      (with_contracts (<[read.1 := k']> (rd_contracts (kd_records g))) (kd_records g))) as Hev.
    rewrite He in Hev. apply close_approval_inr in Hc as (_ & _ & Hc). destruct (Hc eq_refl) as (a & Ha & _ & ->).
    simpl in *. destruct read as [kid k0]. destruct Hlo as (_ & _ & _ & k1 & (Hk1 & r & Hr & _)%contract_inP & _).
    simpl in *. assert (k1 = k) as -> by congruence. destruct (Hev ltac:(by eexists)) as (_ & -> & _ & _).
    split_and!; [done|apply lookup_insert_eq|done|done|by exists a].
Qed.

Lemma confirmable_locked g i id k : confirmable g i id k → locked_ok g (ri_approvalId i) (i, (id, k)).
Proof.
  intros (_ & (a & Ha & Hp & Hasks) & Hk & _ & _ & Ho). split_and!; [done..|by exists a|by exists k].
Qed.

(** C21 (error).  Every outcome of one resolution.  A contract that can be
    confirmed is confirmed, and the approval closed with it, unless another
    version is already confirmed or the id of the event is taken, which throw
    and leave nothing; a refusal, a denial of what is decided and a repeated
    approval change nothing; a denial closes the approval and no more. *)
Theorem resolution_exact c i g :
  contract_inv (mkContractState g ∅) →
  match resolveAcceptanceContractApproval sha1 c i g with
  | (inl e, g') => g' = g ∧ ∃ id k, confirmable g i id k ∧ locked_failure (id, k) g e
  | (inr (unresolved _), g') => g' = g
  | (inr (resolved None), g') => ri_decision i = dec_denied
      ∧ ∃ a, kd_approvals g !! ri_approvalId i = Some a ∧ is_pending a = true
          ∧ g' = with_approvals (<[ri_approvalId i := set_ap_status "denied" (js_now c) a]> (kd_approvals g)) g
  | (inr (resolved (Some (id, k))), g') => ri_decision i = dec_approved
      ∧ rd_contracts (kd_records g') !! id = Some k ∧ ac_status k = "confirmed"
      ∧ (g' = g ∧ (∃ a, kd_approvals g !! ri_approvalId i = Some a ∧ ap_status a = "approved")
         ∨ (∃ k0, confirmable g i id k0 ∧ contract_text k = contract_text k0)
           ∧ (∃ a, kd_approvals g' !! ri_approvalId i = Some a ∧ ap_status a = "approved"))
  end
  ∧ ∀ id k, confirmable g i id k →
      (∀ e, ¬ locked_failure (id, k) g e) →
      ∃ k' g', resolveAcceptanceContractApproval sha1 c i g = (inr (resolved (Some (id, k'))), g').
Proof.
  intros Hi. split.
  - unfold resolveAcceptanceContractApproval, transaction, resolve_tx, mbind, tx_bind.
    destruct (resolve_checks_run c i g) as (o & g' & -> & Hs).
    destruct Hs as [reason|a Hd Ha Hp Hw|a id k Hd Ha Hst Hw Hb Hk Hc|a id k Hd Ha Hp Hasks Hk Hst Hc Ho]; simpl.
    + done.
    + split; [done|]. by exists a.
    + apply contract_inP in Hk as [Hk _]. split_and!; [done..|]. left. split; [done|]. by exists a.
    + assert (Hlo : locked_ok g (ri_approvalId i) (i, (id, k))) by (split_and!; [done..|by exists a|by exists k]).
      pose proof (resolve_locked_run c _ i (id, k) g ∅ Hi Hlo) as Hr.
      assert (Hcf : confirmable g i id k) by (split_and!; [done|by exists a|done..]).
      destruct (resolve_locked _ _ _ _ _) as [e|[[id' k'] g']]; simpl.
      { split; [done|]. by exists id, k. }
      destruct (locked_spec_result _ _ _ _ _ _ _ Hi Hlo Hr) as (E & H1 & H2 & H3 & a' & Ha' & Hap). simpl in *. subst id'.
      split_and!; [done..|]. right. split; [by exists k|].
      exists (set_ap_status "approved" (js_now c) a'). by rewrite Hap, lookup_insert_eq.
  - intros id k Hcf Hno. unfold resolveAcceptanceContractApproval, transaction, resolve_tx, mbind, tx_bind.
    rewrite (checks_of_confirmable c i g id k Hcf).
    assert (Hlo := confirmable_locked _ _ _ _ Hcf).
    pose proof (resolve_locked_run c _ i (id, k) g ∅ Hi Hlo) as Hr.
    destruct (resolve_locked _ _ _ _ _) as [e|[[id' k'] g']]; [by destruct (Hno e)|].
    destruct (locked_spec_result _ _ _ _ _ _ _ Hi Hlo Hr) as (E & _). simpl in E. subst. by exists k', g'.
Qed.

Lemma checks_of_approved c i g a id k :
  ri_decision i = dec_approved → kd_approvals g !! ri_approvalId i = Some a → ap_status a = "approved" →
  ap_workspace_id a = Some (ri_workspaceId i) → contract_binding a = Some id →
  contract_in (ri_workspaceId i) id (kd_records g) = Some k → ac_status k = "confirmed" →
  resolve_checks c i g = inr (inl (resolved (Some (id, k))), g).
Proof.
  intros Hd Ha Hs Hw Hb Hk Hc. unfold resolve_checks, mbind, tx_bind, reads. rewrite Ha, Hw, Hd. unfold sql_eq.
  rewrite bool_decide_eq_true_2 by done. cbn [negb]. rewrite Hs, Hb. unfold mbind, tx_bind.
  rewrite (bool_decide_eq_true_2 ("approved" = _)) by done. cbv beta. by rewrite Hk, Hc.
Qed.

(** Approving is idempotent: a redelivered approval, by
    whoever and whenever, answers with the same contract and changes nothing. *)
Theorem approval_replay_same c c' i i' g id k g' :
  contract_inv (mkContractState g ∅) →
  resolveAcceptanceContractApproval sha1 c i g = (inr (resolved (Some (id, k))), g') →
  ri_approvalId i' = ri_approvalId i → ri_workspaceId i' = ri_workspaceId i → ri_decision i' = dec_approved →
  resolveAcceptanceContractApproval sha1 c' i' g' = (inr (resolved (Some (id, k))), g').
Proof.
  intros Hi H Ea Ew Hd'.
  assert (Hfin : ∃ a, kd_approvals g' !! ri_approvalId i = Some a ∧ ap_status a = "approved"
    ∧ ap_workspace_id a = Some (ri_workspaceId i) ∧ contract_binding a = Some id
    ∧ contract_in (ri_workspaceId i) id (kd_records g') = Some k ∧ ac_status k = "confirmed").
  { revert H. unfold resolveAcceptanceContractApproval, transaction, resolve_tx, mbind, tx_bind.
    destruct (resolve_checks_run c i g) as (o & g1 & -> & Hs).
    destruct Hs as [reason|a Hd Ha Hp Hw|a id1 k1 Hd Ha Hst Hw Hb Hk Hc|a id1 k1 Hd Ha Hp Hasks Hk Hst Hc Ho]; simpl; [done|done| |].
    - intros [= -> -> ->]. by exists a.
    - assert (Hlo : locked_ok g (ri_approvalId i) (i, (id1, k1))) by (split_and!; [done..|by exists a|by exists k1]).
      pose proof (resolve_locked_run c _ i (id1, k1) g ∅ Hi Hlo) as Hr.
      destruct (resolve_locked _ _ _ _ _) as [e|[[id' k'] g2]]; simpl; [done|]. intros [= -> -> ->].
      destruct (locked_spec_result _ _ _ _ _ _ _ Hi Hlo Hr) as (E & H1 & H2 & H3 & a' & Ha' & Hap).
      destruct (locked_spec_inv _ _ _ _ _ _ _ Hi Hlo (lookup_empty _) Hr) as [Hkept _]. simpl in *. subst id1.
      assert (a' = a) as -> by congruence.
      exists (set_ap_status "approved" (js_now c) a). rewrite Hap, lookup_insert_eq.
      destruct (contract_in_kept _ _ _ _ _ Hkept Hk) as (k2 & Hk2 & _).
      assert (k2 = k) as -> by (apply contract_inP in Hk2 as [Hk2 _]; congruence).
      destruct Hasks as (_ & Hb & Hw). done. }
  destruct Hfin as (a & H1 & H2 & H3 & H4 & H5 & H6).
  unfold resolveAcceptanceContractApproval, transaction, resolve_tx, mbind, tx_bind.
  rewrite <- Ea, <- Ew in *. by rewrite (checks_of_approved c' i' g' a id k).
Qed.

End History.

(** ** A record with two versions and three approvals *)

Definition at_ (n : Z) : Clock := mkClock n n.
Definition work_id : string :=
  default "" (changeRecordId sum_sha1 (mkAnchor "w1" "acme/app" (Some "k1") None None)).
Definition version_id (v : Z) : string := acceptanceContractId sum_sha1 work_id v.
Definition no_records : ContractState := mkContractState (mkContractDb (mkRecordDb ∅ ∅ ∅ ∅ ∅ ∅ ∅) ∅) ∅.
Definition contract_card (request contract : string) : ApprovalInput :=
  mkApprovalInput (Some "w1") None "s1" "eve-1" request "confirm_acceptance_contract" (JObj []) "yes" "no"
    (Some contract) None None.
Definition approve (id : string) : ResolveInput := mkResolveInput "w1" id dec_approved ("user of " +:+ id).

(** Version 1 and 2 drafted; [a1] and [a2] ask for the first, [a3] for the second. *)
Definition drafted_and_asked : list contract_op :=
  [co_record (at_ 1) "u" (mkDraftInput "w1" "acme/app" "console" (contract_doc []) "me") (Some "k1") None;
   co_version (at_ 2) work_id (contract_doc []) "me";
   co_approval (op_request 3 "a1" "t1" (contract_card "r1" (version_id 1)));
   co_approval (op_request 3 "a2" "t2" (contract_card "r2" (version_id 1)));
   co_approval (op_request 3 "a3" "t3" (contract_card "r3" (version_id 2)))].
(** All three pass their checks before any is finished. *)
Definition three_at_once : list contract_op :=
  [co_begin (at_ 4) (approve "a1"); co_begin (at_ 4) (approve "a2"); co_begin (at_ 4) (approve "a3");
   co_approval (op_resolve (at_ 5) "a2" dec_denied None);
   co_finish (at_ 6) "a1"; co_finish (at_ 7) "a2"; co_finish (at_ 8) "a3"].

Definition asked_state : ContractState := exec_contracts sum_sha1 drafted_and_asked no_records.
Definition contracts_of (s : ContractState) : contracts := rd_contracts (kd_records (cs_db s)).

(** The first confirms; the second, for the same version, closes its approval
    and adds nothing; the third is refused and its approval stays open. *)
Example three_at_once_ends :
  let s := exec_contracts sum_sha1 three_at_once asked_state in
  (ac_status <$> contracts_of s !! version_id 1) = Some "confirmed"
  ∧ (contracts_of s !! version_id 1 ≫= ac_confirmed_by) = Some "user of a1"
  ∧ (ac_status <$> contracts_of s !! version_id 2) = Some "draft"
  ∧ ap_status <$> kd_approvals (cs_db s) !! "a1" = Some "approved"
  ∧ ap_status <$> kd_approvals (cs_db s) !! "a2" = Some "approved"
  ∧ ap_status <$> kd_approvals (cs_db s) !! "a3" = Some "pending"
  ∧ size (rd_events (kd_records (cs_db s))) = 3%nat ∧ cs_locked s = ∅.
Proof. vm_compute. done. Qed.

Lemma no_records_sound : contract_inv no_records.
Proof.
  split; [split| |apply map_Forall_empty..]; [|apply map_Forall_empty| |]; by intros id.
Qed.
Lemma asked_sound : contract_inv asked_state.
Proof. apply exec_kept, no_records_sound. Qed.

Lemma contracts_sound_witness :
  contract_inv (exec_contracts sum_sha1 (drafted_and_asked ++ three_at_once) no_records)
  ∧ (ac_status <$> contracts_of (exec_contracts sum_sha1 (drafted_and_asked ++ three_at_once) no_records)
       !! version_id 1) = Some "confirmed".
Proof.
  split; [exact (contracts_sound sum_sha1 (drafted_and_asked ++ three_at_once) no_records no_records_sound)|].
  vm_compute. reflexivity.
Defined.

Definition first_version : AcceptanceContract := draft (at_ 1) work_id 1 (contract_doc []) "me".
Lemma asked_first : contracts_of asked_state !! version_id 1 = Some first_version.
Proof. vm_compute. reflexivity. Qed.
Lemma contract_never_edited_witness :
  ∃ k', rd_contracts (kd_records (cs_db (exec_contracts sum_sha1 three_at_once asked_state))) !! version_id 1 = Some k'
    ∧ contract_text k' = contract_text first_version.
Proof.
  destruct (contract_never_edited sum_sha1 three_at_once asked_state (version_id 1) first_version asked_sound asked_first)
    as (k' & H1 & H2 & _).
  exists k'. exact (conj H1 H2).
Defined.

(** The same tables with nothing in flight. *)
Definition asked_db : ContractDb := cs_db asked_state.
Lemma asked_db_sound : contract_inv (mkContractState asked_db ∅).
Proof. destruct asked_sound as [H1 H2 H3 _]. split; [done..|apply map_Forall_empty]. Qed.

Definition confirmed_db : ContractDb :=
  (resolveAcceptanceContractApproval sum_sha1 (at_ 6) (approve "a1") asked_db).2.
Definition confirmed_first : AcceptanceContract := set_confirmed "user of a1" 6 first_version.
Lemma confirmed_first_run :
  resolveAcceptanceContractApproval sum_sha1 (at_ 6) (approve "a1") asked_db
  = (inr (resolved (Some (version_id 1, confirmed_first))), confirmed_db).
Proof. vm_compute. reflexivity. Qed.

Lemma resolution_exact_witness :
  rd_contracts (kd_records confirmed_db) !! version_id 1 = Some confirmed_first.
Proof.
  pose proof (resolution_exact sum_sha1 (at_ 6) (approve "a1") asked_db asked_db_sound) as H.
  rewrite confirmed_first_run in H. destruct H as [H _]. destruct H as (_ & H & _). exact H.
Defined.

Lemma approval_replay_same_witness :
  resolveAcceptanceContractApproval sum_sha1 (at_ 9) (mkResolveInput "w1" "a1" dec_approved "another") confirmed_db
  = (inr (resolved (Some (version_id 1, confirmed_first))), confirmed_db).
Proof.
  exact (approval_replay_same sum_sha1 (at_ 6) (at_ 9) (approve "a1") (mkResolveInput "w1" "a1" dec_approved "another")
    asked_db (version_id 1) confirmed_first confirmed_db asked_db_sound confirmed_first_run eq_refl eq_refl eq_refl).
Defined.
