(* ===== verification/McpTurns.v ===== *)
(** * McpTurns: intake messages, and the one delivery of an MCP turn

    [queries/change_records.ts]: the messages of an Acceptance Intake, and the
    reservation that lets one caller, once, deliver an MCP turn to the agent. *)

From S2P Require Import Prelude Table Regex Intake DeviceAuth Tx RecordSchema JsonText.
From S2P Require Import PrHead Approvals Contracts.
Open Scope Z_scope.

(** ** Rows *)

Record IntakeMessage := mkIntakeMessage {
  im_intake_id : string;
  im_source_key : string;
  im_direction : string;
  im_text : string;
  im_metadata : json;
  im_created_at : Z;
}.

Record McpTurn := mkMcpTurn {
  mt_workspace_id : string;
  mt_credential_id : string;
  mt_task_context_key : string;
  mt_message_key : string;
  mt_intake_id : string;
  mt_inbound_message_id : string;
  mt_source_key : string;
  mt_message_sha256 : string;
  mt_status : string;
  mt_session_id : option string;
  mt_continuation_token : option string;
  mt_result_reason : option string;
  mt_reserved_at : Z;
  mt_completed_at : option Z;
  mt_created_at : Z;
  mt_updated_at : Z;
}.

Notation messages := (gmap string IntakeMessage).
Notation mcp_turns := (gmap string McpTurn).

Record McpDb := mkMcpDb {
  md_intakes : intakes;
  md_messages : messages;
  md_turns : mcp_turns;
  md_keys : gmap string ApiKey;
}.
Definition with_md_intakes (x : intakes) (d : McpDb) : McpDb := mkMcpDb x (md_messages d) (md_turns d) (md_keys d).
Definition with_md_messages (x : messages) (d : McpDb) : McpDb := mkMcpDb (md_intakes d) x (md_turns d) (md_keys d).
Definition with_md_turns (x : mcp_turns) (d : McpDb) : McpDb := mkMcpDb (md_intakes d) (md_messages d) x (md_keys d).

Inductive McpError :=
  | mcp_invalid
  | mcp_conflict
  | mcp_credential_not_current
  | mcp_lost_custody
  | mcp_unlinked
  | mcp_bound_differently
  | mcp_unique_violation
  | mcp_foreign_key_violation.
#[export] Instance McpError_eq_dec : EqDecision McpError.
Proof. solve_decision. Defined.
Notation mcp_tx := (tx McpError McpDb).

(** ** Reading the arguments *)

Definition hasExactKeys (v : json) (keys : list string) : bool :=
  match v with JObj l => bool_decide (sort_distinct l.*1 = sort_distinct keys) | _ => false end.
(** A string field that passes a test. *)
Definition text_field (v : json) (key : string) (p : string → bool) : option string :=
  match json_field v key with
  | Some (JStr s) => if p s then Some s else None
  | _ => None
  end.
Definition safeMcpTurnKey (max : nat) (s : string) : bool := boundedPullRequestProvenanceText max s.

Record TurnIdentity := mkTurnIdentity {
  tu_workspaceId : string;
  tu_credentialId : string;
  tu_taskContextKey : string;
  tu_messageKey : string;
}.
#[export] Instance TurnIdentity_eq_dec : EqDecision TurnIdentity.
Proof. solve_decision. Defined.

Definition identity_keys : list string := ["workspaceId"; "credentialId"; "taskContextKey"; "messageKey"].
(** The four fields; the keys of the object are checked by the callers. *)
Definition identity_fields (input : json) : option TurnIdentity :=
  ws ← text_field input "workspaceId" isUuid;
  credential ← text_field input "credentialId" isUuid;
  context ← text_field input "taskContextKey" (safeMcpTurnKey 256);
  message ← text_field input "messageKey" (safeMcpTurnKey 256);
  Some (mkTurnIdentity ws credential context message).
Definition parseAcceptanceMcpTurnIdentity (input : json) : option TurnIdentity :=
  if hasExactKeys input identity_keys then identity_fields input else None.

Definition turn_conversation_key (i : TurnIdentity) : string :=
  "mcp:" +:+ tu_credentialId i +:+ ":" +:+ tu_taskContextKey i.
Definition turn_source_key (i : TurnIdentity) : string :=
  "mcp-inbound:" +:+ tu_credentialId i +:+ ":" +:+ tu_taskContextKey i +:+ ":" +:+ tu_messageKey i.

(** The identity and the message; the two keys are the ones of the identity. *)
Definition parseReserveAcceptanceMcpTurnDispatchInput (input : json) : option (TurnIdentity * string) :=
  if negb (hasExactKeys input (identity_keys ++ ["conversationKey"; "sourceKey"; "message"])) then None else
  i ← identity_fields input;
  conversation ← text_field input "conversationKey" (safeMcpTurnKey 1024);
  source ← text_field input "sourceKey" (safeMcpTurnKey 1024);
  message ← text_field input "message" (safeMcpTurnKey 8000);
  if (conversation ≢? turn_conversation_key i) || (source ≢? turn_source_key i) then None else Some (i, message).

Definition no_controls (max : nat) (s : string) : bool :=
  (String.length s <=? max)%nat && negb (existsb is_control (String.list_ascii_of_string s)).
Definition parseCompleteAcceptanceMcpTurnDispatchInput (input : json) : option (TurnIdentity * string * string) :=
  if negb (hasExactKeys input (identity_keys ++ ["sessionId"; "continuationToken"])) then None else
  i ← identity_fields input;
  session ← text_field input "sessionId" (safeMcpTurnKey 512);
  token ← text_field input "continuationToken" (no_controls 1024);
  Some (i, session, token).
Definition parse_hold (input : json) : option (TurnIdentity * string) :=
  if negb (hasExactKeys input (identity_keys ++ ["reason"])) then None else
  i ← identity_fields input;
  reason ← text_field input "reason" (safeMcpTurnKey 256);
  Some (i, reason).

Section McpTurns.
Context (sha1 : list Z → list Z) (sha256 : string → string).
Implicit Types (d : McpDb) (i : TurnIdentity) (r : McpTurn).

Definition acceptanceIntakeId (ws channel conversationKey : string) : string :=
  uuid5Url sha1 ("acceptance-intake:" +:+ ws +:+ ":" +:+ channel +:+ ":" +:+ conversationKey).
Definition acceptanceIntakeMessageId (intakeId sourceKey : string) : string :=
  uuid5Url sha1 ("acceptance-intake-message:" +:+ intakeId +:+ ":" +:+ sourceKey).
Definition acceptanceMcpTurnDispatchId i : string :=
  uuid5Url sha1 ("acceptance-mcp-turn-dispatch:"
    +:+ json_list [sc_str (tu_workspaceId i); sc_str (tu_credentialId i); sc_str (tu_taskContextKey i);
                   sc_str (tu_messageKey i)]).

(** ** Intakes and their messages *)

Definition in_conversation (ws channel key : string) (_ : string) (x : AcceptanceIntake) : bool :=
  (in_workspace_id x ≡? ws) && (in_origin_channel x ≡? channel) && (in_conversation_key x ≡? key).
Definition new_intake (c : Clock) (ws channel key : string) (refs : json) : AcceptanceIntake :=
  mkAcceptanceIntake ws channel key refs "collecting_context" None (db_now c) (db_now c).
Definition set_in_updated (now : Z) (x : AcceptanceIntake) : AcceptanceIntake :=
  mkAcceptanceIntake (in_workspace_id x) (in_origin_channel x) (in_conversation_key x) (in_source_references x)
    (in_status x) (in_record_id x) (in_created_at x) now.

(** [INSERT INTO acceptance_intakes ... ON CONFLICT (workspace_id,
    origin_channel, conversation_key) DO UPDATE SET updated_at RETURNING *] *)
Definition upsert_intake (c : Clock) (id : string) (x : AcceptanceIntake) : mcp_tx (string * AcceptanceIntake) := λ d,
  match head (select_where (in_conversation (in_workspace_id x) (in_origin_channel x) (in_conversation_key x))
                (md_intakes d)) with
  | Some (k, y) =>
      let y' := set_in_updated (js_now c) y in inr ((k, y'), with_md_intakes (<[k := y']> (md_intakes d)) d)
  | None =>
      if is_null (md_intakes d !! id) then inr ((id, x), with_md_intakes (<[id := x]> (md_intakes d)) d)
      else inl mcp_unique_violation
  end.
(** [INSERT ... ON CONFLICT DO NOTHING] *)
Definition ensure_intake (id : string) (x : AcceptanceIntake) : mcp_tx unit := writes (λ d,
  if is_null (md_intakes d !! id)
     && bool_decide (select_where (in_conversation (in_workspace_id x) (in_origin_channel x) (in_conversation_key x))
                       (md_intakes d) = [])
  then with_md_intakes (<[id := x]> (md_intakes d)) d else d).
Definition touch_intake (now : Z) (id : string) : mcp_tx unit := writes (λ d,
  with_md_intakes (update_row id (λ _, true) (set_in_updated now) (md_intakes d)).2 d).

Definition of_source (intakeId sourceKey : string) (_ : string) (m : IntakeMessage) : bool :=
  (im_intake_id m ≡? intakeId) && (im_source_key m ≡? sourceKey).
(** [INSERT INTO acceptance_intake_messages ... ON CONFLICT DO NOTHING
    RETURNING *], whether a row came back. *)
Definition insert_message (id : string) (m : IntakeMessage) : mcp_tx bool := λ d,
  if is_null (md_messages d !! id)
     && bool_decide (select_where (of_source (im_intake_id m) (im_source_key m)) (md_messages d) = []) then
    if is_null (md_intakes d !! im_intake_id m) then inl mcp_foreign_key_violation
    else inr (true, with_md_messages (<[id := m]> (md_messages d)) d)
  else inr (false, d).

Record InboundInput := mkInboundInput {
  ii_workspaceId : string;
  ii_originChannel : string;
  ii_conversationKey : string;
  ii_sourceReferences : option json;
  ii_sourceKey : string;
  ii_text : string;
  ii_metadata : option json;
}.

(** The message under its id, and whether this call wrote it. *)
Notation message_result := (string * IntakeMessage * bool)%type.

Definition recordAcceptanceInboundIntake (c : Clock) (i : InboundInput) d
    : (McpError + (string * AcceptanceIntake) * message_result) * McpDb :=
  let channel := lower (trim (ii_originChannel i)) in
  let conversationKey := trim (ii_conversationKey i) in
  let sourceKey := trim (ii_sourceKey i) in
  let text := trim (ii_text i) in
  if (channel ≡? "") || (conversationKey ≡? "") || (sourceKey ≡? "") || (text ≡? "") then (inl mcp_invalid, d) else
  let intakeId := acceptanceIntakeId (ii_workspaceId i) channel conversationKey in
  let messageId := acceptanceIntakeMessageId intakeId sourceKey in
  transaction (
    intake ← upsert_intake c intakeId
               (new_intake c (ii_workspaceId i) channel conversationKey
                  (normalizeSourceReferences (ii_sourceReferences i)));
    inserted ← insert_message messageId
                 (mkIntakeMessage intakeId sourceKey "inbound" text (default (JObj []) (ii_metadata i)) (db_now c));
    stored ← reads (λ d, md_messages d !! messageId);
    message ← some_or stored mcp_bound_differently;
    _ ← require_true (inserted || ((im_direction message ≡? "inbound") && (im_text message ≡? text)))
          mcp_bound_differently;
    mret (intake, (messageId, message, inserted))) d.

Definition intake_in (ws id : string) d : bool :=
  match md_intakes d !! id with Some x => in_workspace_id x ≡? ws | None => false end.
Definition readAcceptanceIntakeMessage (ws intakeId sourceKey : string) d : option (string * IntakeMessage) :=
  if intake_in ws intakeId d then head (select_where (of_source intakeId sourceKey) (md_messages d)) else None.

(** ** Replies *)

Definition reply_metadata (replyTo : string) : json :=
  JObj [("kind", JStr "jace_mcp_reply"); ("channel", JStr "mcp"); ("replyToSourceKey", JStr replyTo)].
Definition isExactMcpReplyMetadata (value : json) (replyTo : string) : bool :=
  hasExactKeys value ["channel"; "kind"; "replyToSourceKey"]
  && (json_field value "kind" ≡? Some (JStr "jace_mcp_reply")) && (json_field value "channel" ≡? Some (JStr "mcp"))
  && (json_field value "replyToSourceKey" ≡? Some (JStr replyTo)).

(** [ORDER BY created_at DESC, id DESC LIMIT 1] *)
Fixpoint latest_message (l : list (string * IntakeMessage)) : option (string * IntakeMessage) :=
  match l with
  | [] => None
  | x :: l' =>
      match latest_message l' with
      | Some y =>
          if (im_created_at y.2 <? im_created_at x.2)
             || (im_created_at y.2 =? im_created_at x.2) && String.leb y.1 x.1 then Some x else Some y
      | None => Some x
      end
  end.
Definition is_reply_to (intakeId replyTo : string) (_ : string) (m : IntakeMessage) : bool :=
  (im_intake_id m ≡? intakeId) && (im_direction m ≡? "outbound")
  && isDeepStrictEqual (im_metadata m) (reply_metadata replyTo).
Definition readAcceptanceIntakeMcpReply (ws intakeId replyTo : string) d : option (string * IntakeMessage) :=
  if (trim replyTo ≡? "") || (trim replyTo ≢? replyTo) then None else
  if intake_in ws intakeId d then latest_message (select_where (is_reply_to intakeId replyTo) (md_messages d)) else None.

Record ReplyInput := mkReplyInput {
  rp_workspaceId : string;
  rp_intakeId : string;
  rp_sourceKey : string;
  rp_text : string;
  rp_replyToSourceKey : string;
}.
Definition is_inbound (k : string) (m : IntakeMessage) : bool := im_direction m ≡? "inbound".

(** [None] in the result is the answer [null]: no such intake. *)
Definition appendAcceptanceOutboundReply (c : Clock) (i : ReplyInput) d
    : (McpError + option message_result) * McpDb :=
  let sourceKey := trim (rp_sourceKey i) in
  let text := trim (rp_text i) in
  let replyTo := trim (rp_replyToSourceKey i) in
  if (sourceKey ≡? "") || (text ≡? "") || (replyTo ≡? "") || (replyTo ≢? rp_replyToSourceKey i)
  then (inl mcp_invalid, d) else
  let metadata := reply_metadata replyTo in
  transaction (
    found ← reads (intake_in (rp_workspaceId i) (rp_intakeId i));
    match found with
    | false => mret None
    | true =>
        linked ← reads (λ d, select_where (λ k m, of_source (rp_intakeId i) replyTo k m && is_inbound k m) (md_messages d));
        _ ← require_true (bool_decide (linked ≠ [])) mcp_unlinked;
        let messageId := acceptanceIntakeMessageId (rp_intakeId i) sourceKey in
        inserted ← insert_message messageId
                     (mkIntakeMessage (rp_intakeId i) sourceKey "outbound" text metadata (db_now c));
        stored ← reads (λ d, md_messages d !! messageId);
        message ← some_or stored mcp_bound_differently;
        _ ← require_true ((im_direction message ≡? "outbound") && (im_text message ≡? text)
                          && isExactMcpReplyMetadata (im_metadata message) replyTo) mcp_bound_differently;
        _ ← touch_intake (js_now c) (rp_intakeId i);
        mret (Some (messageId, message, inserted))
    end) d.

(** ** The reservation of a turn *)

Definition ACCEPTANCE_MCP_TURN_RESERVATION_STALE_MS : Z := milliseconds (2 * 60 * 1000).

(** A timestamp of the database as JavaScript reads it. *)
Definition js_date (t : Z) : Z := milliseconds (t / 1000).

Definition is_reserved r : bool := mt_status r ≡? "reserved".
Definition set_turn (status : string) (session token reason : option string) (completed : option Z) (now : Z) r : McpTurn :=
  mkMcpTurn (mt_workspace_id r) (mt_credential_id r) (mt_task_context_key r) (mt_message_key r) (mt_intake_id r)
    (mt_inbound_message_id r) (mt_source_key r) (mt_message_sha256 r) status session token reason (mt_reserved_at r)
    completed (mt_created_at r) now.
Definition set_accepted (session token : string) (now : Z) r : McpTurn :=
  set_turn "accepted" (Some session) (Some token) (mt_result_reason r) (Some now) now r.
Definition set_held (reason : string) (now : Z) r : McpTurn :=
  set_turn "held" (mt_session_id r) (mt_continuation_token r) (Some reason) (Some now) now r.

(** What must agree for a stored turn to be this one. *)
Definition mcpTurnDispatchComparable r :=
  (mt_workspace_id r, mt_credential_id r, mt_task_context_key r, mt_message_key r, mt_intake_id r,
   mt_inbound_message_id r, mt_source_key r, mt_message_sha256 r).

(** [UPDATE acceptance_mcp_turn_dispatches SET ... WHERE id AND p RETURNING *] *)
Definition update_turn (id : string) (p : McpTurn → bool) (f : McpTurn → McpTurn) : mcp_tx McpTurn :=
  row ← runs (λ d, let '(row, t) := update_row id p f (md_turns d) in (row, with_md_turns t d));
  some_or row mcp_lost_custody.

Definition stale_reservation (now : Z) r : bool :=
  is_reserved r && (mt_reserved_at r <=? now - ACCEPTANCE_MCP_TURN_RESERVATION_STALE_MS).
Definition holdStaleAcceptanceMcpTurnDispatch (c : Clock) (id : string) r : mcp_tx McpTurn :=
  if negb (is_reserved r) || (js_now c - ACCEPTANCE_MCP_TURN_RESERVATION_STALE_MS <? js_date (mt_reserved_at r))
  then mret r
  else update_turn id (stale_reservation (js_now c)) (set_held "stale_reserved_claim" (js_now c)).

Definition new_turn (c : Clock) i (intakeId messageId message : string) (fresh : bool) : McpTurn :=
  mkMcpTurn (tu_workspaceId i) (tu_credentialId i) (tu_taskContextKey i) (tu_messageKey i) intakeId messageId
    (turn_source_key i) (sha256 message) (if fresh then "reserved" else "held") None None
    (if fresh then None else Some "preexisting_message_without_dispatch_custody") (db_now c)
    (if fresh then None else Some (js_now c)) (db_now c) (db_now c).

(** The unique indexes of the table. *)
Definition turn_conflict (x : McpTurn) (_ : string) r : bool :=
  ((mt_workspace_id r ≡? mt_workspace_id x) && (mt_credential_id r ≡? mt_credential_id x)
   && (mt_task_context_key r ≡? mt_task_context_key x) && (mt_message_key r ≡? mt_message_key x))
  || (mt_inbound_message_id r ≡? mt_inbound_message_id x).
Definition insert_turn (id : string) (x : McpTurn) : mcp_tx bool := runs (λ d,
  if is_null (md_turns d !! id) && bool_decide (select_where (turn_conflict x) (md_turns d) = [])
  then (true, with_md_turns (<[id := x]> (md_turns d)) d) else (false, d)).

Definition current_credential i d : bool :=
  match md_keys d !! tu_credentialId i with
  | Some k => (ak_workspace_id k ≡? tu_workspaceId i) && bool_decide (ak_kind k = agent_mcp) && is_null (ak_revoked_at k)
  | None => false
  end.
Definition turn_references i : json :=
  JArr [JObj [("kind", JStr "hosted_channel_message"); ("channel", JStr "mcp");
              ("conversationKey", JStr (turn_conversation_key i)); ("sourceKey", JStr (turn_source_key i))]].
Definition turn_metadata i : json :=
  JObj [("target", JObj [("workspaceId", JStr (tu_workspaceId i)); ("taskContextKey", JStr (tu_taskContextKey i))])].

(** The stored turn of an id and workspace. *)
Definition turn_of i (id : string) d : option McpTurn :=
  match md_turns d !! id with
  | Some r => if mt_workspace_id r ≡? tu_workspaceId i then Some r else None
  | None => None
  end.

(** Whether the caller may deliver ([kind: claimed]), and the turn. *)
Definition reserve_tx (c : Clock) i (message : string) : mcp_tx (bool * (string * McpTurn)) :=
  let intakeId := acceptanceIntakeId (tu_workspaceId i) "mcp" (turn_conversation_key i) in
  let messageId := acceptanceIntakeMessageId intakeId (turn_source_key i) in
  let id := acceptanceMcpTurnDispatchId i in
  credential ← reads (current_credential i);
  _ ← require_true credential mcp_credential_not_current;
  _ ← ensure_intake intakeId (new_intake c (tu_workspaceId i) "mcp" (turn_conversation_key i) (turn_references i));
  intake ← reads (λ d, md_intakes d !! intakeId);
  x ← some_or intake mcp_conflict;
  _ ← require_true ((in_workspace_id x ≡? tu_workspaceId i) && (in_origin_channel x ≡? "mcp")
                    && (in_conversation_key x ≡? turn_conversation_key i)) mcp_conflict;
  fresh ← insert_message messageId
            (mkIntakeMessage intakeId (turn_source_key i) "inbound" message (turn_metadata i) (db_now c));
  stored ← reads (λ d, md_messages d !! messageId);
  m ← some_or stored mcp_conflict;
  _ ← require_true (of_source intakeId (turn_source_key i) messageId m && is_inbound messageId m
                    && (im_text m ≡? message)) mcp_conflict;
  let row := new_turn c i intakeId messageId message fresh in
  inserted ← insert_turn id row;
  turn ← reads (turn_of i id);
  r ← some_or turn mcp_conflict;
  _ ← require_true (bool_decide (mcpTurnDispatchComparable r = mcpTurnDispatchComparable row)) mcp_conflict;
  dispatch ← holdStaleAcceptanceMcpTurnDispatch c id r;
  _ ← touch_intake (js_now c) intakeId;
  mret (inserted && is_reserved dispatch, (id, dispatch)).
Definition reserveAcceptanceMcpTurnDispatch (c : Clock) (input : json) d
    : (McpError + (bool * (string * McpTurn))) * McpDb :=
  match parseReserveAcceptanceMcpTurnDispatchInput input with
  | None => (inl mcp_invalid, d)
  | Some (i, message) => transaction (reserve_tx c i message) d
  end.

(** The stored turn of this credential. *)
Definition own_turn i d : option McpTurn :=
  match turn_of i (acceptanceMcpTurnDispatchId i) d with
  | Some r => if mt_credential_id r ≡? tu_credentialId i then Some r else None
  | None => None
  end.

Definition readAcceptanceMcpTurnDispatch (c : Clock) (input : json) d : (McpError + option McpTurn) * McpDb :=
  match parseAcceptanceMcpTurnIdentity input with
  | None => (inl mcp_invalid, d)
  | Some i => transaction (
      turn ← reads (own_turn i);
      match turn with
      | Some r => r ← holdStaleAcceptanceMcpTurnDispatch c (acceptanceMcpTurnDispatchId i) r; mret (Some r)
      | None => mret None
      end) d
  end.

Inductive TurnEnd := end_accepted (r : McpTurn) | end_held (r : McpTurn) | end_not_found.

Definition complete_tx (c : Clock) i (session token : string) : mcp_tx TurnEnd :=
  turn ← reads (own_turn i);
  match turn with
  | None => mret end_not_found
  | Some r =>
      if mt_status r ≡? "held" then mret (end_held r)
      else if mt_status r ≡? "accepted" then
        if sql_eq (mt_session_id r) session && sql_eq (mt_continuation_token r) token then mret (end_accepted r)
        else throw mcp_conflict
      else
        r ← update_turn (acceptanceMcpTurnDispatchId i) is_reserved (set_accepted session token (js_now c));
        mret (end_accepted r)
  end.
Definition completeAcceptanceMcpTurnDispatch (c : Clock) (input : json) d : (McpError + TurnEnd) * McpDb :=
  match parseCompleteAcceptanceMcpTurnDispatchInput input with
  | None => (inl mcp_invalid, d)
  | Some (i, session, token) => transaction (complete_tx c i session token) d
  end.

Definition hold_tx (c : Clock) i (reason : string) : mcp_tx TurnEnd :=
  turn ← reads (own_turn i);
  match turn with
  | None => mret end_not_found
  | Some r =>
      if mt_status r ≡? "accepted" then mret (end_accepted r)
      else if mt_status r ≡? "held" then mret (end_held r)
      else
        r ← update_turn (acceptanceMcpTurnDispatchId i) is_reserved (set_held reason (js_now c));
        mret (end_held r)
  end.
Definition holdAcceptanceMcpTurnDispatch (c : Clock) (input : json) d : (McpError + TurnEnd) * McpDb :=
  match parse_hold input with
  | None => (inl mcp_invalid, d)
  | Some (i, reason) => transaction (hold_tx c i reason) d
  end.
End McpTurns.
