(* ===== verification/McpFacts.v ===== *)
(** * McpFacts: an MCP turn is delivered at most once

    The history of the operations of [McpTurns]: who may deliver a turn, what a
    stored turn keeps, and the constraints of its table. *)

From S2P Require Import Prelude Table Regex Intake DeviceAuth Tx RecordSchema JsonText.
From S2P Require Import PrHead Approvals Contracts McpTurns.
From S2P Require Import Timeline.
Open Scope Z_scope.

Section McpFacts.
Context (sha1 : list Z → list Z) (sha256 : string → string).
Implicit Types (d : McpDb) (i : TurnIdentity) (r : McpTurn) (m : IntakeMessage).

(** ** What every operation keeps *)

Definition turn_part r := (mcpTurnDispatchComparable r, mt_reserved_at r, mt_created_at r).
(** The binding of a turn never changes, and nothing does once it is over. *)
Record turn_later r r' : Prop := {
  tl_part : turn_part r' = turn_part r;
  tl_over : is_reserved r = false → r' = r;
}.
#[export] Instance turn_later_preorder : PreOrder turn_later.
Proof.
  split; [by split|]. intros r1 r2 r3 [P1 O1] [P2 O2]. split; [congruence|].
  intros H. specialize (O1 H). subst. by apply O2.
Qed.

Definition same_conversation (x x' : AcceptanceIntake) : Prop :=
  in_workspace_id x' = in_workspace_id x ∧ in_origin_channel x' = in_origin_channel x
  ∧ in_conversation_key x' = in_conversation_key x.
#[export] Instance same_conversation_preorder : PreOrder same_conversation.
Proof. split; [done|]. unfold same_conversation. intros ???. naive_solver congruence. Qed.

Record mcp_grows d d' : Prop := {
  mg_turns : rows turn_later (md_turns d) (md_turns d');
  mg_messages : md_messages d ⊆ md_messages d';
  mg_intakes : rows same_conversation (md_intakes d) (md_intakes d');
}.
#[export] Instance mcp_grows_preorder : PreOrder mcp_grows.
Proof. split; [by split|]. intros d1 d2 d3 [] []. by split; etrans. Qed.

(** ** The constraints of a stored turn *)

Definition turn_identity r : TurnIdentity :=
  mkTurnIdentity (mt_workspace_id r) (mt_credential_id r) (mt_task_context_key r) (mt_message_key r).

(** The check [acceptance_mcp_turn_dispatches_state_check]. *)
Definition state_ok r : Prop :=
  mt_status r = "reserved" ∧ mt_session_id r = None ∧ mt_continuation_token r = None ∧ mt_result_reason r = None
    ∧ mt_completed_at r = None
  ∨ mt_status r = "accepted" ∧ (∃ s, mt_session_id r = Some s ∧ safeMcpTurnKey 512 s = true)
    ∧ (∃ t, mt_continuation_token r = Some t ∧ no_controls 1024 t = true) ∧ mt_result_reason r = None
    ∧ is_Some (mt_completed_at r)
  ∨ mt_status r = "held" ∧ mt_session_id r = None ∧ mt_continuation_token r = None
    ∧ (∃ s, mt_result_reason r = Some s ∧ safeMcpTurnKey 256 s = true) ∧ is_Some (mt_completed_at r).

(** A turn is under the id of its identity, in its state, and stands on the
    intake and the inbound message it names. *)
Record turn_ok d (id : string) r : Prop := {
  tk_id : id = acceptanceMcpTurnDispatchId sha1 (turn_identity r);
  tk_keys : safeMcpTurnKey 256 (mt_task_context_key r) = true ∧ safeMcpTurnKey 256 (mt_message_key r) = true;
  tk_source : mt_source_key r = turn_source_key (turn_identity r);
  tk_intake : mt_intake_id r
    = acceptanceIntakeId sha1 (mt_workspace_id r) "mcp" (turn_conversation_key (turn_identity r));
  tk_state : state_ok r;
  tk_message : ∃ m, md_messages d !! mt_inbound_message_id r = Some m ∧ im_intake_id m = mt_intake_id r
    ∧ im_source_key m = mt_source_key r ∧ im_direction m = "inbound" ∧ sha256 (im_text m) = mt_message_sha256 r;
  tk_conversation : ∃ x, md_intakes d !! mt_intake_id r = Some x ∧ in_workspace_id x = mt_workspace_id r
    ∧ in_origin_channel x = "mcp" ∧ in_conversation_key x = turn_conversation_key (turn_identity r);
}.
Definition turns_ok d : Prop := map_Forall (turn_ok d) (md_turns d).

Lemma turn_part_fields r r' :
  turn_part r' = turn_part r →
  mt_workspace_id r' = mt_workspace_id r ∧ mt_credential_id r' = mt_credential_id r
  ∧ mt_task_context_key r' = mt_task_context_key r ∧ mt_message_key r' = mt_message_key r
  ∧ mt_intake_id r' = mt_intake_id r ∧ mt_inbound_message_id r' = mt_inbound_message_id r
  ∧ mt_source_key r' = mt_source_key r ∧ mt_message_sha256 r' = mt_message_sha256 r.
Proof. unfold turn_part, mcpTurnDispatchComparable. intros H. injection H. done. Qed.

(** Changing the state of a turn, and growing the tables, keep the rest. *)
Lemma turn_ok_change d d' id r r' :
  mcp_grows d d' → turn_part r' = turn_part r → state_ok r' → turn_ok d id r → turn_ok d' id r'.
Proof.
  intros [_ Gm Gi] (E1 & E2 & E3 & E4 & E5 & E6 & E7 & E8)%turn_part_fields Hs [H1 H2 H3 H4 _ (m & Hm & M) (x & Hx & X1 & X2 & X3)].
  assert (Ei : turn_identity r' = turn_identity r) by (unfold turn_identity; congruence).
  destruct (Gi _ _ Hx) as (x' & Hx' & S1 & S2 & S3).
  split; rewrite ?E1, ?E3, ?E4, ?E5, ?E6, ?E7, ?E8, ?Ei; try done.
  - exists m. split; [by eapply lookup_weaken|done].
  - exists x'. split_and!; congruence.
Qed.
Lemma turn_ok_grows d d' id r : mcp_grows d d' → turn_ok d id r → turn_ok d' id r.
Proof. intros G H. eapply turn_ok_change; [done..|apply H|done]. Qed.

(** What a statement keeps: the tables grow, and the constraints stay. *)
Definition mcp_keeps d d' : Prop := mcp_grows d d' ∧ (turns_ok d → turns_ok d').
#[export] Instance mcp_keeps_preorder : PreOrder mcp_keeps.
Proof. split; [by split|]. intros d1 d2 d3 [G1 T1] [G2 T2]. split; [by etrans|auto]. Qed.

Lemma mcp_keeps_same_turns d d' :
  md_turns d' = md_turns d → md_messages d ⊆ md_messages d' → rows same_conversation (md_intakes d) (md_intakes d') →
  mcp_keeps d d'.
Proof.
  intros Ht Hm Hi. assert (G : mcp_grows d d') by (split; [by rewrite Ht|done..]). split; [done|].
  intros T id r. rewrite Ht. intros Hr. by eapply turn_ok_grows, T.
Qed.

Lemma keeps_insert_message id m : keeps mcp_keeps (insert_message id m).
Proof.
  intros d b d'. unfold insert_message. destruct (md_messages d !! id) eqn:E; simpl; [by intros [= _ <-]|].
  case_bool_decide; [|by intros [= _ <-]]. destruct (is_null _); [done|]. intros [= _ <-].
  apply mcp_keeps_same_turns; simpl; [done|by apply insert_subseteq|done].
Qed.
Lemma keeps_upsert_intake c id x : keeps mcp_keeps (upsert_intake c id x).
Proof.
  intros d b d'. unfold upsert_intake. destruct (select_where _ _) as [|[k y] l] eqn:E; simpl.
  - destruct (md_intakes d !! id) eqn:Hid; [done|]. intros [= _ <-].
    apply mcp_keeps_same_turns; simpl; [done..|]. by apply rows_insert_fresh; [apply _|].
  - intros [= _ <-]. apply mcp_keeps_same_turns; simpl; [done..|].
    assert (Hin : (k, y) ∈ select_where (in_conversation (in_workspace_id x) (in_origin_channel x) (in_conversation_key x))
      (md_intakes d)) by (rewrite E; set_solver).
    apply elem_of_select_where in Hin as [Hk _]. by apply rows_insert with y; [apply _|..].
Qed.
Lemma keeps_ensure_intake id x : keeps mcp_keeps (ensure_intake id x).
Proof.
  apply keeps_writes. intros d. destruct (md_intakes d !! id) eqn:E; simpl; [done|]. case_bool_decide; [|done].
  apply mcp_keeps_same_turns; simpl; [done..|]. by apply rows_insert_fresh; [apply _|].
Qed.
Lemma keeps_touch_intake now id : keeps mcp_keeps (touch_intake now id).
Proof.
  apply keeps_writes. intros d. apply mcp_keeps_same_turns; simpl; [done..|]. by apply rows_update_row; [apply _|].
Qed.
(** An update of a reserved turn that puts it in an end state. *)
Lemma keeps_update_turn id p f :
  (∀ r, p r = true → is_reserved r = true) → (∀ r, turn_part (f r) = turn_part r) →
  (∀ r, state_ok r → is_reserved r = true → state_ok (f r)) → keeps mcp_keeps (update_turn id p f).
Proof.
  intros Hp Hf Hs d r d' H. apply bind_inr in H as (o & d1 & Hr%runs_inr & [-> ->]%some_or_inr).
  destruct (update_rowP p f id (md_turns d)) as [r0 Hr0 Hp0|_]; simplify_eq.
  assert (G : mcp_grows d (with_md_turns (<[id := f r0]> (md_turns d)) d)).
  { split; simpl; [|done..]. apply rows_insert with r0; [apply _|done|]. split; [done|].
    intros E. apply Hp in Hp0. congruence. }
  split; [done|]. intros T id' r' H'. simpl in H'. apply lookup_insert_Some in H' as [[<- <-]|[_ Hr']].
  - eapply turn_ok_change; [done|apply Hf| |by apply T]. apply Hs; [by apply (T id)|by apply Hp].
  - by eapply turn_ok_grows, T.
Qed.
#[local] Hint Resolve keeps_insert_message keeps_upsert_intake keeps_ensure_intake keeps_touch_intake : agentrail.

(** ** The operations *)

Lemma keeps_set_held id p reason now :
  (∀ r, p r = true → is_reserved r = true) → safeMcpTurnKey 256 reason = true →
  keeps mcp_keeps (update_turn id p (set_held reason now)).
Proof.
  intros Hp Hr. apply keeps_update_turn; [done|done|]. intros r Hs Hres. apply bool_decide_eq_true in Hres.
  right. right. simpl. destruct Hs as [(_ & H1 & H2 & _)|[(E & _)|(E & _)]]; [|congruence..].
  split_and!; [done..|by exists reason|by eexists].
Qed.
Lemma keeps_set_accepted id session token now :
  safeMcpTurnKey 512 session = true → no_controls 1024 token = true →
  keeps mcp_keeps (update_turn id is_reserved (set_accepted session token now)).
Proof.
  intros H1 H2. apply keeps_update_turn; [done|done|]. intros r Hs Hres. apply bool_decide_eq_true in Hres.
  right. left. simpl. destruct Hs as [(_ & _ & _ & H3 & _)|[(E & _)|(E & _)]]; [|congruence..].
  split_and!; [done|by exists session|by exists token|done|by eexists].
Qed.
Lemma keeps_hold_stale c id r : keeps mcp_keeps (holdStaleAcceptanceMcpTurnDispatch c id r).
Proof.
  unfold holdStaleAcceptanceMcpTurnDispatch. destruct (_ || _); [keeps|].
  apply keeps_set_held; [|by vm_compute]. by intros r' [H _]%andb_true_iff.
Qed.
#[local] Hint Resolve keeps_hold_stale : agentrail.

(** Reading the arguments. *)
Lemma text_field_Some v key p s : text_field v key p = Some s → json_field v key = Some (JStr s) ∧ p s = true.
Proof.
  unfold text_field. destruct (json_field v key) as [[]|]; try done. destruct (p s0) eqn:E; [|done]. by intros [= ->].
Qed.
Lemma identity_safe v i :
  identity_fields v = Some i →
  safeMcpTurnKey 256 (tu_taskContextKey i) = true ∧ safeMcpTurnKey 256 (tu_messageKey i) = true.
Proof.
  unfold identity_fields. intros (ws & H1 & (cr & H2 & (tc & [_ H3]%text_field_Some & (mk & [_ H4]%text_field_Some & [= <-])
    %bind_Some)%bind_Some)%bind_Some)%bind_Some. done.
Qed.
Lemma parse_identity_safe v i :
  parseAcceptanceMcpTurnIdentity v = Some i →
  safeMcpTurnKey 256 (tu_taskContextKey i) = true ∧ safeMcpTurnKey 256 (tu_messageKey i) = true.
Proof. unfold parseAcceptanceMcpTurnIdentity. destruct (hasExactKeys _ _); [|done]. apply identity_safe. Qed.
Lemma parse_reserve_safe v i message :
  parseReserveAcceptanceMcpTurnDispatchInput v = Some (i, message) →
  safeMcpTurnKey 256 (tu_taskContextKey i) = true ∧ safeMcpTurnKey 256 (tu_messageKey i) = true.
Proof.
  unfold parseReserveAcceptanceMcpTurnDispatchInput. destruct (hasExactKeys _ _); [|done]. simpl.
  intros (i' & Hi & (k & _ & (s & _ & (m & _ & H)%bind_Some)%bind_Some)%bind_Some)%bind_Some.
  destruct (_ || _); [done|]. injection H as <- <-. by eapply identity_safe.
Qed.
Lemma parse_complete_safe v i session token :
  parseCompleteAcceptanceMcpTurnDispatchInput v = Some (i, session, token) →
  safeMcpTurnKey 512 session = true ∧ no_controls 1024 token = true.
Proof.
  unfold parseCompleteAcceptanceMcpTurnDispatchInput. destruct (hasExactKeys _ _); [|done]. simpl.
  intros (i' & _ & (s & [_ H1]%text_field_Some & (t & [_ H2]%text_field_Some & [= <- <- <-])%bind_Some)%bind_Some)%bind_Some.
  done.
Qed.
Lemma parse_hold_safe v i reason : parse_hold v = Some (i, reason) → safeMcpTurnKey 256 reason = true.
Proof.
  unfold parse_hold. destruct (hasExactKeys _ _); [|done]. simpl.
  intros (i' & _ & (s & [_ H1]%text_field_Some & [= <- <-])%bind_Some)%bind_Some. done.
Qed.

(** ** What a reservation does *)

Definition intake_id_of i : string := acceptanceIntakeId sha1 (tu_workspaceId i) "mcp" (turn_conversation_key i).
Definition message_id_of i : string := acceptanceIntakeMessageId sha1 (intake_id_of i) (turn_source_key i).
Definition turn_id_of i : string := acceptanceMcpTurnDispatchId sha1 i.
Definition turn_row c i message fresh : McpTurn := new_turn sha256 c i (intake_id_of i) (message_id_of i) message fresh.

Lemma update_turn_inr id p f d r d' :
  update_turn id p f d = inr (r, d') →
  ∃ r0, md_turns d !! id = Some r0 ∧ p r0 = true ∧ r = f r0 ∧ d' = with_md_turns (<[id := f r0]> (md_turns d)) d.
Proof.
  intros H. apply bind_inr in H as (o & d1 & Hr%runs_inr & [-> ->]%some_or_inr).
  destruct (update_rowP p f id (md_turns d)) as [r0 Hr0 Hp0|_]; simplify_eq. by exists r0.
Qed.

Lemma hold_stale_inr c id r0 d r d' :
  md_turns d !! id = Some r0 → holdStaleAcceptanceMcpTurnDispatch c id r0 d = inr (r, d') →
  turn_later r0 r ∧ md_turns d' !! id = Some r ∧ (r = r0 ∨ is_reserved r = false).
Proof.
  intros Hid. unfold holdStaleAcceptanceMcpTurnDispatch. destruct (_ || _) eqn:E.
  - intros [<- <-]%ret_inr. by split_and!; [|done|left].
  - intros (r1 & H1 & Hp & -> & ->)%update_turn_inr. assert (r1 = r0) as -> by congruence. simpl.
    rewrite lookup_insert_eq. apply orb_false_iff in E as [E _]. apply negb_false_iff in E.
    split_and!; [split; [done|congruence]|done|by right].
Qed.

Lemma insert_message_inr id m d b d' :
  insert_message id m d = inr (b, d') →
  md_turns d' = md_turns d ∧ md_intakes d' = md_intakes d ∧ md_keys d' = md_keys d
  ∧ if b then md_messages d !! id = None ∧ md_messages d' = <[id := m]> (md_messages d)
    else md_messages d' = md_messages d.
Proof.
  unfold insert_message. destruct (md_messages d !! id) eqn:E; simpl; [by intros [= <- <-]|].
  case_bool_decide; [|by intros [= <- <-]]. destruct (is_null _); [done|]. by intros [= <- <-].
Qed.

(** The message and the intake the turn will name. *)
Definition turn_stands i message d : Prop :=
  (∃ m, md_messages d !! message_id_of i = Some m ∧ im_intake_id m = intake_id_of i
     ∧ im_source_key m = turn_source_key i ∧ im_direction m = "inbound" ∧ im_text m = message)
  ∧ (∃ x, md_intakes d !! intake_id_of i = Some x ∧ in_workspace_id x = tu_workspaceId i
     ∧ in_origin_channel x = "mcp" ∧ in_conversation_key x = turn_conversation_key i).

(** A reservation up to its turn, and after. *)
Lemma reserve_inr c i message d b id r d' :
  reserve_tx sha1 sha256 c i message d = inr ((b, (id, r)), d') →
  id = turn_id_of i ∧ current_credential i d = true
  ∧ ∃ fresh d1 d2 d3 r0,
      mcp_keeps d d1 ∧ md_turns d1 = md_turns d ∧ turn_stands i message d1
      ∧ (fresh = true → md_messages d !! message_id_of i = None)
      ∧ (∃ inserted, insert_turn (turn_id_of i) (turn_row c i message fresh) d1 = inr (inserted, d2)
         ∧ b = inserted && is_reserved r)
      ∧ md_turns d2 !! turn_id_of i = Some r0
      ∧ mcpTurnDispatchComparable r0 = mcpTurnDispatchComparable (turn_row c i message fresh)
      ∧ holdStaleAcceptanceMcpTurnDispatch c (turn_id_of i) r0 d2 = inr (r, d3)
      ∧ mcp_keeps d3 d' ∧ md_turns d' = md_turns d3.
Proof.
  unfold reserve_tx. intros H.
  apply bind_inr in H as (cr & d0 & [-> ->]%reads_inr & H). apply bind_inr in H as (u & d0 & [Hcr ->]%require_inr & H).
  apply bind_inr in H as (u1 & d1 & He & H). assert (Ke := keeps_ensure_intake _ _ d u1 d1 He).
  apply writes_inr in He.
  assert (Te : md_turns d1 = md_turns d ∧ md_messages d1 = md_messages d) by (subst d1; destruct (_ && _); done).
  clear He. destruct Te as [Te Me].
  apply bind_inr in H as (o & d0 & [-> ->]%reads_inr & H). apply bind_inr in H as (x & d0 & [Hx ->]%some_or_inr & H).
  apply bind_inr in H as (u2 & d0 & [Hxc ->]%require_inr & H).
  apply bind_inr in H as (fresh & d2 & Hm & H). assert (Km := keeps_insert_message _ _ d1 fresh d2 Hm).
  apply insert_message_inr in Hm as (Tm & Im & _ & Hf).
  apply bind_inr in H as (o & d0 & [-> ->]%reads_inr & H). apply bind_inr in H as (m & d0 & [Hms ->]%some_or_inr & H).
  apply bind_inr in H as (u3 & d0 & [Hmc ->]%require_inr & H).
  apply bind_inr in H as (inserted & d3 & Hins & H).
  apply bind_inr in H as (o & d0 & [-> ->]%reads_inr & H). apply bind_inr in H as (r0 & d0 & [Hr0 ->]%some_or_inr & H).
  apply bind_inr in H as (u4 & d0 & [Hcmp ->]%require_inr & H).
  apply bind_inr in H as (r1 & d4 & Hh & H). apply bind_inr in H as (u5 & d5 & Ht & Hret).
  apply ret_inr in Hret as [Hpair <-]. injection Hpair as <- <- <-.
  split; [reflexivity|]. split; [exact Hcr|].
  exists fresh, d2, d3, d4, r0.
  assert (Kt := keeps_touch_intake _ _ d4 u5 d5 Ht). apply writes_inr in Ht.
  split; [by etrans|]. split; [congruence|]. split.
  { apply andb_true_iff in Hxc as [[B1%bool_decide_eq_true B2%bool_decide_eq_true]%andb_true_iff B3%bool_decide_eq_true].
    apply andb_true_iff in Hmc as [[Hsrc A3%bool_decide_eq_true]%andb_true_iff A4%bool_decide_eq_true].
    apply andb_true_iff in Hsrc as [A1%bool_decide_eq_true A2%bool_decide_eq_true].
    split; [by exists m|]. exists x. rewrite Im. exact (conj Hx (conj B1 (conj B2 B3))). }
  split. { intros ->. destruct Hf as [Hf _]. by rewrite <- Me. }
  split; [by exists inserted|]. split.
  { unfold turn_of in Hr0. destruct (md_turns d3 !! acceptanceMcpTurnDispatchId sha1 i) as [r2|] eqn:E; [|done]. destruct (mt_workspace_id r2 ≡? _); [|done].
    injection Hr0 as ->. exact E. }
  apply bool_decide_eq_true in Hcmp. split; [exact Hcmp|]. split; [exact Hh|]. split; [exact Kt|]. by subst d5.
Qed.

Lemma insert_turn_inr id x d b d' :
  insert_turn id x d = inr (b, d') →
  b = true ∧ md_turns d !! id = None ∧ d' = with_md_turns (<[id := x]> (md_turns d)) d ∨ b = false ∧ d' = d.
Proof.
  unfold insert_turn, runs. destruct (md_turns d !! id) eqn:E; simpl; [intros [= <- <-]; by right|].
  case_bool_decide; intros [= <- <-]; [by left|by right].
Qed.

(** Only the call that inserts the turn may deliver it. *)
Lemma reserve_claims c i message d b id r d' :
  reserve_tx sha1 sha256 c i message d = inr ((b, (id, r)), d') →
  md_turns d' !! turn_id_of i = Some r
  ∧ mcpTurnDispatchComparable r = mcpTurnDispatchComparable (turn_row c i message true)
  ∧ (b = true → md_turns d !! turn_id_of i = None ∧ md_messages d !! message_id_of i = None
       ∧ current_credential i d = true ∧ r = turn_row c i message true)
  ∧ (∀ r0, md_turns d !! turn_id_of i = Some r0 → b = false ∧ turn_later r0 r).
Proof.
  intros (-> & Hcr & fresh & d1 & d2 & d3 & r0 & _ & T1 & _ & Hfresh & (ins & Hins & ->) & Hr0 & Hcmp & Hh & _ & T3)%reserve_inr.
  apply hold_stale_inr in Hh as (L & Hr & Hstate); [|done].
  assert (Hcmp' : mcpTurnDispatchComparable r = mcpTurnDispatchComparable (turn_row c i message true)).
  { assert (P := tl_part _ _ L). apply (f_equal (λ x, x.1.1)) in P. simpl in P. rewrite P, Hcmp. by destruct fresh. }
  rewrite T3. split; [done|]. split; [exact Hcmp'|].
  apply insert_turn_inr in Hins as [(-> & Hn & ->)|(-> & ->)].
  - rewrite T1 in Hn. simpl in Hr0. rewrite lookup_insert_eq in Hr0. injection Hr0 as <-. simpl. split.
    + intros Hres. destruct Hstate as [->|]; [|congruence]. destruct fresh; [|done]. auto.
    + intros r1 H1. congruence.
  - simpl. split; [done|]. intros r1 H1. split; [done|]. rewrite T1 in Hr0. by simplify_eq.
Qed.

Lemma reserve_keeps c i message d p d' :
  safeMcpTurnKey 256 (tu_taskContextKey i) = true ∧ safeMcpTurnKey 256 (tu_messageKey i) = true →
  reserve_tx sha1 sha256 c i message d = inr (p, d') → mcp_keeps d d'.
Proof.
  intros Hsafe. destruct p as [b [id r]].
  intros (-> & Hcr & fresh & d1 & d2 & d3 & r0 & K1 & _ & (Hm & Hx) & _ & (ins & Hins & ->) & _ & _ & Hh & K3 & _)%reserve_inr.
  etrans; [exact K1|]. transitivity d3; [|exact K3]. transitivity d2; [|by eapply keeps_hold_stale].
  apply insert_turn_inr in Hins as [(_ & Hn & ->)|(_ & ->)]; [|done].
  assert (G : mcp_grows d1 (with_md_turns (<[turn_id_of i := turn_row c i message fresh]> (md_turns d1)) d1)).
  { split; simpl; [|done..]. by apply rows_insert_fresh; [apply _|]. }
  split; [done|]. intros T id' r' H'. simpl in H'. apply lookup_insert_Some in H' as [[<- <-]|[_ Hr']];
    [|by eapply turn_ok_grows, T].
  destruct i as [ws cred tc mk]. split; simpl; try done.
  - unfold turn_row, new_turn, state_ok. destruct fresh; simpl; [by left|]. right. right.
    split_and!; [done..| |by eexists]. eexists. split; [done|by vm_compute].
  - destruct Hm as (m & H1 & H2 & H3 & H4 & H5). exists m. by rewrite H5.
Qed.

(** ** Histories *)

(** [mo_keys] stands for whatever happens to the API keys. *)
Inductive mcp_op :=
  | mo_inbound (c : Clock) (i : InboundInput)
  | mo_reply (c : Clock) (i : ReplyInput)
  | mo_reserve (c : Clock) (input : json)
  | mo_read (c : Clock) (input : json)
  | mo_complete (c : Clock) (input : json)
  | mo_hold (c : Clock) (input : json)
  | mo_keys (keys : gmap string ApiKey).

Definition exec_mcp (o : mcp_op) d : McpDb :=
  match o with
  | mo_inbound c i => (recordAcceptanceInboundIntake sha1 c i d).2
  | mo_reply c i => (appendAcceptanceOutboundReply sha1 c i d).2
  | mo_reserve c v => (reserveAcceptanceMcpTurnDispatch sha1 sha256 c v d).2
  | mo_read c v => (readAcceptanceMcpTurnDispatch sha1 c v d).2
  | mo_complete c v => (completeAcceptanceMcpTurnDispatch sha1 c v d).2
  | mo_hold c v => (holdAcceptanceMcpTurnDispatch sha1 c v d).2
  | mo_keys keys => mkMcpDb (md_intakes d) (md_messages d) (md_turns d) keys
  end.
Definition exec_mcps (l : list mcp_op) d : McpDb := fold_left (λ d o, exec_mcp o d) l d.

(** The operation lets its caller deliver the turn [id]. *)
Definition claims (id : string) (o : mcp_op) d : bool :=
  match o with
  | mo_reserve c v =>
      match (reserveAcceptanceMcpTurnDispatch sha1 sha256 c v d).1 with
      | inr (claimed, (k, _)) => claimed && (k ≡? id)
      | inl _ => false
      end
  | _ => false
  end.
Fixpoint claims_of (id : string) (l : list mcp_op) d : nat :=
  match l with
  | [] => 0
  | o :: l' => (if claims id o d then 1 else 0) + claims_of id l' (exec_mcp o d)
  end.

Lemma exec_mcp_keeps o d : mcp_keeps d (exec_mcp o d).
Proof.
  destruct o as [c i|c i|c v|c v|c v|c v|keys]; simpl.
  - unfold recordAcceptanceInboundIntake. destruct (_ || _); [done|]. apply keeps_transaction; [apply _|]. keeps.
  - unfold appendAcceptanceOutboundReply. destruct (_ || _); [done|]. apply keeps_transaction; [apply _|]. keeps.
  - unfold reserveAcceptanceMcpTurnDispatch.
    destruct (parseReserveAcceptanceMcpTurnDispatchInput v) as [[i message]|] eqn:P; [|done].
    apply keeps_transaction; [apply _|]. intros d0 p d' H. eapply reserve_keeps; [by eapply parse_reserve_safe|done].
  - unfold readAcceptanceMcpTurnDispatch. destruct (parseAcceptanceMcpTurnIdentity v); [|done].
    apply keeps_transaction; [apply _|]. keeps.
  - unfold completeAcceptanceMcpTurnDispatch.
    destruct (parseCompleteAcceptanceMcpTurnDispatchInput v) as [[[i session] token]|] eqn:P; [|done].
    apply keeps_transaction; [apply _|]. unfold complete_tx. apply parse_complete_safe in P as [P1 P2]. keeps.
    by apply keeps_set_accepted.
  - unfold holdAcceptanceMcpTurnDispatch. destruct (parse_hold v) as [[i reason]|] eqn:P; [|done].
    apply keeps_transaction; [apply _|]. unfold hold_tx. apply parse_hold_safe in P. keeps.
    by apply keeps_set_held.
  - by apply mcp_keeps_same_turns.
Qed.
Lemma exec_mcps_keeps l d : mcp_keeps d (exec_mcps l d).
Proof. revert d. induction l as [|o l IH]; intros d; simpl; [done|]. etrans; [apply exec_mcp_keeps|apply IH]. Qed.

Lemma claims_fresh id o d : claims id o d = true → md_turns d !! id = None ∧ is_Some (md_turns (exec_mcp o d) !! id).
Proof.
  destruct o as [| |c v| | | |]; try done. unfold claims. unfold exec_mcp, reserveAcceptanceMcpTurnDispatch.
  destruct (parseReserveAcceptanceMcpTurnDispatchInput v) as [[i message]|]; [|done].
  unfold transaction. destruct (reserve_tx sha1 sha256 c i message d) as [e|[[b [k r]] d']] eqn:H; [done|]. simpl.
  intros [-> Hk%bool_decide_eq_true]%andb_true_iff. subst k.
  assert (id = turn_id_of i) as -> by (apply reserve_inr in H as [E _]; exact E).
  apply reserve_claims in H as (H1 & _ & H2 & _). destruct (H2 eq_refl) as (H3 & _). eauto.
Qed.
Lemma claims_none id l d : is_Some (md_turns d !! id) → claims_of id l d = 0%nat.
Proof.
  revert d. induction l as [|o l IH]; intros d Hd; simpl; [done|].
  destruct (claims id o d) eqn:E; [apply claims_fresh in E as [E _]; by rewrite E in Hd; destruct Hd|].
  apply IH. destruct Hd as [r Hr]. destruct (exec_mcp_keeps o d) as [[G _ _] _].
  destruct (G id r Hr) as (r' & Hr' & _). by exists r'.
Qed.

(** C5 (safety).  A turn is delivered at most once.  Over any history of
    reservations, reads, completions, holds, messages and changes of the keys,
    at most one call is told that it may deliver the turn, and none once the
    turn is stored; a call that is told so inserted the turn and its message
    itself, and its credential was a current MCP key of the workspace. *)
Theorem turn_claimed_once id l d :
  (claims_of id l d + (if is_null (md_turns d !! id) then 0 else 1) ≤ 1)%nat
  ∧ ∀ c v d0 r d1, reserveAcceptanceMcpTurnDispatch sha1 sha256 c v d0 = (inr (true, (id, r)), d1) →
      ∃ i message, parseReserveAcceptanceMcpTurnDispatchInput v = Some (i, message)
        ∧ id = turn_id_of i ∧ md_turns d0 !! id = None ∧ md_messages d0 !! message_id_of i = None
        ∧ current_credential i d0 = true ∧ md_turns d1 !! id = Some r ∧ r = turn_row c i message true.
Proof.
  split.
  - destruct (md_turns d !! id) eqn:E; simpl; [by rewrite claims_none|].
    revert d E. induction l as [|o l IH]; intros d E; simpl; [lia|].
    destruct (claims id o d) eqn:C.
    + apply claims_fresh in C as [_ C]. rewrite (claims_none id l _ C). lia.
    + destruct (md_turns (exec_mcp o d) !! id) eqn:E'; [rewrite claims_none; [lia|by eexists]|].
      specialize (IH _ E'). lia.
  - intros c v d0 r d1. unfold reserveAcceptanceMcpTurnDispatch.
    destruct (parseReserveAcceptanceMcpTurnDispatchInput v) as [[i message]|]; [|done].
    unfold transaction. destruct (reserve_tx _ _ _ _ _ _) as [e|[[b [k r0]] d']] eqn:H; [done|].
    intros [= -> -> -> ->]. exists i, message.
    assert (id = turn_id_of i) as -> by (apply reserve_inr in H as [E _]; exact E).
    apply reserve_claims in H as (H1 & _ & H2 & _). destruct (H2 eq_refl) as (H3 & H4 & H5 & H6). done.
Qed.

(** Every stored turn keeps the checks of its table and stands on its
    evidence, over any such history: it is under the id of its identity, its
    state has exactly the columns of that state, and the intake and the
    inbound message it names exist, are of its workspace and conversation, and
    carry the text whose hash it stores. *)
Theorem turns_well_typed l d : turns_ok d → turns_ok (exec_mcps l d).
Proof. apply exec_mcps_keeps. Qed.

(** What a turn is bound to never changes, and nothing about it
    does once it is accepted or held; messages are never edited or removed. *)
Theorem turn_end_final l d id r :
  md_turns d !! id = Some r →
  (∃ r', md_turns (exec_mcps l d) !! id = Some r'
     ∧ mcpTurnDispatchComparable r' = mcpTurnDispatchComparable r ∧ (is_reserved r = false → r' = r))
  ∧ md_messages d ⊆ md_messages (exec_mcps l d).
Proof.
  intros Hr. destruct (exec_mcps_keeps l d) as [[G M _] _]. split; [|done].
  destruct (G id r Hr) as (r' & Hr' & [P O]). exists r'. split; [done|]. split; [|done].
  by apply (f_equal (λ x, x.1.1)) in P.
Qed.

(** ** Replies *)

Lemma latest_message_spec (l : list (string * IntakeMessage)) k m :
  (k, m) ∈ l → ∃ k' m', latest_message l = Some (k', m') ∧ (k', m') ∈ l ∧ im_created_at m ≤ im_created_at m'.
Proof.
  revert k m. induction l as [|[k1 m1] l IH]; intros k m; [set_solver|]. simpl.
  intros [[= -> ->]|H]%elem_of_cons.
  - destruct (latest_message l) as [[k2 m2]|] eqn:E.
    + destruct l as [|[k3 m3] l]; [done|]. destruct (IH k3 m3) as (k4 & m4 & [= -> ->] & Hin & _); [set_solver|]. simpl.
      destruct (im_created_at m4 <? im_created_at m1) eqn:L; simpl; [exists k1, m1; split_and!; [done|set_solver|lia]|].
      apply Z.ltb_ge in L. destruct (_ && _); [exists k1, m1|exists k4, m4]; split_and!; try done; set_solver.
    + exists k1, m1. split_and!; [done|set_solver|lia].
  - destruct (IH k m H) as (k2 & m2 & -> & Hin & Hle). simpl.
    destruct (im_created_at m2 <? im_created_at m1) eqn:L; simpl.
    + apply Z.ltb_lt in L. exists k1, m1. split_and!; [done|set_solver|lia].
    + apply Z.ltb_ge in L. destruct (Z.eqb_spec (im_created_at m2) (im_created_at m1)) as [Eq|]; simpl;
        [destruct (String.leb k2 k1)|]; [exists k1, m1|exists k2, m2..]; split_and!; try done; try set_solver; lia.
Qed.

Lemma exact_reply_metadata replyTo : isExactMcpReplyMetadata (reply_metadata replyTo) replyTo = true.
Proof.
  unfold isExactMcpReplyMetadata. assert (hasExactKeys (reply_metadata replyTo) ["channel"; "kind"; "replyToSourceKey"] = true)
    as -> by (unfold hasExactKeys, reply_metadata; by vm_compute). simpl.
  by rewrite !bool_decide_eq_true_2.
Qed.

(** What a reply that is stored leaves. *)
Lemma append_reply_inr c (i : ReplyInput) d k m d1 :
  appendAcceptanceOutboundReply sha1 c i d = (inr (Some (k, m, true)), d1) →
  let replyTo := rp_replyToSourceKey i in
  trim replyTo = replyTo ∧ replyTo ≠ "" ∧ intake_in (rp_workspaceId i) (rp_intakeId i) d1 = true
  ∧ k = acceptanceIntakeMessageId sha1 (rp_intakeId i) (trim (rp_sourceKey i))
  ∧ m = mkIntakeMessage (rp_intakeId i) (trim (rp_sourceKey i)) "outbound" (trim (rp_text i)) (reply_metadata replyTo) (db_now c)
  ∧ md_messages d1 = <[k := m]> (md_messages d) ∧ md_messages d !! k = None
  ∧ select_where (λ k m, of_source (rp_intakeId i) replyTo k m && is_inbound k m) (md_messages d) ≠ [].
Proof.
  unfold appendAcceptanceOutboundReply. destruct (_ || _) eqn:Hok; [done|]. unfold transaction.
  match goal with |- context [match ?f d with _ => _ end] => destruct (f d) as [e|[o d2]] eqn:H end; [done|].
  intros [= -> ->]. simpl.
  apply orb_false_iff in Hok as [[[Ha Hb]%orb_false_iff Hc]%orb_false_iff Hd].
  apply negb_false_iff, bool_decide_eq_true in Hd. apply bool_decide_eq_false in Hc. rewrite Hd in *.
  apply bind_inr in H as (found & d0 & [-> ->]%reads_inr & H).
  destruct (intake_in (rp_workspaceId i) (rp_intakeId i) d) eqn:Hi; [|by apply ret_inr in H as [? _]].
  apply bind_inr in H as (linked & d0 & [-> ->]%reads_inr & H).
  apply bind_inr in H as (u & d0 & [Hl ->]%require_inr & H). apply bool_decide_eq_true in Hl.
  apply bind_inr in H as (ins & d2 & Hm & H). apply insert_message_inr in Hm as (_ & Im & _ & Hins).
  apply bind_inr in H as (o & d0 & [-> ->]%reads_inr & H). apply bind_inr in H as (m0 & d0 & [Hm0 ->]%some_or_inr & H).
  apply bind_inr in H as (u1 & d0 & [_ ->]%require_inr & H). apply bind_inr in H as (u2 & d3 & Ht%writes_inr & H).
  apply ret_inr in H as [E <-]. injection E as <- <- ->. destruct Hins as [Hn Hmsg]. rewrite Hmsg, lookup_insert_eq in Hm0.
  injection Hm0 as <-. subst d3. simpl. split_and!; try done.
  unfold intake_in in *. simpl. rewrite Im.
  destruct (update_rowP (λ _ : AcceptanceIntake, true) (set_in_updated (js_now c)) (rp_intakeId i) (md_intakes d)) as [x Hx _|_];
    [|done]. simpl. rewrite lookup_insert_eq. by rewrite Hx in Hi.
Qed.

(** A reply reaches its turn.  After a reply is stored, reading
    the reply of its inbound turn finds it, or a reply to that same turn stored
    no earlier; the inbound turn exists; and sending the reply again, at any
    time, answers with the stored message and writes no other. *)
Theorem reply_is_read c (i : ReplyInput) d k m d1 :
  appendAcceptanceOutboundReply sha1 c i d = (inr (Some (k, m, true)), d1) →
  (∃ k' m', readAcceptanceIntakeMcpReply (rp_workspaceId i) (rp_intakeId i) (rp_replyToSourceKey i) d1 = Some (k', m')
     ∧ md_messages d1 !! k' = Some m' ∧ im_intake_id m' = rp_intakeId i ∧ im_direction m' = "outbound"
     ∧ isDeepStrictEqual (im_metadata m') (reply_metadata (rp_replyToSourceKey i)) = true
     ∧ im_created_at m ≤ im_created_at m')
  ∧ (∃ k' m', md_messages d !! k' = Some m' ∧ of_source (rp_intakeId i) (rp_replyToSourceKey i) k' m' = true
       ∧ im_direction m' = "inbound")
  ∧ ∀ c', ∃ d2, appendAcceptanceOutboundReply sha1 c' i d1 = (inr (Some (k, m, false)), d2)
      ∧ md_messages d2 = md_messages d1.
Proof.
  intros H. assert (H0 := H). apply append_reply_inr in H as (Htrim & Hne & Hi & Hk & Hm & Hmsg & Hnone & Hlinked).
  split_and!.
  - unfold readAcceptanceIntakeMcpReply. rewrite Htrim, Hi. unfold negb.
    rewrite bool_decide_eq_false_2, bool_decide_eq_true_2 by done. simpl.
    destruct (latest_message_spec (select_where (is_reply_to (rp_intakeId i) (rp_replyToSourceKey i)) (md_messages d1)) k m)
      as (k' & m' & E & Hin & Hle).
    { apply elem_of_select_where. rewrite Hmsg, lookup_insert_eq. split; [done|]. subst m. unfold is_reply_to. simpl.
      by rewrite !bool_decide_eq_true_2, deep_equal_refl. }
    exists k', m'. apply elem_of_select_where in Hin as [Hin Hp]. unfold is_reply_to in Hp.
    apply andb_true_iff in Hp as [[Hp1%bool_decide_eq_true Hp2%bool_decide_eq_true]%andb_true_iff Hp3].
    split_and!; done.
  - destruct (select_where _ _) as [|[k' m'] l] eqn:E; [done|].
    assert (Hin : (k', m') ∈ select_where (λ k m, of_source (rp_intakeId i) (rp_replyToSourceKey i) k m && is_inbound k m)
      (md_messages d)) by (rewrite E; set_solver).
    apply elem_of_select_where in Hin as [H1 [H2 H3%bool_decide_eq_true]%andb_true_iff]. by exists k', m'.
  - intros c'. unfold appendAcceptanceOutboundReply in *. destruct (_ || _); [done|]. clear H0.
    unfold transaction, mbind, tx_bind, reads. rewrite Hi. rewrite Htrim.
    assert (Hl1 : select_where (λ k m, of_source (rp_intakeId i) (rp_replyToSourceKey i) k m && is_inbound k m) (md_messages d1) ≠ []).
    { destruct (select_where _ (md_messages d)) as [|[k' m'] l] eqn:E; [done|].
      assert (Hin : (k', m') ∈ select_where (λ k m, of_source (rp_intakeId i) (rp_replyToSourceKey i) k m && is_inbound k m)
        (md_messages d)) by (rewrite E; set_solver).
      apply elem_of_select_where in Hin as [H1 H2]. intros E1.
      assert (Hk' : md_messages d1 !! k' = Some m') by (rewrite Hmsg, lookup_insert_ne; [done|congruence]).
      pose proof (select_nil _ _ _ _ E1 Hk') as E2. cbv beta in E2. congruence. }
    unfold require_true. rewrite bool_decide_eq_true_2 by done. unfold mbind, tx_bind, mret, tx_ret.
    unfold insert_message. simpl. rewrite <- Hk, Hmsg, lookup_insert_eq. simpl. rewrite Hmsg, lookup_insert_eq. simpl.
    subst m. simpl. rewrite !bool_decide_eq_true_2, exact_reply_metadata by done. simpl. eexists. split; [done|].
    simpl. by rewrite Hmsg.
Qed.

End McpFacts.

(** ** A turn, its replay and its end *)

Definition mcp_workspace : string := "11111111-1111-4111-8111-111111111111".
Definition mcp_credential : string := "22222222-2222-4222-8222-222222222222".
Definition task_turn : TurnIdentity := mkTurnIdentity mcp_workspace mcp_credential "task-1" "m-1".
Definition identity_json (i : TurnIdentity) : list (string * json) :=
  [("workspaceId", JStr (tu_workspaceId i)); ("credentialId", JStr (tu_credentialId i));
   ("taskContextKey", JStr (tu_taskContextKey i)); ("messageKey", JStr (tu_messageKey i))].
Definition reserve_json (i : TurnIdentity) (message : string) : json :=
  JObj (identity_json i ++ [("conversationKey", JStr (turn_conversation_key i)); ("sourceKey", JStr (turn_source_key i));
                            ("message", JStr message)]).
Definition complete_json (i : TurnIdentity) (session : string) : json :=
  JObj (identity_json i ++ [("sessionId", JStr session); ("continuationToken", JStr "")]).
(** A stand-in for sha256. *)
Definition tag_sha256 (s : string) : string := "sha256 of " +:+ s.
Definition mcp_start : McpDb :=
  mkMcpDb ∅ ∅ ∅ {[mcp_credential := mkApiKey mcp_workspace None "MCP" "ar_" "hash" agent_mcp None None]}.
Definition at_ms (n : Z) : Clock := mkClock (milliseconds n) (milliseconds n).
Definition task_turn_id : string := acceptanceMcpTurnDispatchId sum_sha1 task_turn.
Notation run_mcp := (exec_mcps sum_sha1 tag_sha256).

Definition turn_run : list mcp_op :=
  [mo_reserve (at_ms 1) (reserve_json task_turn "Hello"); mo_reserve (at_ms 2) (reserve_json task_turn "Hello");
   mo_reserve (at_ms 3) (reserve_json task_turn "Bye"); mo_complete (at_ms 4) (complete_json task_turn "eve-1");
   mo_complete (at_ms 5) (complete_json task_turn "eve-2"); mo_hold (at_ms 6) (JObj (identity_json task_turn ++ [("reason", JStr "late")]))].

Example turn_run_ends :
  (λ r, (mt_status r, mt_session_id r, mt_completed_at r)) <$> md_turns (run_mcp turn_run mcp_start) !! task_turn_id
    = Some ("accepted", Some "eve-1", Some 4000)
  ∧ claims_of sum_sha1 tag_sha256 task_turn_id turn_run mcp_start = 1%nat
  ∧ (reserveAcceptanceMcpTurnDispatch sum_sha1 tag_sha256 (at_ms 3) (reserve_json task_turn "Bye")
       (run_mcp (take 2 turn_run) mcp_start)).1 = inl mcp_conflict
  ∧ (reserveAcceptanceMcpTurnDispatch sum_sha1 tag_sha256 (at_ms 3)
       (reserve_json (mkTurnIdentity mcp_workspace mcp_credential " task" "m") "x") mcp_start).1 = inl mcp_invalid.
Proof. vm_compute. done. Qed.

(** A turn nobody completes for two minutes is held by the next read, and
    stays so. *)
Example stale_turn_is_held :
  let d := run_mcp [mo_reserve (at_ms 1) (reserve_json task_turn "Hello"); mo_read (at_ms 120002) (JObj (identity_json task_turn));
                    mo_complete (at_ms 120003) (complete_json task_turn "eve-1")] mcp_start in
  (λ r, (mt_status r, mt_result_reason r)) <$> md_turns d !! task_turn_id = Some ("held", Some "stale_reserved_claim").
Proof. vm_compute. reflexivity. Qed.

Definition reserved_mid_ms : McpDb :=
  run_mcp [mo_reserve (mkClock 1500 2000) (reserve_json task_turn "Hello")] mcp_start.

(** JavaScript reads the reservation's instant in whole milliseconds, the UPDATE
    compares it in microseconds: in the millisecond in which the two minutes
    end the first test passes, the second does not, and the read throws. *)
Theorem stale_window_throws :
  (readAcceptanceMcpTurnDispatch sum_sha1 (at_ms 120001) (JObj (identity_json task_turn)) reserved_mid_ms).1
    = inl mcp_lost_custody
  ∧ (λ r, mt_status r) <$> md_turns reserved_mid_ms !! task_turn_id = Some "reserved".
Proof. vm_compute. done. Qed.

Lemma turn_claimed_once_witness :
  claims_of sum_sha1 tag_sha256 task_turn_id turn_run mcp_start = 1%nat
  ∧ (claims_of sum_sha1 tag_sha256 task_turn_id turn_run mcp_start
     + (if is_null (md_turns mcp_start !! task_turn_id) then 0 else 1) ≤ 1)%nat.
Proof.
  split; [vm_compute; reflexivity|].
  exact (proj1 (turn_claimed_once sum_sha1 tag_sha256 task_turn_id turn_run mcp_start)).
Defined.

Lemma mcp_start_ok : turns_ok sum_sha1 tag_sha256 mcp_start.
Proof. apply map_Forall_empty. Qed.
Lemma turns_well_typed_witness :
  turns_ok sum_sha1 tag_sha256 (run_mcp turn_run mcp_start)
  ∧ is_Some (md_turns (run_mcp turn_run mcp_start) !! task_turn_id).
Proof.
  split; [exact (turns_well_typed sum_sha1 tag_sha256 turn_run mcp_start mcp_start_ok)|].
  eexists. vm_compute. reflexivity.
Defined.

Definition accepted_db : McpDb := run_mcp (take 4 turn_run) mcp_start.
Definition accepted_turn : McpTurn :=
  set_accepted "eve-1" "" 4000
    (new_turn tag_sha256 (at_ms 1) task_turn (acceptanceIntakeId sum_sha1 mcp_workspace "mcp" (turn_conversation_key task_turn))
       (acceptanceIntakeMessageId sum_sha1 (acceptanceIntakeId sum_sha1 mcp_workspace "mcp" (turn_conversation_key task_turn))
          (turn_source_key task_turn)) "Hello" true).
Lemma accepted_db_turn : md_turns accepted_db !! task_turn_id = Some accepted_turn.
Proof. vm_compute. reflexivity. Qed.
Lemma turn_end_final_witness :
  ∃ r', md_turns (run_mcp (drop 4 turn_run) accepted_db) !! task_turn_id = Some r' ∧ mt_session_id r' = Some "eve-1".
Proof.
  destruct (turn_end_final sum_sha1 tag_sha256 (drop 4 turn_run) accepted_db task_turn_id accepted_turn accepted_db_turn)
    as [(r' & H1 & _ & H2) _].
  exists r'. split; [exact H1|]. rewrite (H2 eq_refl). reflexivity.
Defined.

Definition turn_intake : string := acceptanceIntakeId sum_sha1 mcp_workspace "mcp" (turn_conversation_key task_turn).
Definition a_reply : ReplyInput :=
  mkReplyInput mcp_workspace turn_intake " reply-1" "Done" (turn_source_key task_turn).
Definition stored_reply : string * IntakeMessage :=
  (acceptanceIntakeMessageId sum_sha1 turn_intake "reply-1",
   mkIntakeMessage turn_intake "reply-1" "outbound" "Done" (reply_metadata (turn_source_key task_turn)) 7000).
Definition replied_db : McpDb := (appendAcceptanceOutboundReply sum_sha1 (at_ms 7) a_reply accepted_db).2.
Lemma reply_run :
  appendAcceptanceOutboundReply sum_sha1 (at_ms 7) a_reply accepted_db
  = (inr (Some (stored_reply.1, stored_reply.2, true)), replied_db).
Proof. vm_compute. reflexivity. Qed.
Lemma reply_is_read_witness :
  ∃ k m, readAcceptanceIntakeMcpReply mcp_workspace turn_intake (turn_source_key task_turn) replied_db = Some (k, m)
    ∧ 7000 ≤ im_created_at m.
Proof.
  destruct (reply_is_read sum_sha1 tag_sha256 (at_ms 7) a_reply accepted_db stored_reply.1 stored_reply.2 replied_db reply_run)
    as [(k & m & H1 & _ & _ & _ & _ & H2) _].
  exists k, m. exact (conj H1 H2).
Defined.
