(* ===== verification/Base64.v ===== *)
(** * Base64: Node's base64 text and the canonical form the custody code asks for

    [Buffer.toString("base64")] and [Buffer.from(s, "base64")] on byte strings,
    the shape test the two custody modules share, and the proof that the texts
    they accept are exactly the encodings of byte strings. *)

From S2P Require Import Prelude.
From Stdlib Require Import Ascii String ZifyNat.
Open Scope nat_scope.

Definition byte_at (c : ascii) : nat := nat_of_ascii c.
Definition pad : ascii := "="%char.

(** The alphabet, [A-Za-z0-9+/]. *)
Definition b64_digit (n : nat) : ascii :=
  ascii_of_nat
    (if n <? 26 then 65 + n else if n <? 52 then 71 + n else if n <? 62 then n - 4
     else if n =? 62 then 43 else 47).
Definition b64_value (c : ascii) : option nat :=
  let n := byte_at c in
  if (65 <=? n) && (n <=? 90) then Some (n - 65)
  else if (97 <=? n) && (n <=? 122) then Some (n - 71)
  else if (48 <=? n) && (n <=? 57) then Some (n + 4)
  else if n =? 43 then Some 62 else if n =? 47 then Some 63 else None.
Definition is_b64 (c : ascii) : bool := match b64_value c with Some _ => true | None => false end.
Definition sextet (c : ascii) : nat := default 0 (b64_value c).

(** [bytes.toString("base64")] *)
Fixpoint base64_encode (s : string) : string :=
  match s with
  | String a (String b (String c r)) =>
      let a := byte_at a in let b := byte_at b in let c := byte_at c in
      String (b64_digit (a / 4)) (String (b64_digit (a mod 4 * 16 + b / 16))
        (String (b64_digit (b mod 16 * 4 + c / 64)) (String (b64_digit (c mod 64)) (base64_encode r))))
  | String a (String b EmptyString) =>
      let a := byte_at a in let b := byte_at b in
      String (b64_digit (a / 4)) (String (b64_digit (a mod 4 * 16 + b / 16))
        (String (b64_digit (b mod 16 * 4)) (String pad EmptyString)))
  | String a EmptyString =>
      let a := byte_at a in
      String (b64_digit (a / 4)) (String (b64_digit (a mod 4 * 16)) (String pad (String pad EmptyString)))
  | EmptyString => EmptyString
  end.

(** [/^(?:[A-Za-z0-9+/]{4})*(?:[A-Za-z0-9+/]{2}==|[A-Za-z0-9+/]{3}=)?$/u] *)
Fixpoint base64_shape (s : string) : bool :=
  match s with
  | EmptyString => true
  | String a (String b (String c (String d r))) =>
      is_b64 a && is_b64 b &&
      (if d ≡? pad then (is_b64 c || (c ≡? pad)) && (r ≡? EmptyString)
       else is_b64 c && is_b64 d && base64_shape r)
  | _ => false
  end.

(** [Buffer.from(s, "base64")] on a text of that shape: the bits of the last
    digit that do not fill a byte are dropped. *)
Fixpoint base64_decode (s : string) : string :=
  match s with
  | String a (String b (String c (String d r))) =>
      let x := sextet a in let y := sextet b in let z := sextet c in let w := sextet d in
      let b1 := ascii_of_nat (x * 4 + y / 16) in
      let b2 := ascii_of_nat (y mod 16 * 16 + z / 4) in
      let b3 := ascii_of_nat (z mod 4 * 64 + w) in
      if c ≡? pad then String b1 EmptyString
      else if d ≡? pad then String b1 (String b2 EmptyString)
      else String b1 (String b2 (String b3 (base64_decode r)))
  | _ => EmptyString
  end.

(** The test of both modules: shaped, and the encoding of what it decodes to. *)
Definition canonical_base64 (s : string) : option string :=
  if base64_shape s then
    let bytes := base64_decode s in
    if base64_encode bytes ≡? s then Some bytes else None
  else None.

(** ** Digits *)

Lemma byte_at_lt c : byte_at c < 256.
Proof. apply nat_ascii_bounded. Qed.
Lemma byte_of c n : n = byte_at c → ascii_of_nat n = c.
Proof. intros ->. apply ascii_nat_embedding. Qed.

Lemma below_forall (P : nat → bool) n : forallb P (seq 0 n) = true → ∀ k, k < n → P k = true.
Proof. intros H k Hk. rewrite forallb_forall in H. apply H, in_seq. lia. Qed.

Lemma b64_value_digit n : n < 64 → b64_value (b64_digit n) = Some n.
Proof.
  intros Hn.
  pose proof (below_forall (λ n, b64_value (b64_digit n) ≡? Some n) 64) as H.
  eapply bool_decide_eq_true_1, H; [by vm_compute|done].
Qed.
Lemma sextet_digit n : n < 64 → sextet (b64_digit n) = n.
Proof. intros. unfold sextet. by rewrite b64_value_digit. Qed.
Lemma is_b64_digit n : n < 64 → is_b64 (b64_digit n) = true.
Proof. intros. unfold is_b64. by rewrite b64_value_digit. Qed.
Lemma digit_pad n : n < 64 → bool_decide (b64_digit n = pad) = false.
Proof.
  intros Hn. apply bool_decide_eq_false_2. intros E.
  pose proof (b64_value_digit n Hn) as H. rewrite E in H. by vm_compute in H.
Qed.

(** ** Induction by groups of three bytes *)

Lemma string_ind3 (P : string → Prop) :
  P EmptyString → (∀ a, P (String a EmptyString)) → (∀ a b, P (String a (String b EmptyString))) →
  (∀ a b c r, P r → P (String a (String b (String c r)))) → ∀ s, P s.
Proof.
  intros H0 H1 H2 H3. fix go 1. intros [|a [|b [|c r]]]; [done|done|done|apply H3, go].
Qed.

Ltac bits :=
  repeat match goal with |- context [byte_at ?c] =>
    let H := fresh in pose proof (byte_at_lt c) as H; revert H; generalize (byte_at c); intros ? ? end;
  zify; Z.to_euclidean_division_equations; lia.

Lemma base64_encode_shape s : base64_shape (base64_encode s) = true.
Proof.
  induction s as [|a|a b|a b c r IH] using string_ind3; [done|..]; cbn -[b64_digit Nat.div Nat.modulo is_b64].
  - rewrite !is_b64_digit by bits. rewrite orb_true_r, bool_decide_eq_true_2 by done. by vm_compute.
  - rewrite !is_b64_digit by bits. by vm_compute.
  - rewrite !is_b64_digit, digit_pad by bits. by rewrite IH.
Qed.

Lemma base64_decode_encode s : base64_decode (base64_encode s) = s.
Proof.
  induction s as [|a|a b|a b c r IH] using string_ind3; [done|..];
    cbn -[b64_digit Nat.div Nat.modulo sextet ascii_of_nat].
  - rewrite !sextet_digit by bits. cbn -[Nat.div Nat.modulo ascii_of_nat]. f_equal. apply byte_of. bits.
  - rewrite !sextet_digit, digit_pad by bits. cbn -[Nat.div Nat.modulo ascii_of_nat].
    f_equal; [|f_equal]; apply byte_of; bits.
  - rewrite !sextet_digit, !digit_pad by bits. cbn -[Nat.div Nat.modulo ascii_of_nat]. rewrite IH.
    f_equal; [|f_equal; [|f_equal]]; try (apply byte_of; bits); done.
Qed.

(** The accepted texts are the encodings, and what is read is what was encoded. *)
Lemma canonical_base64_iff s bytes : canonical_base64 s = Some bytes ↔ s = base64_encode bytes.
Proof.
  unfold canonical_base64. split.
  - destruct (base64_shape s); [|done]. case_bool_decide as H; [|done]. by intros [= <-].
  - intros ->. rewrite base64_encode_shape, base64_decode_encode. by rewrite bool_decide_eq_true_2.
Qed.
#[global] Instance base64_encode_inj : Inj (=) (=) base64_encode.
Proof. intros s t H. by rewrite <- (base64_decode_encode s), H, base64_decode_encode. Qed.

(** [4 * Math.ceil(n / 3)] digits for [n] bytes. *)
Lemma base64_encode_length s : String.length (base64_encode s) = 4 * ((String.length s + 2) / 3).
Proof.
  induction s as [|a|a b|a b c r IH] using string_ind3; [done..|].
  cbn -[b64_digit Nat.div Nat.modulo Nat.mul Nat.add]. rewrite IH. zify. Z.to_euclidean_division_equations. lia.
Qed.
