(* ===== verification/JsonValue.v ===== *)
(** * JsonValue: reading untyped values and the texts in them

    The tests the custody modules make on a value of type unknown: its exact
    keys, the fields that are texts, arrays or given numbers; and the texts
    they then test, as the strings of their UTF-8 bytes. *)

From S2P Require Import Prelude Regex Intake JsonText Base64.
From Stdlib Require Import Ascii QArith Qround.
From Stdlib Require String.
Open Scope Z_scope.

(** [byteLength] *)
Definition byteLength (s : string) : Z := Z.of_nat (String.length s).
Definition count {A} (l : list A) : Z := Z.of_nat (length l).

(** [value.length]: UTF-16 units of a text given by its UTF-8 bytes. *)
Fixpoint js_length (s : string) : Z :=
  match s with
  | EmptyString => 0
  | String c s' =>
      let n := byte_at c in
      (if (n <? 128)%nat then 1 else if (n <? 192)%nat then 0 else if (n <? 240)%nat then 1 else 2)
      + js_length s'
  end.

Fixpoint all_chars (p : ascii → bool) (s : string) : bool :=
  match s with EmptyString => true | String c s' => p c && all_chars p s' end.
Definition lower_hex_char (c : ascii) : bool :=
  let n := byte_at c in ((48 <=? n) && (n <=? 57) || (97 <=? n) && (n <=? 102))%nat.
(** [/^[0-9a-f]{n}$/u.test(s)] *)
Definition lower_hex (n : nat) (s : string) : bool := (String.length s =? n)%nat && all_chars lower_hex_char s.
Definition isSha (s : string) : bool := lower_hex 40 s.

(** A character class contains a control character. *)
Definition control_char (c : ascii) : bool := ((byte_at c <? 32) || (byte_at c =? 127))%nat.
(** [[A-Za-z0-9]] and [[A-Za-z0-9][A-Za-z0-9._-]{0,99}] *)
Definition alnum (c : ascii) : bool := is_word c && (c ≢? "_"%char).
Definition repository_part (s : string) : bool :=
  match s with
  | String c s' => alnum c && all_chars (λ c, is_word c || one_of ".-" c) s' && (String.length s' <=? 99)%nat
  | EmptyString => false
  end.
(** [s.split(c)] *)
Fixpoint split_on (c : ascii) (s : string) : list string :=
  match s with
  | EmptyString => [""]
  | String x s' =>
      if x ≡? c then "" :: split_on c s'
      else match split_on c s' with p :: ps => String x p :: ps | [] => [String x ""] end
  end.

(** The text before the first [c] and the text after it. *)
Fixpoint cut (c : ascii) (s : string) : option (string * string) :=
  match s with
  | EmptyString => None
  | String x s' =>
      if x ≡? c then Some ("", s')
      else match cut c s' with Some (a, b) => Some (String x a, b) | None => None end
  end.
Lemma cut_app c a b : contains_char c a = false → cut c (a +:+ String c b) = Some (a, b).
Proof.
  induction a as [|x a IH]; rewrite ?append_cons, ?append_nil; cbn [cut contains_char].
  - by rewrite bool_decide_eq_true_2.
  - intros [Hx Ha]%orb_false_iff. by rewrite Hx, IH.
Qed.

(** [isRecord(value) && hasExactKeys(value, keys)] *)
Definition object_keys (v : json) : list string :=
  match v with JObj fields => remove_dups (fields.*1) | _ => [] end.
Definition hasExactKeys (v : json) (keys : list string) : bool :=
  match v with JObj _ => bool_decide (object_keys v ≡ₚ keys) | _ => false end.
(** [value[key]] where it is a string *)
Definition text_at (v : json) (key : string) : option string :=
  match json_field v key with Some (JStr s) => Some s | _ => None end.
Definition array_at (v : json) (key : string) : option (list json) :=
  match json_field v key with Some (JArr l) => Some l | _ => None end.
Definition number_at_is (v : json) (key : string) (q : Q) : bool :=
  match json_field v key with Some (JNum n) => Qeq_bool n q | _ => false end.

(** The two texts of a row of [trees] or [paths], when its keys are those. *)
Definition pair_of (k1 k2 : string) (v : json) : option (string * string) :=
  if hasExactKeys v [k1; k2] then
    match text_at v k1, text_at v k2 with Some a, Some b => Some (a, b) | _, _ => None end
  else None.

(** ** Removing and adding fields *)

(** [const { k, ...rest } = fields], and jsonb's [fields - k] *)
Definition without_keys (keys : list string) (fields : list (string * json)) : list (string * json) :=
  List.filter (λ kv, negb (bool_decide (kv.1 ∈ keys))) fields.
(** [{ ...fields, [k]: v }], and jsonb's [fields || jsonb_build_object(k, v)] *)
Definition put_key (k : string) (v : json) (fields : list (string * json)) : list (string * json) :=
  without_keys [k] fields ++ [(k, v)].

Lemma json_field_last fields k v : json_field (JObj (fields ++ [(k, v)])) k = Some v.
Proof. unfold json_field. rewrite rev_app_distr. cbn. by rewrite bool_decide_eq_true_2. Qed.
Lemma json_field_other fields k k' v : k' ≠ k → json_field (JObj (fields ++ [(k', v)])) k = json_field (JObj fields) k.
Proof. intros H. unfold json_field. rewrite rev_app_distr. cbn. by rewrite bool_decide_eq_false_2. Qed.
Lemma json_field_without keys fields k : k ∉ keys → json_field (JObj (without_keys keys fields)) k = json_field (JObj fields) k.
Proof.
  intros Hk. unfold json_field, without_keys. f_equal.
  rewrite <- List.filter_rev. induction (rev fields) as [|[x v] l IH]; [done|]. cbn.
  case_bool_decide as Hx; cbn; [|by rewrite IH].
  rewrite IH, (bool_decide_eq_false_2 (x = k)); [done|]. by intros ->.
Qed.
Lemma json_field_stripped keys fields k : k ∈ keys → json_field (JObj (without_keys keys fields)) k = None.
Proof.
  intros Hk. unfold json_field, without_keys. rewrite <- List.filter_rev.
  induction (rev fields) as [|[x v] l IH]; [done|]. cbn. case_bool_decide as Hx; cbn; [done|].
  rewrite (bool_decide_eq_false_2 (x = k)); [done|]. by intros ->.
Qed.

(** ** Writing objects and arrays *)

(** [JSON.stringify({ ... })] of fields that are texts already *)
Definition json_object (fields : list (string * string)) : string :=
  "{" +:+ join_strings "," ((λ kv, json_quote kv.1 +:+ ":" +:+ kv.2) <$> fields) +:+ "}".
Definition json_array (l : list string) : string := "[" +:+ join_strings "," l +:+ "]".

(** The text determines the value. *)
#[export] Instance append_cancel (a : string) : Inj (=) (=) (String.append a).
Proof. intros x y. induction a as [|c a IH]; [done|]. rewrite !append_cons. intros [= H]. by apply IH. Qed.
Lemma json_quote_prefix s s' r r' : json_quote s +:+ r = json_quote s' +:+ r' → s = s' ∧ r = r'.
Proof.
  unfold json_quote. rewrite !append_cons, !append_assoc, !append_cons, !append_nil.
  intros [= H]. by apply escaped_inj.
Qed.

(** A text that ends where it ends, whatever follows. *)
Definition prefix_code {A} (E : A → string) : Prop :=
  ∀ x y r r', E x +:+ r = E y +:+ r' → x = y ∧ r = r'.

Lemma json_pair_prefix k1 k2 :
  prefix_code (λ t : string * string, json_object [(k1, json_quote t.1); (k2, json_quote t.2)]).
Proof.
  intros [a b] [a' b'] r r'. unfold json_object. cbn [fmap list_fmap join_strings fst snd].
  rewrite !append_assoc. intros H%(inj _)%(inj _)%(inj _). apply json_quote_prefix in H as [-> H].
  apply (inj _), (inj _), (inj _), json_quote_prefix in H as [-> H]. by apply (inj _) in H.
Qed.
Lemma json_array_prefix {A} (E : A → string) : prefix_code E → (∀ x, ∃ r, E x = String "{" r) →
  prefix_code (λ l, json_array (E <$> l)).
Proof.
  intros HE Hb l l' r r'. unfold json_array. rewrite !append_assoc. intros H%(inj _).
  revert l' H. induction l as [|x l IH]; intros [|y l'] H.
  - by injection H.
  - cbn [fmap list_fmap join_strings] in H. destruct (Hb y) as [t Ht], l'; rewrite ?fmap_cons, Ht in H; cbn in H; done.
  - cbn [fmap list_fmap join_strings] in H. destruct (Hb x) as [t Ht], l; rewrite ?fmap_cons, Ht in H; cbn in H; done.
  - destruct l as [|x2 l], l' as [|y2 l']; cbn [fmap list_fmap join_strings] in H; rewrite ?append_assoc in H;
      apply HE in H as [-> H]; [by injection H|done|done|].
    apply (inj (String.append ",")) in H. by destruct (IH (y2 :: l') H) as [-> ->].
Qed.

(** Inverts a chain of optional readings that gave a result. *)
Ltac opt_step :=
  match goal with
  | H : (_ ≫= _) = Some _ |- _ => apply bind_Some in H as (? & ? & H)
  | H : (if ?b then None else _) = Some _ |- _ => destruct b eqn:?; [done|]
  | H : (if ?b then _ else None) = Some _ |- _ => destruct b eqn:?; [|done]
  | H : Some _ = Some _ |- _ => injection H as <-
  end.
Ltac opt_inv := repeat opt_step.

(** ** Writing any value *)

(** [JSON.stringify(v)], the fields in the order they have; the numbers are
    integers. *)
Fixpoint stringify (v : json) : string :=
  match v with
  | JNull => "null"
  | JBool true => "true"
  | JBool false => "false"
  | JNum q => show_Z (Qfloor q)
  | JStr s => json_quote s
  | JArr l => json_array (List.map stringify l)
  | JObj fields => json_object (List.map (λ kv, (kv.1, stringify kv.2)) fields)
  end.
Fixpoint integral (v : json) : Prop :=
  match v with
  | JNum q => q = inject_Z (Qfloor q)
  | JArr l => foldr (λ x P, integral x ∧ P) True l
  | JObj fields => foldr (λ kv P, integral kv.2 ∧ P) True fields
  | _ => True
  end.
Lemma json_nested_ind (P : json → Prop) :
  P JNull → (∀ b, P (JBool b)) → (∀ q, P (JNum q)) → (∀ s, P (JStr s)) →
  (∀ l, Forall P l → P (JArr l)) → (∀ fields, Forall (λ kv, P kv.2) fields → P (JObj fields)) → ∀ v, P v.
Proof.
  intros H1 H2 H3 H4 H5 H6. fix IH 1. intros [| | | |l|fields]; [done..| |].
  - apply H5. induction l; constructor; [apply IH|done].
  - apply H6. induction fields; constructor; [apply IH|done].
Qed.

(** What starts a value, by the kind of value it starts. *)
Definition json_kind (v : json) : nat :=
  match v with
  | JNull => 1 | JBool true => 2 | JBool false => 3 | JNum _ => 4 | JStr _ => 5 | JArr _ => 6 | JObj _ => 7
  end.
Definition char_kind (c : ascii) : nat :=
  (if c ≡? "n"%char then 1 else if c ≡? "t"%char then 2 else if c ≡? "f"%char then 3
   else if is_digit c || (c ≡? "-"%char) then 4 else if c ≡? double_quote then 5
   else if c ≡? "["%char then 6 else if c ≡? "{"%char then 7 else 0)%nat.
Definition digits_end (r : string) : Prop := match r with String c _ => is_digit c = false | _ => True end.

Lemma show_N_all_digits n : all_chars is_digit (show_N n) = true.
Proof. unfold show_N. induction (N.to_uint n) as [|d IH|d IH|d IH|d IH|d IH|d IH|d IH|d IH|d IH|d IH]; cbn; by rewrite ?IH. Qed.
Lemma digits_cancel a a' r r' :
  all_chars is_digit a = true → all_chars is_digit a' = true → digits_end r → digits_end r' →
  a +:+ r = a' +:+ r' → a = a' ∧ r = r'.
Proof.
  intros Ha Ha' Hr Hr'. revert a' Ha'. induction a as [|x a IH]; intros [|x' a'] Ha'; rewrite ?append_cons, ?append_nil.
  - done.
  - intros ->. cbn in Hr, Ha'. by rewrite Hr in Ha'.
  - intros <-. cbn in Hr', Ha. by rewrite Hr' in Ha.
  - intros [= -> H]. cbn in Ha, Ha'. apply andb_true_iff in Ha as [_ Ha], Ha' as [_ Ha'].
    by destruct (IH Ha a' Ha' H) as [-> ->].
Qed.
Lemma show_N_first n : ∃ c s, show_N n = String c s ∧ is_digit c = true.
Proof.
  pose proof (show_N_all_digits n) as H. destruct (show_N n) as [|c s] eqn:E.
  - exfalso. apply (show_Z_nonempty (Z.of_N n)). unfold show_Z. rewrite (proj2 (Z.ltb_ge _ _)) by lia. by rewrite N2Z.id.
  - exists c, s. cbn in H. by apply andb_true_iff in H as [? _].
Qed.
Lemma show_Z_cancel x y r r' : digits_end r → digits_end r' → show_Z x +:+ r = show_Z y +:+ r' → x = y ∧ r = r'.
Proof.
  intros Hr Hr'. unfold show_Z. destruct (Z.ltb_spec x 0), (Z.ltb_spec y 0).
  - rewrite !append_assoc. intros [H' ->]%(inj _)%digits_cancel; try done; try apply show_N_all_digits.
    apply (inj show_N) in H'. split; [lia|done].
  - destruct (show_N_first (Z.to_N y)) as (c & s & -> & Hc). rewrite append_assoc, append_cons. by intros [= <- _].
  - destruct (show_N_first (Z.to_N x)) as (c & s & -> & Hc). rewrite append_assoc, append_cons. by intros [= -> _].
  - intros [H' ->]%digits_cancel; try done; try apply show_N_all_digits. apply (inj show_N) in H'. split; [lia|done].
Qed.
Lemma stringify_first v : ∃ c s, stringify v = String c s ∧ char_kind c = json_kind v.
Proof.
  destruct v as [|[]|q|s|l|l]; cbn; try (by eexists _, _).
  unfold show_Z. destruct (_ <? 0); [by eexists _, _|]. destruct (show_N_first (Z.to_N (Qfloor q))) as (c & s & -> & Hc).
  exists c, s. split; [done|]. destruct c as [[] [] [] [] [] [] [] []]; vm_compute in Hc |- *; done.
Qed.

(** [E x] can be cut off a text that continues without a digit. *)
Definition cancels (v : json) : Prop :=
  ∀ y r r', integral v → integral y → digits_end r → digits_end r' →
  stringify v +:+ r = stringify y +:+ r' → v = y ∧ r = r'.
(** A comma-separated list of texts that can be cut off, up to its end. *)
Lemma join_cancels {A} (E : A → string) (ok : A → Prop) (close : ascii) :
  is_digit close = false → (close ≢? ","%char) = true →
  (∀ x, ∃ c s, E x = String c s ∧ c ≠ close) →
  ∀ l, Forall (λ x, ∀ y r r', ok x → ok y → digits_end r → digits_end r' → E x +:+ r = E y +:+ r' → x = y ∧ r = r') l →
  ∀ l' r r', Forall ok l → Forall ok l' →
  join_strings "," (E <$> l) +:+ String close r = join_strings "," (E <$> l') +:+ String close r' → l = l' ∧ r = r'.
Proof.
  intros Hd Hcomma%negb_true_iff%bool_decide_eq_false Hne l Hl. induction Hl as [|x l Hx Hl IH]; intros [|y l'] r r' Ho Ho' H.
  - cbn in H. rewrite !append_nil in H. by injection H.
  - destruct (Hne y) as (c & s & Hy & Hc), l'; cbn [fmap list_fmap join_strings] in H;
      rewrite Hy, ?append_cons, append_nil in H; by injection H as <- _.
  - destruct (Hne x) as (c & s & Hy & Hc), l; cbn [fmap list_fmap join_strings] in H;
      rewrite Hy, ?append_cons, append_nil in H; by injection H as -> _.
  - apply Forall_cons in Ho as [Hox Ho], Ho' as [Hoy Ho'].
    destruct l as [|x2 l], l' as [|y2 l']; cbn [fmap list_fmap join_strings] in H; rewrite ?append_assoc in H;
      apply (Hx y) in H as [-> H]; try done.
    + by injection H as ->.
    + rewrite append_cons in H. by injection H as -> _.
    + rewrite append_cons in H. by injection H as <- _.
    + rewrite !append_cons, !append_nil in H. injection H as H.
      by destruct (IH (y2 :: l') r r' Ho Ho' H) as [-> ->].
Qed.
Lemma integral_list l : integral (JArr l) ↔ Forall integral l.
Proof. induction l as [|x l IH]; cbn; [done|]. rewrite Forall_cons. by rewrite <- IH. Qed.
Lemma integral_fields l : integral (JObj l) ↔ Forall (λ kv, integral kv.2) l.
Proof. induction l as [|x l IH]; cbn; [done|]. rewrite Forall_cons. by rewrite <- IH. Qed.
Lemma quote_cancel s s' r r' : json_quote s +:+ r = json_quote s' +:+ r' → s = s' ∧ r = r'.
Proof. apply json_quote_prefix. Qed.

Lemma stringify_cancels v : cancels v.
Proof.
  induction v as [|b|q|s|l IH|l IH] using json_nested_ind; intros y r r' Hv Hy Hr Hr' H.
  all: destruct (stringify_first y) as (c & t & Hc & Hk).
  all: match type of H with stringify ?x +:+ _ = _ => destruct (stringify_first x) as (c' & t' & Hc' & Hk') end.
  all: assert (c' = c) as -> by (rewrite Hc, Hc', !append_cons in H; by injection H).
  all: rewrite Hk in Hk'; clear c t Hc Hk t' Hc'.
  all: destruct y as [|b'|q'|s'|l'|l']; try (by destruct b); try (by destruct b'); cbn in Hk'; try done.
  - cbn [stringify] in H. by apply (inj (String.append "null")) in H.
  - destruct b, b'; try done; cbn [stringify] in H; apply (inj _) in H; done.
  - cbn in H, Hv, Hy. apply show_Z_cancel in H as [H ->]; [|done..]. split; [|done]. by rewrite Hv, Hy, H.
  - cbn in H. by apply quote_cancel in H as [-> ->].
  - apply integral_list in Hv, Hy. cbn [stringify] in H. unfold json_array in H. rewrite !append_assoc in H. apply (inj _) in H.
    eapply (join_cancels stringify integral "]") in H as [-> ->]; try done.
    intros x. destruct (stringify_first x) as (c & t & E & K). exists c, t. split; [done|].
    intros ->. by destruct x as [|[]| | | |].
  - apply integral_fields in Hv, Hy. cbn [stringify] in H. unfold json_object in H. rewrite !append_assoc in H. apply (inj _) in H.
    change ((λ kv : string * string, json_quote kv.1 +:+ ":" +:+ kv.2) <$> List.map (λ kv, (kv.1, stringify kv.2)) ?z)
      with (List.map (λ kv : string * string, json_quote kv.1 +:+ ":" +:+ kv.2) (List.map (λ kv, (kv.1, stringify kv.2)) z)) in H.
    rewrite !List.map_map in H.
    eapply (join_cancels (λ kv, json_quote kv.1 +:+ ":" +:+ stringify kv.2) (λ kv, integral kv.2) "}") in H as [-> ->]; try done.
    + intros x. eexists _, _. split; [done|]. done.
    + eapply Forall_impl; [exact IH|]. intros [k v] Hc [k2 v2] s s' H1 H2 H3 H4 HE. cbn in *.
      rewrite !append_assoc in HE. apply quote_cancel in HE as [-> HE]. apply (inj _) in HE.
      by apply Hc in HE as [-> ->].
Qed.
(** The text determines the value. *)
Lemma stringify_inj v w : integral v → integral w → stringify v = stringify w → v = w.
Proof.
  intros Hv Hw H. apply (stringify_cancels v w "" ""); try done. by rewrite H.
Qed.
