(* ===== verification/GitTreeProof.v ===== *)
(** * GitTreeProof: inclusion proofs over native Git trees

    [exact-git-tree-path-proof.ts]: the verifier of a batch of claims that
    paths of a head tree are given blobs, from the bodies of the Git trees
    between them, and the identity under which an accepted batch is kept.  A
    text is the string of its UTF-8 bytes, a body the string of its bytes;
    SHA-1, SHA-256 and the case folding of paths are parameters. *)

From S2P Require Import Prelude Intake JsonText JsonValue Base64.
From Stdlib Require Import Ascii QArith.
From Stdlib Require String.
Open Scope Z_scope.

Definition MAX_EXACT_GIT_TREE_PROOF_PATHS : Z := 16.
Definition MAX_EXACT_GIT_TREE_PROOF_DEPTH : Z := 32.
Definition MAX_EXACT_GIT_TREE_PROOF_TREES : Z := 128.
Definition MAX_EXACT_GIT_TREE_PROOF_ENTRIES_PER_TREE : Z := 4096.
Definition MAX_EXACT_GIT_TREE_PROOF_TREE_BYTES : Z := 256 * 1024.
Definition MAX_EXACT_GIT_TREE_PROOF_DECODED_BYTES : Z := 1024 * 1024.
Definition MAX_EXACT_GIT_TREE_PROOF_SERIALIZED_BYTES : Z := 1400 * 1024.

Record NativeTreeEntry := mkNativeTreeEntry { te_mode : string; te_name : string; te_sha : string }.

(** The proof document, as its type declares it. *)
Record ExactGitTreeInclusionProof := mkProof {
  pf_headTreeSha : string;
  pf_trees : list (string * string);  (* [sha1], [bodyBase64] *)
  pf_paths : list (string * string)   (* [path], [blobSha] *)
}.

(** ** Texts *)

(** [SAFE_NAME] *)
Definition safe_char (c : ascii) : bool :=
  let n := byte_at c in ((32 <=? n) && negb (n =? 47) && negb (n =? 92) && negb (n =? 127))%nat.
Definition SAFE_NAME (s : string) : bool := (s ≢? "") && all_chars safe_char s.

Fixpoint take_bytes (n : nat) (s : string) : string :=
  match n, s with S n', String c s' => String c (take_bytes n' s') | _, _ => "" end.
Fixpoint drop_bytes (n : nat) (s : string) : string :=
  match n, s with S n', String c s' => drop_bytes n' s' | _, _ => s end.

Definition slash : ascii := "/"%char.
Definition safePath (p : string) : bool :=
  (0 <? js_length p) && (js_length p <=? 4096) && negb (starts_with "/" p)
  && (String.get (String.length p - 1) p ≢? Some slash) && negb (contains_char backslash p)
  && forallb (λ part, (part ≢? ".") && (part ≢? "..") && SAFE_NAME part) (split_on slash p).

(** [Buffer.compare(l, r) < 0] *)
Definition compareUtf8_lt (l r : string) : bool := String.ltb l r.
Definition tree_suffix (mode : string) : string := if mode ≡? "40000" then "/" else "".
Definition compareNativeEntry_lt (l r : NativeTreeEntry) : bool :=
  compareUtf8_lt (te_name l +:+ tree_suffix (te_mode l)) (te_name r +:+ tree_suffix (te_mode r)).
Definition native_modes : list string := ["40000"; "100644"; "100755"; "120000"; "160000"].
Definition isNativeMode (mode : string) : bool := bool_decide (mode ∈ native_modes).

(** [buffer.toString("ascii")]: the high bit of each byte is cleared. *)
Fixpoint ascii_text (s : string) : string :=
  match s with EmptyString => "" | String c s' => String (ascii_of_nat (byte_at c mod 128)) (ascii_text s') end.

(** ** [new TextDecoder("utf-8", { fatal: true }).decode(bytes)] *)

Definition between (lo hi : nat) (c : ascii) : bool := ((lo <=? byte_at c) && (byte_at c <=? hi))%nat.
Fixpoint valid_utf8 (s : string) : bool :=
  match s with
  | EmptyString => true
  | String a s1 =>
      if between 0 127 a then valid_utf8 s1 else
      match s1 with
      | EmptyString => false
      | String b s2 =>
          if between 194 223 a then between 128 191 b && valid_utf8 s2 else
          match s2 with
          | EmptyString => false
          | String c s3 =>
              if between 224 239 a then
                between (if (byte_at a =? 224)%nat then 160 else 128) (if (byte_at a =? 237)%nat then 159 else 191) b
                && between 128 191 c && valid_utf8 s3
              else
              match s3 with
              | EmptyString => false
              | String d s4 =>
                  between 240 244 a
                  && between (if (byte_at a =? 240)%nat then 144 else 128) (if (byte_at a =? 244)%nat then 143 else 191) b
                  && between 128 191 c && between 128 191 d && valid_utf8 s4
              end
          end
      end
  end.
Definition byte_order_mark : string :=
  String (ascii_of_nat 239) (String (ascii_of_nat 187) (String (ascii_of_nat 191) "")).
(** A leading byte order mark is not part of the decoded text. *)
Definition strip_bom (s : string) : string :=
  if starts_with byte_order_mark s then drop_bytes 3 s else s.
Definition text_decode (bytes : string) : option string :=
  if valid_utf8 bytes then Some (strip_bom bytes) else None.

Section GitTreeProof.
Context (sha1 sha256 : list Z → list Z) (fold_path : string → string).

Definition nul : ascii := ascii_of_nat 0.
(** [createHash("sha1").update(`tree ${n}\0`).update(body).digest("hex")] *)
Definition gitTreeSha (body : string) : string :=
  hex (sha1 (utf8 ("tree " +:+ show_N (N.of_nat (String.length body)) +:+ String nul body))).

Definition decodeCanonicalBase64 (value : string) : option string :=
  if (value ≡? "") || (MAX_EXACT_GIT_TREE_PROOF_SERIALIZED_BYTES <? byteLength value) then None
  else canonical_base64 value.

(** One turn of the loop of [parseNativeTree]: the entry at the head of [s]
    and what follows it. *)
Definition parse_entry (s : string) (names : gset string) : option (NativeTreeEntry * string) :=
  match cut " " s with
  | None => None
  | Some (modeBytes, s1) =>
      let mode := ascii_text modeBytes in
      match cut nul s1 with
      | None => None
      | Some (nameBytes, s2) =>
          if (nameBytes ≡? "") || (byteLength s2 <? 20) || negb (isNativeMode mode) then None else
          match text_decode nameBytes with
          | None => None
          | Some name =>
              if negb (SAFE_NAME name) || (4096 <? byteLength name) || bool_decide (name ∈ names) then None
              else Some (mkNativeTreeEntry mode name (hex (utf8 (take_bytes 20 s2))), drop_bytes 20 s2)
          end
      end
  end.
Fixpoint parse_loop (fuel : nat) (s : string) (names : gset string) (entries : list NativeTreeEntry)
    : option (list NativeTreeEntry) :=
  match s with
  | EmptyString => Some entries
  | _ =>
      match fuel with
      | O => None
      | S fuel' =>
          match parse_entry s names with
          | None => None
          | Some (e, rest) =>
              let entries' := entries ++ [e] in
              if MAX_EXACT_GIT_TREE_PROOF_ENTRIES_PER_TREE <? count entries' then None
              else parse_loop fuel' rest ({[te_name e]} ∪ names) entries'
          end
      end
  end.
Fixpoint strictly_sorted (l : list NativeTreeEntry) : bool :=
  match l with
  | e :: (e' :: _) as l' => compareNativeEntry_lt e e' && strictly_sorted l'
  | _ => true
  end.
Definition parseNativeTree (body : string) : option (list NativeTreeEntry) :=
  if (body ≡? "") || (MAX_EXACT_GIT_TREE_PROOF_TREE_BYTES <? byteLength body) then None else
  match parse_loop (String.length body) body ∅ [] with
  | Some entries => if negb (bool_decide (entries = [])) && strictly_sorted entries then Some entries else None
  | None => None
  end.

(** ** The document *)

Definition canonicalProofJson (p : ExactGitTreeInclusionProof) : string :=
  json_object
    [("kind", json_quote "exact_git_tree_inclusion_batch");
     ("version", "1");
     ("headTreeSha", json_quote (pf_headTreeSha p));
     ("trees", json_array ((λ t, json_object [("sha1", json_quote t.1); ("bodyBase64", json_quote t.2)])
                             <$> pf_trees p));
     ("paths", json_array ((λ t, json_object [("path", json_quote t.1); ("blobSha", json_quote t.2)])
                             <$> pf_paths p))].
Definition serializedBytes (p : ExactGitTreeInclusionProof) : Z := byteLength (canonicalProofJson p).

(** The loop over [value["trees"]] *)
Fixpoint check_trees (raw : list json) (previous : option string) (decodedTotal : Z)
    (trees : gmap string (list NativeTreeEntry)) : option (gmap string (list NativeTreeEntry)) :=
  match raw with
  | [] => Some trees
  | v :: raw' =>
      match pair_of "sha1" "bodyBase64" v with
      | None => None
      | Some (sha, base64) =>
          if negb (isSha sha) then None else
          if match previous with Some p => negb (compareUtf8_lt p sha) | None => false end then None else
          match decodeCanonicalBase64 base64 with
          | None => None
          | Some body =>
              let total := decodedTotal + byteLength body in
              if (MAX_EXACT_GIT_TREE_PROOF_DECODED_BYTES <? total) || (gitTreeSha body ≢? sha) then None else
              match parseNativeTree body, trees !! sha with
              | Some entries, None => check_trees raw' (Some sha) total (<[sha := entries]> trees)
              | _, _ => None
              end
          end
      end
  end.

(** The walk from the head tree down one path; gives the trees it read. *)
Fixpoint walk (trees : gmap string (list NativeTreeEntry)) (treeSha : string) (parts : list string)
    (blobSha : string) (used : gset string) : option (gset string) :=
  match parts with
  | [] => Some used
  | part :: rest =>
      let used' := {[treeSha]} ∪ used in
      match trees !! treeSha ≫= List.find (λ c, te_name c ≡? part) with
      | None => None
      | Some entry =>
          match rest with
          | [] => if negb ((te_mode entry ≡? "100644") || (te_mode entry ≡? "100755"))
                     || (te_sha entry ≢? blobSha) then None else Some used'
          | _ => if te_mode entry ≢? "40000" then None
                 else walk trees (te_sha entry) rest blobSha used'
          end
      end
  end.

(** The loop over [value["paths"]] *)
Fixpoint check_paths (trees : gmap string (list NativeTreeEntry)) (head : string) (raw : list json)
    (previous : option string) (normalizedPaths used : gset string) : option (gset string) :=
  match raw with
  | [] => Some used
  | v :: raw' =>
      match pair_of "path" "blobSha" v with
      | None => None
      | Some (path, blobSha) =>
          if negb (safePath path) || negb (isSha blobSha) then None else
          if match previous with Some p => negb (compareUtf8_lt p path) | None => false end
             || (MAX_EXACT_GIT_TREE_PROOF_DEPTH <? count (split_on slash path)) then None else
          let normalized := fold_path path in
          if bool_decide (normalized ∈ normalizedPaths) then None else
          match walk trees head (split_on slash path) blobSha used with
          | None => None
          | Some used' => check_paths trees head raw' (Some path) ({[normalized]} ∪ normalizedPaths) used'
          end
      end
  end.

(** The typed reading of a value, as the verifier's [value is ...] result says. *)
Definition as_proof (v : json) : option ExactGitTreeInclusionProof :=
  match text_at v "headTreeSha", array_at v "trees", array_at v "paths" with
  | Some head, Some rt, Some rp =>
      match mapM (pair_of "sha1" "bodyBase64") rt, mapM (pair_of "path" "blobSha") rp with
      | Some trees, Some paths => Some (mkProof head trees paths)
      | _, _ => None
      end
  | _, _, _ => None
  end.

Definition in_bounds {A} (n : Z) (l : list A) : bool := (1 <=? count l) && (count l <=? n).
Definition verifyExactGitTreeInclusionProof (v : json) : bool :=
  if negb (hasExactKeys v ["kind"; "version"; "headTreeSha"; "trees"; "paths"])
     || negb (bool_decide (text_at v "kind" = Some "exact_git_tree_inclusion_batch"))
     || negb (number_at_is v "version" 1) then false else
  match text_at v "headTreeSha", array_at v "trees", array_at v "paths" with
  | Some head, Some rawTrees, Some rawPaths =>
      if negb (isSha head) || negb (in_bounds MAX_EXACT_GIT_TREE_PROOF_TREES rawTrees)
         || negb (in_bounds MAX_EXACT_GIT_TREE_PROOF_PATHS rawPaths) then false else
      match check_trees rawTrees None 0 ∅ with
      | None => false
      | Some trees =>
          match check_paths trees head rawPaths None ∅ ∅ with
          | None => false
          | Some used =>
              (Z.of_nat (size used) =? Z.of_nat (size trees))
              && match as_proof v with
                 | Some p => serializedBytes p <=? MAX_EXACT_GIT_TREE_PROOF_SERIALIZED_BYTES
                 | None => false
                 end
          end
      end
  | _, _, _ => false
  end.

Definition exactGitTreeInclusionProofIdentity (v : json) : string + string :=
  match as_proof v, verifyExactGitTreeInclusionProof v with
  | Some p, true => inr (hex (sha256 (utf8 (canonicalProofJson p))))
  | _, _ => inl "Invalid exact Git tree inclusion proof"
  end.

End GitTreeProof.
