(* ===== verification/GitTreeFacts.v ===== *)
(** * GitTreeFacts: what an accepted Git tree proof proves

    The objects Git stores, as Git writes them; reading back what Git wrote;
    and the soundness of the verifier of [GitTreeProof]: the paths of an
    accepted proof are in every honest store that has the head tree. *)

From S2P Require Import Prelude Intake JsonText JsonValue Base64 GitTreeProof.
From Stdlib Require Import Ascii QArith.
From Stdlib Require String.
Open Scope Z_scope.

(** ** Git's own tree objects *)

(** An entry of a tree object: its mode, the bytes of its name, and the twenty
    bytes of the object's id. *)
Record git_entry := mkGitEntry { ge_mode : string; ge_name : string; ge_raw : string }.
Definition ge_id (e : git_entry) : string := hex (utf8 (ge_raw e)).

(** The body of a tree: mode, space, name, NUL, id of each entry. *)
Definition git_write_entry (e : git_entry) : string :=
  ge_mode e +:+ String " " (ge_name e +:+ String nul (ge_raw e)).
Fixpoint git_write (es : list git_entry) : string :=
  match es with [] => "" | e :: es' => git_write_entry e +:+ git_write es' end.

Definition git_entry_ok (e : git_entry) : Prop :=
  ge_mode e ∈ native_modes ∧ ge_name e ≠ "" ∧ contains_char nul (ge_name e) = false
  ∧ String.length (ge_raw e) = 20%nat.

(** The entry as the verifier reads it. *)
Definition read_as (e : git_entry) : NativeTreeEntry :=
  mkNativeTreeEntry (ge_mode e) (strip_bom (ge_name e)) (ge_id e).

(** [e] is what a path leads to in a store of trees, by the bytes of the names. *)
Inductive git_path (st : gmap string (list git_entry)) : string → list string → git_entry → Prop :=
  | git_here id es e : st !! id = Some es → e ∈ es → git_path st id [ge_name e] e
  | git_below id es d names e : st !! id = Some es → d ∈ es → ge_mode d = "40000" →
      git_path st (ge_id d) names e → git_path st id (ge_name d :: names) e.

(** ** Bytes *)

Lemma string_app_length (a b : string) : String.length (a +:+ b) = (String.length a + String.length b)%nat.
Proof. induction a as [|x a IH]; [done|]. rewrite append_cons. cbn [String.length]. by rewrite IH. Qed.
Lemma take_bytes_app n a b : String.length a = n → take_bytes n (a +:+ b) = a.
Proof.
  intros <-. induction a as [|x a IH]; [by destruct b|]. rewrite append_cons. cbn [String.length take_bytes]. by rewrite IH.
Qed.
Lemma drop_bytes_app n a b : String.length a = n → drop_bytes n (a +:+ b) = b.
Proof.
  intros <-. induction a as [|x a IH]; [by destruct b|]. rewrite append_cons. cbn [String.length drop_bytes]. by rewrite IH.
Qed.

Lemma native_mode_cases (P : string → Prop) mode : Forall P native_modes → mode ∈ native_modes → P mode.
Proof. intros H Hm. rewrite Forall_forall in H. by apply H. Qed.
Lemma native_mode_text mode : mode ∈ native_modes → ascii_text mode = mode ∧ contains_char " " mode = false.
Proof. apply (native_mode_cases (λ mode, ascii_text mode = mode ∧ contains_char " " mode = false)). repeat constructor. Qed.

(** ** Reading back what Git wrote *)

(** What the loop asks of a name. *)
Definition name_ok (e : git_entry) (names : gset string) : bool :=
  valid_utf8 (ge_name e) && SAFE_NAME (strip_bom (ge_name e))
  && (byteLength (strip_bom (ge_name e)) <=? 4096) && bool_decide (strip_bom (ge_name e) ∉ names).

Lemma write_entry_app e r :
  git_write_entry e +:+ r = ge_mode e +:+ String " " (ge_name e +:+ String nul (ge_raw e +:+ r)).
Proof. unfold git_write_entry. by rewrite append_assoc, append_cons, append_assoc, append_cons. Qed.

Lemma parse_entry_write e r names : git_entry_ok e →
  parse_entry (git_write_entry e +:+ r) names = if name_ok e names then Some (read_as e, r) else None.
Proof.
  intros (Hm & Hn & Hnul & Hlen). destruct (native_mode_text _ Hm) as [Ht Hs].
  unfold parse_entry. rewrite write_entry_app, (cut_app _ _ _ Hs), (cut_app _ _ _ Hnul), Ht.
  rewrite (bool_decide_eq_false_2 (ge_name e = "")) by done.
  assert (byteLength (ge_raw e +:+ r) <? 20 = false) as ->.
  { unfold byteLength. rewrite string_app_length, Hlen. apply Z.ltb_ge. lia. }
  unfold isNativeMode. rewrite (bool_decide_eq_true_2 (ge_mode e ∈ native_modes)) by done. cbn [negb orb].
  rewrite (take_bytes_app 20), (drop_bytes_app 20) by done.
  unfold name_ok, text_decode. destruct (valid_utf8 (ge_name e)); [|done]. cbn [andb].
  destruct (SAFE_NAME _); [|done]. cbn [negb orb andb].
  rewrite (Z.ltb_antisym (byteLength _)). destruct (_ <=? 4096); [|done]. cbn [negb orb andb].
  by repeat case_bool_decide.
Qed.

Lemma parse_loop_step fuel s names acc : s ≠ "" →
  parse_loop (S fuel) s names acc =
    match parse_entry s names with
    | None => None
    | Some (e, rest) =>
        if MAX_EXACT_GIT_TREE_PROOF_ENTRIES_PER_TREE <? count (acc ++ [e]) then None
        else parse_loop fuel rest ({[te_name e]} ∪ names) (acc ++ [e])
    end.
Proof. by destruct s. Qed.
Lemma write_entry_nonempty e r : git_write_entry e +:+ r ≠ "".
Proof. rewrite write_entry_app. by destruct (ge_mode e). Qed.
Lemma count_app {A} (l k : list A) : count (l ++ k) = count l + count k.
Proof. unfold count. rewrite length_app. lia. Qed.

Lemma parse_loop_write_inv fuel es names acc l : Forall git_entry_ok es →
  parse_loop fuel (git_write es) names acc = Some l →
  l = acc ++ (read_as <$> es) ∧ NoDup (strip_bom <$> (ge_name <$> es))
  ∧ ∀ e, e ∈ es → strip_bom (ge_name e) ∉ names.
Proof.
  revert fuel names acc. induction es as [|e es IH]; intros fuel names acc Hok; cbn [git_write].
  - destruct fuel; cbn; intros [= <-]; rewrite app_nil_r; split_and!; try constructor; set_solver.
  - apply Forall_cons in Hok as [He Hok]. destruct fuel as [|fuel].
    { pose proof (write_entry_nonempty e (git_write es)). by destruct (git_write_entry e +:+ git_write es). }
    rewrite parse_loop_step by apply write_entry_nonempty. rewrite (parse_entry_write e _ _ He).
    destruct (name_ok e names) eqn:Hn; [|done]. destruct (_ <? _); [done|].
    intros (-> & Hd & Hf)%IH; [|done]. unfold name_ok in Hn.
    apply andb_true_iff in Hn as [_ Hn%bool_decide_eq_true]. rewrite <- app_assoc. split_and!; [done|..].
    + rewrite !fmap_cons. constructor; [|done].
      intros (x & Hx & (e' & -> & He')%list_elem_of_fmap)%list_elem_of_fmap. apply (Hf e' He'). cbn [te_name read_as]. rewrite <- Hx. set_solver.
    + intros e' [->|He']%elem_of_cons; [done|]. specialize (Hf e' He'). set_solver.
Qed.

Definition readable (e : git_entry) : Prop :=
  git_entry_ok e ∧ valid_utf8 (ge_name e) = true ∧ SAFE_NAME (strip_bom (ge_name e)) = true
  ∧ byteLength (strip_bom (ge_name e)) ≤ 4096.

Lemma parse_loop_write fuel es names acc :
  Forall readable es → NoDup (strip_bom <$> (ge_name <$> es)) →
  (∀ e, e ∈ es → strip_bom (ge_name e) ∉ names) →
  count acc + count es ≤ MAX_EXACT_GIT_TREE_PROOF_ENTRIES_PER_TREE → (length es ≤ fuel)%nat →
  parse_loop fuel (git_write es) names acc = Some (acc ++ (read_as <$> es)).
Proof.
  revert fuel names acc. induction es as [|e es IH]; intros fuel names acc Hok Hd Hf Hc Hl; cbn [git_write].
  - destruct fuel; cbn; by rewrite app_nil_r.
  - apply Forall_cons in Hok as [(He & Hv & Hs & Hb) Hok].
    rewrite !fmap_cons in Hd. apply NoDup_cons in Hd as [Hnew Hd].
    destruct fuel as [|fuel]; [cbn in Hl; lia|].
    rewrite parse_loop_step by apply write_entry_nonempty. rewrite (parse_entry_write e _ _ He).
    assert (name_ok e names = true) as ->.
    { unfold name_ok. rewrite Hv, Hs, (proj2 (Z.leb_le _ _) Hb). cbn [andb].
      apply bool_decide_eq_true_2, Hf. set_solver. }
    rewrite count_app in *. unfold count in Hc. cbn [length] in Hc.
    replace (count [_]) with 1 by done.
    destruct (_ <? _) eqn:E; [apply Z.ltb_lt in E; unfold count in E; lia|].
    rewrite IH; [by rewrite <- app_assoc|done|done|..].
    + intros e' He'. cbn [te_name read_as]. rewrite not_elem_of_union, not_elem_of_singleton.
      split; [|apply Hf; set_solver]. intros Heq. apply Hnew. rewrite <- Heq. by do 2 apply list_elem_of_fmap_2.
    + rewrite count_app. unfold count. cbn. lia.
    + cbn in Hl. lia.
Qed.

Lemma git_write_length es : (length es ≤ String.length (git_write es))%nat.
Proof.
  induction es as [|e es IH]; [done|]. cbn [git_write length]. rewrite string_app_length.
  assert (0 < String.length (git_write_entry e))%nat; [|lia].
  unfold git_write_entry. rewrite string_app_length. cbn. lia.
Qed.

(** What Git writes, the verifier reads: the body of a tree
    of entries with native modes, UTF-8 names that are safe and distinct, in
    Git's order and within the limits, parses to exactly those entries. *)
Theorem parse_git_tree es :
  es ≠ [] → Forall readable es → NoDup (strip_bom <$> (ge_name <$> es)) →
  strictly_sorted (read_as <$> es) = true →
  count es ≤ MAX_EXACT_GIT_TREE_PROOF_ENTRIES_PER_TREE →
  byteLength (git_write es) ≤ MAX_EXACT_GIT_TREE_PROOF_TREE_BYTES →
  parseNativeTree (git_write es) = Some (read_as <$> es).
Proof.
  intros Hne Hok Hd Hs Hc Hb. unfold parseNativeTree.
  rewrite bool_decide_eq_false_2; [|destruct es; [done|apply write_entry_nonempty]].
  rewrite (Z.ltb_antisym (byteLength _)), (proj2 (Z.leb_le _ _) Hb). cbn [orb negb].
  rewrite parse_loop_write; [|done|done|set_solver|by unfold count; cbn; apply Hc|apply git_write_length].
  cbn [app]. rewrite Hs, bool_decide_eq_false_2; [done|]. by destruct es.
Qed.

Lemma parse_git_tree_inv es l : Forall git_entry_ok es → parseNativeTree (git_write es) = Some l →
  l = read_as <$> es ∧ NoDup (strip_bom <$> (ge_name <$> es)).
Proof.
  intros Hok. unfold parseNativeTree. destruct (_ || _); [done|].
  destruct (parse_loop _ _ _ _) as [l'|] eqn:E; [|done]. destruct (_ && _); [|done]. intros [= <-].
  by apply parse_loop_write_inv in E as (-> & Hd & _).
Qed.

(** ** What the two loops establish *)

Section Soundness.
Context (sha1 sha256 : list Z → list Z) (fold_path : string → string).
Notation gitTreeSha := (gitTreeSha sha1).
Notation check_trees := (check_trees sha1).
Notation check_paths := (check_paths fold_path).
Notation verify := (verifyExactGitTreeInclusionProof sha1 fold_path).
Implicit Types (v : json) (p : ExactGitTreeInclusionProof) (st : gmap string (list git_entry)).

Lemma mapM_cons_Some {A B} (f : A → option B) x l y k :
  f x = Some y → mapM f l = Some k → mapM f (x :: l) = Some (y :: k).
Proof. intros Hx Hl. cbn. by rewrite Hx, Hl. Qed.

(** A body of the proof, as the verifier keeps it. *)
Definition body_row (row : string * string) (es : list NativeTreeEntry) : Prop :=
  ∃ body, canonical_base64 row.2 = Some body ∧ gitTreeSha body = row.1 ∧ parseNativeTree body = Some es.

Lemma decodeCanonicalBase64_inv b body : decodeCanonicalBase64 b = Some body → canonical_base64 b = Some body.
Proof. unfold decodeCanonicalBase64. by destruct (_ || _). Qed.

Fixpoint increasing (previous : option string) (l : list string) : Prop :=
  match l with
  | [] => True
  | x :: l' => match previous with Some y => compareUtf8_lt y x = true | None => True end ∧ increasing (Some x) l'
  end.

Lemma check_trees_inv raw prev total acc trees : check_trees raw prev total acc = Some trees →
  ∃ rows, mapM (pair_of "sha1" "bodyBase64") raw = Some rows
  ∧ increasing prev rows.*1
  ∧ (∀ sha es, trees !! sha = Some es →
       acc !! sha = Some es ∨ ∃ row, row ∈ rows ∧ row.1 = sha ∧ body_row row es)
  ∧ (∀ sha, is_Some (trees !! sha) ↔ is_Some (acc !! sha) ∨ sha ∈ rows.*1)
  ∧ size trees = (size acc + length rows)%nat.
Proof.
  revert prev total acc. induction raw as [|v raw IH]; intros prev total acc; cbn [GitTreeProof.check_trees].
  - intros [= ->]. exists []. split_and!; [done|done|by left|cbn; set_solver|cbn; lia].
  - destruct (pair_of _ _ v) as [[sha base64]|] eqn:Ev; [|done]. destruct (negb (isSha sha)); [done|].
    destruct (match prev with Some _ => _ | None => _ end) eqn:Hp; [done|].
    destruct (decodeCanonicalBase64 base64) as [body|] eqn:Ed; [|done].
    destruct (_ || _) eqn:Eh; [done|]. apply orb_false_iff in Eh as [_ Eh].
    destruct (parseNativeTree body) as [es|] eqn:Ep; [|done]. destruct (acc !! sha) eqn:Ea; [done|].
    intros (rows & Hm & Hi & Hr & Hk & Hs)%IH. exists ((sha, base64) :: rows).
    split_and!; [by apply mapM_cons_Some| |..].
    + cbn [increasing fmap list_fmap]. split; [|done]. destruct prev; [|done]. by destruct (compareUtf8_lt _ _).
    + intros sha' es' [H|(row & Hrow & Hx)]%Hr; [|right; exists row; split; [by right|done]].
      destruct (decide (sha' = sha)) as [->|Hne]; [|left; by rewrite lookup_insert_ne in H].
      rewrite lookup_insert_eq in H. injection H as <-. right. exists (sha, base64). split; [by left|].
      split; [done|]. exists body. split_and!; [by apply decodeCanonicalBase64_inv| |done].
      by apply negb_false_iff, bool_decide_eq_true in Eh.
    + intros sha'. rewrite Hk, fmap_cons, elem_of_cons. cbn [fst].
      destruct (decide (sha' = sha)) as [->|Hne]; [|rewrite lookup_insert_ne by done; naive_solver].
      rewrite lookup_insert_eq. naive_solver.
    + rewrite Hs, map_size_insert_None by done. cbn. lia.
Qed.

Lemma check_paths_inv trees head raw prev folded used used' :
  check_paths trees head raw prev folded used = Some used' →
  ∃ rows, mapM (pair_of "path" "blobSha") raw = Some rows
  ∧ increasing prev rows.*1
  ∧ Forall (λ row, safePath row.1 = true ∧ isSha row.2 = true
      ∧ count (split_on slash row.1) ≤ MAX_EXACT_GIT_TREE_PROOF_DEPTH
      ∧ ∃ u u', walk trees head (split_on slash row.1) row.2 u = Some u') rows
  ∧ NoDup (fold_path <$> rows.*1) ∧ (∀ path, path ∈ rows.*1 → fold_path path ∉ folded).
Proof.
  revert prev folded used. induction raw as [|v raw IH]; intros prev folded used; cbn [GitTreeProof.check_paths].
  - intros [= ->]. exists []. split_and!; try done; [constructor|set_solver].
  - destruct (pair_of _ _ v) as [[path blob]|] eqn:Ev; [|done].
    destruct (negb (safePath path) || _) eqn:Es; [done|].
    apply orb_false_iff in Es as [Es%negb_false_iff Eb%negb_false_iff].
    destruct (_ || _) eqn:Ep; [done|]. apply orb_false_iff in Ep as [Ep Ed%Z.ltb_ge].
    destruct (bool_decide (fold_path path ∈ folded)) eqn:Ef; [done|]. apply bool_decide_eq_false in Ef.
    destruct (walk _ _ _ _ _) as [u|] eqn:Ew; [|done].
    intros (rows & Hm & Hi & Hr & Hd & Hf)%IH. exists ((path, blob) :: rows).
    split_and!; [by apply mapM_cons_Some|..].
    + cbn [increasing fmap list_fmap]. split; [|done]. destruct prev; [|done]. by destruct (compareUtf8_lt _ _).
    + constructor; [|done]. cbn. split_and!; eauto.
    + rewrite !fmap_cons. constructor; [|done]. intros (x & Hx & Hin)%list_elem_of_fmap.
      apply (Hf x Hin). cbn in Hx. rewrite <- Hx. set_solver.
    + rewrite fmap_cons. intros x [->|Hx]%elem_of_cons; [done|]. specialize (Hf x Hx). set_solver.
Qed.

Definition trees_agree (trees : gmap string (list NativeTreeEntry)) st : Prop :=
  ∀ id es l, st !! id = Some es → trees !! id = Some l →
    l = read_as <$> es ∧ NoDup (strip_bom <$> (ge_name <$> es)).
Definition store_closed st : Prop :=
  ∀ id es d, st !! id = Some es → d ∈ es → ge_mode d = "40000" → is_Some (st !! ge_id d).

Lemma NoDup_fmap_eq {A B} (f : A → B) l x y : NoDup (f <$> l) → x ∈ l → y ∈ l → f x = f y → x = y.
Proof.
  intros Hd [i Hi]%list_elem_of_lookup_1 [j Hj]%list_elem_of_lookup_1 H.
  assert (i = j) as ->; [|congruence].
  eapply (NoDup_lookup _ _ _ (f x) Hd); rewrite list_lookup_fmap, ?Hi, ?Hj; cbn; congruence.
Qed.

Lemma find_entry es part entry : List.find (λ c, te_name c ≡? part) (read_as <$> es) = Some entry →
  ∃ e, e ∈ es ∧ entry = read_as e ∧ strip_bom (ge_name e) = part.
Proof.
  intros [Hin Hn%bool_decide_eq_true]%List.find_some.
  apply list_elem_of_In, list_elem_of_fmap in Hin as (e & -> & He). by exists e.
Qed.

Lemma walk_step trees id part rest blob used used' : walk trees id (part :: rest) blob used = Some used' →
  ∃ l entry, trees !! id = Some l ∧ List.find (λ c, te_name c ≡? part) l = Some entry ∧
    match rest with
    | [] => (te_mode entry = "100644" ∨ te_mode entry = "100755") ∧ te_sha entry = blob
    | _ => te_mode entry = "40000" ∧ ∃ used2, walk trees (te_sha entry) rest blob used2 = Some used'
    end.
Proof.
  cbn [walk]. destruct (trees !! id) as [l|] eqn:El; cbn [mbind option_bind]; [|done].
  destruct (List.find _ l) as [entry|] eqn:Ef; [|done]. intros H. exists l, entry. split_and!; [done..|].
  destruct rest as [|q rest].
  - destruct (_ || _) eqn:E; [done|]. apply orb_false_iff in E as [E1%negb_false_iff E2%negb_false_iff].
    apply orb_true_iff in E1 as [E1%bool_decide_eq_true|E1%bool_decide_eq_true];
      apply bool_decide_eq_true in E2; auto.
  - destruct (negb _) eqn:E; [done|]. apply negb_false_iff, bool_decide_eq_true in E. eauto.
Qed.

Definition regular (e : git_entry) : Prop := ge_mode e = "100644" ∨ ge_mode e = "100755".

Lemma walk_sound trees st parts id blob used used' :
  trees_agree trees st → store_closed st → is_Some (st !! id) → parts ≠ [] →
  walk trees id parts blob used = Some used' →
  ∃ names e, git_path st id names e ∧ strip_bom <$> names = parts ∧ regular e ∧ ge_id e = blob.
Proof.
  intros Hag Hcl. revert id used. induction parts as [|part rest IH]; intros id used [es Hes] Hne; [done|].
  intros (l & entry & Hl & Hf & Hw)%walk_step. destruct (Hag _ _ _ Hes Hl) as [-> Hd].
  apply find_entry in Hf as (e & He & -> & Hp). destruct rest as [|q rest]; cbn [te_mode te_sha read_as] in Hw.
  - destruct Hw as [Hm Hb]. exists [ge_name e], e. split_and!; [by econstructor|by cbn; f_equal|done|done].
  - destruct Hw as (Hm & used2 & Hw).
    destruct (IH (ge_id e) used2) as (names & e' & Hg & Hn & Hr & Hb); [by eapply Hcl|done|done|].
    exists (ge_name e :: names), e'. split_and!; [by econstructor|by rewrite fmap_cons, Hp, Hn|done..].
Qed.

Lemma git_path_cons st id names e : git_path st id names e → ∃ x names', names = x :: names'.
Proof. intros []; eauto. Qed.

Lemma git_path_one st id n e : git_path st id [n] e → ∃ es, st !! id = Some es ∧ e ∈ es ∧ ge_name e = n.
Proof. inversion 1 as [|? ? ? ? ? ? ? ? Hg]; [by eexists|]. by apply git_path_cons in Hg as (? & ? & ?). Qed.

(** The trees the walk reads leave no second reading of the path. *)
Lemma walk_unique trees st parts id blob used used' names names' e e' :
  trees_agree trees st → walk trees id parts blob used = Some used' →
  git_path st id names e → git_path st id names' e' →
  strip_bom <$> names = parts → strip_bom <$> names' = parts → names' = names ∧ e' = e.
Proof.
  intros Hag. revert id used names names'.
  induction parts as [|part rest IH]; intros id used names names' Hw Hg Hg' Hn Hn';
    [by inversion Hg; simplify_eq|].
  apply walk_step in Hw as (l & entry & Hl & Hf & Hw).
  assert (∀ es d d', st !! id = Some es → d ∈ es → d' ∈ es → strip_bom (ge_name d) = part →
    strip_bom (ge_name d') = part → d = d' ∧ entry = read_as d) as Hone.
  { intros es d d' Hes Hd Hd' Hp Hp'. destruct (Hag _ _ _ Hes Hl) as [-> Hnd].
    rewrite <- list_fmap_compose in Hnd.
    apply find_entry in Hf as (x & Hx & -> & Hpx).
    assert (x = d) as -> by (eapply (NoDup_fmap_eq _ _ _ _ Hnd); cbn; congruence || done).
    split; [|done]. eapply (NoDup_fmap_eq _ _ _ _ Hnd); cbn; congruence || done. }
  inversion Hg as [i1 es x Hes Hx|i1 es d ns x Hes Hd Hm Hg1]; inversion Hg' as [i2 es' y Hes' Hy|i2 es' d' ns' y Hes' Hd' Hm' Hg1'];
    try (destruct (git_path_cons _ _ _ _ Hg1) as (x1 & n1 & ->)); try (destruct (git_path_cons _ _ _ _ Hg1') as (x2 & n2 & ->));
    simplify_eq/=.
  - by destruct (Hone _ e e' Hes Hx Hy) as [-> _].
  - destruct (Hone _ d d' Hes Hd Hd') as [-> ->]; [done..|].
    destruct Hw as (_ & used2 & Hw).
    destruct (IH _ _ (x1 :: n1) (x2 :: n2) Hw Hg1 Hg1') as [Hns ->]; [by rewrite ?fmap_cons; congruence..|].
    by rewrite Hns.
Qed.

(** ** Accepted documents *)

Record accepted v p (rows_trees : gmap string (list NativeTreeEntry)) : Prop := {
  acc_read : as_proof v = Some p;
  acc_head : isSha (pf_headTreeSha p) = true;
  acc_trees : count (pf_trees p) ≤ MAX_EXACT_GIT_TREE_PROOF_TREES;
  acc_paths : 1 ≤ count (pf_paths p) ≤ MAX_EXACT_GIT_TREE_PROOF_PATHS;
  acc_bytes : serializedBytes p ≤ MAX_EXACT_GIT_TREE_PROOF_SERIALIZED_BYTES;
  acc_tree_order : increasing None (pf_trees p).*1;
  acc_path_order : increasing None (pf_paths p).*1;
  acc_fold : NoDup (fold_path <$> (pf_paths p).*1);
  acc_bodies : ∀ sha es, rows_trees !! sha = Some es → ∃ row, row ∈ pf_trees p ∧ row.1 = sha ∧ body_row row es;
  acc_size : size rows_trees = length (pf_trees p);
  acc_walks : Forall (λ row, safePath row.1 = true ∧ isSha row.2 = true
      ∧ count (split_on slash row.1) ≤ MAX_EXACT_GIT_TREE_PROOF_DEPTH
      ∧ ∃ u u', walk rows_trees (pf_headTreeSha p) (split_on slash row.1) row.2 u = Some u') (pf_paths p)
}.

Lemma mapM_length_Some {A B} (f : A → option B) l k : mapM f l = Some k → length k = length l.
Proof. intros H%mapM_Some. symmetry. by eapply Forall2_length. Qed.
Lemma in_bounds_iff {A} n (l : list A) : in_bounds n l = true ↔ 1 ≤ count l ≤ n.
Proof. unfold in_bounds. rewrite andb_true_iff, !Z.leb_le. done. Qed.

Lemma verify_accepted v : verify v = true → ∃ p trees, accepted v p trees.
Proof.
  unfold verifyExactGitTreeInclusionProof. destruct (_ || _); [done|].
  destruct (text_at v "headTreeSha") as [head|] eqn:Eh; [|done].
  destruct (array_at v "trees") as [rt|] eqn:Et; [|done]. destruct (array_at v "paths") as [rp|] eqn:Ep; [|done].
  destruct (_ || _) eqn:Eb; [done|].
  apply orb_false_iff in Eb as [[E1%negb_false_iff E2%negb_false_iff]%orb_false_iff E3%negb_false_iff].
  rewrite in_bounds_iff in E2, E3.
  destruct (check_trees rt None 0 ∅) as [trees|] eqn:Ect; [|done].
  destruct (check_paths trees head rp None ∅ ∅) as [used|] eqn:Ecp; [|done].
  apply check_trees_inv in Ect as (rows & Hm & Hi & Hb & _ & Hs).
  apply check_paths_inv in Ecp as (rowsp & Hmp & Hip & Hw & Hd & _).
  assert (as_proof v = Some (mkProof head rows rowsp)) as Hp by (unfold as_proof; by rewrite Eh, Et, Ep, Hm, Hmp).
  rewrite Hp. intros [_ Hser%Z.leb_le]%andb_true_iff. exists (mkProof head rows rowsp), trees.
  unfold count in E2, E3. rewrite <- (mapM_length_Some _ _ _ Hm) in E2. rewrite <- (mapM_length_Some _ _ _ Hmp) in E3.
  split; try done; unfold count; cbn [pf_trees pf_paths]; try lia.
  intros sha es Hsha. destruct (Hb _ _ Hsha) as [He|He]; [by rewrite lookup_empty in He|done].
Qed.

(** The store is honest: an id names the tree it is the hash of. *)
Definition honest_store st : Prop :=
  ∀ id es, st !! id = Some es → gitTreeSha (git_write es) = id ∧ Forall git_entry_ok es.
(** No body of the proof collides with another body in the store. *)
Definition no_collision st p : Prop :=
  ∀ id es row body, st !! id = Some es → row ∈ pf_trees p → canonical_base64 row.2 = Some body →
    gitTreeSha body = gitTreeSha (git_write es) → body = git_write es.

Lemma accepted_agree v p trees st : accepted v p trees → honest_store st → no_collision st p → trees_agree trees st.
Proof.
  intros Ha Hh Hc id es l Hes Hl. destruct (Hh _ _ Hes) as [Hid Hok].
  destruct (acc_bodies _ _ _ Ha _ _ Hl) as (row & Hrow & Hr & body & Hb & Hsha & Hp).
  assert (body = git_write es) as -> by (eapply Hc; [done..|congruence]).
  by apply parse_git_tree_inv.
Qed.
Lemma split_on_nonempty c s : split_on c s ≠ [].
Proof. destruct s as [|x s]; [done|]. cbn. destruct (x ≡? c); [done|]. by destruct (split_on c s). Qed.

(** C26 (safety).  What the verifier accepts is true of the repository: in any
    honest store that has the head tree and every subtree, and whose tree
    bodies no body of the proof collides with under SHA-1, each path of an
    accepted proof leads from the head tree to a regular file with exactly the
    claimed blob, and to nothing else; names are read as the decoder reads
    them, a leading byte order mark dropped. *)
Theorem accepted_paths_exist v p st :
  verify v = true → as_proof v = Some p →
  honest_store st → store_closed st → is_Some (st !! pf_headTreeSha p) → no_collision st p →
  ∀ path blob, (path, blob) ∈ pf_paths p →
  ∃ names e, git_path st (pf_headTreeSha p) names e ∧ strip_bom <$> names = split_on slash path
    ∧ regular e ∧ ge_id e = blob
    ∧ ∀ names' e', git_path st (pf_headTreeSha p) names' e' →
        strip_bom <$> names' = split_on slash path → names' = names ∧ e' = e.
Proof.
  intros (p' & trees & Ha)%verify_accepted Hp Hh Hcl Hhead Hc path blob Hin.
  assert (p' = p) as -> by (pose proof (acc_read _ _ _ Ha); congruence).
  pose proof (accepted_agree _ _ _ _ Ha Hh Hc) as Hag.
  pose proof (proj1 (Forall_forall _ _) (acc_walks _ _ _ Ha) _ Hin) as (_ & _ & _ & u & u' & Hw). cbn [fst snd] in Hw.
  destruct (walk_sound _ _ _ _ _ _ _ Hag Hcl Hhead (split_on_nonempty _ _) Hw) as (names & e & Hg & Hn & Hr & Hb).
  exists names, e. split_and!; [done..|]. intros names' e' Hg' Hn'. by eapply walk_unique.
Qed.

(** An accepted proof is small and has no redundancy: at most
    128 distinct trees in SHA-1 order, between one and sixteen distinct paths
    in byte order that stay distinct under case folding, each at most 32 names
    deep, in a canonical text of at most 1400 KiB. *)
Theorem accepted_is_bounded v :
  verify v = true →
  ∃ p, as_proof v = Some p
  ∧ count (pf_trees p) ≤ 128 ∧ increasing None (pf_trees p).*1
  ∧ 1 ≤ count (pf_paths p) ≤ 16 ∧ increasing None (pf_paths p).*1 ∧ NoDup (fold_path <$> (pf_paths p).*1)
  ∧ (∀ path, path ∈ (pf_paths p).*1 → safePath path = true ∧ count (split_on slash path) ≤ 32)
  ∧ byteLength (canonicalProofJson p) ≤ 1400 * 1024.
Proof.
  intros (p & trees & Ha)%verify_accepted. exists p. destruct Ha as [? ? ? [? ?] ? ? ? ? _ _ Hw].
  split_and!; try assumption.
  intros path (row & -> & Hrow)%list_elem_of_fmap. rewrite Forall_forall in Hw.
  by destruct (Hw _ Hrow) as (? & _ & ? & _).
Qed.

(** ** The canonical text determines the document *)

#[global] Instance canonicalProofJson_inj : Inj (=) (=) canonicalProofJson.
Proof.
  intros [h ts ps] [h' ts' ps']. unfold canonicalProofJson, json_object at 1 4.
  cbn [fmap list_fmap join_strings fst snd pf_headTreeSha pf_trees pf_paths]. rewrite !append_assoc.
  intros H. do 11 apply (inj (String.append _)) in H. apply json_quote_prefix in H as [-> H].
  do 3 apply (inj (String.append _)) in H.
  apply json_array_prefix in H as [-> H]; [|apply json_pair_prefix|by eexists].
  do 3 apply (inj (String.append _)) in H.
  by apply json_array_prefix in H as [-> _]; [|apply json_pair_prefix|by eexists].
Qed.

(** The identity under which a proof is kept names one
    proof: two accepted documents have the same identity exactly when they
    are the same proof, as long as SHA-256 tells their canonical texts apart. *)
Theorem identity_exact v v' p p' i i' :
  as_proof v = Some p → as_proof v' = Some p' →
  exactGitTreeInclusionProofIdentity sha1 sha256 fold_path v = inr i →
  exactGitTreeInclusionProofIdentity sha1 sha256 fold_path v' = inr i' →
  (hex (sha256 (utf8 (canonicalProofJson p))) = hex (sha256 (utf8 (canonicalProofJson p'))) →
     canonicalProofJson p = canonicalProofJson p') →
  i = i' ↔ p = p'.
Proof.
  unfold exactGitTreeInclusionProofIdentity. intros -> ->.
  destruct (verify v); [|done]. destruct (verify v'); [|done]. intros [= <-] [= <-] Hc.
  split; [intros H; by apply (inj canonicalProofJson), Hc|by intros ->].
Qed.
End Soundness.

(** ** A repository of two trees *)

Module Sample.
Definition bytes_text (l : list Z) : string :=
  String.string_of_list_ascii ((λ z, ascii_of_nat (Z.to_nat z)) <$> l).
(** A stand-in for a hash: twenty bytes of a polynomial checksum. *)
Definition checksum (l : list Z) : list Z :=
  let n := fold_left (λ a b, Z.land (a * 131 + b) 0xffffffffff) l 7 in
  (λ i, Z.land (Z.shiftr n (8 * Z.of_nat i)) 0xff) <$> seq 0 20.
Definition tree_raw (es : list git_entry) : string :=
  let body := git_write es in
  bytes_text (checksum (utf8 ("tree " +:+ show_N (N.of_nat (String.length body)) +:+ String nul body))).
Definition tree_id (es : list git_entry) : string := gitTreeSha checksum (git_write es).

Definition blob : string := "twenty bytes of blob".
Definition lib : list git_entry := [mkGitEntry "100644" "a.ts" blob; mkGitEntry "100755" "b.ts" blob].
Definition root : list git_entry := [mkGitEntry "100644" "README" blob; mkGitEntry "40000" "src" (tree_raw lib)].
Definition store : gmap string (list git_entry) := <[tree_id root := root]> {[tree_id lib := lib]}.
Definition row (es : list git_entry) : string * string := (tree_id es, base64_encode (git_write es)).
Definition blob_id : string := hex (utf8 blob).
Definition document : ExactGitTreeInclusionProof :=
  mkProof (tree_id root)
    (if compareUtf8_lt (tree_id root) (tree_id lib) then [row root; row lib] else [row lib; row root])
    [("README", blob_id); ("src/a.ts", blob_id)].
Definition to_json (p : ExactGitTreeInclusionProof) : json :=
  JObj [("kind", JStr "exact_git_tree_inclusion_batch"); ("version", JNum 1);
        ("headTreeSha", JStr (pf_headTreeSha p));
        ("trees", JArr ((λ t, JObj [("sha1", JStr t.1); ("bodyBase64", JStr t.2)]) <$> pf_trees p));
        ("paths", JArr ((λ t, JObj [("path", JStr t.1); ("blobSha", JStr t.2)]) <$> pf_paths p))].
Definition fold (s : string) : string := s.

(** A tree with one file whose name starts with a byte order mark. *)
Definition bom_tree : list git_entry := [mkGitEntry "100644" (byte_order_mark +:+ "foo") blob].
Definition bom_document : ExactGitTreeInclusionProof :=
  mkProof (tree_id bom_tree) [row bom_tree] [("foo", blob_id)].
End Sample.

Example sample_accepted : verifyExactGitTreeInclusionProof Sample.checksum Sample.fold (Sample.to_json Sample.document) = true.
Proof. by vm_compute. Qed.
Lemma sample_read : as_proof (Sample.to_json Sample.document) = Some Sample.document.
Proof. by vm_compute. Qed.
Lemma sample_ids : Sample.tree_id Sample.root ≠ Sample.tree_id Sample.lib.
Proof. by vm_compute. Qed.
Lemma sample_store_cases (P : string → list git_entry → Prop) id es :
  Sample.store !! id = Some es → P (Sample.tree_id Sample.root) Sample.root →
  P (Sample.tree_id Sample.lib) Sample.lib → P id es.
Proof. unfold Sample.store. intros [[<- <-]|[_ [<- <-]%lookup_singleton_Some]]%lookup_insert_Some; done. Qed.
Lemma sample_honest : honest_store Sample.checksum Sample.store.
Proof.
  intros id es H. pattern id, es; apply (sample_store_cases _ _ _ H); (split; [reflexivity|]).
  all: repeat constructor; try done; unfold native_modes; set_solver.
Qed.
Lemma sample_closed : store_closed Sample.store.
Proof.
  intros id es d H. revert d. pattern id, es; apply (sample_store_cases _ _ _ H); intros d Hd Hm.
  - exists Sample.lib. clear H. assert (d = mkGitEntry "40000" "src" (Sample.tree_raw Sample.lib)) as ->.
    { apply elem_of_cons in Hd as [->|Hd]; [by vm_compute in Hm|by apply list_elem_of_singleton in Hd]. }
    unfold Sample.store. rewrite lookup_insert_ne, lookup_singleton_Some; [|by vm_compute].
    split; [by vm_compute|done].
  - exfalso. apply elem_of_cons in Hd as [->|Hd]; [by vm_compute in Hm|].
    apply list_elem_of_singleton in Hd as ->. by vm_compute in Hm.
Qed.
Lemma two_trees_no_collision a b p : Sample.tree_id a ≠ Sample.tree_id b →
  (∀ row, row ∈ pf_trees p → row = Sample.row a ∨ row = Sample.row b) →
  no_collision Sample.checksum (<[Sample.tree_id a := a]> {[Sample.tree_id b := b]}) p.
Proof.
  intros Hab Hp id es row body H Hrow Hb Hc.
  apply lookup_insert_Some in H as [[_ <-]|[_ [_ <-]%lookup_singleton_Some]];
    destruct (Hp _ Hrow) as [->| ->]; apply canonical_base64_iff, (inj base64_encode) in Hb as <-; congruence || done.
Qed.
Lemma sample_no_collision : no_collision Sample.checksum Sample.store Sample.document.
Proof.
  apply two_trees_no_collision; [exact sample_ids|]. intros row. unfold Sample.document. cbn [pf_trees].
  destruct (compareUtf8_lt _ _); intros [H|H%list_elem_of_singleton]%elem_of_cons;
    first [left; exact H | right; exact H].
Qed.

Lemma accepted_paths_exist_witness :
  ∃ names e, git_path Sample.store (Sample.tree_id Sample.root) names e
    ∧ strip_bom <$> names = ["src"; "a.ts"] ∧ regular e ∧ ge_id e = Sample.blob_id.
Proof.
  destruct (accepted_paths_exist Sample.checksum Sample.fold (Sample.to_json Sample.document) Sample.document
    Sample.store sample_accepted sample_read sample_honest sample_closed
    ltac:(exists Sample.root; apply lookup_insert_eq) sample_no_collision "src/a.ts" Sample.blob_id
    ltac:(right; left)) as (names & e & Hg & Hn & Hr & Hb & _).
  exists names, e. split_and!; [exact Hg|exact Hn|exact Hr|exact Hb].
Defined.

Lemma accepted_is_bounded_witness :
  ∃ p, as_proof (Sample.to_json Sample.document) = Some p ∧ count (pf_trees p) ≤ 128.
Proof.
  destruct (accepted_is_bounded Sample.checksum Sample.fold (Sample.to_json Sample.document) sample_accepted)
    as (p & Hp & Ht & _).
  exists p. split; [exact Hp|exact Ht].
Defined.

Lemma parse_git_tree_witness : parseNativeTree (git_write Sample.root) = Some (read_as <$> Sample.root).
Proof.
  apply (parse_git_tree Sample.root); try (by vm_compute).
  - repeat constructor; try (by vm_compute); unfold native_modes; set_solver.
  - by apply (bool_decide_eq_true_1 (NoDup _)); vm_compute.
Defined.

Lemma sample_identity : ∃ i, exactGitTreeInclusionProofIdentity Sample.checksum Sample.checksum Sample.fold
  (Sample.to_json Sample.document) = inr i.
Proof. eexists. vm_compute. reflexivity. Qed.
Lemma identity_exact_witness : ∃ i, exactGitTreeInclusionProofIdentity Sample.checksum Sample.checksum Sample.fold
  (Sample.to_json Sample.document) = inr i ∧ (i = i ↔ Sample.document = Sample.document).
Proof.
  destruct sample_identity as [i E]. exists i. split; [exact E|].
  exact (identity_exact Sample.checksum Sample.checksum Sample.fold (Sample.to_json Sample.document)
    (Sample.to_json Sample.document) Sample.document Sample.document i i sample_read sample_read E E (λ _, eq_refl)).
Defined.

(** The decoder drops a byte order mark: the proof of a path [foo] is accepted
    on a tree that has no such path. *)
Theorem bom_name_accepted :
  verifyExactGitTreeInclusionProof Sample.checksum Sample.fold (Sample.to_json Sample.bom_document) = true
  ∧ ¬ ∃ e, git_path {[Sample.tree_id Sample.bom_tree := Sample.bom_tree]} (Sample.tree_id Sample.bom_tree) ["foo"] e.
Proof.
  split; [by vm_compute|]. intros (e & Hg).
  apply git_path_one in Hg as (es & Hes & He & Hn). apply lookup_singleton_Some in Hes as [_ <-].
  apply list_elem_of_singleton in He as ->. by vm_compute in Hn.
Qed.
(** A mode whose bytes have the high bit set reads as the mode without it. *)
Example mode_high_bit_read :
  parseNativeTree (String (ascii_of_nat (49 + 128)) ("00644 a" +:+ String nul Sample.blob))
  = Some [mkNativeTreeEntry "100644" "a" Sample.blob_id].
Proof. by vm_compute. Qed.
