(* ===== verification/GoReceipt.v ===== *)
(** * GoReceipt: the source inventory receipt of a Go module

    The validator of [queries/dependency_watches.ts]: canonical JSON and its
    digest, the exact shape of a receipt, the walk over its entries, and the
    bindings of a receipt to the watch and the observation that carry it.
    [sha256] gives the lowercase hexadecimal digest of a text's bytes. *)

From S2P Require Import Prelude Regex Intake JsonText Base64 JsonValue.
From stdpp Require Import sorting.
From Stdlib Require Import Ascii QArith Qround.
From Stdlib Require String.
Open Scope Z_scope.

Definition SOURCE_MAX_RECEIPT_BYTES : Z := 16 * 1024 * 1024.
Definition SOURCE_MAX_PATH_BYTES : Z := 4 * 1024.
Definition SOURCE_MAX_TOTAL_PATH_BYTES : Z := 8 * 1024 * 1024.
Definition SOURCE_MAX_ENTRIES : Z := 20000.
Definition MAX_SAFE_INTEGER : Z := 9007199254740991.

Definition SOURCE_SHA256 (s : string) : bool := lower_hex 64 s.
Definition SOURCE_GIT_SHA (s : string) : bool := lower_hex 40 s || lower_hex 64 s.
Definition SOURCE_CONTROL (s : string) : bool := negb (all_chars (λ c, negb (control_char c)) s).
Definition SOURCE_ASCII_PATH (s : string) : bool :=
  (s ≢? "") && all_chars (λ c, (32 <=? byte_at c) && (byte_at c <=? 126))%nat s.

Definition SOURCE_REPOSITORY (s : string) : bool :=
  match split_on "/" s with [a; b] => repository_part a && repository_part b | _ => false end.

(** ** Canonical JSON *)

(** [Number.isSafeInteger(n)], as the integer. *)
Definition safe_integer (q : Q) : option Z :=
  let z := Qfloor q in
  if Qeq_bool q (inject_Z z) && (Z.abs z <=? MAX_SAFE_INTEGER) then Some z else None.

(** One value per key, the last given. *)
Definition last_fields {A} (fields : list (string * A)) : list (string * A) :=
  map_to_list (list_to_map (M := gmap string A) (rev fields)).
Definition key_le {A} (x y : string * A) : Prop := String.leb x.1 y.1 = true.
#[export] Instance key_le_dec {A} : RelDecision (@key_le A) := λ x y, decide (String.leb x.1 y.1 = true).
Definition sorted_fields {A} (fields : list (string * A)) : list (string * A) := merge_sort key_le (last_fields fields).

Fixpoint sourceCanonicalJson (value : json) : option string :=
  match value with
  | JNull => Some "null"
  | JBool true => Some "true"
  | JBool false => Some "false"
  | JStr s => Some (json_quote s)
  | JNum q => show_Z <$> safe_integer q
  | JArr l => (λ items, "[" +:+ join_strings "," items +:+ "]") <$> mapM id (List.map sourceCanonicalJson l)
  | JObj fields =>
      (λ items, "{" +:+ join_strings "," items +:+ "}")
      <$> mapM (λ kv, (λ nested, json_quote kv.1 +:+ ":" +:+ nested) <$> kv.2)
            (sorted_fields (List.map (λ kv, (kv.1, sourceCanonicalJson kv.2)) fields))
  end.

Definition sourceSafePath (s : string) : bool :=
  (s ≢? "") && (byteLength s <=? SOURCE_MAX_PATH_BYTES) && SOURCE_ASCII_PATH s
  && negb (starts_with "/" s) && (String.get (String.length s - 1) s ≢? Some "/"%char)
  && negb (contains_char backslash s) && negb (SOURCE_CONTROL s)
  && forallb (λ part, (part ≢? "") && (part ≢? ".") && (part ≢? "..")) (split_on "/" s).

Section Receipt.
Context (sha256 : string → string).

Definition sourceCanonicalSha256 (value : json) : option string := sha256 <$> sourceCanonicalJson value.

(** ** Reading fields *)

Definition text_is (v : json) (key value : string) : bool := bool_decide (text_at v key = Some value).
Definition bool_is (v : json) (key : string) (b : bool) : bool :=
  match json_field v key with Some (JBool c) => Bool.eqb b c | _ => false end.
Definition safe_int_at (v : json) (key : string) : option Z :=
  match json_field v key with Some (JNum q) => safe_integer q | _ => None end.
Definition object_at (v : json) (key : string) : option json :=
  match json_field v key with Some (JObj l) => Some (JObj l) | _ => None end.
(** [typeof v[key] === "string" && test(v[key])] *)
Definition text_test (v : json) (key : string) (test : string → bool) : option string :=
  s ← text_at v key; if test s then Some s else None.

Definition identity_ok (identity : json) : bool :=
  hasExactKeys identity ["ecosystem"; "manager"; "profile"]
  && text_is identity "ecosystem" "go" && text_is identity "manager" "go-modules"
  && text_is identity "profile" "go_github_exact_tree_source_inventory_v1".

Record Authority := mkAuthority { au_repository : string; au_commitSha : string }.
Definition authority_of (authority : json) : option Authority :=
  if negb (hasExactKeys authority
        ["provider"; "method"; "apiOrigin"; "repository"; "requestedRef"; "commitSha"; "rootTreeSha"])
     || negb (text_is authority "provider" "github")
     || negb (text_is authority "method" "github_app_installation_api")
     || negb (text_is authority "apiOrigin" "https://api.github.com") then None else
  repository ← text_test authority "repository" SOURCE_REPOSITORY;
  requestedRef ← text_test authority "requestedRef"
    (λ s, (s ≢? "") && (byteLength s <=? 1024) && negb (SOURCE_CONTROL s));
  commitSha ← text_test authority "commitSha" SOURCE_GIT_SHA;
  rootTreeSha ← text_test authority "rootTreeSha" SOURCE_GIT_SHA;
  if (String.length commitSha =? String.length rootTreeSha)%nat then Some (mkAuthority repository commitSha) else None.

(** The entries of the inventory. *)
Definition inventory_entries (inventory : json) : option (list json) :=
  if negb (hasExactKeys inventory ["recursive"; "truncated"; "entryCount"; "entries"; "entriesSha256"])
     || negb (bool_is inventory "recursive" true) || negb (bool_is inventory "truncated" false) then None else
  entryCount ← safe_int_at inventory "entryCount";
  entries ← array_at inventory "entries";
  entriesSha256 ← text_test inventory "entriesSha256" SOURCE_SHA256;
  if (2 <=? entryCount) && (entryCount <? SOURCE_MAX_ENTRIES) && (count entries =? entryCount)
     && bool_decide (sourceCanonicalSha256 (JArr entries) = Some entriesSha256)
  then Some entries else None.

(** ** The walk over the entries *)

Record SourceEntry := mkSourceEntry { se_path : string; se_mode : string; se_type : string; se_objectSha : string }.

Definition entry_of (commitSha : string) (v : json) : option SourceEntry :=
  if negb (hasExactKeys v ["path"; "mode"; "type"; "objectSha"]) then None else
  path ← text_test v "path" sourceSafePath;
  type ← text_at v "type";
  mode ← text_at v "mode";
  objectSha ← text_test v "objectSha" SOURCE_GIT_SHA;
  if ((type ≡? "blob") && ((mode ≡? "100644") || (mode ≡? "100755")) || (type ≡? "tree") && (mode ≡? "040000"))
     && (String.length objectSha =? String.length commitSha)%nat
  then Some (mkSourceEntry path mode type objectSha) else None.

Definition string_ends (suffix s : string) : bool :=
  String.prefix (String.string_of_list_ascii (rev (String.list_ascii_of_string suffix)))
    (String.string_of_list_ascii (rev (String.list_ascii_of_string s))).
Definition env_names : list string := [".netrc"; ".gitconfig"; ".goenv"; "go.env"].
(** A path that could change what the Go tool resolves. *)
Definition forbidden_path (path : string) : bool :=
  let casefolded := lower path in
  let parts := split_on "/" casefolded in
  let basename := default "" (last parts) in
  (basename ≡? "go.work") || (basename ≡? "go.work.sum")
  || (((basename ≡? "go.mod") || (basename ≡? "go.sum")) && (path ≢? "go.mod") && (path ≢? "go.sum"))
  || bool_decide ("vendor" ∈ parts) || bool_decide (basename ∈ env_names)
  || (casefolded ≡? ".config/go/env") || string_ends "/.config/go/env" casefolded.

(** The loop's variables. *)
Record Walk := mkWalk {
  wk_folded : gset string;
  wk_previous : option string;
  wk_bytes : Z;
  wk_byPath : gmap string SourceEntry;
}.
Definition walk_start : Walk := mkWalk ∅ None 0 ∅.
Definition walk_entry (commitSha : string) (w : Walk) (v : json) : option Walk :=
  e ← entry_of commitSha v;
  let path := se_path e in
  let total := wk_bytes w + byteLength path in
  if SOURCE_MAX_TOTAL_PATH_BYTES <? total then None else
  if forbidden_path path then None else
  if negb (is_null (wk_byPath w !! path)) || bool_decide (lower path ∈ wk_folded w)
     || match wk_previous w with Some p => negb (String.ltb p path) | None => false end then None else
  Some (mkWalk ({[lower path]} ∪ wk_folded w) (Some path) total (<[path := e]> (wk_byPath w))).
Fixpoint walk_entries (commitSha : string) (w : Walk) (l : list json) : option Walk :=
  match l with [] => Some w | v :: l' => w' ← walk_entry commitSha w v; walk_entries commitSha w' l' end.

(** ** The two files Go needs *)

Record RequiredFile := mkRequiredFile { rf_path : string; rf_blobSha : string; rf_contentSha256 : string }.
Definition max_file_bytes (path : string) : Z := if path ≡? "go.mod" then 256 * 1024 else 8 * 1024 * 1024.
Definition required_file (commitSha : string) (byPath : gmap string SourceEntry) (path : string) (file : json)
    : option RequiredFile :=
  if negb (hasExactKeys file ["path"; "mode"; "blobSha"; "byteCount"; "contentSha256"])
     || negb (text_is file "path" path) || negb (text_is file "mode" "100644") then None else
  blobSha ← text_test file "blobSha" (λ s, SOURCE_GIT_SHA s && (String.length s =? String.length commitSha)%nat);
  byteCount ← safe_int_at file "byteCount";
  contentSha256 ← text_test file "contentSha256" SOURCE_SHA256;
  entry ← byPath !! path;
  if (0 <=? byteCount) && (byteCount <=? max_file_bytes path)
     && (se_type entry ≡? "blob") && (se_mode entry ≡? "100644") && (se_objectSha entry ≡? blobSha)
  then Some (mkRequiredFile path blobSha contentSha256) else None.

(** What the program goes on to use of a validated receipt. *)
Record Receipt := mkReceipt {
  rc_value : json;
  rc_authority : Authority;
  rc_entries : gmap string SourceEntry;
  rc_goMod : RequiredFile;
  rc_goSum : RequiredFile;
}.

Definition without_field (key : string) (v : json) : json :=
  match v with JObj fields => JObj (List.filter (λ kv, kv.1 ≢? key) fields) | _ => v end.

Definition policy_ok (policy : json) : bool :=
  hasExactKeys policy ["name"; "result"]
  && text_is policy "name" "go_root_source_inventory_v1" && text_is policy "result" "admitted".

Definition validateGoDependencySourceInventoryReceipt (value : json) (declaredSha256 : string) : option Receipt :=
  if negb (SOURCE_SHA256 declaredSha256) then None else
  canonical ← sourceCanonicalJson value;
  if (SOURCE_MAX_RECEIPT_BYTES <? byteLength canonical)
     || negb (hasExactKeys value ["kind"; "schemaVersion"; "identity"; "authority"; "inventory";
                                  "requiredFiles"; "policy"; "identitySha256"])
     || negb (text_is value "kind" "github_exact_tree_dependency_source_inventory")
     || negb (number_at_is value "schemaVersion" 1)
     || negb (text_is value "identitySha256" declaredSha256) then None else
  identity ← object_at value "identity";
  if negb (identity_ok identity) then None else
  authority ← object_at value "authority" ≫= authority_of;
  entries ← object_at value "inventory" ≫= inventory_entries;
  w ← walk_entries (au_commitSha authority) walk_start entries;
  files ← array_at value "requiredFiles";
  match files with
  | [f1; f2] =>
      goMod ← required_file (au_commitSha authority) (wk_byPath w) "go.mod" f1;
      goSum ← required_file (au_commitSha authority) (wk_byPath w) "go.sum" f2;
      policy ← object_at value "policy";
      if policy_ok policy && bool_decide (sourceCanonicalSha256 (without_field "identitySha256" value) = Some declaredSha256)
      then Some (mkReceipt value authority (wk_byPath w) goMod goSum) else None
  | _ => None
  end.
End Receipt.

(** ** Canonical text does not depend on the order of the fields *)

Lemma last_fields_perm {A} (l l' : list (string * A)) : NoDup l.*1 → l ≡ₚ l' → last_fields l = last_fields l'.
Proof.
  intros Hd Hp. unfold last_fields. f_equal. apply list_to_map_proper.
  - by rewrite <- (Permutation_rev l).
  - by rewrite <- !Permutation_rev.
Qed.

(** The digest of a receipt does not depend on the order in
    which its fields were written: objects with the same fields, each once,
    have the same canonical text. *)
Theorem canonical_ignores_field_order fields fields' :
  NoDup fields.*1 → fields ≡ₚ fields' →
  sourceCanonicalJson (JObj fields) = sourceCanonicalJson (JObj fields').
Proof.
  intros Hd Hp. cbn [sourceCanonicalJson]. unfold sorted_fields.
  rewrite (last_fields_perm _ (List.map (λ kv, (kv.1, sourceCanonicalJson kv.2)) fields')); [done|..].
  - change (List.map ?f fields) with (f <$> fields). by rewrite <- list_fmap_compose.
  - by apply Permutation_map.
Qed.
Lemma canonical_ignores_field_order_witness :
  sourceCanonicalJson (JObj [("b", JNum 1); ("a", JStr "x")]) = sourceCanonicalJson (JObj [("a", JStr "x"); ("b", JNum 1)]).
Proof.
  apply (canonical_ignores_field_order [("b", JNum 1); ("a", JStr "x")] [("a", JStr "x"); ("b", JNum 1)]).
  - apply (bool_decide_unpack _). vm_compute. exact I.
  - apply Permutation_swap.
Defined.

(** ** What an admitted receipt says *)

Record walk_ok (commitSha : string) (w : Walk) : Prop := {
  wo_entry : ∀ p e, wk_byPath w !! p = Some e →
    se_path e = p ∧ sourceSafePath p = true ∧ forbidden_path p = false
    ∧ SOURCE_GIT_SHA (se_objectSha e) = true ∧ String.length (se_objectSha e) = String.length commitSha
    ∧ lower p ∈ wk_folded w;
  wo_folded : ∀ p q, is_Some (wk_byPath w !! p) → is_Some (wk_byPath w !! q) → lower p = lower q → p = q;
}.
Lemma walk_start_ok c : walk_ok c walk_start.
Proof. split; unfold walk_start; cbn; [by intros p e ?%lookup_empty_Some|by intros p q [? ?%lookup_empty_Some]]. Qed.

Lemma text_test_Some v key test s : text_test v key test = Some s → text_at v key = Some s ∧ test s = true.
Proof. unfold text_test. destruct (text_at v key) as [t|]; cbn; [|done]. destruct (test t) eqn:E; [by intros [= <-]|done]. Qed.

Lemma entry_of_ok c v e : entry_of c v = Some e →
  sourceSafePath (se_path e) = true ∧ SOURCE_GIT_SHA (se_objectSha e) = true
  ∧ String.length (se_objectSha e) = String.length c.
Proof.
  unfold entry_of. intros H. opt_inv.
  repeat match goal with H : text_test _ _ _ = Some _ |- _ => apply text_test_Some in H as [_ H] end.
  apply andb_true_iff in Heqb0 as [_ Hl%Nat.eqb_eq]. by cbn.
Qed.

Lemma walk_entry_ok c w v w' : walk_ok c w → walk_entry c w v = Some w' →
  walk_ok c w' ∧ size (wk_byPath w') = S (size (wk_byPath w)).
Proof.
  intros [He Hf]. unfold walk_entry. intros H. opt_inv.
  rename x into e, Heqb0 into Hforbid, Heqb1 into Hnew.
  destruct (entry_of_ok _ _ _ H0) as (Hsafe & Hsha & Hlen).
  apply orb_false_iff in Hnew as [[Hseen Hfold%bool_decide_eq_false]%orb_false_iff _].
  apply negb_false_iff in Hseen. destruct (wk_byPath w !! se_path e) eqn:Ee; [done|]. cbn. split.
  - split; cbn.
    + intros p e' [[<- <-]|[Hne Hp]]%lookup_insert_Some; [split_and!; try done; set_solver|].
      destruct (He _ _ Hp) as (? & ? & ? & ? & ? & ?). split_and!; try done; set_solver.
    + intros p q Hp%lookup_insert_is_Some Hq%lookup_insert_is_Some Hpq.
      destruct (decide (se_path e = p)) as [<-|Hnp], (decide (se_path e = q)) as [<-|Hnq]; [done|..].
      * destruct Hq as [?|[_ [e' Hq]]]; [done|]. destruct (He _ _ Hq) as (_ & _ & _ & _ & _ & Hin). congruence.
      * destruct Hp as [?|[_ [e' Hp]]]; [done|]. destruct (He _ _ Hp) as (_ & _ & _ & _ & _ & Hin). congruence.
      * apply Hf; naive_solver.
  - by rewrite map_size_insert_None.
Qed.
Lemma walk_entries_ok c w l w' : walk_ok c w → walk_entries c w l = Some w' →
  walk_ok c w' ∧ size (wk_byPath w') = (length l + size (wk_byPath w))%nat.
Proof.
  revert w. induction l as [|v l IH]; intros w Hw H; cbn in H; [by injection H as <-|].
  opt_inv. destruct (walk_entry_ok _ _ _ _ Hw H0) as [Hx Hs]. destruct (IH _ Hx H) as [Hy Hs'].
  split; [done|]. cbn. lia.
Qed.

Lemma required_file_ok c m path file rf : required_file c m path file = Some rf →
  ∃ e, m !! path = Some e ∧ se_type e = "blob" ∧ se_mode e = "100644" ∧ se_objectSha e = rf_blobSha rf
    ∧ rf_path rf = path ∧ SOURCE_SHA256 (rf_contentSha256 rf) = true ∧ text_at file "contentSha256" = Some (rf_contentSha256 rf).
Proof.
  unfold required_file. intros H. opt_inv.
  repeat match goal with H : text_test _ _ _ = Some _ |- _ => apply text_test_Some in H as [? H] end.
  repeat match goal with H : _ && _ = true |- _ => apply andb_true_iff in H as [? ?] end.
  repeat match goal with H : bool_decide _ = true |- _ => apply bool_decide_eq_true in H end.
  match goal with H : m !! path = Some ?e |- _ => exists e end. by split_and!.
Qed.

Lemma inventory_entries_ok sha256 v l : inventory_entries sha256 v = Some l → 2 ≤ count l < SOURCE_MAX_ENTRIES.
Proof.
  unfold inventory_entries. intros H. opt_inv.
  repeat match goal with H : _ && _ = true |- _ => apply andb_true_iff in H as [H ?] end. lia.
Qed.

(** What an admitted receipt says of the module: its declared
    identity is the digest of its canonical text without that field; it lists
    between 2 and 19,999 entries, under safe paths that stay distinct when case
    is ignored, none of them a workspace file, a vendored file or a file that
    configures Go, all with ids of the commit's length; and its go.mod and
    go.sum are regular blobs of the root, with the blobs the receipt names. *)
Theorem admitted_receipt sha256 value declared rc :
  validateGoDependencySourceInventoryReceipt sha256 value declared = Some rc →
  rc_value rc = value
  ∧ text_at value "identitySha256" = Some declared
  ∧ sourceCanonicalSha256 sha256 (without_field "identitySha256" value) = Some declared
  ∧ 2 ≤ Z.of_nat (size (rc_entries rc)) < 20000
  ∧ (∀ path e, rc_entries rc !! path = Some e →
       sourceSafePath path = true ∧ forbidden_path path = false
       ∧ String.length (se_objectSha e) = String.length (au_commitSha (rc_authority rc)))
  ∧ (∀ p q, is_Some (rc_entries rc !! p) → is_Some (rc_entries rc !! q) → lower p = lower q → p = q)
  ∧ (∃ e, rc_entries rc !! "go.mod" = Some e ∧ se_type e = "blob" ∧ se_mode e = "100644"
       ∧ se_objectSha e = rf_blobSha (rc_goMod rc))
  ∧ (∃ e, rc_entries rc !! "go.sum" = Some e ∧ se_type e = "blob" ∧ se_mode e = "100644"
       ∧ se_objectSha e = rf_blobSha (rc_goSum rc)).
Proof.
  unfold validateGoDependencySourceInventoryReceipt. intros H.
  do 10 opt_step. destruct x4 as [|f1 [|f2 [|]]]; try done. opt_inv. cbn.
  repeat match goal with H : _ || _ = false |- _ => apply orb_false_iff in H as [? H] end.
  repeat match goal with H : negb _ = false |- _ => apply negb_false_iff in H end.
  destruct (walk_entries_ok _ _ _ _ (walk_start_ok _) H4) as [[He Hf] Hs].
  apply inventory_entries_ok in H3.
  repeat match goal with H : required_file _ _ _ _ = Some _ |- _ => apply required_file_ok in H as (? & ? & ? & ? & ? & _) end.
  match goal with H : policy_ok _ && _ = true |- _ => apply andb_true_iff in H as [_ H%bool_decide_eq_true] end.
  cbn in Hs. rewrite Nat.add_0_r in Hs. rewrite Hs.
  split_and!; try done; try eauto; try (unfold count in *; unfold SOURCE_MAX_ENTRIES in *; lia).
  - unfold text_is in *. by match goal with H : bool_decide _ = true |- _ => apply bool_decide_eq_true in H end.
  - intros path e Hp. destruct (He _ _ Hp) as (_ & ? & ? & _ & ? & _). by split_and!.
Qed.

(** ** A receipt *)

Module SampleReceipt.
Fixpoint repeat_text (n : nat) (s : string) : string := match n with O => "" | S n' => s +:+ repeat_text n' s end.
Definition digest (_ : string) : string := repeat_text 32 "5a".
Definition commit : string := repeat_text 20 "c0".
Definition tree : string := repeat_text 20 "7e".
Definition mod_blob : string := repeat_text 20 "0d".
Definition sum_blob : string := repeat_text 20 "50".
Definition entry (path blob : string) : json :=
  JObj [("path", JStr path); ("mode", JStr "100644"); ("type", JStr "blob"); ("objectSha", JStr blob)].
Definition file (path blob : string) : json :=
  JObj [("path", JStr path); ("mode", JStr "100644"); ("blobSha", JStr blob); ("byteCount", JNum 40);
        ("contentSha256", JStr (digest path))].
Definition value : json :=
  JObj [("kind", JStr "github_exact_tree_dependency_source_inventory"); ("schemaVersion", JNum 1);
        ("identity", JObj [("ecosystem", JStr "go"); ("manager", JStr "go-modules");
                           ("profile", JStr "go_github_exact_tree_source_inventory_v1")]);
        ("authority", JObj [("provider", JStr "github"); ("method", JStr "github_app_installation_api");
                            ("apiOrigin", JStr "https://api.github.com"); ("repository", JStr "acme/api");
                            ("requestedRef", JStr "refs/heads/main"); ("commitSha", JStr commit);
                            ("rootTreeSha", JStr tree)]);
        ("inventory", JObj [("recursive", JBool true); ("truncated", JBool false); ("entryCount", JNum 2);
                            ("entries", JArr [entry "go.mod" mod_blob; entry "go.sum" sum_blob]);
                            ("entriesSha256", JStr (digest ""))]);
        ("requiredFiles", JArr [file "go.mod" mod_blob; file "go.sum" sum_blob]);
        ("policy", JObj [("name", JStr "go_root_source_inventory_v1"); ("result", JStr "admitted")]);
        ("identitySha256", JStr (digest ""))].
Definition receipt : Receipt :=
  mkReceipt value (mkAuthority "acme/api" commit)
    (<["go.sum" := mkSourceEntry "go.sum" "100644" "blob" sum_blob]>
       {["go.mod" := mkSourceEntry "go.mod" "100644" "blob" mod_blob]})
    (mkRequiredFile "go.mod" mod_blob (digest "")) (mkRequiredFile "go.sum" sum_blob (digest "")).
End SampleReceipt.

Lemma sample_receipt : validateGoDependencySourceInventoryReceipt SampleReceipt.digest SampleReceipt.value
  (SampleReceipt.digest "") = Some SampleReceipt.receipt.
Proof. by vm_compute. Qed.
Lemma admitted_receipt_witness :
  ∃ e, rc_entries SampleReceipt.receipt !! "go.mod" = Some e ∧ se_objectSha e = SampleReceipt.mod_blob.
Proof.
  destruct (admitted_receipt SampleReceipt.digest SampleReceipt.value (SampleReceipt.digest "") SampleReceipt.receipt
    sample_receipt) as (_ & _ & _ & _ & _ & _ & (e & He & _ & _ & Hb) & _).
  exists e. split; [exact He|exact Hb].
Defined.
