(* ===== verification/DepSchema.v ===== *)
(** * DepSchema: the tables of the dependency watches

    The rows of [schema/dependency_watches.ts] and
    [schema/dependency_upgrade_contracts.ts], the columns of [repositories]
    they are checked against, and the errors their queries throw. *)

From S2P Require Import Prelude Table Intake.
Open Scope Z_scope.

Inductive WatchTrigger := tr_manual | tr_scheduled | tr_push.
Inductive WatchStatus := ws_idle | ws_checking | ws_candidates | ws_unchanged | ws_failed.
Inductive WatchErrorCode :=
  | ec_unsupported | ec_insufficient_evidence | ec_registry_unavailable | ec_invalid_snapshot | ec_authorization.
#[export] Instance WatchTrigger_eq_dec : EqDecision WatchTrigger.
Proof. solve_decision. Defined.
#[export] Instance WatchStatus_eq_dec : EqDecision WatchStatus.
Proof. solve_decision. Defined.
#[export] Instance WatchErrorCode_eq_dec : EqDecision WatchErrorCode.
Proof. solve_decision. Defined.

Definition trigger_of (s : string) : option WatchTrigger :=
  if s ≡? "manual" then Some tr_manual else if s ≡? "scheduled" then Some tr_scheduled
  else if s ≡? "push" then Some tr_push else None.

(** The columns of [repositories] the watches read. *)
Record Repository := mkRepository { rp_workspace_id : string; rp_name : string }.

Record DependencyWatch := mkDependencyWatch {
  dw_workspace_id : string;
  dw_repository_id : string;
  dw_manifest_path : string;
  dw_lockfile_path : string;
  dw_selected_dependencies : list string;
  dw_cadence_seconds : option Z;
  dw_last_checked_sha : option string;
  dw_selected_file_hashes : gmap string string;
  dw_candidate_fingerprint : option string;
  dw_status : WatchStatus;
  dw_error_code : option WatchErrorCode;
  dw_error_message : option string;
  dw_last_trigger : option WatchTrigger;
  dw_last_triggered_at : option Z;
  dw_last_checked_at : option Z;
  dw_next_check_at : option Z;
  dw_created_at : Z;
  dw_updated_at : Z;
}.

Record WatchObservation := mkWatchObservation {
  ob_workspace_id : string;
  ob_watch_id : string;
  ob_repository_id : string;
  ob_trigger : WatchTrigger;
  ob_baseline_sha : option string;
  ob_selected_file_hashes : gmap string string;
  ob_observation_key : string;
  ob_candidate_fingerprint : option string;
  ob_source_inventory_receipt : option json;
  ob_source_inventory_receipt_sha256 : option string;
  ob_status : WatchStatus;
  ob_candidates : list json;
  ob_error_code : option WatchErrorCode;
  ob_error_message : option string;
  ob_observed_at : Z;
  ob_created_at : Z;
}.

(** A retained signed tree note. *)
Record TreeNote := mkTreeNote {
  tn_workspace_id : string;
  tn_watch_id : string;
  tn_repository_id : string;
  tn_source_observation_id : string;
  tn_source_inventory_receipt_sha256 : string;
  tn_format_profile : string;
  tn_signed_tree_note_base64 : string;
  tn_signed_tree_note_sha256 : string;
  tn_expected_prior_signed_tree_note_sha256 : option string;
  tn_expected_prior_generation : option Z;
  tn_generation : Z;
  tn_created_at : Z;
}.

Inductive UpgradeState := us_proposed | us_needs_human | us_approved | us_published | us_refused | us_stale | us_failed.
Inductive UpgradeEvent :=
  | ue_proposed | ue_approval_requested | ue_approved | ue_refused | ue_stale | ue_published | ue_failed
  | ue_needs_human_decision.
#[export] Instance UpgradeState_eq_dec : EqDecision UpgradeState.
Proof. solve_decision. Defined.
#[export] Instance UpgradeEvent_eq_dec : EqDecision UpgradeEvent.
Proof. solve_decision. Defined.

Record UpgradeContract := mkUpgradeContract {
  uc_workspace_id : string;
  uc_repository_id : string;
  uc_watch_id : string;
  uc_observation_key : string;
  uc_candidate_fingerprint : string;
  uc_package_name : string;
  uc_dependency_kind : string;
  uc_specifier : string;
  uc_current_version : string;
  uc_target_version : string;
  uc_manifest_path : string;
  uc_lockfile_path : string;
  uc_baseline_sha : string;
  uc_proposal : json;
  uc_state : UpgradeState;
  uc_approval_id : option string;
  uc_issue_url : option string;
  uc_issue_number : option string;
  uc_last_error : option string;
  uc_created_by : option string;
  uc_created_at : Z;
  uc_updated_at : Z;
}.

Record UpgradeContractEvent := mkUpgradeContractEvent {
  ue_workspace_id : string;
  ue_contract_id : string;
  ue_candidate_fingerprint : string;
  ue_actor_type : string;
  ue_actor_id : string;
  ue_decision : UpgradeEvent;
  ue_approval_id : option string;
  ue_details : json;
  ue_occurred_at : Z;
}.

(** The database the operations share. *)
Record DepDb := mkDepDb {
  dd_repositories : gmap string Repository;
  dd_watches : gmap string DependencyWatch;
  dd_observations : gmap string WatchObservation;
  dd_notes : gmap string TreeNote;
  dd_contracts : gmap string UpgradeContract;
  dd_events : gmap string UpgradeContractEvent;
}.
Definition set_watches (t : gmap string DependencyWatch) (d : DepDb) : DepDb :=
  mkDepDb (dd_repositories d) t (dd_observations d) (dd_notes d) (dd_contracts d) (dd_events d).
Definition set_observations (t : gmap string WatchObservation) (d : DepDb) : DepDb :=
  mkDepDb (dd_repositories d) (dd_watches d) t (dd_notes d) (dd_contracts d) (dd_events d).
Definition set_notes (t : gmap string TreeNote) (d : DepDb) : DepDb :=
  mkDepDb (dd_repositories d) (dd_watches d) (dd_observations d) t (dd_contracts d) (dd_events d).
Definition set_contracts (t : gmap string UpgradeContract) (d : DepDb) : DepDb :=
  mkDepDb (dd_repositories d) (dd_watches d) (dd_observations d) (dd_notes d) t (dd_events d).
Definition set_events (t : gmap string UpgradeContractEvent) (d : DepDb) : DepDb :=
  mkDepDb (dd_repositories d) (dd_watches d) (dd_observations d) (dd_notes d) (dd_contracts d) t.

(** The error classes of the three query modules. *)
Inductive DepError :=
  | DependencyWatchAuthorizationError
  | DependencyWatchValidationError (message : string)
  | GoSumdbNoteCustodyValidationError (message : string)
  | GoSumdbNoteCustodyAuthorizationError (message : string)
  | GoSumdbNoteCustodyConflictError (message : string)
  | plain_error (message : string)
  | unique_violation
  | constraint_violation.
