(* ===== verification/DepWatches.v ===== *)
(** * DepWatches: configured dependency watches and their observation ledger

    [queries/dependency_watches.ts]: configuring a watch, triggering it by
    hand or by a push, claiming the due ones, and recording what a check saw.
    Each call is one step; the receipt of an observation is validated by
    [GoReceipt]. *)

From S2P Require Import Prelude Table Regex Intake Base64 JsonValue GoReceipt Tx RecordSchema DepSchema.
From stdpp Require Import sorting.
From Stdlib Require Import Ascii QArith Qround.
From Stdlib Require String.
Open Scope Z_scope.

Notation dep := (tx DepError DepDb).

(** ** Configuration *)

Record DependencyWatchConfig := mkDependencyWatchConfig {
  cf_workspaceId : string;
  cf_repositoryId : string;
  cf_manifestPath : option string;
  cf_lockfilePath : option string;
  cf_selectedDependencies : option (list string);
  cf_cadenceSeconds : option Q;
}.

Definition is_integer (q : Q) : bool := Qeq_bool q (inject_Z (Qfloor q)).
Definition blank (s : string) : bool := trim s ≡? "".
Definition some_and {A} (p : A → bool) (x : option A) : bool := match x with Some a => p a | None => false end.

Definition validateConfig (input : DependencyWatchConfig) : option DepError :=
  if (cf_workspaceId input ≡? "") || (cf_repositoryId input ≡? "") then
    Some (DependencyWatchValidationError "workspaceId and repositoryId are required")
  else if some_and blank (cf_manifestPath input) then
    Some (DependencyWatchValidationError "manifestPath must not be empty")
  else if some_and blank (cf_lockfilePath input) then
    Some (DependencyWatchValidationError "lockfilePath must not be empty")
  else if some_and (λ q, negb (is_integer q) || Qle_bool q 0) (cf_cadenceSeconds input) then
    Some (DependencyWatchValidationError "cadenceSeconds must be a positive integer or null")
  else if some_and (existsb blank) (cf_selectedDependencies input) then
    Some (DependencyWatchValidationError "selectedDependencies must contain non-empty names")
  else None.
Definition check_or_throw (e : option DepError) : dep unit :=
  match e with Some e => throw e | None => mret tt end.

Definition text_le (x y : string) : Prop := String.leb x y = true.
#[export] Instance text_le_dec : RelDecision text_le := λ x y, decide (String.leb x y = true).
(** [[...new Set(l)].sort()] *)
Definition sorted_set (l : list string) : list string := merge_sort text_le (remove_dups l).

Definition cadence_of (input : DependencyWatchConfig) : option Z := Qfloor <$> cf_cadenceSeconds input.
(** [x ?? "auto"] *)
Definition or_auto (x : option string) : string := default "auto" x.
Definition next_of (now : Z) (input : DependencyWatchConfig) : option Z :=
  (λ s, now + s * 1000) <$> cadence_of input.

(** The row that holds the configuration. *)
Definition same_config (input : DependencyWatchConfig) (_ : string) (r : DependencyWatch) : bool :=
  (dw_workspace_id r ≡? cf_workspaceId input) && (dw_repository_id r ≡? cf_repositoryId input)
  && (dw_manifest_path r ≡? or_auto (cf_manifestPath input)) && (dw_lockfile_path r ≡? or_auto (cf_lockfilePath input)).
Definition new_watch (c : Clock) (input : DependencyWatchConfig) : DependencyWatch :=
  mkDependencyWatch (cf_workspaceId input) (cf_repositoryId input) (or_auto (cf_manifestPath input))
    (or_auto (cf_lockfilePath input)) (sorted_set (default [] (cf_selectedDependencies input))) (cadence_of input)
    None ∅ None ws_idle None None None None None (next_of (js_now c) input) (db_now c) (db_now c).
Definition reconfigured (c : Clock) (input : DependencyWatchConfig) (r : DependencyWatch) : DependencyWatch :=
  mkDependencyWatch (dw_workspace_id r) (dw_repository_id r) (dw_manifest_path r) (dw_lockfile_path r)
    (sorted_set (default [] (cf_selectedDependencies input))) (cadence_of input) (dw_last_checked_sha r)
    (dw_selected_file_hashes r) (dw_candidate_fingerprint r) (dw_status r) (dw_error_code r) (dw_error_message r)
    (dw_last_trigger r) (dw_last_triggered_at r) (dw_last_checked_at r) (next_of (js_now c) input)
    (dw_created_at r) (js_now c).

(** [INSERT ... ON CONFLICT DO UPDATE ... RETURNING]; [id] is the new row's
    random id. *)
Definition upsert_watch (c : Clock) (id : string) (input : DependencyWatchConfig)
    : dep (string * DependencyWatch) := λ d,
  match head (select_where (same_config input) (dd_watches d)) with
  | Some (k, r) =>
      let r' := reconfigured c input r in inr ((k, r'), set_watches (<[k := r']> (dd_watches d)) d)
  | None =>
      match dd_watches d !! id with
      | Some _ => inl unique_violation
      | None => let r := new_watch c input in inr ((id, r), set_watches (<[id := r]> (dd_watches d)) d)
      end
  end.
Definition owned_repository (workspaceId repositoryId : string) (d : DepDb) : option Repository :=
  r ← dd_repositories d !! repositoryId; if rp_workspace_id r ≡? workspaceId then Some r else None.
Definition createDependencyWatch (c : Clock) (id : string) (input : DependencyWatchConfig)
    : dep (string * DependencyWatch) :=
  _ ← check_or_throw (validateConfig input);
  repository ← reads (owned_repository (cf_workspaceId input) (cf_repositoryId input));
  _ ← some_or repository DependencyWatchAuthorizationError;
  upsert_watch c id input.

Definition listDependencyWatches (workspaceId : string) (d : DepDb) : list (string * DependencyWatch) :=
  select_where (λ _ r, dw_workspace_id r ≡? workspaceId) (dd_watches d).
Definition listDependencyWatchesForRepository (workspaceId repositoryId : string) (d : DepDb)
    : list (string * DependencyWatch) :=
  select_where (λ _ r, (dw_workspace_id r ≡? workspaceId) && (dw_repository_id r ≡? repositoryId)) (dd_watches d).
Definition getDependencyWatch (workspaceId watchId : string) (d : DepDb) : option DependencyWatch :=
  r ← dd_watches d !! watchId; if dw_workspace_id r ≡? workspaceId then Some r else None.

(** ** Triggers *)

Definition set_triggered (trigger : WatchTrigger) (now : Z) (r : DependencyWatch) : DependencyWatch :=
  mkDependencyWatch (dw_workspace_id r) (dw_repository_id r) (dw_manifest_path r) (dw_lockfile_path r)
    (dw_selected_dependencies r) (dw_cadence_seconds r) (dw_last_checked_sha r) (dw_selected_file_hashes r)
    (dw_candidate_fingerprint r) ws_checking (dw_error_code r) (dw_error_message r) (Some trigger) (Some now)
    (dw_last_checked_at r) (dw_next_check_at r) (dw_created_at r) now.
Definition set_next_check (next : option Z) (r : DependencyWatch) : DependencyWatch :=
  mkDependencyWatch (dw_workspace_id r) (dw_repository_id r) (dw_manifest_path r) (dw_lockfile_path r)
    (dw_selected_dependencies r) (dw_cadence_seconds r) (dw_last_checked_sha r) (dw_selected_file_hashes r)
    (dw_candidate_fingerprint r) (dw_status r) (dw_error_code r) (dw_error_message r) (dw_last_trigger r)
    (dw_last_triggered_at r) (dw_last_checked_at r) next (dw_created_at r) (dw_updated_at r).

Definition in_workspace (workspaceId : string) (r : DependencyWatch) : bool := dw_workspace_id r ≡? workspaceId.
Definition update_watch (workspaceId watchId : string) (f : DependencyWatch → DependencyWatch)
    : dep (option DependencyWatch) :=
  runs (λ d, let '(row, t) := update_row watchId (in_workspace workspaceId) f (dd_watches d) in (row, set_watches t d)).

Definition triggerDependencyWatch (workspaceId watchId trigger : string) (now : Z) : dep (option DependencyWatch) :=
  trigger ← some_or (trigger_of trigger) (DependencyWatchValidationError "trigger must be manual, scheduled, or push");
  watch ← reads (getDependencyWatch workspaceId watchId);
  _ ← some_or watch DependencyWatchAuthorizationError;
  update_watch workspaceId watchId (set_triggered trigger now).

(** [path.replace(/^\.\//, "")] *)
Definition normalizePath (path : string) : string :=
  if starts_with "./" path then slice_from 2 path else path.
Definition AUTO_SELECTED_PATHS : list string :=
  ["package.json"; "package-lock.json"; "npm-shrinkwrap.json"; "pnpm-lock.yaml"; "yarn.lock"; "bun.lock"; "bun.lockb";
   "pyproject.toml"; "poetry.lock"; "uv.lock"; "Cargo.toml"; "Cargo.lock"; "go.mod"; "go.sum"; "Gemfile";
   "Gemfile.lock"; "composer.json"; "composer.lock"; "pom.xml"; "build.gradle"; "build.gradle.kts";
   "packages.lock.json"; "mix.exs"; "mix.lock"; "pubspec.yaml"; "pubspec.lock"; "Package.swift"; "Package.resolved"].
Definition resolvedPushPaths (watch : DependencyWatch) : list string :=
  let explicit := List.filter (λ p, p ≢? "auto") (normalizePath <$> [dw_manifest_path watch; dw_lockfile_path watch]) in
  if (length explicit =? 2)%nat then explicit else
  let selected := List.filter (λ p, p ≢? "") (normalizePath <$> (map_to_list (dw_selected_file_hashes watch)).*1) in
  match selected with [] => AUTO_SELECTED_PATHS | _ => selected end.
Definition touched_by (changedPaths : list string) (watch : DependencyWatch) : bool :=
  let changed := normalizePath <$> changedPaths in
  existsb (λ p, bool_decide (p ∈ changed)) (resolvedPushPaths watch).

(** The loop over the repository's watches. *)
Fixpoint trigger_touched (workspaceId : string) (changedPaths : list string) (now : Z)
    (watches : list (string * DependencyWatch)) : dep (list (string * DependencyWatch)) :=
  match watches with
  | [] => mret []
  | (k, watch) :: rest =>
      if touched_by changedPaths watch then
        row ← update_watch workspaceId k (set_triggered tr_push now);
        triggered ← trigger_touched workspaceId changedPaths now rest;
        mret (match row with Some r => (k, r) :: triggered | None => triggered end)
      else trigger_touched workspaceId changedPaths now rest
  end.
Definition triggerDependencyWatchesForPush (workspaceId repositoryId : string) (changedPaths : list string) (now : Z)
    : dep (list (string * DependencyWatch)) :=
  watches ← reads (listDependencyWatchesForRepository workspaceId repositoryId);
  trigger_touched workspaceId changedPaths now watches.

(** ** The heartbeat *)

Definition is_due (workspaceId : string) (now : Z) (r : DependencyWatch) : bool :=
  in_workspace workspaceId r && negb (is_null (dw_cadence_seconds r))
  && match dw_next_check_at r with Some t => t <=? now | None => false end.
Definition listDueDependencyWatches (workspaceId : string) (now : Z) (d : DepDb) : list (string * DependencyWatch) :=
  select_where (λ _ r, is_due workspaceId now r) (dd_watches d).

(** [Math.max(1, Math.min(100, Math.trunc(limit)))] *)
Definition math_trunc (q : Q) : Z := if Qle_bool 0 q then Qfloor q else - Qfloor (- q).
Definition safe_limit (limit : Q) : Z := Z.max 1 (Z.min 100 (math_trunc limit)).

(** The rows of the CTE, in the order of [ORDER BY next_check_at]. *)
Definition due_order (r : DependencyWatch) : Z := default 0 (dw_next_check_at r).
Definition due_rows (workspaceId : string) (now : Z) (limit : Q) (d : DepDb) : list (string * DependencyWatch) :=
  order_limit due_order (Z.to_nat (safe_limit limit))
    (select_where (λ _ r, is_due workspaceId now r && negb (dw_status r ≡? ws_checking)) (dd_watches d)).
Definition claimed (now : Z) (r : DependencyWatch) : DependencyWatch :=
  set_next_check ((λ s, now + s * 1000) <$> dw_cadence_seconds r) (set_triggered tr_scheduled now r).
Definition claimDueDependencyWatches (workspaceId : string) (now : Z) (limit : Q) (d : DepDb)
    : list (string * DependencyWatch) * DepDb :=
  let due := (due_rows workspaceId now limit d).*1 in
  let t := update_where (λ k _, bool_decide (k ∈ due)) (claimed now) (dd_watches d) in
  (select_where (λ k _, bool_decide (k ∈ due)) t, set_watches t d).

(** ** Observations *)

Record ObservationInput := mkObservationInput {
  oi_workspaceId : string;
  oi_watchId : string;
  oi_repositoryId : string;
  oi_trigger : WatchTrigger;
  oi_baselineSha : option string;
  oi_selectedFileHashes : gmap string string;
  oi_observationKey : string;
  oi_candidateFingerprint : option string;
  oi_sourceInventoryReceipt : option json;
  oi_sourceInventoryReceiptSha256 : option string;
  oi_status : WatchStatus;
  oi_candidates : list json;
  oi_errorCode : option WatchErrorCode;
  oi_errorMessage : option string;
  oi_observedAt : option Z;
  oi_nextCheckAt : option Z;
}.

(** [/^[A-Za-z]:/] *)
Definition drive_letter (s : string) : bool :=
  match s with String c (String d _) => (is_word c && negb (is_digit c) && (c ≢? "_"%char)) && (d ≡? ":"%char) | _ => false end.
Fixpoint slashes (s : string) : string :=
  match s with
  | EmptyString => ""
  | String c s' => String (if byte_at c =? 92 then "/"%char else c)%nat (slashes s')
  end.
Definition sourceCanonicalWatchPath (value : string) : option string :=
  if (value ≡? "") || negb (SOURCE_ASCII_PATH value) || SOURCE_CONTROL value || starts_with "/" value
     || drive_letter value then None else
  let parts := List.filter (λ p, p ≢? ".") (split_on "/" (slashes value)) in
  if existsb (λ p, (p ≡? "") || (p ≡? "..")) parts then None
  else match parts with [] => None | _ => Some (join_strings "/" parts) end.

Section Observations.
Context (sha256 toLowerCase : string → string).

Definition go_candidate (commitSha : string) (candidate : json) : bool :=
  match candidate with JObj _ => true | _ => false end
  && text_is candidate "ecosystem" "go" && text_is candidate "package_manager" "go-modules"
  && text_is candidate "manifest_path" "go.mod" && text_is candidate "lockfile_path" "go.sum"
  && text_is candidate "baseline_sha" commitSha.
Definition go_root_watch (watch : DependencyWatch) : bool :=
  (dw_manifest_path watch ≡? "auto") && (dw_lockfile_path watch ≡? "auto")
  || bool_decide (sourceCanonicalWatchPath (dw_manifest_path watch) = Some "go.mod")
     && bool_decide (sourceCanonicalWatchPath (dw_lockfile_path watch) = Some "go.sum").

(** The error thrown, if any. *)
Definition validateSourceReceiptObservationBindings (input : ObservationInput) (watch : DependencyWatch)
    (repositoryName : string) (receipt : Receipt) : option DepError :=
  let required := <["go.sum" := rf_contentSha256 (rc_goSum receipt)]>
    {["go.mod" := rf_contentSha256 (rc_goMod receipt)]} in
  let commit := au_commitSha (rc_authority receipt) in
  if negb (go_root_watch watch) then
    Some (DependencyWatchValidationError "source inventory receipt requires a Go-root watch")
  else if toLowerCase repositoryName ≢? toLowerCase (au_repository (rc_authority receipt)) then
    Some (DependencyWatchValidationError "source inventory receipt repository does not match connected custody")
  else if negb (sql_eq (oi_baselineSha input) commit) then
    Some (DependencyWatchValidationError "source inventory receipt commit does not match the observation baseline")
  else if oi_selectedFileHashes input ≢? required then
    Some (DependencyWatchValidationError "source inventory receipt hashes do not match the selected Go root files")
  else if oi_status input ≡? ws_candidates then
    if bool_decide (oi_candidates input = []) || negb (forallb (go_candidate commit) (oi_candidates input)) then
      Some (DependencyWatchValidationError "source inventory receipt candidates do not match Go source custody")
    else None
  else if bool_decide (oi_candidates input = []) then None
  else Some (DependencyWatchValidationError "non-candidate source inventory observations cannot carry candidates").

(** The checks of [recordDependencyWatchObservation], before it writes. *)
Definition check_receipt (input : ObservationInput) (watch : DependencyWatch) : dep unit :=
  match oi_sourceInventoryReceipt input, oi_sourceInventoryReceiptSha256 input with
  | None, None => mret tt
  | Some value, Some sha =>
      receipt ← some_or (validateGoDependencySourceInventoryReceipt sha256 value sha)
        (DependencyWatchValidationError "source inventory receipt is not canonical or recomputable");
      _ ← require_true (string_ends (":source:" +:+ sha) (oi_observationKey input))
        (DependencyWatchValidationError "source inventory receipt identity is not bound to the observation key");
      repository ← reads (owned_repository (oi_workspaceId input) (oi_repositoryId input));
      repository ← some_or repository DependencyWatchAuthorizationError;
      check_or_throw (validateSourceReceiptObservationBindings input watch (rp_name repository) receipt)
  | _, _ => throw (DependencyWatchValidationError "source inventory receipt and identity must be both absent or both present")
  end.
Definition check_observation (input : ObservationInput) : dep DependencyWatch :=
  watch ← reads (getDependencyWatch (oi_workspaceId input) (oi_watchId input));
  watch ← some_or watch DependencyWatchAuthorizationError;
  _ ← require_true (dw_repository_id watch ≡? oi_repositoryId input) DependencyWatchAuthorizationError;
  _ ← check_receipt input watch;
  mret watch.

Definition observed_at (now : Z) (input : ObservationInput) : Z := default now (oi_observedAt input).
Definition new_observation (c : Clock) (i : ObservationInput) : WatchObservation :=
  mkWatchObservation (oi_workspaceId i) (oi_watchId i) (oi_repositoryId i) (oi_trigger i) (oi_baselineSha i)
    (oi_selectedFileHashes i) (oi_observationKey i) (oi_candidateFingerprint i) (oi_sourceInventoryReceipt i)
    (oi_sourceInventoryReceiptSha256 i) (oi_status i) (oi_candidates i) (oi_errorCode i) (oi_errorMessage i)
    (observed_at (js_now c) i) (db_now c).
Definition same_observation (i : ObservationInput) (_ : string) (o : WatchObservation) : bool :=
  (ob_workspace_id o ≡? oi_workspaceId i) && (ob_repository_id o ≡? oi_repositoryId i)
  && (ob_observation_key o ≡? oi_observationKey i).
(** [INSERT ... ON CONFLICT DO NOTHING RETURNING] *)
Definition insert_observation (c : Clock) (id : string) (i : ObservationInput) : dep (option (string * WatchObservation)) :=
  λ d,
  match select_where (same_observation i) (dd_observations d) with
  | _ :: _ => inr (None, d)
  | [] =>
      match dd_observations d !! id with
      | Some _ => inl unique_violation
      | None => let o := new_observation c i in
                inr (Some (id, o), set_observations (<[id := o]> (dd_observations d)) d)
      end
  end.

Definition watch_seen (now : Z) (i : ObservationInput) (r : DependencyWatch) : DependencyWatch :=
  mkDependencyWatch (dw_workspace_id r) (dw_repository_id r) (dw_manifest_path r) (dw_lockfile_path r)
    (dw_selected_dependencies r) (dw_cadence_seconds r) (oi_baselineSha i) (oi_selectedFileHashes i)
    (if oi_status i ≡? ws_candidates then oi_candidateFingerprint i else None) (oi_status i) (oi_errorCode i)
    (oi_errorMessage i) (dw_last_trigger r) (dw_last_triggered_at r) (Some (observed_at now i)) (oi_nextCheckAt i)
    (dw_created_at r) (observed_at now i).

Record Recorded := mkRecorded {
  rr_recorded : bool;
  rr_observation : option (string * WatchObservation);
  rr_watch : option DependencyWatch;
}.
Definition recordDependencyWatchObservation (c : Clock) (id : string) (input : ObservationInput) : dep Recorded :=
  _ ← check_observation input;
  observation ← insert_observation c id input;
  watch ← update_watch (oi_workspaceId input) (oi_watchId input) (watch_seen (js_now c) input);
  mret (mkRecorded (negb (is_null observation)) observation watch).
End Observations.
