(* ===== verification/WatchFacts.v ===== *)
(** * WatchFacts: what the watches and their ledger promise

    Every call of [DepWatches] keeps the identity of the watches and only adds
    to the ledger; what any sequence of calls leaves true; and what a claim of
    the heartbeat returns. *)

From S2P Require Import Prelude Table Regex Intake Base64 JsonValue GoReceipt Tx RecordSchema DepSchema DepWatches.
From stdpp Require Import sorting.
From Stdlib Require Import QArith Qround.
Open Scope Z_scope.

(** ** What every call keeps *)

Definition watch_identity (r : DependencyWatch) : string * string * string * string * Z :=
  (dw_workspace_id r, dw_repository_id r, dw_manifest_path r, dw_lockfile_path r, dw_created_at r).
Definition same_watch (r r' : DependencyWatch) : Prop := watch_identity r = watch_identity r'.
#[export] Instance same_watch_preorder : PreOrder same_watch.
Proof. split; [by intros r|by intros x y z; unfold same_watch; congruence]. Qed.

Lemma same_triggered t now r : same_watch r (set_triggered t now r).
Proof. exact eq_refl. Qed.
Lemma same_seen now i r : same_watch r (watch_seen now i r).
Proof. exact eq_refl. Qed.
Lemma same_claimed now r : same_watch r (claimed now r).
Proof. exact eq_refl. Qed.
#[export] Hint Resolve same_triggered same_seen same_claimed : agentrail.

(** Later watches and a longer ledger; the other tables untouched. *)
Record watches_later (d d' : DepDb) : Prop := {
  wl_watches : rows same_watch (dd_watches d) (dd_watches d');
  wl_ledger : rows eq (dd_observations d) (dd_observations d');
  wl_rest : (dd_repositories d, dd_notes d, dd_contracts d, dd_events d)
            = (dd_repositories d', dd_notes d', dd_contracts d', dd_events d');
}.
#[export] Instance watches_later_preorder : PreOrder watches_later.
Proof.
  split; [intros d; split; done|].
  intros d1 d2 d3 [A1 B1 C1] [A2 B2 C2]. split; [by etrans|by etrans|congruence].
Qed.

Lemma upsert_watch_keeps c id i : keeps watches_later (upsert_watch c id i).
Proof.
  intros d a d'. unfold upsert_watch. destruct (head _) as [[k r]|] eqn:E.
  - intros [= <- <-]. apply head_Some_elem_of, elem_of_select_where in E as [Hk _].
    split; cbn; [|done|done].
    eapply rows_insert; [apply _|exact Hk|exact eq_refl].
  - destruct (dd_watches d !! id) eqn:Ei; [done|]. intros [= <- <-]. split; cbn; [|done|done].
    by apply rows_insert_fresh; [apply _|].
Qed.
Lemma update_watch_keeps w k f : (∀ r, same_watch r (f r)) → keeps watches_later (update_watch w k f).
Proof.
  intros Hf. apply keeps_runs. intros d. pose proof (rows_update_row same_watch k (in_workspace w) f (dd_watches d) (λ r _, Hf r)).
  destruct (update_row _ _ _ _) as [row t]. by split.
Qed.
Lemma insert_observation_keeps c id i : keeps watches_later (insert_observation c id i).
Proof.
  intros d a d'. unfold insert_observation. destruct (select_where _ _); [|by intros [= <- <-]].
  destruct (dd_observations d !! id) eqn:Ei; [done|]. intros [= <- <-]. split; cbn; [done| |done].
  by apply rows_insert_fresh; [apply _|].
Qed.
Lemma check_keeps x : keeps watches_later (check_or_throw x).
Proof. destruct x; [apply keeps_throw|apply keeps_ret, _]. Qed.
#[export] Hint Resolve upsert_watch_keeps update_watch_keeps insert_observation_keeps check_keeps : agentrail.
Lemma trigger_touched_keeps w paths now l : keeps watches_later (trigger_touched w paths now l).
Proof. induction l as [|[k r] l IH]; cbn [trigger_touched]; [keeps|]. destruct (touched_by paths r); keeps. Qed.
#[export] Hint Resolve trigger_touched_keeps : agentrail.
Lemma check_observation_keeps sha256 lc i : keeps watches_later (check_observation sha256 lc i).
Proof. unfold check_observation, check_receipt. keeps. Qed.
#[export] Hint Resolve check_observation_keeps : agentrail.

(** ** Histories *)

Section History.
Context (sha256 toLowerCase : string → string).
Implicit Types (d : DepDb).

(** [op_observe_cut] is a call that dies between its two writes. *)
Inductive watch_op :=
  | op_configure (c : Clock) (id : string) (i : DependencyWatchConfig)
  | op_trigger (workspaceId watchId trigger : string) (now : Z)
  | op_push (workspaceId repositoryId : string) (changedPaths : list string) (now : Z)
  | op_claim (workspaceId : string) (now : Z) (limit : Q)
  | op_observe (c : Clock) (id : string) (i : ObservationInput)
  | op_observe_cut (c : Clock) (id : string) (i : ObservationInput).

Definition observe_cut (c : Clock) (id : string) (i : ObservationInput) : dep (option (string * WatchObservation)) :=
  _ ← check_observation sha256 toLowerCase i; insert_observation c id i.

Definition exec_watch (o : watch_op) d : DepDb :=
  match o with
  | op_configure c id i => (transaction (createDependencyWatch c id i) d).2
  | op_trigger w k t now => (transaction (triggerDependencyWatch w k t now) d).2
  | op_push w r paths now => (transaction (triggerDependencyWatchesForPush w r paths now) d).2
  | op_claim w now limit => (claimDueDependencyWatches w now limit d).2
  | op_observe c id i => (transaction (recordDependencyWatchObservation sha256 toLowerCase c id i) d).2
  | op_observe_cut c id i => (transaction (observe_cut c id i) d).2
  end.
Definition exec_watches (l : list watch_op) d : DepDb := fold_left (λ d o, exec_watch o d) l d.

Lemma exec_watch_later o d : watches_later d (exec_watch o d).
Proof.
  destruct o; cbn [exec_watch].
  1-3, 5-6: apply keeps_transaction; [apply _|]; unfold createDependencyWatch, triggerDependencyWatch,
    triggerDependencyWatchesForPush, recordDependencyWatchObservation, observe_cut; keeps.
  unfold claimDueDependencyWatches. split; cbn; [|done|done].
  apply rows_update_where; [apply _|]. intros k r _. apply same_claimed.
Qed.
Lemma exec_watches_later l d : watches_later d (exec_watches l d).
Proof.
  revert d. induction l as [|o l IH]; intros d; [done|]. etrans; [apply (exec_watch_later o)|apply IH].
Qed.

(** ** The invariant of the ledger *)

Definition watch_config (r : DependencyWatch) : string * string * string * string := (watch_identity r).1.
Definition ledger_key (o : WatchObservation) : string * string * string :=
  (ob_workspace_id o, ob_repository_id o, ob_observation_key o).

(** A receipt of the ledger is admitted, and bound to its observation. *)
Definition custody (o : WatchObservation) : Prop :=
  match ob_source_inventory_receipt o, ob_source_inventory_receipt_sha256 o with
  | None, None => True
  | Some value, Some sha =>
      ∃ rc, validateGoDependencySourceInventoryReceipt sha256 value sha = Some rc
        ∧ string_ends (":source:" +:+ sha) (ob_observation_key o) = true
        ∧ ob_baseline_sha o = Some (au_commitSha (rc_authority rc))
        ∧ ob_selected_file_hashes o !! "go.mod" = Some (rf_contentSha256 (rc_goMod rc))
        ∧ ob_selected_file_hashes o !! "go.sum" = Some (rf_contentSha256 (rc_goSum rc))
        ∧ (ob_status o = ws_candidates ↔ ob_candidates o ≠ [])
  | _, _ => False
  end.

Record watch_inv d : Prop := {
  wi_config : ∀ k k' r r', dd_watches d !! k = Some r → dd_watches d !! k' = Some r' →
    watch_config r = watch_config r' → k = k';
  wi_owner : ∀ k r, dd_watches d !! k = Some r →
    is_Some (owned_repository (dw_workspace_id r) (dw_repository_id r) d);
  wi_key : ∀ k k' o o', dd_observations d !! k = Some o → dd_observations d !! k' = Some o' →
    ledger_key o = ledger_key o' → k = k';
  wi_watch : ∀ k o, dd_observations d !! k = Some o →
    ∃ r, dd_watches d !! ob_watch_id o = Some r
      ∧ dw_workspace_id r = ob_workspace_id o ∧ dw_repository_id r = ob_repository_id o;
  wi_custody : ∀ k o, dd_observations d !! k = Some o → custody o;
}.

(** A step that adds no row. *)
Record retouched (d d' : DepDb) : Prop := {
  rt_watches : updated same_watch (dd_watches d) (dd_watches d');
  rt_ledger : dd_observations d' = dd_observations d;
  rt_repositories : dd_repositories d' = dd_repositories d;
}.
#[local] Instance retouched_preorder : PreOrder retouched.
Proof.
  split; [intros d; split; [apply updated_refl, _|done|done]|].
  intros d1 d2 d3 [A1 B1 C1] [A2 B2 C2]. split; [by eapply updated_trans; [apply _|..]|congruence|congruence].
Qed.

Lemma updated_back t t' k r' : updated same_watch t t' → t' !! k = Some r' → ∃ r, t !! k = Some r ∧ same_watch r r'.
Proof. intros H Hk. specialize (H k). rewrite Hk in H. inversion H as [r x HR E|]; subst. by exists r. Qed.
Lemma updated_forth t t' k r : updated same_watch t t' → t !! k = Some r → ∃ r', t' !! k = Some r' ∧ same_watch r r'.
Proof. intros H Hk. specialize (H k). rewrite Hk in H. inversion H as [x r' HR E|]; subst. by exists r'. Qed.
Lemma same_watch_fields r r' : same_watch r r' →
  dw_workspace_id r = dw_workspace_id r' ∧ dw_repository_id r = dw_repository_id r' ∧ watch_config r = watch_config r'.
Proof.
  intros E. pose proof (f_equal (λ x, x.1.1.1.1) E) as E1. pose proof (f_equal (λ x, x.1.1.1.2) E) as E2.
  by split_and!; [exact E1|exact E2|exact (f_equal fst E)].
Qed.

Lemma inv_retouched d d' : watch_inv d → retouched d d' → watch_inv d'.
Proof.
  intros [A B C D E] [U L R]. split; rewrite ?L; [..|exact E].
  - intros k k' r r' (x & Hx & Sx)%(updated_back _ _ _ _ U) (y & Hy & Sy)%(updated_back _ _ _ _ U) Hc.
    apply same_watch_fields in Sx as (_ & _ & Cx), Sy as (_ & _ & Cy). eapply A; [done..|congruence].
  - intros k r (x & Hx & Sx)%(updated_back _ _ _ _ U). apply same_watch_fields in Sx as (<- & <- & _).
    unfold owned_repository. rewrite R. by eapply B.
  - intros k k' o o'. apply C.
  - intros k o Ho. destruct (D _ _ Ho) as (r & Hr & Hw & Hp). destruct (updated_forth _ _ _ _ U Hr) as (r' & Hr' & S).
    apply same_watch_fields in S as (S1 & S2 & _). exists r'. split_and!; congruence.
Qed.
Lemma update_watch_retouched w k f : (∀ r, same_watch r (f r)) → keeps retouched (update_watch w k f).
Proof.
  intros Hf. apply keeps_runs. intros d.
  pose proof (updated_update_row same_watch k (in_workspace w) f (dd_watches d)) as U.
  destruct (update_row _ _ _ _) as [row t]. split; [|done|done]. apply U. intros r _. apply Hf.
Qed.
#[local] Hint Resolve update_watch_retouched : agentrail.
Lemma trigger_touched_retouched w paths now l : keeps retouched (trigger_touched w paths now l).
Proof. induction l as [|[k r] l IH]; cbn [trigger_touched]; [keeps|]. destruct (touched_by paths r); keeps. Qed.
#[local] Hint Resolve trigger_touched_retouched : agentrail.

Lemma inv_upsert c id i d a d' : watch_inv d →
  is_Some (owned_repository (cf_workspaceId i) (cf_repositoryId i) d) →
  upsert_watch c id i d = inr (a, d') → watch_inv d'.
Proof.
  intros Hinv Ho. unfold upsert_watch. destruct (head _) as [[k r]|] eqn:E.
  - intros [= <- <-]. apply head_Some_elem_of, elem_of_select_where in E as [Hk _].
    apply (inv_retouched d); [done|]. split; [|done|done].
    eapply updated_insert; [apply _|exact Hk|exact eq_refl].
  - destruct (dd_watches d !! id) eqn:Ei; [done|]. intros [= <- <-]. destruct Hinv as [A B C D F].
    assert (∀ k r, dd_watches d !! k = Some r → watch_config r ≠ watch_config (new_watch c i)) as Hnew.
    { intros k r Hk [= E1 E2 E3 E4].
      assert ((k, r) ∈ select_where (same_config i) (dd_watches d)) as Hin.
      { apply elem_of_select_where. split; [done|]. unfold same_config. cbn [fst snd].
        rewrite E1, E2, E3, E4. by rewrite !bool_decide_eq_true_2 by done. }
      apply head_None in E. rewrite E in Hin. by apply not_elem_of_nil in Hin. }
    split; cbn; [| |exact C| |exact F].
    + intros k k' r r' [[<- <-]|[_ Hr]]%lookup_insert_Some [[<- <-]|[_ Hr']]%lookup_insert_Some Hc;
        [done|by destruct (Hnew _ _ Hr')|by destruct (Hnew _ _ Hr)|by eapply A].
    + intros k r [[<- <-]|[_ Hr]]%lookup_insert_Some; [exact Ho|by eapply B].
    + intros k o Hk. destruct (D _ _ Hk) as (r & Hr & Hw). exists r.
      rewrite lookup_insert_ne by congruence. done.
Qed.

Lemma check_or_throw_inr e d u d' : check_or_throw e d = inr (u, d') → e = None ∧ d' = d.
Proof. destruct e; [done|]. by intros [_ ->]%ret_inr. Qed.

(** What the checks establish of the observation they let through. *)
Lemma bindings_custody c i w name rc value sha :
  validateGoDependencySourceInventoryReceipt sha256 value sha = Some rc →
  oi_sourceInventoryReceipt i = Some value → oi_sourceInventoryReceiptSha256 i = Some sha →
  string_ends (":source:" +:+ sha) (oi_observationKey i) = true →
  validateSourceReceiptObservationBindings toLowerCase i w name rc = None →
  custody (new_observation c i).
Proof.
  intros Hv Hval Hsha Hend. unfold validateSourceReceiptObservationBindings, custody. cbn. rewrite Hval, Hsha.
  destruct (negb (go_root_watch w)); [done|]. destruct (negb (bool_decide (toLowerCase _ = _))); [done|].
  destruct (negb (sql_eq _ _)) eqn:Eb; [done|]. apply negb_false_iff, bool_decide_eq_true in Eb.
  destruct (negb (bool_decide (oi_selectedFileHashes i = _))) eqn:Eh; [done|].
  apply negb_false_iff, bool_decide_eq_true in Eh. intros Hs.
  exists rc. rewrite Eh. split_and!; [done..| |by rewrite lookup_insert_eq|].
  - by rewrite lookup_insert_ne, lookup_singleton_eq by done.
  - revert Hs. destruct (bool_decide (oi_status i = ws_candidates)) eqn:Es.
    + apply bool_decide_eq_true in Es. destruct (bool_decide (oi_candidates i = [])) eqn:Ec; [done|].
      by apply bool_decide_eq_false in Ec.
    + apply bool_decide_eq_false in Es. destruct (bool_decide (oi_candidates i = [])) eqn:Ec; [|done].
      apply bool_decide_eq_true in Ec. naive_solver.
Qed.

Lemma check_observation_inr i d w d1 : check_observation sha256 toLowerCase i d = inr (w, d1) →
  d1 = d ∧ getDependencyWatch (oi_workspaceId i) (oi_watchId i) d = Some w ∧ dw_repository_id w = oi_repositoryId i
  ∧ ∀ c, custody (new_observation c i).
Proof.
  unfold check_observation. intros H. tx_inv.
  assert (d1 = d ∧ ∀ c, custody (new_observation c i)) as [-> Hc].
  { match goal with H : check_receipt _ _ _ _ _ = _ |- _ => revert H end. unfold check_receipt.
    destruct (oi_sourceInventoryReceipt i) as [value|] eqn:Ev, (oi_sourceInventoryReceiptSha256 i) as [sha|] eqn:Es;
      intros Hck; try discriminate Hck; tx_inv.
    - match goal with H : check_or_throw _ _ = _ |- _ => apply check_or_throw_inr in H as [Hb ->] end.
      split; [done|]. intros c. by eapply bindings_custody.
    - split; [done|]. intros c. unfold custody. cbn. by rewrite Ev, Es. }
  bools. by split_and!.
Qed.

Lemma getDependencyWatch_Some w k d r : getDependencyWatch w k d = Some r → dd_watches d !! k = Some r ∧ dw_workspace_id r = w.
Proof.
  unfold getDependencyWatch. intros (x & Hx & H)%bind_Some. case_bool_decide; [|done]. by injection H as <-.
Qed.

Lemma inv_insert c id i w d d1 d' a : watch_inv d →
  check_observation sha256 toLowerCase i d = inr (w, d1) → insert_observation c id i d1 = inr (a, d') → watch_inv d'.
Proof.
  intros Hinv (-> & Hw & Hr & Hc)%check_observation_inr. apply getDependencyWatch_Some in Hw as [Hw Hws].
  unfold insert_observation. destruct (select_where _ _) eqn:Es; [|by intros [= <- <-]].
  destruct (dd_observations d !! id) eqn:Ei; [done|]. intros [= <- <-]. destruct Hinv as [A B C D F].
  assert (∀ k o, dd_observations d !! k = Some o → ledger_key o ≠ ledger_key (new_observation c i)) as Hnew.
  { intros k o Hk E. pose proof (f_equal (λ x, x.1.1) E) as E1. pose proof (f_equal (λ x, x.1.2) E) as E2.
    pose proof (f_equal snd E) as E3. cbn in E1, E2, E3.
    assert ((k, o) ∈ select_where (same_observation i) (dd_observations d)) as Hin.
    { apply elem_of_select_where. split; [done|]. unfold same_observation.
      rewrite E1, E2, E3. by rewrite !bool_decide_eq_true_2 by done. }
    rewrite Es in Hin. by apply not_elem_of_nil in Hin. }
  split; cbn; [exact A|exact B|..].
  - intros k k' o o' [[<- <-]|[_ Ho]]%lookup_insert_Some [[<- <-]|[_ Ho']]%lookup_insert_Some Hk;
      [done|by destruct (Hnew _ _ Ho')|by destruct (Hnew _ _ Ho)|by eapply C].
  - intros k o [[<- <-]|[_ Ho]]%lookup_insert_Some; [by exists w|by eapply D].
  - intros k o [[<- <-]|[_ Ho]]%lookup_insert_Some; [apply Hc|by eapply F].
Qed.

Lemma inv_exec o d : watch_inv d → watch_inv (exec_watch o d).
Proof.
  intros Hinv. destruct o; cbn [exec_watch].
  - unfold transaction. destruct (createDependencyWatch c id i d) as [e|[a d']] eqn:E; [done|]. cbn.
    unfold createDependencyWatch in E. tx_inv.
    match goal with H : check_or_throw _ _ = _ |- _ => apply check_or_throw_inr in H as [_ ->] end.
    eapply inv_upsert; [done| |done]. eauto.
  - eapply inv_retouched; [done|]. apply keeps_transaction; [apply _|]. unfold triggerDependencyWatch. keeps.
  - eapply inv_retouched; [done|]. apply keeps_transaction; [apply _|]. unfold triggerDependencyWatchesForPush. keeps.
  - eapply inv_retouched; [done|]. unfold claimDueDependencyWatches. split; cbn; [|done|done].
    intros k. rewrite lookup_update_where. destruct (dd_watches d !! k); cbn; constructor.
    destruct (bool_decide _); [apply same_claimed|done].
  - unfold transaction. destruct (recordDependencyWatchObservation _ _ c id i d) as [e|[a d']] eqn:E; [done|]. cbn.
    unfold recordDependencyWatchObservation in E. tx_inv. eapply inv_retouched; [by eapply inv_insert|].
    eapply update_watch_retouched; [|eassumption]. intros r. apply same_seen.
  - unfold transaction. destruct (observe_cut c id i d) as [e|[a d']] eqn:E; [done|]. cbn.
    unfold observe_cut in E. tx_inv. by eapply inv_insert.
Qed.

(** The tables before any call. *)
Definition fresh_watches (d : DepDb) : Prop := dd_watches d = ∅ ∧ dd_observations d = ∅.
Lemma fresh_inv d : fresh_watches d → watch_inv d.
Proof. intros [W O]. split; rewrite ?W, ?O; by intros k ?; rewrite ?lookup_empty. Qed.

(** Whatever sequence of configurations, triggers, pushes,
    claims and observations runs, also with observations that die half-way: a
    configuration names one watch and every watch is of a repository of its
    workspace; an observation key is recorded once; every observation is of a
    watch of its workspace and repository; and every source receipt in the
    ledger is admitted under its declared digest and bound to the key, the
    commit, the file hashes and the candidates of its observation. *)
Theorem watch_ledger_sound l d : fresh_watches d → watch_inv (exec_watches l d).
Proof.
  intros Hd%fresh_inv. revert d Hd. induction l as [|o l IH]; intros d Hd; [done|].
  cbn. apply IH. by apply inv_exec.
Qed.

(** The ledger is append-only and watches are permanent: no call
    changes or removes an observation, and no call removes a watch or changes
    the workspace, the repository or the paths it watches. *)
Theorem ledger_append_only l d :
  (∀ k o, dd_observations d !! k = Some o → dd_observations (exec_watches l d) !! k = Some o)
  ∧ (∀ k r, dd_watches d !! k = Some r →
       ∃ r', dd_watches (exec_watches l d) !! k = Some r' ∧ watch_identity r = watch_identity r').
Proof.
  destruct (exec_watches_later l d) as [W L _]. split.
  - intros k o Hk. destruct (L k o Hk) as (o' & Ho & <-). done.
  - intros k r Hk. apply (W k r Hk).
Qed.

(** ** A claimed watch waits for its observation *)

Definition checking (k : string) d : Prop := ∃ r, dd_watches d !! k = Some r ∧ dw_status r = ws_checking.
Definition stays_checking (k : string) d d' : Prop := checking k d → checking k d'.
#[local] Instance stays_checking_preorder k : PreOrder (stays_checking k).
Proof. split; [intros d H; exact H|intros d1 d2 d3 A B C; apply B, A, C]. Qed.

Definition observes (k : string) (o : watch_op) : bool :=
  match o with op_observe _ _ i => oi_watchId i ≡? k | _ => false end.

Lemma update_watch_checking k w k' f :
  (k' = k → ∀ r, dw_status r = ws_checking → dw_status (f r) = ws_checking) →
  keeps (stays_checking k) (update_watch w k' f).
Proof.
  intros Hf. apply keeps_runs. intros d (r & Hr & Hs). destruct (decide (k' = k)) as [->|Hne].
  - destruct (update_rowP (in_workspace w) f k (dd_watches d)) as [x Hx _|_]; cbn; [|by exists r].
    exists (f x). cbn. rewrite lookup_insert_eq. split; [done|]. apply Hf; [done|congruence].
  - pose proof (update_row_other (in_workspace w) f k' k (dd_watches d) Hne) as Ho.
    destruct (update_row _ _ _ _) as [row t]. exists r. cbn in *. by rewrite Ho.
Qed.
Lemma set_triggered_checking k w k' t now : keeps (stays_checking k) (update_watch w k' (set_triggered t now)).
Proof. by apply update_watch_checking. Qed.
#[local] Hint Resolve set_triggered_checking : agentrail.
Lemma trigger_touched_checking k w paths now l : keeps (stays_checking k) (trigger_touched w paths now l).
Proof. induction l as [|[k' r] l IH]; cbn [trigger_touched]; [keeps|]. destruct (touched_by paths r); keeps. Qed.
#[local] Hint Resolve trigger_touched_checking : agentrail.
Lemma check_or_throw_checking k e : keeps (stays_checking k) (check_or_throw e).
Proof. destruct e; [apply keeps_throw|apply keeps_ret, _]. Qed.
Lemma upsert_checking k c id i : keeps (stays_checking k) (upsert_watch c id i).
Proof.
  intros d a d' H (r & Hr & Hs). revert H. unfold upsert_watch. destruct (head _) as [[k' x]|] eqn:E.
  - intros [= <- <-]. apply head_Some_elem_of, elem_of_select_where in E as [Hx _]. cbn in Hx.
    destruct (decide (k' = k)) as [->|Hne]; unfold checking; cbn.
    + rewrite lookup_insert_eq. eexists. split; [done|]. cbn. congruence.
    + rewrite lookup_insert_ne by done. by exists r.
  - destruct (dd_watches d !! id) eqn:Ei; [done|]. intros [= <- <-]. exists r. cbn.
    rewrite lookup_insert_ne by congruence. done.
Qed.
Lemma insert_observation_checking k c id i : keeps (stays_checking k) (insert_observation c id i).
Proof.
  intros d a d'. unfold insert_observation. destruct (select_where _ _); [|intros [= <- <-] H; exact H].
  destruct (dd_observations d !! id); [done|]. intros [= <- <-] H. exact H.
Qed.
#[local] Hint Resolve check_or_throw_checking upsert_checking insert_observation_checking : agentrail.

Lemma exec_checking k o d : observes k o = false → stays_checking k d (exec_watch o d).
Proof.
  intros Hk. destruct o; cbn [exec_watch].
  1-3, 5-6: apply keeps_transaction; [apply _|]; unfold createDependencyWatch, triggerDependencyWatch,
    triggerDependencyWatchesForPush, recordDependencyWatchObservation, observe_cut, check_observation, check_receipt;
    keeps; auto.
  - apply update_watch_checking. intros <-. cbn in Hk. by rewrite bool_decide_eq_true_2 in Hk.
  - intros (r & Hr & Hs). unfold checking, claimDueDependencyWatches. cbn. rewrite lookup_update_where, Hr. cbn.
    eexists. split; [done|]. by destruct (bool_decide _).
Qed.

Lemma exec_checkings k l d : Forall (λ o, observes k o = false) l → stays_checking k d (exec_watches l d).
Proof.
  intros Hl. revert d. induction Hl as [|o l Ho _ IH]; intros d H; [exact H|]. cbn. by apply IH, exec_checking.
Qed.

(** The watches a claim may take. *)
Definition claimable (w : string) (now : Z) (r : DependencyWatch) : bool :=
  is_due w now r && negb (dw_status r ≡? ws_checking).

Lemma due_rows_in w now limit d k r : (k, r) ∈ due_rows w now limit d →
  dd_watches d !! k = Some r ∧ claimable w now r = true.
Proof. by intros H%elem_of_page%elem_of_select_where. Qed.

Lemma claim_returns w now limit d k r' : (k, r') ∈ (claimDueDependencyWatches w now limit d).1 ↔
  ∃ r, (k, r) ∈ due_rows w now limit d ∧ r' = claimed now r.
Proof.
  unfold claimDueDependencyWatches. cbn. rewrite elem_of_select_where, lookup_update_where, bool_decide_eq_true. split.
  - intros [H Hin]. apply list_elem_of_fmap in Hin as ([k1 r] & -> & Hin). cbn in H.
    destruct (due_rows_in _ _ _ _ _ _ Hin) as [Hr _]. rewrite Hr in H. cbn in H.
    rewrite bool_decide_eq_true_2 in H by (apply list_elem_of_fmap; by exists (k1, r)). injection H as <-. by exists r.
  - intros (r & Hin & ->). assert (k ∈ (due_rows w now limit d).*1) as Hk by (apply list_elem_of_fmap; by exists (k, r)).
    split; [|done]. destruct (due_rows_in _ _ _ _ _ _ Hin) as [-> _]. cbn. by rewrite bool_decide_eq_true_2.
Qed.

(** A watch a heartbeat claimed is not claimed again before an
    observation of it is recorded, whatever other calls run in between, at
    whatever time, and also when its checker died after writing the ledger. *)
Theorem claimed_until_observed w now limit k r l w' now' limit' d :
  (k, r) ∈ (claimDueDependencyWatches w now limit d).1 →
  Forall (λ o, observes k o = false) l →
  ∀ r', (k, r') ∉ (claimDueDependencyWatches w' now' limit'
                    (exec_watches l (claimDueDependencyWatches w now limit d).2)).1.
Proof.
  intros Hc Hl r' (x & Hx & _)%claim_returns. apply due_rows_in in Hx as [Hx Hcl].
  assert (checking k (claimDueDependencyWatches w now limit d).2) as Hk.
  { unfold checking, claimDueDependencyWatches in *. cbn in *. apply elem_of_select_where in Hc as [Hc Hin].
    exists r. split; [done|]. rewrite lookup_update_where in Hc. destruct (dd_watches d !! k); [|done].
    cbn in Hc, Hin. rewrite Hin in Hc. by injection Hc as <-. }
  destruct (exec_checkings k l _ Hl Hk) as (y & Hy & Hs). unfold claimable in Hcl. bools.
  match goal with H : dw_status x ≠ _ |- _ => apply H end. congruence.
Qed.

(** ** The order of the claims *)

Lemma page_order {A} (key : A → Z) n l x y :
  x ∈ order_limit key n l → y ∈ l → y ∉ order_limit key n l → key x.2 ≤ key y.2 ∧ length (order_limit key n l) = n.
Proof.
  unfold order_limit, order_by. intros Hx Hy Hny. rewrite <- (merge_sort_Permutation (earlier key) l) in Hy.
  assert (Sorted.StronglySorted (earlier key) (merge_sort (earlier key) l)) as Hs.
  { apply StronglySorted_merge_sort; unfold earlier; [intros a b c; lia|intros a b; lia]. }
  revert Hx Hy Hny Hs. generalize (merge_sort (earlier key) l). clear l. intros l Hx Hy Hny Hs.
  rewrite <- (take_drop n l) in Hy, Hs. apply elem_of_app in Hy as [Hy|Hy]; [done|].
  split.
  - clear Hny. revert Hs Hx. generalize (take n l). intros t.
    induction t as [|z t IH]; intros Hs Hx; [by apply not_elem_of_nil in Hx|].
    apply Sorted.StronglySorted_inv in Hs as [Hs Hz]. apply elem_of_cons in Hx as [->|Hx]; [|by apply IH].
    rewrite Forall_forall in Hz. apply (Hz y). apply elem_of_app. by right.
  - rewrite length_take. apply Nat.min_l. destruct (decide (n ≤ length l)%nat); [done|].
    rewrite drop_ge in Hy by lia. by apply not_elem_of_nil in Hy.
Qed.

(** What a claim takes: only watches of the workspace that
    have a cadence, are due and are not being checked; each becomes checking,
    scheduled one cadence ahead, and is returned so; at most 100 (and at most
    the limit, when it is at least one); every other watch is untouched; and a
    watch that could have been taken is left only when the limit is reached
    and all that were taken were due no later. *)
Theorem claim_due_exact w now limit d :
  let res := claimDueDependencyWatches w now limit d in
  (∀ k r', (k, r') ∈ res.1 → dd_watches res.2 !! k = Some r' ∧
     ∃ r, dd_watches d !! k = Some r ∧ claimable w now r = true ∧ r' = claimed now r)
  ∧ (∀ k, k ∉ res.1.*1 → dd_watches res.2 !! k = dd_watches d !! k)
  ∧ (length (due_rows w now limit d) ≤ Z.to_nat (safe_limit limit) ∧ Z.to_nat (safe_limit limit) ≤ 100)%nat
  ∧ (∀ k r, dd_watches d !! k = Some r → claimable w now r = true → k ∉ res.1.*1 →
       length (due_rows w now limit d) = Z.to_nat (safe_limit limit)
       ∧ ∀ k' r', (k', r') ∈ due_rows w now limit d → due_order r' ≤ due_order r).
Proof.
  intros res.
  assert (∀ k, k ∉ res.1.*1 → k ∉ (due_rows w now limit d).*1) as Hout.
  { intros k Hk ([k1 r] & -> & Hin)%list_elem_of_fmap. apply Hk, list_elem_of_fmap. exists (k1, claimed now r).
    split; [done|]. apply claim_returns. by exists r. }
  split_and!.
  - intros k r' Hin. split; [|apply claim_returns in Hin as (r & Hin & ->); apply due_rows_in in Hin as [? ?]; by exists r].
    unfold res, claimDueDependencyWatches in *. cbn in *. by apply elem_of_select_where in Hin as [? _].
  - intros k Hk. unfold res, claimDueDependencyWatches. cbn. rewrite lookup_update_where.
    rewrite bool_decide_eq_false_2 by by apply Hout. by destruct (dd_watches d !! k).
  - unfold due_rows, order_limit. rewrite length_take. lia.
  - unfold safe_limit. lia.
  - intros k r Hr Hc Hk. specialize (Hout k Hk).
    assert ((k, r) ∉ due_rows w now limit d) as Hno by (intros H; apply Hout, list_elem_of_fmap; by exists (k, r)).
    assert ((k, r) ∈ select_where (λ _ r, is_due w now r && negb (dw_status r ≡? ws_checking)) (dd_watches d)) as Hin
      by by apply elem_of_select_where.
    split.
    + destruct (due_rows w now limit d) as [|x rows] eqn:E.
      * exfalso. unfold due_rows, order_limit in E. apply (f_equal length) in E. rewrite length_take in E. cbn in E.
        unfold order_by in E. rewrite merge_sort_Permutation in E.
        destruct (select_where _ _); [by apply not_elem_of_nil in Hin|]. cbn in E. unfold safe_limit in E. lia.
      * rewrite <- E. rewrite <- E in Hno. eapply (page_order due_order _ _ x (k, r)); [|done|exact Hno].
        fold (due_rows w now limit d). rewrite E. left.
    + intros k' r' Hk'. by eapply (page_order due_order _ _ (k', r') (k, r)).
Qed.
End History.

(** ** A workspace with one repository *)

Module SampleWatch.
Definition clock (t : Z) : Clock := mkClock t t.
Definition db : DepDb := mkDepDb {["repo" := mkRepository "ws" "Acme/API"]} ∅ ∅ ∅ ∅ ∅.
Definition config : DependencyWatchConfig := mkDependencyWatchConfig "ws" "repo" None None None (Some 60%Q).
Definition configured : watch_op := op_configure (clock 0) "watch" config.
Definition lc (s : string) : string := lower s.
Definition run (l : list watch_op) : DepDb := exec_watches SampleReceipt.digest lc l db.
(** An observation with the receipt of [SampleReceipt]. *)
Definition observed (key : string) (at_ : Z) : ObservationInput :=
  mkObservationInput "ws" "watch" "repo" tr_scheduled (Some SampleReceipt.commit)
    (<["go.sum" := SampleReceipt.digest ""]> {["go.mod" := SampleReceipt.digest ""]})
    (key +:+ ":source:" +:+ SampleReceipt.digest "") None (Some SampleReceipt.value) (Some (SampleReceipt.digest ""))
    ws_unchanged [] None None (Some at_) (Some (at_ + 60000)).
(** One without a receipt. *)
Definition plain (key sha : string) (at_ : Z) : ObservationInput :=
  mkObservationInput "ws" "watch" "repo" tr_push (Some sha) ∅ key None None None ws_unchanged [] None None
    (Some at_) (Some (at_ + 60000)).
End SampleWatch.

Lemma watch_ledger_sound_witness :
  watch_inv SampleReceipt.digest (SampleWatch.run [SampleWatch.configured; op_observe (SampleWatch.clock 5) "obs" (SampleWatch.observed "k" 5)]).
Proof.
  exact (watch_ledger_sound SampleReceipt.digest SampleWatch.lc
    [SampleWatch.configured; op_observe (SampleWatch.clock 5) "obs" (SampleWatch.observed "k" 5)] SampleWatch.db
    (conj eq_refl eq_refl)).
Defined.
(** In that run the observation and its receipt are recorded. *)
Example sample_observation_recorded :
  ob_source_inventory_receipt_sha256 <$> dd_observations
    (SampleWatch.run [SampleWatch.configured; op_observe (SampleWatch.clock 5) "obs" (SampleWatch.observed "k" 5)]) !! "obs"
  = Some (Some (SampleReceipt.digest "")).
Proof. by vm_compute. Qed.

Definition sample_claim : list (string * DependencyWatch) * DepDb :=
  claimDueDependencyWatches "ws" 60000 25%Q (SampleWatch.run [SampleWatch.configured]).
Lemma sample_claimed : ("watch", claimed 60000 (new_watch (SampleWatch.clock 0) SampleWatch.config)) ∈ sample_claim.1.
Proof. vm_compute. left. Qed.
Lemma claimed_until_observed_witness :
  let w := claimed 60000 (new_watch (SampleWatch.clock 0) SampleWatch.config) in
  ("watch", w) ∈ sample_claim.1
  ∧ ("watch", w) ∉ (claimDueDependencyWatches "ws" 9999999 100%Q
      (exec_watches SampleReceipt.digest SampleWatch.lc [op_trigger "ws" "watch" "manual" 70000] sample_claim.2)).1.
Proof.
  assert (Forall (λ o, observes "watch" o = false) [op_trigger "ws" "watch" "manual" 70000]) as Hl
    by (repeat constructor).
  split; [exact sample_claimed|].
  exact (claimed_until_observed SampleReceipt.digest SampleWatch.lc "ws" 60000 25%Q "watch"
    (claimed 60000 (new_watch (SampleWatch.clock 0) SampleWatch.config))
    [op_trigger "ws" "watch" "manual" 70000] "ws" 9999999 100%Q (SampleWatch.run [SampleWatch.configured])
    sample_claimed Hl (claimed 60000 (new_watch (SampleWatch.clock 0) SampleWatch.config))).
Defined.

(** A repeated delivery of an observation is not recorded again, but it is
    written over the watch: it takes the watch back to the older commit. *)
Theorem retry_rolls_watch_back :
  let d := SampleWatch.run [SampleWatch.configured;
    op_observe (SampleWatch.clock 1) "o1" (SampleWatch.plain "k1" "old" 1);
    op_observe (SampleWatch.clock 2) "o2" (SampleWatch.plain "k2" "new" 2);
    op_observe (SampleWatch.clock 3) "o3" (SampleWatch.plain "k1" "old" 1)] in
  dd_observations d !! "o3" = None
  ∧ (dw_last_checked_sha <$> dd_watches d !! "watch") = Some (Some "old")
  ∧ (ob_observed_at <$> dd_observations d !! "o2") = Some 2.
Proof. by vm_compute. Qed.
