(* ===== verification/GoSumdb.v ===== *)
(** * GoSumdb: custody of the signed tree notes of the Go checksum database

    [queries/go_sumdb_note_custody.ts]: the notes of a watch are a chain in
    which each names the digest and the generation of the one before.  The
    advisory lock makes each call one step.  [sha256] gives the lowercase
    hexadecimal digest of a string of bytes. *)

From S2P Require Import Prelude Table Regex Intake JsonText Base64 JsonValue GoReceipt Tx RecordSchema DepSchema DepWatches.
From Stdlib Require Import Ascii QArith.
From Stdlib Require String.
Open Scope Z_scope.

Definition MAX_GO_SUMDB_SIGNED_TREE_NOTE_BYTES : Z := 4 * 1024.
Definition MAX_GO_SUMDB_SIGNED_TREE_NOTE_BASE64_BYTES : Z := 4 * ((MAX_GO_SUMDB_SIGNED_TREE_NOTE_BYTES + 2) / 3).
Definition GO_SUMDB_SIGNED_TREE_NOTE_FORMAT_PROFILE : string := "go_sumdb_v1_retained_signed_tree_note_bytes".
Definition INPUT_KEYS : list string :=
  ["expectedPriorSignedTreeNoteSha256"; "repositoryId"; "signedTreeNoteBase64"; "signedTreeNoteSha256";
   "sourceObservationId"; "watchId"; "workspaceId"].

Definition first_in (chars s : string) : bool :=
  match s with String c _ => one_of chars c | EmptyString => false end.
(** [UUID] *)
Definition lower_uuid (s : string) : bool :=
  match split_on "-" s with
  | [a; b; c; d; e] =>
      lower_hex 8 a && lower_hex 4 b && lower_hex 4 c && first_in "12345" c && lower_hex 4 d && first_in "89ab" d
      && lower_hex 12 e
  | _ => false
  end.

Record NoteKey := mkNoteKey { nk_workspaceId : string; nk_watchId : string; nk_repositoryId : string }.
#[export] Instance NoteKey_eq_dec : EqDecision NoteKey.
Proof. solve_decision. Defined.
Record RetainInput := mkRetainInput {
  ri_key : NoteKey;
  ri_sourceObservationId : string;
  ri_expectedPrior : option string;
  ri_base64 : string;
  ri_sha256 : string;
}.

(** ** Validation *)

(** [validate x f]: the checks that throw, in order. *)
Definition dep_result (A : Type) : Type := DepError + A.
#[export] Instance dep_result_bind : MBind dep_result := λ A B f m, match m with inl e => inl e | inr a => f a end.
Definition ensure (b : bool) (e : DepError) : dep_result unit := if b then inr tt else inl e.
Definition or_error {A} (x : option A) (e : DepError) : dep_result A := match x with Some a => inr a | None => inl e end.

Definition note_invalid (m : string) : DepError := GoSumdbNoteCustodyValidationError m.
Definition validatedUuid (name : string) (v : json) : dep_result string :=
  or_error (text_test v name lower_uuid) (note_invalid (name +:+ " must be a lowercase UUID")).
Definition validated_key (v : json) : dep_result NoteKey :=
  workspaceId ← validatedUuid "workspaceId" v;
  watchId ← validatedUuid "watchId" v;
  repositoryId ← validatedUuid "repositoryId" v;
  inr (mkNoteKey workspaceId watchId repositoryId).
Definition is_object (v : json) : bool := match v with JObj _ => true | _ => false end.
Definition validatedReadInput (v : json) : dep_result NoteKey :=
  _ ← ensure (is_object v) (note_invalid "note custody read must be an object");
  _ ← ensure (hasExactKeys v ["repositoryId"; "watchId"; "workspaceId"])
        (note_invalid "note custody read must contain exactly workspace, watch, and repository IDs");
  validated_key v.

(** [null], or a digest. *)
Definition expected_prior (v : json) : option (option string) :=
  match json_field v "expectedPriorSignedTreeNoteSha256" with
  | Some JNull => Some None
  | Some (JStr s) => if SOURCE_SHA256 s then Some (Some s) else None
  | _ => None
  end.

Section Custody.
Context (sha256 : string → string).

Definition validatedRawSignedTreeNote (v : json) : dep_result RetainInput :=
  _ ← ensure (is_object v) (note_invalid "signed tree note custody must be an object");
  _ ← ensure (hasExactKeys v INPUT_KEYS)
        (note_invalid "signed tree note custody must contain exactly the opaque custody keys");
  key ← validated_key v;
  sourceObservationId ← validatedUuid "sourceObservationId" v;
  prior ← or_error (expected_prior v)
    (note_invalid "expected prior signed tree note SHA-256 must be null or lowercase hexadecimal");
  base64 ← or_error (text_test v "signedTreeNoteBase64" (λ s,
      (s ≢? "") && (byteLength s <=? MAX_GO_SUMDB_SIGNED_TREE_NOTE_BASE64_BYTES) && base64_shape s))
    (note_invalid "signed tree note must be bounded canonical base64");
  sha ← or_error (text_test v "signedTreeNoteSha256" SOURCE_SHA256)
    (note_invalid "signed tree note SHA-256 must be lowercase hexadecimal");
  let rawNote := base64_decode base64 in
  _ ← ensure ((rawNote ≢? "") && (byteLength rawNote <=? MAX_GO_SUMDB_SIGNED_TREE_NOTE_BYTES)
              && (base64_encode rawNote ≡? base64))
        (note_invalid "signed tree note base64 is not canonical or exceeds the byte limit");
  _ ← ensure (sha256 rawNote ≡? sha) (note_invalid "signed tree note SHA-256 does not match its raw bytes");
  inr (mkRetainInput key sourceObservationId prior base64 sha).

(** ** Statements *)

Definition note_key (n : TreeNote) : NoteKey := mkNoteKey (tn_workspace_id n) (tn_watch_id n) (tn_repository_id n).
Definition of_key (key : NoteKey) (_ : string) (n : TreeNote) : bool := note_key n ≡? key.
(** [ORDER BY generation DESC LIMIT 1] *)
Definition current_note (key : NoteKey) (d : DepDb) : option (string * TreeNote) :=
  newest tn_generation (select_where (of_key key) (dd_notes d)).

(** The receipt digest of the source observation, when it has one. *)
Definition source_receipt (i : RetainInput) (d : DepDb) : option string :=
  o ← dd_observations d !! ri_sourceObservationId i;
  if (ob_workspace_id o ≡? nk_workspaceId (ri_key i)) && (ob_watch_id o ≡? nk_watchId (ri_key i))
     && (ob_repository_id o ≡? nk_repositoryId (ri_key i))
  then match ob_source_inventory_receipt_sha256 o with Some EmptyString => None | r => r end
  else None.

(** The unique indexes of the table a new row would break. *)
Definition note_clash (n : TreeNote) (_ : string) (m : TreeNote) : bool :=
  (tn_watch_id m ≡? tn_watch_id n)
  && ((tn_generation m ≡? tn_generation n) || (tn_signed_tree_note_sha256 m ≡? tn_signed_tree_note_sha256 n)
      || match tn_expected_prior_signed_tree_note_sha256 n with
         | Some p => sql_eq (tn_expected_prior_signed_tree_note_sha256 m) p
         | None => false
         end).
(** [watchIdentityFk] *)
Definition watch_of_key (key : NoteKey) (d : DepDb) : bool :=
  match dd_watches d !! nk_watchId key with
  | Some r => (dw_workspace_id r ≡? nk_workspaceId key) && (dw_repository_id r ≡? nk_repositoryId key)
  | None => false
  end.
Definition MAX_INTEGER : Z := 2147483647.
(** [lineageCheck], [shaCheck], the range of an integer column. *)
Definition note_checks (n : TreeNote) : bool :=
  (tn_generation n <=? MAX_INTEGER) && SOURCE_SHA256 (tn_source_inventory_receipt_sha256 n)
  && match tn_expected_prior_signed_tree_note_sha256 n, tn_expected_prior_generation n with
     | None, None => tn_generation n =? 0
     | Some p, Some g => (0 <? tn_generation n) && (g =? tn_generation n - 1) && (p ≢? tn_signed_tree_note_sha256 n)
     | _, _ => false
     end.
Definition insert_note (id : string) (n : TreeNote) : tx DepError DepDb (string * TreeNote) := λ d,
  if negb (note_checks n) || negb (watch_of_key (note_key n) d) then inl constraint_violation
  else match dd_notes d !! id, select_where (note_clash n) (dd_notes d) with
       | None, [] => inr ((id, n), set_notes (<[id := n]> (dd_notes d)) d)
       | _, _ => inl unique_violation
       end.

Definition new_note (c : Clock) (i : RetainInput) (receipt : string) (prior : option string) (priorGen : option Z)
    (generation : Z) : TreeNote :=
  mkTreeNote (nk_workspaceId (ri_key i)) (nk_watchId (ri_key i)) (nk_repositoryId (ri_key i)) (ri_sourceObservationId i)
    receipt GO_SUMDB_SIGNED_TREE_NOTE_FORMAT_PROFILE (ri_base64 i) (ri_sha256 i) prior priorGen generation (db_now c).

(** The stored note is the one the call asks for. *)
Definition same_note (i : RetainInput) (receipt : string) (n : TreeNote) : bool :=
  (note_key n ≡? ri_key i) && (tn_source_observation_id n ≡? ri_sourceObservationId i)
  && (tn_source_inventory_receipt_sha256 n ≡? receipt)
  && (tn_format_profile n ≡? GO_SUMDB_SIGNED_TREE_NOTE_FORMAT_PROFILE)
  && (tn_signed_tree_note_base64 n ≡? ri_base64 i) && (tn_signed_tree_note_sha256 n ≡? ri_sha256 i)
  && (tn_expected_prior_signed_tree_note_sha256 n ≡? ri_expectedPrior i).

(** The insert of a successor: a unique violation is a conflict. *)
Definition insert_successor (id : string) (n : TreeNote) : tx DepError DepDb (string * TreeNote) := λ d,
  match insert_note id n d with
  | inl unique_violation =>
      inl (GoSumdbNoteCustodyConflictError "signed tree note successor conflicts with retained custody")
  | r => r
  end.

Record RetainResult := mkRetainResult { rn_recorded : bool; rn_id : string; rn_note : TreeNote }.
Definition recorded_note (kn : string * TreeNote) : RetainResult := mkRetainResult true kn.1 kn.2.

(** The transaction of [retainGoSumdbSignedTreeNote], on a validated input. *)
Definition retain_validated (c : Clock) (id : string) (i : RetainInput) : tx DepError DepDb RetainResult :=
  receipt ← reads (source_receipt i);
  receipt ← some_or receipt
    (GoSumdbNoteCustodyAuthorizationError "source observation custody is missing or not authorized");
  current ← reads (current_note (ri_key i));
  match current with
  | Some (k, n) =>
      if same_note i receipt n then mret (mkRetainResult false k n) else
      if is_null (ri_expectedPrior i) || negb (sql_eq (ri_expectedPrior i) (tn_signed_tree_note_sha256 n))
         || sql_eq (ri_expectedPrior i) (ri_sha256 i) || (tn_generation n <? 0)
      then throw (GoSumdbNoteCustodyConflictError "signed tree note successor does not match the current generation")
      else
        kn ← insert_successor id (new_note c i receipt (ri_expectedPrior i) (Some (tn_generation n)) (tn_generation n + 1));
        mret (recorded_note kn)
  | None =>
      _ ← require_true (is_null (ri_expectedPrior i))
        (GoSumdbNoteCustodyConflictError "signed tree note bootstrap requires a null expected prior digest");
      kn ← insert_note id (new_note c i receipt None None 0);
      mret (recorded_note kn)
  end.
Definition lift_result {A} (r : dep_result A) : tx DepError DepDb A := λ d, match r with inl e => inl e | inr a => inr (a, d) end.
Definition retainGoSumdbSignedTreeNote (c : Clock) (id : string) (v : json) : tx DepError DepDb RetainResult :=
  i ← lift_result (validatedRawSignedTreeNote v);
  retain_validated c id i.

Definition readCurrentGoSumdbSignedTreeNote (v : json) (d : DepDb) : dep_result (option (string * TreeNote)) :=
  key ← validatedReadInput v; inr (current_note key d).

Definition deleteGoSumdbSignedTreeNoteCustodyForWatchTeardown (v : json) : tx DepError DepDb Z :=
  key ← lift_result (validatedReadInput v);
  watch ← reads (watch_of_key key);
  _ ← require_true watch
    (GoSumdbNoteCustodyAuthorizationError "watch custody is missing or not authorized for teardown");
  runs (λ d, (Z.of_nat (count_where (of_key key) (dd_notes d)),
              set_notes (filter (λ kn, of_key key kn.1 kn.2 = false) (dd_notes d)) d)).
End Custody.
