(* ===== verification/GoSumdbFacts.v ===== *)
(** * GoSumdbFacts: the notes of a watch are one append-only log

    The abstract log a watch's notes stand for, with compare-and-swap; the
    proof that the queries of [GoSumdb] implement it; and that every history,
    the calls of [DepWatches] included, leaves such logs. *)

From S2P Require Import Prelude Table Regex Intake JsonText Base64 JsonValue GoReceipt Tx RecordSchema DepSchema DepWatches WatchFacts GoSumdb.
From Stdlib Require Import Ascii QArith.
From Stdlib Require String.
Open Scope Z_scope.

(** ** The abstract log *)

Record LogEntry := mkLogEntry { le_observation : string; le_receipt : string; le_base64 : string; le_sha : string }.
#[export] Instance LogEntry_eq_dec : EqDecision LogEntry.
Proof. solve_decision. Defined.
Notation note_log := (list LogEntry).

Definition entry_of_input (i : RetainInput) (receipt : string) : LogEntry :=
  mkLogEntry (ri_sourceObservationId i) receipt (ri_base64 i) (ri_sha256 i).
Definition prior_at (log : note_log) (i : nat) : option string :=
  match i with O => None | S j => le_sha <$> log !! j end.

(** What a call does to the log: [None] is a conflict, [false] a replay. *)
Definition spec_retain (log : note_log) (expected : option string) (e : LogEntry) : option (bool * note_log) :=
  match last log with
  | None => if is_null expected then Some (true, [e]) else None
  | Some x =>
      if bool_decide (x = e) && (expected ≡? prior_at log (length log - 1)) then Some (false, log)
      else if sql_eq expected (le_sha x) && bool_decide (le_sha e ∉ le_sha <$> log) then Some (true, log ++ [e])
      else None
  end.

(** ** The notes that stand for a log *)

Definition entry_of (n : TreeNote) : LogEntry :=
  mkLogEntry (tn_source_observation_id n) (tn_source_inventory_receipt_sha256 n) (tn_signed_tree_note_base64 n)
    (tn_signed_tree_note_sha256 n).

(** [n] is the note of generation [i]. *)
Definition stands_for (log : note_log) (i : nat) (n : TreeNote) : Prop :=
  log !! i = Some (entry_of n) ∧ tn_generation n = Z.of_nat i
  ∧ tn_expected_prior_signed_tree_note_sha256 n = prior_at log i
  ∧ tn_format_profile n = GO_SUMDB_SIGNED_TREE_NOTE_FORMAT_PROFILE.

Record represents (d : DepDb) (key : NoteKey) (log : note_log) : Prop := {
  rp_in : ∀ k n, dd_notes d !! k = Some n → note_key n = key → ∃ i, stands_for log i n;
  rp_out : ∀ i, (i < length log)%nat → ∃ k n, dd_notes d !! k = Some n ∧ note_key n = key ∧ stands_for log i n;
  rp_one : ∀ k k' n n', dd_notes d !! k = Some n → dd_notes d !! k' = Some n' →
    note_key n = key → note_key n' = key → tn_generation n = tn_generation n' → k = k';
  rp_distinct : NoDup (le_sha <$> log);
}.
Record note_logs (d : DepDb) (L : NoteKey → note_log) : Prop := {
  nl_watch : ∀ k n, dd_notes d !! k = Some n → watch_of_key (note_key n) d = true;
  nl_represents : ∀ key, represents d key (L key);
}.

Lemma prior_at_app log e i : (i ≤ length log)%nat → prior_at (log ++ [e]) i = prior_at log i.
Proof. destruct i as [|i]; [done|]. intros Hi. unfold prior_at. by rewrite lookup_app_l by lia. Qed.
Lemma stands_for_app log e i n : stands_for log i n → stands_for (log ++ [e]) i n.
Proof.
  intros (Hl & Hg & Hp & Hf). pose proof (lookup_lt_Some _ _ _ Hl) as Hlt.
  split_and!; [by rewrite lookup_app_l|done|by rewrite prior_at_app by lia|done].
Qed.

Lemma watch_key_one key key' d : watch_of_key key d = true → watch_of_key key' d = true →
  nk_watchId key = nk_watchId key' → key = key'.
Proof.
  destruct key as [w k r], key' as [w' k' r']. unfold watch_of_key. cbn. intros H H' ->.
  destruct (dd_watches d !! k') as [x|]; [|done]. bools. congruence.
Qed.

Lemma newest_Some {A} (key : A → Z) l k r : newest key l = Some (k, r) →
  (k, r) ∈ l ∧ ∀ k' r', (k', r') ∈ l → key r' ≤ key r.
Proof.
  unfold newest. intros [Hin Hmax]%oldest_Some. split; [done|]. intros k' r' H. specialize (Hmax _ _ H). lia.
Qed.

Lemma empty_logs d : dd_notes d = ∅ → note_logs d (λ _, []).
Proof.
  intros Hn. split; [rewrite Hn; by intros k n ?|].
  intros key. split; rewrite ?Hn; [by intros k n ?|cbn; lia|by intros k k' n n' ?|constructor].
Qed.

(** The current note is the last entry of the log. *)
Lemma current_note_log d key log : represents d key log →
  match current_note key d with
  | Some (k, n) => dd_notes d !! k = Some n ∧ note_key n = key ∧ ∃ j, length log = S j ∧ stands_for log j n
  | None => log = []
  end.
Proof.
  intros [Hin Hout _ _]. unfold current_note. destruct (newest _ _) as [[k n]|] eqn:E.
  - apply newest_Some in E as [[Hk Hkey]%elem_of_select_where Hmax]. unfold of_key in Hkey. bools.
    split_and!; [done|done|]. destruct (Hin k n Hk) as (i & Hl & Hg & Hp & Hf); [done|].
    pose proof (lookup_lt_Some _ _ _ Hl) as Hlt. destruct (length log) as [|j] eqn:Ej; [lia|].
    exists j. split; [done|]. destruct (Hout j) as (k' & n' & Hk' & Hkey' & Hs'); [lia|].
    assert (tn_generation n' ≤ tn_generation n) as Hle.
    { apply (Hmax k'). apply elem_of_select_where. split; [done|]. unfold of_key. by apply bool_decide_eq_true_2. }
    destruct Hs' as (_ & Hg' & _). assert (i = j) as -> by lia. by split_and!.
  - unfold newest in E. apply oldest_None in E. destruct log as [|e log]; [done|].
    destruct (Hout 0%nat) as (k & n & Hk & Hkey & _); [cbn; lia|].
    assert ((k, n) ∈ select_where (of_key key) (dd_notes d)) as H.
    { apply elem_of_select_where. split; [done|]. unfold of_key. by apply bool_decide_eq_true_2. }
    rewrite E in H. by apply not_elem_of_nil in H.
Qed.

(** ** Appending *)

Definition log_set (key : NoteKey) (log : note_log) (L : NoteKey → note_log) : NoteKey → note_log :=
  λ k, if bool_decide (k = key) then log else L k.
Lemma log_set_eq key log L : log_set key log L key = log.
Proof. unfold log_set. by rewrite bool_decide_eq_true_2. Qed.
Lemma log_set_ne key key' log L : key' ≠ key → log_set key log L key' = L key'.
Proof. intros. unfold log_set. by rewrite bool_decide_eq_false_2. Qed.

(** A note that would be the next of its log. *)
Definition next_note (L : NoteKey → note_log) (n : TreeNote) : Prop :=
  stands_for (L (note_key n) ++ [entry_of n]) (length (L (note_key n))) n
  ∧ tn_signed_tree_note_sha256 n ∉ le_sha <$> L (note_key n).

Lemma next_no_clash d L n : note_logs d L → watch_of_key (note_key n) d = true → next_note L n →
  select_where (note_clash n) (dd_notes d) = [].
Proof.
  intros [Hw Hr] Hn [(_ & Hg & Hp & _) Hnew]. destruct (select_where _ _) as [|[k m] l] eqn:E; [done|exfalso].
  assert ((k, m) ∈ select_where (note_clash n) (dd_notes d)) as Hin by (rewrite E; left). clear E.
  apply elem_of_select_where in Hin as [Hk Hc]. unfold note_clash in Hc. apply andb_true_iff in Hc as [Hwatch Hc].
  apply bool_decide_eq_true in Hwatch.
  assert (note_key m = note_key n) as Hkey by (eapply watch_key_one; [by eapply Hw|done|done]).
  destruct (Hr (note_key n)) as [Hin _ _ Hd]. destruct (Hin k m Hk Hkey) as (i & Hl & Hgm & Hpm & _).
  pose proof (lookup_lt_Some _ _ _ Hl) as Hlt.
  apply orb_true_iff in Hc as [[Hc|Hc]%orb_true_iff|Hc].
  - apply bool_decide_eq_true in Hc. lia.
  - apply bool_decide_eq_true in Hc. apply Hnew. rewrite <- Hc. apply list_elem_of_fmap.
    exists (entry_of m). split; [done|by eapply list_elem_of_lookup_2].
  - rewrite prior_at_app in Hp by lia. destruct (tn_expected_prior_signed_tree_note_sha256 n) as [p|]; [|done].
    apply bool_decide_eq_true in Hc. rewrite Hpm in Hc. destruct i as [|i], (length (L (note_key n))) as [|j] eqn:Ej; try done.
    unfold prior_at in Hc, Hp. rewrite <- list_lookup_fmap in Hc, Hp.
    assert (i = j) by (eapply (NoDup_lookup _ _ _ _ Hd); [exact Hc|by rewrite Hp]). lia.
Qed.

Lemma insert_note_logs d L id n : note_logs d L → dd_notes d !! id = None → watch_of_key (note_key n) d = true →
  next_note L n →
  note_logs (set_notes (<[id := n]> (dd_notes d)) d) (log_set (note_key n) (L (note_key n) ++ [entry_of n]) L).
Proof.
  intros [Hw Hr] Hid Hn [Hs Hnew]. split; cbn [dd_notes set_notes].
  - intros k m [[<- <-]|[_ Hk]]%lookup_insert_Some; [done|by eapply Hw].
  - intros key. destruct (decide (key = note_key n)) as [->|Hne].
    + rewrite log_set_eq. destruct (Hr (note_key n)) as [Hin Hout Hone Hd].
      assert (∀ k m, dd_notes d !! k = Some m → note_key m = note_key n → tn_generation m ≠ tn_generation n) as Hgen.
      { intros k m Hk Hkey. destruct (Hin k m Hk Hkey) as (i & Hl & Hg & _). pose proof (lookup_lt_Some _ _ _ Hl).
        destruct Hs as (_ & Hg' & _). lia. }
      split; cbn.
      * intros k m [[<- <-]|[_ Hk]]%lookup_insert_Some Hkey; [by eexists|].
        destruct (Hin k m Hk Hkey) as (i & Hi). exists i. by apply stands_for_app.
      * intros i Hi. rewrite length_app in Hi. cbn in Hi. destruct (decide (i = length (L (note_key n)))) as [->|Hne].
        { exists id, n. by rewrite lookup_insert_eq. }
        destruct (Hout i) as (k & m & Hk & Hkey & Hi'); [lia|]. exists k, m.
        rewrite lookup_insert_ne by congruence. split_and!; [done|done|by apply stands_for_app].
      * intros k k' m m' [[<- <-]|[_ Hk]]%lookup_insert_Some [[<- <-]|[_ Hk']]%lookup_insert_Some Hm Hm' Hg;
          [done|by destruct (Hgen _ _ Hk' Hm')|by destruct (Hgen _ _ Hk Hm)|by eapply Hone].
      * rewrite fmap_app. apply NoDup_app. split_and!; [done| |by apply NoDup_singleton].
        intros x Hx ->%list_elem_of_singleton. by apply Hnew.
    + rewrite log_set_ne by done. destruct (Hr key) as [Hin Hout Hone Hd]. split; cbn; [..|done].
      * intros k m [[<- <-]|[_ Hk]]%lookup_insert_Some Hkey; [by destruct Hne|by eapply Hin].
      * intros i Hi. destruct (Hout i Hi) as (k & m & Hk & Hkey & Hi'). exists k, m.
        rewrite lookup_insert_ne by congruence. done.
      * intros k k' m m' [[<- <-]|[_ Hk]]%lookup_insert_Some [[<- <-]|[_ Hk']]%lookup_insert_Some Hm Hm' Hg;
          [done|by destruct Hne|by destruct Hne|by eapply Hone].
Qed.

(** ** The call implements the log *)

Section Refinement.
Implicit Types (d : DepDb) (i : RetainInput) (L : NoteKey → note_log).

Lemma same_note_iff log j i receipt n : note_key n = ri_key i → stands_for log j n →
  same_note i receipt n = bool_decide (entry_of n = entry_of_input i receipt) && (ri_expectedPrior i ≡? prior_at log j).
Proof.
  intros Hkey (_ & _ & Hp & Hf). apply bool_iff. unfold same_note, entry_of, entry_of_input.
  rewrite Hkey, Hf, Hp, !andb_true_iff, !bool_decide_eq_true. split; [intuition congruence|].
  intros [[= -> -> -> ->] <-]. by split_and!.
Qed.

Definition append_of (c : Clock) i (receipt : string) (log : note_log) : TreeNote :=
  new_note c i receipt (prior_at log (length log)) (match log with [] => None | _ => Some (Z.of_nat (length log) - 1) end)
    (Z.of_nat (length log)).

Lemma append_next c i receipt L : ri_sha256 i ∉ le_sha <$> L (ri_key i) →
  next_note L (append_of c i receipt (L (ri_key i))).
Proof.
  intros Hnew. set (log := L (ri_key i)) in *. assert (note_key (append_of c i receipt log) = ri_key i) as Hk by by destruct i as [[]].
  unfold next_note. rewrite Hk. fold log. split; [|exact Hnew]. split_and!; try done.
  - by rewrite lookup_app_r, Nat.sub_diag by lia.
  - by rewrite prior_at_app by lia.
Qed.

Lemma insert_append c id i receipt d L :
  note_logs d L → SOURCE_SHA256 receipt = true → watch_of_key (ri_key i) d = true → dd_notes d !! id = None →
  Z.of_nat (length (L (ri_key i))) ≤ MAX_INTEGER → ri_sha256 i ∉ le_sha <$> L (ri_key i) →
  let n := append_of c i receipt (L (ri_key i)) in
  insert_note id n d = inr ((id, n), set_notes (<[id := n]> (dd_notes d)) d)
  ∧ note_logs (set_notes (<[id := n]> (dd_notes d)) d) (log_set (ri_key i) (L (ri_key i) ++ [entry_of_input i receipt]) L).
Proof.
  intros Hl Hrc Hw Hid Hmax Hnew n. pose proof (append_next c i receipt L Hnew) as Hn. fold n in Hn.
  assert (note_key n = ri_key i) as Hk by by destruct i as [[]]. split.
  - unfold insert_note. assert (note_checks n = true) as ->.
    { unfold note_checks, n, append_of, new_note. cbn. rewrite Hrc, (proj2 (Z.leb_le _ _) Hmax). cbn [andb].
      destruct (L (ri_key i)) as [|x log] eqn:E; [done|]. cbn [length prior_at].
      assert (is_Some ((x :: log) !! length log)) as [y Hy] by (apply lookup_lt_is_Some; cbn; lia).
      rewrite Hy. cbn. rewrite bool_decide_eq_false_2; [cbn; rewrite Z.eqb_refl; by rewrite !andb_true_r, Z.ltb_lt; lia|].
      intros Heq. apply Hnew. rewrite <- Heq. apply list_elem_of_fmap. exists y. split; [done|by eapply list_elem_of_lookup_2]. }
    rewrite Hk, Hw. cbn [negb orb]. rewrite Hid. by rewrite (next_no_clash d L n) by (rewrite ?Hk; done).
  - pose proof (insert_note_logs d L id n Hl Hid) as Hx. rewrite Hk in Hx. by apply Hx.
Qed.

(** A digest that is already in the log breaks the unique index. *)
Lemma insert_known c id i receipt prior g gen d L : note_logs d L → watch_of_key (ri_key i) d = true →
  ri_sha256 i ∈ le_sha <$> L (ri_key i) → note_checks (new_note c i receipt prior g gen) = true →
  insert_note id (new_note c i receipt prior g gen) d = inl unique_violation.
Proof.
  intros [_ Hr] Hw (e & He & [j Hj]%list_elem_of_lookup_1)%list_elem_of_fmap Hck.
  unfold insert_note. rewrite Hck. replace (note_key (new_note c i receipt prior g gen)) with (ri_key i) by by destruct i as [[]].
  rewrite Hw. cbn [negb orb].
  destruct (rp_out _ _ _ (Hr (ri_key i)) j) as (k & m & Hk & Hkey & Hl & _); [by eapply lookup_lt_Some|].
  assert ((k, m) ∈ select_where (note_clash (new_note c i receipt prior g gen)) (dd_notes d)) as Hin.
  { apply elem_of_select_where. split; [done|]. unfold note_clash, new_note. cbn.
    rewrite Hj in Hl. injection Hl as ->. cbn in He. rewrite (bool_decide_eq_true_2 (_ = ri_sha256 i)) by done.
    rewrite <- Hkey. cbn. rewrite bool_decide_eq_true_2 by done. cbn. by rewrite orb_true_r. }
  destruct (select_where _ _); [by apply not_elem_of_nil in Hin|]. by destruct (dd_notes d !! id).
Qed.

(** C30 (refinement).  Retaining a note is a compare-and-swap on the log of its
    watch: an exact replay of the last entry returns it and writes nothing; a
    new entry is appended exactly when the call expects the digest of the last
    entry (none for an empty log) and its own digest is new; everything else
    is a conflict and writes nothing.  No other log changes. *)
Theorem retain_refines c id i receipt d L :
  note_logs d L → source_receipt i d = Some receipt → SOURCE_SHA256 receipt = true →
  watch_of_key (ri_key i) d = true → dd_notes d !! id = None →
  Z.of_nat (length (L (ri_key i))) ≤ MAX_INTEGER →
  match spec_retain (L (ri_key i)) (ri_expectedPrior i) (entry_of_input i receipt) with
  | Some (recorded, log) => ∃ k n d',
      transaction (retain_validated c id i) d = (inr (mkRetainResult recorded k n), d')
      ∧ entry_of n = entry_of_input i receipt ∧ dd_notes d' !! k = Some n
      ∧ note_logs d' (log_set (ri_key i) log L) ∧ (recorded = false → d' = d)
  | None => ∃ m, transaction (retain_validated c id i) d = (inl (GoSumdbNoteCustodyConflictError m), d)
  end.
Proof.
  intros Hl Hsrc Hrc Hw Hid Hmax. pose proof (current_note_log d (ri_key i) _ (nl_represents _ _ Hl (ri_key i))) as Hcur.
  unfold transaction, retain_validated, mbind, tx_bind, reads, some_or. rewrite Hsrc. unfold mret, tx_ret.
  destruct (current_note (ri_key i) d) as [[k n]|].
  - destruct Hcur as (Hk & Hkey & j & Hj & Hst). pose proof Hst as (Hlast & Hgen & Hprior & _).
    assert (last (L (ri_key i)) = Some (entry_of n)) as Hla by (rewrite last_lookup, Hj; exact Hlast).
    unfold spec_retain. rewrite Hla, (same_note_iff _ _ _ _ _ Hkey Hst), Hj. cbn [pred Nat.sub]. rewrite Nat.sub_0_r.
    destruct (bool_decide (entry_of n = _) && _) eqn:Esame.
    + exists k, n, d. apply andb_true_iff in Esame as [Esame%bool_decide_eq_true _]. split_and!; try done.
      split; [apply Hl|]. intros key. destruct (decide (key = ri_key i)) as [->|Hne];
        rewrite ?log_set_eq, ?log_set_ne by done; apply Hl.
    + change (le_sha (entry_of n)) with (tn_signed_tree_note_sha256 n).
      change (le_sha (entry_of_input i receipt)) with (ri_sha256 i).
      destruct (sql_eq (ri_expectedPrior i) (tn_signed_tree_note_sha256 n)) eqn:Eexp; cbn [andb].
      2:{ destruct (is_null _); cbn; by eexists. }
      apply bool_decide_eq_true in Eexp. rewrite Eexp. cbn [is_null orb negb sql_eq].
      assert (tn_generation n <? 0 = false) as -> by (apply Z.ltb_ge; lia). rewrite orb_false_r.
      assert (new_note c i receipt (Some (tn_signed_tree_note_sha256 n)) (Some (tn_generation n)) (tn_generation n + 1)
              = append_of c i receipt (L (ri_key i))) as Happ.
      { unfold append_of. rewrite Hj. unfold prior_at. rewrite Hlast. cbn. rewrite Hgen.
        destruct (L (ri_key i)); [done|]. f_equal; [f_equal; lia|lia]. }
      destruct (bool_decide (ri_sha256 i ∉ _)) eqn:Enew.
      * apply bool_decide_eq_true in Enew.
        destruct (insert_append c id i receipt d L Hl Hrc Hw Hid Hmax Enew) as [Hins Hlogs].
        assert (tn_signed_tree_note_sha256 n ≠ ri_sha256 i) as Hne.
        { intros Heq. apply Enew. rewrite <- Heq. apply list_elem_of_fmap. exists (entry_of n).
          split; [done|by eapply list_elem_of_lookup_2]. }
        unfold sql_eq at 1. rewrite bool_decide_eq_false_2 by congruence.
        rewrite Happ. unfold insert_successor. rewrite Hins. cbn [recorded_note fst snd].
        eexists _, _, _. split_and!; [done|done|by cbn; rewrite lookup_insert_eq|exact Hlogs|done].
      * destruct (sql_eq _ (ri_sha256 i)) eqn:Eown; [by eexists|]. eexists.
        apply bool_decide_eq_false in Enew. unfold insert_successor.
        rewrite (insert_known c id i receipt _ _ _ d L Hl Hw); [done|by destruct (decide (ri_sha256 i ∈ le_sha <$> L (ri_key i)))|].
        unfold note_checks, new_note. cbn. rewrite Hrc. apply bool_decide_eq_false in Eown.
        assert (tn_generation n + 1 ≤ MAX_INTEGER) by lia. rewrite (proj2 (Z.leb_le _ _)) by lia. cbn [andb].
        rewrite (bool_decide_eq_false_2 (_ = ri_sha256 i)) by congruence.
        rewrite (proj2 (Z.ltb_lt _ _)) by lia. by rewrite (proj2 (Z.eqb_eq _ _)) by lia.
  - rewrite Hcur. cbn [spec_retain last]. unfold require_true. destruct (is_null (ri_expectedPrior i)); [|by eexists].
    destruct (insert_append c id i receipt d L Hl Hrc Hw Hid Hmax) as [Hins Hlogs]; [rewrite Hcur; cbn; set_solver|].
    rewrite Hcur in Hins, Hlogs. unfold append_of in Hins. cbn in Hins. change (Z.of_nat 0) with 0 in Hins. unfold mret, tx_ret. rewrite Hins. cbn [recorded_note fst snd].
    eexists _, _, _. split_and!; [done|done|by cbn; rewrite lookup_insert_eq|exact Hlogs|done].
Qed.
End Refinement.

(** ** What a validated call carries *)

Lemma dep_bind_inr {A B} (m : dep_result A) (f : A → dep_result B) b :
  m ≫= f = inr b ↔ ∃ a, m = inr a ∧ f a = inr b.
Proof. destruct m as [e|a]; cbn; [naive_solver|]. split; [by exists a|]. by intros (x & [= ->] & H). Qed.
Lemma dep_ret {A B} (a : A) (f : A → dep_result B) : (inr a : dep_result A) ≫= f = f a.
Proof. done. Qed.
Lemma ensure_inr b e u : ensure b e = inr u ↔ b = true.
Proof. destruct b, u; cbn; naive_solver. Qed.
Lemma or_error_inr {A} (x : option A) e a : or_error x e = inr a ↔ x = Some a.
Proof. destruct x; cbn; naive_solver. Qed.
Ltac dep_step :=
  match goal with
  | H : (_ ≫= _) = inr _ |- _ => apply dep_bind_inr in H as (? & ? & H)
  | H : ensure _ _ = inr _ |- _ => apply ensure_inr in H
  | H : or_error _ _ = inr _ |- _ => apply or_error_inr in H
  | H : inr _ = inr _ |- _ => injection H as H
  end.
Ltac dep_inv := repeat dep_step.

Section Histories.
Context (sha256 toLowerCase : string → string).
Implicit Types (d : DepDb) (L : NoteKey → note_log).

(** An entry carries the bytes it names. *)
Definition entry_ok (e : LogEntry) : Prop :=
  ∃ bytes, le_base64 e = base64_encode bytes ∧ 1 ≤ byteLength bytes ≤ MAX_GO_SUMDB_SIGNED_TREE_NOTE_BYTES
    ∧ le_sha e = sha256 bytes.

Lemma validated_note v i : validatedRawSignedTreeNote sha256 v = inr i →
  ∀ receipt, entry_ok (entry_of_input i receipt).
Proof.
  unfold validatedRawSignedTreeNote. intros H receipt. dep_inv. subst i. unfold entry_ok. cbn.
  repeat match goal with H : _ && _ = true |- _ => apply andb_true_iff in H as [? ?] end.
  match goal with H : bool_decide (base64_encode _ = _) = true |- _ => apply bool_decide_eq_true in H as Hb end.
  eexists. split; [symmetry; exact Hb|]. bools. split; [|by symmetry].
  split; [|done]. unfold byteLength. destruct (base64_decode _); [done|]. cbn. lia.
Qed.

(** ** Histories of both modules *)

Inductive note_op :=
  | no_watch (o : watch_op)
  | no_retain (c : Clock) (id : string) (v : json)
  | no_teardown (v : json).
Definition exec_note (o : note_op) d : DepDb :=
  match o with
  | no_watch o => exec_watch sha256 toLowerCase o d
  | no_retain c id v => (transaction (retainGoSumdbSignedTreeNote sha256 c id v) d).2
  | no_teardown v => (transaction (deleteGoSumdbSignedTreeNoteCustodyForWatchTeardown v) d).2
  end.
Definition exec_notes (l : list note_op) d : DepDb := fold_left (λ d o, exec_note o d) l d.
(** The call tears down the notes of [key]. *)
Definition tears_down (key : NoteKey) (o : note_op) : bool :=
  match o with no_teardown v => match validatedReadInput v with inr k => k ≡? key | inl _ => false end | _ => false end.

Definition custody_inv d L : Prop :=
  watch_inv sha256 d ∧ note_logs d L ∧ ∀ key, Forall entry_ok (L key).

Lemma watch_of_key_later key d d' : watches_later d d' → watch_of_key key d = true → watch_of_key key d' = true.
Proof.
  intros [W _ _]. unfold watch_of_key. destruct (dd_watches d !! nk_watchId key) as [r|] eqn:E; [|done].
  destruct (W _ _ E) as (r' & -> & S). apply same_watch_fields in S as (-> & -> & _). done.
Qed.
Lemma note_logs_later d d' L : watches_later d d' → note_logs d L → note_logs d' L.
Proof.
  intros Hlater [Hw Hr]. pose proof (wl_rest _ _ Hlater) as [= _ Hn _ _]. split.
  - intros k n Hk. rewrite <- Hn in Hk. eapply watch_of_key_later; [done|by eapply Hw].
  - intros key. destruct (Hr key) as [A B C D]. split; rewrite <- ?Hn; done.
Qed.

(** The observation of a receipt is of a watch of the key. *)
Lemma source_receipt_ok d i receipt : watch_inv sha256 d → source_receipt i d = Some receipt →
  SOURCE_SHA256 receipt = true ∧ watch_of_key (ri_key i) d = true.
Proof.
  intros Hinv. unfold source_receipt. intros (o & Ho & H)%bind_Some.
  destruct (_ && _) eqn:E; [|done]. bools.
  destruct (wi_watch _ _ Hinv _ _ Ho) as (r & Hr & Hw & Hp). pose proof (wi_custody _ _ Hinv _ _ Ho) as Hc. split.
  - unfold custody in Hc. destruct (ob_source_inventory_receipt_sha256 o) as [s|]; [|done].
    assert (s = receipt) as -> by (destruct s; [done|congruence]).
    destruct (ob_source_inventory_receipt o); [|done]. destruct Hc as (rc & Hv & _).
    revert Hv. unfold validateGoDependencySourceInventoryReceipt. by destruct (SOURCE_SHA256 receipt).
  - unfold watch_of_key. rewrite <- H2, Hr. rewrite !bool_decide_eq_true_2 by congruence. done.
Qed.

Lemma insert_note_inr id n d r d' : insert_note id n d = inr (r, d') →
  r = (id, n) ∧ d' = set_notes (<[id := n]> (dd_notes d)) d ∧ dd_notes d !! id = None ∧ note_checks n = true.
Proof.
  unfold insert_note. destruct (note_checks n); [|done]. destruct (watch_of_key _ d); [|done]. cbn [negb orb].
  destruct (dd_notes d !! id); [done|]. destruct (select_where (note_clash n) (dd_notes d)); [|done]. by intros [= <- <-].
Qed.
Lemma insert_successor_inr id n d r d' : insert_successor id n d = inr (r, d') → insert_note id n d = inr (r, d').
Proof. unfold insert_successor. by destruct (insert_note id n d) as [[]|]. Qed.

(** A successful call wrote nothing, or its id was free and its generation in
    range. *)
Lemma retain_inr c id i d r d' L : note_logs d L → retain_validated c id i d = inr (r, d') →
  ∃ receipt, source_receipt i d = Some receipt ∧
  (d' = d ∨ dd_notes d !! id = None ∧ Z.of_nat (length (L (ri_key i))) ≤ MAX_INTEGER).
Proof.
  intros Hl. pose proof (current_note_log d (ri_key i) _ (nl_represents _ _ Hl (ri_key i))) as Hcur.
  unfold retain_validated. intros H. tx_inv. destruct (current_note (ri_key i) _) as [[k n]|] eqn:Ec.
  - destruct Hcur as (_ & _ & j & Hj & _ & Hg & _). eexists. split; [done|]. revert H3.
    destruct (same_note _ _ n); [by intros [_ <-]%ret_inr; left|]. destruct (_ || _); [done|]. intros H3. tx_inv.
    match goal with H : insert_successor _ _ _ = _ |- _ => apply insert_successor_inr, insert_note_inr in H as (_ & _ & Hid & Hck) end.
    right. split; [done|].
    unfold note_checks, new_note in Hck. cbn in Hck. bools. lia.
  - eexists. split; [done|]. right. tx_inv.
    match goal with H : insert_note _ _ _ = _ |- _ => apply insert_note_inr in H as (_ & _ & Hid & _) end.
    rewrite Hcur. split; [done|]. cbn. unfold MAX_INTEGER. lia.
Qed.

(** The calls of this module write notes only. *)
Definition notes_only d d' : Prop := d' = set_notes (dd_notes d') d.
#[local] Instance notes_only_preorder : PreOrder notes_only.
Proof. split; [by intros []|]. unfold notes_only. intros d1 d2 d3 -> ->. done. Qed.
Lemma insert_note_only id n : keeps notes_only (insert_note id n).
Proof. by intros d r d' (_ & -> & _)%insert_note_inr. Qed.
Lemma insert_successor_only id n : keeps notes_only (insert_successor id n).
Proof. by intros d r d' (_ & -> & _)%insert_successor_inr%insert_note_inr. Qed.
#[local] Hint Resolve insert_note_only insert_successor_only : agentrail.
Lemma retain_only c id i : keeps notes_only (retain_validated c id i).
Proof. unfold retain_validated. keeps. Qed.
Lemma notes_only_inv d d' : notes_only d d' → watch_inv sha256 d → watch_inv sha256 d'.
Proof.
  intros -> H. eapply inv_retouched; [done|]. split; [|done|done]. apply updated_refl, _.
Qed.
Lemma Forall_log_set key log L : (∀ k, Forall entry_ok (L k)) → Forall entry_ok log →
  ∀ k, Forall entry_ok (log_set key log L k).
Proof. intros HL Hlog k. unfold log_set. by destruct (bool_decide _). Qed.

Lemma spec_retain_log log expected e r log' : spec_retain log expected e = Some (r, log') → log' = log ∨ log' = log ++ [e].
Proof.
  unfold spec_retain. destruct (last log) eqn:E.
  - destruct (_ && _); [intros [= <- <-]; auto|]. destruct (_ && _); [intros [= <- <-]; auto|done].
  - apply last_None in E as ->. destruct (is_null expected); [intros [= <- <-]; auto|done].
Qed.

Lemma retain_step c id i d r d' L : custody_inv d L → (∀ receipt, entry_ok (entry_of_input i receipt)) →
  retain_validated c id i d = inr (r, d') → ∃ L', custody_inv d' L' ∧ ∀ key, L key `prefix_of` L' key.
Proof.
  intros (Hinv & Hl & Hok) Hv Hrun. destruct (retain_inr _ _ _ _ _ _ _ Hl Hrun) as (receipt & Hsrc & [->|[Hid Hmax]]).
  { exists L. by split. }
  destruct (source_receipt_ok _ _ _ Hinv Hsrc) as [Hrc Hw].
  pose proof (retain_refines c id i receipt d L Hl Hsrc Hrc Hw Hid Hmax) as Href.
  destruct (spec_retain _ _ _) as [[recorded log]|] eqn:Es.
  - destruct Href as (k & n & d2 & Ht & _ & _ & Hlogs & _). unfold transaction in Ht. rewrite Hrun in Ht.
    injection Ht as _ ->. exists (log_set (ri_key i) log L).
    apply spec_retain_log in Es. split.
    + split_and!; [by eapply notes_only_inv; [eapply retain_only|]|done|].
      apply Forall_log_set; [done|]. destruct Es as [->| ->]; [done|]. apply Forall_app. split; [done|]. by constructor.
    + intros key. destruct (decide (key = ri_key i)) as [->|Hne]; [rewrite log_set_eq|by rewrite log_set_ne].
      destruct Es as [->| ->]; [done|by eexists].
  - destruct Href as (m & Ht). unfold transaction in Ht. by rewrite Hrun in Ht.
Qed.

Lemma teardown_logs key d L : note_logs d L →
  note_logs (set_notes (filter (λ kn, of_key key kn.1 kn.2 = false) (dd_notes d)) d) (log_set key [] L).
Proof.
  intros [Hw Hr]. unfold of_key.
  assert (∀ k n, filter (λ kn, bool_decide (note_key kn.2 = key) = false) (dd_notes d) !! k = Some n ↔
    dd_notes d !! k = Some n ∧ note_key n ≠ key) as Hf.
  { intros k n. rewrite map_lookup_filter_Some. cbn. by rewrite bool_decide_eq_false. }
  split; cbn [dd_notes set_notes].
  - intros k n [Hk _]%Hf. by eapply Hw.
  - intros key'. destruct (decide (key' = key)) as [->|Hne].
    + rewrite log_set_eq. split; cbn; [|lia|..|constructor].
      * by intros k n [_ H]%Hf ?.
      * by intros k k' n n' [_ H]%Hf _ ?.
    + rewrite log_set_ne by done. destruct (Hr key') as [A B C D]. split; cbn; [..|done].
      * intros k n [Hk _]%Hf. by eapply A.
      * intros j Hj. destruct (B j Hj) as (k & n & Hk & Hkey & Hs). exists k, n. split_and!; [|done|done].
        apply Hf. split; [done|congruence].
      * intros k k' n n' [Hk _]%Hf [Hk' _]%Hf. by eapply C.
Qed.

Lemma note_step o d L : custody_inv d L →
  ∃ L', custody_inv (exec_note o d) L' ∧ ∀ key, tears_down key o = false → L key `prefix_of` L' key.
Proof.
  intros Hinv. destruct o as [o|c id v|v]; cbn [exec_note tears_down].
  - exists L. split; [|done]. destruct Hinv as (Hi & Hl & Hok). split_and!; [by apply inv_exec| |done].
    eapply note_logs_later; [apply exec_watch_later|done].
  - unfold transaction. destruct (retainGoSumdbSignedTreeNote sha256 c id v d) as [e|[r d']] eqn:E; cbn; [by exists L|].
    unfold retainGoSumdbSignedTreeNote in E. apply bind_inr in E as (i & d1 & Hv & Hrun).
    unfold lift_result in Hv. destruct (validatedRawSignedTreeNote sha256 v) as [e|i'] eqn:Ei; [done|].
    injection Hv as -> <-. destruct (retain_step _ _ _ _ _ _ _ Hinv (validated_note _ _ Ei) Hrun) as (L' & H1 & H2).
    exists L'. split; [done|]. by intros key _.
  - unfold transaction, deleteGoSumdbSignedTreeNoteCustodyForWatchTeardown, mbind, tx_bind, lift_result, reads.
    destruct (validatedReadInput v) as [e|key]; cbn; [by exists L|].
    unfold require_true. destruct (watch_of_key key d); cbn; [|by exists L].
    destruct Hinv as (Hi & Hl & Hok). exists (log_set key [] L). split.
    + split_and!; [by apply (notes_only_inv d)|by apply teardown_logs|apply Forall_log_set; [done|constructor]].
    + intros key' Hne. apply bool_decide_eq_false in Hne. by rewrite log_set_ne by congruence.
Qed.

(** What no call of either module touches, and what they only add to. *)
Lemma exec_note_rest o d : dd_contracts (exec_note o d) = dd_contracts d ∧ dd_events (exec_note o d) = dd_events d
  ∧ rows eq (dd_observations d) (dd_observations (exec_note o d)).
Proof.
  destruct o as [o|c id v|v]; cbn [exec_note].
  - destruct (exec_watch_later sha256 toLowerCase o d) as [_ L [= _ _ -> ->]]. done.
  - assert (notes_only d (transaction (retainGoSumdbSignedTreeNote sha256 c id v) d).2) as ->; [|done].
    apply keeps_transaction; [apply _|]. unfold retainGoSumdbSignedTreeNote. apply keeps_bind; [apply _| |intros i; apply retain_only].
    intros d1 i d2. unfold lift_result. destruct (validatedRawSignedTreeNote sha256 v); [done|]. by intros [= _ <-].
  - assert (notes_only d (transaction (deleteGoSumdbSignedTreeNoteCustodyForWatchTeardown v) d).2) as ->; [|done].
    apply keeps_transaction; [apply _|]. unfold deleteGoSumdbSignedTreeNoteCustodyForWatchTeardown. apply keeps_bind; [apply _| |].
    + intros d1 i d2. unfold lift_result. destruct (validatedReadInput v); [done|]. by intros [= _ <-].
    + intros key. keeps. apply keeps_runs. by intros [].
Qed.

(** Whatever sequence of watch calls, notes and teardowns
    runs from empty tables, the notes of each workspace, watch and repository
    are a chain: generations 0, 1, 2, ... without gap or repetition, each
    naming the digest of the one before, all digests distinct, each entry with
    the canonical base64 of at most 4096 bytes that have its digest; and a
    chain only grows, except that a teardown of that watch empties it. *)
Theorem notes_are_chains l l' d :
  fresh_watches d → dd_notes d = ∅ →
  ∃ L L', custody_inv (exec_notes l d) L ∧ custody_inv (exec_notes (l ++ l') d) L'
    ∧ ∀ key, Forall (λ o, tears_down key o = false) l' → L key `prefix_of` L' key.
Proof.
  intros Hd Hn.
  assert (∀ l d L, custody_inv d L → ∃ L', custody_inv (exec_notes l d) L' ∧
    ∀ key, Forall (λ o, tears_down key o = false) l → L key `prefix_of` L' key) as Hall.
  { clear. intros l. induction l as [|o l IH]; intros d L Hinv; [by exists L|].
    destruct (note_step o d L Hinv) as (L1 & H1 & P1). destruct (IH _ _ H1) as (L2 & H2 & P2).
    exists L2. split; [exact H2|]. intros key [Ho Hl]%Forall_cons. etrans; [by apply P1|by apply P2]. }
  assert (custody_inv d (λ _, [])) as H0
    by (split_and!; [by apply fresh_inv|by apply empty_logs|intros; constructor]).
  destruct (Hall l d _ H0) as (L & HL & _). exists L. destruct (Hall l' _ _ HL) as (L' & HL' & P). exists L'.
  split_and!; [done| |done]. unfold exec_notes in *. by rewrite fold_left_app.
Qed.

(** Reading gives the last entry. *)
Theorem current_is_last v key d L : note_logs d L → validatedReadInput v = inr key →
  ∃ r, readCurrentGoSumdbSignedTreeNote v d = inr r ∧ last (L key) = entry_of ∘ snd <$> r.
Proof.
  intros [_ Hr] Hv. unfold readCurrentGoSumdbSignedTreeNote. rewrite Hv. exists (current_note key d). split; [done|].
  pose proof (current_note_log d key _ (Hr key)) as Hc. destruct (current_note key d) as [[k n]|]; cbn; [|by rewrite Hc].
  destruct Hc as (_ & _ & j & Hj & Hl & _). by rewrite last_lookup, Hj.
Qed.

(** The call for some bytes. *)
Definition retain_call (key : NoteKey) (observation : string) (prior : option string) (bytes : string) : json :=
  JObj [("workspaceId", JStr (nk_workspaceId key)); ("watchId", JStr (nk_watchId key));
        ("repositoryId", JStr (nk_repositoryId key)); ("sourceObservationId", JStr observation);
        ("expectedPriorSignedTreeNoteSha256", match prior with Some p => JStr p | None => JNull end);
        ("signedTreeNoteBase64", JStr (base64_encode bytes)); ("signedTreeNoteSha256", JStr (sha256 bytes))].

Lemma base64_bound bytes : bytes ≠ "" → byteLength bytes ≤ MAX_GO_SUMDB_SIGNED_TREE_NOTE_BYTES →
  base64_encode bytes ≠ "" ∧ byteLength (base64_encode bytes) ≤ MAX_GO_SUMDB_SIGNED_TREE_NOTE_BASE64_BYTES.
Proof.
  intros Hne Hb. split.
  - intros E. apply Hne. apply (inj base64_encode). by rewrite E.
  - unfold byteLength in *. rewrite base64_encode_length. unfold MAX_GO_SUMDB_SIGNED_TREE_NOTE_BASE64_BYTES.
    rewrite Nat2Z.inj_mul, Nat2Z.inj_div, Nat2Z.inj_add. unfold MAX_GO_SUMDB_SIGNED_TREE_NOTE_BYTES in *.
    apply Z.mul_le_mono_nonneg_l; [done|]. apply Z.div_le_mono; lia.
Qed.

(** The bytes of a note survive the transport: a call with
    well-formed ids that carries between 1 and 4096 bytes in base64 with their
    digest is validated, and decoding what is stored gives the bytes back. *)
Theorem note_bytes_roundtrip key observation prior bytes :
  lower_uuid (nk_workspaceId key) = true → lower_uuid (nk_watchId key) = true → lower_uuid (nk_repositoryId key) = true →
  lower_uuid observation = true → (∀ p, prior = Some p → SOURCE_SHA256 p = true) → SOURCE_SHA256 (sha256 bytes) = true →
  bytes ≠ "" → byteLength bytes ≤ MAX_GO_SUMDB_SIGNED_TREE_NOTE_BYTES →
  ∃ i, validatedRawSignedTreeNote sha256 (retain_call key observation prior bytes) = inr i
    ∧ ri_key i = key ∧ ri_expectedPrior i = prior ∧ ri_sha256 i = sha256 bytes ∧ base64_decode (ri_base64 i) = bytes.
Proof.
  intros Hw Hk Hr Ho Hp Hs Hne Hb. destruct (base64_bound bytes Hne Hb) as [Hne64 Hb64].
  exists (mkRetainInput key observation prior (base64_encode bytes) (sha256 bytes)).
  split_and!; try done; [|apply base64_decode_encode].
  set (v := retain_call key observation prior bytes).
  assert (hasExactKeys v INPUT_KEYS = true) as Hkeys by (by destruct prior; vm_compute).
  assert (text_at v "workspaceId" = Some (nk_workspaceId key) ∧ text_at v "watchId" = Some (nk_watchId key)
    ∧ text_at v "repositoryId" = Some (nk_repositoryId key) ∧ text_at v "sourceObservationId" = Some observation
    ∧ text_at v "signedTreeNoteBase64" = Some (base64_encode bytes)
    ∧ text_at v "signedTreeNoteSha256" = Some (sha256 bytes)) as (T1 & T2 & T3 & T4 & T5 & T6) by done.
  assert (expected_prior v = Some prior) as Hprior.
  { destruct prior as [p|]; [|done]. unfold expected_prior.
    change (json_field v "expectedPriorSignedTreeNoteSha256") with (Some (JStr p)). cbv iota. by rewrite (Hp p). }
  unfold validatedRawSignedTreeNote, validated_key, validatedUuid, text_test. rewrite Hkeys, T1, T2, T3, T4, T5, T6, Hprior.
  cbn [ensure or_error mbind dep_result_bind option_bind is_object v retain_call].
  rewrite Hw, Hk, Hr, Ho, Hs. cbn [or_error].
  rewrite (bool_decide_eq_false_2 (base64_encode bytes = "")), (proj2 (Z.leb_le _ _) Hb64), base64_encode_shape by done.
  cbn [or_error negb andb]. rewrite !dep_ret. cbn beta iota. rewrite base64_decode_encode, (bool_decide_eq_false_2 (bytes = "")), (proj2 (Z.leb_le _ _) Hb) by done.
  rewrite !bool_decide_eq_true_2 by done. cbn. by destruct key.
Qed.
End Histories.

(** ** A note of the watch of [SampleWatch] *)

Module SampleNote.
Definition uuid (x : string) : string := SampleReceipt.repeat_text 8 x +:+ "-0000-4000-8000-000000000000".
Definition key : NoteKey := mkNoteKey "ws" "watch" "repo".
Definition base : DepDb :=
  SampleWatch.run [SampleWatch.configured; op_observe (SampleWatch.clock 5) "obs" (SampleWatch.observed "k" 5)].
Definition input : RetainInput := mkRetainInput key "obs" None (base64_encode "note") (SampleReceipt.digest "note").
End SampleNote.

Lemma retain_refines_witness :
  ∃ k n d', transaction (retain_validated (SampleWatch.clock 9) "note" SampleNote.input) SampleNote.base
              = (inr (mkRetainResult true k n), d')
    ∧ dd_notes d' !! k = Some n.
Proof.
  assert (dd_notes SampleNote.base = ∅) as Hn by (vm_compute; reflexivity).
  assert (source_receipt SampleNote.input SampleNote.base = Some (SampleReceipt.digest "")) as Hs by (vm_compute; reflexivity).
  assert (watch_of_key (ri_key SampleNote.input) SampleNote.base = true) as Hw by (vm_compute; reflexivity).
  assert (SOURCE_SHA256 (SampleReceipt.digest "") = true) as Hr by (vm_compute; reflexivity).
  assert (dd_notes SampleNote.base !! "note" = None) as Hid by (rewrite Hn; reflexivity).
  assert (Z.of_nat (length (@nil LogEntry)) ≤ MAX_INTEGER) as Hm by (unfold MAX_INTEGER; cbn; lia).
  destruct (retain_refines (SampleWatch.clock 9) "note" SampleNote.input (SampleReceipt.digest "") SampleNote.base (λ _, [])
    (empty_logs SampleNote.base Hn) Hs Hr Hw Hid Hm) as (k & n & d' & Ht & _ & Hk & _).
  exists k, n, d'. split; [exact Ht|exact Hk].
Defined.

Lemma notes_are_chains_witness :
  ∃ L L', custody_inv SampleReceipt.digest (exec_notes SampleReceipt.digest SampleWatch.lc [no_watch SampleWatch.configured] SampleWatch.db) L
    ∧ custody_inv SampleReceipt.digest (exec_notes SampleReceipt.digest SampleWatch.lc
        ([no_watch SampleWatch.configured] ++ [no_retain (SampleWatch.clock 9) "note" JNull]) SampleWatch.db) L'.
Proof.
  destruct (notes_are_chains SampleReceipt.digest SampleWatch.lc [no_watch SampleWatch.configured]
    [no_retain (SampleWatch.clock 9) "note" JNull] SampleWatch.db (conj eq_refl eq_refl) eq_refl) as (L & L' & H & H' & _).
  exists L, L'. split; [exact H|exact H'].
Defined.

Lemma note_bytes_roundtrip_witness :
  ∃ i, validatedRawSignedTreeNote SampleReceipt.digest
         (retain_call SampleReceipt.digest (mkNoteKey (SampleNote.uuid "a") (SampleNote.uuid "b") (SampleNote.uuid "c"))
            (SampleNote.uuid "d") None "note") = inr i ∧ base64_decode (ri_base64 i) = "note".
Proof.
  assert (lower_uuid (SampleNote.uuid "a") = true) as Ha by (vm_compute; reflexivity).
  assert (lower_uuid (SampleNote.uuid "b") = true) as Hb by (vm_compute; reflexivity).
  assert (lower_uuid (SampleNote.uuid "c") = true) as Hc by (vm_compute; reflexivity).
  assert (lower_uuid (SampleNote.uuid "d") = true) as Hd by (vm_compute; reflexivity).
  assert (∀ p : string, None = Some p → SOURCE_SHA256 p = true) as Hp by (intros p [=]).
  assert (SOURCE_SHA256 (SampleReceipt.digest "note") = true) as Hs by (vm_compute; reflexivity).
  assert ("note" ≠ "") as Hne by discriminate.
  assert (byteLength "note" ≤ MAX_GO_SUMDB_SIGNED_TREE_NOTE_BYTES) as Hl by (vm_compute; discriminate).
  destruct (note_bytes_roundtrip SampleReceipt.digest SampleWatch.lc (mkNoteKey (SampleNote.uuid "a") (SampleNote.uuid "b") (SampleNote.uuid "c"))
    (SampleNote.uuid "d") None "note" Ha Hb Hc Hd Hp Hs Hne Hl) as (i & Hi & _ & _ & _ & Hdec).
  exists i. split; [exact Hi|exact Hdec].
Defined.
