(* ===== verification/DepUpgrades.v ===== *)
(** * DepUpgrades: contracts between an observed candidate and its approval

    [queries/dependency_upgrade_contracts.ts]: candidates read back from the
    observation ledger, their fingerprint, and the contract that is made once
    per candidate, approved once, and audited.  [decide] is modelled in its
    two phases, the reads and the guarded write, as other calls may run in
    between.  [sha256] gives the lowercase hexadecimal digest of a text. *)

From S2P Require Import Prelude Table Regex Intake JsonText Base64 JsonValue GoReceipt Tx RecordSchema DepSchema DepWatches.
From Stdlib Require Import QArith.
Open Scope Z_scope.

(** ** Candidates *)

Record Candidate := mkCandidate {
  cd_package : string;
  cd_ecosystem : option string;
  cd_package_manager : option string;
  cd_package_manager_version : option string;
  cd_dependency_kind : string;
  cd_specifier : string;
  cd_current_version : string;
  cd_target_version : string;
  cd_manifest_path : string;
  cd_lockfile_path : string;
  cd_baseline_sha : string;
  cd_fingerprint : string;
  cd_verification_commands : option (list string);
  cd_manager_commands : option json;
}.
Definition CANDIDATE_KEYS : list string :=
  ["package"; "dependency_kind"; "specifier"; "current_version"; "target_version"; "manifest_path"; "lockfile_path";
   "baseline_sha"; "fingerprint"].

(** [typeof record[key] === "string" && record[key]] *)
Definition filled_text (v : json) (key : string) : option string := text_test v key (λ s, s ≢? "").
Definition candidateFromUnknown (v : json) : option Candidate :=
  match v with
  | JObj _ =>
      package ← filled_text v "package";
      dependency_kind ← filled_text v "dependency_kind";
      specifier ← filled_text v "specifier";
      current_version ← filled_text v "current_version";
      target_version ← filled_text v "target_version";
      manifest_path ← filled_text v "manifest_path";
      lockfile_path ← filled_text v "lockfile_path";
      baseline_sha ← filled_text v "baseline_sha";
      fingerprint ← filled_text v "fingerprint";
      Some (mkCandidate package (text_at v "ecosystem") (text_at v "package_manager")
        (text_at v "package_manager_version") dependency_kind specifier current_version target_version manifest_path
        lockfile_path baseline_sha fingerprint
        ((λ l : list json, omap (λ x, match x with JStr s => Some s | _ => None end) l) <$> array_at v "verification_commands")
        (match json_field v "manager_commands" with Some (JObj l) => Some (JObj l) | Some (JArr l) => Some (JArr l) | _ => None end))
  | _ => None
  end.

(** [CANDIDATE_KEYS.map((key) => a[key])] *)
Definition candidate_texts (a : Candidate) : list string :=
  [cd_package a; cd_dependency_kind a; cd_specifier a; cd_current_version a; cd_target_version a; cd_manifest_path a;
   cd_lockfile_path a; cd_baseline_sha a; cd_fingerprint a].
Definition or_empty (x : option string) : string := default "" x.
Definition sameCandidate (a b : Candidate) : bool :=
  (candidate_texts a ≡? candidate_texts b)
  && (or_empty (cd_ecosystem a) ≡? or_empty (cd_ecosystem b))
  && (or_empty (cd_package_manager a) ≡? or_empty (cd_package_manager b))
  && (or_empty (cd_package_manager_version a) ≡? or_empty (cd_package_manager_version b)).

Section Upgrades.
Context (sha256 : string → string).

(** The text that is hashed. *)
Definition fingerprint_payload (a : Candidate) : string :=
  json_object
    ([("baseline_sha", json_quote (cd_baseline_sha a)); ("current_version", json_quote (cd_current_version a));
      ("dependency_kind", json_quote (cd_dependency_kind a)); ("lockfile_path", json_quote (cd_lockfile_path a));
      ("manifest_path", json_quote (cd_manifest_path a)); ("package", json_quote (cd_package a));
      ("specifier", json_quote (cd_specifier a)); ("target_version", json_quote (cd_target_version a))]
     ++ match cd_package_manager a with
        | Some pm => if pm ≡? "" then [] else [("package_manager", json_quote pm)]
        | None => []
        end).
Definition candidateFingerprint (a : Candidate) : string := "sha256:" +:+ sha256 (fingerprint_payload a).

(** ** Reading the ledger *)

Record CandidateObservation := mkCandidateObservation {
  co_observationId : string;
  co_observation : WatchObservation;
  co_candidate : Candidate;
}.
Definition candidate_of (fingerprint : string) (o : WatchObservation) : option Candidate :=
  List.find (λ a, (cd_fingerprint a ≡? fingerprint) && (candidateFingerprint a ≡? cd_fingerprint a))
    (omap candidateFromUnknown (ob_candidates o)).
Fixpoint first_candidate (fingerprint : string) (l : list (string * WatchObservation)) : option CandidateObservation :=
  match l with
  | [] => None
  | (k, o) :: l' =>
      match candidate_of fingerprint o with
      | Some a => Some (mkCandidateObservation k o a)
      | None => first_candidate fingerprint l'
      end
  end.
Definition candidate_rows (workspaceId watchId repositoryId : string) (d : DepDb) : list (string * WatchObservation) :=
  order_by (λ o, - ob_observed_at o)
    (select_where (λ _ o, (ob_workspace_id o ≡? workspaceId) && (ob_watch_id o ≡? watchId)
                          && (ob_repository_id o ≡? repositoryId) && (ob_status o ≡? ws_candidates)) (dd_observations d)).
Definition findDependencyCandidate (workspaceId watchId fingerprint : string) (d : DepDb) : option CandidateObservation :=
  watch ← getDependencyWatch workspaceId watchId d;
  first_candidate fingerprint (candidate_rows workspaceId watchId (dw_repository_id watch) d).
Definition candidateIsCurrent (workspaceId watchId : string) (candidate : Candidate) (d : DepDb) : bool :=
  match findDependencyCandidate workspaceId watchId (cd_fingerprint candidate) d with
  | Some current => sameCandidate (co_candidate current) candidate
  | None => false
  end.

(** ** Contracts and events *)

Record ContractActor := mkContractActor { ac_actorType : string; ac_actorId : string }.
Definition watch_actor : ContractActor := mkContractActor "system" "dependency-watch".

(** An event about to be recorded. *)
Definition new_event (now : Z) (workspaceId contractId fingerprint : string) (actor : ContractActor)
    (decision : UpgradeEvent) (approvalId : option string) (details : json) : UpgradeContractEvent :=
  mkUpgradeContractEvent workspaceId contractId fingerprint (ac_actorType actor) (ac_actorId actor) decision approvalId
    details now.
Definition event_for (now : Z) (id : string) (r : UpgradeContract) (actor : ContractActor) (decision : UpgradeEvent)
    (approvalId : option string) (details : json) : UpgradeContractEvent :=
  new_event now (uc_workspace_id r) id (uc_candidate_fingerprint r) actor decision approvalId details.
Definition recordDependencyUpgradeContractEvent (id : string) (e : UpgradeContractEvent) : dep UpgradeContractEvent := λ d,
  match dd_events d !! id with
  | Some _ => inl unique_violation
  | None => inr (e, set_events (<[id := e]> (dd_events d)) d)
  end.

Record CreateInput := mkCreateInput {
  cu_workspaceId : string;
  cu_repositoryId : string;
  cu_watchId : string;
  cu_observationKey : string;
  cu_candidate : Candidate;
  cu_proposal : json;
  cu_createdBy : option string;
  cu_state : option UpgradeState;
}.
Definition new_contract (now : Z) (i : CreateInput) : UpgradeContract :=
  let a := cu_candidate i in
  mkUpgradeContract (cu_workspaceId i) (cu_repositoryId i) (cu_watchId i) (cu_observationKey i) (cd_fingerprint a)
    (cd_package a) (cd_dependency_kind a) (cd_specifier a) (cd_current_version a) (cd_target_version a)
    (cd_manifest_path a) (cd_lockfile_path a) (cd_baseline_sha a) (cu_proposal i) (default us_proposed (cu_state i))
    None None None None (cu_createdBy i) now now.
Definition of_candidate (workspaceId fingerprint : string) (_ : string) (r : UpgradeContract) : bool :=
  (uc_workspace_id r ≡? workspaceId) && (uc_candidate_fingerprint r ≡? fingerprint).
(** [INSERT ... ON CONFLICT (workspace_id, candidate_fingerprint) DO NOTHING RETURNING] *)
Definition insert_contract (now : Z) (id : string) (i : CreateInput) : dep (option (string * UpgradeContract)) := λ d,
  match select_where (of_candidate (cu_workspaceId i) (cd_fingerprint (cu_candidate i))) (dd_contracts d) with
  | _ :: _ => inr (None, d)
  | [] =>
      match dd_contracts d !! id with
      | Some _ => inl unique_violation
      | None => let r := new_contract now i in
                inr (Some (id, r), set_contracts (<[id := r]> (dd_contracts d)) d)
      end
  end.
Definition create_event (s : option UpgradeState) : UpgradeEvent :=
  match s with Some us_needs_human => ue_needs_human_decision | _ => ue_proposed end.
Definition create_contract_row (now : Z) (id : string) (i : CreateInput) : dep (option (string * UpgradeContract)) :=
  _ ← require_true (candidateFingerprint (cu_candidate i) ≡? cd_fingerprint (cu_candidate i))
        (plain_error "dependency candidate fingerprint does not match its identity fields");
  insert_contract now id i.
Definition created_event (now : Z) (i : CreateInput) (id : string) (r : UpgradeContract) : UpgradeContractEvent :=
  event_for now id r watch_actor (create_event (cu_state i)) None
    (JObj [("baselineSha", JStr (cd_baseline_sha (cu_candidate i))); ("observationKey", JStr (cu_observationKey i))]).
Definition createOrGetDependencyUpgradeContract (now : Z) (id eventId : string) (i : CreateInput)
    : dep (string * UpgradeContract * bool) :=
  inserted ← create_contract_row now id i;
  match inserted with
  | Some r =>
      _ ← recordDependencyUpgradeContractEvent eventId (created_event now i r.1 r.2);
      mret (r, true)
  | None =>
      existing ← reads (λ d, head (select_where (of_candidate (cu_workspaceId i) (cd_fingerprint (cu_candidate i))) (dd_contracts d)));
      existing ← some_or existing (plain_error "dependency upgrade contract disappeared after conflict");
      mret (existing, false)
  end.

Definition set_contract (state : UpgradeState) (approval : option string) (lastError : option string) (proposal : json)
    (now : Z) (r : UpgradeContract) : UpgradeContract :=
  mkUpgradeContract (uc_workspace_id r) (uc_repository_id r) (uc_watch_id r) (uc_observation_key r)
    (uc_candidate_fingerprint r) (uc_package_name r) (uc_dependency_kind r) (uc_specifier r) (uc_current_version r)
    (uc_target_version r) (uc_manifest_path r) (uc_lockfile_path r) (uc_baseline_sha r) proposal state approval
    (uc_issue_url r) (uc_issue_number r) lastError (uc_created_by r) (uc_created_at r) now.
Definition update_contract (id : string) (p : UpgradeContract → bool) (f : UpgradeContract → UpgradeContract)
    : dep (option UpgradeContract) :=
  runs (λ d, let '(row, t) := update_row id p f (dd_contracts d) in (row, set_contracts t d)).

Definition refresh_row (now : Z) (workspaceId contractId : string) (proposal : json) : dep (option UpgradeContract) :=
  update_contract contractId
    (λ r, (uc_workspace_id r ≡? workspaceId) && (uc_state r ≡? us_needs_human) && is_null (uc_approval_id r))
    (λ r, set_contract us_proposed (uc_approval_id r) None proposal now r).
Definition refreshed_event (now : Z) (id : string) (r : UpgradeContract) : UpgradeContractEvent :=
  event_for now id r watch_actor ue_proposed None (JObj [("refreshed", JBool true)]).
Definition refreshDependencyUpgradeContractProposal (now : Z) (eventId workspaceId contractId : string) (proposal : json)
    : dep (option UpgradeContract) :=
  row ← refresh_row now workspaceId contractId proposal;
  match row with
  | None => mret None
  | Some r => _ ← recordDependencyUpgradeContractEvent eventId (refreshed_event now contractId r); mret (Some r)
  end.

Definition getDependencyUpgradeContract (workspaceId contractId : string) (d : DepDb) : option UpgradeContract :=
  r ← dd_contracts d !! contractId; if uc_workspace_id r ≡? workspaceId then Some r else None.
Definition getDependencyUpgradeContractById (contractId : string) (d : DepDb) : option UpgradeContract :=
  dd_contracts d !! contractId.
Definition listDependencyUpgradeContracts (workspaceId : string) (d : DepDb) : list (string * UpgradeContract) :=
  order_by (λ r, - uc_updated_at r) (select_where (λ _ r, uc_workspace_id r ≡? workspaceId) (dd_contracts d)).

Definition attachDependencyUpgradeApproval (now : Z) (workspaceId contractId approvalId : string)
    : dep (option UpgradeContract) :=
  row ← update_contract contractId
    (λ r, (uc_workspace_id r ≡? workspaceId) && bool_decide (uc_state r ∈ [us_proposed; us_needs_human])
          && (is_null (uc_approval_id r) || sql_eq (uc_approval_id r) approvalId))
    (λ r, set_contract (uc_state r) (Some approvalId) (uc_last_error r) (uc_proposal r) now r);
  match row with
  | Some r => mret (Some r)
  | None =>
      existing ← reads (getDependencyUpgradeContract workspaceId contractId);
      match existing ≫= uc_approval_id with
      | Some a => if a ≡? approvalId then mret existing
                  else if a ≡? "" then mret None
                  else throw (plain_error "dependency upgrade contract already has another approval")
      | None => mret None
      end
  end.

(** [x ?? undefined] leaves the column. *)
Definition setDependencyUpgradeContractState (now : Z) (workspaceId contractId : string) (state : UpgradeState)
    (lastError issueUrl : option string) (issueNumber : option Z) : dep (option UpgradeContract) :=
  update_contract contractId (λ r, uc_workspace_id r ≡? workspaceId)
    (λ r, let s := set_contract state (uc_approval_id r) lastError (uc_proposal r) now r in
      mkUpgradeContract (uc_workspace_id s) (uc_repository_id s) (uc_watch_id s) (uc_observation_key s)
        (uc_candidate_fingerprint s) (uc_package_name s) (uc_dependency_kind s) (uc_specifier s) (uc_current_version s)
        (uc_target_version s) (uc_manifest_path s) (uc_lockfile_path s) (uc_baseline_sha s) (uc_proposal s) (uc_state s)
        (uc_approval_id s) (coalesce issueUrl (uc_issue_url r)) (coalesce (show_Z <$> issueNumber) (uc_issue_number r))
        (uc_last_error s) (uc_created_by s) (uc_created_at s) (uc_updated_at s)).

(** ** Deciding *)

Record DecideInput := mkDecideInput {
  di_workspaceId : string;
  di_contractId : string;
  di_approvalId : string;
  di_approved : bool;
  di_actor : ContractActor;
}.
Inductive DecideStatus := ds_approved | ds_refused | ds_stale | ds_already_resolved.

(** What the contract says its candidate is. *)
Definition contract_candidate (r : UpgradeContract) : Candidate :=
  mkCandidate (uc_package_name r) None None None (uc_dependency_kind r) (uc_specifier r) (uc_current_version r)
    (uc_target_version r) (uc_manifest_path r) (uc_lockfile_path r) (uc_baseline_sha r) (uc_candidate_fingerprint r)
    None None.

(** The reads: either the answer is known, or a write follows. *)
Inductive DecidePlan :=
  | dp_answer (status : DecideStatus) (contract : option UpgradeContract)
  | dp_write (state : UpgradeState).
Definition resolved_state (approved : bool) : UpgradeState := if approved then us_approved else us_refused.
Definition decide_read (i : DecideInput) (d : DepDb) : DecidePlan :=
  match getDependencyUpgradeContract (di_workspaceId i) (di_contractId i) d with
  | None => dp_answer ds_stale None
  | Some current =>
      if negb (sql_eq (uc_approval_id current) (di_approvalId i)) then dp_answer ds_stale (Some current) else
      match uc_state current with
      | us_proposed =>
          match findDependencyCandidate (di_workspaceId i) (uc_watch_id current) (uc_candidate_fingerprint current) d with
          | Some candidate =>
              if sameCandidate (co_candidate candidate) (contract_candidate current)
              then dp_write (resolved_state (di_approved i)) else dp_write us_stale
          | None => dp_write us_stale
          end
      | us_refused | us_approved | us_published => dp_answer ds_already_resolved (Some current)
      | _ => dp_answer ds_stale (Some current)
      end
  end.

Definition stale_error : string := "candidate observation no longer matches the approved fingerprint".
Definition decidable_row (i : DecideInput) (r : UpgradeContract) : bool :=
  (uc_workspace_id r ≡? di_workspaceId i) && sql_eq (uc_approval_id r) (di_approvalId i) && (uc_state r ≡? us_proposed).
Definition event_of (state : UpgradeState) : UpgradeEvent :=
  match state with us_approved => ue_approved | us_refused => ue_refused | _ => ue_stale end.
Definition status_of (state : UpgradeState) : DecideStatus :=
  match state with us_approved => ds_approved | us_refused => ds_refused | _ => ds_stale end.

(** The guarded write, and the event that follows it. *)
Definition decide_row (now : Z) (i : DecideInput) (state : UpgradeState) : dep (option UpgradeContract) :=
  update_contract (di_contractId i) (decidable_row i)
    (λ r, set_contract state (uc_approval_id r) (if state ≡? us_stale then Some stale_error else None) (uc_proposal r) now r).
Definition decided_event (now : Z) (i : DecideInput) (state : UpgradeState) (r : UpgradeContract) : UpgradeContractEvent :=
  event_for now (di_contractId i) r (di_actor i) (event_of state) (Some (di_approvalId i)) (JObj []).
Definition decide_write (now : Z) (eventId : string) (i : DecideInput) (state : UpgradeState)
    : dep (DecideStatus * option UpgradeContract) :=
  row ← decide_row now i state;
  match row with
  | Some r =>
      _ ← recordDependencyUpgradeContractEvent eventId (decided_event now i state r);
      mret (status_of state, Some r)
  | None =>
      if state ≡? us_stale then mret (ds_stale, None)
      else contract ← reads (getDependencyUpgradeContract (di_workspaceId i) (di_contractId i));
           mret (ds_already_resolved, contract)
  end.
Definition decide_finish (now : Z) (eventId : string) (i : DecideInput) (p : DecidePlan)
    : dep (DecideStatus * option UpgradeContract) :=
  match p with dp_answer s r => mret (s, r) | dp_write state => decide_write now eventId i state end.
(** With nothing in between. *)
Definition decideDependencyUpgradeContract (now : Z) (eventId : string) (i : DecideInput)
    : dep (DecideStatus * option UpgradeContract) :=
  p ← reads (decide_read i); decide_finish now eventId i p.
End Upgrades.
