(* ===== verification/UpgradeFacts.v ===== *)
(** * UpgradeFacts: what the upgrade contracts promise

    Histories of the calls of [DepUpgrades] statement by statement, with the
    calls of [DepWatches] and [GoSumdb] in between: what a contract keeps, what
    an approval rests on, and what the events record. *)

From S2P Require Import Prelude Table Regex Intake JsonText Base64 JsonValue GoReceipt Tx RecordSchema DepSchema.
From S2P Require Import DepWatches WatchFacts GoSumdb GoSumdbFacts DepUpgrades.
From Stdlib Require Import QArith.
Open Scope Z_scope.

(** ** What a contract keeps *)

Definition contract_identity (r : UpgradeContract) :=
  (uc_workspace_id r, uc_repository_id r, uc_watch_id r, uc_observation_key r, contract_candidate r, uc_created_by r,
   uc_created_at r).
(** The states in which a decision may still be taken. *)
Definition undecided (s : UpgradeState) : bool := (s ≡? us_proposed) || (s ≡? us_needs_human).
Definition state_step (s s' : UpgradeState) : Prop :=
  s = s' ∨ (undecided s = true ∧ s' ≠ us_needs_human).
Record contract_later (r r' : UpgradeContract) : Prop := {
  ul_identity : contract_identity r = contract_identity r';
  ul_approval : ∀ a, uc_approval_id r = Some a → uc_approval_id r' = Some a;
  ul_state : state_step (uc_state r) (uc_state r');
}.
#[export] Instance contract_later_preorder : PreOrder contract_later.
Proof.
  split; [intros r; by split; [..|left]|]. intros r1 r2 r3 [A B C] [A' B' C']. split; [congruence|auto|].
  destruct C as [C|[C D]], C' as [C'|[C' D']]; [left; congruence|right; split; congruence|right; split; congruence|right; by split].
Qed.
Lemma contract_later_decided r r' : contract_later r r' → undecided (uc_state r) = false → uc_state r' = uc_state r.
Proof. intros [_ _ [H|[H _]]] Hu; congruence. Qed.

(** ** Histories *)

Section History.
Context (sha256 toLowerCase : string → string).
Implicit Types (d : DepDb).

(** The database, the decisions that have read and not yet written, and the
    events whose row is written and that are not yet recorded. *)
Record UpState := mkUpState {
  up_db : DepDb;
  up_open : list (DecideInput * DecidePlan);
  up_pending : list UpgradeContractEvent;
}.
Implicit Types (s : UpState).
Definition set_db d s : UpState := mkUpState d (up_open s) (up_pending s).
Definition push_event (e : UpgradeContractEvent) s : UpState := mkUpState (up_db s) (up_open s) (e :: up_pending s).
(** A row statement, and what follows a row. *)
Definition after {A} (m : dep (option A)) (event : A → option UpgradeContractEvent) s : UpState :=
  match m (up_db s) with
  | inr (Some a, d') => match event a with Some e => push_event e (set_db d' s) | None => set_db d' s end
  | inr (None, d') => set_db d' s
  | inl _ => s
  end.

Inductive upgrade_op :=
  | uo_other (o : note_op)
  | uo_create (now : Z) (id : string) (i : CreateInput)
  | uo_refresh (now : Z) (workspaceId contractId : string) (proposal : json)
  | uo_attach (now : Z) (workspaceId contractId approvalId : string)
  | uo_read (i : DecideInput)
  | uo_write (now : Z) (n : nat)
  | uo_event (id : string) (n : nat).

Definition exec_upgrade (o : upgrade_op) s : UpState :=
  match o with
  | uo_other o => set_db (exec_note sha256 toLowerCase o (up_db s)) s
  | uo_create now id i => after (create_contract_row sha256 now id i) (λ r, Some (created_event now i r.1 r.2)) s
  | uo_refresh now w k p => after (refresh_row now w k p) (λ r, Some (refreshed_event now k r)) s
  | uo_attach now w k a => after (attachDependencyUpgradeApproval now w k a) (λ _, None) s
  | uo_read i => mkUpState (up_db s) ((i, decide_read sha256 i (up_db s)) :: up_open s) (up_pending s)
  | uo_write now n =>
      match up_open s !! n with
      | Some (i, dp_write st) => after (decide_row now i st) (λ r, Some (decided_event now i st r)) s
      | _ => s
      end
  | uo_event id n =>
      match up_pending s !! n with
      | Some e =>
          match recordDependencyUpgradeContractEvent id e (up_db s) with
          | inr (_, d') => mkUpState d' (up_open s) (delete n (up_pending s))
          | inl _ => s
          end
      | None => s
      end
  end.
Definition exec_upgrades (l : list upgrade_op) s : UpState := fold_left (λ s o, exec_upgrade o s) l s.

(** A contract may be created in any state. *)
Definition creates_undecided (o : upgrade_op) : bool :=
  match o with uo_create _ _ i => undecided (default us_proposed (cu_state i)) | _ => true end.
(** Some creation under the id names a state that is past deciding. *)
Definition born_decided (l : list upgrade_op) (k : string) : Prop :=
  ∃ o, o ∈ l ∧ creates_undecided o = false ∧ match o with uo_create _ id _ => id = k | _ => False end.

(** ** The statements *)

Lemma update_contract_inr k p f d row d' : update_contract k p f d = inr (row, d') →
  (row = None ∧ d' = d) ∨
  ∃ r, dd_contracts d !! k = Some r ∧ p r = true ∧ row = Some (f r) ∧ d' = set_contracts (<[k := f r]> (dd_contracts d)) d.
Proof.
  unfold update_contract, runs. destruct (update_rowP p f k (dd_contracts d)) as [r Hk Hp|Hm]; intros [= <- <-].
  - right. by exists r.
  - left. split; [done|]. by destruct d.
Qed.

Lemma attach_inr now w k a d row d' : attachDependencyUpgradeApproval now w k a d = inr (row, d') →
  d' = d ∨ ∃ r, dd_contracts d !! k = Some r ∧ undecided (uc_state r) = true
    ∧ (uc_approval_id r = None ∨ uc_approval_id r = Some a)
    ∧ d' = set_contracts (<[k := set_contract (uc_state r) (Some a) (uc_last_error r) (uc_proposal r) now r]> (dd_contracts d)) d.
Proof.
  unfold attachDependencyUpgradeApproval. intros (x & d1 & H1 & H2)%bind_inr.
  apply update_contract_inr in H1 as [[-> ->]|(r & Hr & Hp & -> & ->)].
  - left. tx_inv. destruct (getDependencyUpgradeContract w k d ≫= uc_approval_id) as [a'|]; [|by tx_inv].
    destruct (bool_decide (a' = a)); [by tx_inv|]. destruct (bool_decide (a' = "")); by tx_inv.
  - right. tx_inv. exists r. apply andb_true_iff in Hp as [[_ Hst%bool_decide_eq_true]%andb_true_iff Ha].
    split_and!; [done| | |done].
    + unfold undecided. apply elem_of_cons in Hst as [->|Hst]; [done|]. apply list_elem_of_singleton in Hst as ->. done.
    + apply orb_true_iff in Ha as [Ha|Ha%bool_decide_eq_true]; [|by right]. left. by destruct (uc_approval_id r).
Qed.

(** ** The invariant *)

(** The ledger holds an observation of the contract's candidate, as the
    contract describes it. *)
Definition witnessed d (r : UpgradeContract) : Prop :=
  ∃ k o a, dd_observations d !! k = Some o
    ∧ ob_workspace_id o = uc_workspace_id r ∧ ob_watch_id o = uc_watch_id r ∧ ob_status o = ws_candidates
    ∧ candidate_of sha256 (uc_candidate_fingerprint r) o = Some a
    ∧ sameCandidate a (contract_candidate r) = true.

Definition resolution (e : UpgradeContractEvent) : option UpgradeState :=
  match ue_decision e with ue_approved => Some us_approved | ue_refused => Some us_refused | ue_stale => Some us_stale | _ => None end.
(** A resolution event says what its contract is. *)
Definition agrees d (e : UpgradeContractEvent) : Prop :=
  ∀ st, resolution e = Some st → ∃ r, dd_contracts d !! ue_contract_id e = Some r ∧ uc_state r = st
    ∧ is_Some (ue_approval_id e) ∧ uc_approval_id r = ue_approval_id e ∧ uc_workspace_id r = ue_workspace_id e.
Definition resolved_ids (l : list UpgradeContractEvent) : list string :=
  omap (λ e, if resolution e then Some (ue_contract_id e) else None) l.
Definition all_events s : list UpgradeContractEvent := up_pending s ++ (map_to_list (dd_events (up_db s))).*2.

(** [B] holds of the ids that may be created decided. *)
Record up_inv (B : string → Prop) s : Prop := {
  ui_one : ∀ k k' r r', dd_contracts (up_db s) !! k = Some r → dd_contracts (up_db s) !! k' = Some r' →
    uc_workspace_id r = uc_workspace_id r' → uc_candidate_fingerprint r = uc_candidate_fingerprint r' → k = k';
  ui_evidence : ∀ k r, dd_contracts (up_db s) !! k = Some r → uc_state r = us_approved ∨ uc_state r = us_refused →
    B k ∨ witnessed (up_db s) r ∧ is_Some (uc_approval_id r);
  ui_open : ∀ i st, (i, dp_write st) ∈ up_open s → (st = us_approved ∨ st = us_refused ∨ st = us_stale)
    ∧ (st ≠ us_stale → ∃ r, dd_contracts (up_db s) !! di_contractId i = Some r ∧ witnessed (up_db s) r);
  ui_agrees : ∀ e, e ∈ all_events s → agrees (up_db s) e;
  ui_once : NoDup (resolved_ids (all_events s));
}.

(** ** Steps that change contracts *)

(** Contracts only move on, and nothing is forgotten. *)
Record db_later d d' : Prop := {
  dl_contracts : rows contract_later (dd_contracts d) (dd_contracts d');
  dl_ledger : rows eq (dd_observations d) (dd_observations d');
}.
#[local] Instance db_later_preorder : PreOrder db_later.
Proof. split; [intros d; by split|]. intros d1 d2 d3 [A B] [A' B']. split; by etrans. Qed.

Lemma witnessed_later d d' r r' : db_later d d' → contract_later r r' → witnessed d r → witnessed d' r'.
Proof.
  intros [_ L] [I _ _] (k & o & a & Ho & Hw & Hk & Hs & Hc & Hsame). destruct (L _ _ Ho) as (o' & Ho' & <-).
  pose proof (f_equal (λ x, x.1.1.1.1.1.1) I) as I1. pose proof (f_equal (λ x, x.1.1.1.1.2) I) as I2.
  pose proof (f_equal (λ x, x.1.1.2) I) as I3. cbn in I1, I2, I3.
  exists k, o, a. rewrite <- I3. pose proof (f_equal cd_fingerprint I3) as I4. cbn in I4.
  split_and!; congruence || (rewrite <- I4; done).
Qed.
Lemma agrees_later d d' e : db_later d d' → agrees d e → agrees d' e.
Proof.
  intros [C _] H st Hst. destruct (H st Hst) as (r & Hr & Hs & [a Ha] & Happ & Hw).
  destruct (C _ _ Hr) as (r' & Hr' & Hl). exists r'. split_and!; [done| |by rewrite Ha| |].
  - rewrite (contract_later_decided _ _ Hl); [done|]. rewrite Hs. revert Hst. unfold resolution.
    destruct (ue_decision e); intros [= <-]; done.
  - rewrite Ha in Happ |- *. by apply (ul_approval _ _ Hl).
  - pose proof (f_equal (λ x, x.1.1.1.1.1.1) (ul_identity _ _ Hl)) as I. cbn in I. congruence.
Qed.

Section Steps.
Context (B : string → Prop).

(** What is left to show of a step that records no event. *)
Lemma inv_later s d' : up_inv B s → db_later (up_db s) d' → dd_events d' = dd_events (up_db s) →
  (∀ k k' r r', dd_contracts d' !! k = Some r → dd_contracts d' !! k' = Some r' →
     uc_workspace_id r = uc_workspace_id r' → uc_candidate_fingerprint r = uc_candidate_fingerprint r' → k = k') →
  (∀ k r, dd_contracts d' !! k = Some r → uc_state r = us_approved ∨ uc_state r = us_refused →
     B k ∨ witnessed d' r ∧ is_Some (uc_approval_id r)) →
  up_inv B (set_db d' s).
Proof.
  intros [P Q C D E] Hl He Hone Hev. split; cbn; [done|done|..].
  - intros i st Hin. destruct (C i st Hin) as [H1 H2]. split; [done|]. intros Hne. destruct (H2 Hne) as (r & Hr & Hw).
    destruct (dl_contracts _ _ Hl _ _ Hr) as (r' & Hr' & Hrr). exists r'. split; [done|by eapply witnessed_later].
  - unfold all_events. cbn. rewrite He. intros e H. eapply agrees_later; [done|by apply D].
  - unfold all_events. cbn. by rewrite He.
Qed.

Lemma later_set d k r r' : dd_contracts d !! k = Some r → contract_later r r' →
  db_later d (set_contracts (<[k := r']> (dd_contracts d)) d).
Proof. intros Hk Hr. split; cbn; [|done]. by eapply rows_insert; [apply _|..]. Qed.

(** A contract moves on. *)
Lemma inv_contract s k r r' : up_inv B s → dd_contracts (up_db s) !! k = Some r → contract_later r r' →
  (uc_state r' = us_approved ∨ uc_state r' = us_refused →
     uc_state r' = uc_state r ∧ (uc_approval_id r' = uc_approval_id r ∨ is_Some (uc_approval_id r'))
     ∨ witnessed (up_db s) r ∧ is_Some (uc_approval_id r')) →
  up_inv B (set_db (set_contracts (<[k := r']> (dd_contracts (up_db s))) (up_db s)) s).
Proof.
  intros Hinv Hk Hr Hev. pose proof (later_set _ _ _ _ Hk Hr) as Hl. apply inv_later; [done|done|done|..]; cbn.
  - assert (∀ j x, <[k := r']> (dd_contracts (up_db s)) !! j = Some x → ∃ y, dd_contracts (up_db s) !! j = Some y
      ∧ uc_workspace_id y = uc_workspace_id x ∧ uc_candidate_fingerprint y = uc_candidate_fingerprint x) as Hback.
    { intros j x [[<- <-]|[_ Hj]]%lookup_insert_Some; [|by exists x]. exists r. split; [done|].
      pose proof (ul_identity _ _ Hr) as I. split; [apply (f_equal (λ x, x.1.1.1.1.1.1) I)|].
      apply (f_equal (λ x, cd_fingerprint x.1.1.2) I). }
    intros j j' x x' (y & Hy & W & F)%Hback (y' & Hy' & W' & F')%Hback Hw Hf.
    eapply (ui_one _ _ Hinv); [exact Hy|exact Hy'|congruence|congruence].
  - intros j x [[<- <-]|[_ Hj]]%lookup_insert_Some Hst.
    + destruct (Hev Hst) as [[Heq Ha]|[Hw Ha]]; [|right; split; [by eapply witnessed_later|done]].
      rewrite Heq in Hst. destruct (ui_evidence _ _ Hinv k r Hk Hst) as [Hb|[Hw Ha']]; [by left|right].
      split; [by eapply witnessed_later|]. destruct Ha as [->|Ha]; done.
    + destruct (ui_evidence _ _ Hinv j x Hj Hst) as [Hb|[Hw Ha]]; [by left|right]. split; [|done].
      by eapply witnessed_later.
Qed.

(** Recording an event that resolves nothing. *)
Lemma inv_push s e : up_inv B s → resolution e = None → up_inv B (push_event e s).
Proof.
  intros [P Q C D E] He. split; try done.
  - intros x [->|Hx]%elem_of_cons; [intros st; by rewrite He|by apply D].
  - unfold all_events, resolved_ids in *. cbn. by rewrite He.
Qed.

Lemma elem_of_resolved l k : k ∈ resolved_ids l → ∃ e st, e ∈ l ∧ resolution e = Some st ∧ ue_contract_id e = k.
Proof.
  intros (e & He & H)%list_elem_of_omap. destruct (resolution e) as [st|] eqn:Er; [|done]. injection H as <-.
  by exists e, st.
Qed.

(** ** Each step keeps the invariant *)

Lemma inv_other o s : up_inv B s → up_inv B (exec_upgrade (uo_other o) s).
Proof.
  intros Hinv. cbn [exec_upgrade]. destruct (exec_note_rest sha256 toLowerCase o (up_db s)) as (Hc & He & Ho).
  assert (db_later (up_db s) (exec_note sha256 toLowerCase o (up_db s))) as Hl by (split; rewrite ?Hc; done).
  apply inv_later; [done|done|done|rewrite Hc; apply (ui_one _ _ Hinv)|].
  rewrite Hc. intros k r Hk Hst. destruct (ui_evidence _ _ Hinv k r Hk Hst) as [Hb|[Hw Ha]]; [by left|right]. split; [|done].
  eapply witnessed_later; [done|reflexivity|done].
Qed.

Lemma inv_create now id i s : undecided (default us_proposed (cu_state i)) = true ∨ B id →
  up_inv B s → up_inv B (exec_upgrade (uo_create now id i) s).
Proof.
  intros Hund Hinv. cbn [exec_upgrade]. unfold after, create_contract_row, mbind, tx_bind, require_true.
  destruct (bool_decide (candidateFingerprint sha256 _ = _)); cbn; [|done]. unfold insert_contract.
  destruct (select_where _ _) eqn:Es; [|by destruct s].
  destruct (dd_contracts (up_db s) !! id) eqn:Ei; [done|]. apply inv_push; [|by unfold resolution, created_event; cbn; destruct (cu_state i) as [[]|]].
  assert (db_later (up_db s) (set_contracts (<[id := new_contract now i]> (dd_contracts (up_db s))) (up_db s))) as Hl.
  { split; cbn; [|done]. by eapply rows_insert_fresh; [apply _|]. }
  assert (∀ k r, dd_contracts (up_db s) !! k = Some r →
    uc_workspace_id r = cu_workspaceId i → uc_candidate_fingerprint r = cd_fingerprint (cu_candidate i) → False) as Hnew.
  { intros k r Hk Hw Hf.
    assert ((k, r) ∈ select_where (of_candidate (cu_workspaceId i) (cd_fingerprint (cu_candidate i))) (dd_contracts (up_db s))) as Hin.
    { apply elem_of_select_where. split; [done|]. unfold of_candidate. by rewrite Hw, Hf, !bool_decide_eq_true_2. }
    rewrite Es in Hin. by apply not_elem_of_nil in Hin. }
  apply inv_later; [done|done|done|..]; cbn.
  - intros k k' r r' [[<- <-]|[_ Hk]]%lookup_insert_Some [[<- <-]|[_ Hk']]%lookup_insert_Some Hw Hf;
      [done|by destruct (Hnew _ _ Hk')|by destruct (Hnew _ _ Hk)|by eapply (ui_one _ _ Hinv)].
  - intros k r [[<- <-]|[_ Hk]]%lookup_insert_Some Hst.
    + left. destruct Hund as [Hund|Hb]; [|done]. exfalso. cbn in Hst. destruct Hst as [Hst|Hst]; by rewrite Hst in Hund.
    + destruct (ui_evidence _ _ Hinv k r Hk Hst) as [Hb|[Hw Ha]]; [by left|right]. split; [|done]. eapply witnessed_later; [done|reflexivity|done].
Qed.

Lemma inv_refresh now w k p s : up_inv B s → up_inv B (exec_upgrade (uo_refresh now w k p) s).
Proof.
  intros Hinv. cbn [exec_upgrade]. unfold after. destruct (refresh_row now w k p (up_db s)) as [e|[row d']] eqn:E; [done|].
  apply update_contract_inr in E as [[-> ->]|(r & Hr & Hp & -> & ->)]; [by destruct s|].
  apply inv_push; [|done]. bools. eapply inv_contract; [done|exact Hr| |].
  - split; [done|done|]. right. cbn. split; [by rewrite H1|done].
  - by intros [|].
Qed.
Lemma inv_attach now w k a s : up_inv B s → up_inv B (exec_upgrade (uo_attach now w k a) s).
Proof.
  intros Hinv. cbn [exec_upgrade]. unfold after.
  destruct (attachDependencyUpgradeApproval now w k a (up_db s)) as [e|[row d']] eqn:E; [done|].
  assert (up_inv B (set_db d' s)) as Hx; [|by destruct row].
  apply attach_inr in E as [->|(r & Hr & Hu & Ha & ->)]; [by destruct s|].
  eapply inv_contract; [done|exact Hr| |].
  - split; [done| |by left]. cbn. intros a' Ha'. destruct Ha; congruence.
  - cbn. intros Hst. left. split; [done|by right].
Qed.

Lemma first_candidate_in fp l co : first_candidate sha256 fp l = Some co →
  ∃ k o, (k, o) ∈ l ∧ candidate_of sha256 fp o = Some (co_candidate co).
Proof.
  induction l as [|[k o] l IH]; cbn; [done|]. destruct (candidate_of sha256 fp o) as [a|] eqn:E.
  - intros [= <-]. exists k, o. split; [left|done].
  - intros (k' & o' & Hin & H)%IH. exists k', o'. split; [by right|done].
Qed.
Lemma find_candidate_in w k fp d co : findDependencyCandidate sha256 w k fp d = Some co →
  ∃ j o, dd_observations d !! j = Some o ∧ ob_workspace_id o = w ∧ ob_watch_id o = k ∧ ob_status o = ws_candidates
    ∧ candidate_of sha256 fp o = Some (co_candidate co).
Proof.
  unfold findDependencyCandidate. intros (x & _ & (j & o & Hin & Hc)%first_candidate_in)%bind_Some.
  unfold candidate_rows, order_by in Hin. rewrite sorting.merge_sort_Permutation in Hin.
  apply elem_of_select_where in Hin as [Ho Hp]. bools. by exists j, o.
Qed.

(** What a plan to write rests on. *)
Lemma decide_read_write i d st : decide_read sha256 i d = dp_write st →
  (st = us_approved ∨ st = us_refused ∨ st = us_stale)
  ∧ (st ≠ us_stale → ∃ r, dd_contracts d !! di_contractId i = Some r ∧ witnessed d r).
Proof.
  unfold decide_read. destruct (getDependencyUpgradeContract _ _ d) as [r|] eqn:Er; [|done].
  unfold getDependencyUpgradeContract in Er. apply bind_Some in Er as (x & Hx & Hw).
  destruct (bool_decide (uc_workspace_id x = _)) eqn:Ew; [|done]. injection Hw as ->. bools.
  destruct (negb _); [done|]. destruct (uc_state r); try done.
  destruct (findDependencyCandidate _ _ _ _ d) as [co|] eqn:Ef; [|intros [= <-]; split; [by auto|done]].
  destruct (sameCandidate _ _) eqn:Es; intros [= <-]; [|split; [by auto|done]].
  split; [unfold resolved_state; destruct (di_approved i); auto|]. intros _. exists r. split; [done|].
  apply find_candidate_in in Ef as (j & o & Ho & Hw & Hk & Hs & Hc). exists j, o, (co_candidate co). by split_and!; [|congruence|..].
Qed.

Lemma inv_read i s : up_inv B s → up_inv B (exec_upgrade (uo_read i) s).
Proof.
  intros [P Q C D E]. cbn [exec_upgrade]. split; cbn; try done.
  intros j st [[= -> Hp]|Hin]%elem_of_cons; [by apply decide_read_write|by apply C].
Qed.

Lemma inv_write now n s : up_inv B s → up_inv B (exec_upgrade (uo_write now n) s).
Proof.
  intros Hinv. cbn [exec_upgrade]. destruct (up_open s !! n) as [[i [|st]]|] eqn:En; [done| |done].
  apply list_elem_of_lookup_2, (ui_open _ _ Hinv) in En as [Hst Hev].
  unfold after. destruct (decide_row now i st (up_db s)) as [e|[row d']] eqn:E; [done|].
  apply update_contract_inr in E as [[-> ->]|(r & Hr & Hp & -> & ->)]; [by destruct s|].
  unfold decidable_row, sql_eq in Hp. bools.
  assert (contract_later r (set_contract st (uc_approval_id r) (if st ≡? us_stale then Some stale_error else None) (uc_proposal r) now r)) as Hl.
  { split; [done|done|]. right. cbn. unfold undecided. rewrite H0. split; [done|]. by destruct Hst as [->|[->| ->]]. }
  assert (∀ e, e ∈ all_events s → is_Some (resolution e) → ue_contract_id e ≠ di_contractId i) as Hfree.
  { intros e He [x Hx] Heq. destruct (ui_agrees _ _ Hinv e He x Hx) as (r' & Hr' & Hs' & _). rewrite Heq, Hr in Hr'.
    injection Hr' as <-. rewrite Hs' in H0. subst x. revert Hx. unfold resolution. by destruct (ue_decision e). }
  destruct (inv_contract s _ _ _ Hinv Hr Hl) as [P Q C D F].
  { cbn. intros Hd. right. split; [|by rewrite H1]. destruct Hev as (r' & Hr' & Hw'); [by destruct Hd as [->| ->]|congruence]. }
  split; try done.
  - intros e [->|He]%elem_of_cons; [|by apply D]. intros x Hx.
    exists (set_contract st (uc_approval_id r) (if st ≡? us_stale then Some stale_error else None) (uc_proposal r) now r).
    unfold push_event, set_db, decided_event, event_for, new_event. cbn. rewrite lookup_insert_eq.
    split_and!; [done| |done|done|done]. revert Hx. unfold resolution, decided_event, event_for, new_event. cbn.
    destruct Hst as [->|[->| ->]]; by intros [= <-].
  - unfold all_events, resolved_ids in *. cbn.
    assert (is_Some (resolution (decided_event now i st
      (set_contract st (uc_approval_id r) (if st ≡? us_stale then Some stale_error else None) (uc_proposal r) now r)))) as [x ->]
      by (unfold resolution; cbn; destruct Hst as [->|[->| ->]]; by eexists).
    cbn. constructor; [|exact F]. intros (e & y & He & Hy & Heq)%elem_of_resolved. by apply (Hfree e He).
Qed.

Lemma inv_event id n s : up_inv B s → up_inv B (exec_upgrade (uo_event id n) s).
Proof.
  intros Hinv. cbn [exec_upgrade]. destruct (up_pending s !! n) as [e|] eqn:En; [|done].
  unfold recordDependencyUpgradeContractEvent. destruct (dd_events (up_db s) !! id) eqn:Ei; [done|].
  set (s' := mkUpState _ _ _). assert (all_events s' ≡ₚ all_events s) as Hp.
  { unfold all_events, s'. cbn. rewrite map_to_list_insert by done. rewrite fmap_cons. cbn.
    rewrite (delete_Permutation (up_pending s) n e En) at 2. cbn. by rewrite <- Permutation_middle. }
  destruct Hinv as [P Q C D E]. split; [exact P|exact Q|exact C|..].
  - intros x Hx. rewrite Hp in Hx. exact (D x Hx).
  - unfold resolved_ids in *. by rewrite Hp.
Qed.

Definition may_create (o : upgrade_op) : Prop :=
  creates_undecided o = true ∨ match o with uo_create _ id _ => B id | _ => True end.
Lemma inv_upgrade o s : may_create o → up_inv B s → up_inv B (exec_upgrade o s).
Proof.
  destruct o; intros Hc; [apply inv_other|by apply inv_create|apply inv_refresh|apply inv_attach|apply inv_read
    |apply inv_write|apply inv_event].
Qed.

(** No contract and no event yet; the ledger may hold anything. *)
Definition no_contracts s : Prop :=
  dd_contracts (up_db s) = ∅ ∧ dd_events (up_db s) = ∅ ∧ up_open s = [] ∧ up_pending s = [].

Lemma reachable_inv l s : no_contracts s → Forall may_create l → up_inv B (exec_upgrades l s).
Proof.
  intros (A & A' & C & D) Hl. assert (up_inv B s) as Hs.
  { split; unfold all_events; rewrite ?A, ?A', ?C, ?D.
    - by intros k k' r r' ?.
    - by intros k r ?.
    - by intros i st ?%not_elem_of_nil.
    - by intros e ?%not_elem_of_nil.
    - constructor. }
  clear A A' C D. revert s Hs. induction Hl as [|o l Ho _ IH]; intros s Hs; [done|]. by apply IH, inv_upgrade.
Qed.
End Steps.

Lemma reachable_undecided l s : no_contracts s → Forall (λ o, creates_undecided o = true) l →
  up_inv (λ _, False) (exec_upgrades l s).
Proof. intros Hs Hl. apply reachable_inv; [done|]. eapply Forall_impl; [exact Hl|]. intros o Ho. by left. Qed.
Lemma born_may_create l : Forall (may_create (born_decided l)) l.
Proof.
  apply Forall_forall. intros o Ho. unfold may_create. destruct (creates_undecided o) eqn:E; [by left|right].
  destruct o; try done. exists (uo_create now id i). by split_and!.
Qed.

(** C27 (invariant).  Whatever the order in which contracts are created,
    refreshed, given approvals and decided, with reads and writes of several
    decisions interleaved and events recorded late or never: a candidate has
    one contract per workspace; an approved or refused contract has its
    approval, and the ledger of its watch holds an observation of exactly its
    candidate - or a creation under its id named a state past deciding, which
    the code accepts ([contract_born_approved]) though no caller asks for it; an
    event that says approved, refused or stale agrees with the state and the
    approval of its contract; and a contract has at most one. *)
Theorem decisions_rest_on_evidence l s :
  no_contracts s →
  let s' := exec_upgrades l s in
  (∀ k k' r r', dd_contracts (up_db s') !! k = Some r → dd_contracts (up_db s') !! k' = Some r' →
     uc_workspace_id r = uc_workspace_id r' → uc_candidate_fingerprint r = uc_candidate_fingerprint r' → k = k')
  ∧ (∀ k r, dd_contracts (up_db s') !! k = Some r → uc_state r = us_approved ∨ uc_state r = us_refused →
       born_decided l k ∨ witnessed (up_db s') r ∧ is_Some (uc_approval_id r))
  ∧ (∀ k e, dd_events (up_db s') !! k = Some e → agrees (up_db s') e)
  ∧ (∀ k k' e e', dd_events (up_db s') !! k = Some e → dd_events (up_db s') !! k' = Some e' →
       is_Some (resolution e) → is_Some (resolution e') → ue_contract_id e = ue_contract_id e' → k = k').
Proof.
  intros Hs s'. destruct (reachable_inv _ l s Hs (born_may_create l)) as [A B _ D E]. fold s' in A, B, D, E.
  split_and!; [exact A|exact B|..].
  - intros k e Hk. apply D. unfold all_events. apply elem_of_app. right. apply list_elem_of_fmap.
    exists (k, e). split; [done|by apply elem_of_map_to_list].
  - intros k k' e e' Hk Hk' [x Hx] [x' Hx'] Heq. destruct (decide (k = k')) as [|Hne]; [done|exfalso].
    unfold all_events, resolved_ids in E. rewrite omap_app in E. apply NoDup_app in E as (_ & _ & E). revert E.
    rewrite <- (insert_delete_id _ _ _ Hk), map_to_list_insert by apply lookup_delete_eq.
    rewrite <- (insert_delete_id (delete k (dd_events (up_db s'))) k' e') by (by rewrite lookup_delete_ne).
    rewrite map_to_list_insert by apply lookup_delete_eq. rewrite !fmap_cons. cbn. rewrite Hx, Hx'. cbn. rewrite Heq.
    intros [Hn _]%NoDup_cons. apply Hn. left.
Qed.

(** ** Contracts only move on *)

Lemma after_later {A} (m : dep (option A)) ev s :
  (∀ d row d', m d = inr (row, d') → db_later d d') → db_later (up_db s) (up_db (after m ev s)).
Proof.
  intros H. unfold after. destruct (m (up_db s)) as [e|[row d']] eqn:E; [done|]. apply H in E.
  destruct row as [a|]; [|done]. by destruct (ev a).
Qed.
Lemma update_contract_later k p f d row d' : (∀ r, p r = true → contract_later r (f r)) →
  update_contract k p f d = inr (row, d') → db_later d d'.
Proof.
  intros Hf [[_ ->]|(r & Hr & Hp & _ & ->)]%update_contract_inr; [done|]. by eapply later_set, Hf.
Qed.
Lemma exec_upgrade_later B o s : up_inv B s → db_later (up_db s) (up_db (exec_upgrade o s)).
Proof.
  intros Hinv. destruct o; cbn [exec_upgrade].
  - destruct (exec_note_rest sha256 toLowerCase o (up_db s)) as (Hc & _ & Ho). split; cbn; rewrite ?Hc; done.
  - apply after_later. intros d row d'. unfold create_contract_row, mbind, tx_bind, require_true.
    destruct (bool_decide _); [|done]. cbn. unfold insert_contract. destruct (select_where _ _); [|by intros [= _ <-]].
    destruct (dd_contracts d !! id) eqn:Ei; [done|]. intros [= _ <-]. split; cbn; [|done].
    by eapply rows_insert_fresh; [apply _|].
  - apply after_later. intros d row d'. apply update_contract_later. intros r Hp. bools.
    split; [done|done|]. right. cbn. split; [by rewrite H1|done].
  - apply after_later. intros d row d' [->|(r & Hr & Hu & Ha & ->)]%attach_inr; [done|]. eapply later_set; [done|].
    split; [done| |by left]. cbn. intros a' Ha'. destruct Ha; congruence.
  - done.
  - destruct (up_open s !! n) as [[i [|st]]|] eqn:En; [done| |done].
    apply list_elem_of_lookup_2, (ui_open _ _ Hinv) in En as [Hst _].
    apply after_later. intros d row d'. apply update_contract_later. intros r Hp. unfold decidable_row in Hp. bools.
    split; [done|done|]. right. cbn. unfold undecided. rewrite H0. split; [done|]. by destruct Hst as [->|[->| ->]].
  - destruct (up_pending s !! n); [|done]. unfold recordDependencyUpgradeContractEvent.
    by destruct (dd_events (up_db s) !! id).
Qed.

(** A contract is decided once: in any history its candidate,
    watch and workspace never change, an approval once attached is never
    replaced, and a contract that has been approved, refused or found stale
    stays so, whatever decisions were still in flight. *)
Theorem contract_decided_once l l' s k r :
  no_contracts s → Forall (λ o, creates_undecided o = true) (l ++ l') →
  dd_contracts (up_db (exec_upgrades l s)) !! k = Some r →
  ∃ r', dd_contracts (up_db (exec_upgrades (l ++ l') s)) !! k = Some r' ∧ contract_later r r'
    ∧ (undecided (uc_state r) = false → uc_state r' = uc_state r).
Proof.
  intros Hs [Hl Hl']%Forall_app Hk. pose proof (reachable_undecided l s Hs Hl) as Hinv.
  assert (db_later (up_db (exec_upgrades l s)) (up_db (exec_upgrades (l ++ l') s))) as [Hrows _].
  { unfold exec_upgrades in *. rewrite fold_left_app. revert Hinv. generalize (fold_left (λ s o, exec_upgrade o s) l s). clear -Hl'.
    induction Hl' as [|o l' Ho _ IH]; intros s Hinv; [done|]. cbn. etrans; [by eapply (exec_upgrade_later _ o)|].
    apply IH. apply inv_upgrade; [by left|done]. }
  destruct (Hrows k r Hk) as (r' & Hr' & Hlat). exists r'. split_and!; [done|done|]. by apply contract_later_decided.
Qed.

(** ** The fingerprint *)

(** What the fingerprint covers. *)
Definition fingerprinted (a : Candidate) : list string :=
  [cd_baseline_sha a; cd_current_version a; cd_dependency_kind a; cd_lockfile_path a; cd_manifest_path a; cd_package a;
   cd_specifier a; cd_target_version a; or_empty (cd_package_manager a)].

Lemma payload_inj a b : fingerprint_payload a = fingerprint_payload b → fingerprinted a = fingerprinted b.
Proof.
  unfold fingerprint_payload, fingerprinted, json_object.
  assert (∀ x, match x with Some pm => if pm ≡? "" then [] else [("package_manager", json_quote pm)] | None => [] end
    = if or_empty x ≡? "" then [] else [("package_manager", json_quote (or_empty x))]) as Hpm by (by intros [[]|]).
  rewrite !Hpm. generalize (or_empty (cd_package_manager a)) (or_empty (cd_package_manager b)). intros p q.
  destruct (decide (p = "")) as [->|Hp], (decide (q = "")) as [->|Hq];
    rewrite ?(bool_decide_eq_false_2 _ Hp), ?(bool_decide_eq_false_2 _ Hq), ?(bool_decide_eq_true_2 ("" = "" :> string)) by done;
    cbn [app fmap list_fmap join_strings fst snd]; rewrite !append_assoc; intros H.
  all: do 3 apply (inj (String.append _)) in H; apply json_quote_prefix in H as [-> H].
  all: do 7 (do 3 apply (inj (String.append _)) in H; apply json_quote_prefix in H as [-> H]).
  all: try done.
  do 3 apply (inj (String.append _)) in H. by apply json_quote_prefix in H as [-> _].
Qed.

(** A contract of a candidate with a package manager can be
    neither approved nor refused.  The contract does not store the package
    manager, the comparison with the observed candidate includes it, and the
    fingerprint pins it; so every decision finds the contract stale. *)
Theorem managed_candidate_never_decided l s a k r :
  no_contracts s → Forall (λ o, creates_undecided o = true) l →
  or_empty (cd_package_manager a) ≠ "" →
  (∀ b, sha256 (fingerprint_payload b) = sha256 (fingerprint_payload a) → fingerprint_payload b = fingerprint_payload a) →
  dd_contracts (up_db (exec_upgrades l s)) !! k = Some r →
  uc_candidate_fingerprint r = candidateFingerprint sha256 a →
  uc_state r ≠ us_approved ∧ uc_state r ≠ us_refused.
Proof.
  intros Hs Hl Hpm Hsha Hk Hfp. pose proof (ui_evidence _ _ (reachable_undecided l s Hs Hl) k r Hk) as Hev.
  assert (¬ witnessed (up_db (exec_upgrades l s)) r) as Hno; [|naive_solver].
  intros (j & o & b & _ & _ & _ & _ & Hc & Hsame). unfold candidate_of in Hc.
  apply List.find_some in Hc as [_ Hc]. bools.
  assert (fingerprinted b = fingerprinted a) as Hf.
  { apply payload_inj, Hsha. apply (inj (String.append "sha256:")). change (candidateFingerprint sha256 b = candidateFingerprint sha256 a). congruence. }
  unfold fingerprinted in Hf. injection Hf as _ _ _ _ _ _ _ _ Hf.
  unfold sameCandidate in Hsame. bools. cbn in H3. congruence.
Qed.

(** The newest observation of the candidate still is the contract's. *)
Definition observed_same i (r : UpgradeContract) d : bool :=
  match findDependencyCandidate sha256 (di_workspaceId i) (uc_watch_id r) (uc_candidate_fingerprint r) d with
  | Some c => sameCandidate (co_candidate c) (contract_candidate r)
  | None => false
  end.
Definition decided_state i r d : UpgradeState :=
  if observed_same i r d then resolved_state (di_approved i) else us_stale.
Lemma decide_read_proposed i r d : getDependencyUpgradeContract (di_workspaceId i) (di_contractId i) d = Some r →
  sql_eq (uc_approval_id r) (di_approvalId i) = true → uc_state r = us_proposed →
  decide_read sha256 i d = dp_write (decided_state i r d).
Proof.
  intros Hr Ha Hs. unfold decide_read, decided_state, observed_same. rewrite Hr, Ha, Hs. cbn [negb].
  destruct (findDependencyCandidate _ _ _ _ d) as [c|]; [|done]. by destruct (sameCandidate _ _).
Qed.
Lemma decided_state_cases i r d :
  decided_state i r d = us_approved ∨ decided_state i r d = us_refused ∨ decided_state i r d = us_stale.
Proof. unfold decided_state, resolved_state. destruct (observed_same i r d); [destruct (di_approved i)|]; auto. Qed.

(** What a decision answers, with nothing in between: it is stale
    when the contract is missing, another workspace's, or bound to another
    approval; a contract already approved, refused or published is reported so
    and anything else that is not proposed is stale, and nothing is written; a
    proposed one takes the decision when the newest observation of its
    candidate is the same, and becomes stale otherwise, and the one event says
    which. *)
Theorem decide_outcome now ev i d :
  dd_events d !! ev = None →
  let res := transaction (decideDependencyUpgradeContract sha256 now ev i) d in
  match getDependencyUpgradeContract (di_workspaceId i) (di_contractId i) d with
  | None => res = (inr (ds_stale, None), d)
  | Some r =>
      if negb (sql_eq (uc_approval_id r) (di_approvalId i)) then res = (inr (ds_stale, Some r), d)
      else if uc_state r ≡? us_proposed then
        let st := decided_state i r d in
        ∃ r' e, res = (inr (status_of st, Some r'),
                       set_events (<[ev := e]> (dd_events d)) (set_contracts (<[di_contractId i := r']> (dd_contracts d)) d))
          ∧ uc_state r' = st ∧ contract_later r r' ∧ resolution e = Some st ∧ ue_contract_id e = di_contractId i
          ∧ ue_approval_id e = Some (di_approvalId i)
      else res = (inr (if bool_decide (uc_state r ∈ [us_approved; us_refused; us_published]) then ds_already_resolved else ds_stale, Some r), d)
  end.
Proof.
  intros Hev res. unfold res, transaction, decideDependencyUpgradeContract, mbind, tx_bind, reads.
  destruct (getDependencyUpgradeContract (di_workspaceId i) (di_contractId i) d) as [r|] eqn:Er;
    [|unfold decide_read; by rewrite Er].
  destruct (sql_eq (uc_approval_id r) (di_approvalId i)) eqn:Ea; cbn [negb]; [|unfold decide_read; by rewrite Er, Ea].
  destruct (bool_decide (uc_state r = us_proposed)) eqn:Est.
  2:{ apply bool_decide_eq_false in Est. unfold decide_read. rewrite Er, Ea. by destruct (uc_state r). }
  apply bool_decide_eq_true in Est. rewrite (decide_read_proposed _ _ _ Er Ea Est). cbv zeta.
  pose proof (decided_state_cases i r d) as Hst. revert Hst. generalize (decided_state i r d). intros st Hst.
  unfold decide_finish, decide_write, mbind, tx_bind, decide_row, update_contract, runs, update_row.
  unfold getDependencyUpgradeContract in Er. apply bind_Some in Er as (x & Hx & Hw).
  destruct (bool_decide (uc_workspace_id x = _)) eqn:Ew; [|done]. injection Hw as ->. rewrite Hx.
  assert (decidable_row i r = true) as -> by (unfold decidable_row; by rewrite Ew, Ea, Est).
  unfold recordDependencyUpgradeContractEvent. cbn [dd_events set_contracts]. rewrite Hev.
  eexists _, _. split; [reflexivity|]. cbn.
  split_and!; try done.
  - split; [done|done|]. right. cbn. rewrite Est. split; [done|]. by destruct Hst as [->|[->| ->]].
  - unfold resolution, decided_event, event_for, new_event. cbn. by destruct Hst as [->|[->| ->]].
Qed.
End History.

(** ** A candidate, its contract and its approval *)

Module SampleUpgrade.
Definition sha (s : string) : string := s.
Definition candidate_with (pm : option string) : Candidate :=
  let a := mkCandidate "react" None pm None "dependencies" "^18" "18.2.0" "18.3.1" "package.json" "pnpm-lock.yaml" "c0"
    "" None None in
  mkCandidate "react" None pm None "dependencies" "^18" "18.2.0" "18.3.1" "package.json" "pnpm-lock.yaml" "c0"
    (candidateFingerprint sha a) None None.
Definition to_json (a : Candidate) : json :=
  JObj ([("package", JStr (cd_package a)); ("dependency_kind", JStr (cd_dependency_kind a)); ("specifier", JStr (cd_specifier a));
         ("current_version", JStr (cd_current_version a)); ("target_version", JStr (cd_target_version a));
         ("manifest_path", JStr (cd_manifest_path a)); ("lockfile_path", JStr (cd_lockfile_path a));
         ("baseline_sha", JStr (cd_baseline_sha a)); ("fingerprint", JStr (cd_fingerprint a))]
        ++ match cd_package_manager a with Some pm => [("package_manager", JStr pm)] | None => [] end).
Definition seen (a : Candidate) : ObservationInput :=
  mkObservationInput "ws" "watch" "repo" tr_scheduled (Some "c0") ∅ "k1" (Some (cd_fingerprint a)) None None ws_candidates
    [to_json a] None None (Some 5) None.
Definition start : UpState := mkUpState SampleWatch.db [] [].
Definition human : ContractActor := mkContractActor "console_user" "u1".
(** Observed, contracted, approved by a human, recorded. *)
Definition steps (a : Candidate) : list upgrade_op :=
  [uo_other (no_watch SampleWatch.configured); uo_other (no_watch (op_observe (SampleWatch.clock 5) "obs" (seen a)));
   uo_create 6 "contract" (mkCreateInput "ws" "repo" "watch" "k1" a (JObj []) None None); uo_event "e1" 0;
   uo_attach 7 "ws" "contract" "approval"; uo_read (mkDecideInput "ws" "contract" "approval" true human);
   uo_write 8 0; uo_event "e2" 0].
Definition run (l : list upgrade_op) : UpState := exec_upgrades sha SampleWatch.lc l start.
Definition plain : Candidate := candidate_with None.
Definition managed : Candidate := candidate_with (Some "pnpm").
End SampleUpgrade.

Lemma sample_start : no_contracts SampleUpgrade.start.
Proof. by split_and!. Qed.
Lemma sample_steps_undecided a : Forall (λ o, creates_undecided o = true) (SampleUpgrade.steps a).
Proof. repeat constructor. Qed.
Lemma sample_approved : ∃ r, dd_contracts (up_db (SampleUpgrade.run (SampleUpgrade.steps SampleUpgrade.plain))) !! "contract" = Some r
  ∧ uc_state r = us_approved.
Proof. eexists. split; [vm_compute; reflexivity|done]. Qed.
(** The same steps with a package manager end with a stale contract. *)
Lemma sample_stale : ∃ r, dd_contracts (up_db (SampleUpgrade.run (SampleUpgrade.steps SampleUpgrade.managed))) !! "contract" = Some r
  ∧ uc_state r = us_stale ∧ uc_candidate_fingerprint r = candidateFingerprint SampleUpgrade.sha SampleUpgrade.managed.
Proof. eexists. split; [vm_compute; reflexivity|]. split; [done|by vm_compute]. Qed.

(** A creation may name the state approved: the contract then has neither an
    approval nor an observation, and its one event says that it was proposed. *)
Theorem contract_born_approved :
  let i := mkCreateInput "ws" "repo" "watch" "k1" SampleUpgrade.plain (JObj []) None (Some us_approved) in
  let s := SampleUpgrade.run [uo_create 6 "contract" i; uo_event "e1" 0] in
  option_map (λ r, (uc_state r, uc_approval_id r)) (dd_contracts (up_db s) !! "contract") = Some (us_approved, None)
  ∧ option_map ue_decision (dd_events (up_db s) !! "e1") = Some ue_proposed ∧ dd_observations (up_db s) = ∅.
Proof. by vm_compute. Qed.

Lemma sample_not_born a k : ¬ born_decided (SampleUpgrade.steps a) k.
Proof.
  intros (o & Ho & Hc & _). pose proof (proj1 (Forall_forall _ _) (sample_steps_undecided a) o Ho) as H. congruence.
Qed.

Lemma decisions_rest_on_evidence_witness :
  ∃ r, dd_contracts (up_db (SampleUpgrade.run (SampleUpgrade.steps SampleUpgrade.plain))) !! "contract" = Some r
    ∧ witnessed SampleUpgrade.sha (up_db (SampleUpgrade.run (SampleUpgrade.steps SampleUpgrade.plain))) r.
Proof.
  destruct (decisions_rest_on_evidence SampleUpgrade.sha SampleWatch.lc (SampleUpgrade.steps SampleUpgrade.plain)
    SampleUpgrade.start sample_start) as (_ & Hev & _).
  destruct sample_approved as (r & Hr & Hst). exists r. split; [exact Hr|].
  destruct (Hev "contract" r Hr (or_introl Hst)) as [Hb|[Hw _]]; [|exact Hw].
  destruct (sample_not_born _ _ Hb).
Defined.

Lemma contract_decided_once_witness :
  ∃ r r', dd_contracts (up_db (SampleUpgrade.run (SampleUpgrade.steps SampleUpgrade.plain))) !! "contract" = Some r
    ∧ dd_contracts (up_db (SampleUpgrade.run (SampleUpgrade.steps SampleUpgrade.plain ++ [uo_write 9 0]))) !! "contract" = Some r'
    ∧ uc_state r' = us_approved.
Proof.
  destruct sample_approved as (r & Hr & Hst).
  assert (Forall (λ o, creates_undecided o = true) (SampleUpgrade.steps SampleUpgrade.plain ++ [uo_write 9 0])) as Hl
    by (repeat constructor).
  destruct (contract_decided_once SampleUpgrade.sha SampleWatch.lc (SampleUpgrade.steps SampleUpgrade.plain) [uo_write 9 0]
    SampleUpgrade.start "contract" r sample_start Hl Hr) as (r' & Hr' & _ & Hsame).
  exists r, r'. split; [exact Hr|]. split; [exact Hr'|]. rewrite Hsame; [exact Hst|]. rewrite Hst. reflexivity.
Defined.

Lemma managed_candidate_never_decided_witness :
  ∃ r, dd_contracts (up_db (SampleUpgrade.run (SampleUpgrade.steps SampleUpgrade.managed))) !! "contract" = Some r
    ∧ uc_state r ≠ us_approved ∧ uc_state r ≠ us_refused.
Proof.
  destruct sample_stale as (r & Hr & _ & Hf). exists r. split; [exact Hr|].
  assert (or_empty (cd_package_manager SampleUpgrade.managed) ≠ "") as Hpm by discriminate.
  exact (managed_candidate_never_decided SampleUpgrade.sha SampleWatch.lc (SampleUpgrade.steps SampleUpgrade.managed)
    SampleUpgrade.start SampleUpgrade.managed "contract" r sample_start (sample_steps_undecided SampleUpgrade.managed) Hpm
    (λ b H, H) Hr Hf).
Defined.

Lemma decide_outcome_witness :
  ∃ r, transaction (decideDependencyUpgradeContract SampleUpgrade.sha 9 "e9"
    (mkDecideInput "ws" "none" "approval" true SampleUpgrade.human)) SampleWatch.db = (inr (ds_stale, r), SampleWatch.db).
Proof.
  assert (dd_events SampleWatch.db !! "e9" = None) as He by reflexivity.
  pose proof (decide_outcome SampleUpgrade.sha 9 "e9" (mkDecideInput "ws" "none" "approval" true SampleUpgrade.human)
    SampleWatch.db He) as H.
  exists None. exact H.
Defined.
