(* ===== verification/NpmRange.v ===== *)
(** * NpmRange: npm versions and the version ranges a candidate must stay in

    [queries/dependency_observation_acceptance_records.ts]: the parser of npm
    versions, their precedence, and the conservative subset of npm's range
    grammar the proposal boundary understands.  The regular expressions of the
    source are anchored and have one match at most, so they are written as
    functions that cut the text at its separators. *)

From S2P Require Import Prelude Regex Intake JsonText Base64 JsonValue.
From Stdlib Require Import Ascii.
From Stdlib Require String.
Open Scope Z_scope.

(** ** Comparisons *)

(** A three-way comparison that is a total order. *)
Class TotalCompare {A} (cmp : A → A → comparison) : Prop := {
  cmp_eq x y : cmp x y = Eq ↔ x = y;
  cmp_sym x y : cmp y x = CompOpp (cmp x y);
  cmp_trans x y z : cmp x y = Lt → cmp y z = Lt → cmp x z = Lt;
}.
#[export] Instance N_compare_total : TotalCompare N.compare.
Proof.
  split; [apply N.compare_eq_iff|intros; apply N.compare_antisym|].
  intros x y z. rewrite !N.compare_lt_iff. lia.
Qed.
#[export] Instance string_compare_total : TotalCompare String.compare.
Proof.
  split.
  - intros x y. split; [apply String.compare_eq_iff|intros <-].
    induction x as [|a x IH]; [done|]. cbn. unfold Ascii.compare. by rewrite N.compare_refl.
  - intros. by rewrite String.compare_antisym.
  - induction x as [|a x IH]; intros [|b y] [|c z]; cbn; try done. unfold Ascii.compare.
    destruct (N_of_ascii a ?= N_of_ascii b)%N eqn:Hab, (N_of_ascii b ?= N_of_ascii c)%N eqn:Hbc; try done;
      rewrite ?N.compare_eq_iff, ?N.compare_lt_iff in *.
    + rewrite Hab, Hbc, N.compare_refl. apply IH.
    + intros _ _. rewrite Hab. by apply N.compare_lt_iff in Hbc as ->.
    + intros _ _. rewrite <- Hbc. by apply N.compare_lt_iff in Hab as ->.
    + intros _ _. assert (N_of_ascii a < N_of_ascii c)%N as H by lia. by apply N.compare_lt_iff in H as ->.
Qed.
Lemma cmp_refl {A} (cmp : A → A → comparison) `{!TotalCompare cmp} x : cmp x x = Eq.
Proof. by apply cmp_eq. Qed.

(** The first comparison, and the second where it does not decide. *)
Definition cmp_then (c d : comparison) : comparison := match c with Eq => d | _ => c end.

(** ** Versions *)

(** [bigint | string] *)
Inductive Part := pr_num (n : N) | pr_text (s : string).
#[export] Instance Part_eq_dec : EqDecision Part.
Proof. solve_decision. Defined.
Record NpmSemver := mkNpmSemver { nv_major : N; nv_minor : N; nv_patch : N; nv_prerelease : list Part }.
#[export] Instance NpmSemver_eq_dec : EqDecision NpmSemver.
Proof. solve_decision. Defined.

(** A decimal number without a leading zero. *)
Definition numeric (s : string) : option N :=
  if (s ≡? "") || starts_with "0" s && (s ≢? "0") then None else read_N s.
(** Letters, digits and hyphens, at least one. *)
Definition ident_char (c : ascii) : bool := is_word c && (c ≢? "_"%char) || (c ≡? "-"%char).
Definition identifier (s : string) : bool := (s ≢? "") && all_chars ident_char s.
(** One part of a prerelease: a number without a leading zero, or an
    identifier that is not all digits. *)
Definition prerelease_part (s : string) : option Part :=
  if negb (identifier s) then None
  else if all_chars is_digit s then pr_num <$> numeric s
  else Some (pr_text s).
(** The text before the first [c], and the text after it when there is one. *)
Definition cut_opt (c : ascii) (s : string) : string * option string :=
  match cut c s with Some (a, b) => (a, Some b) | None => (s, None) end.
Definition parse_core (s : string) : option (N * N * N) :=
  match split_on "." s with
  | [a; b; c] => match numeric a, numeric b, numeric c with Some x, Some y, Some z => Some (x, y, z) | _, _, _ => None end
  | _ => None
  end.
Definition parse_prerelease (s : option string) : option (list Part) :=
  match s with Some t => mapM prerelease_part (split_on "." t) | None => Some [] end.
Definition build_ok (s : option string) : bool :=
  match s with Some t => forallb identifier (split_on "." t) | None => true end.

(** [NPM_VERSION], applied to a trimmed text. *)
Definition version_of (s : string) : option NpmSemver :=
  let s := if starts_with "v" s then slice_from 1 s else s in
  let '(rest, build) := cut_opt "+" s in
  let '(core, pre) := cut_opt "-" rest in
  match parse_core core, parse_prerelease pre with
  | Some (x, y, z), Some parts => if build_ok build then Some (mkNpmSemver x y z parts) else None
  | _, _ => None
  end.
Definition parseNpmSemver (value : string) : option NpmSemver := version_of (trim value).

Definition compare_part (l r : Part) : comparison :=
  match l, r with
  | pr_num a, pr_num b => (a ?= b)%N
  | pr_num _, pr_text _ => Lt
  | pr_text _, pr_num _ => Gt
  | pr_text a, pr_text b => String.compare a b
  end.
(** The first part that differs decides, and then the length. *)
Fixpoint compare_parts (l r : list Part) : comparison :=
  match l, r with
  | [], [] => Eq
  | [], _ => Lt
  | _, [] => Gt
  | x :: l', y :: r' => cmp_then (compare_part x y) (compare_parts l' r')
  end.
Definition compare_prerelease (l r : list Part) : comparison :=
  match l, r with
  | [], [] => Eq
  | [], _ => Gt
  | _, [] => Lt
  | _, _ => compare_parts l r
  end.
Definition compareNpmSemver (l r : NpmSemver) : comparison :=
  cmp_then (nv_major l ?= nv_major r)%N (cmp_then (nv_minor l ?= nv_minor r)%N
    (cmp_then (nv_patch l ?= nv_patch r)%N (compare_prerelease (nv_prerelease l) (nv_prerelease r)))).
Definition at_least (l r : NpmSemver) : bool := match compareNpmSemver l r with Lt => false | _ => true end.
Definition below (l r : NpmSemver) : bool := match compareNpmSemver l r with Lt => true | _ => false end.

(** ** Ranges *)

Definition core (v : NpmSemver) : N * N * N := (nv_major v, nv_minor v, nv_patch v).
Definition sameNpmSemverCore (l r : NpmSemver) : bool := core l ≡? core r.
Definition npmPrereleaseIsAdmitted (actual : NpmSemver) (prereleaseCores : list NpmSemver) : bool :=
  bool_decide (nv_prerelease actual = []) || existsb (sameNpmSemverCore actual) prereleaseCores.
Definition has_prerelease (v : NpmSemver) : bool := bool_decide (nv_prerelease v ≠ []).

Definition is_wildcard (s : string) : bool := bool_decide (s ∈ ["*"; "x"; "X"]).
Definition bound (x y z : N) : NpmSemver := mkNpmSemver x y z [].
(** [None] is the [null] result; [Some None] are no bounds. *)
Definition npmWildcardBounds (text : string) : option (option (NpmSemver * NpmSemver)) :=
  if is_wildcard text then Some None else
  let parts := split_on "." text in
  if (3 <? length parts)%nat || existsb (λ p, negb (is_wildcard p) && is_null (numeric p)) parts then None else
  match parts with
  | a :: rest =>
      if is_wildcard a then Some None else
      major ← numeric a;
      match rest with
      | [] => Some (Some (bound major 0 0, bound (major + 1) 0 0))
      | b :: rest =>
          if is_wildcard b then Some (Some (bound major 0 0, bound (major + 1) 0 0)) else
          minor ← numeric b;
          match rest with
          | [] => Some (Some (bound major minor 0, bound major (minor + 1) 0))
          | c :: _ => if is_wildcard c then Some (Some (bound major minor 0, bound major (minor + 1) 0)) else None
          end
      end
  | [] => None
  end.

Definition npmComparatorMatches (operator : string) (actual expected : NpmSemver) : bool :=
  let comparison := compareNpmSemver actual expected in
  if operator ≡? "=" then comparison ≡? Eq
  else if operator ≡? ">" then comparison ≡? Gt
  else if operator ≡? ">=" then comparison ≢? Lt
  else if operator ≡? "<" then comparison ≡? Lt
  else (operator ≡? "<=") && (comparison ≢? Gt).
(** The operator and the version of [NPM_COMPARATOR]. *)
Definition operators : list string := ["<="; ">="; "<"; ">"; "="].
Definition comparator_of (token : string) : option (option string * NpmSemver) :=
  match List.find (λ o, starts_with o token) operators with
  | Some o => (λ v, (Some o, v)) <$> version_of (slice_from (String.length o) token)
  | None => (λ v, (None, v)) <$> version_of token
  end.

(** [branch.split(/\s+/u)] *)
Fixpoint split_spaces (in_run : bool) (s : string) : list string :=
  match s with
  | EmptyString => [""]
  | String c s' =>
      if is_space c then (if in_run then split_spaces true s' else "" :: split_spaces true s')
      else match split_spaces false s' with p :: ps => String c p :: ps | [] => [String c ""] end
  end.
(** [NPM_HYPHEN] *)
Definition hyphen_range (branch : string) : option (NpmSemver * NpmSemver) :=
  match split_spaces false branch with
  | [a; dash; b] =>
      if dash ≡? "-" then match version_of a, version_of b with Some x, Some y => Some (x, y) | _, _ => None end else None
  | _ => None
  end.
Definition range_upper (tilde : bool) (lower : NpmSemver) : NpmSemver :=
  if tilde then bound (nv_major lower) (nv_minor lower + 1) 0
  else if (0 <? nv_major lower)%N then bound (nv_major lower + 1) 0 0
  else if (0 <? nv_minor lower)%N then bound 0 (nv_minor lower + 1) 0
  else bound 0 0 (nv_patch lower + 1).
Definition prerelease_of (v : NpmSemver) : list NpmSemver := if has_prerelease v then [v] else [].
Definition space_char : ascii := " "%char.

(** [npmConstraintBranchMatches] on a trimmed, non-empty branch *)
Definition npmConstraintBranchMatches (branch : string) (actual : NpmSemver) : option bool :=
  match hyphen_range branch with
  | Some (lower, upper) =>
      Some (at_least actual lower && (compareNpmSemver actual upper ≢? Gt)
            && npmPrereleaseIsAdmitted actual (prerelease_of lower ++ prerelease_of upper))
  | None =>
  if starts_with "^" branch || starts_with "~" branch then
    if contains_char space_char branch then None else
    lower ← parseNpmSemver (slice_from 1 branch);
    let upper := range_upper (starts_with "~" branch) lower in
    Some (at_least actual lower && below actual upper && npmPrereleaseIsAdmitted actual (prerelease_of lower))
  else match npmWildcardBounds branch with
  | Some wildcard =>
      let matches := match wildcard with Some (lower, upper) => at_least actual lower && below actual upper | None => true end in
      Some (matches && npmPrereleaseIsAdmitted actual [])
  | None =>
      let tokens := split_spaces false branch in
      comparators ← mapM comparator_of tokens;
      if (1 <? length tokens)%nat && existsb (λ c, is_null c.1) comparators then None else
      Some (forallb (λ c, npmComparatorMatches (default "=" c.1) actual c.2) comparators
            && npmPrereleaseIsAdmitted actual (List.filter has_prerelease comparators.*2))
  end
  end.

(** [s.split("||")] *)
Fixpoint split_bars (s : string) : list string :=
  match s with
  | EmptyString => [""]
  | String c s' =>
      match c ≡? "|"%char, s' with
      | true, String c2 s2 =>
          if c2 ≡? "|"%char then "" :: split_bars s2
          else match split_bars s' with p :: ps => String c p :: ps | [] => [String c ""] end
      | _, _ => match split_bars s' with p :: ps => String c p :: ps | [] => [String c ""] end
      end
  end.
Definition npmObservationConstraintMatches (specifier version : string) : option bool :=
  actual ← parseNpmSemver version;
  if trim specifier ≡? "" then None else
  let branches := trim <$> split_bars (trim specifier) in
  if existsb (λ b, b ≡? "") branches then None else
  matches ← mapM (λ b, npmConstraintBranchMatches b actual) branches;
  Some (existsb id matches).
Definition npmTargetIsNewer (current target : string) : bool :=
  match parseNpmSemver current, parseNpmSemver target with
  | Some c, Some t => bool_decide (nv_prerelease t = []) && below c t
  | _, _ => false
  end.

Example caret_samples :
  (λ v, npmObservationConstraintMatches "^1.2.3" v) <$> ["1.2.3"; "1.9.0"; "2.0.0"; "2.0.0-rc.1"; "1.3.0-rc.1"; "v1.2.3+b"; "1.2"]
  = [Some true; Some true; Some false; Some false; Some false; Some true; None].
Proof. vm_compute. reflexivity. Qed.
Example range_samples :
  (λ s, npmObservationConstraintMatches s "1.4.2") <$>
    ["1.x"; "*"; "1.4"; ">=1.0.0 <2.0.0"; "1.0.0 - 1.4.2"; "~1.3.0 || ^1.4.0"; "<=1.4.1"; "=1.4.2"; "1.4.2 1.4.2"; "^1 || bad"]
  = [Some true; Some true; Some true; Some true; Some true; Some true; Some false; Some true; None; None].
Proof. vm_compute. reflexivity. Qed.

(** ** Precedence is a total order *)

Lemma lex_total {A B C} (c1 : B → B → comparison) (c2 : C → C → comparison) (f : A → B) (g : A → C) :
  TotalCompare c1 → TotalCompare c2 → (∀ x y, f x = f y → g x = g y → x = y) →
  TotalCompare (λ x y, cmp_then (c1 (f x) (f y)) (c2 (g x) (g y))).
Proof.
  intros H1 H2 Hinj. split.
  - intros x y. split; [|intros <-; cbn; by rewrite (cmp_refl c1), (cmp_refl c2)].
    destruct (c1 (f x) (f y)) eqn:E; try done. cbn. apply cmp_eq in E. intros Hg%cmp_eq. by apply Hinj.
  - intros x y. rewrite (cmp_sym (f x)), (cmp_sym (g x)). by destruct (c1 (f x) (f y)).
  - intros x y z. destruct (c1 (f x) (f y)) eqn:E1, (c1 (f y) (f z)) eqn:E2; try done; cbn.
    + apply cmp_eq in E1, E2. rewrite E1, E2, (cmp_refl c1). cbn. apply cmp_trans.
    + intros _ _. apply cmp_eq in E1. by rewrite E1, E2.
    + intros _ _. apply cmp_eq in E2. by rewrite <- E2, E1.
    + intros _ _. by rewrite (cmp_trans _ _ _ E1 E2).
Qed.

#[export] Instance part_total : TotalCompare compare_part.
Proof.
  split.
  - intros [a|a] [b|b]; cbn; try (split; congruence).
    + rewrite (cmp_eq (cmp:=N.compare)). split; congruence.
    + rewrite (cmp_eq (cmp:=String.compare)). split; congruence.
  - intros [a|a] [b|b]; cbn; try done; apply cmp_sym.
  - intros [a|a] [b|b] [c|c]; cbn; try done; apply cmp_trans.
Qed.
#[export] Instance parts_total : TotalCompare compare_parts.
Proof.
  split.
  - induction x as [|a x IH]; intros [|b y]; cbn; try done. destruct (compare_part a b) eqn:E; cbn.
    + apply cmp_eq in E. subst b. rewrite IH. split; congruence.
    + split; [done|]. intros [= -> ->]. by rewrite (cmp_refl compare_part) in E.
    + split; [done|]. intros [= -> ->]. by rewrite (cmp_refl compare_part) in E.
  - induction x as [|a x IH]; intros [|b y]; cbn; try done. rewrite (cmp_sym a), IH.
    by destruct (compare_part a b).
  - induction x as [|a x IH]; intros [|b y] [|c z]; cbn; try done.
    destruct (compare_part a b) eqn:E1, (compare_part b c) eqn:E2; try done; cbn.
    + apply cmp_eq in E1, E2. subst. rewrite (cmp_refl compare_part). cbn. apply IH.
    + intros _ _. apply cmp_eq in E1. subst. by rewrite E2.
    + intros _ _. apply cmp_eq in E2. subst. by rewrite E1.
    + intros _ _. by rewrite (cmp_trans _ _ _ E1 E2).
Qed.
#[export] Instance prerelease_total : TotalCompare compare_prerelease.
Proof.
  split.
  - intros [|a x] [|b y]; [by split..|]. exact (cmp_eq (cmp:=compare_parts) (a :: x) (b :: y)).
  - intros [|a x] [|b y]; [done..|]. exact (cmp_sym (cmp:=compare_parts) (a :: x) (b :: y)).
  - intros [|a x] [|b y] [|c z]; try done. exact (cmp_trans (cmp:=compare_parts) (a :: x) (b :: y) (c :: z)).
Qed.
#[export] Instance semver_total : TotalCompare compareNpmSemver.
Proof.
  refine (lex_total _ (λ x y, cmp_then (x.1 ?= y.1)%N (cmp_then (x.2.1 ?= y.2.1)%N (compare_prerelease x.2.2 y.2.2)))
    nv_major (λ v, (nv_minor v, (nv_patch v, nv_prerelease v))) _ _ _).
  - refine (lex_total _ (λ x y, cmp_then (x.1 ?= y.1)%N (compare_prerelease x.2 y.2)) fst snd _ _ _).
    + refine (lex_total _ compare_prerelease fst snd _ _ _). intros [] []; cbn; congruence.
    + intros [] []; cbn; congruence.
  - intros [] []; cbn; congruence.
Qed.

(** Versions are totally ordered: two versions compare equal
    only if they are the same, comparing the other way round gives the opposite
    answer, and the order is transitive. *)
Theorem version_order x y z :
  (compareNpmSemver x y = Eq ↔ x = y)
  ∧ compareNpmSemver y x = CompOpp (compareNpmSemver x y)
  ∧ (compareNpmSemver x y = Lt → compareNpmSemver y z = Lt → compareNpmSemver x z = Lt).
Proof. split_and!; [apply cmp_eq|apply cmp_sym|apply cmp_trans]. Qed.
