(* ===== verification/NpmFacts.v ===== *)
(** * NpmFacts: what the npm ranges admit

    Writing a version and reading it back; the caret and tilde ranges as
    conditions on numbers; and no prerelease without being asked for. *)

From S2P Require Import Prelude Regex Intake JsonText Base64 JsonValue NpmRange.
From Stdlib Require Import Ascii DecimalString DecimalN DecimalFacts DecimalPos.
From Stdlib Require String.
Open Scope Z_scope.

(** ** Writing a version *)

Definition show_part (p : Part) : string := match p with pr_num n => show_N n | pr_text s => s end.
Definition show_core (v : NpmSemver) : string :=
  join_strings "." [show_N (nv_major v); show_N (nv_minor v); show_N (nv_patch v)].
Definition show_version (v : NpmSemver) : string :=
  match nv_prerelease v with
  | [] => show_core v
  | parts => show_core v +:+ "-" +:+ join_strings "." (show_part <$> parts)
  end.
(** A textual part is an identifier that is not a number. *)
Definition part_ok (p : Part) : Prop :=
  match p with pr_num _ => True | pr_text s => identifier s = true ∧ all_chars is_digit s = false end.
Definition version_ok (v : NpmSemver) : Prop := Forall part_ok (nv_prerelease v).

Lemma all_chars_app p a b : all_chars p (a +:+ b) = all_chars p a && all_chars p b.
Proof. induction a as [|c a IH]; [done|]. rewrite append_cons. cbn. by rewrite IH, andb_assoc. Qed.
Lemma all_chars_impl (p q : ascii → bool) s : (∀ c, p c = true → q c = true) → all_chars p s = true → all_chars q s = true.
Proof. intros H. induction s as [|c s IH]; [done|]. cbn. rewrite !andb_true_iff. intros [? ?]. eauto. Qed.
Lemma uint_digits d : all_chars is_digit (NilEmpty.string_of_uint d) = true.
Proof. induction d; [done|..]; cbn; by rewrite IHd. Qed.
Lemma show_N_digits n : all_chars is_digit (show_N n) = true.
Proof. apply uint_digits. Qed.
Lemma show_N_nonempty n : show_N n ≠ "".
Proof.
  destruct n as [|p]; [done|]. unfold show_N. intros H. pose proof (DecimalPos.Unsigned.to_uint_nonnil p).
  change (N.to_uint (N.pos p)) with (Pos.to_uint p) in H. by destruct (Pos.to_uint p).
Qed.
Lemma show_N_no_zero n s : show_N n = String "0" s → s = "".
Proof.
  unfold show_N. intros H. destruct (N.to_uint n) as [|d|d|d|d|d|d|d|d|d|d] eqn:E; try done. injection H as <-.
  pose proof (DecimalN.Unsigned.to_of (N.to_uint n)) as Hn. rewrite DecimalN.Unsigned.of_to, E in Hn.
  unfold Decimal.unorm in Hn. destruct (Decimal.nzhead (Decimal.D0 d)) eqn:Hz; try done.
  - by injection Hn as ->.
  - by destruct (nzhead_nonzero (Decimal.D0 d) u).
Qed.
Lemma starts_with_char x s : starts_with (String x "") s = match s with String c _ => bool_decide (c = x) | _ => false end.
Proof.
  destruct s as [|c s]; [done|]. unfold starts_with. cbn [String.prefix]. destruct (Ascii.ascii_dec x c) as [<-|Hn].
  - rewrite bool_decide_eq_true_2 by done. by destruct s.
  - by rewrite bool_decide_eq_false_2 by congruence.
Qed.
Lemma numeric_show n : numeric (show_N n) = Some n.
Proof.
  unfold numeric. rewrite bool_decide_eq_false_2 by apply show_N_nonempty. cbn [orb].
  destruct (starts_with "0" (show_N n)) eqn:Hs; [|by rewrite read_show_N].
  assert (show_N n = "0") as Hz.
  { rewrite starts_with_char in Hs. destruct (show_N n) as [|c s] eqn:E; [done|]. apply bool_decide_eq_true in Hs as ->.
    by rewrite (show_N_no_zero _ _ E). }
  assert (n = 0%N) as -> by (apply (inj show_N); exact Hz). reflexivity.
Qed.

(** ** Cutting a text where it was joined *)

Lemma not_contains (p : ascii → bool) c s : all_chars p s = true → p c = false → contains_char c s = false.
Proof.
  intros H Hc. induction s as [|x s IH]; [done|]. cbn in H |- *. apply andb_true_iff in H as [Hx H].
  rewrite IH by done. rewrite bool_decide_eq_false_2; [done|]. intros ->. congruence.
Qed.
Lemma split_on_none c s : contains_char c s = false → split_on c s = [s].
Proof.
  induction s as [|x s IH]; [done|]. cbn. intros [Hx Hs]%orb_false_iff. by rewrite Hx, IH.
Qed.
Lemma split_on_app c a b : contains_char c a = false → split_on c (a +:+ String c b) = a :: split_on c b.
Proof.
  induction a as [|x a IH]; rewrite ?append_cons, ?append_nil; cbn [split_on contains_char].
  - by rewrite bool_decide_eq_true_2.
  - intros [Hx Ha]%orb_false_iff. by rewrite Hx, IH.
Qed.
Lemma split_join c l : l ≠ [] → Forall (λ s, contains_char c s = false) l →
  split_on c (join_strings (String c "") l) = l.
Proof.
  intros Hl H. induction H as [|x l Hx H IH]; [done|]. destruct l as [|y l].
  - by apply split_on_none.
  - change (join_strings (String c "") (x :: y :: l)) with (x +:+ String c (join_strings (String c "") (y :: l))).
    rewrite split_on_app, IH; done.
Qed.
Lemma all_chars_join p sep l : all_chars p sep = true → Forall (λ s, all_chars p s = true) l →
  all_chars p (join_strings sep l) = true.
Proof.
  intros Hs H. induction H as [|x l Hx H IH]; [done|]. destruct l as [|y l]; [done|].
  cbn [join_strings]. rewrite !all_chars_app, Hx, Hs. apply IH.
Qed.
Lemma drop_spaces_none l : forallb (λ c, negb (is_space c)) l = true → drop_space l = l.
Proof. destruct l as [|c l]; [done|]. cbn. by destruct (is_space c). Qed.
Lemma trim_none s : all_chars (λ c, negb (is_space c)) s = true → trim s = s.
Proof.
  intros H. assert (forallb (λ c, negb (is_space c)) (String.list_ascii_of_string s) = true) as Hl.
  { induction s as [|c s IH]; [done|]. cbn in H |- *. apply andb_true_iff in H as [-> H]. by apply IH. }
  unfold trim. rewrite (drop_spaces_none _ Hl), drop_spaces_none.
  - rewrite rev_involutive. apply String.string_of_list_ascii_of_string.
  - rewrite forallb_forall in *. intros c Hc%in_rev. by apply Hl.
Qed.

Ltac by_chars := let c := fresh in intros c; destruct c as [[] [] [] [] [] [] [] []]; vm_compute; intros; congruence.
Definition version_char (c : ascii) : bool := ident_char c || (c ≡? "."%char).
Lemma digit_ident : ∀ c, is_digit c = true → ident_char c = true. Proof. by_chars. Qed.
Lemma ident_version : ∀ c, ident_char c = true → version_char c = true. Proof. by_chars. Qed.
Lemma version_unspaced : ∀ c, version_char c = true → negb (is_space c) = true. Proof. by_chars. Qed.

Lemma show_part_ident p : part_ok p → identifier (show_part p) = true.
Proof.
  destruct p as [n|s]; cbn; [|tauto]. intros _. unfold identifier.
  rewrite bool_decide_eq_false_2 by apply show_N_nonempty. cbn. eapply all_chars_impl, show_N_digits. apply digit_ident.
Qed.
Lemma read_part p : part_ok p → prerelease_part (show_part p) = Some p.
Proof.
  intros H. unfold prerelease_part. rewrite show_part_ident by done. cbn [negb].
  destruct p as [n|s]; cbn in *; [by rewrite show_N_digits, numeric_show|]. by destruct H as [_ ->].
Qed.
Lemma identifier_chars s : identifier s = true → all_chars ident_char s = true.
Proof. unfold identifier. by intros [_ H]%andb_true_iff. Qed.
Lemma show_core_chars v : all_chars (λ c, is_digit c || (c ≡? "."%char)) (show_core v) = true.
Proof.
  apply all_chars_join; [done|]. repeat (constructor; [eapply all_chars_impl, show_N_digits; by intros c ->|]). constructor.
Qed.
Lemma read_core v : parse_core (show_core v) = Some (nv_major v, nv_minor v, nv_patch v).
Proof.
  unfold parse_core, show_core. rewrite split_join; [by rewrite !numeric_show|done|].
  repeat (constructor; [by eapply not_contains; [apply show_N_digits|]|]). constructor.
Qed.
Lemma show_version_chars v : version_ok v → all_chars version_char (show_version v) = true.
Proof.
  intros H. assert (all_chars version_char (show_core v) = true) as Hc
    by (eapply all_chars_impl, show_core_chars; by_chars).
  unfold show_version. destruct (nv_prerelease v) as [|p parts] eqn:E; [done|]. rewrite !all_chars_app, Hc. cbn [andb].
  apply all_chars_join; [done|]. unfold version_ok in H. rewrite E in H. apply Forall_fmap.
  eapply Forall_impl; [exact H|]. intros x Hx. cbn. eapply all_chars_impl; [apply ident_version|].
  by apply identifier_chars, show_part_ident.
Qed.
Lemma read_parts l : Forall part_ok l → mapM prerelease_part (show_part <$> l) = Some l.
Proof. intros H. apply mapM_Some. induction H; constructor; [by apply read_part|done]. Qed.
Lemma show_core_digit v r : starts_with "v" (show_core v +:+ r) = false.
Proof.
  unfold show_core. cbn [join_strings]. rewrite append_assoc. pose proof (show_N_digits (nv_major v)) as Hd.
  pose proof (show_N_nonempty (nv_major v)). destruct (show_N (nv_major v)) as [|c s]; [done|].
  rewrite append_cons, starts_with_char. apply bool_decide_eq_false_2. by intros ->.
Qed.

Lemma append_empty (s : string) : s +:+ "" = s.
Proof. induction s as [|c s IH]; [done|]. by rewrite append_cons, IH. Qed.
Lemma cut_opt_none c s : contains_char c s = false → cut_opt c s = (s, None).
Proof.
  intros H. unfold cut_opt. assert (cut c s = None) as ->; [|done].
  induction s as [|x s IH]; [done|]. cbn in H |- *. apply orb_false_iff in H as [-> H]. by rewrite IH.
Qed.
Lemma read_version v : version_ok v → version_of (show_version v) = Some v.
Proof.
  intros H. pose proof (show_version_chars v H) as Hc.
  assert (starts_with "v" (show_version v) = false) as Hv.
  { unfold show_version. destruct (nv_prerelease v); [|apply show_core_digit].
    pose proof (show_core_digit v "") as Hs. by rewrite append_empty in Hs. }
  unfold version_of. rewrite Hv, cut_opt_none by (by eapply not_contains; [exact Hc|]).
  assert (contains_char "-" (show_core v) = false) as Hd by (by eapply not_contains; [apply show_core_chars|]).
  unfold show_version. destruct v as [x y z [|p parts]]; cbn [nv_prerelease] in *.
  - rewrite cut_opt_none, read_core by done. done.
  - unfold cut_opt. change ("-" +:+ ?r) with (String "-" r). rewrite cut_app by done. rewrite read_core.
    unfold parse_prerelease. rewrite split_join; [|done|].
    + by rewrite read_parts.
    + apply Forall_fmap. eapply Forall_impl; [exact H|]. intros q Hq. eapply not_contains; [|by instantiate (1 := ident_char)].
      by apply identifier_chars, show_part_ident.
Qed.

(** A version that is written is read back as itself: every
    version whose textual prerelease parts are identifiers and not numbers. *)
Theorem version_roundtrip v : version_ok v → parseNpmSemver (show_version v) = Some v.
Proof.
  intros H. unfold parseNpmSemver. rewrite trim_none; [by apply read_version|].
  eapply all_chars_impl; [apply version_unspaced|by apply show_version_chars].
Qed.

(** ** Caret and tilde *)

Definition core_lt (v w : NpmSemver) : Prop :=
  (nv_major v < nv_major w ∨ nv_major v = nv_major w ∧
    (nv_minor v < nv_minor w ∨ nv_minor v = nv_minor w ∧ nv_patch v < nv_patch w))%N.
Lemma compare_lt v w : compareNpmSemver v w = Lt ↔
  core_lt v w ∨ core v = core w ∧ compare_prerelease (nv_prerelease v) (nv_prerelease w) = Lt.
Proof.
  destruct v as [a b c p], w as [a' b' c' q]. unfold compareNpmSemver, core_lt, core. cbn.
  destruct (N.compare_spec a a') as [<-| |], (N.compare_spec b b') as [<-| |], (N.compare_spec c c') as [<-| |]; cbn;
    try (split; [intros _; left; lia|intros _; reflexivity]);
    try (split; [discriminate|intros [H'|[H' _]]; [lia|injection H'; lia]]).
  split; [by right|intros [H'|[_ H']]; [lia|done]].
Qed.
Lemma below_bound v x y z :
  below v (bound x y z) = true ↔ core_lt v (bound x y z) ∨ core v = (x, y, z) ∧ nv_prerelease v ≠ [].
Proof.
  unfold below. pose proof (compare_lt v (bound x y z)) as H. cbn [bound nv_prerelease core] in H.
  assert (compare_prerelease (nv_prerelease v) [] = Lt ↔ nv_prerelease v ≠ []) as Hp
    by (destruct (nv_prerelease v); cbn; split; done).
  change (core (bound x y z)) with (x, y, z) in H. rewrite <- Hp, <- H. by destruct (compareNpmSemver v (bound x y z)).
Qed.

(** The leading part of the version a range keeps: up to the first number that
    is not zero for a caret, major and minor for a tilde. *)
Definition same_leading (tilde : bool) (lower v : NpmSemver) : bool :=
  (nv_major v =? nv_major lower)%N
  && ((negb tilde && (0 <? nv_major lower)%N) || (nv_minor v =? nv_minor lower)%N
      && (tilde || (0 <? nv_minor lower)%N || (nv_patch v =? nv_patch lower)%N)).
Definition admits_prerelease (lower v : NpmSemver) : bool :=
  bool_decide (nv_prerelease v = []) || has_prerelease lower && sameNpmSemverCore v lower.

Lemma admitted_by lower v : npmPrereleaseIsAdmitted v (prerelease_of lower) = admits_prerelease lower v.
Proof.
  unfold npmPrereleaseIsAdmitted, admits_prerelease, prerelease_of.
  destruct (has_prerelease lower); [cbn [existsb]; by rewrite orb_false_r|done].
Qed.
Lemma upper_exact tilde lower v :
  at_least v lower = true → admits_prerelease lower v = true →
  below v (range_upper tilde lower) = same_leading tilde lower v.
Proof.
  unfold at_least, admits_prerelease, sameNpmSemverCore. intros Hl Ha.
  assert (¬ core_lt v lower) as Hc.
  { intros H. assert (compareNpmSemver v lower = Lt) as E by (apply compare_lt; by left). by rewrite E in Hl. }
  assert (nv_prerelease v ≠ [] → core v = core lower) as Hp.
  { intros Hv. rewrite bool_decide_eq_false_2 in Ha by done. cbn in Ha.
    by apply andb_true_iff in Ha as [_ ?%bool_decide_eq_true]. }
  clear Hl Ha. unfold core_lt, core in *. unfold range_upper, same_leading.
  apply eq_true_iff_eq.
  destruct tilde; [|destruct (N.ltb_spec 0 (nv_major lower)); [|destruct (N.ltb_spec 0 (nv_minor lower))]];
    rewrite below_bound; unfold core_lt, core; cbn [bound nv_major nv_minor nv_patch negb andb orb];
    rewrite ?andb_true_iff, ?orb_true_iff, ?N.eqb_eq, ?N.ltb_lt, ?andb_false_iff;
    (split; [intros [H'|[H' Hv]]; [lia|apply Hp in Hv; injection H'; injection Hv; lia]|intros H'; left; lia]).
Qed.

Lemma split_bars_none s : contains_char "|" s = false → split_bars s = [s].
Proof.
  induction s as [|c s IH]; [done|]. cbn [contains_char split_bars]. intros [Hc Hs]%orb_false_iff.
  by rewrite Hc, (IH Hs).
Qed.
Lemma split_spaces_none s : all_chars (λ c, negb (is_space c)) s = true → split_spaces false s = [s].
Proof.
  induction s as [|c s IH]; [done|]. cbn. intros [Hc Hs]%andb_true_iff. apply negb_true_iff in Hc. by rewrite Hc, (IH Hs).
Qed.

Definition range_text (tilde : bool) (lower : NpmSemver) : string :=
  String (if tilde then "~" else "^")%char (show_version lower).

(** C29 (equivalence).  What a caret or a tilde range admits, in numbers: the
    versions at or above the one it names that keep its leading part - up to
    the first number that is not zero for a caret, major and minor for a tilde
    - and no prerelease, except of the very version it names when that is one
    itself. *)
Theorem caret_tilde_exact tilde lower v :
  version_ok lower → version_ok v →
  npmObservationConstraintMatches (range_text tilde lower) (show_version v)
  = Some (at_least v lower && same_leading tilde lower v && admits_prerelease lower v).
Proof.
  intros Hl Hv. set (op := if tilde then "~"%char else "^"%char).
  change (range_text tilde lower) with (String op (show_version lower)).
  assert (all_chars (λ c, negb (is_space c)) (String op (show_version lower)) = true) as Hs.
  { cbn. apply andb_true_iff. split; [by destruct tilde|].
    eapply all_chars_impl; [apply version_unspaced|by apply show_version_chars]. }
  unfold npmObservationConstraintMatches. rewrite version_roundtrip by done. cbn [mbind option_bind].
  rewrite (trim_none _ Hs), bool_decide_eq_false_2 by done. rewrite split_bars_none.
  2:{ cbn [contains_char]. rewrite (not_contains version_char _ (show_version lower)) by (done || by apply show_version_chars). by destruct tilde. }
  cbn [fmap list_fmap existsb]. rewrite (trim_none _ Hs), bool_decide_eq_false_2 by done. cbn [orb mapM].
  assert (npmConstraintBranchMatches (String op (show_version lower)) v
    = Some (at_least v lower && below v (range_upper tilde lower) && admits_prerelease lower v)) as ->.
  { unfold npmConstraintBranchMatches, hyphen_range. rewrite split_spaces_none by done.
    assert (starts_with "^" (String op (show_version lower)) || starts_with "~" (String op (show_version lower)) = true) as ->
      by (rewrite !starts_with_char; by destruct tilde).
    rewrite (not_contains (λ c, negb (is_space c))) by done.
    replace (slice_from 1 (String op (show_version lower))) with (show_version lower)
      by (unfold slice_from; cbn; by rewrite drop_0, String.string_of_list_ascii_of_string).
    rewrite version_roundtrip by done. cbn [mbind option_bind]. rewrite admitted_by.
    assert (starts_with "~" (String op (show_version lower)) = tilde) as -> by (rewrite starts_with_char; by destruct tilde).
    done. }
  cbn. f_equal. rewrite orb_false_r. unfold id.
  destruct (at_least v lower) eqn:Ha; [|done]. destruct (admits_prerelease lower v) eqn:Hp; [|by rewrite !andb_false_r].
  by rewrite upper_exact.
Qed.

(** ** Prereleases are opted into *)

Definition infix (w s : string) : Prop := ∃ a b, s = a +:+ w +:+ b.
Lemma infix_refl s : infix s s.
Proof. exists "", "". by rewrite append_nil, append_empty. Qed.
#[export] Instance infix_trans : Transitive infix.
Proof.
  intros x y z (a & b & ->) (a' & b' & ->). exists (a' +:+ a), (b +:+ b'). by rewrite !append_assoc.
Qed.
Lemma infix_tail c w s : infix w s → infix w (String c s).
Proof. intros (a & b & ->). by exists (String c a), b. Qed.
Lemma infix_take (p : ascii → bool) s : infix (String.string_of_list_ascii (drop_space (String.list_ascii_of_string s))) s.
Proof.
  induction s as [|c s IH]; cbn; [apply infix_refl|]. destruct (is_space c); [by apply infix_tail|].
  cbn. rewrite String.string_of_list_ascii_of_string. apply infix_refl.
Qed.
Lemma drop_space_app l : ∃ a, l = a ++ drop_space l.
Proof.
  induction l as [|c l [a IH]]; cbn; [by exists []|]. destruct (is_space c); [|by exists []].
  exists (c :: a). cbn. congruence.
Qed.
Lemma text_app l l' : String.string_of_list_ascii (l ++ l') = String.string_of_list_ascii l +:+ String.string_of_list_ascii l'.
Proof. induction l as [|c l IH]; [done|]. cbn. by rewrite IH. Qed.
Lemma infix_trim s : infix (trim s) s.
Proof.
  unfold trim. destruct (drop_space_app (String.list_ascii_of_string s)) as [a Ha]. set (m := drop_space _) in *.
  destruct (drop_space_app (rev m)) as [b Hb]. exists (String.string_of_list_ascii a), (String.string_of_list_ascii (rev b)).
  rewrite <- !text_app. rewrite <- (String.string_of_list_ascii_of_string s), Ha. do 2 f_equal.
  rewrite <- (rev_involutive m), Hb at 1. by rewrite rev_app_distr.
Qed.
Lemma infix_slice n s : infix (slice_from n s) s.
Proof.
  unfold slice_from. exists (String.string_of_list_ascii (take n (String.list_ascii_of_string s))), "".
  rewrite append_empty, <- text_app, take_drop. by rewrite String.string_of_list_ascii_of_string.
Qed.

(** The first piece starts where the text does, so it can be extended on the
    left; the others are inside the text. *)
Lemma pieces_cons c s l : (∃ p ps, l = p :: ps ∧ (∃ b, s = p +:+ b) ∧ Forall (λ w, infix w s) ps) →
  ∃ p ps, match l with p :: ps => String c p :: ps | [] => [String c ""] end = p :: ps
          ∧ (∃ b, String c s = p +:+ b) ∧ Forall (λ w, infix w (String c s)) ps.
Proof.
  intros (p & ps & -> & [b ->] & Hps). eexists _, _. split; [done|]. split; [by exists b|].
  eapply Forall_impl; [exact Hps|]. intros w. apply infix_tail.
Qed.
Lemma pieces_infix s l : (∃ p ps, l = p :: ps ∧ (∃ b, s = p +:+ b) ∧ Forall (λ w, infix w s) ps) → Forall (λ w, infix w s) l.
Proof. intros (p & ps & -> & [b ->] & Hps). constructor; [|done]. by exists "", b. Qed.
Lemma split_bars_cons c c2 s : split_bars (String c (String c2 s)) =
  if (c ≡? "|"%char) && (c2 ≡? "|"%char) then "" :: split_bars s
  else match split_bars (String c2 s) with p :: ps => String c p :: ps | [] => [String c ""] end.
Proof. cbn [split_bars]. by destruct (c ≡? "|"%char), (c2 ≡? "|"%char). Qed.
Lemma split_bars_pieces s : ∃ p ps, split_bars s = p :: ps ∧ (∃ b, s = p +:+ b) ∧ Forall (λ w, infix w s) ps.
Proof.
  remember (String.length s) as n eqn:Hn. revert s Hn. induction n as [n IHn] using lt_wf_ind. intros s ->.
  pose proof (λ s' H, IHn (String.length s') H s' eq_refl) as IH. clear IHn.
  destruct s as [|c [|c2 s]]; [exists "", []; split_and!; [done|by exists ""|done]|..].
  - cbn. assert (∃ p ps, [String c ""] = p :: ps ∧ (∃ b, String c "" = p +:+ b) ∧ Forall (λ w, infix w (String c "")) ps).
    { exists (String c ""), []. split_and!; [done|by exists ""|done]. }
    by destruct (c ≡? "|"%char).
  - assert (Hn : ∃ p ps, match split_bars (String c2 s) with p :: ps => String c p :: ps | [] => [String c ""] end = p :: ps
      ∧ (∃ b, String c (String c2 s) = p +:+ b) ∧ Forall (λ w, infix w (String c (String c2 s))) ps).
    { apply pieces_cons, IH. cbn. lia. }
    rewrite split_bars_cons. destruct ((c ≡? "|"%char) && (c2 ≡? "|"%char)); [|done].
    eexists _, _. split; [done|]. split; [by exists (String c (String c2 s))|].
    eapply Forall_impl; [apply pieces_infix, (IH s); cbn; lia|]. intros w Hw. by do 2 apply infix_tail.
Qed.
Lemma split_spaces_pieces s run : ∃ p ps, split_spaces run s = p :: ps
  ∧ ((if run then infix p s else ∃ b, s = p +:+ b)) ∧ Forall (λ w, infix w s) ps.
Proof.
  revert run. induction s as [|c s IH]; intros run.
  - exists "", []. split_and!; [done|destruct run; [apply infix_refl|by exists ""]|done].
  - cbn [split_spaces]. destruct (is_space c).
    + destruct (IH true) as (p & ps & -> & Hp & Hps). assert (Forall (λ w, infix w (String c s)) (p :: ps)).
      { constructor; [by apply infix_tail|]. eapply Forall_impl; [exact Hps|]. intros w. apply infix_tail. }
      destruct run; eexists _, _; (split; [done|]).
      * by inv H.
      * split; [|done]. by exists (String c s).
    + destruct (pieces_cons c s _ (IH false)) as (p & ps & -> & Hp & Hps). exists p, ps. split_and!; try done.
      destruct run; [|done]. destruct Hp as [b ->]. by exists "", b.
Qed.
Lemma split_spaces_infix s w : w ∈ split_spaces false s → infix w s.
Proof. revert w. apply Forall_forall, pieces_infix, (split_spaces_pieces s false). Qed.

(** The text names a prerelease of the same version. *)
Definition names_prerelease (s : string) (v : NpmSemver) : Prop :=
  ∃ w e, infix w s ∧ version_of w = Some e ∧ core e = core v ∧ nv_prerelease e ≠ [].
Lemma names_infix s s' v : names_prerelease s v → infix s s' → names_prerelease s' v.
Proof. intros (w & e & Hw & H) Hs. exists w, e. split; [by etrans|done]. Qed.
Lemma admitted_inv v cores : npmPrereleaseIsAdmitted v cores = true → nv_prerelease v ≠ [] →
  ∃ e, e ∈ cores ∧ core e = core v.
Proof.
  unfold npmPrereleaseIsAdmitted, sameNpmSemverCore. intros H Hv. rewrite bool_decide_eq_false_2 in H by done.
  apply existsb_exists in H as (e & He & Hc%bool_decide_eq_true). exists e. by split; [apply list_elem_of_In|].
Qed.
Lemma in_prerelease_of e x : e ∈ prerelease_of x → e = x ∧ nv_prerelease x ≠ [].
Proof.
  unfold prerelease_of, has_prerelease. case_bool_decide; [|by intros ?%not_elem_of_nil].
  by intros ->%list_elem_of_singleton.
Qed.
Lemma hyphen_inv s x y : hyphen_range s = Some (x, y) →
  ∃ a b, infix a s ∧ infix b s ∧ version_of a = Some x ∧ version_of b = Some y.
Proof.
  unfold hyphen_range. destruct (split_spaces false s) as [|a [|dash [|b [|]]]] eqn:E; try done. intros H.
  destruct (dash ≡? "-"); [|done]. destruct (version_of a) eqn:Ha, (version_of b) eqn:Hb; try done. injection H as -> ->.
  exists a, b. split_and!; [apply split_spaces_infix; rewrite E; set_solver..|done|done].
Qed.
Lemma comparator_inv t o e : comparator_of t = Some (o, e) → ∃ w, infix w t ∧ version_of w = Some e.
Proof.
  unfold comparator_of. destruct (List.find _ _) as [op|]; intros (x & Hx & [= -> ->])%fmap_Some; eexists; (split; [|exact Hx]).
  - apply infix_slice.
  - apply infix_refl.
Qed.

Lemma branch_opt_in b v : npmConstraintBranchMatches b v = Some true → nv_prerelease v ≠ [] → names_prerelease b v.
Proof.
  unfold npmConstraintBranchMatches. intros H Hv. destruct (hyphen_range b) as [[x y]|] eqn:Hh.
  - injection H as H. apply andb_true_iff in H as [_ H]. apply admitted_inv in H as (e & He & Hc); [|done].
    apply hyphen_inv in Hh as (a & b' & Ha & Hb & Hx & Hy).
    apply elem_of_app in He as [[-> Hp]%in_prerelease_of|[-> Hp]%in_prerelease_of]; eexists _, _; eauto.
  - destruct (starts_with "^" b || starts_with "~" b).
    + destruct (contains_char space_char b); [done|]. apply bind_Some in H as (lower & Hl & H). injection H as H.
      apply andb_true_iff in H as [_ H]. apply admitted_inv in H as (e & [-> Hp]%in_prerelease_of & Hc); [|done].
      eexists _, _. split; [|by split_and!]. etrans; [apply infix_trim|apply infix_slice].
    + destruct (npmWildcardBounds b) as [wc|].
      * injection H as H. apply andb_true_iff in H as [_ H]. apply admitted_inv in H as (e & He & _); [|done].
        by apply not_elem_of_nil in He.
      * apply bind_Some in H as (cs & Hcs & H). destruct (_ && existsb _ _); [done|]. injection H as H.
        apply andb_true_iff in H as [_ H]. apply admitted_inv in H as (e & He & Hc); [|done].
        apply list_elem_of_In, List.filter_In in He as [He Hp]. apply list_elem_of_In, list_elem_of_fmap in He as ([o e'] & -> & He).
        apply mapM_Some in Hcs. apply list_elem_of_lookup in He as [i Hi].
        destruct (Forall2_lookup_r _ _ _ _ _ Hcs Hi) as (t & Ht & Hte).
        apply comparator_inv in Hte as (w & Hw & He'). exists w, e'. split_and!; [|done|done|by apply bool_decide_eq_true in Hp].
        etrans; [exact Hw|]. apply split_spaces_infix. by eapply list_elem_of_lookup_2.
Qed.

(** No prerelease by accident: a prerelease is in a range, of
    any form, only if the text of the range names a prerelease of the same
    major, minor and patch. *)
Theorem prerelease_opt_in specifier version v :
  npmObservationConstraintMatches specifier version = Some true →
  parseNpmSemver version = Some v → nv_prerelease v ≠ [] → names_prerelease specifier v.
Proof.
  unfold npmObservationConstraintMatches. intros H Hp Hv. rewrite Hp in H. cbn [mbind option_bind] in H.
  destruct (trim specifier ≡? ""); [done|]. destruct (existsb _ _); [done|].
  apply bind_Some in H as (ms & Hms%mapM_Some & [= H]). apply existsb_exists in H as (m & Hm & Hid). unfold id in Hid. subst m.
  apply list_elem_of_In, list_elem_of_lookup in Hm as [i Hi].
  destruct (Forall2_lookup_r _ _ _ _ _ Hms Hi) as (b & Hb & Hm). apply list_elem_of_lookup_2, list_elem_of_fmap in Hb as (b' & -> & Hb).
  apply branch_opt_in in Hm; [|done]. eapply names_infix; [exact Hm|]. etrans; [apply infix_trim|].
  etrans; [|apply infix_trim]. pose proof (pieces_infix _ _ (split_bars_pieces (trim specifier))) as Hf.
  rewrite Forall_forall in Hf. by apply Hf.
Qed.

(** ** A range and a version *)

Definition v123 : NpmSemver := mkNpmSemver 1 2 3 [pr_text "rc"; pr_num 1].
Lemma v123_ok : version_ok v123.
Proof. repeat constructor. Qed.
Lemma version_roundtrip_witness : version_ok v123 ∧ parseNpmSemver (show_version v123) = Some v123.
Proof. split; [exact v123_ok|exact (version_roundtrip v123 v123_ok)]. Defined.
Lemma caret_tilde_exact_witness :
  version_ok v123 ∧ npmObservationConstraintMatches (range_text false v123) (show_version v123)
  = Some (at_least v123 v123 && same_leading false v123 v123 && admits_prerelease v123 v123).
Proof. split; [exact v123_ok|exact (caret_tilde_exact false v123 v123 v123_ok v123_ok)]. Defined.
Lemma prerelease_opt_in_witness : names_prerelease "^1.2.3-beta" (mkNpmSemver 1 2 3 [pr_text "rc"]).
Proof.
  apply (prerelease_opt_in "^1.2.3-beta" "1.2.3-rc" (mkNpmSemver 1 2 3 [pr_text "rc"])); [reflexivity|reflexivity|done].
Defined.
