(* ===== verification/DepProposal.v ===== *)
(** * DepProposal: draft records from observed dependency upgrades

    [queries/dependency_observation_acceptance_records.ts] and
    [queries/dependency_draft_proposal_detail.ts]: the exact candidates of the
    pnpm and npm profiles, the custody of a proposal and its identity, the one
    draft-only Change Record made of it, and the reader that takes nothing on
    trust.  [sha256] gives the lowercase hexadecimal digest of a text. *)

From S2P Require Import Prelude Table Regex Intake JsonText Base64 JsonValue GoReceipt Tx RecordSchema Timeline.
From S2P Require Import ChangeRecords Contracts DepSchema DepWatches NpmRange GoSumdb.
From stdpp Require Import sorting.
From Stdlib Require Import Ascii QArith.
From Stdlib Require String.
Open Scope Z_scope.

Definition ACTOR : string := "server:dependency-observation-proposal".

(** ** Tests on texts *)

(** [BIDI_OR_CONTROL] on UTF-8: U+061C is D8 9C, U+200E and U+200F end in 8E
    and 8F after E2 80, U+202A to U+202E in AA to AE, and U+2066 to U+2069 in A6
    to A9 after E2 81. *)
Fixpoint BIDI_OR_CONTROL (s : string) : bool :=
  match s with
  | EmptyString => false
  | String c s1 =>
      control_char c
      || match s1 with
         | String c2 s2 =>
             (byte_at c =? 216)%nat && (byte_at c2 =? 156)%nat
             || match s2 with
                | String c3 _ =>
                    let n := byte_at c3 in
                    (byte_at c =? 226)%nat
                    && ((byte_at c2 =? 128)%nat && ((n =? 142) || (n =? 143) || (170 <=? n) && (n <=? 174))%nat
                        || (byte_at c2 =? 129)%nat && ((166 <=? n) && (n <=? 169))%nat)
                | EmptyString => false
                end
         | EmptyString => false
         end
      || BIDI_OR_CONTROL s1
  end.
Definition safeText (s : string) : bool := (s ≢? "") && (js_length s <=? 512) && negb (BIDI_OR_CONTROL s).
Definition safe_custody_path (s : string) : bool :=
  safeText s && negb (starts_with "/" s) && negb (contains_char backslash s)
  && forallb (λ part, (part ≢? "") && (part ≢? ".") && (part ≢? "..")) (split_on "/" s).
(** [/^sha256:[a-f0-9]{64}$/] *)
Definition sha256_name (s : string) : bool := starts_with "sha256:" s && lower_hex 64 (slice_from 7 s).
(** [SEMVER] *)
Definition SEMVER (s : string) : bool :=
  let '(rest, build) := cut_opt "+" s in
  let '(core, pre) := cut_opt "-" rest in
  negb (is_null (parse_core core)) && build_ok pre && build_ok build.
Definition lower_alnum (c : ascii) : bool := is_digit c || char_in "a" "z" c.
Definition package_part (s : string) : bool :=
  match s with String c s' => lower_alnum c && all_chars (λ c, lower_alnum c || one_of "._-" c) s' | _ => false end.
(** [NPM_PACKAGE] *)
Definition NPM_PACKAGE (s : string) : bool :=
  if starts_with "@" s then
    match cut "/" (slice_from 1 s) with Some (scope, name) => package_part scope && package_part name | None => false end
  else package_part s.
Definition unsafe_protocols : list string := ["file:"; "link:"; "workspace:"; "git+:"; "git:"; "path:"; "http:"; "https:"].
Definition UNSAFE_SPECIFIER (s : string) : bool := existsb (λ p, starts_with p (lower s)) unsafe_protocols.
Definition UNSAFE_NPM_SPECIFIER (s : string) : bool := UNSAFE_SPECIFIER s || starts_with "npm:" (lower s).

(** ** Profiles *)

Inductive Manager := pnpm | npm.
#[export] Instance Manager_eq_dec : EqDecision Manager.
Proof. solve_decision. Defined.
Definition manager_name (m : Manager) : string := match m with pnpm => "pnpm" | npm => "npm" end.
Definition profile_name (m : Manager) : string :=
  match m with pnpm => "pnpm_lockfile_only_v1" | npm => "npm_package_lock_only_v1" end.
(** The [profile] of an entry of [dependencyObservationProposalProfileRegistry]. *)
Definition profile_json (m : Manager) : json :=
  JObj [("ecosystem", JStr "node"); ("manager", JStr (manager_name m)); ("profile", JStr (profile_name m));
        ("capability", JStr "proposal_observation_only")].
Definition manifest_path : string := "package.json".
Definition lockfile_path (m : Manager) : string := match m with pnpm => "pnpm-lock.yaml" | npm => "package-lock.json" end.
Definition profileDefinition (v : json) : option Manager :=
  if text_is v "ecosystem" "node" then
    if text_is v "package_manager" "pnpm" then Some pnpm
    else if text_is v "package_manager" "npm" then Some npm else None
  else None.

(** ** Candidates *)

(** The fields of a candidate that its profile does not fix. *)
Record ProposalCandidate := mkProposalCandidate {
  pc_manager : Manager;
  pc_package : string;
  pc_dependency_kind : string;
  pc_specifier : string;
  pc_current_version : string;
  pc_target_version : string;
  pc_baseline_sha : string;
  pc_fingerprint : string;
}.
#[export] Instance ProposalCandidate_eq_dec : EqDecision ProposalCandidate.
Proof. solve_decision. Defined.

Definition LEGACY_CANDIDATE_KEYS : list string :=
  ["package"; "ecosystem"; "package_manager"; "dependency_kind"; "specifier"; "current_version"; "target_version";
   "manifest_path"; "lockfile_path"; "baseline_sha"; "fingerprint"; "package_manager_version"; "verification_commands";
   "manager_commands"].
(** [NPM_SAVE_FLAGS] *)
Definition npm_save_flag (kind : string) : option string :=
  if kind ≡? "dependencies" then Some "--save-prod" else if kind ≡? "devDependencies" then Some "--save-dev"
  else if kind ≡? "optionalDependencies" then Some "--save-optional"
  else if kind ≡? "peerDependencies" then Some "--save-peer" else None.
Definition version_command (m : Manager) : string := manager_name m +:+ " --version".
Definition install_command (m : Manager) : string :=
  match m with pnpm => "pnpm install --frozen-lockfile" | npm => "npm ci --ignore-scripts" end.
Definition update_command (m : Manager) (package target kind : string) : string :=
  match m with
  | pnpm => "pnpm update --lockfile-only --ignore-scripts " +:+ package +:+ "@" +:+ target
  | npm => "npm install " +:+ package +:+ "@" +:+ target +:+ " --package-lock-only --ignore-scripts --no-audit "
           +:+ default "undefined" (npm_save_flag kind)
  end.
Definition verification_commands (m : Manager) : list string :=
  match m with pnpm => ["pnpm install --frozen-lockfile"; "pnpm test"] | npm => ["npm test"] end.

(** The object the validators build, in its order. *)
Definition candidate_json (c : ProposalCandidate) : json :=
  let m := pc_manager c in
  JObj [("package", JStr (pc_package c)); ("ecosystem", JStr "node"); ("package_manager", JStr (manager_name m));
        ("package_manager_version", JNull); ("dependency_kind", JStr (pc_dependency_kind c));
        ("specifier", JStr (pc_specifier c)); ("current_version", JStr (pc_current_version c));
        ("target_version", JStr (pc_target_version c)); ("manifest_path", JStr manifest_path);
        ("lockfile_path", JStr (lockfile_path m)); ("baseline_sha", JStr (pc_baseline_sha c));
        ("fingerprint", JStr (pc_fingerprint c)); ("verification_commands", JArr (JStr <$> verification_commands m));
        ("manager_commands",
          JObj [("version", JStr (version_command m)); ("install", JStr (install_command m));
                ("update", JStr (update_command m (pc_package c) (pc_target_version c) (pc_dependency_kind c)))])].

Section Proposal.
Context (sha1 : list Z → list Z) (sha256 : string → string).

Definition stableSha256 (value : json) : string := "sha256:" +:+ sha256 (stringify value).
(** [pnpmObservationCandidateFingerprint] and [npmObservationCandidateFingerprint] *)
Definition fingerprint_fields (c : ProposalCandidate) : json :=
  JObj [("baseline_sha", JStr (pc_baseline_sha c)); ("current_version", JStr (pc_current_version c));
        ("dependency_kind", JStr (pc_dependency_kind c)); ("lockfile_path", JStr (lockfile_path (pc_manager c)));
        ("manifest_path", JStr manifest_path); ("package", JStr (pc_package c));
        ("package_manager", JStr (manager_name (pc_manager c))); ("specifier", JStr (pc_specifier c));
        ("target_version", JStr (pc_target_version c))].
Definition observationCandidateFingerprint (c : ProposalCandidate) : string := stableSha256 (fingerprint_fields c).

(** The checks that differ between the two validators. *)
Definition versions_ok (c : ProposalCandidate) : bool :=
  let specifier := pc_specifier c in
  let current := pc_current_version c in
  let target := pc_target_version c in
  SEMVER current && SEMVER target
  && match pc_manager c with
     | pnpm => bool_decide (pc_dependency_kind c ∈ ["dependencies"; "devDependencies"])
               && negb (UNSAFE_SPECIFIER specifier) && (target ≢? current)
     | npm => negb (is_null (npm_save_flag (pc_dependency_kind c))) && negb (UNSAFE_NPM_SPECIFIER (trim specifier))
              && npmTargetIsNewer current target
              && bool_decide (npmObservationConstraintMatches specifier current = Some true)
              && bool_decide (npmObservationConstraintMatches specifier target = Some true)
     end.
Definition commands_ok (c : ProposalCandidate) (raw : json) : bool :=
  let m := pc_manager c in
  match json_field raw "manager_commands", array_at raw "verification_commands" with
  | Some (JObj fields), Some verification =>
      let commands := JObj fields in
      (count (object_keys commands) =? 3) && text_is commands "version" (version_command m)
      && text_is commands "install" (install_command m)
      && text_is commands "update" (update_command m (pc_package c) (pc_target_version c) (pc_dependency_kind c))
      && bool_decide (verification = JStr <$> verification_commands m)
  | _, _ => false
  end.
(** [validatePnpmObservationProposalCandidate], [validateNpmObservationProposalCandidate] *)
Definition validateObservationProposalCandidate (m : Manager) (raw : json) : option ProposalCandidate :=
  if negb (hasExactKeys raw LEGACY_CANDIDATE_KEYS) then None else
  if negb (text_is raw "ecosystem" "node") || negb (text_is raw "package_manager" (manager_name m))
     || negb (bool_decide (json_field raw "package_manager_version" = Some JNull)) then None else
  package ← text_test raw "package" (λ s, safeText s && NPM_PACKAGE s);
  dependency_kind ← text_test raw "dependency_kind" safeText;
  specifier ← text_test raw "specifier" safeText;
  current_version ← text_test raw "current_version" safeText;
  target_version ← text_test raw "target_version" safeText;
  baseline_sha ← text_test raw "baseline_sha" isSha;
  fingerprint ← text_test raw "fingerprint" sha256_name;
  let c := mkProposalCandidate m package dependency_kind specifier current_version target_version baseline_sha fingerprint in
  if versions_ok c && text_is raw "manifest_path" manifest_path && text_is raw "lockfile_path" (lockfile_path m)
     && commands_ok c raw && (observationCandidateFingerprint c ≡? fingerprint)
  then Some c else None.
Definition resolveDependencyObservationProposalCandidate (v : json) : option ProposalCandidate :=
  m ← profileDefinition v; validateObservationProposalCandidate m v.

(** ** Custody *)

Definition MAX_SELECTED_FILE_HASHES : Z := 16.
(** The hashes of the manifest and of the lockfile. *)
Definition selectedHashes (m : Manager) (value : json) : option (string * string) :=
  let keys := object_keys value in
  if negb ((2 <=? count keys) && (count keys <=? MAX_SELECTED_FILE_HASHES))
     || negb (forallb (λ k, safe_custody_path k && negb (is_null (text_test value k SOURCE_SHA256))) keys) then None else
  manifest ← text_test value manifest_path SOURCE_SHA256;
  lockfile ← text_test value (lockfile_path m) SOURCE_SHA256;
  Some (manifest, lockfile).
Definition hashes_json (m : Manager) (h : string * string) : json :=
  JObj [(manifest_path, JStr h.1); (lockfile_path m, JStr h.2)].

Record Custody := mkCustody {
  cu_watchId : string;
  cu_repositoryId : string;
  cu_repositoryName : string;
  cu_observationId : string;
  cu_observationKey : string;
  cu_baselineSha : string;
  cu_hashes : string * string;
  cu_candidate : ProposalCandidate;
}.
#[export] Instance Custody_eq_dec : EqDecision Custody.
Proof. solve_decision. Defined.
Definition cu_manager (c : Custody) : Manager := pc_manager (cu_candidate c).

(** The object [custodyIdentity] hashes. *)
Definition custody_json (c : Custody) : json :=
  JObj [("kind", JStr "dependency_observation_proposal_custody"); ("version", jnum 1);
        ("profile", profile_json (cu_manager c));
        ("repository", JObj [("id", JStr (cu_repositoryId c)); ("name", JStr (cu_repositoryName c))]);
        ("watchId", JStr (cu_watchId c));
        ("observation", JObj [("id", JStr (cu_observationId c)); ("key", JStr (cu_observationKey c))]);
        ("baselineSha", JStr (cu_baselineSha c)); ("selectedFileHashes", hashes_json (cu_manager c) (cu_hashes c));
        ("candidate", candidate_json (cu_candidate c))].
Definition custodyIdentity (c : Custody) : string := stableSha256 (custody_json c).

(** [dependencyObservationProposalCustodyIdentity], on hashes as a JSON object *)
Definition proposal_custody (repositoryId repositoryName watchId observationId observationKey baselineSha : string)
    (selectedFileHashes candidate : json) : option Custody :=
  resolved ← resolveDependencyObservationProposalCandidate candidate;
  hashes ← selectedHashes (pc_manager resolved) selectedFileHashes;
  if (count (object_keys selectedFileHashes) =? 2) && lower_uuid repositoryId && safeText repositoryName
     && lower_uuid watchId && lower_uuid observationId && safeText observationKey && isSha baselineSha
     && (pc_baseline_sha resolved ≡? baselineSha)
  then Some (mkCustody watchId repositoryId repositoryName observationId observationKey baselineSha hashes resolved)
  else None.
Definition dependencyObservationProposalCustodyIdentity (repositoryId repositoryName watchId observationId observationKey
    baselineSha : string) (selectedFileHashes candidate : json) : option string :=
  custodyIdentity <$> proposal_custody repositoryId repositoryName watchId observationId observationKey baselineSha
    selectedFileHashes candidate.

(** ** What the draft says *)

(** The fields the source reference, the environment of the contract and the
    payload of the event share. *)
Definition custody_fields (c : Custody) (identity : string) : list (string * json) :=
  [("repositoryId", JStr (cu_repositoryId c)); ("repositoryName", JStr (cu_repositoryName c));
   ("watchId", JStr (cu_watchId c)); ("observationId", JStr (cu_observationId c));
   ("observationKey", JStr (cu_observationKey c)); ("candidateFingerprint", JStr (pc_fingerprint (cu_candidate c)));
   ("proposalCustodyIdentity", JStr identity); ("candidate", candidate_json (cu_candidate c));
   ("baselineSha", JStr (cu_baselineSha c)); ("manifestPath", JStr manifest_path);
   ("lockfilePath", JStr (lockfile_path (cu_manager c)));
   ("selectedFileHashes", hashes_json (cu_manager c) (cu_hashes c)); ("profile", profile_json (cu_manager c));
   ("repositorySourceVerification", JStr "watch_observation_only"); ("independentSourceProof", JStr "not_proven")].
Definition sourceReferences (c : Custody) (identity : string) : json :=
  JArr [JObj ([("kind", JStr "dependency_watch_observation_proposal"); ("version", jnum 1)] ++ custody_fields c identity)].
Definition unresolved_kinds (m : Manager) : list string :=
  ["release"; "usage"; "runtime"; "target-lock"; "security"; "human-confirmation"; "approval"; "context-pack"; "builder-handoff"]
  ++ match m with npm => ["delivery"; "pull-request"; "merge"] | pnpm => [] end.
Definition original_request (c : ProposalCandidate) : string :=
  "Assess observed dependency candidate " +:+ pc_package c +:+ " from " +:+ pc_current_version c +:+ " to "
  +:+ pc_target_version c +:+ ".".
Definition normalized_requirements : json :=
  JArr [JStr "This is a draft-only dependency proposal with server-derived observation custody.";
        JStr "No confirmation, approval, Context Pack, route, issue, pull request, queue, execution, or delivery is authorized."].
Definition custody_criteria : json :=
  JArr [JObj [("id", JStr "DEP-PROPOSAL-CUSTODY");
              ("text", JStr "Watch-observation proposal custody remains exact and grants no delivery authority.");
              ("userVisible", JBool false)]].
Definition non_goals : json := JArr [JStr "No dependency change or operational handoff."].
Definition risks_of (m : Manager) : json := JArr ((λ kind, JStr (kind +:+ " evidence is unresolved and blocking.")) <$> unresolved_kinds m).
Definition stops_of (m : Manager) : json := JArr ((λ kind, JStr (kind +:+ " evidence remains unresolved.")) <$> unresolved_kinds m).
Definition questions_of (m : Manager) : json :=
  JArr ((λ kind, JObj [("id", JStr ("dependency-" +:+ kind +:+ "-evidence"));
                       ("text", JStr (kind +:+ " evidence has not been admitted."))]) <$> unresolved_kinds m).
Definition proposal_contract (c : Custody) (identity : string) : json :=
  let m := cu_manager c in
  JObj [("originalRequest", JStr (original_request (cu_candidate c))); ("normalizedRequirements", normalized_requirements);
        ("acceptanceCriteria", custody_criteria); ("nonGoals", non_goals); ("risks", risks_of m);
        ("environment", JObj ([("kind", JStr "dependency_watch_observation_proposal"); ("admission", JStr "draft_only")]
                              ++ custody_fields c identity));
        ("stops", stops_of m); ("unresolvedQuestions", questions_of m)].
Definition draft_payload (c : Custody) (recordId contractId identity : string) : json :=
  JObj ([("kind", JStr "dependency_observation_proposal_draft"); ("version", jnum 1); ("recordId", JStr recordId);
         ("acceptanceContractId", JStr contractId); ("acceptanceContractVersion", jnum 1)]
        ++ custody_fields c identity ++ [("evidenceAdmission", JStr "unresolved"); ("authority", JStr "draft_only")]).

(** ** The draft *)

Inductive DraftError :=
  | de_not_found (message : string)
  | de_unsupported_manager (message : string)
  | de_unsafe_custody (message : string)
  | de_conflict (message : string)
  | de_database (e : RecordError).
Record ProposalDb := mkProposalDb { pd_dep : DepDb; pd_records : RecordDb }.
Notation proposal_tx := (tx DraftError ProposalDb).
Definition in_records {A} (m : record_tx A) : proposal_tx A := λ g,
  match m (pd_records g) with inl e => inl (de_database e) | inr (a, d) => inr (a, mkProposalDb (pd_dep g) d) end.

(** Reads that may throw. *)
Definition answer {A} (f : ProposalDb → DraftError + A) : proposal_tx A := λ g,
  match f g with inl e => inl e | inr x => inr (x, g) end.

Record Locator := mkLocator { lo_workspaceId : string; lo_watchId : string; lo_candidateFingerprint : string }.
Definition exactLocator (i : Locator) : bool :=
  lower_uuid (lo_workspaceId i) && lower_uuid (lo_watchId i) && sha256_name (lo_candidateFingerprint i).

(** [ORDER BY observed_at DESC, created_at DESC, id DESC] *)
Definition later_first (x y : string * WatchObservation) : Prop :=
  ob_observed_at y.2 < ob_observed_at x.2 ∨ ob_observed_at x.2 = ob_observed_at y.2
  ∧ (ob_created_at y.2 < ob_created_at x.2 ∨ ob_created_at x.2 = ob_created_at y.2 ∧ String.leb y.1 x.1 = true).
#[export] Instance later_first_dec : RelDecision later_first.
Proof. intros x y. unfold later_first. apply _. Defined.
Definition watch_observations (ws watchId repositoryId : string) (d : DepDb) : list (string * WatchObservation) :=
  select_where (λ _ o, (ob_workspace_id o ≡? ws) && (ob_watch_id o ≡? watchId) && (ob_repository_id o ≡? repositoryId))
    (dd_observations d).
Definition latest_observation (ws watchId repositoryId : string) (d : DepDb) : option (string * WatchObservation) :=
  head (merge_sort later_first (watch_observations ws watchId repositoryId d)).
(** The watch joined with its repository. *)
Definition joined_watch (ws watchId : string) (d : DepDb) : option (DependencyWatch * string) :=
  watch ← getDependencyWatch ws watchId d;
  repository ← owned_repository ws (dw_repository_id watch) d;
  Some (watch, rp_name repository).
Definition candidateWithFingerprint (fingerprint : string) (v : json) : bool := text_is v "fingerprint" fingerprint.
Definition stored_hashes (o : WatchObservation) : json :=
  JObj ((λ kv, (kv.1, JStr kv.2)) <$> map_to_list (ob_selected_file_hashes o)).
Definition root_paths (m : Manager) (w : DependencyWatch) : bool :=
  (dw_manifest_path w ≡? manifest_path) && (dw_lockfile_path w ≡? lockfile_path m)
  || (dw_manifest_path w ≡? "auto") && (dw_lockfile_path w ≡? "auto").

Definition readCustody (i : Locator) (d : DepDb) : DraftError + Custody :=
  match joined_watch (lo_workspaceId i) (lo_watchId i) d with
  | None => inl (de_not_found "Dependency watch was not found in this workspace")
  | Some (watch, repositoryName) =>
  match latest_observation (lo_workspaceId i) (lo_watchId i) (dw_repository_id watch) d with
  | None => inl (de_not_found "Dependency watch has no current observation")
  | Some (observationId, o) =>
  if negb (safeText (ob_observation_key o)) then inl (de_unsafe_custody "Dependency observation key is not bounded custody") else
  match List.filter (candidateWithFingerprint (lo_candidateFingerprint i)) (ob_candidates o) with
  | [] => inl (de_not_found "Dependency candidate is not present in the current observation")
  | [raw] =>
      match profileDefinition raw with
      | None => inl (de_unsupported_manager "Dependency manager is not supported by the proposal custody profile")
      | Some m =>
          if negb (root_paths m watch) then
            inl (de_unsafe_custody ("Dependency watch paths do not match the root " +:+ manager_name m +:+ " proposal custody profile"))
          else
          match resolveDependencyObservationProposalCandidate raw, ob_baseline_sha o, selectedHashes m (stored_hashes o) with
          | Some candidate, Some baselineSha, Some hashes =>
              if (ob_status o ≡? ws_candidates) && (baselineSha ≡? pc_baseline_sha candidate) && isSha baselineSha
              then inr (mkCustody (lo_watchId i) (dw_repository_id watch) repositoryName observationId (ob_observation_key o)
                          baselineSha hashes candidate)
              else inl (de_unsafe_custody ("Dependency observation lacks bounded " +:+ manager_name m +:+ " proposal custody"))
          | _, _, _ => inl (de_unsafe_custody ("Dependency observation lacks bounded " +:+ manager_name m +:+ " proposal custody"))
          end
      end
  | _ => inl (de_unsafe_custody "Dependency observation has ambiguous candidate custody")
  end
  end
  end.

Definition proposal_work_key (identity : string) : string := "dependency-observation-proposal:" +:+ identity.
Definition proposal_event_key (identity : string) : string := "dependency-observation-proposal:draft:" +:+ identity.
Definition proposal_stage : string := "dependency_observation_proposal".
Definition proposal_record_id (ws repo identity : string) : option string :=
  changeRecordId sha1 (mkAnchor ws repo (Some (proposal_work_key identity)) None None).

(** The stored record is the untouched draft. *)
Definition exact_record (cu : Custody) (identity : string) (r : ChangeRecord) : bool :=
  (cr_repo r ≡? cu_repositoryName cu) && sql_eq (cr_work_key r) (proposal_work_key identity)
  && sql_eq (cr_origin_channel r) "dependency_watch"
  && isDeepStrictEqual (cr_source_references r) (sourceReferences cu identity)
  && is_null (cr_issue_number r) && is_null (cr_pr_number r) && is_null (cr_head_sha r) && is_null (cr_cycle_id r)
  && negb (cr_authoritative r) && (cr_generation r ≡? 0) && bool_decide (cr_head_shas r = []) && is_null (cr_merged_sha r)
  && (cr_state r ≡? "open").
Definition exact_contract (cu : Custody) (identity recordId : string) (kc : string * AcceptanceContract) : bool :=
  (kc.1 ≡? acceptanceContractId sha1 recordId 1) && (ac_record_id kc.2 ≡? recordId) && (ac_version kc.2 ≡? 1)
  && (ac_status kc.2 ≡? "draft") && is_null (ac_confirmed_by kc.2) && is_null (ac_confirmed_at kc.2)
  && (ac_created_by kc.2 ≡? ACTOR) && isDeepStrictEqual (ac_contract kc.2) (proposal_contract cu identity).
Definition exact_event (cu : Custody) (identity recordId : string) (ke : string * ChangeEvent) : bool :=
  (ke.1 ≡? changeRecordEventId sha1 recordId (proposal_event_key identity)) && (ce_record_id ke.2 ≡? recordId)
  && (ce_event_key ke.2 ≡? proposal_event_key identity) && (ce_stage ke.2 ≡? proposal_stage) && (ce_actor ke.2 ≡? ACTOR)
  && isDeepStrictEqual (ce_payload ke.2) (draft_payload cu recordId (acceptanceContractId sha1 recordId 1) identity).

Record DraftResult := mkDraftResult {
  dr_record : string * ChangeRecord;
  dr_contract : string * AcceptanceContract;
  dr_event : string * ChangeEvent;
  dr_custody : Custody;
  dr_created : bool;
}.

Definition new_draft_record (c : Clock) (ws identity : string) (cu : Custody) : ChangeRecord :=
  mkChangeRecord ws (cu_repositoryName cu) (Some (proposal_work_key identity)) (Some "dependency_watch")
    (sourceReferences cu identity) None None None None false 0 [] None "open" (db_now c) (db_now c).
(** The INSERT of the record, under the unique index of the work key. *)
Definition insert_draft_record (id : string) (r : ChangeRecord) : record_tx ChangeRecord := λ d,
  match find_record (has_work_key (cr_workspace_id r) (cr_repo r) (default "" (cr_work_key r))) (rd_records d) with
  | Some _ => inl RecordSchema.unique_violation
  | None => insert_record id r d
  end.
(** The INSERT of the event, without a conflict clause. *)
Definition insert_draft_event (id : string) (e : ChangeEvent) : record_tx (string * ChangeEvent) := λ d,
  match insert_event id e d with
  | inr (true, d') => inr ((id, e), d')
  | inr (false, _) => inl RecordSchema.unique_violation
  | inl x => inl x
  end.

Definition contracts_of (recordId : string) (d : RecordDb) : list (string * AcceptanceContract) :=
  select_where (λ _ k, ac_record_id k ≡? recordId) (rd_contracts d).
Definition events_of (recordId : string) (d : RecordDb) : list (string * ChangeEvent) :=
  select_where (λ _ e, ce_record_id e ≡? recordId) (rd_events d).
(** [SELECT * FROM change_records WHERE workspace_id = ... AND id = ...] *)
Definition record_in (ws id : string) (d : RecordDb) : option ChangeRecord :=
  r ← rd_records d !! id; if cr_workspace_id r ≡? ws then Some r else None.

Definition conflict : DraftError := de_conflict "Dependency proposal custody conflicts with its immutable record".
Definition replay_draft (cu : Custody) (identity recordId : string) (r : ChangeRecord) (d : RecordDb) : DraftError + DraftResult :=
  match contracts_of recordId d, events_of recordId d with
  | [k], [e] =>
      if exact_record cu identity r && exact_contract cu identity recordId k && exact_event cu identity recordId e
      then inr (mkDraftResult (recordId, r) k e cu false) else inl conflict
  | _, _ => inl conflict
  end.
Definition write_draft (c : Clock) (ws identity recordId : string) (cu : Custody) : record_tx DraftResult :=
  r ← insert_draft_record recordId (new_draft_record c ws identity cu);
  let contractId := acceptanceContractId sha1 recordId 1 in
  k ← insert_contract contractId (draft c recordId 1 (proposal_contract cu identity) ACTOR);
  e ← insert_draft_event (changeRecordEventId sha1 recordId (proposal_event_key identity))
        (contract_event c recordId (proposal_event_key identity) proposal_stage ACTOR
           (draft_payload cu recordId contractId identity));
  mret (mkDraftResult (recordId, r) k e cu true).

Definition draft_tx (c : Clock) (i : Locator) : proposal_tx DraftResult :=
  cu ← answer (λ g, readCustody i (pd_dep g));
  let identity := custodyIdentity cu in
  recordId ← some_or (proposal_record_id (lo_workspaceId i) (cu_repositoryName cu) identity) (de_database invalid_input);
  existing ← reads (λ g, record_in (lo_workspaceId i) recordId (pd_records g));
  match existing with
  | Some r => answer (λ g, replay_draft cu identity recordId r (pd_records g))
  | None => in_records (write_draft c (lo_workspaceId i) identity recordId cu)
  end.
Definition createDraftAcceptanceRecordFromDependencyObservation (c : Clock) (i : Locator) (g : ProposalDb)
    : (DraftError + DraftResult) * ProposalDb :=
  if exactLocator i then transaction (draft_tx c i) g
  else (inl (de_unsafe_custody "Dependency proposal locator must contain exactly workspaceId, watchId, and candidateFingerprint"), g).

(** ** Reading the draft back *)

Inductive DetailResult :=
  | dt_draft (contractId : string) (custody : Custody)
  | dt_not_found
  | dt_not_draft_proposal
  | dt_invalid_custody.

(** [safeText] of the reader: no space at either end. *)
Definition trimmedText (s : string) : bool := safeText s && (trim s ≡? s).
(** The patterns of the reader ignore case. *)
Definition any_uuid (s : string) : bool := lower_uuid (lower s).
Definition any_sha1 (s : string) : bool := isSha (lower s).
Definition any_sha256_name (s : string) : bool := sha256_name (lower s).
Definition deep_at (v : json) (key : string) (w : json) : bool :=
  match json_field v key with Some x => isDeepStrictEqual x w | None => false end.

Definition SOURCE_KEYS : list string :=
  ["kind"; "version"; "repositoryId"; "repositoryName"; "watchId"; "observationId"; "observationKey"; "candidateFingerprint";
   "proposalCustodyIdentity"; "candidate"; "baselineSha"; "manifestPath"; "lockfilePath"; "selectedFileHashes"; "profile";
   "repositorySourceVerification"; "independentSourceProof"].
(** [source(value)]: the custody and the identity the reference carries. *)
Definition source (value : json) : option (Custody * string) :=
  if negb (hasExactKeys value SOURCE_KEYS) || negb (text_is value "kind" "dependency_watch_observation_proposal")
     || negb (number_at_is value "version" 1) || negb (text_is value "repositorySourceVerification" "watch_observation_only")
     || negb (text_is value "independentSourceProof" "not_proven") then None else
  repositoryId ← text_test value "repositoryId" any_uuid;
  repositoryName ← text_test value "repositoryName" trimmedText;
  watchId ← text_test value "watchId" any_uuid;
  observationId ← text_test value "observationId" any_uuid;
  observationKey ← text_test value "observationKey" trimmedText;
  candidateFingerprint ← text_test value "candidateFingerprint" any_sha256_name;
  identity ← text_test value "proposalCustodyIdentity" any_sha256_name;
  baselineSha ← text_test value "baselineSha" any_sha1;
  hashes ← object_at value "selectedFileHashes";
  candidate ← json_field value "candidate";
  resolved ← resolveDependencyObservationProposalCandidate candidate;
  let m := pc_manager resolved in
  if (pc_fingerprint resolved ≡? candidateFingerprint) && (pc_baseline_sha resolved ≡? baselineSha)
     && text_is value "manifestPath" manifest_path && text_is value "lockfilePath" (lockfile_path m)
     && deep_at value "profile" (profile_json m) && hasExactKeys hashes [manifest_path; lockfile_path m]
  then
    manifestHash ← text_test hashes manifest_path (λ s, SOURCE_SHA256 (lower s));
    lockfileHash ← text_test hashes (lockfile_path m) (λ s, SOURCE_SHA256 (lower s));
    if bool_decide (dependencyObservationProposalCustodyIdentity repositoryId repositoryName watchId observationId observationKey
                      baselineSha (hashes_json m (manifestHash, lockfileHash)) (candidate_json resolved) = Some identity)
    then Some (mkCustody watchId repositoryId repositoryName observationId observationKey baselineSha
                 (manifestHash, lockfileHash) resolved, identity)
    else None
  else None.

(** [sameSourceFields] *)
Definition sameSourceFields (value : json) (cu : Custody) (identity : string) : bool :=
  text_is value "repositoryId" (cu_repositoryId cu) && text_is value "repositoryName" (cu_repositoryName cu)
  && text_is value "watchId" (cu_watchId cu) && text_is value "observationId" (cu_observationId cu)
  && text_is value "observationKey" (cu_observationKey cu)
  && text_is value "candidateFingerprint" (pc_fingerprint (cu_candidate cu))
  && text_is value "proposalCustodyIdentity" identity && text_is value "baselineSha" (cu_baselineSha cu)
  && text_is value "manifestPath" manifest_path && text_is value "lockfilePath" (lockfile_path (cu_manager cu))
  && deep_at value "candidate" (candidate_json (cu_candidate cu))
  && deep_at value "selectedFileHashes" (hashes_json (cu_manager cu) (cu_hashes cu))
  && deep_at value "profile" (profile_json (cu_manager cu))
  && text_is value "repositorySourceVerification" "watch_observation_only"
  && text_is value "independentSourceProof" "not_proven".
Definition CONTRACT_KEYS : list string :=
  ["originalRequest"; "normalizedRequirements"; "acceptanceCriteria"; "nonGoals"; "risks"; "environment"; "stops";
   "unresolvedQuestions"].
Definition ENVIRONMENT_KEYS : list string :=
  ["kind"; "admission"; "profile"; "repositoryId"; "repositoryName"; "watchId"; "observationId"; "observationKey";
   "candidateFingerprint"; "proposalCustodyIdentity"; "candidate"; "baselineSha"; "manifestPath"; "lockfilePath";
   "selectedFileHashes"; "repositorySourceVerification"; "independentSourceProof"].
Definition exactContract (value : json) (cu : Custody) (identity : string) : bool :=
  let m := cu_manager cu in
  hasExactKeys value CONTRACT_KEYS
  && match json_field value "environment" with
     | Some environment =>
         hasExactKeys environment ENVIRONMENT_KEYS && text_is environment "kind" "dependency_watch_observation_proposal"
         && text_is environment "admission" "draft_only" && sameSourceFields environment cu identity
     | None => false
     end
  && text_is value "originalRequest" (original_request (cu_candidate cu))
  && deep_at value "normalizedRequirements" normalized_requirements && deep_at value "acceptanceCriteria" custody_criteria
  && deep_at value "nonGoals" non_goals && deep_at value "risks" (risks_of m) && deep_at value "stops" (stops_of m)
  && deep_at value "unresolvedQuestions" (questions_of m).
Definition PAYLOAD_KEYS : list string :=
  ["kind"; "version"; "recordId"; "acceptanceContractId"; "acceptanceContractVersion"; "repositoryId"; "repositoryName";
   "watchId"; "observationId"; "observationKey"; "candidateFingerprint"; "proposalCustodyIdentity"; "candidate"; "profile";
   "baselineSha"; "manifestPath"; "lockfilePath"; "selectedFileHashes"; "evidenceAdmission"; "authority";
   "repositorySourceVerification"; "independentSourceProof"].
Definition exactEventPayload (value : json) (cu : Custody) (identity recordId contractId : string) : bool :=
  hasExactKeys value PAYLOAD_KEYS && text_is value "kind" "dependency_observation_proposal_draft"
  && number_at_is value "version" 1 && text_is value "recordId" recordId && text_is value "acceptanceContractId" contractId
  && number_at_is value "acceptanceContractVersion" 1 && sameSourceFields value cu identity
  && text_is value "evidenceAdmission" "unresolved" && text_is value "authority" "draft_only".

Definition detail_rows_ok (cu : Custody) (identity recordId : string) (k : string * AcceptanceContract)
    (e : string * ChangeEvent) : bool :=
  (k.1 ≡? acceptanceContractId sha1 recordId 1) && (ac_version k.2 ≡? 1) && (ac_status k.2 ≡? "draft")
  && (ac_created_by k.2 ≡? ACTOR) && is_null (ac_confirmed_by k.2) && is_null (ac_confirmed_at k.2)
  && exactContract (ac_contract k.2) cu identity
  && (ce_event_key e.2 ≡? proposal_event_key identity)
  && (e.1 ≡? changeRecordEventId sha1 recordId (proposal_event_key identity))
  && (ce_stage e.2 ≡? proposal_stage) && (ce_actor e.2 ≡? ACTOR)
  && exactEventPayload (ce_payload e.2) cu identity recordId k.1.
Definition readDependencyDraftProposalDetail (workspaceId recordId : string) (d : RecordDb) : DetailResult :=
  if negb (any_uuid workspaceId) || negb (any_uuid recordId) then dt_not_found else
  match record_in workspaceId recordId d with
  | None => dt_not_found
  | Some r =>
      match cr_source_references r, cr_work_key r with
      | JArr [reference], Some workKey =>
          if negb (sql_eq (cr_origin_channel r) "dependency_watch") || (workKey ≡? "") then dt_not_draft_proposal else
          match source reference with
          | None => dt_invalid_custody
          | Some (cu, identity) =>
              if (cr_repo r ≡? cu_repositoryName cu) && (workKey ≡? proposal_work_key identity)
                 && bool_decide (changeRecordId sha1 (mkAnchor workspaceId (cr_repo r) (Some workKey) None None) = Some recordId)
              then
                match contracts_of recordId d, events_of recordId d with
                | [k], [e] => if detail_rows_ok cu identity recordId k e then dt_draft k.1 cu else dt_invalid_custody
                | _, _ => dt_invalid_custody
                end
              else dt_invalid_custody
          end
      | _, _ => dt_not_draft_proposal
      end
  end.
End Proposal.
