(* ===== verification/ProposalFacts.v ===== *)
(** * ProposalFacts: what a draft from an observation can and cannot do

    The candidates of a profile, read back; the identity of a custody; the
    draft as the newest observation says it, its replay and its reading; and
    that no approval confirms it. *)

From S2P Require Import Prelude Table Regex Intake JsonText Base64 JsonValue GoReceipt Tx RecordSchema Timeline.
From S2P Require Import ChangeRecords PrDeliveries Approvals Contracts ContractFacts ContractHistory DepSchema DepWatches NpmRange NpmFacts GoSumdb.
From S2P Require Import DepUpgrades DepProposal.
From stdpp Require Import sorting.
From Stdlib Require Import Ascii QArith.
From Stdlib Require String.
Open Scope Z_scope.

(** ** Fields of objects with known keys *)

Lemma text_is_intro v k s : json_field v k = Some (JStr s) → text_is v k s = true.
Proof. unfold text_is, text_at. intros ->. by apply bool_decide_eq_true_2. Qed.
Lemma deep_at_intro v k w : json_field v k = Some w → deep_at v k w = true.
Proof. unfold deep_at. intros ->. apply deep_equal_refl. Qed.
Lemma text_test_intro v k s p : json_field v k = Some (JStr s) → p s = true → text_test v k p = Some s.
Proof. unfold text_test, text_at. by intros -> Hp; cbn; rewrite Hp. Qed.
Ltac field_checks := match goal with
  | |- true = true => reflexivity
  | |- text_is _ _ _ = true => apply text_is_intro; reflexivity
  | |- deep_at _ _ _ = true => apply deep_at_intro; reflexivity
  | _ => vm_compute; reflexivity
  end.

(** ** Texts in lower case *)

#[local] Notation all_chars := JsonValue.all_chars.

Lemma split_on_chars p c s : p c = true → Forall (λ t, all_chars p t = true) (split_on c s) → all_chars p s = true.
Proof.
  intros Hc. induction s as [|x s IH]; [done|]. cbn. case_bool_decide as Hx.
  - subst x. intros [_ H]%Forall_cons. apply andb_true_iff. split; [done|by apply IH].
  - destruct (split_on c s) as [|t ts]; intros [H Hs]%Forall_cons.
    + cbn in H. apply andb_true_iff in H as [-> _]. by apply IH.
    + cbn in H. apply andb_true_iff in H as [-> H]. apply IH. by constructor.
Qed.
Definition uuid_lower_char (c : ascii) : bool := lower_hex_char c || (c ≡? "-"%char).
Lemma lower_char_id : ∀ c, uuid_lower_char c || (c ≡? ":"%char) = true → lower_char c = c. Proof. by_chars. Qed.
Lemma lower_id s : all_chars uuid_lower_char s = true → lower s = s.
Proof.
  intros H. unfold lower. rewrite <- (String.string_of_list_ascii_of_string s) at 2. f_equal.
  induction s as [|c s IH]; [done|]. apply andb_prop in H as [Hc Hs]. cbn [String.list_ascii_of_string].
  rewrite fmap_cons, (IH Hs), lower_char_id; [done|]. by rewrite Hc.
Qed.
Lemma lower_hex_chars n s : lower_hex n s = true → all_chars lower_hex_char s = true.
Proof. unfold lower_hex. intros H. by apply andb_prop in H as [_ H]. Qed.
Lemma lower_hex_id n s : lower_hex n s = true → lower s = s.
Proof. intros H%lower_hex_chars. apply lower_id. eapply all_chars_impl, H. unfold uuid_lower_char. by intros c ->. Qed.
Lemma lower_uuid_any s : lower_uuid s = true → any_uuid s = true.
Proof.
  intros H. unfold any_uuid. rewrite lower_id; [done|]. apply (split_on_chars _ "-"%char); [done|]. unfold lower_uuid in H.
  destruct (split_on "-" s) as [|a [|b [|c [|d [|e [|]]]]]]; try done. rewrite !andb_true_iff in H.
  destruct H as ((((((Ha & Hb) & Hc) & _) & Hd) & _) & He).
  repeat (constructor; [eapply all_chars_impl, lower_hex_chars; [|eassumption]; unfold uuid_lower_char; by intros ? ->|]). constructor.
Qed.
Lemma sha256_name_app s : sha256_name ("sha256:" +:+ s) = lower_hex 64 s.
Proof.
  unfold sha256_name. assert (slice_from 7 ("sha256:" +:+ s) = s) as ->; [|by destruct s].
  change (slice_from 7 ("sha256:" +:+ s)) with (String.string_of_list_ascii (String.list_ascii_of_string s)).
  apply String.string_of_list_ascii_of_string.
Qed.
Lemma any_sha256 s : lower_hex 64 s = true → any_sha256_name ("sha256:" +:+ s) = true.
Proof.
  intros H. unfold any_sha256_name. assert (lower ("sha256:" +:+ s) = "sha256:" +:+ s) as ->; [|by rewrite sha256_name_app].
  change (lower ("sha256:" +:+ s)) with ("sha256:" +:+ lower s). by rewrite (lower_hex_id _ _ H).
Qed.
Lemma starts_with_split p s : starts_with p s = true → s = p +:+ slice_from (String.length p) s.
Proof.
  unfold starts_with, slice_from. revert s. induction p as [|c p IH]; intros s.
  - intros _. rewrite append_nil. symmetry. apply String.string_of_list_ascii_of_string.
  - destruct s as [|x s]; [done|]. cbn. destruct (ascii_dec c x) as [->|]; [|done]. intros H%IH. rewrite append_cons. by f_equal.
Qed.
Lemma sha256_name_any s : sha256_name s = true → any_sha256_name s = true.
Proof.
  unfold sha256_name. intros [Hp H]%andb_prop. apply starts_with_split in Hp. rewrite Hp. by apply any_sha256.
Qed.

(** ** The ids are uuids *)

Lemma lower_uuid_intro a b c d e :
  lower_hex 8 a = true → lower_hex 4 b = true → lower_hex 4 c = true → first_in "12345" c = true → lower_hex 4 d = true →
  first_in "89ab" d = true → lower_hex 12 e = true → lower_uuid (a +:+ "-" +:+ b +:+ "-" +:+ c +:+ "-" +:+ d +:+ "-" +:+ e) = true.
Proof.
  assert (∀ n s, lower_hex n s = true → contains_char "-" s = false) as Hd.
  { intros n s H%lower_hex_chars. by apply (not_contains lower_hex_char). }
  intros Ha Hb Hc Hv Hd' Hr He. unfold lower_uuid. rewrite !append_cons, !append_nil.
  rewrite (split_on_app "-"%char a), (split_on_app "-"%char b), (split_on_app "-"%char c), (split_on_app "-"%char d),
    split_on_none by by eapply Hd. by rewrite Ha, Hb, Hc, Hv, Hd', Hr, He.
Qed.
Lemma digits_lower b : is_byte b → lower_hex_char (hex_digit (b / 16)) && lower_hex_char (hex_digit (b mod 16)) = true.
Proof. revert b. apply (byte_cases (λ b, lower_hex_char (hex_digit (b / 16)) && lower_hex_char (hex_digit (b mod 16)))). by vm_compute. Qed.
Lemma version_lower b : is_byte b →
  let v := Z.lor (Z.land b 0x0f) 0x50 in
  lower_hex_char (hex_digit (v / 16)) && one_of "12345" (hex_digit (v / 16)) && lower_hex_char (hex_digit (v mod 16)) = true.
Proof.
  revert b. apply (byte_cases (λ b, let v := Z.lor (Z.land b 0x0f) 0x50 in
    lower_hex_char (hex_digit (v / 16)) && one_of "12345" (hex_digit (v / 16)) && lower_hex_char (hex_digit (v mod 16)))). by vm_compute.
Qed.
Lemma variant_lower b : is_byte b →
  let v := Z.lor (Z.land b 0x3f) 0x80 in
  lower_hex_char (hex_digit (v / 16)) && one_of "89ab" (hex_digit (v / 16)) && lower_hex_char (hex_digit (v mod 16)) = true.
Proof.
  revert b. apply (byte_cases (λ b, let v := Z.lor (Z.land b 0x3f) 0x80 in
    lower_hex_char (hex_digit (v / 16)) && one_of "89ab" (hex_digit (v / 16)) && lower_hex_char (hex_digit (v mod 16)))). by vm_compute.
Qed.
Definition hash_bytes (sha1 : list Z → list Z) : Prop := ∀ bs, (16 ≤ length (sha1 bs))%nat ∧ Forall is_byte (sha1 bs).
Lemma uuid5_lower sha1 name : hash_bytes sha1 → lower_uuid (uuid5Url sha1 name) = true.
Proof.
  intros Hsha. unfold uuid5Url, uuid_bytes. destruct (Hsha (NAMESPACE_URL ++ utf8 name)) as [Hlen Hb].
  destruct (sha1 (NAMESPACE_URL ++ utf8 name)) as [|b0 [|b1 [|b2 [|b3 [|b4 [|b5 [|b6 [|b7 [|b8 [|b9 [|b10 [|b11 [|b12 [|b13 [|b14 [|b15 rest]]]]]]]]]]]]]]]];
    try (simpl in Hlen; lia).
  repeat (apply Forall_cons in Hb as [?Hb Hb]). clear Hsha Hlen Hb.
  repeat match goal with H : is_byte ?b |- _ =>
    lazymatch b with
    | b6 => apply version_lower in H
    | b8 => apply variant_lower in H
    | _ => apply digits_lower in H
    end end.
  cbv zeta in *. repeat match goal with H : _ && _ = true |- _ => apply andb_prop in H as [H ?] end.
  apply lower_uuid_intro; cbn -[hex_digit lower_hex_char one_of Z.div Z.modulo Z.land Z.lor]; rewrite ?take_0;
    unfold lower_hex; cbn -[hex_digit lower_hex_char one_of Z.div Z.modulo Z.land Z.lor];
    repeat match goal with H : _ = true |- _ => rewrite H; clear H end; done.
Qed.

Section Facts.
Context (sha1 : list Z → list Z) (sha256 : string → string).
Notation resolve := (resolveDependencyObservationProposalCandidate sha256).
Notation custodyIdentity := (custodyIdentity sha256).
Notation fingerprint := (observationCandidateFingerprint sha256).
Implicit Types (c : ProposalCandidate) (cu : Custody) (d : RecordDb).

(** ** Candidates *)

Definition candidate_ok c : bool :=
  safeText (pc_package c) && NPM_PACKAGE (pc_package c) && safeText (pc_dependency_kind c) && safeText (pc_specifier c)
  && safeText (pc_current_version c) && safeText (pc_target_version c) && isSha (pc_baseline_sha c)
  && sha256_name (pc_fingerprint c) && versions_ok c && (fingerprint c ≡? pc_fingerprint c).

Lemma text_test_inv v k p s : text_test v k p = Some s → text_at v k = Some s ∧ p s = true.
Proof. unfold text_test. intros H. by opt_inv. Qed.
Ltac tests := repeat match goal with
  | H : text_test _ _ _ = Some _ |- _ => apply text_test_inv in H as [? H]; cbn beta in H
  | H : _ && _ = true |- _ => apply andb_true_iff in H as [H ?]
  end.

Lemma validated_ok m raw c : validateObservationProposalCandidate sha256 m raw = Some c → candidate_ok c = true ∧ pc_manager c = m.
Proof.
  unfold validateObservationProposalCandidate. intros H. opt_inv. tests. split; [|done].
  unfold candidate_ok. cbn. rewrite !andb_true_iff. by split_and!.
Qed.
Lemma resolved_ok raw c : resolve raw = Some c → candidate_ok c = true.
Proof. unfold resolveDependencyObservationProposalCandidate. intros (m & _ & H)%bind_Some. by apply validated_ok in H as [? _]. Qed.
Lemma candidate_json_keys c : hasExactKeys (candidate_json c) LEGACY_CANDIDATE_KEYS = true.
Proof. vm_compute. reflexivity. Qed.
Lemma resolve_candidate_json c : candidate_ok c = true → resolve (candidate_json c) = Some c.
Proof.
  unfold candidate_ok. intros H. tests.
  assert (profileDefinition (candidate_json c) = Some (pc_manager c)) as Hm.
  { unfold profileDefinition. rewrite (text_is_intro _ "ecosystem" "node") by reflexivity.
    destruct c as [[]]; [by rewrite (text_is_intro _ "package_manager" "pnpm") by reflexivity|].
    rewrite (text_is_intro _ "package_manager" "npm") by reflexivity.
    unfold text_is. by rewrite bool_decide_eq_false_2. }
  unfold resolveDependencyObservationProposalCandidate. rewrite Hm. cbn [mbind option_bind].
  unfold validateObservationProposalCandidate. rewrite candidate_json_keys. cbn [negb].
  rewrite (text_is_intro _ "ecosystem" "node"), (text_is_intro _ "package_manager" (manager_name (pc_manager c))) by reflexivity.
  rewrite bool_decide_eq_true_2 by reflexivity. cbn [negb orb].
  rewrite (text_test_intro _ "package" (pc_package c)) by (reflexivity || by rewrite andb_true_iff).
  rewrite (text_test_intro _ "dependency_kind" (pc_dependency_kind c)), (text_test_intro _ "specifier" (pc_specifier c)),
    (text_test_intro _ "current_version" (pc_current_version c)), (text_test_intro _ "target_version" (pc_target_version c)),
    (text_test_intro _ "baseline_sha" (pc_baseline_sha c)), (text_test_intro _ "fingerprint" (pc_fingerprint c))
    by (reflexivity || done).
  cbn [mbind option_bind].
  replace (mkProposalCandidate _ _ _ _ _ _ _ _) with c by by destruct c.
  assert (commands_ok c (candidate_json c) = true) as ->.
  { unfold commands_ok.
    change (json_field (candidate_json c) "manager_commands") with
      (Some (JObj [("version", JStr (version_command (pc_manager c))); ("install", JStr (install_command (pc_manager c)));
              ("update", JStr (update_command (pc_manager c) (pc_package c) (pc_target_version c) (pc_dependency_kind c)))])).
    change (array_at (candidate_json c) "verification_commands") with (Some (JStr <$> verification_commands (pc_manager c))).
    cbv iota beta. rewrite bool_decide_eq_true_2 by done. rewrite andb_true_r.
    rewrite !andb_true_iff. split_and!; [vm_compute; reflexivity|apply text_is_intro; reflexivity..]. }
  rewrite (text_is_intro (candidate_json c) "manifest_path" manifest_path eq_refl).
  rewrite (text_is_intro (candidate_json c) "lockfile_path" (lockfile_path (pc_manager c)) eq_refl).
  match goal with H : versions_ok c = true |- _ => rewrite H end.
  match goal with H : bool_decide (fingerprint c = _) = true |- _ => rewrite H end. done.
Qed.

(** ** Identity *)

Lemma candidate_json_integral c : integral (candidate_json c).
Proof. cbn. split_and!; try done. by destruct (pc_manager c). Qed.
Lemma custody_json_integral cu : integral (custody_json cu).
Proof. cbn. split_and!; try done; apply candidate_json_integral. Qed.
Lemma custody_json_inj cu cu' : custody_json cu = custody_json cu' → cu = cu'.
Proof.
  destruct cu as [w r n o k b [h1 h2] [m ? ? ? ? ? ? ?]], cu' as [w' r' n' o' k' b' [h1' h2'] [m' ? ? ? ? ? ? ?]].
  destruct m, m'; unfold custody_json, cu_manager, hashes_json, candidate_json, profile_json; cbn [cu_candidate pc_manager];
    try (intros [=]; fail); cbn -[verification_commands version_command install_command update_command profile_name];
    intros [=]; congruence.
Qed.
Definition collision : Prop := ∃ t t' : string, t ≠ t' ∧ sha256 t = sha256 t'.

(** The identity of a proposal names one custody: two
    custodies that differ in anything - profile, repository, watch,
    observation, baseline, hashes or any field of the candidate - are hashed
    as different texts, so they share an identity only if SHA-256 collides. *)
Theorem custody_identity_exact cu cu' :
  (stringify (custody_json cu) = stringify (custody_json cu') ↔ cu = cu')
  ∧ (custodyIdentity cu = custodyIdentity cu' → cu = cu' ∨ collision).
Proof.
  assert (stringify (custody_json cu) = stringify (custody_json cu') → cu = cu') as Hinj.
  { intros H%stringify_inj; [|apply custody_json_integral..]. by apply custody_json_inj. }
  split; [split; [done|by intros ->]|].
  unfold DepProposal.custodyIdentity, stableSha256. intros H%(inj (String.append "sha256:")).
  destruct (decide (stringify (custody_json cu) = stringify (custody_json cu'))) as [He|Hne]; [left; by apply Hinj|].
  right. by eexists _, _.
Qed.

(** ** The other reader of the ledger *)

(** What a resolved candidate is for [candidateFromUnknown]. *)
Definition upgrade_candidate (raw : json) c : Candidate :=
  mkCandidate (pc_package c) (Some "node") (Some (manager_name (pc_manager c))) None
    (pc_dependency_kind c) (pc_specifier c) (pc_current_version c) (pc_target_version c) manifest_path
    (lockfile_path (pc_manager c)) (pc_baseline_sha c) (pc_fingerprint c)
    ((λ l : list json, omap (λ x, match x with JStr s => Some s | _ => None end) l) <$> array_at raw "verification_commands")
    (match json_field raw "manager_commands" with Some (JObj l) => Some (JObj l) | Some (JArr l) => Some (JArr l) | _ => None end).
Lemma filled_intro v k t : text_at v k = Some t → safeText t = true → filled_text v k = Some t.
Proof. unfold filled_text, text_test, safeText. intros ->. intros [[H _]%andb_true_iff _]%andb_true_iff. cbn. by rewrite H. Qed.
Lemma filled_some v k t : text_at v k = Some t → t ≠ "" → filled_text v k = Some t.
Proof. unfold filled_text, text_test. intros -> Ht. cbn. by rewrite bool_decide_eq_false_2. Qed.
Lemma text_is_inv v k t : text_is v k t = true → text_at v k = Some t.
Proof. apply bool_decide_eq_true. Qed.
Lemma read_upgrade_candidate raw c : resolve raw = Some c → candidateFromUnknown raw = Some (upgrade_candidate raw c).
Proof.
  unfold resolveDependencyObservationProposalCandidate. intros (m & _ & H)%bind_Some.
  unfold validateObservationProposalCandidate in H. opt_inv. tests.
  repeat match goal with
  | H : text_is _ _ _ = true |- _ => apply text_is_inv in H
  | H : negb _ = false |- _ => apply negb_false_iff in H
  | H : _ || _ = false |- _ => apply orb_false_iff in H as [H ?]
  end.
  assert (∃ fields, raw = JObj fields) as [fields Hr] by (destruct raw; try done; by eexists).
  assert (x4 ≠ "") as Hb by by intros ->. assert (x5 ≠ "") as Hf by by intros ->.
  unfold candidateFromUnknown. rewrite Hr at 1.
  do 9 (erewrite filled_some; [|eassumption|first [assumption|by destruct m|match goal with H : safeText ?z = true |- ?z ≠ _ => by intros -> end]];
    cbn [mbind option_bind]).
  repeat match goal with H : text_at raw _ = Some _ |- _ => rewrite ?H; clear H end.
  unfold text_at. match goal with H : bool_decide (json_field raw _ = Some JNull) = true |- _ => apply bool_decide_eq_true in H; rewrite H end.
  done.
Qed.

(** The upgrade contracts never find a candidate of the two
    profiles: the text they hash has the package manager last, the text its
    fingerprint was computed from has it in the order of the keys.  Only a
    collision of SHA-256 makes the two fingerprints agree. *)
Theorem proposals_invisible_to_contracts raw c :
  resolve raw = Some c →
  ∃ a, candidateFromUnknown raw = Some a ∧ cd_fingerprint a = pc_fingerprint c
    ∧ (candidateFingerprint sha256 a = cd_fingerprint a → collision).
Proof.
  intros H. exists (upgrade_candidate raw c). split; [by apply read_upgrade_candidate|]. split; [done|].
  apply resolved_ok in H. unfold candidate_ok in H. tests.
  match goal with H : bool_decide (fingerprint c = _) = true |- _ => apply bool_decide_eq_true in H; rename H into Hf end.
  cbn [cd_fingerprint upgrade_candidate]. rewrite <- Hf. unfold observationCandidateFingerprint, stableSha256, candidateFingerprint.
  intros Hh%(inj (String.append "sha256:")). eexists _, _. split; [|exact Hh]. clear.
  unfold fingerprint_payload, fingerprint_fields, json_object. cbn [cd_package_manager upgrade_candidate].
  assert (bool_decide (manager_name (pc_manager c) = "") = false) as -> by by destruct (pc_manager c).
  cbn [stringify List.map json_object app fmap list_fmap join_strings fst snd upgrade_candidate cd_baseline_sha cd_current_version
       cd_dependency_kind cd_lockfile_path cd_manifest_path cd_package cd_specifier cd_target_version].
  unfold json_object. cbn [fmap list_fmap join_strings fst snd]. rewrite !append_assoc. intros H.
  repeat apply (inj _) in H. done.
Qed.

(** ** Custody *)

Lemma leb_total (x y : string) : String.leb x y = true ∨ String.leb y x = true.
Proof.
  unfold String.leb. rewrite String.compare_antisym. destruct (String.compare y x); cbn; tauto.
Qed.
#[local] Instance later_first_total : Total later_first.
Proof.
  intros [k o] [k' o']. unfold later_first. cbn.
  destruct (Z.lt_trichotomy (ob_observed_at o) (ob_observed_at o')) as [?|[?|?]]; [right; by left| |left; by left].
  destruct (Z.lt_trichotomy (ob_created_at o) (ob_created_at o')) as [?|[?|?]].
  - right. right. split; [done|by left].
  - destruct (leb_total k' k); [left|right]; right; (split; [done|right; by split]).
  - left. right. split; [done|by left].
Qed.
Lemma leb_trans (x y z : string) : String.leb x y = true → String.leb y z = true → String.leb x z = true.
Proof.
  unfold String.leb. destruct (String.compare x y) eqn:E1; try done; intros _.
  - apply String.compare_eq_iff in E1 as ->. done.
  - destruct (String.compare y z) eqn:E2; try done; intros _.
    + apply String.compare_eq_iff in E2 as <-. by rewrite E1.
    + by rewrite (cmp_trans _ _ _ E1 E2).
Qed.
#[local] Instance later_first_trans : Transitive later_first.
Proof.
  intros [k1 o1] [k2 o2] [k3 o3]. unfold later_first. cbn. intros H1 H2.
  destruct H1 as [H1|[E1 [H1|[F1 G1]]]], H2 as [H2|[E2 [H2|[F2 G2]]]];
    first [left; lia|right; split; [lia|left; lia]|right; split; [lia|right; split; [lia|by eapply leb_trans]]].
Qed.
Lemma latest_spec ws w r dd k o : latest_observation ws w r dd = Some (k, o) →
  (k, o) ∈ watch_observations ws w r dd ∧ ∀ k' o', (k', o') ∈ watch_observations ws w r dd → later_first (k, o) (k', o').
Proof.
  unfold latest_observation. intros H. pose proof (StronglySorted_merge_sort later_first (watch_observations ws w r dd)) as Hs.
  pose proof (merge_sort_Permutation later_first (watch_observations ws w r dd)) as Hp.
  destruct (merge_sort later_first _) as [|x l]; [done|]. injection H as ->. split.
  - rewrite <- Hp. set_solver.
  - intros k' o' Hin. rewrite <- Hp in Hin. apply elem_of_cons in Hin as [->|Hin].
    + unfold later_first. right. split; [done|]. right. split; [done|]. by destruct (leb_total k k).
    + apply StronglySorted_inv in Hs as [_ Hs]. rewrite Forall_forall in Hs. by apply Hs.
Qed.

(** The one candidate of that fingerprint in the newest observation. *)
Record custody_of (i : Locator) (dd : DepDb) cu (raw : json) (o : WatchObservation) : Prop := {
  cof_watch : ∃ w, getDependencyWatch (lo_workspaceId i) (lo_watchId i) dd = Some w ∧ dw_repository_id w = cu_repositoryId cu
    ∧ owned_repository (lo_workspaceId i) (cu_repositoryId cu) dd = Some (mkRepository (lo_workspaceId i) (cu_repositoryName cu))
    ∧ root_paths (cu_manager cu) w = true;
  cof_newest : latest_observation (lo_workspaceId i) (lo_watchId i) (cu_repositoryId cu) dd = Some (cu_observationId cu, o);
  cof_status : ob_status o = ws_candidates;
  cof_key : ob_observation_key o = cu_observationKey cu;
  cof_key_text : safeText (cu_observationKey cu) = true;
  cof_one : List.filter (candidateWithFingerprint (lo_candidateFingerprint i)) (ob_candidates o) = [raw];
  cof_candidate : resolve raw = Some (cu_candidate cu);
  cof_baseline : ob_baseline_sha o = Some (cu_baselineSha cu) ∧ pc_baseline_sha (cu_candidate cu) = cu_baselineSha cu;
  cof_hashes : selectedHashes (cu_manager cu) (stored_hashes o) = Some (cu_hashes cu);
  cof_watch_id : cu_watchId cu = lo_watchId i;
}.
Lemma resolve_manager raw c : resolve raw = Some c → profileDefinition raw = Some (pc_manager c).
Proof.
  unfold resolveDependencyObservationProposalCandidate. intros (m & Hm & H)%bind_Some. by apply validated_ok in H as [_ ->].
Qed.
Lemma readCustody_inr i dd cu : readCustody sha256 i dd = inr cu → ∃ raw o, custody_of i dd cu raw o.
Proof.
  unfold readCustody, joined_watch. destruct (getDependencyWatch _ _ dd) as [w|] eqn:Hw; [|done]. cbn [mbind option_bind].
  destruct (owned_repository _ _ dd) as [[ws n]|] eqn:Hr; [|done]. cbn [mbind option_bind].
  destruct (latest_observation _ _ _ dd) as [[id o]|] eqn:Ho; [|done].
  destruct (negb (safeText _)) eqn:Hk; [done|]. apply negb_false_iff in Hk.
  destruct (List.filter _ _) as [|raw [|]] eqn:Hf; [done| |done].
  destruct (profileDefinition raw) as [m|] eqn:Hm; [|done]. destruct (negb (root_paths m w)) eqn:Hp; [done|].
  apply negb_false_iff in Hp. destruct (resolve raw) as [c|] eqn:Hc; [|done].
  destruct (ob_baseline_sha o) as [b|] eqn:Hb; [|done]. destruct (selectedHashes m _) as [h|] eqn:Hh; [|done].
  destruct (_ && _ && _) eqn:Hx; [|done]. tests. intros [= <-]. exists raw, o.
  pose proof (resolve_manager _ _ Hc) as Hm'. rewrite Hm in Hm'. injection Hm' as ->.
  repeat match goal with H : bool_decide _ = true |- _ => apply bool_decide_eq_true in H end.
  split; cbn; try done. exists w. split_and!; try done. cbn in *. rewrite Hr.
  unfold owned_repository in Hr. destruct (dd_repositories dd !! _) as [rp|]; [|done]. cbn in Hr.
  destruct (rp_workspace_id rp ≡? _) eqn:Hws; [|done]. injection Hr as ->. apply bool_decide_eq_true in Hws. cbn in Hws. by subst ws.
Qed.

(** ** The rows of a draft *)

(** The contracts and the events belong to records that exist. *)
Record foreign_keys d : Prop := {
  fk_contracts : map_Forall (λ _ k, is_Some (rd_records d !! ac_record_id k)) (rd_contracts d);
  fk_events : map_Forall (λ _ e, is_Some (rd_records d !! ce_record_id e)) (rd_events d);
}.
Definition contract_row cu (t : Clock) (rid : string) : string * AcceptanceContract :=
  (acceptanceContractId sha1 rid 1, draft t rid 1 (proposal_contract cu (custodyIdentity cu)) ACTOR).
Definition event_row cu (t : Clock) (rid : string) : string * ChangeEvent :=
  let key := proposal_event_key (custodyIdentity cu) in
  (changeRecordEventId sha1 rid key,
   contract_event t rid key proposal_stage ACTOR (draft_payload cu rid (acceptanceContractId sha1 rid 1) (custodyIdentity cu))).
Definition with_draft cu (t : Clock) (ws rid : string) d : RecordDb :=
  let k := contract_row cu t rid in let e := event_row cu t rid in
  with_events (<[e.1 := e.2]> (rd_events d))
    (with_contracts (<[k.1 := k.2]> (rd_contracts d))
      (with_records (<[rid := new_draft_record t ws (custodyIdentity cu) cu]> (rd_records d)) d)).

Lemma write_draft_inr t ws rid cu d x d' :
  write_draft sha1 t ws (custodyIdentity cu) rid cu d = inr (x, d') →
  x = mkDraftResult (rid, new_draft_record t ws (custodyIdentity cu) cu) (contract_row cu t rid) (event_row cu t rid) cu true
  ∧ d' = with_draft cu t ws rid d
  ∧ rd_records d !! rid = None ∧ rd_contracts d !! (contract_row cu t rid).1 = None
  ∧ rd_events d !! (event_row cu t rid).1 = None.
Proof.
  unfold write_draft. intros (r & d1 & H1 & H)%bind_inr.
  unfold insert_draft_record in H1. destruct (find_record _ _); [done|]. apply insert_record_inr in H1 as (Hr & -> & ->).
  apply bind_inr in H as (k & d2 & (-> & Hk & _ & _ & ->)%insert_contract_inr & H).
  apply bind_inr in H as (e & d3 & H3 & [<- ->]%ret_inr). unfold insert_draft_event in H3.
  destruct (insert_event _ _ _) as [|[b d4]] eqn:He; [done|]. apply insert_event_inr in He as [(-> & _)|(-> & -> & Hid & _)]; [done|].
  injection H3 as <- <-. by split_and!.
Qed.
Lemma draft_contracts cu t ws rid d : foreign_keys d → rd_records d !! rid = None →
  rd_contracts d !! (contract_row cu t rid).1 = None → contracts_of rid (with_draft cu t ws rid d) = [contract_row cu t rid].
Proof.
  intros [Hf _] Hr Hk. unfold contracts_of, with_draft. cbn -[contract_row]. apply select_where_only; [done| |by apply bool_decide_eq_true_2].
  intros k' r' Hl. apply bool_decide_eq_false_2. intros He. apply Hf in Hl. rewrite He, Hr in Hl. by destruct Hl.
Qed.
Lemma draft_events cu t ws rid d : foreign_keys d → rd_records d !! rid = None →
  rd_events d !! (event_row cu t rid).1 = None → events_of rid (with_draft cu t ws rid d) = [event_row cu t rid].
Proof.
  intros [_ Hf] Hr Hk. unfold events_of, with_draft. cbn -[event_row]. apply select_where_only; [done| |by apply bool_decide_eq_true_2].
  intros k' r' Hl. apply bool_decide_eq_false_2. intros He. apply Hf in Hl. rewrite He, Hr in Hl. by destruct Hl.
Qed.
Lemma replay_of_draft cu t ws rid d : foreign_keys d → rd_records d !! rid = None →
  rd_contracts d !! (contract_row cu t rid).1 = None → rd_events d !! (event_row cu t rid).1 = None →
  replay_draft sha1 cu (custodyIdentity cu) rid (new_draft_record t ws (custodyIdentity cu) cu) (with_draft cu t ws rid d)
  = inr (mkDraftResult (rid, new_draft_record t ws (custodyIdentity cu) cu) (contract_row cu t rid) (event_row cu t rid) cu false).
Proof.
  intros Hf Hr Hk He. unfold replay_draft. rewrite draft_contracts, draft_events by done.
  assert (exact_record cu (custodyIdentity cu) (new_draft_record t ws (custodyIdentity cu) cu) = true) as ->.
  { unfold exact_record, sql_eq. cbn [new_draft_record cr_repo cr_work_key cr_origin_channel cr_source_references cr_issue_number
      cr_pr_number cr_head_sha cr_cycle_id cr_authoritative cr_generation cr_head_shas cr_merged_sha cr_state].
    rewrite deep_equal_refl. by rewrite !bool_decide_eq_true_2 by done. }
  assert (exact_contract sha1 cu (custodyIdentity cu) rid (contract_row cu t rid) = true) as ->.
  { unfold exact_contract, contract_row. cbn [fst snd draft ac_record_id ac_version ac_status ac_contract ac_created_by
      ac_confirmed_by ac_confirmed_at is_null]. rewrite deep_equal_refl. by rewrite !bool_decide_eq_true_2 by done. }
  assert (exact_event sha1 cu (custodyIdentity cu) rid (event_row cu t rid) = true) as ->; [|done].
  unfold exact_event, event_row. cbn [fst snd contract_event ce_record_id ce_event_key ce_stage ce_actor ce_payload].
  rewrite deep_equal_refl. by rewrite !bool_decide_eq_true_2 by done.
Qed.

(** ** The draft, whole *)

Notation create := (createDraftAcceptanceRecordFromDependencyObservation sha1 sha256).
Lemma answer_inr {A} (f : ProposalDb → DraftError + A) g a g' : answer f g = inr (a, g') ↔ f g = inr a ∧ g' = g.
Proof. unfold answer. destruct (f g); split; try done; [by intros [? ?]|by intros [= -> ->]|by intros [[= ->] ->]]. Qed.
Lemma in_records_inr {A} (m : record_tx A) g a g' : in_records m g = inr (a, g') ↔
  ∃ d, m (pd_records g) = inr (a, d) ∧ g' = mkProposalDb (pd_dep g) d.
Proof.
  unfold in_records. destruct (m _) as [|[b d]]; split; try done; [by intros (? & ? & ?)|intros [= <- <-]; by eauto|].
  by intros (? & [= -> ->] & ->).
Qed.
Lemma replay_inr cu identity rid r d x : replay_draft sha1 cu identity rid r d = inr x →
  dr_record x = (rid, r) ∧ dr_custody x = cu ∧ dr_created x = false.
Proof. unfold replay_draft. intros H. repeat case_match; by simplify_eq. Qed.
(** What a run that answers has read and written. *)
Lemma create_inr t i g x g' : create t i g = (inr x, g') →
  exactLocator i = true ∧ readCustody sha256 i (pd_dep g) = inr (dr_custody x) ∧ pd_dep g' = pd_dep g
  ∧ let ws := lo_workspaceId i in let cu := dr_custody x in
    ∃ rid, proposal_record_id sha1 ws (cu_repositoryName cu) (custodyIdentity cu) = Some rid ∧
    ((∃ r, record_in ws rid (pd_records g) = Some r ∧ g' = g
        ∧ replay_draft sha1 cu (custodyIdentity cu) rid r (pd_records g) = inr x ∧ dr_created x = false)
     ∨ record_in ws rid (pd_records g) = None
       ∧ write_draft sha1 t ws (custodyIdentity cu) rid cu (pd_records g) = inr (x, pd_records g') ∧ dr_created x = true).
Proof.
  unfold createDraftAcceptanceRecordFromDependencyObservation. destruct (exactLocator i); [|done]. unfold transaction.
  destruct (draft_tx _ _ _ _ _) as [|[y g1]] eqn:H; [done|]. intros [= -> ->]. unfold draft_tx in H.
  apply bind_inr in H as (cu & g1 & [Hc ->]%answer_inr & H).
  apply bind_inr in H as (rid & g1 & [Hid ->]%some_or_inr & H). apply bind_inr in H as (ex & g1 & [-> ->]%reads_inr & H).
  destruct (record_in _ _ _) as [r|] eqn:Hr.
  - apply answer_inr in H as [H ->]. destruct (replay_inr _ _ _ _ _ _ H) as (_ & <- & Hf). split_and!; try done. eexists. split; [done|].
    left. by exists r.
  - apply in_records_inr in H as (d & Hw & ->). destruct (write_draft_inr _ _ _ _ _ _ _ Hw) as (Hx & _).
    assert (dr_custody x = cu ∧ dr_created x = true) as [<- Hf] by by rewrite Hx.
    split_and!; try done. eexists. split; [done|]. by right.
Qed.

(** A draft says what the newest observation of its watch says:
    the workspace owns the watch and its repository, that observation reports
    candidates at a baseline commit, exactly one of them has the fingerprint
    asked for, and the whole candidate, its hashes and its paths are re-checked
    against the profile.  Creating writes one record, one version 1 draft and
    one event and nothing of the watches; a replay writes nothing; and a
    refusal leaves the database as it was. *)
Theorem draft_from_newest t i g :
  let ws := lo_workspaceId i in
  match create t i g with
  | (inl _, g') => g' = g
  | (inr x, g') =>
      let cu := dr_custody x in
      (∃ raw o, custody_of i (pd_dep g) cu raw o ∧ (∀ k o', (k, o') ∈ watch_observations ws (lo_watchId i) (cu_repositoryId cu)
                  (pd_dep g) → later_first (cu_observationId cu, o) (k, o')))
      ∧ if dr_created x then
          ∃ rid, proposal_record_id sha1 ws (cu_repositoryName cu) (custodyIdentity cu) = Some rid
          ∧ rd_records (pd_records g) !! rid = None ∧ g' = mkProposalDb (pd_dep g) (with_draft cu t ws rid (pd_records g))
        else g' = g
  end.
Proof.
  cbv zeta. destruct (create t i g) as [[e|x] g'] eqn:H.
  - unfold createDraftAcceptanceRecordFromDependencyObservation, transaction in H. by repeat case_match; simplify_eq.
  - apply create_inr in H as (_ & Hc & Hd & rid & Hid & Hcase). split.
    + apply readCustody_inr in Hc as (raw & o & Hc). exists raw, o. split; [done|]. eapply latest_spec, Hc.
    + destruct Hcase as [(r & _ & -> & _ & ->)|(_ & Hw & ->)]; [done|]. exists rid.
      apply write_draft_inr in Hw as (_ & Hw & Hr & _). split_and!; [done..|]. destruct g'; cbn in *. by subst.
Qed.

(** Asking again for a draft answers the same three rows, not
    created, and writes nothing - whatever the clock, and as often as asked. *)
Theorem draft_replayed t t' i g x g' :
  foreign_keys (pd_records g) → create t i g = (inr x, g') →
  create t' i g' = (inr (mkDraftResult (dr_record x) (dr_contract x) (dr_event x) (dr_custody x) false), g').
Proof.
  intros Hf H. apply create_inr in H as (Hl & Hc & Hd & rid & Hid & Hcase).
  unfold createDraftAcceptanceRecordFromDependencyObservation. rewrite Hl. unfold transaction.
  set (x' := mkDraftResult _ _ _ _ _). enough (draft_tx sha1 sha256 t' i g' = inr (x', g')) as -> by done. unfold draft_tx.
  apply bind_inr. exists (dr_custody x), g'. split; [apply answer_inr; by rewrite Hd|].
  apply bind_inr. exists rid, g'. split; [by apply some_or_inr|].
  apply bind_inr. eexists _, g'. split; [by apply reads_inr|]. subst x'.
  destruct Hcase as [(r & Hr & -> & Hy & Hx)|(Hr & Hw & Hx)].
  - rewrite Hr. apply answer_inr. rewrite Hy. split; [|done]. destruct x; cbn in *. by subst.
  - apply write_draft_inr in Hw as (Hx' & Hg & Hr' & Hk & He). rewrite Hg.
    assert (record_in (lo_workspaceId i) rid (with_draft (dr_custody x) t (lo_workspaceId i) rid (pd_records g))
            = Some (new_draft_record t (lo_workspaceId i) (custodyIdentity (dr_custody x)) (dr_custody x))) as ->.
    { unfold record_in, with_draft. cbn -[new_draft_record]. rewrite lookup_insert_eq. cbn. by rewrite bool_decide_eq_true_2. }
    apply answer_inr. rewrite Hg, replay_of_draft by done. split; [|done]. by rewrite Hx'.
Qed.

(** ** A proposal is never confirmed *)

Lemma drop_space_first l : forallb is_space (rev l) = false → drop_space (rev l) ≠ [].
Proof.
  generalize (rev l). intros r. induction r as [|c r IH]; [done|]. cbn. destruct (is_space c); [|done]. apply IH.
Qed.
Lemma trim_nonblank (c : ascii) s : is_space c = false → trim (String c s) ≠ "".
Proof.
  intros Hc. unfold trim. cbn [String.list_ascii_of_string drop_space]. rewrite Hc. intros H.
  assert (drop_space (rev (c :: String.list_ascii_of_string s)) = []) as H'.
  { destruct (drop_space _); [done|]. apply (f_equal String.list_ascii_of_string) in H.
    rewrite String.list_ascii_of_string_of_list_ascii in H. cbn [rev] in H. by destruct (rev l). }
  revert H'. apply drop_space_first. apply not_true_iff_false. rewrite forallb_forall. intros H'.
  specialize (H' c). rewrite <- in_rev in H'. rewrite H' in Hc; [done|by left].
Qed.
Lemma proposal_complete cu identity : complete (proposal_contract cu identity) = true.
Proof.
  apply bool_decide_eq_true. unfold validateAcceptanceContract.
  assert (isNonBlankString (json_field (proposal_contract cu identity) "originalRequest") = true) as ->.
  { change (json_field _ _) with (Some (JStr (original_request (cu_candidate cu)))). cbn [isNonBlankString].
    rewrite bool_decide_eq_false_2; [done|]. by apply trim_nonblank. }
  unfold proposal_contract. by destruct (cu_manager cu).
Qed.
Lemma proposal_questions cu identity : open_questions (proposal_contract cu identity) = true.
Proof. unfold proposal_contract. by destruct (cu_manager cu). Qed.
Lemma questions_canonical v w : isDeepStrictEqual v w = true → (∃ l, w = JObj l) → open_questions v = open_questions w.
Proof.
  intros H%bool_decide_eq_true [l ->]. destruct (canonical_is_obj _ _ H) as [l' ->]. unfold open_questions.
  assert (canonical <$> json_field (JObj l') "unresolvedQuestions" = canonical <$> json_field (JObj l) "unresolvedQuestions") as Hf
    by by rewrite <- !canonical_field, H.
  destruct (json_field (JObj l') _) as [v|], (json_field (JObj l) _) as [w|]; try done. cbn in Hf.
  destruct v, w; try done. injection Hf as Hf. cbn. apply (f_equal length) in Hf. rewrite !length_fmap in Hf.
  by destruct l0, l1.
Qed.
Lemma drafts_proposal cu t ws rid d : foreign_keys d → rd_records d !! rid = None →
  rd_contracts d !! (contract_row cu t rid).1 = None → rd_events d !! (event_row cu t rid).1 = None →
  drafts d (with_draft cu t ws rid d).
Proof.
  intros Hf Hr Hk He. split; cbn -[contract_row event_row new_draft_record].
  - by apply rows_insert_fresh; [apply _|].
  - by apply insert_subseteq.
  - by apply insert_subseteq.
  - intros id k [[<- <-]|[_ ?]]%lookup_insert_Some; [right|by left]. split; [done|]. apply proposal_complete.
  - intros Hv. apply versions_insert; [done..|]. unfold next_version.
    assert (latest_contract rid (rd_contracts d) = None) as E; [|by cbn; rewrite E]. apply latest_contract_None. intros id k Hl Hp.
    destruct Hf as [Hf _]. apply Hf in Hl. rewrite Hp, Hr in Hl. by destruct Hl.
Qed.

(** C28 (safety).  A proposal is a draft that stays one: creating it keeps the
    ledger of contracts sound, and in whatever order drafts, approvals and
    confirmations follow - even an approval of exactly this contract - its row
    is still there, with the same text, and not confirmed. *)
Theorem proposal_never_confirmed t i g x g' approvals L l :
  foreign_keys (pd_records g) → contract_inv (mkContractState (mkContractDb (pd_records g) approvals) L) →
  create t i g = (inr x, g') →
  let s := exec_contracts sha1 l (mkContractState (mkContractDb (pd_records g') approvals) L) in
  contract_inv s ∧ ∃ k, rd_contracts (kd_records (cs_db s)) !! (dr_contract x).1 = Some k
    ∧ contract_text k = contract_text (dr_contract x).2 ∧ ac_status k = "draft" ∧ ac_confirmed_at k = None.
Proof.
  intros Hf Hi H. cbv zeta.
  assert (contract_inv (mkContractState (mkContractDb (pd_records g') approvals) L)
    ∧ rd_contracts (pd_records g') !! (dr_contract x).1 = Some (dr_contract x).2
    ∧ open_questions (ac_contract (dr_contract x).2) = true) as (Hi' & Hk & Hq).
  { apply create_inr in H as (_ & _ & _ & rid & _ & [(r & Hr & -> & Hy & _)|(_ & Hw & _)]).
    - split; [done|]. unfold replay_draft in Hy. destruct (contracts_of _ _) as [|[id k] [|]] eqn:Hc; try done.
      destruct (events_of _ _) as [|e [|]]; try done. destruct (_ && _ && _) eqn:Hx; [|done]. injection Hy as <-. cbn.
      assert ((id, k) ∈ contracts_of rid (pd_records g)) as [Hl _]%elem_of_select_where by (rewrite Hc; set_solver).
      split; [done|]. apply andb_true_iff in Hx as [[_ Hx]%andb_true_iff _].
      unfold exact_contract in Hx. apply andb_true_iff in Hx as [_ Hx]. cbn [fst snd] in Hx. rewrite (questions_canonical _ _ Hx) by by eexists.
      apply proposal_questions.
    - apply write_draft_inr in Hw as (-> & -> & Hr & Hk & He). split_and!.
      + eapply inv_drafts; [by apply drafts_proposal|done].
      + apply lookup_insert_eq.
      + apply proposal_questions. }
  destruct (exec_kept sha1 l _ Hi') as [[_ _ Hc _] Hi'']. split; [done|]. destruct (Hc _ _ Hk) as (k & Hk' & [T _ _]).
  exists k. split_and!; [done|done|..]; destruct (ci_contracts _ Hi'' _ _ Hk') as [_ Hs];
    destruct Hs as [(? & ? & ?)|(_ & Ho & _)]; try done; exfalso; unfold contract_text in T; injection T as _ _ T _ _; congruence.
Qed.

(** ** The reader *)

Lemma hashes_read m v h : selectedHashes m v = Some h → SOURCE_SHA256 h.1 = true ∧ SOURCE_SHA256 h.2 = true.
Proof. unfold selectedHashes. intros H. opt_inv. tests. done. Qed.
Lemma hashes_kept m h : SOURCE_SHA256 h.1 = true → SOURCE_SHA256 h.2 = true → selectedHashes m (hashes_json m h) = Some h.
Proof.
  destruct h as [a b]. cbn [fst snd]. intros Ha Hb. set (v := hashes_json m (a, b)).
  assert (text_test v manifest_path SOURCE_SHA256 = Some a) as Hm by (by apply text_test_intro; [destruct m|]).
  assert (text_test v (lockfile_path m) SOURCE_SHA256 = Some b) as Hl by (by apply text_test_intro; [destruct m|]).
  assert (object_keys v = [manifest_path; lockfile_path m]) as Hk by (destruct m; by vm_compute).
  unfold selectedHashes. rewrite Hk. cbn [forallb]. rewrite Hm, Hl. destruct m; by vm_compute.
Qed.
(** The custody of a draft, as the reader wants it. *)
Record custody_reads cu : Prop := {
  cy_candidate : candidate_ok (cu_candidate cu) = true;
  cy_baseline : pc_baseline_sha (cu_candidate cu) = cu_baselineSha cu;
  cy_manifest : SOURCE_SHA256 (cu_hashes cu).1 = true;
  cy_lockfile : SOURCE_SHA256 (cu_hashes cu).2 = true;
  cy_repository : lower_uuid (cu_repositoryId cu) = true;
  cy_watch : lower_uuid (cu_watchId cu) = true;
  cy_observation : lower_uuid (cu_observationId cu) = true;
  cy_name : trimmedText (cu_repositoryName cu) = true;
  cy_key : trimmedText (cu_observationKey cu) = true;
}.
Lemma proposal_custody_reads cu : custody_reads cu →
  dependencyObservationProposalCustodyIdentity sha256 (cu_repositoryId cu) (cu_repositoryName cu) (cu_watchId cu)
    (cu_observationId cu) (cu_observationKey cu) (cu_baselineSha cu) (hashes_json (cu_manager cu) (cu_hashes cu))
    (candidate_json (cu_candidate cu)) = Some (custodyIdentity cu).
Proof.
  intros []. unfold dependencyObservationProposalCustodyIdentity, proposal_custody. rewrite resolve_candidate_json by done.
  cbn [mbind option_bind]. unfold cu_manager in *. rewrite hashes_kept by done. cbn [mbind option_bind].
  assert (count (object_keys (hashes_json (pc_manager (cu_candidate cu)) (cu_hashes cu))) = 2) as -> by (destruct (pc_manager _); by vm_compute).
  unfold trimmedText in *. unfold candidate_ok in *. tests. rewrite cy_repository0, cy_watch0, cy_observation0, cy_name0, cy_key0, <- cy_baseline0.
  rewrite (bool_decide_eq_true_2 _ eq_refl). match goal with H : isSha _ = true |- _ => rewrite H end. cbn.
  f_equal. f_equal. by destruct cu; cbn in *; subst.
Qed.

Definition reference cu : json :=
  JObj ([("kind", JStr "dependency_watch_observation_proposal"); ("version", jnum 1)] ++ custody_fields cu (custodyIdentity cu)).
Lemma candidate_fingerprint_name c : candidate_ok c = true → sha256_name (pc_fingerprint c) = true ∧ isSha (pc_baseline_sha c) = true.
Proof. unfold candidate_ok. intros H. by tests. Qed.
Lemma same_source cu v : Forall (λ kx, json_field v kx.1 = Some kx.2) (custody_fields cu (custodyIdentity cu)) →
  sameSourceFields v cu (custodyIdentity cu) = true.
Proof.
  unfold custody_fields. rewrite !Forall_cons. intros H. repeat match goal with H : _ ∧ _ |- _ => destruct H as [? H] end.
  unfold sameSourceFields. rewrite !andb_true_iff. split_and!; first [apply text_is_intro|apply deep_at_intro]; assumption.
Qed.
Lemma source_reads cu : custody_reads cu → (∀ s, lower_hex 64 (sha256 s) = true) →
  source sha256 (reference cu) = Some (cu, custodyIdentity cu).
Proof.
  intros Hc Hsha. pose proof (proposal_custody_reads _ Hc) as Hid. destruct Hc.
  destruct (candidate_fingerprint_name _ cy_candidate0) as [Hfp Hbase]. rewrite cy_baseline0 in Hbase. unfold source.
  assert (hasExactKeys (reference cu) SOURCE_KEYS = true) as -> by (vm_compute; done).
  assert (number_at_is (reference cu) "version" 1 = true) as -> by done.
  rewrite (text_is_intro (reference cu) "kind" _ eq_refl), (text_is_intro (reference cu) "repositorySourceVerification" _ eq_refl),
    (text_is_intro (reference cu) "independentSourceProof" _ eq_refl). cbn [negb orb].
  rewrite (text_test_intro (reference cu) "repositoryId" (cu_repositoryId cu)) by (reflexivity || by apply lower_uuid_any).
  rewrite (text_test_intro (reference cu) "repositoryName" (cu_repositoryName cu)) by (reflexivity || done).
  rewrite (text_test_intro (reference cu) "watchId" (cu_watchId cu)) by (reflexivity || by apply lower_uuid_any).
  rewrite (text_test_intro (reference cu) "observationId" (cu_observationId cu)) by (reflexivity || by apply lower_uuid_any).
  rewrite (text_test_intro (reference cu) "observationKey" (cu_observationKey cu)) by (reflexivity || done).
  rewrite (text_test_intro (reference cu) "candidateFingerprint" (pc_fingerprint (cu_candidate cu)))
    by (reflexivity || by apply sha256_name_any).
  rewrite (text_test_intro (reference cu) "proposalCustodyIdentity" (custodyIdentity cu))
    by (reflexivity || by apply any_sha256, Hsha).
  rewrite (text_test_intro (reference cu) "baselineSha" (cu_baselineSha cu))
    by (reflexivity || by unfold any_sha1; rewrite (lower_hex_id 40)).
  cbn [mbind option_bind].
  change (object_at (reference cu) "selectedFileHashes") with (Some (hashes_json (cu_manager cu) (cu_hashes cu))).
  change (json_field (reference cu) "candidate") with (Some (candidate_json (cu_candidate cu))). cbn [mbind option_bind].
  rewrite resolve_candidate_json by done. cbn [mbind option_bind]. fold (cu_manager cu).
  rewrite (text_is_intro (reference cu) "manifestPath" manifest_path eq_refl).
  rewrite (text_is_intro (reference cu) "lockfilePath" (lockfile_path (cu_manager cu)) eq_refl).
  rewrite (deep_at_intro (reference cu) "profile" (profile_json (cu_manager cu)) eq_refl).
  assert (hasExactKeys (hashes_json (cu_manager cu) (cu_hashes cu)) [manifest_path; lockfile_path (cu_manager cu)] = true) as ->
    by (destruct (cu_manager cu); vm_compute; done).
  rewrite !bool_decide_eq_true_2 by done. cbn [andb].
  assert (∀ h, SOURCE_SHA256 h = true → SOURCE_SHA256 (lower h) = true) as Hlow
    by (intros h Hh; unfold SOURCE_SHA256 in *; by rewrite (lower_hex_id 64)).
  rewrite (text_test_intro _ manifest_path (cu_hashes cu).1) by (by apply Hlow || by destruct (cu_manager cu)).
  rewrite (text_test_intro _ (lockfile_path (cu_manager cu)) (cu_hashes cu).2) by (by apply Hlow || by destruct (cu_manager cu)).
  cbn [mbind option_bind]. rewrite <- (surjective_pairing (cu_hashes cu)), Hid, bool_decide_eq_true_2 by done.
  by destruct cu; cbn in *.
Qed.

Lemma contract_reads cu : exactContract (proposal_contract cu (custodyIdentity cu)) cu (custodyIdentity cu) = true.
Proof.
  unfold exactContract. set (v := proposal_contract _ _).
  set (e := JObj ([("kind", JStr "dependency_watch_observation_proposal"); ("admission", JStr "draft_only")]
                  ++ custody_fields cu (custodyIdentity cu))).
  change (json_field v "environment") with (Some e). cbv iota beta.
  assert (sameSourceFields e cu (custodyIdentity cu) = true) as ->.
  { apply same_source. repeat (constructor; [reflexivity|]). constructor. }
  rewrite !andb_true_iff. split_and!; field_checks.
Qed.
Lemma payload_reads cu rid contractId :
  exactEventPayload (draft_payload cu rid contractId (custodyIdentity cu)) cu (custodyIdentity cu) rid contractId = true.
Proof.
  unfold exactEventPayload. set (v := draft_payload _ _ _ _).
  assert (sameSourceFields v cu (custodyIdentity cu) = true) as ->.
  { apply same_source. repeat (constructor; [reflexivity|]). constructor. }
  rewrite !andb_true_iff. split_and!; field_checks.
Qed.
Lemma custody_of_reads i dd cu raw o : exactLocator i = true → custody_of i dd cu raw o →
  lower_uuid (cu_repositoryId cu) = true → lower_uuid (cu_observationId cu) = true →
  trimmedText (cu_repositoryName cu) = true → trimmedText (cu_observationKey cu) = true → custody_reads cu.
Proof.
  unfold exactLocator. intros Hl [] ????. tests. apply hashes_read in cof_hashes0 as [??]. apply resolved_ok in cof_candidate0.
  destruct cof_baseline0. split; try done. by rewrite cof_watch_id0.
Qed.

Lemma proposal_id_uuid ws repo identity rid :
  hash_bytes sha1 → proposal_record_id sha1 ws repo identity = Some rid → lower_uuid rid = true.
Proof.
  unfold proposal_record_id, changeRecordId. intros Hsha H. repeat case_match; simplify_eq; by apply uuid5_lower.
Qed.
(** What the writer wrote the reader reads: the draft a
    proposal creates is answered as a draft, with the contract of version 1
    and the very custody it was made from - every field of the reference, of
    the environment and of the event is checked again and none is missing -
      when the hashes have their forms, the ids are uuids and the name of the repository and the key of the
    observation have no space at their ends. *)
Theorem draft_reads_back t i g x g' :
  foreign_keys (pd_records g) → create t i g = (inr x, g') → dr_created x = true →
  hash_bytes sha1 → (∀ s, lower_hex 64 (sha256 s) = true) →
  lower_uuid (cu_repositoryId (dr_custody x)) = true → lower_uuid (cu_observationId (dr_custody x)) = true →
  trimmedText (cu_repositoryName (dr_custody x)) = true → trimmedText (cu_observationKey (dr_custody x)) = true →
  readDependencyDraftProposalDetail sha1 sha256 (lo_workspaceId i) (dr_record x).1 (pd_records g')
  = dt_draft (dr_contract x).1 (dr_custody x).
Proof.
  intros Hf H Hx Hsha1 Hsha Hrepo Hobs Hname Hkey. apply create_inr in H as (Hl & Hc & _ & rid & Hid & [(? & _ & _ & _ & ?)|(Hin & Hw & _)]);
    [congruence|].
  apply readCustody_inr in Hc as (raw & o & Hc). pose proof (custody_of_reads _ _ _ _ _ Hl Hc Hrepo Hobs Hname Hkey) as Hr.
  apply write_draft_inr in Hw as (Hxe & -> & Hrec & Hk & He). set (cu := dr_custody x) in *.
  rewrite Hxe. cbn [dr_record dr_contract fst]. unfold readDependencyDraftProposalDetail.
  rewrite (lower_uuid_any rid) by (by eapply proposal_id_uuid).
  unfold exactLocator in Hl. tests. rewrite (lower_uuid_any (lo_workspaceId i)) by done. cbn [negb orb].
  assert (record_in (lo_workspaceId i) rid (with_draft cu t (lo_workspaceId i) rid (pd_records g))
          = Some (new_draft_record t (lo_workspaceId i) (custodyIdentity cu) cu)) as ->.
  { unfold record_in, with_draft. cbn -[new_draft_record]. rewrite lookup_insert_eq. cbn. by rewrite bool_decide_eq_true_2. }
  change (cr_source_references (new_draft_record t (lo_workspaceId i) (custodyIdentity cu) cu)) with (JArr [reference cu]).
  cbn [new_draft_record cr_work_key cr_origin_channel cr_repo]. unfold sql_eq. rewrite bool_decide_eq_true_2 by done.
  rewrite bool_decide_eq_false_2 by done. cbn [negb orb]. rewrite source_reads by done.
  rewrite !bool_decide_eq_true_2 by done. cbn [andb]. rewrite draft_contracts, draft_events by done.
  assert (detail_rows_ok sha1 cu (custodyIdentity cu) rid (contract_row cu t rid) (event_row cu t rid) = true) as ->; [|done].
  unfold detail_rows_ok, contract_row, event_row. cbn [fst snd draft contract_event ac_version ac_status ac_created_by ac_confirmed_by
    ac_confirmed_at ac_contract ce_event_key ce_stage ce_actor ce_payload is_null].
  rewrite contract_reads, payload_reads. by rewrite !bool_decide_eq_true_2 by done.
Qed.
End Facts.

(** ** A watch with an upgrade *)

Module SampleProposal.
Import SampleReceipt.
Definition ws : string := "11111111-1111-4111-8111-111111111111".
Definition watch_id : string := "22222222-2222-4222-8222-222222222222".
Definition repo_id : string := "33333333-3333-4333-8333-333333333333".
Definition observation_id : string := "44444444-4444-4444-8444-444444444444".
Definition candidate (package : string) : ProposalCandidate :=
  mkProposalCandidate pnpm package "dependencies" "^18.0.0" "18.2.0" "18.3.1" commit ("sha256:" +:+ digest "").
Definition watch : DependencyWatch :=
  mkDependencyWatch ws repo_id "auto" "auto" [] None None ∅ None ws_candidates None None None None None None 1 1.
Definition observation (key package : string) (observed : Z) : WatchObservation :=
  mkWatchObservation ws watch_id repo_id tr_scheduled (Some commit)
    (<["package.json" := digest ""]> {["pnpm-lock.yaml" := digest ""]}) key (Some ("sha256:" +:+ digest "")) None None
    ws_candidates [candidate_json (candidate package)] None None observed observed.
Definition dep : DepDb :=
  mkDepDb {[repo_id := mkRepository ws "acme/app"]} {[watch_id := watch]}
    (<[observation_id := observation "k2" "react" 5]>
       {["55555555-5555-4555-8555-555555555555" := observation "k1" "left-pad" 3]}) ∅ ∅ ∅.
Definition db : ProposalDb := mkProposalDb dep (mkRecordDb ∅ ∅ ∅ ∅ ∅ ∅ ∅).
Definition locator : Locator := mkLocator ws watch_id ("sha256:" +:+ digest "").
Definition run : (DraftError + DraftResult) * ProposalDb :=
  createDraftAcceptanceRecordFromDependencyObservation sum_sha1 digest (at_ 9) locator db.
(** An approval of the very draft, asked for and granted. *)
Definition approved (contractId : string) : list contract_op :=
  [co_approval (op_request 10 "a1" "t1"
     (mkApprovalInput (Some ws) None "s1" "eve-1" "r1" "confirm_acceptance_contract" (JObj []) "yes" "no"
        (Some contractId) None None));
   co_begin (at_ 11) (mkResolveInput ws "a1" dec_approved "someone"); co_finish (at_ 12) "a1"].
End SampleProposal.

Lemma sample_foreign_keys : foreign_keys (pd_records SampleProposal.db).
Proof. by split; apply map_Forall_empty. Qed.
Lemma sample_digest_form s : lower_hex 64 (SampleReceipt.digest s) = true.
Proof. by vm_compute. Qed.
Lemma sample_hash_bytes : hash_bytes sum_sha1.
Proof.
  assert (∀ z, is_byte (Z.land z 0xff)) as Hz.
  { intros z. change 0xff with (Z.ones 8). rewrite Z.land_ones by lia. by apply Z.mod_pos_bound. }
  intros bs. unfold sum_sha1. rewrite length_fmap, length_seq. split; [lia|]. apply Forall_fmap, Forall_true. intros i. apply Hz.
Qed.
Lemma sample_created : ∃ x g', SampleProposal.run = (inr x, g') ∧ dr_created x = true
  ∧ cu_candidate (dr_custody x) = SampleProposal.candidate "react"
  ∧ lower_uuid (cu_repositoryId (dr_custody x)) = true ∧ lower_uuid (cu_observationId (dr_custody x)) = true
  ∧ trimmedText (cu_repositoryName (dr_custody x)) = true ∧ trimmedText (cu_observationKey (dr_custody x)) = true.
Proof. eexists _, _. split; [vm_compute; reflexivity|]. split_and!; by vm_compute. Qed.

Lemma draft_replayed_witness : ∃ x g', SampleProposal.run = (inr x, g')
  ∧ createDraftAcceptanceRecordFromDependencyObservation sum_sha1 SampleReceipt.digest (at_ 99) SampleProposal.locator g'
    = (inr (mkDraftResult (dr_record x) (dr_contract x) (dr_event x) (dr_custody x) false), g').
Proof.
  destruct sample_created as (x & g' & H & _). exists x, g'. split; [exact H|].
  exact (draft_replayed sum_sha1 SampleReceipt.digest (at_ 9) (at_ 99) SampleProposal.locator SampleProposal.db x g'
           sample_foreign_keys H).
Defined.

Lemma draft_reads_back_witness : ∃ x g', SampleProposal.run = (inr x, g')
  ∧ cu_candidate (dr_custody x) = SampleProposal.candidate "react"
  ∧ readDependencyDraftProposalDetail sum_sha1 SampleReceipt.digest SampleProposal.ws (dr_record x).1 (pd_records g')
    = dt_draft (dr_contract x).1 (dr_custody x).
Proof.
  destruct sample_created as (x & g' & H & Hx & Hc & H1 & H2 & H3 & H4). exists x, g'. split; [exact H|]. split; [exact Hc|].
  exact (draft_reads_back sum_sha1 SampleReceipt.digest (at_ 9) SampleProposal.locator SampleProposal.db x g'
           sample_foreign_keys H Hx sample_hash_bytes sample_digest_form H1 H2 H3 H4).
Defined.

Lemma proposal_never_confirmed_witness : ∃ x g' k, SampleProposal.run = (inr x, g')
  ∧ rd_contracts (kd_records (cs_db (exec_contracts sum_sha1 (SampleProposal.approved (dr_contract x).1)
      (mkContractState (mkContractDb (pd_records g') ∅) ∅)))) !! (dr_contract x).1 = Some k ∧ ac_status k = "draft".
Proof.
  destruct sample_created as (x & g' & H & _).
  destruct (proposal_never_confirmed sum_sha1 SampleReceipt.digest (at_ 9) SampleProposal.locator SampleProposal.db x g' ∅ ∅
    (SampleProposal.approved (dr_contract x).1) sample_foreign_keys no_records_sound H) as (_ & k & Hk & _ & Hs & _).
  exists x, g', k. exact (conj H (conj Hk Hs)).
Defined.
