(* ===== verification/ModelPool.v ===== *)
(** * ModelPool: which model may do which task

    [apps/console/lib/alignment]: the keyword classifier ([classifier.ts]), the
    static catalogue ([catalog.ts]), the candidates of each task type with their
    seats ([candidates.ts]), the curated exclusions ([eligibility.ts]), the seeds
    ([seeds.ts]), the override a user may ask for ([validator.ts]) and the flags
    ([feature-flags.ts], [policy/feature-flags.ts]).  A rate is an exact rational,
    in dollars per million tokens. *)

From S2P Require Import Prelude Regex Policy JsonText JsonValue.
From Stdlib Require Import QArith Ascii.
Open Scope Z_scope.

#[export] Instance TaskType_eq_dec : EqDecision TaskType.
Proof. solve_decision. Defined.
Definition task_text (t : TaskType) : string :=
  match t with mechanical => "mechanical" | ui => "ui" | general => "general" | refactor => "refactor" end.

(** ** The classifier *)

Record TaskInput := mkTaskInput {
  ti_title : string;
  ti_whatToBuild : string;
  ti_acceptanceCriteria : list string;
}.

Definition UI_KEYWORDS : list string :=
  ["component"; "page"; "css"; "layout"; "design"; "frontend"; "ui"; "ux"; "style"; "styling"; "screen";
   "modal"; "dialog"; "form"; "button"; "responsive"].
Definition MECHANICAL_KEYWORDS : list string :=
  ["rename"; "bump"; "typo"; "config"; "copy-change"; "copy change"; "changelog"; "formatting";
   "dependency bump"; "version bump"].
Definition REFACTOR_KEYWORDS : list string :=
  ["refactor"; "architecture"; "migrate"; "migration"; "redesign"; "extract"; "restructure"; "decouple";
   "consolidate"].

(** No keyword holds a character the source escapes. *)
Definition keyword_regex (keyword : string) : regex := (WordB ⋅ lit keyword ⋅ WordB)%re.
Definition containsAnyKeyword (haystack : string) (keywords : list string) : bool :=
  existsb (λ keyword, test (keyword_regex keyword) haystack) keywords.

Definition classifyTaskType (input : TaskInput) : TaskType :=
  let haystack := lower (join_strings " " (ti_title input :: ti_whatToBuild input :: ti_acceptanceCriteria input)) in
  if containsAnyKeyword haystack MECHANICAL_KEYWORDS then mechanical
  else if containsAnyKeyword haystack REFACTOR_KEYWORDS then refactor
  else if containsAnyKeyword haystack UI_KEYWORDS then ui
  else general.

(** ** Seats *)

Record ModelSeat := mkSeat {
  seat_slug : string;
  seat_displayName : string;
  seat_inUsdPerMTok : Q;
  seat_outUsdPerMTok : Q;
}.

Definition sonnet_sticker : ModelSeat := mkSeat "anthropic/claude-sonnet-5" "Claude Sonnet 5" 3 15.
Definition MODEL_CATALOG (t : TaskType) : ModelSeat :=
  match t with
  | ui => sonnet_sticker
  | refactor => mkSeat "anthropic/claude-opus-4.8" "Claude Opus 4.8" 5 25
  | mechanical => mkSeat "anthropic/claude-haiku-4.5" "Claude Haiku 4.5" 1 5
  | general => sonnet_sticker
  end.

Record CandidateSeat := mkCandidate { cs_seat : ModelSeat; cs_profile : QualityProfile }.

Definition cents (n : positive) : Q := Zpos n # 100.
Definition seats : list CandidateSeat :=
  [mkCandidate (mkSeat "moonshotai/kimi-k2.7-code" "Kimi K2.7 Code" (cents 85) (cents 380)) standard;
   mkCandidate (mkSeat "z-ai/glm-5.2" "GLM 5.2" (cents 98) (cents 307)) standard;
   mkCandidate (mkSeat "moonshotai/kimi-k3" "Kimi K3" 3 15) premium;
   mkCandidate (mkSeat "anthropic/claude-sonnet-5" "Claude Sonnet 5" 2 10) premium;
   mkCandidate (MODEL_CATALOG refactor) premium;
   mkCandidate (mkSeat "deepseek/deepseek-v4-pro" "DeepSeek V4 Pro" (cents 43) (cents 87)) economy;
   mkCandidate (mkSeat "z-ai/glm-4.7" "GLM 4.7" (cents 40) (cents 175)) economy;
   mkCandidate (mkSeat "qwen/qwen3-coder-plus" "Qwen3 Coder Plus" (cents 65) (cents 325)) standard;
   mkCandidate (MODEL_CATALOG mechanical) standard;
   mkCandidate (mkSeat "openai/gpt-5.1-codex" "GPT-5.1 Codex" (cents 125) 10) premium].
(** Each key of the object is the slug of its seat. *)
Definition MODEL_SEATS (slug : string) : option CandidateSeat :=
  List.find (λ c, seat_slug (cs_seat c) ≡? slug) seats.

Definition CANDIDATES (t : TaskType) : list string :=
  match t with
  | ui => ["moonshotai/kimi-k2.7-code"; "z-ai/glm-5.2"; "moonshotai/kimi-k3"; "anthropic/claude-sonnet-5"]
  | refactor => ["anthropic/claude-opus-4.8"; "z-ai/glm-5.2"; "deepseek/deepseek-v4-pro";
                 "moonshotai/kimi-k2.7-code"; "anthropic/claude-sonnet-5"]
  | mechanical => ["z-ai/glm-4.7"; "z-ai/glm-5.2"; "deepseek/deepseek-v4-pro"; "qwen/qwen3-coder-plus";
                   "anthropic/claude-haiku-4.5"]
  | general => ["z-ai/glm-5.2"; "moonshotai/kimi-k2.7-code"; "deepseek/deepseek-v4-pro"; "openai/gpt-5.1-codex";
                "anthropic/claude-sonnet-5"]
  end.

Definition has_profile (allowed : list QualityProfile) (slug : string) : bool :=
  match MODEL_SEATS slug with Some c => bool_decide (cs_profile c ∈ allowed) | None => false end.
Definition slugsForProfiles (slugs : list string) (allowed : list QualityProfile) : list string :=
  match allowed with [] => [] | _ => List.filter (has_profile allowed) slugs end.

(** ** Eligibility and seeds *)

Definition HAIKU_SLUG : string := "anthropic/claude-haiku-4.5".
Definition EXCLUDED_MODELS (t : TaskType) : list string :=
  match t with ui => [HAIKU_SLUG] | _ => [] end.
Definition ALL_TASK_TYPES : list TaskType := [ui; refactor; mechanical; general].

(** [allowedProfiles] undefined is [None]. *)
Definition eligibleModelsForTaskType (t : TaskType) (allowedProfiles : option (list QualityProfile)) : list string :=
  let eligible := List.filter (λ slug, negb (bool_decide (slug ∈ EXCLUDED_MODELS t))) (CANDIDATES t) in
  match allowedProfiles with
  | None => eligible
  | Some allowed =>
      match slugsForProfiles eligible allowed with [] => eligible | filtered => filtered end
  end.
Definition isModelEligibleForTaskType (slug : string) (t : TaskType) : bool :=
  bool_decide (slug ∈ eligibleModelsForTaskType t None).
Definition allEligibleModelSlugs : list string :=
  fold_left (λ union t, fold_left (λ u slug, if bool_decide (slug ∈ u) then u else u ++ [slug])
                          (eligibleModelsForTaskType t None) union) ALL_TASK_TYPES [].

Definition seedSlug (t : TaskType) : option string := head (CANDIDATES t).
(** The self-check that runs when the module is loaded. *)
Definition seeds_check : bool :=
  forallb (λ t, match seedSlug t with Some s => isModelEligibleForTaskType s t | None => false end) ALL_TASK_TYPES.
(** [None] is the exception. *)
Definition seedModel (t : TaskType) : option ModelSeat := cs_seat <$> (seedSlug t ≫= MODEL_SEATS).

(** ** The override of a user *)

Inductive OverrideValidation :=
  | override_ok
  | override_refused (reason : string).

Definition quoted (s : string) : string := String double_quote (s +:+ String double_quote "").
Definition verify_collision (overrideSlug : string) : string :=
  quoted overrideSlug
  +:+ " is also this workspace's configured independent-review (verify-phase) model. "
  +:+ "Overriding the coding model to match it would silently disable independent review — "
  +:+ "the run's verify-phase resolver has no distinct model left to run against and reports "
  +:+ "independent_review_status: " +:+ quoted "skipped_no_distinct_model" +:+ " (agentrail/cli/commands/run.py). "
  +:+ "This is exactly the failure issue #1270 exists to prevent, so the override is refused "
  +:+ "rather than silently shipping a run with no independent review.".
Definition unknown_model (overrideSlug : string) : string :=
  quoted overrideSlug +:+ " is not one of the v1 coding-model choices ("
  +:+ join_strings ", " allEligibleModelSlugs +:+ "). "
  +:+ "Overrides are catalog-only in v1 — see validateOverride's doc comment for why the "
  +:+ "allowlist isn't wider yet.".

Definition validateOverride (overrideSlug configuredVerifyModel : string) : OverrideValidation :=
  if overrideSlug ≡? configuredVerifyModel then override_refused (verify_collision overrideSlug)
  else if negb (bool_decide (overrideSlug ∈ allEligibleModelSlugs)) then override_refused (unknown_model overrideSlug)
  else override_ok.

(** ** Flags *)

Definition isTruthyFlag (value : option string) : bool :=
  match truthy_text value with Some v => (v ≡? "1") || (lower v ≡? "true") | None => false end.

Record FlagEnv := mkFlagEnv {
  MODEL_SELECTION_LEARNING_ENABLED : option string;
  MODEL_SELECTION_LEARNING_WORKSPACES : option string;
  BILLING_SUBSCRIPTIONS_ENFORCED : option string;
}.
Definition isModelSelectionLearningEnabled (workspaceId : option string) (env : FlagEnv) : bool :=
  if isTruthyFlag (MODEL_SELECTION_LEARNING_ENABLED env) then true else
  match truthy_text workspaceId, truthy_text (MODEL_SELECTION_LEARNING_WORKSPACES env) with
  | Some ws, Some allowlist =>
      bool_decide (ws ∈ List.filter (λ id, negb (id ≡? "")) (trim <$> split_on ","%char allowlist))
  | _, _ => false
  end.
Definition subscriptionsEnforced (env : FlagEnv) : bool := BILLING_SUBSCRIPTIONS_ENFORCED env ≡? Some "1".
