(* ===== verification/ModelChoice.v ===== *)
(** * ModelChoice: the model a task runs on, learnt from how runs ended

    The outcomes of runs ([schema/run_outcomes.ts], [queries/run_outcomes.ts]),
    the selector ([alignment/selector.ts]) and the one place that calls it with
    the entitlement of a plan ([alignment-brief.ts]).  A rate and a cost are
    exact rationals; a draw of [Math.random] is an argument. *)

From S2P Require Import Prelude Table QueueSchema Policy JsonText JsonValue ModelPool.
From Stdlib Require Import QArith.
Open Scope Z_scope.

(** ** Outcomes *)

Inductive RunOutcomeValue := success | human_review | failed.
#[export] Instance RunOutcomeValue_eq_dec : EqDecision RunOutcomeValue.
Proof. solve_decision. Defined.

(** [None] for a state that is not terminal. *)
Definition mapTerminalStateToRunOutcome (state : QueueState) : option RunOutcomeValue :=
  match state with
  | green => Some success
  | escalated_to_human => Some human_review
  | blocked => Some failed
  | _ => None
  end.

Record RunOutcome := mkRunOutcome {
  ro_queue_entry_id : string;
  ro_workspace_id : string;
  ro_task_type : option string;
  ro_execute_model : option string;
  ro_outcome : RunOutcomeValue;
  ro_cost_usd : Q;
}.

(** The rows in the order they were written; [known] says that the queue entry
    and the workspace a row names exist.  [None] is the exception of a foreign
    key; a second row for a queue entry is dropped before its keys are checked. *)
Definition recordRunOutcome (known : bool) (input : RunOutcome) (t : list RunOutcome) : option (list RunOutcome) :=
  if existsb (λ r, ro_queue_entry_id r ≡? ro_queue_entry_id input) t then Some t
  else if known then Some (t ++ [input]) else None.

Record RunOutcomeCounts := mkCounts { oc_success : Z; oc_humanReview : Z; oc_failed : Z }.
Definition outcomes_of (o : RunOutcomeValue) (t : list RunOutcome) : Z :=
  count (List.filter (λ r, ro_outcome r ≡? o) t).
Definition countRunOutcomes (t : list RunOutcome) : RunOutcomeCounts :=
  mkCounts (outcomes_of success t) (outcomes_of human_review t) (outcomes_of failed t).
Definition countRunOutcomesForWorkspace (workspaceId : string) (t : list RunOutcome) : RunOutcomeCounts :=
  countRunOutcomes (List.filter (λ r, ro_workspace_id r ≡? workspaceId) t).

Record ModelOutcomeStatsRow := mkStats {
  os_taskType : option string;
  os_executeModel : option string;
  os_runCount : Z;
  os_successCount : Z;
  os_successRate : Q;
  os_avgCostUsd : Q;
  os_costPerSuccess : option Q;
}.

Definition group_of (r : RunOutcome) : option string * option string := (ro_task_type r, ro_execute_model r).
Definition total_cost (l : list RunOutcome) : Q := fold_right Qplus 0%Q (ro_cost_usd <$> l).
Definition stats_row (g : option string * option string) (l : list RunOutcome) : ModelOutcomeStatsRow :=
  let runCount := count l in
  let successCount := outcomes_of success l in
  mkStats g.1 g.2 runCount successCount
    (if 0 <? runCount then inject_Z successCount / inject_Z runCount else 0)%Q
    (if 0 <? runCount then total_cost l / inject_Z runCount else 0)%Q
    (if 0 <? successCount then Some (total_cost l / inject_Z successCount)%Q else None).

(** GROUP BY leaves the order of the groups open; this is that of their first
    rows. *)
Definition getModelOutcomeStats (workspaceId taskType : option string) (t : list RunOutcome)
    : list ModelOutcomeStatsRow :=
  let same x o := match truthy_text o with Some v => x ≡? Some v | None => true end in
  let rows := List.filter (λ r, same (Some (ro_workspace_id r)) workspaceId && same (ro_task_type r) taskType) t in
  (λ g, stats_row g (List.filter (λ r, group_of r ≡? g) rows)) <$> remove_dups (group_of <$> rows).

(** ** The selector *)

Definition DEFAULT_MIN_RUNS : Z := 5.
Definition DEFAULT_EXPLORATION_RATE : Q := 1 # 10.

Inductive SelectionReason := seed | best_from_data | exploring.
Record ModelSelection := mkSelection {
  ms_model : ModelSeat;
  ms_reason : SelectionReason;
  ms_runCount : option Z;
}.

(** [None] is the exception. *)
Definition seatForSlug (slug : string) : option ModelSeat := cs_seat <$> MODEL_SEATS slug.
Definition row_of (stats : list ModelOutcomeStatsRow) (slug : string) : option ModelOutcomeStatsRow :=
  List.find (λ row, os_executeModel row ≡? Some slug) stats.
Definition runCountForSlug (stats : list ModelOutcomeStatsRow) (slug : string) : Z :=
  default 0 (os_runCount <$> row_of stats slug).

(** [x < y] *)
Definition qlt (x y : Q) : bool := negb (Qle_bool y x).

(** Whether [row] takes the place of [best]. *)
Definition outranks (row best : ModelOutcomeStatsRow) : bool :=
  if qlt (os_successRate best) (os_successRate row) then true
  else if qlt (os_successRate row) (os_successRate best) then false
  else match os_costPerSuccess best, os_costPerSuccess row with
       | None, Some _ => true
       | Some b, Some r => qlt r b
       | _, None => false
       end.
Definition best_row (rows : list ModelOutcomeStatsRow) : option ModelOutcomeStatsRow :=
  fold_left (λ best row, match best with
                         | None => Some row
                         | Some b => if outranks row b then Some row else Some b
                         end) rows None.

Definition eligible_rows (eligibleSlugs : list string) (stats : list ModelOutcomeStatsRow)
    : list ModelOutcomeStatsRow :=
  List.filter (λ row, match os_executeModel row with Some m => bool_decide (m ∈ eligibleSlugs) | None => false end) stats.
Definition qualified_rows (eligibleSlugs : list string) (minRuns : Z) (stats : list ModelOutcomeStatsRow)
    : list ModelOutcomeStatsRow :=
  List.filter (λ row, minRuns <=? os_runCount row) (eligible_rows eligibleSlugs stats).

(** The seed of the task type, or the first eligible candidate. *)
Definition exploit_seed (taskType : TaskType) (eligibleSlugs : list string) : option ModelSeat :=
  seed ← seedModel taskType;
  if bool_decide (seat_slug seed ∈ eligibleSlugs) then Some seed else head eligibleSlugs ≫= seatForSlug.

Definition decideExploit (taskType : TaskType) (eligibleSlugs : list string)
    (stats : list ModelOutcomeStatsRow) (minRuns : Z) : option ModelSelection :=
  s ← exploit_seed taskType eligibleSlugs;
  let seedRow := row_of (eligible_rows eligibleSlugs stats) (seat_slug s) in
  let seedSelection := mkSelection s seed (os_runCount <$> seedRow) in
  match qualified_rows eligibleSlugs minRuns stats with
  | [] => Some seedSelection
  | qualified =>
      let seedSuccessRate := match seedRow with Some row => os_successRate row | None => 0%Q end in
      match best_row qualified with
      | Some best =>
          if qlt seedSuccessRate (os_successRate best) then
            m ← os_executeModel best ≫= seatForSlug;
            Some (mkSelection m best_from_data (Some (os_runCount best)))
          else Some seedSelection
      | None => Some seedSelection
      end
  end.

(** [Math.min(...counts)] of a list that is not empty *)
Fixpoint min_of (x : Z) (l : list Z) : Z := match l with [] => x | y :: l' => Z.min x (min_of y l') end.
Definition least_sampled (stats : list ModelOutcomeStatsRow) (candidates : list string) : list string :=
  match runCountForSlug stats <$> candidates with
  | [] => []
  | n :: ns => List.filter (λ slug, runCountForSlug stats slug =? min_of n ns) candidates
  end.
Definition pickExplorationTarget (eligibleSlugs : list string) (excludeSlug : string)
    (stats : list ModelOutcomeStatsRow) (random : Q) : option string :=
  match List.filter (λ slug, slug ≢? excludeSlug) eligibleSlugs with
  | [] => None
  | candidates =>
      let leastSampled := least_sampled stats candidates in
      let idx := Z.min (math_floor (random * inject_Z (count leastSampled))%Q) (count leastSampled - 1) in
      leastSampled !! Z.to_nat (Z.max idx 0)
  end.

(** [fetched] is what [fetchStats] answers, [None] its exception; [random1] and
    [random2] are the two draws. *)
Definition selectExecuteModel (taskType : TaskType) (allowedProfiles : option (list QualityProfile))
    (minRuns : Z) (explorationRate random1 random2 : Q) (fetched : option (list ModelOutcomeStatsRow))
    : option ModelSelection :=
  let eligibleSlugs := eligibleModelsForTaskType taskType allowedProfiles in
  stats ← fetched;
  exploit ← decideExploit taskType eligibleSlugs stats minRuns;
  if qlt random1 explorationRate then
    match pickExplorationTarget eligibleSlugs (seat_slug (ms_model exploit)) stats random2 with
    | Some (String _ _ as exploreSlug) =>
        let runCount := runCountForSlug stats exploreSlug in
        m ← seatForSlug exploreSlug;
        Some (mkSelection m exploring (if 0 <? runCount then Some runCount else None))
    | _ => Some exploit
    end
  else Some exploit.

Definition describeModelSelection (taskType : TaskType) (selection : ModelSelection) (minRuns : Z) : string :=
  let name := seat_displayName (ms_model selection) in
  match ms_reason selection, ms_runCount selection with
  | best_from_data, n =>
      name +:+ " — best success rate for " +:+ task_text taskType
      +:+ match n with Some n => " (" +:+ show_Z n +:+ " runs)" | None => "" end
  | exploring, _ => "Trying " +:+ name +:+ " to compare"
  | seed, Some n =>
      name +:+ " — starting default (" +:+ show_Z n +:+ " runs so far, below the " +:+ show_Z minRuns
      +:+ "-run threshold)"
  | seed, None => name +:+ " — starting default, no data yet"
  end.

(** ** The entitlement of a plan *)

(** [None] leaves the pool unfiltered. *)
Definition resolveAdmissionFilter (resolvedPolicy : ResolvedPolicy) (taskType : TaskType)
    : option (list QualityProfile) :=
  if rp_degraded resolvedPolicy then None
  else Some (allowedProfilesFor (rp_policy resolvedPolicy) (classifyTaskProfile taskType)).

Record ModelSelectionForBrief := mkBriefSelection { mb_model : ModelSeat; mb_reasonText : string }.

(** [policy] and [fetched] are [None] where the reads throw; the catch answers
    undefined. *)
Definition resolveModelSelectionForBrief (env : FlagEnv) (taskInput : TaskInput) (workspaceId : option string)
    (policy : option ResolvedPolicy) (random1 random2 : Q) (fetched : option (list ModelOutcomeStatsRow))
    : option ModelSelectionForBrief :=
  match truthy_text workspaceId with
  | None => None
  | Some ws =>
      if negb (isModelSelectionLearningEnabled (Some ws) env) then None else
      let taskType := classifyTaskType taskInput in
      admissionFilter ← (if subscriptionsEnforced env
                         then (λ p, resolveAdmissionFilter p taskType) <$> policy else Some None);
      selection ← selectExecuteModel taskType admissionFilter DEFAULT_MIN_RUNS DEFAULT_EXPLORATION_RATE
                    random1 random2 fetched;
      Some (mkBriefSelection (ms_model selection) (describeModelSelection taskType selection DEFAULT_MIN_RUNS))
  end.
