(* ===== verification/ModelFacts.v ===== *)
(** * ModelFacts: what the choice of a model promises

    Theorems of [ModelPool] and [ModelChoice]: a task's type is decided by whole
    words, the statistics are those of the recorded outcomes, the exploit step
    is an argmax, exploration takes the least tried arm, and no draw, no data
    and no plan leads out of the pool. *)

From S2P Require Import Prelude Regex Table QueueSchema Intake Billing Policy JsonText JsonValue ModelPool ModelChoice.
From Stdlib Require Import QArith Qround Ascii.
Open Scope Z_scope.

(** ** Whole words *)

Lemma exec_from_some r a : ∀ b,
  is_Some (exec_from r b a) ↔ ∃ a1 a2, a = a1 ++ a2 ∧ is_Some (run r (rev a1 ++ b) a2 [] accept).
Proof.
  induction a as [|x a IH]; intros b; cbn [exec_from].
  - split.
    + intros H. exists [], []. split; [done|]. cbn. destruct (run r b [] [] accept) as [[[??]?]|]; [done|].
      by destruct H.
    + intros (a1 & a2 & H%eq_sym & Hr). apply app_nil in H as [-> ->]. cbn in Hr.
      destruct (run r b [] [] accept) as [[[??]?]|]; [by eexists|by destruct Hr].
  - destruct (run r b (x :: a) [] accept) as [[[??]?]|] eqn:E.
    + split; [|by eexists]. intros _. exists [], (x :: a). split; [done|]. cbn. rewrite E. by eexists.
    + rewrite IH. split.
      * intros (a1 & a2 & -> & H). exists (x :: a1), a2. split; [done|]. simpl. by rewrite <- app_assoc.
      * intros ([|y a1] & a2 & Ha & H); simpl in *.
        -- subst a2. rewrite E in H. by destruct H.
        -- injection Ha as <- ->. exists a1, a2. split; [done|]. by rewrite <- app_assoc in H.
Qed.

Lemma run_lit {X} l b a c (k : cont X) :
  is_Some (run (lit_with Ascii.eqb l) b a c k) ↔ ∃ a', a = l ++ a' ∧ is_Some (k (rev l ++ b) a' c).
Proof.
  revert b a. induction l as [|x l IH]; intros b a; [cbn; naive_solver|].
  assert (Hc : is_Some (run (lit_with Ascii.eqb (x :: l)) b a c k)
    ↔ ∃ a0, a = x :: a0 ∧ is_Some (run (lit_with Ascii.eqb l) (x :: b) a0 c k)).
  { destruct l as [|y l]; cbn [lit_with run]; (destruct a as [|z a]; [split; [by intros []|naive_solver]|]);
      (destruct (Ascii.eqb_spec x z) as [->|Hn]; split;
       [naive_solver|naive_solver|by intros []|naive_solver]). }
  rewrite Hc. split.
  - intros (a0 & -> & (a' & -> & H)%IH). exists a'. split; [done|]. simpl. by rewrite <- app_assoc.
  - intros (a' & -> & H). exists (l ++ a'). split; [done|]. apply IH. exists a'. split; [done|].
    simpl in H. by rewrite <- app_assoc in H.
Qed.

Definition word_at (l : list ascii) : bool := match l with c :: _ => is_word c | [] => false end.
(** [keyword] stands in [haystack] with no word character on either side. *)
Definition stands_in (haystack keyword : list ascii) : Prop :=
  ∃ x y, haystack = x ++ keyword ++ y ∧ word_at (rev x) = false ∧ word_at y = false.
Definition wordy (keyword : list ascii) : bool := word_at keyword && word_at (rev keyword).

Lemma keyword_stands keyword haystack :
  wordy (String.list_ascii_of_string keyword) = true →
  test (keyword_regex keyword) haystack = true
  ↔ stands_in (String.list_ascii_of_string haystack) (String.list_ascii_of_string keyword).
Proof.
  unfold wordy, test, exec, keyword_regex, stands_in, lit.
  set (k := String.list_ascii_of_string keyword). set (h := String.list_ascii_of_string haystack).
  intros [Hk1 Hk2]%andb_true_iff.
  transitivity (is_Some (exec_from (WordB ⋅ lit_with Ascii.eqb k ⋅ WordB)%re [] h)).
  { destruct (exec_from _ _ _); split; try done; by intros []. }
  rewrite exec_from_some. cbn [run].
  assert (Hw : ∀ x y, is_Some (if at_word (rev x) (k ++ y) then run (lit_with Ascii.eqb k) (rev x) (k ++ y) []
      (λ b a c, if at_word b a then accept b a c else None) else None)
      ↔ word_at (rev x) = false ∧ word_at y = false).
  { intros x y. unfold at_word. fold (word_at (rev x)) (word_at (k ++ y)).
    assert (word_at (k ++ y) = true) as -> by (by destruct k).
    destruct (word_at (rev x)); cbn [xorb]; [split; [by intros []|naive_solver]|].
    rewrite run_lit. split.
    - intros (a' & Ha & H). apply app_inv_head in Ha as <-. split; [done|].
      fold (word_at (rev k ++ rev x)) (word_at y) in H.
      assert (word_at (rev k ++ rev x) = true) as Hr by (by destruct (rev k)).
      rewrite Hr in H. destruct (word_at y); [by destruct H|done].
    - intros [_ Hy]. exists y. split; [done|]. fold (word_at (rev k ++ rev x)) (word_at y).
      assert (word_at (rev k ++ rev x) = true) as -> by (by destruct (rev k)). rewrite Hy. by eexists. }
  split.
  - intros (x & a & -> & H). rewrite app_nil_r in H. destruct (at_word (rev x) a) eqn:Ea; [|by destruct H].
    pose proof H as H'. apply run_lit in H as (y & -> & _).
    exists x, y. split; [done|]. apply Hw. by rewrite Ea.
  - intros (x & y & -> & H). exists x, (k ++ y). split; [done|]. rewrite app_nil_r. by apply Hw.
Qed.

Definition haystack_of (input : TaskInput) : list ascii :=
  String.list_ascii_of_string (lower (join_strings " " (ti_title input :: ti_whatToBuild input :: ti_acceptanceCriteria input))).
Definition names (input : TaskInput) (keywords : list string) : Prop :=
  ∃ k, k ∈ keywords ∧ stands_in (haystack_of input) (String.list_ascii_of_string k).

Lemma containsAnyKeyword_names input keywords :
  forallb (λ k, wordy (String.list_ascii_of_string k)) keywords = true →
  containsAnyKeyword (lower (join_strings " " (ti_title input :: ti_whatToBuild input :: ti_acceptanceCriteria input)))
    keywords = true ↔ names input keywords.
Proof.
  intros Hw. unfold containsAnyKeyword, names. rewrite existsb_exists.
  split; intros (k & Hk & H); exists k; rewrite list_elem_of_In in *; (split; [done|]);
    apply keyword_stands in H; try done; by apply (proj1 (forallb_forall _ _) Hw).
Qed.

(** The regular expressions of the classifier test for
    whole words: a task is mechanical when a keyword of that list stands in its
    text, in any case, with no word character next to it, a refactoring when
    none does but one of the second list does, of the interface when only one of
    the third does, and general when no keyword stands in it at all - a keyword
    inside a longer word never counts. *)
Theorem classify_exact input :
  match classifyTaskType input with
  | mechanical => names input MECHANICAL_KEYWORDS
  | refactor => ¬ names input MECHANICAL_KEYWORDS ∧ names input REFACTOR_KEYWORDS
  | ui => ¬ names input MECHANICAL_KEYWORDS ∧ ¬ names input REFACTOR_KEYWORDS ∧ names input UI_KEYWORDS
  | general => ¬ names input MECHANICAL_KEYWORDS ∧ ¬ names input REFACTOR_KEYWORDS ∧ ¬ names input UI_KEYWORDS
  end.
Proof.
  pose proof (containsAnyKeyword_names input MECHANICAL_KEYWORDS ltac:(by vm_compute)) as H1.
  pose proof (containsAnyKeyword_names input REFACTOR_KEYWORDS ltac:(by vm_compute)) as H2.
  pose proof (containsAnyKeyword_names input UI_KEYWORDS ltac:(by vm_compute)) as H3.
  unfold classifyTaskType.
  destruct (containsAnyKeyword _ MECHANICAL_KEYWORDS); [by apply H1|].
  destruct (containsAnyKeyword _ REFACTOR_KEYWORDS); [split; [by intros ?%H1|by apply H2]|].
  destruct (containsAnyKeyword _ UI_KEYWORDS); split_and!; try (by apply H3);
    [by intros ?%H1|by intros ?%H2|by intros ?%H1|by intros ?%H2|by intros ?%H3].
Qed.

(** ** The statistics *)

Definition outcomes_for (ws task m : string) (t : list RunOutcome) : list RunOutcome :=
  List.filter (λ r, (ro_workspace_id r ≡? ws) && (ro_task_type r ≡? Some task) && (ro_execute_model r ≡? Some m)) t.

Lemma filter_filter {A} (p q : A → bool) l :
  List.filter p (List.filter q l) = List.filter (λ x, q x && p x) l.
Proof.
  induction l as [|x l IH]; [done|]; cbn. destruct (q x) eqn:Eq; cbn; [|by rewrite IH].
  destruct (p x); by rewrite IH.
Qed.
Lemma list_filter_ext {A} (p q : A → bool) l : (∀ x, p x = q x) → List.filter p l = List.filter q l.
Proof. intros H. by apply List.filter_ext. Qed.

(** The row of a model among the rows of one workspace and task type. *)
Lemma find_group (gs : list (option string * option string)) (f : option string * option string → list RunOutcome)
    task m :
  (∀ g, g ∈ gs → g.1 = Some task) →
  List.find (λ row, os_executeModel row ≡? Some m) ((λ g, stats_row g (f g)) <$> gs)
  = if bool_decide ((Some task, Some m) ∈ gs) then Some (stats_row (Some task, Some m) (f (Some task, Some m))) else None.
Proof.
  induction gs as [|[t o] gs IH]; intros Hg; [done|]. cbn [List.find fmap list_fmap stats_row os_executeModel].
  pose proof (Hg (t, o) ltac:(by left)) as Ht. cbn in Ht. subst t.
  destruct (bool_decide_reflect (o = Some m)) as [->|Hn]; cbn [fst snd].
  - rewrite bool_decide_eq_true_2 by done. rewrite bool_decide_eq_true_2 by by left. done.
  - rewrite (bool_decide_eq_false_2 (o = Some m)) by done. rewrite IH by (intros g ?; apply Hg; by right).
    rewrite (bool_decide_ext ((Some task, Some m) ∈ (Some task, o) :: gs) ((Some task, Some m) ∈ gs)); [done|].
    rewrite elem_of_cons. split; [|by right]. intros [H|?]; [congruence|done].
Qed.

Lemma stats_lookup ws task m t : ws ≠ "" → task ≠ "" →
  row_of (getModelOutcomeStats (Some ws) (Some task) t) m
  = match outcomes_for ws task m t with [] => None | l => Some (stats_row (Some task, Some m) l) end.
Proof.
  intros Hws Htask. unfold row_of, getModelOutcomeStats. cbn zeta.
  assert (truthy_text (Some ws) = Some ws) as -> by by destruct ws.
  assert (truthy_text (Some task) = Some task) as -> by by destruct task.
  set (rows := List.filter (λ r : RunOutcome, (Some (ro_workspace_id r) ≡? Some ws) && (ro_task_type r ≡? Some task)) t).
  rewrite (find_group _ (λ g, List.filter (λ r, group_of r ≡? g) rows) task m).
  2: { intros g Hg. rewrite elem_of_remove_dups in Hg. apply list_elem_of_fmap in Hg as (r & -> & Hr).
       unfold rows in Hr. apply list_elem_of_In, filter_In in Hr as [_ Hr]. bools. done. }
  assert (List.filter (λ r, group_of r ≡? (Some task, Some m)) rows = outcomes_for ws task m t) as ->.
  { unfold rows, outcomes_for. rewrite filter_filter. apply list_filter_ext. intros r. unfold group_of.
    destruct r as [q w tt em o c]. cbn. repeat case_bool_decide; cbn; try done; exfalso; congruence. }
  destruct (outcomes_for ws task m t) as [|r l] eqn:El.
  - rewrite bool_decide_eq_false_2; [done|]. rewrite elem_of_remove_dups. intros (r & Hg & Hr)%list_elem_of_fmap.
    unfold rows in Hr. apply list_elem_of_In, filter_In in Hr as [Hr Hp].
    assert (r ∈ outcomes_for ws task m t) as Hin.
    { apply list_elem_of_In, filter_In. split; [done|]. injection Hg as Hg1 Hg2. bools.
      repeat (apply andb_true_iff; split); apply bool_decide_eq_true; congruence. }
    rewrite El in Hin. by apply elem_of_nil in Hin.
  - rewrite bool_decide_eq_true_2; [done|]. rewrite elem_of_remove_dups. apply list_elem_of_fmap. exists r.
    assert (r ∈ outcomes_for ws task m t) as Hin by (rewrite El; by left).
    apply list_elem_of_In, filter_In in Hin as [Hin Hp]. bools. simplify_eq.
    split; [unfold group_of; congruence|]. apply list_elem_of_In, filter_In. split; [done|].
    apply andb_true_iff; split; apply bool_decide_eq_true; congruence.
Qed.

(** Reports in the order they arrive, with whether their keys exist. *)
Definition record_all (inputs : list (bool * RunOutcome)) (t : list RunOutcome) : list RunOutcome :=
  fold_left (λ t i, default t (recordRunOutcome i.1 i.2 t)) inputs t.

Definition recorded (q : string) (t : list RunOutcome) : bool := existsb (λ r, ro_queue_entry_id r ≡? q) t.
Lemma recordedP q t : recorded q t = true ↔ q ∈ ro_queue_entry_id <$> t.
Proof.
  unfold recorded. rewrite existsb_exists, list_elem_of_fmap. split.
  - intros (r & Hr & Hq). bools. exists r. split; [done|by apply list_elem_of_In].
  - intros (r & -> & Hr). exists r. split; [by apply list_elem_of_In|by apply bool_decide_eq_true].
Qed.
Lemma record_step known i t :
  default t (recordRunOutcome known i t)
  = if recorded (ro_queue_entry_id i) t || negb known then t else t ++ [i].
Proof.
  unfold recordRunOutcome. fold (recorded (ro_queue_entry_id i) t).
  by destruct (recorded _ t), known.
Qed.
Lemma record_all_grows inputs : ∀ t r, r ∈ t → r ∈ record_all inputs t.
Proof.
  induction inputs as [|[known i] l IH]; intros t r Hr; [done|]. cbn. apply IH.
  rewrite record_step. destruct (_ || _); [done|]. apply elem_of_app. by left.
Qed.
Lemma record_all_NoDup inputs : ∀ t, NoDup (ro_queue_entry_id <$> t) → NoDup (ro_queue_entry_id <$> record_all inputs t).
Proof.
  induction inputs as [|[known i] l IH]; intros t Ht; [done|]. cbn. apply IH. rewrite record_step.
  destruct (recorded _ t) eqn:E, known; cbn; try done.
  rewrite fmap_app. apply NoDup_app. split_and!; [done| |apply NoDup_singleton].
  intros q Hq Hq'. apply list_elem_of_singleton in Hq'. subst q. apply recordedP in Hq. cbn in *. congruence.
Qed.
Lemma record_all_known inputs : ∀ t q, q ∈ ro_queue_entry_id <$> record_all inputs t →
  q ∈ ro_queue_entry_id <$> t ∨ q ∈ (ro_queue_entry_id ∘ snd) <$> inputs.
Proof.
  induction inputs as [|[known i] l IH]; intros t q Hq; [by left|]. cbn in Hq. apply IH in Hq as [Hq|Hq].
  - rewrite record_step in Hq. destruct (_ || _); [by left|]. rewrite fmap_app in Hq.
    apply elem_of_app in Hq as [Hq|Hq]; [by left|]. apply list_elem_of_singleton in Hq as ->. right. by left.
  - right. by right.
Qed.

Lemma stats_row_sane g l : l ≠ [] →
  let row := stats_row g l in
  (0 <= os_successRate row <= 1)%Q ∧ 1 ≤ os_runCount row ∧ 0 ≤ os_successCount row ≤ os_runCount row
  ∧ (os_costPerSuccess row = None ↔ os_successCount row = 0).
Proof.
  intros Hl. cbn.
  assert (H1 : 1 ≤ count l) by (destruct l; [done|unfold count; cbn; lia]).
  assert (H2 : 0 ≤ outcomes_of success l ≤ count l).
  { unfold outcomes_of, count. pose proof (filter_length_le (λ r, ro_outcome r ≡? success) l). lia. }
  destruct (Z.ltb_spec 0 (count l)); [|lia].
  split_and!; try lia.
  - apply Qle_shift_div_l; [unfold Qlt; cbn; lia|]. unfold Qle; cbn; lia.
  - apply Qle_shift_div_r; [unfold Qlt; cbn; lia|]. unfold Qle; cbn; lia.
  - destruct (Z.ltb_spec 0 (outcomes_of success l)); split; try done; lia.
Qed.

(** What the selector learns from is what happened, once.
    However reports arrive and are repeated, a queue entry has one outcome, the
    first report of it whose entry and workspace exist; and the statistics of a
    workspace, task type and model are those of exactly the outcomes recorded
    for them - no row without an outcome, the number of runs, of successes, a rate
    between zero and one, and a cost per success that is undefined, not zero,
    when nothing succeeded. *)
Theorem stats_are_outcomes inputs ws task m : ws ≠ "" → task ≠ "" →
  let t := record_all inputs [] in
  NoDup (ro_queue_entry_id <$> t)
  ∧ (∀ pre i post, inputs = pre ++ (true, i) :: post →
       (∀ j, j ∈ pre → ro_queue_entry_id j.2 ≠ ro_queue_entry_id i) → i ∈ t)
  ∧ let l := outcomes_for ws task m t in
    match row_of (getModelOutcomeStats (Some ws) (Some task) t) m with
    | None => l = []
    | Some row => l ≠ [] ∧ os_runCount row = count l ∧ os_successCount row = outcomes_of success l
        ∧ (0 <= os_successRate row <= 1)%Q ∧ (os_successRate row * inject_Z (count l) == inject_Z (outcomes_of success l))%Q
        ∧ (os_costPerSuccess row = None ↔ outcomes_of success l = 0)
    end.
Proof.
  intros Hws Htask t. split_and!.
  - apply record_all_NoDup. constructor.
  - intros pre i post E Hpre. unfold t. rewrite E. unfold record_all. rewrite fold_left_app. cbn.
    apply record_all_grows. rewrite record_step. fold (record_all pre []).
    destruct (recorded (ro_queue_entry_id i) (record_all pre [])) eqn:Er; cbn.
    + apply recordedP, record_all_known in Er as [[]%elem_of_nil|(j & Hj & Hin)%list_elem_of_fmap].
      by destruct (Hpre j Hin).
    + apply elem_of_app. right. by left.
  - cbn zeta. rewrite stats_lookup by done. destruct (outcomes_for ws task m t) as [|r l] eqn:El; [done|].
    pose proof (stats_row_sane (Some task, Some m) (r :: l) ltac:(done)) as (Hr & H1 & H2 & Hc).
    split_and!; try done; [apply Hr..|].
    cbn [stats_row os_successRate]. unfold stats_row in H1. cbn [os_runCount] in H1.
    destruct (Z.ltb_spec 0 (count (r :: l))); [|lia].
    rewrite Qmult_comm. apply Qmult_div_r. unfold Qeq. cbn [inject_Z Qnum Qden]. lia.
Qed.

(** ** The best row *)

Lemma qltP x y : qlt x y = true ↔ (x < y)%Q.
Proof.
  unfold qlt. rewrite negb_true_iff, <- not_true_iff_false, Qle_bool_iff.
  split; [apply Qnot_le_lt|apply Qlt_not_le].
Qed.

(** [None], no success yet, is dearer than every cost. *)
Definition cheaper (x y : option Q) : Prop :=
  match x, y with Some x, Some y => (x < y)%Q | Some _, None => True | None, _ => False end.
Definition better (r b : ModelOutcomeStatsRow) : Prop :=
  (os_successRate b < os_successRate r)%Q
  ∨ (os_successRate b == os_successRate r)%Q ∧ cheaper (os_costPerSuccess r) (os_costPerSuccess b).

Lemma outranksP r b : outranks r b = true ↔ better r b.
Proof.
  unfold outranks, better.
  destruct (qlt (os_successRate b) (os_successRate r)) eqn:E1; [apply qltP in E1; naive_solver|].
  destruct (qlt (os_successRate r) (os_successRate b)) eqn:E2.
  - apply qltP in E2. split; [done|]. intros [H|[H _]]; [|rewrite H in E2]; by apply Qlt_irrefl in E2 || (exfalso; eapply Qlt_irrefl, Qlt_trans).
  - apply not_true_iff_false in E1, E2. rewrite qltP in E1, E2.
    assert (os_successRate b == os_successRate r)%Q as Heq
      by (apply Qle_antisym; apply Qnot_lt_le; done).
    destruct (os_costPerSuccess b), (os_costPerSuccess r); cbn; rewrite ?qltP; naive_solver.
Qed.

Lemma cheaper_weak x y z : cheaper x y → ¬ cheaper z y → cheaper x z.
Proof.
  destruct x, y, z; cbn; try done; try naive_solver.
  intros H H'%Qnot_lt_le. by eapply Qlt_le_trans.
Qed.
(** [better] is a strict weak order. *)
Lemma better_weak x y z : better x y → ¬ better z y → better x z.
Proof.
  unfold better. intros Hxy Hzy.
  assert (os_successRate z <= os_successRate y)%Q as Hle.
  { apply Qnot_lt_le. intros H. apply Hzy. by left. }
  destruct Hxy as [Hxy|[Hxy Hc]]; [left; by eapply Qle_lt_trans|].
  apply Qle_lteq in Hle as [Hlt|Heq]; [left; by rewrite <- Hxy|].
  right. split; [by rewrite Heq|]. eapply cheaper_weak; [done|]. intros H. apply Hzy. right. by split.
Qed.
Lemma better_asym x y : better x y → ¬ better y x.
Proof.
  intros [H|[H Hc]] [H'|[H' Hc']].
  - by eapply Qlt_irrefl, Qlt_trans.
  - rewrite H' in H. by apply Qlt_irrefl in H.
  - rewrite H in H'. by apply Qlt_irrefl in H'.
  - destruct (os_costPerSuccess x), (os_costPerSuccess y); cbn in *; try done. by eapply Qlt_irrefl, Qlt_trans.
Qed.
Lemma best_from rows b0 b :
  fold_left (λ best row, match best with
                         | None => Some row
                         | Some b => if outranks row b then Some row else Some b
                         end) rows (Some b0) = Some b →
  (b = b0 ∧ ∀ r, r ∈ rows → ¬ better r b0)
  ∨ ∃ l1 l2, rows = l1 ++ b :: l2 ∧ better b b0 ∧ (∀ r, r ∈ l1 → better b r) ∧ ∀ r, r ∈ l2 → ¬ better r b.
Proof.
  revert b0. induction rows as [|x rows IH]; intros b0; cbn [fold_left].
  - intros [= ->]. left. split; [done|]. intros r []%elem_of_nil.
  - destruct (outranks x b0) eqn:E.
    + apply outranksP in E. intros [[-> H]|(l1 & l2 & -> & Hb & H1 & H2)]%IH; right.
      * exists [], rows. split_and!; try done. intros r []%elem_of_nil.
      * exists (x :: l1), l2. split_and!; try done.
        -- eapply better_weak; [exact Hb|]. by apply better_asym.
        -- intros r [->|?]%elem_of_cons; [done|by apply H1].
    + apply not_true_iff_false in E. rewrite outranksP in E. intros [[-> H]|(l1 & l2 & -> & Hb & H1 & H2)]%IH.
      * left. split; [done|]. intros r [->|?]%elem_of_cons; [done|by apply H].
      * right. exists (x :: l1), l2. split_and!; try done.
        intros r [->|?]%elem_of_cons; [by eapply better_weak|by apply H1].
Qed.

(** The first of the best. *)
Lemma best_row_spec rows b : best_row rows = Some b →
  ∃ l1 l2, rows = l1 ++ b :: l2 ∧ (∀ r, r ∈ l1 → better b r) ∧ ∀ r, r ∈ l2 → ¬ better r b.
Proof.
  destruct rows as [|x rows]; [done|]. unfold best_row. cbn [fold_left].
  intros [[-> H]|(l1 & l2 & -> & Hb & H1 & H2)]%best_from.
  - exists [], rows. split_and!; try done. intros r []%elem_of_nil.
  - exists (x :: l1), l2. split_and!; try done. intros r [->|?]%elem_of_cons; [done|by apply H1].
Qed.
Lemma best_row_some rows : rows ≠ [] → is_Some (best_row rows).
Proof.
  destruct rows as [|x rows]; [done|]. intros _. unfold best_row. cbn [fold_left]. revert x.
  induction rows as [|y rows IH]; intros x; cbn [fold_left]; [by eexists|]. destruct (outranks y x); apply IH.
Qed.

(** ** The pool *)

Lemma MODEL_SEATS_slug slug c : MODEL_SEATS slug = Some c → seat_slug (cs_seat c) = slug.
Proof. unfold MODEL_SEATS. intros [_ H]%find_some. by bools. Qed.

Lemma candidates_seated t slug : slug ∈ CANDIDATES t → is_Some (MODEL_SEATS slug).
Proof.
  assert (forallb (λ s, negb (is_null (MODEL_SEATS s))) (CANDIDATES t) = true) as H by (by destruct t; vm_compute).
  intros Hs%list_elem_of_In. apply (proj1 (forallb_forall _ _) H) in Hs. by destruct (MODEL_SEATS slug).
Qed.

Lemma eligible_unfiltered t slug :
  slug ∈ eligibleModelsForTaskType t None ↔ slug ∈ CANDIDATES t ∧ slug ∉ EXCLUDED_MODELS t.
Proof.
  cbn [eligibleModelsForTaskType]. rewrite list_elem_of_In, filter_In, <- list_elem_of_In, negb_true_iff, bool_decide_eq_false.
  done.
Qed.
Lemma elem_of_slugsForProfiles slugs allowed slug :
  slug ∈ slugsForProfiles slugs allowed ↔ slug ∈ slugs ∧ has_profile allowed slug = true.
Proof.
  unfold slugsForProfiles. destruct allowed as [|p allowed].
  - split; [by intros []%elem_of_nil|]. intros [_ H]. unfold has_profile in H. destruct (MODEL_SEATS slug); [|done].
    bools. by match goal with H : _ ∈ [] |- _ => apply elem_of_nil in H end.
  - by rewrite list_elem_of_In, filter_In, <- list_elem_of_In.
Qed.

(** An entitlement keeps the members it names, unless none is left. *)
Lemma eligible_filtered t allowed slug : slug ∈ eligibleModelsForTaskType t (Some allowed) →
  slug ∈ eligibleModelsForTaskType t None
  ∧ ((∃ s, s ∈ eligibleModelsForTaskType t None ∧ has_profile allowed s = true) → has_profile allowed slug = true).
Proof.
  unfold eligibleModelsForTaskType. set (el := List.filter _ (CANDIDATES t)).
  pose proof (elem_of_slugsForProfiles el allowed) as Hf.
  destruct (slugsForProfiles el allowed) as [|s l]; intros Hs.
  - split; [done|]. intros (s & Hs'). apply Hf in Hs' as []%elem_of_nil.
  - apply Hf in Hs as [Hs Hp]. by split.
Qed.
Lemma eligible_pool t allowed slug : slug ∈ eligibleModelsForTaskType t allowed →
  slug ∈ CANDIDATES t ∧ slug ∉ EXCLUDED_MODELS t.
Proof. destruct allowed; [intros [H _]%eligible_filtered|intros H]; by apply eligible_unfiltered. Qed.
Lemma eligible_nonempty t allowed : eligibleModelsForTaskType t allowed ≠ [].
Proof.
  assert (eligibleModelsForTaskType t None ≠ []) as H by by destruct t.
  destruct allowed as [l|]; [|done]. unfold eligibleModelsForTaskType in *.
  by destruct (slugsForProfiles _ l).
Qed.
Lemma eligible_seated t allowed slug : slug ∈ eligibleModelsForTaskType t allowed →
  ∃ c, MODEL_SEATS slug = Some c ∧ seatForSlug slug = Some (cs_seat c) ∧ seat_slug (cs_seat c) = slug.
Proof.
  intros [Hs _]%eligible_pool. destruct (candidates_seated t slug Hs) as [c Hc]. exists c.
  unfold seatForSlug. rewrite Hc. split_and!; try done. by apply MODEL_SEATS_slug.
Qed.

(** A selection whose model is the seat of an eligible slug. *)
Definition from_pool (slugs : list string) (sel : ModelSelection) : Prop :=
  seat_slug (ms_model sel) ∈ slugs
  ∧ ∃ c, MODEL_SEATS (seat_slug (ms_model sel)) = Some c ∧ cs_seat c = ms_model sel.

Section Pool.
Context (t : TaskType) (allowed : option (list QualityProfile)).
Let slugs := eligibleModelsForTaskType t allowed.

Lemma seat_from_pool slug m r n : slug ∈ slugs → seatForSlug slug = Some m →
  from_pool slugs (mkSelection m r n).
Proof.
  intros Hs Hm. destruct (eligible_seated t allowed slug Hs) as (c & Hc & Hm' & Hslug).
  rewrite Hm in Hm'. injection Hm' as ->. unfold from_pool. cbn. rewrite Hslug. by eauto.
Qed.

Lemma exploit_seed_eligible : ∃ s, exploit_seed t slugs = Some s ∧ seat_slug s ∈ slugs
  ∧ (∀ r n, from_pool slugs (mkSelection s r n)).
Proof.
  assert (∃ s c, seedModel t = Some s ∧ MODEL_SEATS (seat_slug s) = Some c ∧ cs_seat c = s) as (s & c & Hs & Hc & Hcs).
  { destruct t; cbn; by eauto 6. }
  unfold exploit_seed. rewrite Hs. cbn. case_bool_decide as He.
  - exists s. split_and!; try done. intros r n. split; [done|]. eauto.
  - pose proof (eligible_nonempty t allowed) as Hn. fold slugs in Hn. destruct slugs as [|x l] eqn:El; [done|].
    cbn. assert (x ∈ eligibleModelsForTaskType t allowed) as Hx by (fold slugs; rewrite El; by left).
    destruct (eligible_seated t allowed x Hx) as (c' & Hc' & Hm & Hx'). exists (cs_seat c'). split; [done|].
    rewrite Hx'. split; [by left|]. intros r n. rewrite <- El. apply (seat_from_pool x); [by fold slugs in Hx|done].
Qed.
End Pool.

(** ** The selection *)

Definition seed_rate (slugs : list string) (stats : list ModelOutcomeStatsRow) (s : ModelSeat) : Q :=
  match row_of (eligible_rows slugs stats) (seat_slug s) with Some row => os_successRate row | None => 0%Q end.

(** Why the exploit step picks what it picks: the seed when no qualified row
    beats its rate, else the first of the best qualified rows. *)
Definition explained (slugs : list string) (stats : list ModelOutcomeStatsRow) (minRuns : Z) (s : ModelSeat)
    (e : ModelSelection) : Prop :=
  let qualified := qualified_rows slugs minRuns stats in
  match ms_reason e with
  | seed => ms_model e = s ∧ ∀ r, r ∈ qualified → (os_successRate r <= seed_rate slugs stats s)%Q
  | best_from_data =>
      ∃ l1 b l2, qualified = l1 ++ b :: l2 ∧ os_executeModel b = Some (seat_slug (ms_model e))
        ∧ ms_runCount e = Some (os_runCount b) ∧ minRuns ≤ os_runCount b
        ∧ (seed_rate slugs stats s < os_successRate b)%Q
        ∧ (∀ r, r ∈ l1 → better b r) ∧ ∀ r, r ∈ l2 → ¬ better r b
  | exploring => False
  end.

Lemma elem_of_qualified slugs minRuns stats r : r ∈ qualified_rows slugs minRuns stats →
  r ∈ stats ∧ minRuns ≤ os_runCount r ∧ ∃ m, os_executeModel r = Some m ∧ m ∈ slugs.
Proof.
  unfold qualified_rows, eligible_rows. rewrite list_elem_of_In, !filter_In, <- list_elem_of_In.
  intros [[Hr Hm] Hc]. bools. split_and!; try done. destruct (os_executeModel r) as [m|]; [|done]. bools. eauto.
Qed.

Lemma not_better_rate r b : ¬ better r b → (os_successRate r <= os_successRate b)%Q.
Proof. intros H. apply Qnot_lt_le. intros H'. apply H. by left. Qed.
Lemma better_rate b r : better b r → (os_successRate r <= os_successRate b)%Q.
Proof. intros [H|[H _]]; [by apply Qlt_le_weak|]. rewrite H. apply Qle_refl. Qed.

Lemma decideExploit_explained t allowed stats minRuns :
  let slugs := eligibleModelsForTaskType t allowed in
  ∃ s e, exploit_seed t slugs = Some s ∧ decideExploit t slugs stats minRuns = Some e
    ∧ from_pool slugs e ∧ explained slugs stats minRuns s e.
Proof.
  intros slugs. destruct (exploit_seed_eligible t allowed) as (s & Hs & Hin & Hpool). fold slugs in Hs, Hin, Hpool.
  exists s. unfold decideExploit. rewrite Hs. cbn [mbind option_bind].
  destruct (qualified_rows slugs minRuns stats) as [|q qs] eqn:Eq.
  { eexists. split_and!; [done|done|apply Hpool|]. split; [done|]. rewrite Eq. by intros r []%elem_of_nil. }
  destruct (best_row_some (q :: qs) ltac:(done)) as [b Hb]. rewrite Hb. fold (seed_rate slugs stats s).
  apply best_row_spec in Hb as (l1 & l2 & Hl & H1 & H2).
  assert (Hbq : b ∈ qualified_rows slugs minRuns stats) by (rewrite Eq, Hl; set_solver).
  apply elem_of_qualified in Hbq as (_ & Hruns & m & Hm & Hms).
  destruct (qlt (seed_rate slugs stats s) (os_successRate b)) eqn:Ec.
  - apply qltP in Ec. destruct (eligible_seated t allowed m Hms) as (c & _ & Hseat & Hslug).
    rewrite Hm. cbn [mbind option_bind]. rewrite Hseat. cbn [mbind option_bind].
    eexists. split_and!; [done|done|by apply (seat_from_pool t allowed m)|].
    unfold explained. cbn. rewrite Eq, Hslug. exists l1, b, l2. by split_and!.
  - apply not_true_iff_false in Ec. rewrite qltP in Ec. apply Qnot_lt_le in Ec.
    eexists. split_and!; [done|done|apply Hpool|]. split; [done|]. rewrite Eq, Hl.
    intros r [Hr|[->|Hr]%elem_of_cons]%elem_of_app; [|done|].
    + eapply Qle_trans; [by apply better_rate, H1|done].
    + eapply Qle_trans; [by apply not_better_rate, H2|done].
Qed.

(** ** Exploration *)

Lemma min_of_le x l y : y ∈ x :: l → min_of x l ≤ y.
Proof.
  revert x. induction l as [|z l IH]; intros x Hy; cbn.
  - apply list_elem_of_singleton in Hy. lia.
  - apply elem_of_cons in Hy as [->|Hy]; [lia|]. specialize (IH z Hy). lia.
Qed.
Lemma min_of_in x l : min_of x l ∈ x :: l.
Proof.
  revert x. induction l as [|z l IH]; intros x; cbn; [by left|].
  destruct (Z.min_spec x (min_of z l)) as [[_ ->]|[_ ->]]; [by left|]. right. apply IH.
Qed.

Lemma elem_of_least_sampled stats candidates slug :
  slug ∈ least_sampled stats candidates ↔
  slug ∈ candidates ∧ ∀ s, s ∈ candidates → runCountForSlug stats slug ≤ runCountForSlug stats s.
Proof.
  unfold least_sampled. destruct candidates as [|c cs]; cbn [fmap list_fmap].
  { split; [by intros []%elem_of_nil|by intros [[]%elem_of_nil _]]. }
  rewrite list_elem_of_In, filter_In, <- list_elem_of_In, Z.eqb_eq.
  set (n := runCountForSlug stats c). set (ns := runCountForSlug stats <$> cs).
  assert (Hmin : ∀ s, s ∈ c :: cs → min_of n ns ≤ runCountForSlug stats s).
  { intros s Hs. apply min_of_le. change (n :: ns) with (runCountForSlug stats <$> (c :: cs)).
    apply list_elem_of_fmap. eauto. }
  split; intros [Hs H]; split; try done.
  - intros s' Hs'. rewrite H. by apply Hmin.
  - pose proof (min_of_in n ns) as Hi. change (n :: ns) with (runCountForSlug stats <$> (c :: cs)) in Hi.
    apply list_elem_of_fmap in Hi as (s' & He & Hs'). specialize (H s' Hs'). specialize (Hmin slug Hs). lia.
Qed.

Lemma elem_of_alternatives (slugs : list string) exclude s :
  s ∈ List.filter (λ slug, slug ≢? exclude) slugs ↔ s ∈ slugs ∧ s ≠ exclude.
Proof. by rewrite list_elem_of_In, filter_In, <- list_elem_of_In, negb_true_iff, bool_decide_eq_false. Qed.

(** The index of the draw is in range, and every index has a draw. *)
Lemma draw_index (n : Z) (r : Q) : 0 < n → 0 ≤ Z.max (Z.min (math_floor (r * inject_Z n)%Q) (n - 1)) 0 < n.
Proof. lia. Qed.
Lemma draw_hits (n i : Z) : 0 ≤ i < n →
  let r := (inject_Z i / inject_Z n)%Q in
  (0 <= r < 1)%Q ∧ Z.max (Z.min (math_floor (r * inject_Z n)%Q) (n - 1)) 0 = i.
Proof.
  intros Hi r. assert (Hn : (0 < inject_Z n)%Q) by (unfold Qlt; cbn; lia).
  split; [split|].
  - apply Qle_shift_div_l; [done|]. unfold Qle; cbn; lia.
  - apply Qlt_shift_div_r; [done|]. unfold Qlt; cbn; lia.
  - assert (math_floor (r * inject_Z n)%Q = i) as ->; [|lia].
    unfold math_floor. rewrite (Qfloor_comp _ (inject_Z i)); [apply Qfloor_Z|].
    unfold r. rewrite Qmult_comm. apply Qmult_div_r. intros H. rewrite H in Hn. by apply Qlt_irrefl in Hn.
Qed.

Lemma pick_sound slugs exclude stats r s : pickExplorationTarget slugs exclude stats r = Some s →
  s ∈ slugs ∧ s ≠ exclude
  ∧ ∀ s', s' ∈ slugs → s' ≠ exclude → runCountForSlug stats s ≤ runCountForSlug stats s'.
Proof.
  unfold pickExplorationTarget. pose proof (elem_of_alternatives slugs exclude) as Ha.
  destruct (List.filter _ slugs) as [|c cs]; [done|].
  intros H%list_elem_of_lookup_2%elem_of_least_sampled. destruct H as [Hs Hmin].
  split_and!; [by apply Ha|by apply Ha|]. intros s' ? ?. apply Hmin, Ha. by split.
Qed.
Lemma pick_complete slugs exclude stats s : s ∈ slugs → s ≠ exclude →
  (∀ s', s' ∈ slugs → s' ≠ exclude → runCountForSlug stats s ≤ runCountForSlug stats s') →
  ∃ r, (0 <= r < 1)%Q ∧ pickExplorationTarget slugs exclude stats r = Some s.
Proof.
  intros Hs Hne Hmin. unfold pickExplorationTarget. pose proof (elem_of_alternatives slugs exclude) as Ha.
  destruct (List.filter _ slugs) as [|c cs].
  { exfalso. assert (s ∈ []) as []%elem_of_nil by (apply Ha; by split). }
  assert (Hl : s ∈ least_sampled stats (c :: cs)).
  { apply elem_of_least_sampled. split; [apply Ha; by split|]. intros s' [? ?]%Ha. by apply Hmin. }
  apply list_elem_of_lookup_1 in Hl as [i Hi]. pose proof (lookup_lt_Some _ _ _ Hi) as Hlt.
  destruct (draw_hits (count (least_sampled stats (c :: cs))) (Z.of_nat i)) as [Hr He].
  { unfold count. lia. }
  eexists. split; [exact Hr|]. rewrite He. by rewrite Nat2Z.id.
Qed.

(** The two ways a selection ends: on the exploit decision, or on the seat of the
    explored slug. *)
Lemma select_cases t allowed minRuns rate r1 r2 stats :
  let slugs := eligibleModelsForTaskType t allowed in
  ∃ s e sel, exploit_seed t slugs = Some s ∧ decideExploit t slugs stats minRuns = Some e
    ∧ from_pool slugs e ∧ explained slugs stats minRuns s e
    ∧ selectExecuteModel t allowed minRuns rate r1 r2 (Some stats) = Some sel
    ∧ (sel = e ∧ (qlt r1 rate = true → pickExplorationTarget slugs (seat_slug (ms_model e)) stats r2 = None)
       ∨ qlt r1 rate = true ∧ from_pool slugs sel ∧ ms_reason sel = exploring
         ∧ pickExplorationTarget slugs (seat_slug (ms_model e)) stats r2 = Some (seat_slug (ms_model sel))).
Proof.
  intros slugs. destruct (decideExploit_explained t allowed stats minRuns) as (s & e & Hs & He & Hp & Hx).
  fold slugs in Hs, He, Hp, Hx. exists s, e. unfold selectExecuteModel. fold slugs. cbn [mbind option_bind].
  rewrite He. cbn [mbind option_bind].
  destruct (qlt r1 rate) eqn:Er; [|exists e; split_and!; try done; by left].
  destruct (pickExplorationTarget slugs (seat_slug (ms_model e)) stats r2) as [x|] eqn:Ex;
    [|exists e; split_and!; try done; by left].
  pose proof (pick_sound _ _ _ _ _ Ex) as (Hin & Hne & _).
  destruct (eligible_seated t allowed x Hin) as (c & Hc & Hm & Hslug).
  assert (x ≠ "") as Hx0 by (intros ->; discriminate Hc). destruct x as [|a x]; [done|].
  rewrite Hm. cbn [mbind option_bind]. eexists. split_and!; try done. right. cbn [ms_model ms_reason].
  split_and!; try done; [by apply (seat_from_pool t allowed (String a x))|by rewrite Hslug].
Qed.

Lemma select_from_pool t allowed minRuns rate r1 r2 stats :
  ∃ sel c, selectExecuteModel t allowed minRuns rate r1 r2 (Some stats) = Some sel
    ∧ MODEL_SEATS (seat_slug (ms_model sel)) = Some c ∧ cs_seat c = ms_model sel
    ∧ seat_slug (ms_model sel) ∈ CANDIDATES t ∧ seat_slug (ms_model sel) ∉ EXCLUDED_MODELS t
    ∧ ∀ l, allowed = Some l →
        (∃ s, s ∈ eligibleModelsForTaskType t None ∧ has_profile l s = true) → cs_profile c ∈ l.
Proof.
  destruct (select_cases t allowed minRuns rate r1 r2 stats) as (s & e & sel & _ & _ & Hp & _ & Hsel & Hc).
  assert (from_pool (eligibleModelsForTaskType t allowed) sel) as [Hin (c & Hseat & Hcs)].
  { destruct Hc as [[-> _]|(_ & Hf & _)]; done. }
  exists sel, c. pose proof (eligible_pool _ _ _ Hin) as [Hcand Hex].
  split_and!; try done. intros l -> Hl. apply eligible_filtered in Hin as [_ Hin]. specialize (Hin Hl).
  unfold has_profile in Hin. rewrite Hseat in Hin. by bools.
Qed.

(** C7 (safety).  Whatever the outcomes recorded, whatever the draws, the
    threshold and the rate of exploration: a selection whose statistics can be
    read never throws, and its model is the listed seat of a candidate of the task
    type that is not excluded - never the Haiku model for work on the interface.
    Where a plan's profiles are given and some candidate has one, the model has
    one of them. *)
Theorem selection_within_pool t allowed minRuns rate r1 r2 stats :
  ∃ sel c, selectExecuteModel t allowed minRuns rate r1 r2 (Some stats) = Some sel
    ∧ MODEL_SEATS (seat_slug (ms_model sel)) = Some c ∧ cs_seat c = ms_model sel
    ∧ seat_slug (ms_model sel) ∈ CANDIDATES t ∧ (t = ui → seat_slug (ms_model sel) ≠ HAIKU_SLUG)
    ∧ ∀ l, allowed = Some l →
        (∃ s, s ∈ eligibleModelsForTaskType t None ∧ has_profile l s = true) → cs_profile c ∈ l.
Proof.
  destruct (select_from_pool t allowed minRuns rate r1 r2 stats) as (sel & c & Hsel & Hseat & Hcs & Hcand & Hex & Hp).
  exists sel, c. split_and!; try done. intros -> He. apply Hex. rewrite He. by left.
Qed.

(** C12 (functional).  The exploit step is an argmax with the seed as its bar.  A
    selection that is not an exploration is the seed of the task type - the first
    eligible candidate when the seed is filtered out - and then no eligible model
    with enough runs has a better rate than the seed's own; or it is the model of
    the first best of the rows with enough runs, by rate and then by cost per
    success, a model that never succeeded losing every tie, and its rate is
    strictly better than the seed's. *)
Theorem exploit_is_best t allowed minRuns rate r1 r2 stats :
  let slugs := eligibleModelsForTaskType t allowed in
  ∃ s sel, selectExecuteModel t allowed minRuns rate r1 r2 (Some stats) = Some sel
    ∧ (seedModel t = Some s ∨ (∀ d, seedModel t = Some d → seat_slug d ∉ slugs) ∧ head slugs = Some (seat_slug s))
    ∧ (ms_reason sel ≠ exploring → explained slugs stats minRuns s sel).
Proof.
  intros slugs. destruct (select_cases t allowed minRuns rate r1 r2 stats) as (s & e & sel & Hs & _ & _ & Hx & Hsel & Hc).
  exists s, sel. split_and!; [done| |destruct Hc as [[-> _]|(_ & _ & Hr & _)]; [done|by intros []]].
  fold slugs in Hs. unfold exploit_seed in Hs. destruct (seedModel t) as [d|]; [|done]. cbn in Hs.
  case_bool_decide as He; [by left|]. right. split; [by intros ? [= <-]|].
  destruct slugs as [|x l]; [done|]. cbn [head] in *. cbn [mbind option_bind] in Hs. f_equal.
  unfold seatForSlug in Hs. apply fmap_Some in Hs as (c & Ec & ->).
  symmetry. by apply MODEL_SEATS_slug.
Qed.

(** Exploration starves no arm.  When the first draw falls
    under the rate of exploration, the models a second draw can lead to are
    exactly the eligible ones other than the exploit pick with the fewest runs:
    every such model is chosen by some draw, and nothing else ever is. *)
Theorem exploration_least_tried t allowed minRuns rate r1 stats slug : qlt r1 rate = true →
  let slugs := eligibleModelsForTaskType t allowed in
  ∃ e, decideExploit t slugs stats minRuns = Some e
  ∧ ((∃ r2 sel, (0 <= r2 < 1)%Q ∧ selectExecuteModel t allowed minRuns rate r1 r2 (Some stats) = Some sel
        ∧ ms_reason sel = exploring ∧ seat_slug (ms_model sel) = slug)
     ↔ slug ∈ slugs ∧ slug ≠ seat_slug (ms_model e)
       ∧ ∀ s, s ∈ slugs → s ≠ seat_slug (ms_model e) → runCountForSlug stats slug ≤ runCountForSlug stats s).
Proof.
  intros Hr1 slugs. destruct (decideExploit_explained t allowed stats minRuns) as (s & e & _ & He & _ & Hx).
  fold slugs in He, Hx. exists e. split; [done|]. split.
  - intros (r2 & sel & _ & Hsel & Hreason & <-).
    destruct (select_cases t allowed minRuns rate r1 r2 stats) as (s' & e' & sel' & _ & He' & _ & Hx' & Hsel' & Hc).
    fold slugs in He', Hc, Hx'. rewrite He in He'. injection He' as <-. rewrite Hsel in Hsel'. injection Hsel' as <-.
    destruct Hc as [[-> _]|(_ & _ & _ & Hpick)]; [|by apply pick_sound in Hpick].
    unfold explained in Hx'. by rewrite Hreason in Hx'.
  - intros (Hin & Hne & Hmin). destruct (pick_complete slugs _ stats slug Hin Hne Hmin) as (r2 & Hr & Hpick).
    destruct (select_cases t allowed minRuns rate r1 r2 stats) as (s' & e' & sel & _ & He' & _ & _ & Hsel & Hc).
    fold slugs in He', Hc. rewrite He in He'. injection He' as <-. exists r2, sel.
    destruct Hc as [[_ Hn]|(_ & _ & Hreason & H)]; [specialize (Hn Hr1); congruence|].
    rewrite Hpick in H. by injection H as ->.
Qed.

(** ** The brief *)

Lemma flags_on env ws : isModelSelectionLearningEnabled (Some ws) env = true → ws ≠ "" →
  truthy_text (Some ws) = Some ws.
Proof. by destruct ws. Qed.

(** Every plan leaves a candidate of every task type. *)
Lemma plan_serves plan t : ∃ s, s ∈ eligibleModelsForTaskType t None
  ∧ has_profile (allowedProfilesFor (mergePolicyOverrides (PLAN_POLICIES plan) (JObj [])) (classifyTaskProfile t)) s = true.
Proof.
  assert (existsb (has_profile (allowedProfilesFor (mergePolicyOverrides (PLAN_POLICIES plan) (JObj [])) (classifyTaskProfile t)))
    (eligibleModelsForTaskType t None) = true) as H by (destruct plan, t; by vm_compute).
  apply existsb_exists in H as (s & Hs & Hp). exists s. split; [by apply list_elem_of_In|done].
Qed.

Lemma allowed_set_economics e p c : allowedProfilesFor (set_economics e p) c = allowedProfilesFor p c.
Proof. by destruct p. Qed.

(** The brief proposes what was sold.  When learning is on for a
    workspace and subscriptions are enforced, and the account's plan has no
    override and its spend could be read, the brief gets a model whatever the
    outcomes and the draws: one whose profile the plan is entitled to, which does
    not rank above what the task calls for, and which its task type lists. *)
Theorem brief_model_entitled env input ws id a spend r1 r2 stats spent :
  isModelSelectionLearningEnabled (Some ws) env = true → ws ≠ "" → subscriptionsEnforced env = true →
  ba_policy_overrides a = JObj [] → spend id = Some spent →
  ∃ b c, resolveModelSelectionForBrief env input (Some ws)
           (Some (resolvePolicyForWorkspace (Some (Some (id, a))) spend)) r1 r2 (Some stats) = Some b
    ∧ MODEL_SEATS (seat_slug (mb_model b)) = Some c ∧ cs_seat c = mb_model b
    ∧ seat_slug (mb_model b) ∈ CANDIDATES (classifyTaskType input)
    ∧ entitled (qualityProfiles (PLAN_POLICIES (ba_plan a))) (cs_profile c) = true
    ∧ rankOf (cs_profile c) ≤ rankOf (classifyTaskProfile (classifyTaskType input)).
Proof.
  intros Hl Hws Hsub Ho Hspend. set (t := classifyTaskType input).
  set (policy := mergePolicyOverrides (PLAN_POLICIES (ba_plan a)) (JObj [])).
  set (allowed := allowedProfilesFor policy (classifyTaskProfile t)).
  destruct (select_from_pool t (Some allowed) DEFAULT_MIN_RUNS DEFAULT_EXPLORATION_RATE r1 r2 stats)
    as (sel & c & Hsel & Hseat & Hcs & Hcand & _ & Hprof).
  specialize (Hprof allowed eq_refl (plan_serves (ba_plan a) t)).
  exists (mkBriefSelection (ms_model sel) (describeModelSelection t sel DEFAULT_MIN_RUNS)), c.
  unfold resolveModelSelectionForBrief. rewrite flags_on with (env := env), Hl, Hsub by done. cbn [negb].
  unfold resolvePolicyForWorkspace. rewrite Ho, Hspend. cbn [fmap option_fmap option_map mbind option_bind resolveAdmissionFilter rp_degraded is_null rp_policy].
  rewrite allowed_set_economics. fold t policy allowed. rewrite Hsel. cbn [mbind option_bind mb_model].
  split_and!; try done; apply elem_of_allowed in Hprof as [He Hr].
  - by destruct (ba_plan a).
  - unfold effective_profile in Hr. destruct (_ && _) eqn:E; [apply andb_true_iff in E as [E _]; bools|];
      destruct Hr as [->|[_ ?]]; lia.
Qed.

(** ** Overrides *)

Lemma elem_of_all_eligible slug : slug ∈ allEligibleModelSlugs ↔ ∃ t, slug ∈ eligibleModelsForTaskType t None.
Proof.
  assert (forallb (λ s, existsb (λ t, bool_decide (s ∈ eligibleModelsForTaskType t None)) ALL_TASK_TYPES)
    allEligibleModelSlugs = true) as H1 by by vm_compute.
  assert (∀ t, forallb (λ s, bool_decide (s ∈ allEligibleModelSlugs)) (eligibleModelsForTaskType t None) = true) as H2
    by (intros []; by vm_compute).
  split.
  - intros Hs%list_elem_of_In. apply (proj1 (forallb_forall _ _) H1), existsb_exists in Hs as (t & _ & Ht).
    exists t. by bools.
  - intros (t & Hs%list_elem_of_In). apply (proj1 (forallb_forall _ _) (H2 t)) in Hs. by bools.
Qed.

(** A user's model is accepted exactly when it differs from the model
    that reviews and some task type would pick it by itself; a collision with the
    reviewing model is refused first, with its own reason, and everything else
    with the list of what is known.  In particular the two models of an accepted
    run are never the same. *)
Theorem override_exact overrideSlug verify :
  match validateOverride overrideSlug verify with
  | override_ok => overrideSlug ≠ verify ∧ ∃ t, overrideSlug ∈ CANDIDATES t ∧ overrideSlug ∉ EXCLUDED_MODELS t
  | override_refused reason =>
      overrideSlug = verify ∧ reason = verify_collision overrideSlug
      ∨ overrideSlug ≠ verify ∧ reason = unknown_model overrideSlug
        ∧ ∀ t, overrideSlug ∈ CANDIDATES t → overrideSlug ∈ EXCLUDED_MODELS t
  end.
Proof.
  unfold validateOverride. case_bool_decide as Hv; [by left|]. case_bool_decide as Hm; cbn [negb].
  - split; [done|]. apply elem_of_all_eligible in Hm as [t Ht]. exists t. by apply eligible_unfiltered.
  - right. split_and!; try done. intros t Ht. destruct (decide (overrideSlug ∈ EXCLUDED_MODELS t)) as [|Hx]; [done|].
    exfalso. apply Hm, elem_of_all_eligible. exists t. by apply eligible_unfiltered.
Qed.

(** The refusal says that overrides are catalogue-only; seven of the ten models
    that are accepted are in no seat of the catalogue. *)
Theorem override_beyond_catalog :
  validateOverride "openai/gpt-5.1-codex" "anthropic/claude-opus-4.8" = override_ok
  ∧ ∀ t, seat_slug (MODEL_CATALOG t) ≠ "openai/gpt-5.1-codex".
Proof. split; [by vm_compute|]. by intros []. Qed.

(** The check the module makes when it is loaded never fires. *)
Theorem seeds_in_their_pools t :
  ∃ c, seedModel t = Some (cs_seat c) ∧ isModelEligibleForTaskType (seat_slug (cs_seat c)) t = true
    ∧ MODEL_SEATS (seat_slug (cs_seat c)) = Some c.
Proof. destruct t; eexists; (split; [reflexivity|]); split; by vm_compute. Qed.

(** ** Samples *)

Module SampleChoice.
Definition run (q m : string) (o : RunOutcomeValue) : RunOutcome :=
  mkRunOutcome q "ws" (Some "ui") (Some m) o 2.
Definition kimi := "moonshotai/kimi-k2.7-code".
Definition glm := "z-ai/glm-5.2".
(** Five runs of the seed, two of them good, and five of another, four good. *)
Definition reports : list (bool * RunOutcome) :=
  [(true, run "q1" kimi success); (true, run "q2" kimi success); (true, run "q3" kimi failed);
   (true, run "q4" kimi failed); (true, run "q5" kimi human_review); (true, run "q1" kimi failed);
   (false, run "q0" glm failed); (true, run "r1" glm success); (true, run "r2" glm success);
   (true, run "r3" glm success); (true, run "r4" glm success); (true, run "r5" glm failed)].
Definition stats := getModelOutcomeStats (Some "ws") (Some "ui") (record_all reports []).
Definition starter_account : BillingAccount := mkBillingAccount "acme" starter None None (Some "active") None 0 (JObj []) 0 0.
Definition env := mkFlagEnv (Some "true") None (Some "1").
Definition task := mkTaskInput "Redesign the settings page" "Restructure the modal" [].
Definition proven_seed : ModelOutcomeStatsRow := mkStats (Some "ui") (Some kimi) 12 12 1 2 (Some 2%Q).
End SampleChoice.

Example learnt_model :
  option_map (λ s, (seat_slug (ms_model s), ms_runCount s))
    (selectExecuteModel ui None 5 (1 # 10) (1 # 2) 0 (Some SampleChoice.stats)) = Some ("z-ai/glm-5.2", Some 5).
Proof. by vm_compute. Qed.

Lemma stats_are_outcomes_witness :
  "ws" ≠ "" ∧ "ui" ≠ "" ∧ NoDup (ro_queue_entry_id <$> record_all SampleChoice.reports [])
  ∧ os_runCount <$> row_of SampleChoice.stats SampleChoice.kimi = Some 5.
Proof.
  assert (Hws : "ws" ≠ "") by discriminate. assert (Hui : "ui" ≠ "") by discriminate.
  pose proof (stats_are_outcomes SampleChoice.reports "ws" "ui" SampleChoice.kimi Hws Hui) as (Hn & _ & _).
  split; [exact Hws|split; [exact Hui|split; [exact Hn|vm_compute; reflexivity]]].
Defined.

Lemma exploration_least_tried_witness :
  qlt 0 (1 # 10) = true ∧
  ∃ e, decideExploit ui (eligibleModelsForTaskType ui None) SampleChoice.stats 5 = Some e
  ∧ ((∃ r2 sel, (0 <= r2 < 1)%Q ∧ selectExecuteModel ui None 5 (1 # 10) 0 r2 (Some SampleChoice.stats) = Some sel
        ∧ ms_reason sel = exploring ∧ seat_slug (ms_model sel) = "moonshotai/kimi-k3")
     ↔ "moonshotai/kimi-k3" ∈ eligibleModelsForTaskType ui None ∧ "moonshotai/kimi-k3" ≠ seat_slug (ms_model e)
       ∧ ∀ s, s ∈ eligibleModelsForTaskType ui None → s ≠ seat_slug (ms_model e) →
         runCountForSlug SampleChoice.stats "moonshotai/kimi-k3" ≤ runCountForSlug SampleChoice.stats s).
Proof.
  assert (H : qlt 0 (1 # 10) = true) by reflexivity. split; [exact H|].
  exact (exploration_least_tried ui None 5 (1 # 10) 0 SampleChoice.stats "moonshotai/kimi-k3" H).
Defined.

(** A Starter plan sells no premium model; the task is a refactoring, whose seed
    is one. *)
Lemma brief_model_entitled_witness :
  classifyTaskType SampleChoice.task = refactor ∧
  ∃ b c, resolveModelSelectionForBrief SampleChoice.env SampleChoice.task (Some "ws")
           (Some (resolvePolicyForWorkspace (Some (Some ("acct", SampleChoice.starter_account))) (λ _, Some 3%Q)))
           (1 # 2) 0 (Some []) = Some b
    ∧ MODEL_SEATS (seat_slug (mb_model b)) = Some c ∧ cs_seat c = mb_model b
    ∧ seat_slug (mb_model b) ∈ CANDIDATES (classifyTaskType SampleChoice.task)
    ∧ entitled (qualityProfiles (PLAN_POLICIES starter)) (cs_profile c) = true
    ∧ rankOf (cs_profile c) ≤ rankOf (classifyTaskProfile (classifyTaskType SampleChoice.task)).
Proof.
  assert (H1 : isModelSelectionLearningEnabled (Some "ws") SampleChoice.env = true) by (vm_compute; reflexivity).
  assert (H2 : "ws" ≠ "") by discriminate.
  assert (H3 : subscriptionsEnforced SampleChoice.env = true) by (vm_compute; reflexivity).
  split; [vm_compute; reflexivity|].
  exact (brief_model_entitled SampleChoice.env SampleChoice.task "ws" "acct" SampleChoice.starter_account
    (λ _, Some 3%Q) (1 # 2) 0 [] 3%Q H1 H2 H3 eq_refl eq_refl).
Defined.

(** The reason of a seed that has enough runs says that it has too few. *)
Theorem seed_with_data_misreported :
  option_map (λ s, describeModelSelection ui s DEFAULT_MIN_RUNS)
    (selectExecuteModel ui None DEFAULT_MIN_RUNS DEFAULT_EXPLORATION_RATE (1 # 2) 0 (Some [SampleChoice.proven_seed]))
  = Some "Kimi K2.7 Code — starting default (12 runs so far, below the 5-run threshold)".
Proof. by vm_compute. Qed.
