(* ===== verification/ModelPrice.v ===== *)
(** * ModelPrice: what a model costs, and what a task will

    The prices of the gateway ([alignment/openrouter-normalize.ts],
    [gateway-catalog.ts]), the price of a seat ([resolve-price.ts]) and the
    estimate of a brief ([estimate.ts]).  Numbers are exact rationals where the
    source has doubles; one whose magnitude a double cannot hold is infinite. *)

From S2P Require Import Prelude Regex Intake Policy JsonText JsonValue ModelPool.
From Stdlib Require Import QArith Ascii.
Open Scope Z_scope.

(** ** [Number(v)] where it is finite *)

Fixpoint span (p : ascii → bool) (l : list ascii) : list ascii * list ascii :=
  match l with
  | c :: l' => if p c then let '(a, b) := span p l' in (c :: a, b) else ([], l)
  | [] => ([], [])
  end.
Definition digit_value (c : ascii) : Z :=
  let n := Z.of_nat (nat_of_ascii c) in if n <? 58 then n - 48 else if n <? 71 then n - 55 else n - 87.
Definition digits_value (radix : Z) (l : list ascii) : Z := fold_left (λ acc c, acc * radix + digit_value c) l 0.
Definition sign_of (l : list ascii) : Z * list ascii :=
  match l with "-"%char :: r => (-1, r) | "+"%char :: r => (1, r) | _ => (1, l) end.

Definition scaled (m e : Z) : Q := if 0 <=? e then inject_Z (m * 10 ^ e) else m # Z.to_pos (10 ^ (- e)).
(** Half an ulp above the largest double, numbers round to infinity. *)
Definition finite (q : Q) : bool :=
  let bound := inject_Z (2 ^ 1024 - 2 ^ 970) in negb (Qle_bool bound q) && negb (Qle_bool q (- bound)).
Definition finitely (q : Q) : option Q := if finite q then Some q else None.

Definition exponent_of (l : list ascii) : option Z :=
  match l with
  | [] => Some 0
  | c :: r =>
      if one_of "eE" c then
        let '(s, r) := sign_of r in
        match span is_digit r with
        | (_ :: _ as ds, []) => Some (s * digits_value 10 ds)
        | _ => None
        end
      else None
  end.
Definition decimal_number (l : list ascii) : option Q :=
  let '(s, l) := sign_of l in
  let '(whole, l) := span is_digit l in
  let '(fraction, l) := match l with "."%char :: r => span is_digit r | _ => ([], l) end in
  match whole ++ fraction with
  | [] => None
  | ds => e ← exponent_of l; finitely (scaled (s * digits_value 10 ds) (e - Z.of_nat (length fraction)))
  end.
Definition radix_number (radix : Z) (p : ascii → bool) (l : list ascii) : option Q :=
  match span p l with (_ :: _ as ds, []) => finitely (inject_Z (digits_value radix ds)) | _ => None end.
Definition number_of_text (s : string) : option Q :=
  match String.list_ascii_of_string (trim s) with
  | [] => Some 0%Q
  | "0"%char :: c :: l =>
      if one_of "xX" c then radix_number 16 is_hex l
      else if one_of "oO" c then radix_number 8 (char_in "0" "7") l
      else if one_of "bB" c then radix_number 2 (char_in "0" "1") l
      else decimal_number ("0"%char :: c :: l)
  | l => decimal_number l
  end.

(** An element of an array is read through its text. *)
Fixpoint number_of_element (v : json) : option Q :=
  match v with
  | JNull => Some 0%Q
  | JBool _ | JObj _ => None
  | JNum q => Some q
  | JStr s => number_of_text s
  | JArr [] => Some 0%Q
  | JArr [x] => number_of_element x
  | JArr _ => None
  end.
(** [None] is not a number, or not finite. *)
Definition number_of (v : option json) : option Q :=
  match v with
  | None => None
  | Some (JBool b) => Some (if b then 1 else 0)%Q
  | Some v => number_of_element v
  end.

Definition truthy (v : option json) : bool :=
  match v with
  | None | Some JNull => false
  | Some (JBool b) => b
  | Some (JNum q) => negb (Qeq_bool q 0)
  | Some (JStr s) => negb (s ≡? "")
  | Some (JArr _ | JObj _) => true
  end.

(** ** The models of the gateway *)

Definition USD_PER_TOKEN_TO_USD_PER_MTOK : Q := inject_Z 1000000.
Record NormalizedTopProvider := mkTopProvider {
  tp_contextLength : Q;
  tp_maxCompletionTokens : option Q;
  tp_isModerated : bool;
}.
Record NormalizedCatalogModel := mkCatalogModel {
  cm_id : string;
  cm_inUsdPerMTok : Q;
  cm_outUsdPerMTok : Q;
  cm_contextLength : Q;
  cm_topProvider : NormalizedTopProvider;
}.

Definition million : Q := inject_Z 1000000.
Definition round6 (n : Q) : Q := (inject_Z (math_round (n * million)) / million)%Q.
Definition number_field (v : json) (key : string) : option Q :=
  match json_field v key with Some (JNum q) => Some q | _ => None end.

Definition normalizeOpenRouterModel (raw : json) : option NormalizedCatalogModel :=
  match json_field raw "id" with
  | Some (JStr (String _ _ as id)) =>
      let price key := number_of (json_field raw "pricing" ≫= λ p, json_field p key) in
      promptUsdPerToken ← price "prompt";
      completionUsdPerToken ← price "completion";
      contextLength ← number_field raw "context_length";
      topProviderRaw ← json_field raw "top_provider";
      topProviderContextLength ← number_field topProviderRaw "context_length";
      Some (mkCatalogModel id
        (round6 (promptUsdPerToken * USD_PER_TOKEN_TO_USD_PER_MTOK))
        (round6 (completionUsdPerToken * USD_PER_TOKEN_TO_USD_PER_MTOK))
        contextLength
        (mkTopProvider topProviderContextLength (number_field topProviderRaw "max_completion_tokens")
           (truthy (json_field topProviderRaw "is_moderated"))))
  | _ => None
  end.

Section Gateway.
(** [a.localeCompare(b)] *)
Variable localeCompare : string → string → Z.

(** [x] comes after the elements it does not precede: a stable sort. *)
Fixpoint insert_model (x : NormalizedCatalogModel) (l : list NormalizedCatalogModel) : list NormalizedCatalogModel :=
  match l with
  | y :: l' => if localeCompare (cm_id y) (cm_id x) <=? 0 then y :: insert_model x l' else x :: l
  | [] => [x]
  end.
Definition sort_models (l : list NormalizedCatalogModel) : list NormalizedCatalogModel :=
  fold_left (λ acc x, insert_model x acc) l [].

(** [None] is the exception of reading a property of null. *)
Definition normalizeOpenRouterModelsResponse (body : json) : option (list NormalizedCatalogModel * Z) :=
  match body with
  | JNull => None
  | _ =>
      let rawModels := match json_field body "data" with Some (JArr l) => l | _ => [] end in
      if existsb (λ raw, match raw with JNull => true | _ => false end) rawModels then None
      else
        let models := omap normalizeOpenRouterModel rawModels in
        Some (sort_models models, count rawModels - count models)
  end.

(** ** The catalogue of a process *)

(** The cache, and the number of fetches started. *)
Record Catalog := mkCatalog {
  modelsBySlug : gmap string NormalizedCatalogModel;
  loads : nat;
}.
Definition empty_catalog : Catalog := mkCatalog ∅ 0.

Definition ensureCatalogLoading (c : Catalog) : Catalog :=
  match loads c with O => mkCatalog (modelsBySlug c) 1 | _ => c end.

(** What the fetch ends with: [None] for a failure of the network or a body that
    is not JSON; else whether the status is a success, and the body. *)
Definition catalog_settles (response : option (bool * json)) (c : Catalog) : Catalog :=
  match response with
  | Some (true, body) =>
      match normalizeOpenRouterModelsResponse body with
      | Some (models, _) => mkCatalog (fold_left (λ m x, <[cm_id x := x]> m) models ∅) (loads c)
      | None => c
      end
  | _ => c
  end.
End Gateway.

Definition getModelFromCatalog (slug : string) (c : Catalog) : option NormalizedCatalogModel * Catalog :=
  let c := ensureCatalogLoading c in (modelsBySlug c !! slug, c).
Definition isKnownModelSlug (slug : string) (c : Catalog) : bool * Catalog :=
  let c := ensureCatalogLoading c in (negb (is_null (modelsBySlug c !! slug)), c).

(** ** The price of a seat *)

Inductive PriceSource := from_gateway | price_table | fallback.
Record ResolvedPrice := mkPrice {
  rp_inUsdPerMTok : Q;
  rp_outUsdPerMTok : Q;
  rp_priceSource : PriceSource;
}.
Definition resolveModelPrice (s : ModelSeat) (c : Catalog) : ResolvedPrice * Catalog :=
  let '(gatewayEntry, c) := getModelFromCatalog (seat_slug s) c in
  (match gatewayEntry with
   | Some m => mkPrice (cm_inUsdPerMTok m) (cm_outUsdPerMTok m) from_gateway
   | None => mkPrice (seat_inUsdPerMTok s) (seat_outUsdPerMTok s) price_table
   end, c).

(** ** The estimate *)

Inductive VolumeBucket := bucket_S | bucket_M | bucket_L.
Definition SMALL_AC_COUNT : Z := 2.
Definition LARGE_AC_COUNT : Z := 5.
Definition SHORT_BODY_CHARS : Z := 280.
Definition LONG_BODY_CHARS : Z := 1200.
Definition bodyLength (input : TaskInput) : Z :=
  js_length (ti_whatToBuild input) + js_length (join_strings " " (ti_acceptanceCriteria input)).
Definition bucketVolume (input : TaskInput) : VolumeBucket :=
  let acCount := count (ti_acceptanceCriteria input) in
  let bodyChars := bodyLength input in
  if (LARGE_AC_COUNT <=? acCount) || (LONG_BODY_CHARS <? bodyChars) then bucket_L
  else if (acCount <=? SMALL_AC_COUNT) && (bodyChars <=? SHORT_BODY_CHARS) then bucket_S
  else bucket_M.

(** Input and output tokens. *)
Definition VOLUME_TOKEN_ASSUMPTIONS (b : VolumeBucket) : Z * Z :=
  match b with bucket_S => (40000, 4000) | bucket_M => (120000, 12000) | bucket_L => (300000, 30000) end.
Definition BUCKET_LABEL (b : VolumeBucket) : string :=
  match b with bucket_S => "Small" | bucket_M => "Medium" | bucket_L => "Large" end.
(** The two counts of tokens with separators. *)
Definition token_text (b : VolumeBucket) : string * string :=
  match b with
  | bucket_S => ("40,000", "4,000")
  | bucket_M => ("120,000", "12,000")
  | bucket_L => ("300,000", "30,000")
  end.
Definition PRICE_SOURCE_LABEL (p : PriceSource) : string :=
  match p with
  | from_gateway => "live OpenRouter gateway pricing"
  | price_table => "the canonical PRICE_TABLE mirror (gateway catalog had no rate for this slug)"
  | fallback => "a neutral fallback rate (no known price for this model at all)"
  end.

(** The text of a number of at most six decimals and twenty-one digits. *)
Definition pad6 (z : Z) : list ascii :=
  let s := String.list_ascii_of_string (show_Z z) in replicate (6 - length s) "0"%char ++ s.
Fixpoint drop_zeros (l : list ascii) : list ascii :=
  match l with "0"%char :: l' => drop_zeros l' | _ => l end.
Definition show_number (q : Q) : string :=
  let z := math_round (q * million)%Q in
  let n := Z.abs z in
  (if z <? 0 then "-" else "") +:+ show_Z (n / 1000000)
  +:+ match rev (drop_zeros (rev (pad6 (n mod 1000000)))) with
      | [] => ""
      | l => "." +:+ String.string_of_list_ascii l
      end.

Record BriefEstimate := mkEstimate {
  be_taskType : TaskType;
  be_suggestedModel : ModelSeat;
  be_volumeBucket : VolumeBucket;
  be_price : ResolvedPrice;
  be_estimateUsd : Q;
  be_assumptions : list string;
}.

Definition raw_usd (b : VolumeBucket) (p : ResolvedPrice) : Q :=
  let '(inTokens, outTokens) := VOLUME_TOKEN_ASSUMPTIONS b in
  (inject_Z inTokens / million * rp_inUsdPerMTok p + inject_Z outTokens / million * rp_outUsdPerMTok p)%Q.
Definition round_cents (q : Q) : Q := (inject_Z (math_round (q * inject_Z 100)) / inject_Z 100)%Q.

Definition estimate_assumptions (t : TaskType) (b : VolumeBucket) (input : TaskInput) (s : ModelSeat)
    (p : ResolvedPrice) : list string :=
  ["Classified as " +:+ quoted (task_text t) +:+ " from the issue's title/whatToBuild/acceptance "
   +:+ "criteria text (keyword heuristic, not measured — see classifier.ts).";
   "Volume bucket " +:+ quoted (BUCKET_LABEL b) +:+ ": " +:+ show_Z (count (ti_acceptanceCriteria input))
   +:+ " acceptance criteria, ~" +:+ show_Z (bodyLength input) +:+ " body characters.";
   "~" +:+ (token_text b).1 +:+ " input / " +:+ (token_text b).2 +:+ " output "
   +:+ "tokens assumed for a " +:+ BUCKET_LABEL b +:+ " task (an assumption, not a "
   +:+ "measurement — see VOLUME_TOKEN_ASSUMPTIONS).";
   "Priced at " +:+ seat_displayName s +:+ " rates ($" +:+ show_number (rp_inUsdPerMTok p) +:+ "/$"
   +:+ show_number (rp_outUsdPerMTok p) +:+ " per MTok in/out) from " +:+ PRICE_SOURCE_LABEL (rp_priceSource p)
   +:+ "."].

Definition estimateBrief (input : TaskInput) (modelOverride : option ModelSeat) (c : Catalog)
    : BriefEstimate * Catalog :=
  let taskType := classifyTaskType input in
  let suggestedModel := default (MODEL_CATALOG taskType) modelOverride in
  let volumeBucket := bucketVolume input in
  let '(price, c) := resolveModelPrice suggestedModel c in
  let estimateUsd := round_cents (raw_usd volumeBucket price) in
  (mkEstimate taskType suggestedModel volumeBucket price estimateUsd
     (estimate_assumptions taskType volumeBucket input suggestedModel price), c).
