(* ===== verification/PriceFacts.v ===== *)
(** * PriceFacts: prices are listed, estimates are bounded

    Theorems of [ModelPrice]: the catalogue of a process is fetched once and
    holds what the gateway listed, and the estimate of a brief is in whole cents,
    within half a cent of the exact product, bounded for the seats the program
    ships and monotone in the size of the task. *)

From S2P Require Import Prelude Regex Intake Policy JsonText JsonValue ModelPool ModelPrice.
From Stdlib Require Import QArith Qround Ascii.
Open Scope Z_scope.

(** ** The catalogue *)

Section Catalogue.
Variable localeCompare : string → string → Z.

Lemma insert_model_Permutation x l : insert_model localeCompare x l ≡ₚ x :: l.
Proof. induction l as [|y l IH]; [done|]. cbn. case_match; [|done]. rewrite IH. apply Permutation_swap. Qed.
Lemma sort_models_Permutation l : sort_models localeCompare l ≡ₚ l.
Proof.
  unfold sort_models. enough (∀ acc, fold_left (λ acc x, insert_model localeCompare x acc) l acc ≡ₚ acc ++ l) as H by apply H.
  induction l as [|x l IH]; intros acc; cbn; [by rewrite app_nil_r|].
  rewrite IH, insert_model_Permutation. apply Permutation_middle.
Qed.

Lemma lookup_models l : ∀ (m : gmap string NormalizedCatalogModel) slug x,
  fold_left (λ m x, <[cm_id x := x]> m) l m !! slug = Some x →
  (m !! slug = Some x ∧ slug ∉ cm_id <$> l) ∨ (x ∈ l ∧ cm_id x = slug).
Proof.
  induction l as [|y l IH]; intros m slug x; cbn.
  - intros H. left. split; [done|]. by intros []%elem_of_nil.
  - intros [[Hm Hn]|[Hx He]]%IH; [|right; split; [by right|done]].
    destruct (decide (cm_id y = slug)) as [<-|Hne].
    + rewrite lookup_insert_eq in Hm. injection Hm as ->. right. split; [by left|done].
    + rewrite lookup_insert_ne in Hm by done. left. split; [done|]. by intros [?|?]%elem_of_cons.
Qed.
(** What happens to the catalogue of a process: lookups, and the end of the fetch
    the first of them started. *)
Inductive catalog_op := look (slug : string) | settles (response : option (bool * json)).
Definition catalog_step (o : catalog_op) (c : Catalog) : Catalog :=
  match o with
  | look slug => (getModelFromCatalog slug c).2
  | settles response => match loads c with O => c | _ => catalog_settles localeCompare response c end
  end.
Definition catalog_after (l : list catalog_op) : Catalog := fold_left (λ c o, catalog_step o c) l empty_catalog.

(** What a model of the catalogue was listed as. *)
Definition listed (l : list catalog_op) (m : NormalizedCatalogModel) : Prop :=
  ∃ fields data raw, settles (Some (true, JObj fields)) ∈ l ∧ json_field (JObj fields) "data" = Some (JArr data)
    ∧ raw ∈ data ∧ normalizeOpenRouterModel raw = Some m.

Lemma normalized_listed body models n l :
  normalizeOpenRouterModelsResponse localeCompare body = Some (models, n) →
  settles (Some (true, body)) ∈ l → ∀ m, m ∈ models → listed l m.
Proof.
  intros Hn Hl m Hm.
  assert (models = sort_models localeCompare (omap normalizeOpenRouterModel
    (match json_field body "data" with Some (JArr l) => l | _ => [] end))) as ->.
  { unfold normalizeOpenRouterModelsResponse in Hn. cbn zeta in Hn.
    destruct body; [done|..]; (destruct (existsb _ _); [done|]; by injection Hn). }
  rewrite sort_models_Permutation in Hm. apply list_elem_of_omap in Hm as (raw & Hraw & Hr).
  destruct (json_field body "data") as [[| | | |data|]|] eqn:Hd; try by apply elem_of_nil in Hraw.
  destruct body; try done. by exists fields, data, raw.
Qed.

Lemma catalogue_listed l :
  let c := catalog_after l in
  (loads c ≤ 1)%nat ∧ ((∀ r, settles r ∉ l) → modelsBySlug c = ∅)
  ∧ ∀ slug m, modelsBySlug c !! slug = Some m → listed l m ∧ cm_id m = slug.
Proof.
  intros c. unfold c, catalog_after. induction l as [|o l IH] using rev_ind.
  - split_and!; try done. cbn. lia.
  - rewrite fold_left_app. cbn [fold_left]. set (d := fold_left (λ c o, catalog_step o c) l empty_catalog) in *.
    destruct IH as (Hload & Hempty & Hm).
    assert (Hgrow : ∀ m, listed l m → listed (l ++ [o]) m).
    { intros m (f & data & raw & Hl & ?). exists f, data, raw. split; [set_solver|done]. }
    assert (Hold : (∀ slug m, modelsBySlug d !! slug = Some m → listed (l ++ [o]) m ∧ cm_id m = slug)) by naive_solver.
    assert (Hlast : o ∈ l ++ [o]) by set_solver.
    destruct o as [slug|r]; cbn [catalog_step getModelFromCatalog snd].
    + unfold ensureCatalogLoading. destruct (loads d) eqn:El; cbn [loads modelsBySlug];
        split_and!; try done; try lia; intros Hn; apply Hempty; intros r Hr; apply (Hn r); set_solver.
    + destruct (loads d) eqn:El; [split_and!; [lia|intros Hn; apply Hempty; set_solver|done]|].
      unfold catalog_settles. destruct r as [[[] body]|]; try (split_and!; [lia|intros Hn; exfalso; exact (Hn _ Hlast)|done]).
      destruct (normalizeOpenRouterModelsResponse localeCompare body) as [[models k]|] eqn:En;
        [|split_and!; [lia|intros Hn; exfalso; exact (Hn _ Hlast)|done]].
      split_and!; cbn [loads modelsBySlug]; [lia|intros Hn; exfalso; exact (Hn _ Hlast)|].
      intros slug m [[H _]|[Hin Hid]]%lookup_models; [by rewrite lookup_empty in H|].
      split; [|done]. eapply normalized_listed; [done|exact Hlast|done].
Qed.

(** A price is never invented.  Whatever the order in which lookups
    and the end of the fetch come: at most one fetch is started in the life of a
    process, at the first lookup; before it ends every lookup misses; and a model
    found under a slug is what one entry of a successful answer says for that very
    slug, so the price of a seat is either a listed one or the seat's own. *)
Theorem price_is_listed l s :
  let c := catalog_after l in
  (loads c ≤ 1)%nat
  ∧ ((∀ r, settles r ∉ l) → modelsBySlug c = ∅)
  ∧ let p := (resolveModelPrice s c).1 in
    match rp_priceSource p with
    | from_gateway => ∃ m, listed l m ∧ cm_id m = seat_slug s
        ∧ rp_inUsdPerMTok p = cm_inUsdPerMTok m ∧ rp_outUsdPerMTok p = cm_outUsdPerMTok m
    | price_table => modelsBySlug c !! seat_slug s = None
        ∧ rp_inUsdPerMTok p = seat_inUsdPerMTok s ∧ rp_outUsdPerMTok p = seat_outUsdPerMTok s
    | fallback => False
    end.
Proof.
  intros c. destruct (catalogue_listed l) as (Hload & Hempty & Hm). fold c in Hload, Hempty, Hm.
  split_and!; [done..|].
  unfold resolveModelPrice, getModelFromCatalog, ensureCatalogLoading.
  assert (∀ d, modelsBySlug d = modelsBySlug c →
    let p := (match modelsBySlug d !! seat_slug s with
              | Some m => mkPrice (cm_inUsdPerMTok m) (cm_outUsdPerMTok m) from_gateway
              | None => mkPrice (seat_inUsdPerMTok s) (seat_outUsdPerMTok s) price_table end) in
    match rp_priceSource p with
    | from_gateway => ∃ m, listed l m ∧ cm_id m = seat_slug s
        ∧ rp_inUsdPerMTok p = cm_inUsdPerMTok m ∧ rp_outUsdPerMTok p = cm_outUsdPerMTok m
    | price_table => modelsBySlug c !! seat_slug s = None
        ∧ rp_inUsdPerMTok p = seat_inUsdPerMTok s ∧ rp_outUsdPerMTok p = seat_outUsdPerMTok s
    | fallback => False end) as Hd.
  { intros d ->. destruct (modelsBySlug c !! seat_slug s) as [m|] eqn:E; cbn; [|done].
    destruct (Hm _ _ E). by exists m. }
  destruct (loads c); by apply Hd.
Qed.
End Catalogue.

(** ** Rounding to cents *)

Lemma math_round_mono x y : (x <= y)%Q → math_round x ≤ math_round y.
Proof. intros H. unfold math_round. apply Qfloor_resp_le. by apply Qplus_le_compat; [|apply Qle_refl]. Qed.
Lemma math_round_near x : (x - (1 # 2) <= inject_Z (math_round x) <= x + (1 # 2))%Q.
Proof.
  unfold math_round. split; [|apply Qfloor_le].
  pose proof (Qlt_floor (x + (1 # 2))) as H. rewrite inject_Z_plus in H.
  apply Qplus_le_l with (z := (inject_Z 1)). apply Qlt_le_weak in H. eapply Qle_trans; [|exact H].
  ring_simplify. apply Qle_refl.
Qed.

Lemma round_cents_mono x y : (x <= y)%Q → (round_cents x <= round_cents y)%Q.
Proof.
  intros H. unfold round_cents, Qdiv. apply Qmult_le_compat_r; [|done].
  rewrite <- Zle_Qle. apply math_round_mono. by apply Qmult_le_compat_r.
Qed.
Lemma round_cents_near x : (x - (1 # 200) <= round_cents x <= x + (1 # 200))%Q.
Proof.
  unfold round_cents. destruct (math_round_near (x * inject_Z 100)) as [H1 H2].
  split; [apply Qle_shift_div_l|apply Qle_shift_div_r]; try done.
  - eapply Qle_trans; [|exact H1]. apply Qle_lteq. right. ring.
  - eapply Qle_trans; [exact H2|]. apply Qle_lteq. right. ring.
Qed.

(** ** The estimate *)

Definition tokens_le (b b' : VolumeBucket) : Prop :=
  (VOLUME_TOKEN_ASSUMPTIONS b).1 ≤ (VOLUME_TOKEN_ASSUMPTIONS b').1
  ∧ (VOLUME_TOKEN_ASSUMPTIONS b).2 ≤ (VOLUME_TOKEN_ASSUMPTIONS b').2.
Lemma bucketVolume_mono i i' :
  count (ti_acceptanceCriteria i) ≤ count (ti_acceptanceCriteria i') → bodyLength i ≤ bodyLength i' →
  tokens_le (bucketVolume i) (bucketVolume i').
Proof.
  unfold bucketVolume, tokens_le, LARGE_AC_COUNT, LONG_BODY_CHARS, SMALL_AC_COUNT, SHORT_BODY_CHARS. intros H1 H2.
  repeat case_match; cbn; try lia; repeat match goal with
    | H : _ || _ = true |- _ => apply orb_true_iff in H as [?|?]
    | H : _ && _ = false |- _ => apply andb_false_iff in H as [?|?] end; bools; lia.
Qed.
Lemma raw_usd_mono b b' p : tokens_le b b' → (0 <= rp_inUsdPerMTok p)%Q → (0 <= rp_outUsdPerMTok p)%Q →
  (raw_usd b p <= raw_usd b' p)%Q.
Proof.
  unfold raw_usd, tokens_le. destruct (VOLUME_TOKEN_ASSUMPTIONS b) as [i o], (VOLUME_TOKEN_ASSUMPTIONS b') as [i' o'].
  cbn. intros [Hi Ho] Hin Hout.
  apply Qplus_le_compat; (apply Qmult_le_compat_r; [|done]); (apply Qmult_le_compat_r; [|done]); by rewrite <- Zle_Qle.
Qed.

Definition shipped (s : ModelSeat) : Prop := (∃ t, s = MODEL_CATALOG t) ∨ ∃ c, c ∈ seats ∧ s = cs_seat c.
Lemma shipped_bounds s b : shipped s →
  let e := round_cents (raw_usd b (mkPrice (seat_inUsdPerMTok s) (seat_outUsdPerMTok s) price_table)) in
  ((2 # 100) <= e <= (225 # 100))%Q.
Proof.
  intros [(t & ->)|(c & Hc & ->)]; cbn zeta; rewrite <- !Qle_bool_iff.
  - destruct t, b; by vm_compute.
  - assert (forallb (λ c, let e := round_cents (raw_usd b (mkPrice (seat_inUsdPerMTok (cs_seat c)) (seat_outUsdPerMTok (cs_seat c)) price_table)) in
      Qle_bool (2 # 100) e && Qle_bool e (225 # 100)) seats = true) as H by (destruct b; by vm_compute).
    apply list_elem_of_In in Hc. apply (proj1 (forallb_forall _ _) H) in Hc. by apply andb_true_iff in Hc.
Qed.

(** C13 (bounds).  The number a user approves as a budget.  An estimate is a whole
    number of cents within half a cent of the tokens of the bucket times the rates
    it names; for one and the same seat, at rates that are not negative, it never
    falls when a task has more criteria and more text - for any two tasks where the
    seat is given, and for two of the same type where it is chosen by type (across
    types it may fall, [estimate_falls_across_types]); and for the seats the program ships, priced from its own
    table, it is between two cents and $2.25 - never zero. *)
Theorem estimate_bounds input modelOverride c :
  let e := (estimateBrief input modelOverride c).1 in
  (∃ n, be_estimateUsd e == inject_Z n / inject_Z 100)%Q
  ∧ (raw_usd (be_volumeBucket e) (be_price e) - (1 # 200) <= be_estimateUsd e
     <= raw_usd (be_volumeBucket e) (be_price e) + (1 # 200))%Q
  ∧ (∀ input', is_Some modelOverride ∨ classifyTaskType input' = classifyTaskType input →
       count (ti_acceptanceCriteria input) ≤ count (ti_acceptanceCriteria input') →
       bodyLength input ≤ bodyLength input' →
       (0 <= rp_inUsdPerMTok (be_price e))%Q → (0 <= rp_outUsdPerMTok (be_price e))%Q →
       (be_estimateUsd e <= be_estimateUsd (estimateBrief input' modelOverride c).1)%Q)
  ∧ (shipped (be_suggestedModel e) → modelsBySlug c !! seat_slug (be_suggestedModel e) = None →
     ((2 # 100) <= be_estimateUsd e <= (225 # 100))%Q).
Proof.
  unfold estimateBrief, resolveModelPrice, getModelFromCatalog. cbn zeta. split; [|split; [|split]].
  - by eexists.
  - apply round_cents_near.
  - intros input' Hseat Hac Hbody Hin Hout.
    assert (default (MODEL_CATALOG (classifyTaskType input')) modelOverride
            = default (MODEL_CATALOG (classifyTaskType input)) modelOverride) as ->
      by (destruct Hseat as [[m ->]|<-]; done).
    cbn in *. apply round_cents_mono, raw_usd_mono; [by apply bucketVolume_mono|done..].
  - cbn [fst be_suggestedModel be_estimateUsd]. intros Hs Hn.
    assert (modelsBySlug (ensureCatalogLoading c) = modelsBySlug c) as -> by (unfold ensureCatalogLoading; by destruct (loads c)).
    rewrite Hn. by apply shipped_bounds.
Qed.

(** A task with more text and more criteria that names mechanical work is of
    another type, whose seat is cheaper. *)
Theorem estimate_falls_across_types :
  let short := mkTaskInput "Add a page" "" [] in
  let long := mkTaskInput "Add a page, then fix a typo" "" ["it loads"] in
  let c := catalog_after (λ _ _, 0) [] in
  classifyTaskType short = ui ∧ classifyTaskType long = mechanical
  ∧ Qle_bool (be_estimateUsd (estimateBrief short None c).1) (be_estimateUsd (estimateBrief long None c).1) = false.
Proof. by vm_compute. Qed.

(** ** A price that is missing *)

(** An entry whose prices are null, or empty, is not rejected: [Number] makes
    zero of both, and the model becomes free. *)
Definition nameless_price : json :=
  JObj [("id", JStr "anthropic/claude-sonnet-5"); ("pricing", JObj [("prompt", JNull); ("completion", JStr "")]);
        ("context_length", JNum 1000); ("top_provider", JObj [("context_length", JNum 1000)])].
Theorem null_price_is_free :
  let c := catalog_after (λ _ _, 0) [look "x"; settles (Some (true, JObj [("data", JArr [nameless_price])]))] in
  be_estimateUsd (estimateBrief (mkTaskInput "Add a page" "" []) None c).1 = 0 # 100.
Proof. by vm_compute. Qed.
