(* ===== verification/Requirement.v ===== *)
(** * Requirement: may this brief be put to a human

    [apps/console/lib/alignment/requirement-decision.ts]: the signals that refuse
    a brief, in their order, and the decision they make. *)

From S2P Require Import Prelude Regex Intake Policy JsonText JsonValue ModelPool.
From Stdlib Require Import Ascii.
Open Scope Z_scope.

Inductive RequirementRefusalCode :=
  | conflicting_acceptance_criteria
  | unresolved_blocking_question
  | unsupported_environment
  | excessive_scope
  | missing_proof_path
  | unavailable_evidence.
#[export] Instance RequirementRefusalCode_eq_dec : EqDecision RequirementRefusalCode.
Proof. solve_decision. Defined.

Definition code_text (c : RequirementRefusalCode) : string :=
  match c with
  | conflicting_acceptance_criteria => "conflicting_acceptance_criteria"
  | unresolved_blocking_question => "unresolved_blocking_question"
  | unsupported_environment => "unsupported_environment"
  | excessive_scope => "excessive_scope"
  | missing_proof_path => "missing_proof_path"
  | unavailable_evidence => "unavailable_evidence"
  end.
Definition REFUSAL_ORDER : list RequirementRefusalCode :=
  [conflicting_acceptance_criteria; unresolved_blocking_question; unsupported_environment; excessive_scope;
   missing_proof_path; unavailable_evidence].

Record RefusalCopy := mkCopy { rc_label : string; rc_cannotEstablish : string; rc_requiredToProceed : string }.
Definition REFUSAL_COPY (c : RequirementRefusalCode) : RefusalCopy :=
  match c with
  | conflicting_acceptance_criteria =>
      mkCopy "Conflicting acceptance criteria"
        "the brief can be satisfied without violating another acceptance criterion"
        "remove the contradiction and state which behavior wins"
  | unresolved_blocking_question =>
      mkCopy "Unresolved blocking question"
        "the implementation target is settled because the brief still contains an unanswered decision"
        "answer the blocking question in the brief before approving the work"
  | unsupported_environment =>
      mkCopy "Unsupported environment"
        "the requested environment is available to the execution and verification path"
        "name a supported environment or add the missing environment capability"
  | excessive_scope =>
      mkCopy "Excessive scope"
        "the work has a bounded change surface that one approved run can finish"
        "split the request into smaller, independently verifiable changes"
  | missing_proof_path =>
      mkCopy "Missing proof path"
        "the acceptance criteria can be checked by a test, build, lint, or other declared verification"
        "add a concrete verification command or explain the observable evidence that will prove the criteria"
  | unavailable_evidence =>
      mkCopy "Unavailable evidence"
        "the evidence required by the acceptance criteria is accessible to the run"
        "provide the required logs, fixtures, permissions, or other evidence source"
  end.

(** ** Signals *)

Fixpoint any_of (l : list string) : regex :=
  match l with [] => Ahead false Eps | [x] => liti x | x :: l' => (liti x ∥ any_of l')%re end.
Definition word (r : regex) : regex := (WordB ⋅ r ⋅ WordB)%re.
Definition up_to (n : nat) (r : regex) : regex := Rep true 0 (Some n) r.
Definition plural (s : string) : regex := (liti s ⋅ optional (liti "s"))%re.
Definition sps : regex := many1 sp.

Definition hasExplicitSignal (haystack : string) (patterns : list regex) : bool :=
  existsb (λ pattern, test pattern haystack) patterns.

Definition obliges : regex := word (any_of ["must"; "should"; "required to"; "needs to"]).
Definition positive_pattern : regex :=
  (obliges ⋅ many any ⋅ word (any_of ["enable"; "allow"; "include"; "keep"; "retain"; "support"; "preserve"]))%re.
Definition negative_pattern : regex :=
  (obliges ⋅ many any
   ⋅ word (any_of ["disable"; "forbid"; "exclude"; "remove"; "drop"; "not support"; "reject"]))%re.

(** [value.toLowerCase().replace(/[^a-z0-9]+/g, " ").trim()] as the list of its
    words. *)
Definition plain (c : ascii) : bool := char_in "a" "z" c || is_digit c.
Fixpoint squeeze (gap : bool) (l : list ascii) : list ascii :=
  match l with
  | [] => []
  | c :: l' => if plain c then c :: squeeze false l' else if gap then squeeze true l' else " "%char :: squeeze true l'
  end.
Definition normalized (value : string) : string :=
  trim (String.string_of_list_ascii (squeeze false (String.list_ascii_of_string (lower value)))).
Definition words_of (value : string) : list string := split_on " "%char (normalized value).

Definition conflicts_with (c c' : string) : bool :=
  test positive_pattern c && test negative_pattern c'
  && existsb (λ w, (3 <? js_length w) && bool_decide (w ∈ words_of c')) (words_of c).
Definition hasConflictingCriteria (criteria : list string) : bool :=
  let positiveSubjects := (λ c, List.filter (λ w, 3 <? js_length w) (words_of c))
                          <$> List.filter (test positive_pattern) criteria in
  existsb (λ criterion,
    if negb (test negative_pattern criterion) then false else
    let negativeWords := words_of criterion in
    existsb (λ words, existsb (λ w, bool_decide (w ∈ negativeWords)) words) positiveSubjects) criteria.

Definition question_patterns : list regex :=
  [(word (any_of ["open"; "blocking"; "unresolved"] ⋅ liti " " ⋅ plural "question"));
   word (liti "tbd" ∥ liti "todo" ∥ (plural "need" ⋅ liti " a decision") ∥ liti "decision pending")]%re.
Definition ends_in_question (criterion : string) : bool := test (liti "?" ⋅ many sp ⋅ Eos)%re (trim criterion).
Definition environment_patterns : list regex :=
  [word (liti "unsupported environment");
   (word (liti "environment") ⋅ up_to 50 any ⋅ word (any_of ["not supported"; "unavailable"]));
   (word (any_of ["not supported"; "unsupported"]) ⋅ up_to 40 any
    ⋅ word (any_of ["ios"; "android"; "windows"; "macos"; "linux"; "browser"]))]%re.
Definition scope_patterns : list regex :=
  [word (liti "unbounded");
   word (liti "rewrite " ⋅ optional (liti "the ") ⋅ any_of ["entire"; "whole"]);
   word (any_of ["entire codebase"; "all repositories"; "every service"; "everything"]);
   word (liti "no " ⋅ any_of ["scope"; "limit"])]%re.
Definition proof_patterns : list regex :=
  [word (any_of ["no"; "without"; "cannot"; "can't"] ⋅ sps
         ⋅ (plural "test" ∥ any_of ["verification"; "proof"; "way to verify"]));
   word (any_of ["skip"; "skipping"] ⋅ sps ⋅ (plural "test" ∥ liti "verification"));
   word (liti "untestable")]%re.
Definition evidence_patterns : list regex :=
  [word (liti "evidence " ⋅ any_of ["is"; "remains"] ⋅ liti " unavailable");
   word (any_of ["production"; "application"] ⋅ sps ⋅ (plural "log" ∥ liti "data") ⋅ sps ⋅ any_of ["is"; "are"]
         ⋅ sps ⋅ liti "unavailable");
   word (any_of ["no"; "without"] ⋅ liti " access to " ⋅ optional (liti "the ")
         ⋅ (plural "log" ∥ plural "fixture" ∥ liti "production" ∥ liti "data" ∥ plural "permission"));
   word (liti "missing " ⋅ (plural "log" ∥ plural "fixture" ∥ liti "production data"))]%re.

(** ** The decision *)

Record RequirementDecisionInput := mkDecisionInput {
  di_title : string;
  di_body : string;
  di_acceptanceCriteria : list string;
  di_taskFamily : option TaskType;
}.

Definition signal (input : RequirementDecisionInput) (c : RequirementRefusalCode) : bool :=
  let criteria := di_acceptanceCriteria input in
  let haystack := join_strings " " (di_title input :: di_body input :: criteria) in
  match c with
  | conflicting_acceptance_criteria => hasConflictingCriteria criteria
  | unresolved_blocking_question =>
      hasExplicitSignal haystack question_patterns || existsb ends_in_question criteria
  | unsupported_environment => hasExplicitSignal haystack environment_patterns
  | excessive_scope => (12 <? count criteria) || hasExplicitSignal haystack scope_patterns
  | missing_proof_path => hasExplicitSignal haystack proof_patterns
  | unavailable_evidence => hasExplicitSignal haystack evidence_patterns
  end.
Definition codeFor (input : RequirementDecisionInput) : option RequirementRefusalCode :=
  if signal input conflicting_acceptance_criteria then Some conflicting_acceptance_criteria
  else if signal input unresolved_blocking_question then Some unresolved_blocking_question
  else if signal input unsupported_environment then Some unsupported_environment
  else if signal input excessive_scope then Some excessive_scope
  else if signal input missing_proof_path then Some missing_proof_path
  else if signal input unavailable_evidence then Some unavailable_evidence
  else None.

Definition family_text (f : option TaskType) : string := match f with Some t => task_text t | None => "unknown" end.
Definition confidenceFor (taskFamily : option TaskType) (observedSignals : list string) : list string :=
  ("Task family: " +:+ family_text taskFamily) :: observedSignals.
Definition observedSignal (c : RequirementRefusalCode) : string :=
  "Evidence basis: the brief matched the explicit " +:+ code_text c +:+ " intake signal".

(** The confidence of a decision is always unknown, with its basis. *)
Record RequirementRefusal := mkRefusal {
  rf_code : RequirementRefusalCode;
  rf_copy : RefusalCopy;
  rf_taskFamily : option TaskType;
  rf_basis : list string;
}.
Inductive RequirementDecision :=
  | accept_brief (taskFamily : option TaskType) (basis : list string)
  | refuse_brief (taskFamily : option TaskType) (basis : list string) (refusal : RequirementRefusal).

Definition decideRequirementContract (input : RequirementDecisionInput) : RequirementDecision :=
  let taskFamily := di_taskFamily input in
  match codeFor input with
  | None => accept_brief taskFamily (confidenceFor taskFamily
              ["Evidence basis: no explicit refusal signal was found in the brief"])
  | Some code =>
      let basis := confidenceFor taskFamily [observedSignal code] in
      refuse_brief taskFamily basis (mkRefusal code (REFUSAL_COPY code) taskFamily basis)
  end.
Definition refusalLabel (c : RequirementRefusalCode) : string := rc_label (REFUSAL_COPY c).

(** ** What is decided *)

Lemma hasConflictingCriteria_pairs criteria :
  hasConflictingCriteria criteria = true ↔
  ∃ c c', c ∈ criteria ∧ c' ∈ criteria ∧ conflicts_with c c' = true.
Proof.
  unfold hasConflictingCriteria, conflicts_with. cbn zeta. rewrite existsb_exists. split.
  - intros (c' & Hc' & H). destruct (test negative_pattern c') eqn:En; [|done]. cbn in H.
    apply existsb_exists in H as (ws & Hws & H). apply existsb_exists in H as (w & Hw & H).
    apply list_elem_of_In, list_elem_of_fmap in Hws as (c & -> & Hc).
    apply list_elem_of_In, filter_In in Hc as [Hc Hp]. apply filter_In in Hw as [Hw Hl].
    exists c, c'. split_and!; [by apply list_elem_of_In|by apply list_elem_of_In|].
    rewrite Hp, En. cbn. apply existsb_exists. exists w. by rewrite Hl, H.
  - intros (c & c' & Hc & Hc' & H). apply andb_prop in H as [H He]. apply andb_prop in H as [Hp Hn].
    apply existsb_exists in He as (w & Hw & H). apply andb_prop in H as [Hl H].
    exists c'. split; [by apply list_elem_of_In|]. rewrite Hn. cbn. apply existsb_exists.
    exists (List.filter (λ w, 3 <? js_length w) (words_of c)). split.
    + apply list_elem_of_In, list_elem_of_fmap. exists c. split; [done|].
      apply list_elem_of_In, filter_In. split; [by apply list_elem_of_In|done].
    + apply existsb_exists. exists w. split; [by apply filter_In|done].
Qed.

(** The reason given is the first of the order whose signal is in the brief. *)
Lemma codeFor_first input :
  codeFor input = List.find (signal input) REFUSAL_ORDER.
Proof. unfold codeFor, REFUSAL_ORDER. cbn [List.find]. by repeat case_match. Qed.

Lemma find_before {A} (p : A → bool) before x after :
  NoDup (before ++ x :: after) → List.find p (before ++ x :: after) = Some x → ∀ y, y ∈ before → p y = false.
Proof.
  induction before as [|b before IH]; cbn [app List.find]; [by intros _ _ y []%elem_of_nil|].
  intros [Hb Hnd]%NoDup_cons. destruct (p b) eqn:Eb; [intros [= ->]; set_solver|].
  intros Hf y [->|Hy]%elem_of_cons; [done|by apply IH].
Qed.
Lemma REFUSAL_ORDER_NoDup : NoDup REFUSAL_ORDER.
Proof. apply (bool_decide_unpack _). by vm_compute. Qed.

(** A brief is accepted exactly when none of the six signals is in
    it, and a refusal names the first one, in the fixed order, with its copy; two
    criteria conflict when one obliges to something, another obliges against
    something, and they share a word of more than three characters. *)
Theorem decision_exact input :
  match decideRequirementContract input with
  | accept_brief f _ => f = di_taskFamily input ∧ (∀ c, signal input c = false)
      ∧ ∀ x y, x ∈ di_acceptanceCriteria input → y ∈ di_acceptanceCriteria input → conflicts_with x y = false
  | refuse_brief f _ r => f = di_taskFamily input ∧ rf_copy r = REFUSAL_COPY (rf_code r)
      ∧ signal input (rf_code r) = true
      ∧ (∀ before after, REFUSAL_ORDER = before ++ rf_code r :: after → ∀ c, c ∈ before → signal input c = false)
      ∧ (rf_code r = conflicting_acceptance_criteria →
         ∃ x y, x ∈ di_acceptanceCriteria input ∧ y ∈ di_acceptanceCriteria input ∧ conflicts_with x y = true)
  end.
Proof.
  unfold decideRequirementContract. destruct (codeFor input) as [code|] eqn:E; rewrite codeFor_first in E; cbn zeta.
  - split; [done|]. split; [done|]. cbn [rf_code].
    pose proof (find_some _ _ E) as [_ Hs]. split_and!; [done| |].
    + intros before after Ho c Hc. rewrite Ho in E. eapply find_before; [rewrite <- Ho; apply REFUSAL_ORDER_NoDup|exact E|exact Hc].
    + intros ->. cbn in Hs. by apply hasConflictingCriteria_pairs in Hs.
  - split; [done|]. assert (Hn : ∀ c, signal input c = false).
    { intros c. apply (find_none _ _ E). destruct c; cbn; tauto. }
    split; [done|]. intros x y Hx Hy. apply not_true_iff_false. intros H.
    pose proof (Hn conflicting_acceptance_criteria) as Hc. apply not_true_iff_false in Hc. apply Hc.
    apply hasConflictingCriteria_pairs. eauto.
Qed.

(** The shared word can be the very verb that obliges: two criteria about
    different things are refused as a contradiction. *)
Theorem unrelated_criteria_conflict :
  let input := mkDecisionInput "Sign-up form" "Validate the form and follow the theme"
    ["The page must support dark mode"; "The form must reject empty names"] None in
  codeFor input = Some conflicting_acceptance_criteria
  ∧ List.filter (λ w, (3 <? js_length w) && bool_decide (w ∈ words_of "The form must reject empty names"))
      (words_of "The page must support dark mode") = ["must"].
Proof. split; by vm_compute. Qed.

Example tractable :
  codeFor (mkDecisionInput "Dark mode" "Add a toggle" ["The page should support dark mode"] None) = None.
Proof. by vm_compute. Qed.
Example untested : codeFor (mkDecisionInput "Dark mode" "ship it without  tests please" [] None) = Some missing_proof_path.
Proof. by vm_compute. Qed.
Example asked : codeFor (mkDecisionInput "Dark mode" "x" ["Which colours? "] None) = Some unresolved_blocking_question.
Proof. by vm_compute. Qed.
