(* ===== verification/AlignmentBrief.v ===== *)
(** * AlignmentBrief: the brief a human approves, from its composition to its effect

    [apps/console/lib/alignment-brief.ts] (composition and extraction),
    [alignment-reconciler.ts] (posting, revising, the recovery sweeps), the
    enrichment of an issue request in [app/api/v1/runner/approvals/route.ts], and
    the decision in [approval-decision.ts].  The network and the environment are
    the fields of a [PostWorld]; the text of the message is not modelled. *)

From S2P Require Import Prelude Table Regex QueueSchema QueueText AlignmentGate Intake Policy JsonText JsonValue.
From S2P Require Import RecordSchema Approvals ModelPool ModelChoice ModelPrice Requirement.
From Stdlib Require Import QArith Ascii.
Open Scope Z_scope.

(** ** Composition *)

Definition parseAcceptanceCriteriaForBrief (body : string) : list string :=
  match validateAcceptanceCriteria body with ac_ok criteria => criteria | ac_rejected _ => [] end.

Record AlignmentBriefToolInput := mkBrief {
  ab_title : string;
  ab_whatToBuild : string;
  ab_acceptanceCriteria : list string;
  ab_requirementDecision : RequirementDecision;
  ab_taskType : TaskType;
  ab_slug : string;
  ab_displayName : string;
  ab_estimateUsd : Q;
  ab_assumptions : list string;
  ab_repoFullName : string;
  ab_issueNumber : N;
  ab_issueUrl : string;
  ab_modelSelectionReason : option string;
}.
Record ChatBornBrief := mkChatBrief {
  cb_requirementDecision : RequirementDecision;
  cb_taskType : TaskType;
  cb_slug : string;
  cb_displayName : string;
  cb_estimateUsd : Q;
  cb_assumptions : list string;
  cb_modelSelectionReason : option string;
}.

Definition composeChatBornBrief (input : TaskInput) (modelSelection : option ModelSelectionForBrief) (c : Catalog)
    : ChatBornBrief * Catalog :=
  let requirementDecision := decideRequirementContract
    (mkDecisionInput (ti_title input) (ti_whatToBuild input) (ti_acceptanceCriteria input) None) in
  let '(e, c) := estimateBrief input (mb_model <$> modelSelection) c in
  (mkChatBrief requirementDecision (be_taskType e) (seat_slug (be_suggestedModel e))
     (seat_displayName (be_suggestedModel e)) (be_estimateUsd e) (be_assumptions e)
     (mb_reasonText <$> modelSelection), c).

Definition composeAlignmentBrief (title body repoFullName : string) (issueNumber : N) (issueUrl : string)
    (modelSelection : option ModelSelectionForBrief) (c : Catalog) : AlignmentBriefToolInput * Catalog :=
  let acceptanceCriteria := parseAcceptanceCriteriaForBrief body in
  let requirementDecision := decideRequirementContract (mkDecisionInput title body acceptanceCriteria None) in
  let '(e, c) := estimateBrief (mkTaskInput title body acceptanceCriteria) (mb_model <$> modelSelection) c in
  (mkBrief title body acceptanceCriteria requirementDecision (be_taskType e) (seat_slug (be_suggestedModel e))
     (seat_displayName (be_suggestedModel e)) (be_estimateUsd e) (be_assumptions e) repoFullName issueNumber issueUrl
     (mb_reasonText <$> modelSelection), c).

(** ** The stored value *)

Definition strings_json (l : list string) : json := JArr (JStr <$> l).
Definition confidence_json (basis : list string) : json :=
  JObj [("state", JStr "unknown"); ("basis", strings_json basis)].
Definition refusal_json (r : RequirementRefusal) : json :=
  JObj [("code", JStr (code_text (rf_code r))); ("label", JStr (rc_label (rf_copy r)));
        ("cannotEstablish", JStr (rc_cannotEstablish (rf_copy r)));
        ("requiredToProceed", JStr (rc_requiredToProceed (rf_copy r)));
        ("taskFamily", JStr (family_text (rf_taskFamily r))); ("confidence", confidence_json (rf_basis r))].
Definition decision_json (d : RequirementDecision) : json :=
  match d with
  | accept_brief f basis =>
      JObj [("decision", JStr "accept"); ("taskFamily", JStr (family_text f)); ("confidence", confidence_json basis)]
  | refuse_brief f basis r =>
      JObj [("decision", JStr "refuse"); ("taskFamily", JStr (family_text f)); ("confidence", confidence_json basis);
            ("refusal", refusal_json r)]
  end.
Definition model_json (slug displayName : string) : json :=
  JObj [("slug", JStr slug); ("displayName", JStr displayName)].
Definition reason_field (r : option string) : list (string * json) :=
  match r with Some s => [("modelSelectionReason", JStr s)] | None => [] end.
Definition brief_json (b : AlignmentBriefToolInput) : json :=
  JObj ([("title", JStr (ab_title b)); ("whatToBuild", JStr (ab_whatToBuild b));
         ("acceptanceCriteria", strings_json (ab_acceptanceCriteria b));
         ("requirementDecision", decision_json (ab_requirementDecision b));
         ("taskType", JStr (task_text (ab_taskType b))); ("suggestedModel", model_json (ab_slug b) (ab_displayName b));
         ("estimateUsd", JNum (ab_estimateUsd b)); ("assumptions", strings_json (ab_assumptions b));
         ("repoFullName", JStr (ab_repoFullName b)); ("issueNumber", JNum (inject_Z (Z.of_N (ab_issueNumber b))));
         ("issueUrl", JStr (ab_issueUrl b))] ++ reason_field (ab_modelSelectionReason b)).
Definition chat_json (b : ChatBornBrief) : json :=
  JObj ([("requirementDecision", decision_json (cb_requirementDecision b));
         ("taskType", JStr (task_text (cb_taskType b))); ("suggestedModel", model_json (cb_slug b) (cb_displayName b));
         ("estimateUsd", JNum (cb_estimateUsd b)); ("assumptions", strings_json (cb_assumptions b))]
        ++ reason_field (cb_modelSelectionReason b)).

Record ConfirmedBudgetAndModel := mkConfirmed {
  cf_estimatedBudgetUsd : Q;
  cf_modelOverride : string;
  cf_taskType : option string;
}.
Definition extractConfirmedBudgetAndModel (toolInput : json) : option ConfirmedBudgetAndModel :=
  match json_field toolInput "estimateUsd", json_field toolInput "suggestedModel" ≫= (λ m, json_field m "slug") with
  | Some (JNum estimateUsd), Some (JStr (String _ _ as slug)) =>
      Some (mkConfirmed estimateUsd slug
              (match json_field toolInput "taskType" with Some (JStr (String _ _ as t)) => Some t | _ => None end))
  | _, _ => None
  end.

(** ** Posting *)

Record JaceSession := mkJaceSession {
  ss_workspace_id : option string;
  ss_chat_identity_id : option string;
  ss_channel : string;
  ss_conversation_key : string;
  ss_eve_session_id : option string;
  ss_last_activity_at : Z;
}.
Definition latestTelegramSessionForWorkspace (workspaceId : string) (t : gmap string JaceSession)
    : option (string * JaceSession) :=
  newest ss_last_activity_at
    (select_where (λ _ s, sql_eq (ss_workspace_id s) workspaceId && (ss_channel s ≡? "telegram")) t).

Inductive AlignmentBriefOutcome :=
  | posted | no_session | record_failed | send_failed | compose_failed | session_lookup_failed.
#[export] Instance AlignmentBriefOutcome_eq_dec : EqDecision AlignmentBriefOutcome.
Proof. solve_decision. Defined.

Record PostParams := mkPostParams {
  pp_workspaceId : string;
  pp_queueEntryId : string;
  pp_title : string;
  pp_body : string;
  pp_repoFullName : option string;
  pp_number : option N;
  pp_requestId : option string;
}.

(** The outside of one call: the environment, the reads that may throw ([None]),
    the random draws and ids, whether the insert throws, and what sending answers
    ([None] is an exception). *)
Record PostWorld := mkPostWorld {
  pw_now : Z;
  pw_env : FlagEnv;
  pw_policy : option ResolvedPolicy;
  pw_random1 : Q;
  pw_random2 : Q;
  pw_stats : TaskType → option (list ModelOutcomeStatsRow);
  pw_sessions : option (gmap string JaceSession);
  pw_approvalId : string;
  pw_callbackToken : string;
  pw_records : bool;
  pw_botToken : option string;
  pw_sends : option bool;
}.
(** The catalogue of the process, the approvals, and the messages sent: the
    conversation and the approval of each. *)
Record PostState := mkPostState {
  ps_catalog : Catalog;
  ps_approvals : approval_table;
  ps_sent : list (string * string);
}.

Definition NO_LINK : string :=
  "No direct issue link available for this entry (admitted outside the GitHub webhook path).".
Definition with_assumption (s : string) (b : AlignmentBriefToolInput) : AlignmentBriefToolInput :=
  mkBrief (ab_title b) (ab_whatToBuild b) (ab_acceptanceCriteria b) (ab_requirementDecision b) (ab_taskType b)
    (ab_slug b) (ab_displayName b) (ab_estimateUsd b) (ab_assumptions b ++ [s]) (ab_repoFullName b)
    (ab_issueNumber b) (ab_issueUrl b) (ab_modelSelectionReason b).

Definition brief_to_post (p : PostParams) (w : PostWorld) (c : Catalog) : AlignmentBriefToolInput * Catalog :=
  let repoFullName := default "" (pp_repoFullName p) in
  let number := default 0%N (pp_number p) in
  let input := mkTaskInput (pp_title p) (pp_body p) (parseAcceptanceCriteriaForBrief (pp_body p)) in
  let modelSelection := resolveModelSelectionForBrief (pw_env w) input (Some (pp_workspaceId p)) (pw_policy w)
                          (pw_random1 w) (pw_random2 w) (pw_stats w (classifyTaskType input)) in
  let '(brief, c) := composeAlignmentBrief (pp_title p) (pp_body p) repoFullName number
    (if repoFullName ≡? "" then "" else githubIssueUrl repoFullName number) modelSelection c in
  (if repoFullName ≡? "" then with_assumption NO_LINK brief else brief, c).

Definition brief_request_id (queueEntryId : string) : string := "alignment-brief:" +:+ queueEntryId.
Definition brief_input (p : PostParams) (brief : AlignmentBriefToolInput) (sid eve : string) (s : JaceSession)
    : ApprovalInput :=
  mkApprovalInput (Some (pp_workspaceId p)) (ss_chat_identity_id s) sid eve
    (default (brief_request_id (pp_queueEntryId p)) (pp_requestId p)) "alignment_brief" (brief_json brief)
    "approve" "deny" None (Some (pp_queueEntryId p)) None.

(** Composing is total here, so [compose_failed] is never the answer. *)
Definition postAlignmentBrief (p : PostParams) (w : PostWorld) (st : PostState) : AlignmentBriefOutcome * PostState :=
  let '(brief, c) := brief_to_post p w (ps_catalog st) in
  let st := mkPostState c (ps_approvals st) (ps_sent st) in
  match pw_sessions w with
  | None => (session_lookup_failed, st)
  | Some sessions =>
      match latestTelegramSessionForWorkspace (pp_workspaceId p) sessions with
      | Some (sid, mkJaceSession ws identity channel key (Some (String _ _ as eve)) at_) =>
          let s := mkJaceSession ws identity channel key (Some eve) at_ in
          if negb (pw_records w) then (record_failed, st) else
          match recordApprovalRequest (pw_now w) (pw_approvalId w) (pw_callbackToken w)
                  (brief_input p brief sid eve s) (ps_approvals st) with
          | (inl _, _) => (record_failed, st)
          | (inr (id, _, created), t) =>
              let st := mkPostState c t (ps_sent st) in
              if negb created then (posted, st)
              else if channel ≢? "telegram" then (posted, st)
              else match truthy_text (pw_botToken w), pw_sends w with
                   | Some _, Some true => (posted, mkPostState c t (ps_sent st ++ [(key, id)]))
                   | _, _ => (send_failed, st)
                   end
          end
      | _ => (no_session, st)
      end
  end.

(** ** Revising *)

(** [updatedAt.getTime()], in milliseconds *)
Definition revise_request_id (queueEntryId : string) (updatedAt : Z) : string :=
  brief_request_id queueEntryId +:+ ":revise-" +:+ show_Z (updatedAt / 1000).

Inductive ReviseAndRepostResult :=
  | revised (outcome : AlignmentBriefOutcome)
  | not_revised_not_found
  | not_revised_not_denied.
Definition with_request (r : string) (p : PostParams) : PostParams :=
  mkPostParams (pp_workspaceId p) (pp_queueEntryId p) (pp_title p) (pp_body p) (pp_repoFullName p) (pp_number p) (Some r).
Definition reviseAndRepostAlignmentBrief (p : PostParams) (w : PostWorld) (st : PostState)
    (t : gmap string QueueEntry) : ReviseAndRepostResult * PostState * gmap string QueueEntry :=
  match reviseAlignmentBrief (pw_now w) (pp_queueEntryId p) (pp_title p) (pp_body p) t with
  | (revise_not_found, t) => (not_revised_not_found, st, t)
  | (revise_not_denied, t) => (not_revised_not_denied, st, t)
  | (revise_ok updatedAt, t) =>
      let '(outcome, st) := postAlignmentBrief (with_request (revise_request_id (pp_queueEntryId p) updatedAt) p) w st in
      (revised outcome, st, t)
  end.

(** ** The sweeps *)

Definition deriveGithubRef (source : QueueSource) (externalId : string) : option (string * N) :=
  if source ≢? github then None else
  match split_last hash_char externalId with
  | Some (repoFullName, n) =>
      number ← read_N n; if repoFullName ≡? "" then None else Some (repoFullName, number)
  | None => None
  end.

(** The columns of the approvals the sweeps read. *)
Definition admission_view (t : approval_table) : list Approval :=
  (λ kr, mkApproval (ap_workspace_id kr.2) (ap_status kr.2) (ap_tool_name kr.2) (ap_tool_input kr.2)
           (ap_published_issue_url kr.2) (ap_queue_entry_id kr.2)) <$> map_to_list t.

Definition sweep_params (request : option string) (row : string * QueueEntry) : PostParams :=
  let ref := deriveGithubRef (qe_source row.2) (qe_external_id row.2) in
  mkPostParams (qe_workspace_id row.2) row.1 (qe_title row.2) (qe_body row.2) (fst <$> ref) (snd <$> ref) request.
Fixpoint sweep (request : string * QueueEntry → option string) (world : string → PostWorld)
    (rows : list (string * QueueEntry)) (st : PostState) : list (string * AlignmentBriefOutcome) * PostState :=
  match rows with
  | [] => ([], st)
  | row :: rows =>
      let '(outcome, st) := postAlignmentBrief (sweep_params (request row) row) (world row.1) st in
      let '(outcomes, st) := sweep request world rows st in
      ((row.1, outcome) :: outcomes, st)
  end.

(** [q] and [bs] are the queue and the briefs of products, which the sweeps only
    read. *)
Definition sweep_db (q : QueueDb) (bs : gmap string string) (st : PostState) : IntakeDb :=
  mkIntakeDb q (admission_view (ps_approvals st)) bs.
Definition reconcileAlignmentBriefs (workspaceId : string) (limit : nat) (q : QueueDb) (bs : gmap string string)
    (world1 world2 : string → PostWorld) (st : PostState) : list (string * AlignmentBriefOutcome) * PostState :=
  let '(outcomes1, st) := sweep (λ _, None) world1
    (findAlignmentBriefCandidates workspaceId limit (sweep_db q bs st)) st in
  let '(outcomes2, st) := sweep (λ row, Some (revise_request_id row.1 (qe_updated_at row.2))) world2
    (findRevisedBriefRecoveryCandidates workspaceId limit (sweep_db q bs st)) st in
  (outcomes1 ++ outcomes2, st).

(** ** The decision *)

Inductive AlignmentEffect :=
  | to_dependency_contract
  | no_effect
  | entry_denied (found : bool)
  | entry_confirmed (found : bool)
  | unusable_brief.
Definition applyAlignmentDecision (now : Z) (approval : JaceApproval) (decision : Decision)
    (t : gmap string QueueEntry) : AlignmentEffect * gmap string QueueEntry :=
  if (ap_tool_name approval ≡? "dependency_upgrade_contract") || negb (is_null (ap_dependency_contract_id approval))
  then (to_dependency_contract, t)
  else match truthy_text (ap_queue_entry_id approval), decision with
       | None, _ => (no_effect, t)
       | Some queueEntryId, dec_denied =>
           let '(found, t) := denyAlignmentBrief now queueEntryId t in (entry_denied found, t)
       | Some queueEntryId, dec_approved =>
           match extractConfirmedBudgetAndModel (ap_tool_input approval) with
           | None => (unusable_brief, t)
           | Some confirmed =>
               let '(found, t) := confirmAlignmentBrief now
                 (mkConfirmInput queueEntryId (numeric_cents (cf_estimatedBudgetUsd confirmed))
                    (cf_modelOverride confirmed) (cf_taskType confirmed)) t in
               (entry_confirmed found, t)
           end
       end.

(** ** The enrichment of an issue request *)

Definition text_or_empty (v : option json) : string := match v with Some (JStr s) => s | _ => "" end.

(** [findBrief] and [findInvestigation] are the reads by id: [None] throws,
    [Some None] finds nothing. *)
Definition stampBriefLineage (toolInput : list (string * json)) (workspaceId anchoredBriefId : option string)
    (findBrief : string → string → option (option string)) : list (string * json) :=
  match truthy_text workspaceId, truthy_text anchoredBriefId with
  | Some ws, Some anchor =>
      match findBrief ws anchor with
      | Some (Some id) => without_keys ["_briefLineage"] toolInput ++ [("_briefLineage", JObj [("briefId", JStr id)])]
      | _ => toolInput
      end
  | _, _ => toolInput
  end.

Definition ISSUE_ROLE_LINE_RE : regex :=
  (Bol ⋅ liti "Role:" ⋅ many sp ⋅ Group 1 (liti "mitigative" ∥ liti "preventative") ⋅ many sp ⋅ Eol)%re.
Definition parseIssueRoleFromRequiredContext (requiredContext : option json) : string :=
  match requiredContext with
  | Some (JStr s) =>
      match exec ISSUE_ROLE_LINE_RE s ≫= capture 1 with
      | Some r => if bool_decide (lower r ∈ ["mitigative"; "preventative"]) then lower r else "preventative"
      | None => "preventative"
      end
  | _ => "preventative"
  end.
(** An investigation found is its id with its workspace. *)
Definition stampInvestigationLink (toolInput : list (string * json)) (workspaceId anchoredInvestigationId : option string)
    (findInvestigation : string → option (option (string * string))) : list (string * json) :=
  match truthy_text anchoredInvestigationId with
  | None => toolInput
  | Some anchor =>
      match findInvestigation anchor with
      | Some (Some (id, ws)) =>
          if workspaceId ≡? Some ws then
            without_keys ["_investigation"] toolInput
            ++ [("_investigation", JObj [("id", JStr id);
                  ("role", JStr (parseIssueRoleFromRequiredContext (json_field (JObj toolInput) "requiredContext")))])]
          else toolInput
      | _ => toolInput
      end
  end.

Definition enrichCreateIssueToolInput (toolInput : list (string * json))
    (workspaceId anchoredBriefId anchoredInvestigationId : option string) (w : PostWorld) (c : Catalog)
    (findBrief : string → string → option (option string))
    (findInvestigation : string → option (option (string * string))) : json * Catalog :=
  let rest := without_keys ["_brief"; "_briefLineage"; "_investigation"] toolInput in
  let field k := json_field (JObj rest) k in
  let input := mkTaskInput (text_or_empty (field "title")) (text_or_empty (field "whatToBuild"))
                 (strings_of (field "acceptanceCriteria")) in
  let modelSelection := resolveModelSelectionForBrief (pw_env w) input workspaceId (pw_policy w)
                          (pw_random1 w) (pw_random2 w) (pw_stats w (classifyTaskType input)) in
  let '(brief, c) := composeChatBornBrief input modelSelection c in
  let withBrief := rest ++ [("_brief", chat_json brief)] in
  let withBriefLineage := stampBriefLineage withBrief workspaceId anchoredBriefId findBrief in
  (JObj (stampInvestigationLink withBriefLineage workspaceId anchoredInvestigationId findInvestigation), c).
