(* ===== verification/BriefFacts.v ===== *)
(** * BriefFacts: what a human approves is what is enforced

    Theorems of [AlignmentBrief]: the stored brief reads back, the approval of a
    posted brief writes exactly its estimate and model to the queue, a caller
    cannot write the keys the server reserves, a request is asked once, and a swept
    entry leaves the sweep. *)

From S2P Require Import Prelude Table Regex QueueSchema QueueText AlignmentGate Intake Policy JsonText JsonValue.
From S2P Require Import RecordSchema Approvals ModelPool ModelChoice ModelFacts ModelPrice PriceFacts Requirement AlignmentBrief.
From Stdlib Require Import QArith Qround Ascii.
From stdpp Require Import sorting.
Open Scope Z_scope.

(** ** Reading back *)

Lemma strings_of_json l : strings_of (Some (strings_json l)) = l.
Proof. cbn. induction l as [|s l IH]; [done|]. cbn. by rewrite IH. Qed.

Definition decision_text_of (d : RequirementDecision) : string :=
  match d with accept_brief _ _ => "accept" | refuse_brief _ _ _ => "refuse" end.
Definition decision_basis (d : RequirementDecision) : list string :=
  match d with accept_brief _ b => b | refuse_brief _ b _ => b end.
Definition decision_code (d : RequirementDecision) : option string :=
  match d with accept_brief _ _ => None | refuse_brief _ _ r => Some (code_text (rf_code r)) end.
Definition decision_family (d : RequirementDecision) : option TaskType :=
  match d with accept_brief f _ | refuse_brief f _ _ => f end.

Lemma confidence_reads r b : json_field r "confidence" = Some (confidence_json b) → unknown_confidence r = Some b.
Proof.
  intros H. unfold unknown_confidence. rewrite H.
  change (as_object (Some (confidence_json b))) with (Some (confidence_json b)).
  change (field_of (Some (confidence_json b)) "state") with (Some (JStr "unknown")).
  change (field_of (Some (confidence_json b)) "basis") with (Some (strings_json b)).
  by rewrite strings_of_json.
Qed.
Lemma requirement_of_decision input d :
  nullish (json_field input "requirementDecision")
    (field_of (as_object (json_field input "_brief")) "requirementDecision") = Some (decision_json d) →
  requirementEvidenceFromToolInput input
  = Some (mkRequirement (decision_text_of d) (Some (family_text (decision_family d))) (decision_code d)
            (Some (decision_basis d))).
Proof.
  intros H. unfold requirementEvidenceFromToolInput. rewrite H. unfold decision_json.
  destruct d as [f b|f b [code copy g b']]; cbn [decision_text_of decision_family decision_basis decision_code];
    cbn match; rewrite (confidence_reads _ b) by reflexivity.
  - by destruct f as [[]|].
  - by destruct f as [[]|], code.
Qed.

Lemma numeric_cents_whole n q : (q == inject_Z n / inject_Z 100)%Q → numeric_cents q = n.
Proof.
  intros H. assert (q * 100 == inject_Z n)%Q as Hq by (rewrite H; field).
  assert (Hr : ∀ x z, (x == inject_Z z)%Q → math_round x = z).
  { intros x z Hx. rewrite <- (math_round_Z z). unfold math_round. apply Qfloor_comp. by rewrite Hx. }
  unfold numeric_cents. destruct (Qle_bool 0 (q * 100)); [by apply Hr|].
  rewrite (Hr _ (- n)); [lia|]. rewrite Hq. by rewrite inject_Z_opp.
Qed.

(** A model the program may propose: a seat of the pool or of the catalogue. *)
Lemma proposed_shipped env input ws policy r1 r2 stats :
  shipped (default (MODEL_CATALOG (classifyTaskType input))
    (mb_model <$> resolveModelSelectionForBrief env input ws policy r1 r2 stats)).
Proof.
  destruct (resolveModelSelectionForBrief _ _ _ _ _ _ _) as [b|] eqn:E; cbn; [|left; by eexists].
  unfold resolveModelSelectionForBrief in E. destruct (truthy_text ws); [|done]. destruct (negb _); [done|].
  destruct (if subscriptionsEnforced env then _ else _) as [filter|]; [|done]. cbn [mbind option_bind] in E.
  destruct stats as [stats|]; [|done].
  destruct (select_from_pool (classifyTaskType input) filter DEFAULT_MIN_RUNS DEFAULT_EXPLORATION_RATE r1 r2 stats)
    as (sel & c & Hsel & Hseat & Hcs & _).
  rewrite Hsel in E. injection E as <-. right. exists c. split; [|done].
  unfold MODEL_SEATS in Hseat. apply find_some in Hseat as [Hin _]. by apply list_elem_of_In.
Qed.
Lemma shipped_slug s : shipped s → ∃ a r, seat_slug s = String a r.
Proof.
  intros [(t & ->)|(c & Hc & ->)]; [destruct t; by do 2 eexists|].
  assert (forallb (λ c, match seat_slug (cs_seat c) with String _ _ => true | _ => false end) seats = true) as H by by vm_compute.
  apply list_elem_of_In in Hc. apply (proj1 (forallb_forall _ _) H) in Hc. destruct (seat_slug (cs_seat c)); [done|by eauto].
Qed.

Definition task_of (p : PostParams) : TaskInput :=
  mkTaskInput (pp_title p) (pp_body p) (parseAcceptanceCriteriaForBrief (pp_body p)).
Definition decision_of (i : TaskInput) : RequirementDecision :=
  decideRequirementContract (mkDecisionInput (ti_title i) (ti_whatToBuild i) (ti_acceptanceCriteria i) None).

(** What a brief proposes: the seat, its price and the whole cents. *)
Record proposal (i : TaskInput) (t : TaskType) (slug : string) (usd : Q) : Prop := {
  pr_seat : ∃ s, shipped s ∧ slug = seat_slug s;
  pr_cents : ∃ n, (usd == inject_Z n / inject_Z 100)%Q;
  pr_task : t = classifyTaskType i;
}.

Lemma estimate_proposes env i ws policy r1 r2 stats c :
  let e := (estimateBrief i (mb_model <$> resolveModelSelectionForBrief env i ws policy r1 r2 stats) c).1 in
  proposal i (be_taskType e) (seat_slug (be_suggestedModel e)) (be_estimateUsd e).
Proof.
  unfold estimateBrief. destruct (resolveModelPrice _ c) as [price c'].
  split; cbn [fst be_taskType be_suggestedModel be_estimateUsd]; [|by eexists|done].
  eexists. split; [apply proposed_shipped|done].
Qed.

Lemma brief_to_post_proposes p w c :
  let b := (brief_to_post p w c).1 in
  proposal (task_of p) (ab_taskType b) (ab_slug b) (ab_estimateUsd b)
  ∧ ab_requirementDecision b = decision_of (task_of p) ∧ ab_title b = pp_title p ∧ ab_whatToBuild b = pp_body p.
Proof.
  unfold brief_to_post, composeAlignmentBrief. fold (task_of p).
  pose proof (estimate_proposes (pw_env w) (task_of p) (Some (pp_workspaceId p)) (pw_policy w) (pw_random1 w)
    (pw_random2 w) (pw_stats w (classifyTaskType (task_of p))) c) as H.
  destruct (estimateBrief _ _ c) as [e c']. by destruct (default "" (pp_repoFullName p) ≡? "").
Qed.

Lemma brief_extracts b i : proposal i (ab_taskType b) (ab_slug b) (ab_estimateUsd b) →
  extractConfirmedBudgetAndModel (brief_json b)
  = Some (mkConfirmed (ab_estimateUsd b) (ab_slug b) (Some (task_text (ab_taskType b)))).
Proof.
  intros [(s & Hs & Hslug) _ _]. destruct (shipped_slug s Hs) as (a & r & Hr). rewrite Hr in Hslug.
  unfold extractConfirmedBudgetAndModel.
  assert (∀ k v, (k, v) ∈ [("estimateUsd", JNum (ab_estimateUsd b)); ("suggestedModel", model_json (ab_slug b) (ab_displayName b));
      ("taskType", JStr (task_text (ab_taskType b))); ("requirementDecision", decision_json (ab_requirementDecision b))] →
    json_field (brief_json b) k = Some v) as Hf.
  { unfold brief_json. intros k v Hk. destruct (ab_modelSelectionReason b); cbn [reason_field];
      repeat (apply elem_of_cons in Hk as [[= -> ->]|Hk]; [reflexivity|]); by apply elem_of_nil in Hk. }
  rewrite (Hf "estimateUsd" _ ltac:(by left)), (Hf "suggestedModel" _ ltac:(right; by left)),
    (Hf "taskType" _ ltac:(do 2 right; by left)).
  cbn [mbind option_bind]. change (json_field (model_json (ab_slug b) (ab_displayName b)) "slug") with (Some (JStr (ab_slug b))).
  rewrite Hslug. by destruct (ab_taskType b).
Qed.
Lemma brief_requirement b :
  requirementEvidenceFromToolInput (brief_json b)
  = let d := ab_requirementDecision b in
    Some (mkRequirement (decision_text_of d) (Some (family_text (decision_family d))) (decision_code d)
            (Some (decision_basis d))).
Proof.
  apply requirement_of_decision.
  assert (json_field (brief_json b) "requirementDecision" = Some (decision_json (ab_requirementDecision b))) as ->
    by (unfold brief_json; by destruct (ab_modelSelectionReason b)).
  by destruct (ab_requirementDecision b).
Qed.

(** C11 (roundtrip).  What is stored for a brief reads back.  The brief composed for
    a parked entry, whatever the selector, the plan and the gateway answered, is
    written as a value from which the decision step extracts exactly the estimate,
    the model and the task type of the brief, and from which the recorded approval
    takes exactly the requirement decision with its code and basis; the model is one
    the program ships, and the estimate, a whole number of cents, loses nothing in
    the column of the budget. *)
Theorem brief_reads_back p w c :
  let b := (brief_to_post p w c).1 in
  extractConfirmedBudgetAndModel (brief_json b)
    = Some (mkConfirmed (ab_estimateUsd b) (ab_slug b) (Some (task_text (classifyTaskType (task_of p)))))
  ∧ requirementEvidenceFromToolInput (brief_json b)
    = Some (mkRequirement (decision_text_of (decision_of (task_of p))) (Some "unknown")
              (decision_code (decision_of (task_of p))) (Some (decision_basis (decision_of (task_of p)))))
  ∧ (∃ s, shipped s ∧ ab_slug b = seat_slug s)
  ∧ (ab_estimateUsd b == inject_Z (numeric_cents (ab_estimateUsd b)) / inject_Z 100)%Q.
Proof.
  intros b. destruct (brief_to_post_proposes p w c) as (Hp & Hd & _). fold b in Hp, Hd. split_and!.
  - rewrite (brief_extracts b (task_of p) Hp). by rewrite (pr_task _ _ _ _ Hp).
  - rewrite brief_requirement, Hd. cbn zeta. unfold decision_of, decideRequirementContract.
    by destruct (codeFor _).
  - apply (pr_seat _ _ _ _ Hp).
  - destruct (pr_cents _ _ _ _ Hp) as [n Hn]. by rewrite (numeric_cents_whole n _ Hn).
Qed.

(** ** Posting *)

(** What one call does: nothing, find the row of its request, or add one. *)
Inductive post_effect (p : PostParams) (w : PostWorld) (st : PostState) : AlignmentBriefOutcome → PostState → Prop :=
| pe_nothing o c : o ≠ posted → o ≠ send_failed →
    post_effect p w st o (mkPostState c (ps_approvals st) (ps_sent st))
| pe_found c k r eve : ps_approvals st !! k = Some r →
    of_request eve (default (brief_request_id (pp_queueEntryId p)) (pp_requestId p)) k r = true →
    post_effect p w st posted (mkPostState c (ps_approvals st) (ps_sent st))
| pe_created o c sid s eve sent :
    ps_approvals st !! pw_approvalId w = None →
    select_where (of_request eve (default (brief_request_id (pp_queueEntryId p)) (pp_requestId p))) (ps_approvals st) = [] →
    (o = posted ∧ sent = ps_sent st ++ [(ss_conversation_key s, pw_approvalId w)] ∨ o = send_failed ∧ sent = ps_sent st) →
    post_effect p w st o (mkPostState c
      (<[pw_approvalId w := new_approval (pw_now w) (pw_callbackToken w)
           (brief_input p (brief_to_post p w (ps_catalog st)).1 sid eve s)]> (ps_approvals st)) sent).

Lemma latest_is_telegram ws t sid s : latestTelegramSessionForWorkspace ws t = Some (sid, s) → ss_channel s = "telegram".
Proof.
  unfold latestTelegramSessionForWorkspace, newest. intros H.
  apply oldest_Some in H as [H _]. apply elem_of_select_where in H as [_ H]. cbn in H. bools. done.
Qed.

Lemma post_effectP p w st : post_effect p w st (postAlignmentBrief p w st).1 (postAlignmentBrief p w st).2.
Proof.
  unfold postAlignmentBrief. destruct (brief_to_post p w (ps_catalog st)) as [brief c] eqn:Eb. cbn zeta.
  destruct (pw_sessions w) as [sessions|]; [|by apply pe_nothing].
  destruct (latestTelegramSessionForWorkspace _ sessions) as [[sid [ws identity channel key eve at_]]|] eqn:El;
    [|by apply pe_nothing].
  destruct eve as [[|a eve]|]; [by apply pe_nothing| |by apply pe_nothing].
  apply latest_is_telegram in El. cbn in El. subst channel.
  destruct (pw_records w); [|by apply pe_nothing]. cbn [negb].
  match goal with |- context [recordApprovalRequest ?n ?i ?k ?x ?t] =>
    pose proof (record_request_spec n i k x t) as Hr; destruct (recordApprovalRequest n i k x t) as [[e|[[id r] [|]]] t'] end.
  - by apply pe_nothing.
  - destruct Hr as (-> & Hnone & -> & -> & Hsel & _). cbn [negb].
    rewrite bool_decide_eq_true_2 by done. cbn [negb].
    set (s := mkJaceSession ws identity "telegram" key (Some (String a eve)) at_) in *.
    change (ai_eveSessionId (brief_input p brief sid (String a eve) s)) with (String a eve) in Hsel.
    change (ai_requestId (brief_input p brief sid (String a eve) s)) with
      (default (brief_request_id (pp_queueEntryId p)) (pp_requestId p)) in Hsel.
    pose proof (pe_created p w st) as Hc. rewrite Eb in Hc. cbn [fst] in Hc.
    destruct (truthy_text (pw_botToken w)), (pw_sends w) as [[]|];
      apply (Hc _ c sid s (String a eve)); try done; (by left) || (by right).
  - destruct Hr as (-> & Hk & Hof). cbn [negb]. exact (pe_found p w st c id r (String a eve) Hk Hof).
Qed.
Lemma post_cases p w st o st' : postAlignmentBrief p w st = (o, st') → post_effect p w st o st'.
Proof. intros H. pose proof (post_effectP p w st) as Hp. by rewrite H in Hp. Qed.

Lemma confirm_hit now i t e : t !! ci_queueEntryId i = Some e → qe_state e = parked →
  confirmAlignmentBrief now i t = (true, <[ci_queueEntryId i := confirm_row now t i e]> t).
Proof. intros Ht He. unfold confirmAlignmentBrief, update_row. by rewrite Ht, He, bool_decide_eq_true_2. Qed.
Lemma deny_hit now k t e : t !! k = Some e → qe_state e = parked →
  denyAlignmentBrief now k t
  = (true, <[k := set_qe_updated_at now (set_qe_park_reason (Some ALIGNMENT_DENIED_PARK_REASON) e)]> t).
Proof. intros Ht He. unfold denyAlignmentBrief, update_row. by rewrite Ht, He, bool_decide_eq_true_2. Qed.

(** C6 (refinement).  What a human approves is what is enforced.  When a call records
    a new approval for an entry, the row is pending and carries the requirement
    decision of the brief; and whatever later happens to that row, as long as what
    was asked stays, approving it while the entry is parked writes to this entry
    alone the model of the brief, its task type and its estimate to the cent, and
    denying it leaves the entry parked, without a budget it did not have, under the
    reason of a denial. *)
Theorem approved_brief_enforced p w st o st' id r :
  postAlignmentBrief p w st = (o, st') → ps_approvals st !! id = None → ps_approvals st' !! id = Some r →
  let b := (brief_to_post p w (ps_catalog st)).1 in
  ap_status r = "pending" ∧ ap_requirement_decision r = Some (decision_text_of (ab_requirementDecision b))
  ∧ ap_requirement_refusal_code r = decision_code (ab_requirementDecision b)
  ∧ ∀ r2 now t e, request_part r2 = request_part r → pp_queueEntryId p ≠ "" →
      t !! pp_queueEntryId p = Some e → qe_state e = parked →
      (∃ e', applyAlignmentDecision now r2 dec_approved t = (entry_confirmed true, <[pp_queueEntryId p := e']> t)
        ∧ qe_estimated_budget_usd e' = Some (numeric_cents (ab_estimateUsd b))
        ∧ (ab_estimateUsd b == inject_Z (numeric_cents (ab_estimateUsd b)) / inject_Z 100)%Q
        ∧ qe_model_override e' = Some (ab_slug b)
        ∧ qe_task_type e' = Some (task_text (classifyTaskType (task_of p))))
      ∧ ∃ e', applyAlignmentDecision now r2 dec_denied t = (entry_denied true, <[pp_queueEntryId p := e']> t)
        ∧ qe_state e' = parked ∧ qe_park_reason e' = Some ALIGNMENT_DENIED_PARK_REASON
        ∧ qe_estimated_budget_usd e' = qe_estimated_budget_usd e.
Proof.
  intros He%post_cases Hnone Hr b.
  destruct He as [o c _ _|c k x eve _ _|o c sid s eve sent _ _ _]; cbn [ps_approvals] in Hr; [congruence..|].
  destruct (decide (pw_approvalId w = id)) as [Hid|Hne]; [|by rewrite lookup_insert_ne in Hr by done; congruence].
  rewrite Hid, lookup_insert_eq in Hr. injection Hr as <-. fold b.
  destruct (brief_to_post_proposes p w (ps_catalog st)) as (Hp & _). fold b in Hp.
  unfold new_approval. cbn [ai_toolInput brief_input]. rewrite brief_requirement. cbn zeta.
  split; [done|]. split; [done|]. split; [done|].
  intros r2 now t e Hq Hk Ht Hparked.
  assert (ap_tool_name r2 = "alignment_brief" ∧ ap_tool_input r2 = brief_json b
    ∧ ap_queue_entry_id r2 = Some (pp_queueEntryId p) ∧ ap_dependency_contract_id r2 = None)
    as (Htool & Hinput & Hqe & Hdep) by (unfold request_part in Hq; injection Hq; by intros).
  unfold applyAlignmentDecision. rewrite Htool, Hinput, Hqe, Hdep. cbn [is_null negb orb].
  rewrite bool_decide_eq_false_2 by done. cbn [orb].
  assert (truthy_text (Some (pp_queueEntryId p)) = Some (pp_queueEntryId p)) as -> by by destruct (pp_queueEntryId p).
  split.
  - rewrite (brief_extracts b (task_of p) Hp). cbn zeta. cbn [cf_estimatedBudgetUsd cf_modelOverride cf_taskType].
    rewrite (confirm_hit now _ t e) by done. eexists. split; [reflexivity|]. rewrite <- (pr_task _ _ _ _ Hp). split_and!; try reflexivity.
    destruct (pr_cents _ _ _ _ Hp) as [n Hn]. by rewrite (numeric_cents_whole n _ Hn).
  - rewrite (deny_hit now _ t e) by done. eexists. split; [reflexivity|]. by rewrite <- Hparked; destruct e.
Qed.

(** ** Histories of posts and decisions *)

Inductive brief_op := bo_post (p : PostParams) (w : PostWorld) | bo_approval (o : approval_op).
Definition brief_step (o : brief_op) (st : PostState) : PostState :=
  match o with
  | bo_post p w => (postAlignmentBrief p w st).2
  | bo_approval o => mkPostState (ps_catalog st) (exec_approval o (ps_approvals st)) (ps_sent st)
  end.
Definition brief_run (l : list brief_op) (st : PostState) : PostState := fold_left (λ st o, brief_step o st) l st.

(** A row after a step was there with the same request, or is new for its session
    and request. *)
Definition grown (t t' : approval_table) : Prop :=
  ∀ id r', t' !! id = Some r' →
    (∃ r, t !! id = Some r ∧ request_part r' = request_part r)
    ∨ t !! id = None ∧ select_where (of_request (ap_eve_session_id r') (ap_request_id r')) t = []
      ∧ ∀ id' r, t' !! id' = Some r → id' = id ∨ t !! id' = Some r.
Lemma grown_refl t : grown t t.
Proof. intros id r H. left. by exists r. Qed.
Lemma grown_insert t id r :
  t !! id = None → select_where (of_request (ap_eve_session_id r) (ap_request_id r)) t = [] → grown t (<[id := r]> t).
Proof.
  intros Hid Hs k r' Hk. destruct (decide (id = k)) as [<-|Hne].
  - rewrite lookup_insert_eq in Hk. injection Hk as <-. right. split_and!; try done.
    intros id' r2 H. destruct (decide (id = id')) as [<-|Hne]; [by left|]. right. by rewrite lookup_insert_ne in H.
  - rewrite lookup_insert_ne in Hk by done. left. by exists r'.
Qed.
Lemma grown_update k (p : JaceApproval → bool) f t :
  (∀ r, p r = true → request_part (f r) = request_part r) → grown t (update_row k p f t).2.
Proof.
  intros Hf. destruct (update_rowP p f k t) as [r Hk Hp|_]; [|apply grown_refl].
  intros id r' Hid. cbn in Hid. left. destruct (decide (k = id)) as [<-|Hne].
  - rewrite lookup_insert_eq in Hid. injection Hid as <-. exists r. split; [done|by apply Hf].
  - rewrite lookup_insert_ne in Hid by done. by exists r'.
Qed.
Lemma exec_approval_grown o t : grown t (exec_approval o t).
Proof.
  destruct o as [now id token i|c id d url|id url]; cbn [exec_approval].
  - pose proof (record_request_spec now id token i t) as H.
    destruct (recordApprovalRequest now id token i t) as [[e|[[k r] [|]]] t']; cbn [snd].
    + subst. apply grown_refl.
    + destruct H as (-> & Hid & -> & -> & Hs & _). by apply grown_insert.
    + destruct H as [-> _]. apply grown_refl.
  - unfold resolveApproval.
    pose proof (grown_update id is_pending (λ r, set_ap_status (decision_text d) (js_now c)
      (set_ap_url url (resolved_requirement (db_now c) d r))) t) as H.
    destruct (update_row id is_pending _ t) as [row t']. cbn [snd] in *. apply H.
    intros r Hr. apply (later_request _ _ (resolved_later c d url r Hr)).
  - unfold stampPublishedIssueUrl.
    pose proof (grown_update id (stampable url) (set_ap_url (Some url)) t) as H.
    destruct (update_row id (stampable url) _ t) as [[?|] t']; cbn [snd] in *; apply H;
      intros r Hr; apply (later_request _ _ (stamped_later url r Hr)).
Qed.
Lemma post_grown p w st : grown (ps_approvals st) (ps_approvals (postAlignmentBrief p w st).2).
Proof.
  destruct (post_effectP p w st) as [o c _ _|c k x eve _ _|o c sid s eve sent Hn Hs _]; cbn [ps_approvals];
    [apply grown_refl..|by apply grown_insert].
Qed.

Definition one_per_request (t : approval_table) : Prop :=
  ∀ id id' r r', t !! id = Some r → t !! id' = Some r' →
    ap_eve_session_id r = ap_eve_session_id r' → ap_request_id r = ap_request_id r' → id = id'.
Lemma request_part_key r r' : request_part r = request_part r' →
  ap_eve_session_id r = ap_eve_session_id r' ∧ ap_request_id r = ap_request_id r'.
Proof. unfold request_part. intros H. injection H. by intros. Qed.
Lemma no_request_row eve req (t : approval_table) id r : select_where (of_request eve req) t = [] → t !! id = Some r →
  ¬ (ap_eve_session_id r = eve ∧ ap_request_id r = req).
Proof.
  intros Hs Hr [He Hq]. assert ((id, r) ∈ select_where (of_request eve req) t) as H; [|rewrite Hs in H; by apply elem_of_nil in H].
  apply elem_of_select_where. split; [done|]. unfold of_request. cbn. by rewrite He, Hq, !bool_decide_eq_true_2.
Qed.
Lemma one_per_request_grown t t' : grown t t' → one_per_request t → one_per_request t'.
Proof.
  intros Hg H id id' r r' Hr Hr' He Hq.
  destruct (Hg _ _ Hr) as [(s & Hs & Hp)|(Hn & Hsel & Honly)], (Hg _ _ Hr') as [(s' & Hs' & Hp')|(Hn' & Hsel' & Honly')].
  - apply request_part_key in Hp as [? ?], Hp' as [? ?]. eapply H; [done..|congruence|congruence].
  - destruct (Honly' _ _ Hr) as [?|Hold]; [done|]. exfalso. eapply no_request_row; [exact Hsel'|exact Hold|done].
  - destruct (Honly _ _ Hr') as [?|Hold]; [done|]. exfalso. eapply no_request_row; [exact Hsel|exact Hold|done].
  - destruct (Honly' _ _ Hr) as [?|Hold]; [done|]. congruence.
Qed.

Record asked (st : PostState) : Prop := {
  as_unique : one_per_request (ps_approvals st);
  as_nodup : NoDup (ps_sent st).*2;
  as_known : ∀ key id, (key, id) ∈ ps_sent st → is_Some (ps_approvals st !! id);
}.
Lemma post_keeps p w st id : is_Some (ps_approvals st !! id) → is_Some (ps_approvals (postAlignmentBrief p w st).2 !! id).
Proof.
  intros H. destruct (post_effectP p w st) as [o c _ _|c k x eve _ _|o c sid s eve sent Hn _ _]; cbn [ps_approvals]; [done..|].
  destruct (decide (pw_approvalId w = id)) as [<-|Hne]; [by rewrite lookup_insert_eq|by rewrite lookup_insert_ne].
Qed.
Lemma asked_step o st : asked st → asked (brief_step o st).
Proof.
  intros [Hu Hn Hk]. destruct o as [p w|o]; cbn [brief_step].
  - split; [by eapply one_per_request_grown; [apply post_grown|]|..].
    + destruct (post_effectP p w st) as [o c _ _|c k x eve _ _|o c sid s eve sent Hnone _ [[_ ->]|[_ ->]]]; cbn [ps_sent]; try done.
      rewrite fmap_app. apply NoDup_app. split_and!; [done| |apply NoDup_singleton].
      intros id (kv & -> & Hin)%list_elem_of_fmap Hid%list_elem_of_singleton. destruct kv as [key id].
      cbn in Hid. subst id. destruct (Hk _ _ Hin). congruence.
    + intros key id Hin.
      assert ((key, id) ∈ ps_sent st → is_Some (ps_approvals (postAlignmentBrief p w st).2 !! id)) as Hold
        by (intros ?; apply post_keeps; eauto).
      destruct (post_effectP p w st) as [o c _ _|c k x eve _ _|o c sid s eve sent Hnone _ [[_ ->]|[_ ->]]];
        cbn [ps_sent ps_approvals] in *; try (by apply Hold).
      apply elem_of_app in Hin as [?|Hin]; [by apply Hold|].
      apply list_elem_of_singleton in Hin as [= -> ->]. by rewrite lookup_insert_eq.
  - split; cbn [ps_approvals ps_sent].
    + eapply one_per_request_grown; [apply exec_approval_grown|done].
    + done.
    + intros key id Hin. destruct (Hk _ _ Hin) as [r Hr]. destruct (exec_approval_later o _ _ _ Hr) as (r' & Hr' & _). by eexists.
Qed.

(** C9 (invariant).  A request is asked once.  Over any history of posts, retries,
    sweeps and decisions on a table that starts empty: a session has one approval
    per request, an approval is announced by at most one message, and only an
    approval that was recorded is announced. *)
Theorem brief_asked_once l c :
  let st := brief_run l (mkPostState c ∅ []) in
  NoDup (ps_sent st).*2
  ∧ (∀ key id, (key, id) ∈ ps_sent st → is_Some (ps_approvals st !! id))
  ∧ ∀ id id' r r', ps_approvals st !! id = Some r → ps_approvals st !! id' = Some r' →
      ap_eve_session_id r = ap_eve_session_id r' → ap_request_id r = ap_request_id r' → id = id'.
Proof.
  intros st. assert (asked st) as [Hu Hn Hk]; [|by split_and!].
  unfold st, brief_run. assert (asked (mkPostState c ∅ [])) as H.
  { split; [intros id id' r r' H; cbn [ps_approvals] in H; by apply lookup_empty_Some in H|constructor|by intros ?? []%elem_of_nil]. }
  revert H. generalize (mkPostState c ∅ []). induction l as [|o l IH]; intros s H; [done|]. cbn. by apply IH, asked_step.
Qed.

(** ** The sweeps *)

(** What posts do to the approvals: rows stay as they are, new ones are pending. *)
Record extended (t t' : approval_table) : Prop := {
  ex_kept : t ⊆ t';
  ex_fresh : ∀ id r, t' !! id = Some r → t !! id = Some r ∨ ap_status r = "pending";
}.
#[export] Instance extended_preorder : PreOrder extended.
Proof.
  split; [intros t; split; [done|auto]|]. intros t1 t2 t3 [S1 F1] [S2 F2]. split; [by etrans|].
  intros id r H. destruct (F2 id r H) as [H'|?]; [|by right]. by apply F1.
Qed.
Lemma extended_insert t id r : t !! id = None → ap_status r = "pending" → extended t (<[id := r]> t).
Proof.
  intros Hn Hp. split; [by apply insert_subseteq|]. intros k r' H. destruct (decide (id = k)) as [<-|Hne].
  - rewrite lookup_insert_eq in H. injection H as <-. by right.
  - rewrite lookup_insert_ne in H by done. by left.
Qed.
Lemma post_extends p w st : extended (ps_approvals st) (ps_approvals (postAlignmentBrief p w st).2).
Proof.
  destruct (post_effectP p w st) as [o c _ _|c k x eve _ _|o c sid s eve sent Hn _ _]; cbn [ps_approvals];
    [done..|by apply extended_insert].
Qed.

(** A request in the form of an entry's own names that entry. *)
Definition plain_id (k : string) : Prop := contains_char ":" k = false.
Definition brief_rows (t : approval_table) : Prop :=
  ∀ id r k, t !! id = Some r → ap_request_id r = brief_request_id k → plain_id k → ap_queue_entry_id r = Some k.

Lemma contains_char_app c a b : contains_char c (a +:+ b) = contains_char c a || contains_char c b.
Proof. induction a as [|x a IH]; [done|]. rewrite append_cons. cbn [contains_char]. by rewrite IH, orb_assoc. Qed.
Lemma brief_request_id_inj k k' : brief_request_id k = brief_request_id k' → k = k'.
Proof. unfold brief_request_id. by intros H%(inj _). Qed.
Lemma revise_not_plain k n k' : revise_request_id k n = brief_request_id k' → ¬ plain_id k'.
Proof.
  unfold revise_request_id, brief_request_id, plain_id. rewrite append_assoc. intros H%(inj _). subst k'.
  rewrite contains_char_app. by rewrite orb_true_r.
Qed.

(** The two forms of a request. *)
Definition own_request (p : PostParams) : Prop :=
  pp_requestId p = None ∨ ∃ n, pp_requestId p = Some (revise_request_id (pp_queueEntryId p) n).
Lemma post_brief_rows p w st : own_request p → brief_rows (ps_approvals st) →
  brief_rows (ps_approvals (postAlignmentBrief p w st).2).
Proof.
  intros Hreq Hb. destruct (post_effectP p w st) as [o c _ _|c k x eve _ _|o c sid s eve sent Hn _ _]; cbn [ps_approvals]; [done..|].
  intros id r k Hr Hq Hk. destruct (decide (pw_approvalId w = id)) as [<-|Hne].
  - rewrite lookup_insert_eq in Hr. injection Hr as <-. cbn in Hq |- *.
    destruct Hreq as [Hr|[n Hr]]; rewrite Hr in Hq; cbn in Hq; [by apply brief_request_id_inj in Hq as ->|].
    by apply revise_not_plain in Hq.
  - rewrite lookup_insert_ne in Hr by done. by eapply Hb.
Qed.

(** An entry with an approval that names it. *)
Definition referenced (k : string) (t : approval_table) : Prop :=
  ∃ id r, t !! id = Some r ∧ ap_queue_entry_id r = Some k.
Lemma referenced_extended k t t' : extended t t' → referenced k t → referenced k t'.
Proof. intros [Hs _] (id & r & Hr & Hk). exists id, r. split; [by eapply lookup_weaken|done]. Qed.
(** Whatever is posted or decided later, it stays named. *)
Lemma referenced_later k t t' : approvals_later t t' → referenced k t → referenced k t'.
Proof.
  intros H (id & r & Hr & Hk). destruct (H id r Hr) as (r' & Hr' & [Hq _ _]). exists id, r'. split; [done|].
  rewrite <- Hk. unfold request_part in Hq. injection Hq. by intros.
Qed.
Lemma referenced_run k l st : referenced k (ps_approvals st) → referenced k (ps_approvals (brief_run l st)).
Proof.
  unfold brief_run. revert st. induction l as [|o l IH]; intros st H; [done|]. cbn [fold_left]. apply IH.
  destruct o as [p w|o]; cbn [brief_step ps_approvals].
  - eapply referenced_extended; [apply post_extends|done].
  - eapply referenced_later; [apply exec_approval_later|done].
Qed.
Lemma referenced_view k t : existsb (references k) (admission_view t) = true ↔ referenced k t.
Proof.
  unfold admission_view, referenced, references, sql_eq. rewrite existsb_exists. split.
  - intros (a & Ha & Hk). bools. apply list_elem_of_In, list_elem_of_fmap in Ha as ([id r] & -> & Hin).
    exists id, r. split; [by apply elem_of_map_to_list|done].
  - intros (id & r & Hr & Hk). eexists. split.
    + apply list_elem_of_In, list_elem_of_fmap. exists (id, r). split; [reflexivity|]. by apply elem_of_map_to_list.
    + cbn. by apply bool_decide_eq_true.
Qed.
Lemma post_references p w st o st' : pp_requestId p = None → plain_id (pp_queueEntryId p) → brief_rows (ps_approvals st) →
  postAlignmentBrief p w st = (o, st') → o = posted ∨ o = send_failed → referenced (pp_queueEntryId p) (ps_approvals st').
Proof.
  intros Hreq Hplain Hb Hp%post_cases Ho.
  destruct Hp as [o c H1 H2|c k r eve Hr Hof|o c sid s eve sent Hn _ _]; cbn [ps_approvals].
  - by destruct Ho.
  - unfold of_request in Hof. rewrite Hreq in Hof. bools. exists k, r. split; [done|]. by eapply Hb.
  - exists (pw_approvalId w). eexists. by rewrite lookup_insert_eq.
Qed.

Section Sweep.
Context (request : string * QueueEntry → option string) (world : string → PostWorld).

Lemma sweep_keys rows st : (sweep request world rows st).1.*1 = rows.*1.
Proof.
  revert st. induction rows as [|row rows IH]; intros st; [done|]. cbn [sweep].
  destruct (postAlignmentBrief _ _ st) as [o st1]. specialize (IH st1).
  destruct (sweep request world rows st1) as [os st2]. cbn in *. by rewrite IH.
Qed.
Lemma sweep_extends rows st : extended (ps_approvals st) (ps_approvals (sweep request world rows st).2).
Proof.
  revert st. induction rows as [|row rows IH]; intros st; [done|]. cbn [sweep].
  pose proof (post_extends (sweep_params (request row) row) (world row.1) st) as H.
  destruct (postAlignmentBrief _ _ st) as [o st1]. specialize (IH st1).
  destruct (sweep request world rows st1) as [os st2]. cbn in *. by etrans.
Qed.
Lemma sweep_brief_rows rows st : (∀ row, own_request (sweep_params (request row) row)) →
  brief_rows (ps_approvals st) → brief_rows (ps_approvals (sweep request world rows st).2).
Proof.
  intros Hown. revert st. induction rows as [|row rows IH]; intros st Hb; [done|]. cbn [sweep].
  pose proof (post_brief_rows _ (world row.1) st (Hown row) Hb) as H.
  destruct (postAlignmentBrief _ _ st) as [o st1]. specialize (IH st1 H).
  by destruct (sweep request world rows st1) as [os st2].
Qed.
Lemma sweep_references rows st : (∀ row, request row = None) → (∀ k, k ∈ rows.*1 → plain_id k) →
  brief_rows (ps_approvals st) →
  ∀ k o, (k, o) ∈ (sweep request world rows st).1 → o = posted ∨ o = send_failed →
    referenced k (ps_approvals (sweep request world rows st).2).
Proof.
  intros Hreq. revert st. induction rows as [|row rows IH]; intros st Hplain Hb k o; [by intros []%elem_of_nil|].
  cbn [sweep]. assert (Hr : pp_requestId (sweep_params (request row) row) = None) by apply Hreq.
  pose proof (post_references _ (world row.1) st _ (postAlignmentBrief (sweep_params (request row) row) (world row.1) st).2
    Hr (Hplain row.1 ltac:(by left)) Hb (surjective_pairing _)) as Hhead.
  pose proof (post_brief_rows _ (world row.1) st (or_introl Hr) Hb) as Hb1.
  destruct (postAlignmentBrief _ _ st) as [o1 st1]. cbn [fst snd] in *.
  pose proof (sweep_extends rows st1) as Hext. specialize (IH st1 (λ k Hk, Hplain k (list_elem_of_further _ _ _ Hk)) Hb1 k o).
  destruct (sweep request world rows st1) as [os st2]. cbn [fst snd] in *.
  intros [[= -> ->]|Hin]%elem_of_cons Ho; [|by apply IH]. eapply referenced_extended; [done|by apply Hhead].
Qed.
End Sweep.

Lemma page_keys_NoDup (p : string → QueueEntry → bool) key limit t : NoDup (order_limit key limit (select_where p t)).*1.
Proof.
  unfold order_limit, order_by. rewrite fmap_take.
  eapply sublist_NoDup; [|apply sublist_take]. rewrite merge_sort_Permutation. apply selected_keys_NoDup.
Qed.
Lemma elem_of_page_keys (p : string → QueueEntry → bool) key limit t k :
  k ∈ (order_limit key limit (select_where p t)).*1 → ∃ e, t !! k = Some e ∧ p k e = true.
Proof.
  intros ([k' e] & -> & H)%list_elem_of_fmap. apply elem_of_page, elem_of_select_where in H. by exists e.
Qed.

(** No entry of the first sweep is one of the second, which runs after it. *)
Lemma sweeps_apart ws n m q bs st st' k : extended (ps_approvals st) (ps_approvals st') →
  k ∈ (findAlignmentBriefCandidates ws n (sweep_db q bs st)).*1 →
  k ∉ (findRevisedBriefRecoveryCandidates ws m (sweep_db q bs st')).*1.
Proof.
  intros [_ Hfresh] (e & _ & H1)%elem_of_page_keys (e' & _ & H2)%elem_of_page_keys. cbn in H1, H2. bools.
  match goal with H : existsb _ (admission_view (ps_approvals st')) = true |- _ =>
    apply existsb_exists in H as (a & Ha & Hd) end.
  apply list_elem_of_In, list_elem_of_fmap in Ha as ([id r] & -> & Hin%elem_of_map_to_list). cbn in Hd. bools.
  destruct (Hfresh id r Hin) as [Hold|Hp]; [|congruence].
  match goal with H : existsb (references k) (admission_view (ps_approvals st)) = false |- _ =>
    apply not_true_iff_false in H; apply H, referenced_view end.
  exists id, r. split; [done|]. match goal with H : references _ _ = true |- _ => unfold references, sql_eq in H; cbn in H end.
  by bools.
Qed.

(** C10 (liveness).  The recovery settles.  One call of the reconciler posts for each
    entry at most once, leaves every approval as it was and adds pending ones only;
    and an entry of the admission sweep whose brief was recorded - sent or not -
    is found by no later admission sweep, whatever is posted, decided or stamped in
    between and however the queue, the briefs and the workspace asked for have
    changed, so that nothing is asked again.  Entries
    are assumed to have ids without a colon, as uuids do, and approvals in the form of
    an entry's own request to name it, which the call preserves. *)
Theorem reconcile_settles ws limit q bs world1 world2 st :
  brief_rows (ps_approvals st) → (∀ k, is_Some (queue_entries q !! k) → plain_id k) →
  let r := reconcileAlignmentBriefs ws limit q bs world1 world2 st in
  let first := (findAlignmentBriefCandidates ws limit (sweep_db q bs st)).*1 in
  NoDup r.1.*1 ∧ extended (ps_approvals st) (ps_approvals r.2) ∧ brief_rows (ps_approvals r.2)
  ∧ (∀ k, k ∈ first → k ∈ r.1.*1)
  ∧ ∀ k o, (k, o) ∈ r.1 → k ∈ first → o = posted ∨ o = send_failed →
      ∀ l ws' n q' bs', k ∉ (findAlignmentBriefCandidates ws' n (sweep_db q' bs' (brief_run l r.2))).*1.
Proof.
  intros Hb Hplain r first. unfold r, reconcileAlignmentBriefs. clear r.
  set (rows1 := findAlignmentBriefCandidates ws limit (sweep_db q bs st)) in *.
  pose proof (sweep_keys (λ _, None) world1 rows1 st) as Hk1.
  pose proof (sweep_extends (λ _, None) world1 rows1 st) as He1.
  assert (Hb1 : brief_rows (ps_approvals (sweep (λ _, None) world1 rows1 st).2))
    by (apply sweep_brief_rows; [by left|done]).
  assert (Hp1 : ∀ k, k ∈ rows1.*1 → plain_id k).
  { intros k (e & Hk & _)%elem_of_page_keys. apply Hplain. by exists e. }
  pose proof (sweep_references (λ _, None) world1 rows1 st (λ _, eq_refl) Hp1 Hb) as Href.
  destruct (sweep _ world1 rows1 st) as [os1 st1]. cbn [fst snd] in *.
  set (rows2 := findRevisedBriefRecoveryCandidates ws limit (sweep_db q bs st1)).
  set (req2 := λ row : string * QueueEntry, Some (revise_request_id row.1 (qe_updated_at row.2))).
  pose proof (sweep_keys req2 world2 rows2 st1) as Hk2.
  pose proof (sweep_extends req2 world2 rows2 st1) as He2.
  assert (Hb2 : brief_rows (ps_approvals (sweep req2 world2 rows2 st1).2)).
  { apply sweep_brief_rows; [|done]. intros row. right. by exists (qe_updated_at row.2). }
  destruct (sweep req2 world2 rows2 st1) as [os2 st2]. cbn [fst snd] in *.
  assert (Happart : ∀ k, k ∈ rows1.*1 → k ∉ rows2.*1) by (intros k; by apply sweeps_apart).
  split_and!.
  - rewrite fmap_app, Hk1, Hk2. apply NoDup_app. split_and!; [apply page_keys_NoDup|done|apply page_keys_NoDup].
  - by etrans.
  - done.
  - intros k Hk. rewrite fmap_app, Hk1. apply elem_of_app. by left.
  - intros k o [Hin|Hin]%elem_of_app Hfirst Ho l ws' n q' bs' (e & _ & H)%elem_of_page_keys.
    + cbn [sweep_db approvals] in H. bools.
      match goal with H : existsb _ _ = false |- _ => apply not_true_iff_false in H; apply H end.
      apply referenced_view, referenced_run. eapply referenced_extended; [done|by eapply Href].
    + apply (Happart k Hfirst). rewrite <- Hk2. apply list_elem_of_fmap. by exists (k, o).
Qed.

(** ** Requests to create an issue *)

Lemma json_field_stamp_lineage fields ws anchor find k : k ≠ "_briefLineage" →
  json_field (JObj (stampBriefLineage fields ws anchor find)) k = json_field (JObj fields) k.
Proof.
  intros Hk. unfold stampBriefLineage. repeat case_match; try done.
  rewrite json_field_other by done. apply json_field_without. set_solver.
Qed.
Lemma json_field_stamp_link fields ws anchor find k : k ≠ "_investigation" →
  json_field (JObj (stampInvestigationLink fields ws anchor find)) k = json_field (JObj fields) k.
Proof.
  intros Hk. unfold stampInvestigationLink. repeat case_match; try done.
  rewrite json_field_other by done. apply json_field_without. set_solver.
Qed.

Definition issue_task (toolInput : list (string * json)) : TaskInput :=
  mkTaskInput (text_or_empty (json_field (JObj toolInput) "title")) (text_or_empty (json_field (JObj toolInput) "whatToBuild"))
    (strings_of (json_field (JObj toolInput) "acceptanceCriteria")).

Lemma chat_extracts toolInput b i : json_field toolInput "_brief" = Some (chat_json b) →
  proposal i (cb_taskType b) (cb_slug b) (cb_estimateUsd b) →
  extractBriefBudgetAndModel toolInput = Some (cb_estimateUsd b, cb_slug b, Some (task_text (cb_taskType b))).
Proof.
  intros Hf [(s & Hs & Hslug) _ _]. destruct (shipped_slug s Hs) as (a & r & Hr). rewrite Hr in Hslug.
  unfold extractBriefBudgetAndModel. rewrite Hf.
  assert (json_field (chat_json b) "estimateUsd" = Some (JNum (cb_estimateUsd b))) as ->
    by (unfold chat_json; by destruct (cb_modelSelectionReason b)).
  assert (json_field (chat_json b) "suggestedModel" = Some (model_json (cb_slug b) (cb_displayName b))) as ->
    by (unfold chat_json; by destruct (cb_modelSelectionReason b)).
  assert (json_field (chat_json b) "taskType" = Some (JStr (task_text (cb_taskType b)))) as ->
    by (unfold chat_json; by destruct (cb_modelSelectionReason b)).
  cbn [mbind option_bind]. change (json_field (model_json (cb_slug b) (cb_displayName b)) "slug") with (Some (JStr (cb_slug b))).
  rewrite Hslug. by destruct (cb_taskType b).
Qed.

(** What the server estimates of an issue: from its title, text and criteria, the
    policy and statistics it reads of the workspace, its own draws and the prices
    of its catalogue. *)
Definition server_estimate (i : TaskInput) (ws : option string) (w : PostWorld) (c : Catalog) : BriefEstimate :=
  (estimateBrief i (mb_model <$> resolveModelSelectionForBrief (pw_env w) i ws (pw_policy w) (pw_random1 w)
                                   (pw_random2 w) (pw_stats w (classifyTaskType i))) c).1.

(** C8 (safety).  The agent cannot write its own brief.  Whatever a request to create
    an issue carries, also under the reserved keys, repeated or malformed: the
    budget, the model and the type that admission will read are exactly those of
    the estimate the server makes of the request's title, text and criteria, a
    whole number of cents, for a model the program ships and the type the text is
    classified as; the lineage is the brief the session is anchored to, found in
    its workspace, or absent; and every other field is the caller's own. *)
Theorem no_forged_brief toolInput ws anchor inv w c findBrief findInvestigation :
  let out := (enrichCreateIssueToolInput toolInput ws anchor inv w c findBrief findInvestigation).1 in
  let e := server_estimate (issue_task toolInput) ws w c in
  (extractBriefBudgetAndModel out
     = Some (be_estimateUsd e, seat_slug (be_suggestedModel e), Some (task_text (be_taskType e)))
   ∧ (∃ n, be_estimateUsd e == inject_Z n / inject_Z 100)%Q
   ∧ (∃ s, shipped s ∧ seat_slug (be_suggestedModel e) = seat_slug s)
   ∧ be_taskType e = classifyTaskType (issue_task toolInput))
  ∧ (json_field out "_briefLineage" = None
     ∨ ∃ ws' anchor' id, ws = Some ws' ∧ anchor = Some anchor' ∧ findBrief ws' anchor' = Some (Some id)
         ∧ json_field out "_briefLineage" = Some (JObj [("briefId", JStr id)]))
  ∧ ∀ k, k ∉ ["_brief"; "_briefLineage"; "_investigation"] → json_field out k = json_field (JObj toolInput) k.
Proof.
  unfold enrichCreateIssueToolInput. set (reserved := ["_brief"; "_briefLineage"; "_investigation"]). cbn zeta.
  rewrite !json_field_without by (unfold reserved; rewrite !not_elem_of_cons; split_and!; try done; by apply not_elem_of_nil).
  fold (issue_task toolInput).
  pose proof (estimate_proposes (pw_env w) (issue_task toolInput) ws (pw_policy w) (pw_random1 w) (pw_random2 w)
    (pw_stats w (classifyTaskType (issue_task toolInput))) c) as Hp.
  fold (server_estimate (issue_task toolInput) ws w c) in Hp. unfold composeChatBornBrief.
  rewrite (surjective_pairing (estimateBrief _ _ c)).
  fold (server_estimate (issue_task toolInput) ws w c). set (e := server_estimate _ _ _ _) in *.
  match goal with |- context [chat_json ?b] => set (brief := b) end. cbn [fst].
  set (with_brief := without_keys reserved toolInput ++ [("_brief", chat_json brief)]).
  split; [|split].
  - split_and!; [|exact (pr_cents _ _ _ _ Hp)|exact (pr_seat _ _ _ _ Hp)|exact (pr_task _ _ _ _ Hp)].
    apply (chat_extracts _ brief (issue_task toolInput)); [|exact Hp].
    rewrite json_field_stamp_link, json_field_stamp_lineage by done. apply json_field_last.
  - rewrite json_field_stamp_link by done. unfold stampBriefLineage.
    assert (json_field (JObj with_brief) "_briefLineage" = None) as Hnone.
    { unfold with_brief. rewrite json_field_other by done. apply json_field_stripped. unfold reserved. set_solver. }
    destruct ws as [[|x ws]|]; cbn [truthy_text]; [by left| |by left].
    destruct anchor as [[|y an]|]; cbn [truthy_text]; [by left| |by left].
    destruct (findBrief _ _) as [[id|]|] eqn:Ef; [|by left..]. right.
    do 3 eexists. split_and!; [done..|]. apply json_field_last.
  - intros k Hk. assert (k ≠ "_brief" ∧ k ≠ "_briefLineage" ∧ k ≠ "_investigation") as (H1 & H2 & H3)
      by (unfold reserved in Hk; set_solver).
    rewrite json_field_stamp_link, json_field_stamp_lineage by done. unfold with_brief.
    rewrite json_field_other by done. by apply json_field_without.
Qed.

(** ** Samples and findings *)

Module SampleBrief.
Definition q : QueueDb := queue two_held.
Definition session (eve : string) (at_ : Z) : JaceSession :=
  mkJaceSession (Some "ws") None "telegram" "chat" (Some eve) at_.
Definition world (sessions : gmap string JaceSession) (id : string) : PostWorld :=
  mkPostWorld 50000 (mkFlagEnv None None None) None 0 0 (λ _, None) (Some sessions) id ("token-" +:+ id) true
    (Some "bot") (Some true).
Definition one_session : gmap string JaceSession := {[ "s1" := session "eve1" 10 ]}.
Definition two_sessions : gmap string JaceSession := <["s2" := session "eve2" 20]> one_session.
Definition start : PostState := mkPostState empty_catalog ∅ [].
Definition post : PostParams := mkPostParams "ws" "h1" "Dark mode" "Add a toggle" (Some "acme/a") (Some 1%N) None.
Definition after_post : PostState := (postAlignmentBrief post (world one_session "a1") start).2.
(** The row of a revised brief of [h2], denied before the queue entry was. *)
Definition half_denied : PostState :=
  mkPostState empty_catalog
    {["a2" := set_ap_status "denied" 5
        (new_approval 1 "t2" (mkApprovalInput (Some "ws") None "s1" "eve1" (revise_request_id "h2" 0)
           "alignment_brief" JNull "approve" "deny" None (Some "h2") None))]} [].
Definition swept := reconcileAlignmentBriefs "ws" 5 q ∅ (world one_session) (world one_session) half_denied.
End SampleBrief.

Example post_sends :
  (postAlignmentBrief SampleBrief.post (SampleBrief.world SampleBrief.one_session "a1") SampleBrief.start).1 = posted
  ∧ ps_sent SampleBrief.after_post = [("chat", "a1")].
Proof. split; by vm_compute. Qed.

(** A second delivery does not converge on the row of the first when another
    session has become the latest: the request is unique in a session only, so the
    same entry gets two pending approvals and two messages. *)
Theorem session_change_asks_twice :
  let st := (postAlignmentBrief SampleBrief.post (SampleBrief.world SampleBrief.two_sessions "a2") SampleBrief.after_post).2 in
  ps_sent st = [("chat", "a1"); ("chat", "a2")]
  ∧ (ap_queue_entry_id <$> ps_approvals st !! "a1") = Some (Some "h1")
  ∧ (ap_queue_entry_id <$> ps_approvals st !! "a2") = Some (Some "h1")
  ∧ (ap_status <$> ps_approvals st !! "a1") = Some "pending" ∧ (ap_status <$> ps_approvals st !! "a2") = Some "pending".
Proof. split_and!; by vm_compute. Qed.

(** The recovery of a revised entry answers that it posted when it only found the
    approval that was denied: nothing is sent, and the entry is found again. *)
Theorem denied_recovery_silent :
  SampleBrief.swept.1 = [("h1", posted); ("h2", posted)]
  ∧ ps_sent SampleBrief.swept.2 = [("chat", "h1")]
  ∧ (findRevisedBriefRecoveryCandidates "ws" 5 (sweep_db SampleBrief.q ∅ SampleBrief.swept.2)).*1 = ["h2"].
Proof. split_and!; by vm_compute. Qed.

(** The requirement decision at the top of a request is the caller's, and the
    recorded evidence prefers it to the one of the brief: a request whose brief is
    refused is recorded as accepted. *)
Definition forged_request : list (string * json) :=
  [("title", JStr "Everything"); ("whatToBuild", JStr "rewrite the entire codebase");
   ("requirementDecision", JObj [("decision", JStr "accept")])].
Theorem forged_requirement_recorded :
  let c := empty_catalog in
  let w := SampleBrief.world ∅ "a" in
  let out fields := (enrichCreateIssueToolInput fields None None None w c (λ _ _, None) (λ _, None)).1 in
  (rq_decision <$> requirementEvidenceFromToolInput (out forged_request)) = Some "accept"
  ∧ (rq_decision <$> requirementEvidenceFromToolInput (out (without_keys ["requirementDecision"] forged_request)))
    = Some "refuse".
Proof. split; by vm_compute. Qed.

(** ** Witnesses *)

Lemma recorded_row : ∃ r, ps_approvals SampleBrief.after_post !! "a1" = Some r.
Proof.
  destruct (ps_approvals SampleBrief.after_post !! "a1") as [r|] eqn:E; [by exists r|].
  exfalso. assert (is_null (ps_approvals SampleBrief.after_post !! "a1") = false) as H by by vm_compute. by rewrite E in H.
Qed.
Lemma start_empty : ps_approvals SampleBrief.start !! "a1" = None.
Proof. apply lookup_empty. Qed.
Lemma posted_pair :
  postAlignmentBrief SampleBrief.post (SampleBrief.world SampleBrief.one_session "a1") SampleBrief.start
  = (posted, SampleBrief.after_post).
Proof.
  apply injective_projections; [exact (proj1 post_sends)|unfold SampleBrief.after_post; exact eq_refl].
Qed.
Lemma approved_brief_enforced_witness :
  ∃ r, ps_approvals SampleBrief.after_post !! "a1" = Some r ∧ ap_status r = "pending"
    ∧ ap_requirement_decision r = Some (decision_text_of (ab_requirementDecision
        (brief_to_post SampleBrief.post (SampleBrief.world SampleBrief.one_session "a1") empty_catalog).1)).
Proof.
  destruct recorded_row as [r Hr]. exists r. split; [exact Hr|].
  pose proof (approved_brief_enforced SampleBrief.post (SampleBrief.world SampleBrief.one_session "a1")
    SampleBrief.start posted SampleBrief.after_post "a1" r posted_pair start_empty Hr) as (Hp & Hd & _).
  split; [exact Hp|exact Hd].
Defined.

Lemma sample_brief_rows : brief_rows (ps_approvals SampleBrief.start).
Proof. intros id r k H. cbn [SampleBrief.start ps_approvals] in H. by apply lookup_empty_Some in H. Qed.
Lemma sample_brief_ids : ∀ k, is_Some (queue_entries SampleBrief.q !! k) → plain_id k.
Proof.
  intros k [e Hk]. assert (k ∈ (map_to_list (queue_entries SampleBrief.q)).*1) as Hin.
  { apply list_elem_of_fmap. exists (k, e). split; [done|by apply elem_of_map_to_list]. }
  assert (forallb (λ k, negb (contains_char ":" k)) (map_to_list (queue_entries SampleBrief.q)).*1 = true) as H by by vm_compute.
  apply list_elem_of_In in Hin. apply (proj1 (forallb_forall _ _) H) in Hin. by apply negb_true_iff in Hin.
Qed.
Lemma reconcile_settles_witness :
  NoDup (reconcileAlignmentBriefs "ws" 5 SampleBrief.q ∅ (SampleBrief.world SampleBrief.one_session)
    (SampleBrief.world SampleBrief.one_session) SampleBrief.start).1.*1
  ∧ (findAlignmentBriefCandidates "ws" 5 (sweep_db SampleBrief.q ∅ SampleBrief.start)).*1 = ["h1"; "h2"].
Proof.
  pose proof (reconcile_settles "ws" 5 SampleBrief.q ∅ (SampleBrief.world SampleBrief.one_session)
    (SampleBrief.world SampleBrief.one_session) SampleBrief.start sample_brief_rows sample_brief_ids) as (Hn & _).
  split; [exact Hn|vm_compute; reflexivity].
Defined.
