(* ===== verification/Investigations.v ===== *)
(** * Investigations: the record of one incident, from its symptom to its verdict

    [schema/investigations.ts] and [queries/investigations.ts]: the investigation
    and its items, the patch of Jace, the edits of a human, evidence, verdicts,
    the promotion of a lesson, and the links.  A handler that reads in one
    statement and writes in another takes the database its reads saw as an
    argument of its own.  The ids a save of Jace names are texts, which the save
    looks up as texts in a Map and as uuids in SQL; other ids are uuids. *)

From S2P Require Import Prelude Table Regex Uuid Intake JsonText JsonValue RecordSchema.
From Stdlib Require Import QArith.
Open Scope Z_scope.

(** ** Rows *)

Inductive InvestigationStatus := st_open | st_investigating | st_concluded | st_handed_off.
Inductive InvestigationSeverity := sev_low | sev_medium | sev_high | sev_critical.
Inductive InvestigationOpenedBy := by_chat | by_run_outcome | by_alert.
Inductive InvestigationVerdict := root_caused | undetermined.
Inductive VerdictConfidence := vc_confirmed | vc_probable | vc_circumstantial.
Inductive InvestigationItemKind :=
  | timeline_event | evidence | hypothesis | finding | verdict_item | lesson_candidate.
Inductive HypothesisState := hs_open | hs_supported | hs_refuted | hs_inconclusive.
Inductive Authority := by_human | by_jace.
Inductive InvestigationLinkRole := recurrence_of | related.
Inductive InvestigationIssueRole := mitigative | preventative.
#[export] Instance InvestigationStatus_eq_dec : EqDecision InvestigationStatus.
Proof. solve_decision. Defined.
#[export] Instance InvestigationVerdict_eq_dec : EqDecision InvestigationVerdict.
Proof. solve_decision. Defined.
#[export] Instance InvestigationItemKind_eq_dec : EqDecision InvestigationItemKind.
Proof. solve_decision. Defined.
#[export] Instance HypothesisState_eq_dec : EqDecision HypothesisState.
Proof. solve_decision. Defined.
#[export] Instance Authority_eq_dec : EqDecision Authority.
Proof. solve_decision. Defined.

Record Investigation := mkInvestigation {
  iv_workspace_id : string;
  iv_repository_id : option string;
  iv_slug : string;
  iv_title : string;
  iv_status : InvestigationStatus;
  iv_severity : InvestigationSeverity;
  iv_opened_by : InvestigationOpenedBy;
  iv_symptom_statement : string;
  iv_symptom_signature : string;
  iv_affected_surface : string;
  iv_first_seen_at : option Z;
  iv_verdict : option InvestigationVerdict;
  iv_confidence : option VerdictConfidence;
  iv_depth_budget : Z;
  iv_jace_session_ids : list string;
  iv_created_at : Z;
  iv_updated_at : Z;
}.

Record InvestigationItem := mkItem {
  it_investigation_id : string;
  it_kind : InvestigationItemKind;
  it_body : string;
  it_mechanism : string;
  it_state : option HypothesisState;
  it_evidence_refs : list string;
  it_data : list (string * json);
  it_authority : Authority;
  it_created_at : Z;
  it_updated_at : Z;
}.
Notation item_table := (gmap string InvestigationItem).

Record InvestigationLink := mkInvestigationLink {
  il_investigation_id : string;
  il_target_investigation_id : string;
  il_role : InvestigationLinkRole;
}.
Record InvestigationIssueLink := mkIssueLink {
  ii_investigation_id : string;
  ii_repo : string;
  ii_issue_number : Z;
  ii_role : InvestigationIssueRole;
}.

Record InvestigationDb := mkInvestigationDb {
  investigations : gmap string Investigation;
  investigationItems : item_table;
  investigationLinks : list InvestigationLink;
  investigationIssueLinks : list InvestigationIssueLink;
}.
Definition with_investigations (x : gmap string Investigation) (d : InvestigationDb) : InvestigationDb :=
  mkInvestigationDb x (investigationItems d) (investigationLinks d) (investigationIssueLinks d).
Definition with_items (x : item_table) (d : InvestigationDb) : InvestigationDb :=
  mkInvestigationDb (investigations d) x (investigationLinks d) (investigationIssueLinks d).
Definition with_links (x : list InvestigationLink) (d : InvestigationDb) : InvestigationDb :=
  mkInvestigationDb (investigations d) (investigationItems d) x (investigationIssueLinks d).
Definition with_issue_links (x : list InvestigationIssueLink) (d : InvestigationDb) : InvestigationDb :=
  mkInvestigationDb (investigations d) (investigationItems d) (investigationLinks d) x.

(** ** Opening and touching an investigation *)

(** A field that is [None] is omitted by the caller. *)
Record UpsertInvestigationInput := mkUpsert {
  ui_workspaceId : string;
  ui_slug : string;
  ui_title : option string;
  ui_symptomStatement : option string;
  ui_symptomSignature : option string;
  ui_affectedSurface : option string;
  ui_severity : option InvestigationSeverity;
  ui_openedBy : option InvestigationOpenedBy;
  ui_firstSeenAt : option (option Z);
  ui_repositoryId : option (option string);
  ui_appendSessionId : option string;
}.

(** [CASE WHEN ids @> [id] THEN ids ELSE ids || [id] END] *)
Definition append_session (id : string) (ids : list string) : list string :=
  if bool_decide (id ∈ ids) then ids else ids ++ [id].
Definition patched_investigation (c : Clock) (i : UpsertInvestigationInput) (r : Investigation) : Investigation :=
  mkInvestigation (iv_workspace_id r) (default (iv_repository_id r) (ui_repositoryId i)) (iv_slug r)
    (default (iv_title r) (ui_title i)) (iv_status r) (default (iv_severity r) (ui_severity i))
    (default (iv_opened_by r) (ui_openedBy i)) (default (iv_symptom_statement r) (ui_symptomStatement i))
    (default (iv_symptom_signature r) (ui_symptomSignature i))
    (default (iv_affected_surface r) (ui_affectedSurface i)) (default (iv_first_seen_at r) (ui_firstSeenAt i))
    (iv_verdict r) (iv_confidence r) (iv_depth_budget r)
    (match ui_appendSessionId i with Some s => append_session s (iv_jace_session_ids r) | None => iv_jace_session_ids r end)
    (iv_created_at r) (js_now c).
Definition new_investigation (c : Clock) (i : UpsertInvestigationInput) : Investigation :=
  mkInvestigation (ui_workspaceId i) (default None (ui_repositoryId i)) (ui_slug i)
    (default (ui_slug i) (ui_title i)) st_open (default sev_medium (ui_severity i))
    (default by_chat (ui_openedBy i)) (default "" (ui_symptomStatement i)) (default "" (ui_symptomSignature i))
    (default "" (ui_affectedSurface i)) (default None (ui_firstSeenAt i)) None None 8
    (match truthy_text (ui_appendSessionId i) with Some s => [s] | None => [] end) (db_now c) (db_now c).

Definition of_slug (workspaceId slug : string) (_ : string) (r : Investigation) : bool :=
  (iv_workspace_id r ≡? workspaceId) && (iv_slug r ≡? slug).
(** [id] is the generated id, [known] says that the workspace and the repository
    named exist; [None] is the exception of a violated key. *)
Definition upsertInvestigation (c : Clock) (id : string) (known : bool) (i : UpsertInvestigationInput)
    (d : InvestigationDb) : option (string * Investigation) * InvestigationDb :=
  let t := investigations d in
  match head (select_where (of_slug (ui_workspaceId i) (ui_slug i)) t) with
  | Some (k, r) =>
      if known then let r := patched_investigation c i r in (Some (k, r), with_investigations (<[k := r]> t) d)
      else (None, d)
  | None =>
      if known && is_null (t !! id) then
        let r := new_investigation c i in (Some (id, r), with_investigations (<[id := r]> t) d)
      else (None, d)
  end.

(** ** Reading *)

Definition of_investigation (id : string) (_ : string) (r : InvestigationItem) : bool := it_investigation_id r ≡? id.
Definition items_of (id : string) (t : item_table) : list (string * InvestigationItem) :=
  select_where (of_investigation id) t.
Definition fetchItemsForInvestigation (id : string) (t : item_table) : list (string * InvestigationItem) :=
  order_by it_created_at (items_of id t).
Definition with_its_items (d : InvestigationDb) (kr : string * Investigation)
    : string * Investigation * list (string * InvestigationItem) :=
  (kr, fetchItemsForInvestigation kr.1 (investigationItems d)).
Definition getInvestigationBySlug (workspaceId slug : string) (d : InvestigationDb)
    : option (string * Investigation * list (string * InvestigationItem)) :=
  with_its_items d <$> head (select_where (of_slug workspaceId slug) (investigations d)).
Definition getInvestigationById (id : string) (d : InvestigationDb)
    : option (string * Investigation * list (string * InvestigationItem)) :=
  (λ r, with_its_items d (id, r)) <$> investigations d !! id.

Definition of_workspace (workspaceId : string) (_ : string) (r : Investigation) : bool :=
  iv_workspace_id r ≡? workspaceId.
Definition recent (workspaceId : string) (t : gmap string Investigation) : list (string * Investigation) :=
  order_by (λ r, - iv_updated_at r) (select_where (of_workspace workspaceId) t).
Definition listInvestigations (workspaceId : string) (limit : option nat) (t : gmap string Investigation)
    : list (string * Investigation) :=
  match limit with Some n => take n (recent workspaceId t) | None => recent workspaceId t end.

Definition INVESTIGATION_SEARCH_DEFAULT_LIMIT : Z := 5.
Definition INVESTIGATION_SEARCH_MAX_LIMIT : Z := 10.
Definition cap_limit (max limit : Z) : nat := Z.to_nat (Z.min max (Z.max 1 (if limit =? 0 then 1 else limit))).
Section Search.
(** The text search of Postgres: the rank of a document for a query, where it
    matches. *)
Context (ts_rank : string → string → option Z).
Definition search_document (d : InvestigationDb) (kr : string * Investigation) : string :=
  iv_title kr.2 +:+ " " +:+ iv_symptom_signature kr.2 +:+ " "
  +:+ join_strings " " ((λ ir, it_body ir.2) <$> items_of kr.1 (investigationItems d)).
Definition rank_of (query : string) (d : InvestigationDb) (id : string) (r : Investigation) : option Z :=
  ts_rank (search_document d (id, r)) query.
Definition search_hits (workspaceId query : string) (d : InvestigationDb) : list (string * Investigation) :=
  let hits := omap (λ kr, (λ rank, (kr.1, (rank, kr.2))) <$> rank_of query d kr.1 kr.2)
                (select_where (of_workspace workspaceId) (investigations d)) in
  (λ kr, (kr.1, kr.2.2)) <$> order_by (λ rr : Z * Investigation, - rr.1) hits.
Definition searchInvestigations (workspaceId query : string) (limit : Z) (d : InvestigationDb)
    : list (string * Investigation) :=
  let n := cap_limit INVESTIGATION_SEARCH_MAX_LIMIT limit in
  match trim query with
  | EmptyString => take n (recent workspaceId (investigations d))
  | q => match take n (search_hits workspaceId q d) with
         | [] => take n (recent workspaceId (investigations d))
         | rows => rows
         end
  end.
End Search.

(** ** The patch of Jace *)

(** [pi_state] is [Some None] where the caller supplies null. *)
Record PatchInvestigationItemInput := mkPatchItem {
  pi_id : option string;
  pi_kind : option InvestigationItemKind;
  pi_body : option string;
  pi_mechanism : option string;
  pi_state : option (option HypothesisState);
  pi_evidenceRefs : option (list string);
  pi_data : option (list (string * json));
}.
(** What became of an item; each constructor is an array of the result. *)
Inductive PatchOutcome :=
  | po_applied (id : string)
  | po_skippedHumanAuthority (id : string)
  | po_skippedEvidenceImmutable (label : string)
  | po_skippedHypothesisNeedsEvidence (label : string)
  | po_skippedKindChange (id : string)
  | po_unmatched (id : string).

Definition concluded_state (s : option HypothesisState) : bool :=
  match s with Some hs_supported | Some hs_refuted => true | _ => false end.
(** A hypothesis that would be supported or refuted without evidence. *)
Definition needs_evidence (kind : option InvestigationItemKind) (state : option HypothesisState)
    (refs : list string) : bool :=
  (kind ≡? Some hypothesis) && concluded_state state && (match refs with [] => true | _ => false end).

Definition patch_label (i : PatchInvestigationItemInput) : string :=
  default (default "new" (pi_body i)) (pi_id i).
Definition effective_state (i : PatchInvestigationItemInput) (existing : option InvestigationItem) : option HypothesisState :=
  default (existing ≫= it_state) (pi_state i).
Definition effective_refs (i : PatchInvestigationItemInput) (existing : option InvestigationItem) : list string :=
  default (from_option it_evidence_refs [] existing) (pi_evidenceRefs i).

(** The guards, in their order, against the row that was read. *)
Definition patch_refusal (existing : option InvestigationItem) (i : PatchInvestigationItemInput) : option PatchOutcome :=
  let id := default "" (pi_id i) in
  if from_option (λ r, it_authority r ≡? by_human) false existing then Some (po_skippedHumanAuthority id)
  else if from_option (λ r, from_option (λ k, k ≢? it_kind r) false (pi_kind i)) false existing
  then Some (po_skippedKindChange id)
  else if from_option (λ r, it_kind r ≡? evidence) (pi_kind i ≡? Some evidence) existing
  then Some (po_skippedEvidenceImmutable (patch_label i))
  else if needs_evidence (coalesce (it_kind <$> existing) (pi_kind i)) (effective_state i existing) (effective_refs i existing)
  then Some (po_skippedHypothesisNeedsEvidence (patch_label i))
  else None.

Definition patched_item (c : Clock) (i : PatchInvestigationItemInput) (r : InvestigationItem) : InvestigationItem :=
  mkItem (it_investigation_id r) (default (it_kind r) (pi_kind i)) (default (it_body r) (pi_body i))
    (default (it_mechanism r) (pi_mechanism i)) (default (it_state r) (pi_state i))
    (default (it_evidence_refs r) (pi_evidenceRefs i)) (default (it_data r) (pi_data i))
    (it_authority r) (it_created_at r) (js_now c).
Definition new_item (c : Clock) (inv : string) (kind : InvestigationItemKind) (body mechanism : string)
    (state : option HypothesisState) (refs : list string) (data : list (string * json)) (a : Authority)
    : InvestigationItem :=
  mkItem inv kind body mechanism state refs data a (db_now c) (db_now c).
(** An insert; [None] is the exception of a violated key. *)
Definition insert_item (id : string) (r : InvestigationItem) (d : InvestigationDb) : option InvestigationDb :=
  if negb (is_null (investigations d !! it_investigation_id r)) && is_null (investigationItems d !! id)
  then Some (with_items (<[id := r]> (investigationItems d)) d) else None.

(** [idsToCheck] *)
Definition named_ids (items : list (string * PatchInvestigationItemInput)) : list string :=
  omap (λ ni, truthy_text (pi_id ni.2)) items.
(** The SELECT of the transaction on the database [s], as the Map [byId] of its
    rows by the text Postgres writes for their id; [None] where a text is no uuid
    and the statement throws. *)
Definition selected (s : InvestigationDb) (inv : string) (ids : list string) : option item_table :=
  uuids ← mapM uuid_in ids;
  Some (filter (λ kr, kr.1 ∈ uuids ∧ it_investigation_id kr.2 = inv) (investigationItems s)).
(** [item.id ? byId.get(item.id) : undefined]: the Map compares texts. *)
Definition existing_item (byId : item_table) (i : PatchInvestigationItemInput) : option InvestigationItem :=
  id ← truthy_text (pi_id i); byId !! id.
(** What the WHERE of the update asks again of the row as it is. *)
Definition still_patchable (inv : string) (r : InvestigationItem) : bool :=
  (it_investigation_id r ≡? inv) && (it_authority r ≢? by_human) && (it_kind r ≢? evidence).

(** One item of the batch, with the id its insert would generate.  The UPDATE
    compares uuids. *)
Definition patch_one (byId : item_table) (c : Clock) (inv newId : string) (i : PatchInvestigationItemInput)
    (d : InvestigationDb) : option (PatchOutcome * InvestigationDb) :=
  let existing := existing_item byId i in
  match patch_refusal existing i with
  | Some o => Some (o, d)
  | None =>
      match truthy_text (pi_id i) with
      | Some id =>
          uuid ← uuid_in id;
          match update_row uuid (still_patchable inv) (patched_item c i) (investigationItems d) with
          | (Some _, t) => Some (po_applied uuid, with_items t d)
          | (None, _) => Some (if is_null existing then po_unmatched id else po_skippedHumanAuthority id, d)
          end
      | None =>
          kind ← pi_kind i;
          d ← insert_item newId (new_item c inv kind (default "" (pi_body i)) (default "" (pi_mechanism i))
                                   (default None (pi_state i)) (default [] (pi_evidenceRefs i))
                                   (default [] (pi_data i)) by_jace) d;
          Some (po_applied newId, d)
      end
  end.
Fixpoint patch_all (byId : item_table) (c : Clock) (inv : string)
    (items : list (string * PatchInvestigationItemInput)) (d : InvestigationDb)
    : option (list PatchOutcome * InvestigationDb) :=
  match items with
  | [] => Some ([], d)
  | (newId, i) :: items =>
      '(o, d) ← patch_one byId c inv newId i d;
      '(os, d) ← patch_all byId c inv items d;
      Some (o :: os, d)
  end.
(** The transaction: a statement that throws undoes the others. *)
Definition patchInvestigationItems (s : InvestigationDb) (c : Clock) (inv : string)
    (items : list (string * PatchInvestigationItemInput)) (d : InvestigationDb)
    : option (list PatchOutcome) * InvestigationDb :=
  match selected s inv (named_ids items) with
  | None => (None, d)
  | Some byId => match patch_all byId c inv items d with Some (os, d) => (Some os, d) | None => (None, d) end
  end.

(** ** Evidence *)

Definition evidence_row (c : Clock) (inv body : string) (data : list (string * json)) : InvestigationItem :=
  new_item c inv evidence body "" None [] data by_jace.
Definition appendEvidenceItem (c : Clock) (id inv body : string) (data : list (string * json)) (d : InvestigationDb)
    : option string * InvestigationDb :=
  match insert_item id (evidence_row c inv body data) d with Some d => (Some id, d) | None => (None, d) end.

(** ** Verdicts *)

Definition has_mechanism (r : InvestigationItem) : bool := trim (it_mechanism r) ≢? "".
Definition has_refs (r : InvestigationItem) : bool := match it_evidence_refs r with [] => false | _ => true end.
Definition in_state (s : HypothesisState) (r : InvestigationItem) : bool :=
  (it_kind r ≡? hypothesis) && (it_state r ≡? Some s).
Definition sole_plausible (r : InvestigationItem) : bool :=
  (it_kind r ≡? finding)
  && match json_field (JObj (it_data r)) "solePlausible" with Some (JBool true) => true | _ => false end.
Definition no_supported : string := "no supported hypothesis with mechanism and evidence".
Definition no_rival : string := "no refuted rival hypothesis and no solePlausible finding".
(** The reasons that block; eligible when there is none. *)
Definition computeEligibilityFromItems (items : list InvestigationItem) : list string :=
  (if existsb (λ h, in_state hs_supported h && has_mechanism h && has_refs h) items then [] else [no_supported])
  ++ (if existsb (λ h, in_state hs_refuted h && has_refs h) items || existsb sole_plausible items then [] else [no_rival]).
Definition computeVerdictEligibility (inv : string) (t : item_table) : list string :=
  computeEligibilityFromItems ((items_of inv t).*2).

Record RecordVerdictInput := mkVerdictInput {
  rv_verdict : InvestigationVerdict;
  rv_confidence : option VerdictConfidence;
  rv_mechanismSummary : option string;
  rv_missingEvidence : option (list string);
}.
Definition confidence_text (v : VerdictConfidence) : string :=
  match v with vc_confirmed => "confirmed" | vc_probable => "probable" | vc_circumstantial => "circumstantial" end.
(** What the reads of the transaction refuse. *)
Definition verdict_blocking (inv : string) (i : RecordVerdictInput) (s : InvestigationDb) : list string :=
  match investigations s !! inv with
  | None => ["investigation not found"]
  | Some _ =>
      match rv_verdict i with
      | root_caused =>
          match computeVerdictEligibility inv (investigationItems s) with
          | [] => match rv_confidence i with
                  | None => ["confidence required for root_caused verdict"]
                  | Some _ => []
                  end
          | blocking => blocking
          end
      | undetermined =>
          match rv_missingEvidence i with
          | None | Some [] => ["missingEvidence required for undetermined verdict"]
          | Some _ => []
          end
      end
  end.
Definition verdict_row (c : Clock) (inv : string) (i : RecordVerdictInput) : InvestigationItem :=
  new_item c inv verdict_item (default "" (rv_mechanismSummary i)) "" None []
    [("confidence", jopt (confidence_text <$> rv_confidence i));
     ("missingEvidence", JArr (JStr <$> default [] (rv_missingEvidence i)))] by_jace.
Definition concluded_by (c : Clock) (i : RecordVerdictInput) (r : Investigation) : Investigation :=
  mkInvestigation (iv_workspace_id r) (iv_repository_id r) (iv_slug r) (iv_title r) st_concluded (iv_severity r)
    (iv_opened_by r) (iv_symptom_statement r) (iv_symptom_signature r) (iv_affected_surface r) (iv_first_seen_at r)
    (Some (rv_verdict i)) (rv_confidence i) (iv_depth_budget r) (iv_jace_session_ids r) (iv_created_at r) (js_now c).
(** [Some []] is [ok: true]; [None] is an exception. *)
Definition recordVerdict (s : InvestigationDb) (c : Clock) (id inv : string) (i : RecordVerdictInput)
    (d : InvestigationDb) : option (list string) * InvestigationDb :=
  match verdict_blocking inv i s with
  | [] =>
      match insert_item id (verdict_row c inv i) d with
      | Some d => (Some [], with_investigations (update_row inv (λ _, true) (concluded_by c i) (investigations d)).2 d)
      | None => (None, d)
      end
  | blocking => (Some blocking, d)
  end.

Definition set_data (c : Clock) (data : list (string * json)) (r : InvestigationItem) : InvestigationItem :=
  mkItem (it_investigation_id r) (it_kind r) (it_body r) (it_mechanism r) (it_state r) (it_evidence_refs r) data
    (it_authority r) (it_created_at r) (js_now c).
Definition latest_verdict (inv : string) (t : item_table) : option (string * InvestigationItem) :=
  newest it_created_at (select_where (λ k r, of_investigation inv k r && (it_kind r ≡? verdict_item)) t).
(** [Some id] is the verdict confirmed. *)
Definition confirmVerdictAsHuman (s : InvestigationDb) (c : Clock) (inv : string) (d : InvestigationDb)
    : option string * InvestigationDb :=
  match latest_verdict inv (investigationItems s) with
  | None => (None, d)
  | Some (id, r) =>
      (Some id, with_items (update_row id (λ _, true) (set_data c (put_key "humanConfirmed" (JBool true) (it_data r)))
                              (investigationItems d)).2 d)
  end.

(** ** Lessons *)

(** [(data ->> k) IS NULL] *)
Definition null_at (k : string) (data : list (string * json)) : bool :=
  match json_field (JObj data) k with None | Some JNull => true | _ => false end.
Definition claimable_lesson (r : InvestigationItem) : bool :=
  (it_kind r ≡? lesson_candidate) && null_at "promotedAt" (it_data r).
(** [at_] is the text of the instant of the call. *)
Definition claimLessonPromotion (c : Clock) (at_ id : string) (d : InvestigationDb) : option InvestigationItem * InvestigationDb :=
  let '(row, t) := update_row id claimable_lesson (λ r, set_data c (put_key "promotedAt" (JStr at_) (it_data r)) r)
                     (investigationItems d) in
  (row, with_items t d).
Definition unclaimLessonPromotion (c : Clock) (id : string) (d : InvestigationDb) : InvestigationDb :=
  with_items (update_row id (λ r, it_kind r ≡? lesson_candidate)
                (λ r, set_data c (without_keys ["promotedAt"] (it_data r)) r) (investigationItems d)).2 d.

(** ** Links *)

Definition known_investigation (id : string) (d : InvestigationDb) : bool := negb (is_null (investigations d !! id)).
(** [false] is the exception of a foreign key. *)
Definition linkInvestigations (inv target : string) (role : InvestigationLinkRole) (d : InvestigationDb)
    : bool * InvestigationDb :=
  if known_investigation inv d && known_investigation target d
  then (true, with_links (investigationLinks d ++ [mkInvestigationLink inv target role]) d) else (false, d).
Definition issue_key (l : InvestigationIssueLink) : string * string * Z :=
  (ii_investigation_id l, ii_repo l, ii_issue_number l).
Definition linkInvestigationIssue (inv repo : string) (number : Z) (role : InvestigationIssueRole) (d : InvestigationDb)
    : bool * InvestigationDb :=
  if existsb (λ l, issue_key l ≡? (inv, repo, number)) (investigationIssueLinks d) then (true, d)
  else if known_investigation inv d
  then (true, with_issue_links (investigationIssueLinks d ++ [mkIssueLink inv repo number role]) d) else (false, d).

(** ** The edits of a human *)

Inductive HumanWrite :=
  | hw_written (id : string)
  | hw_no_item
  | hw_refusedEvidenceImmutable
  | hw_refusedHypothesisNeedsEvidence.

(** The patch has the fields of Jace's; its id is the item's. *)
Definition human_refusal (existing : InvestigationItem) (p : PatchInvestigationItemInput) : option HumanWrite :=
  let effectiveKind := default (it_kind existing) (pi_kind p) in
  if (it_kind existing ≡? evidence) || (effectiveKind ≡? evidence) then Some hw_refusedEvidenceImmutable
  else if needs_evidence (Some effectiveKind) (effective_state p (Some existing)) (effective_refs p (Some existing))
  then Some hw_refusedHypothesisNeedsEvidence
  else None.
Definition edited_item (c : Clock) (p : PatchInvestigationItemInput) (r : InvestigationItem) : InvestigationItem :=
  let r := patched_item c p r in
  mkItem (it_investigation_id r) (it_kind r) (it_body r) (it_mechanism r) (it_state r) (it_evidence_refs r)
    (it_data r) by_human (it_created_at r) (it_updated_at r).
Definition updateInvestigationItemAsHuman (s : InvestigationDb) (c : Clock) (id : string)
    (p : PatchInvestigationItemInput) (d : InvestigationDb) : HumanWrite * InvestigationDb :=
  match investigationItems s !! id with
  | None => (hw_no_item, d)
  | Some existing =>
      match human_refusal existing p with
      | Some o => (o, d)
      | None =>
          match update_row id (λ _, true) (edited_item c p) (investigationItems d) with
          | (Some _, t) => (hw_written id, with_items t d)
          | (None, _) => (hw_no_item, d)
          end
      end
  end.

Record CreateInvestigationItemInput := mkCreateItem {
  ci_kind : InvestigationItemKind;
  ci_body : string;
  ci_mechanism : option string;
  ci_state : option (option HypothesisState);
  ci_evidenceRefs : option (list string);
  ci_data : option (list (string * json));
}.
(** [None] is the exception of a violated key. *)
Definition createInvestigationItemAsHuman (c : Clock) (id inv : string) (i : CreateInvestigationItemInput)
    (d : InvestigationDb) : option HumanWrite * InvestigationDb :=
  if ci_kind i ≡? evidence then (Some hw_refusedEvidenceImmutable, d)
  else
    let state := default None (ci_state i) in
    let evidenceRefs := default [] (ci_evidenceRefs i) in
    if needs_evidence (Some (ci_kind i)) state evidenceRefs then (Some hw_refusedHypothesisNeedsEvidence, d)
    else match insert_item id (new_item c inv (ci_kind i) (ci_body i) (default "" (ci_mechanism i)) state evidenceRefs
                                 (default [] (ci_data i)) by_human) d with
         | Some d => (Some (hw_written id), d)
         | None => (None, d)
         end.
Definition deleteInvestigationItem (id : string) (d : InvestigationDb) : InvestigationDb :=
  with_items (delete id (investigationItems d)) d.

(** ** Histories

    A step runs one handler; [age] says how many steps ago its reads were made,
    zero for a handler that nothing interleaves with.  A history is the list of
    the databases it went through, the last one first. *)

Inductive inv_op :=
  | op_upsert (id : string) (known : bool) (i : UpsertInvestigationInput)
  | op_patch (inv : string) (items : list (string * PatchInvestigationItemInput))
  | op_evidence (id inv body : string) (data : list (string * json))
  | op_verdict (id inv : string) (i : RecordVerdictInput)
  | op_confirm (inv : string)
  | op_claim (at_ id : string)
  | op_unclaim (id : string)
  | op_link (inv target : string) (role : InvestigationLinkRole)
  | op_issue_link (inv repo : string) (number : Z) (role : InvestigationIssueRole)
  | op_edit (id : string) (p : PatchInvestigationItemInput)
  | op_create (id inv : string) (i : CreateInvestigationItemInput)
  | op_delete (id : string).
Definition exec_inv (s : InvestigationDb) (c : Clock) (o : inv_op) (d : InvestigationDb) : InvestigationDb :=
  match o with
  | op_upsert id known i => (upsertInvestigation c id known i d).2
  | op_patch inv items => (patchInvestigationItems s c inv items d).2
  | op_evidence id inv body data => (appendEvidenceItem c id inv body data d).2
  | op_verdict id inv i => (recordVerdict s c id inv i d).2
  | op_confirm inv => (confirmVerdictAsHuman s c inv d).2
  | op_claim at_ id => (claimLessonPromotion c at_ id d).2
  | op_unclaim id => unclaimLessonPromotion c id d
  | op_link inv target role => (linkInvestigations inv target role d).2
  | op_issue_link inv repo number role => (linkInvestigationIssue inv repo number role d).2
  | op_edit id p => (updateInvestigationItemAsHuman s c id p d).2
  | op_create id inv i => (createInvestigationItemAsHuman c id inv i d).2
  | op_delete id => deleteInvestigationItem id d
  end.
Definition no_investigations : InvestigationDb := mkInvestigationDb ∅ ∅ [] [].

Record inv_step := mkInvStep { step_age : nat; step_clock : Clock; step_op : inv_op }.
Definition current (hs : list InvestigationDb) : InvestigationDb := default no_investigations (head hs).
Definition seen_by (x : inv_step) (hs : list InvestigationDb) : InvestigationDb :=
  default (current hs) (hs !! step_age x).
Definition advance (hs : list InvestigationDb) (x : inv_step) : list InvestigationDb :=
  exec_inv (seen_by x hs) (step_clock x) (step_op x) (current hs) :: hs.
Definition inv_history (l : list inv_step) (hs : list InvestigationDb) : list InvestigationDb := fold_left advance l hs.
