(* ===== verification/InvestigationFacts.v ===== *)
(** * InvestigationFacts: what an investigation can be trusted to say

    Evidence stays as captured, a human's words stand, conclusions rest on
    evidence, verdicts pass their gate, a lesson is promoted once - over
    histories in which a handler may write on reads that are out of date. *)

From S2P Require Import Prelude Table Regex Uuid Intake JsonText JsonValue RecordSchema Investigations.
From Stdlib Require Import QArith.
Open Scope Z_scope.

(** ** What one item of a batch does *)

(** [new] says that the row may be one the batch inserts. *)
Inductive patch_change (new : Prop) : option InvestigationItem → option InvestigationItem → Prop :=
  | pc_same x : patch_change new x x
  | pc_new r : new → it_kind r ≠ evidence → it_authority r = by_jace → patch_change new None (Some r)
  | pc_row r r' : it_authority r = by_jace → it_authority r' = by_jace →
      it_kind r ≠ evidence → it_kind r' ≠ evidence → patch_change new (Some r) (Some r').
#[export] Hint Constructors patch_change : core.

Lemma patch_change_trans (p q : Prop) x y z : patch_change p x y → patch_change q y z → patch_change (p ∨ q) x z.
Proof. destruct 1; inversion 1; subst; eauto. Qed.
Lemma patch_change_mono (p q : Prop) x y : (p → q) → patch_change p x y → patch_change q x y.
Proof. intros Hpq. destruct 1; eauto. Qed.

(** The ids a batch generates and uses. *)
Definition inserted_id (ni : string * PatchInvestigationItemInput) : option string :=
  match truthy_text (pi_id ni.2) with Some _ => None | None => Some ni.1 end.

Lemma with_items_id d : with_items (investigationItems d) d = d.
Proof. by destruct d. Qed.

Lemma insert_item_spec id r d d' : insert_item id r d = Some d' →
  is_Some (investigations d !! it_investigation_id r) ∧ investigationItems d !! id = None
  ∧ d' = with_items (<[id := r]> (investigationItems d)) d.
Proof.
  unfold insert_item. destruct (investigations d !! _) eqn:E; [|done].
  destruct (investigationItems d !! id) eqn:E'; cbn; [done|]. intros [= <-]. eauto.
Qed.

Lemma refusal_kind existing i : patch_refusal existing i = None →
  match existing with
  | Some r => it_authority r = by_jace ∧ it_kind r ≠ evidence ∧ (∀ k, pi_kind i = Some k → k = it_kind r)
  | None => pi_kind i ≠ Some evidence
  end ∧ needs_evidence (coalesce (it_kind <$> existing) (pi_kind i)) (effective_state i existing)
          (effective_refs i existing) = false.
Proof.
  unfold patch_refusal. intros H.
  destruct existing as [r|]; cbn [from_option] in H.
  - case_bool_decide as Ha; [done|]. destruct (from_option _ false (pi_kind i)) eqn:Hk; [done|].
    case_bool_decide as He; [done|]. destruct (needs_evidence _ _ _); [done|]. split; [|done].
    split_and!; [by destruct (it_authority r)|done|]. intros k Hi. rewrite Hi in Hk. cbn in Hk.
    by case_bool_decide.
  - case_bool_decide as He; [done|]. by destruct (needs_evidence _ _ _).
Qed.

Lemma still_patchable_spec inv r : still_patchable inv r = true ↔
  it_investigation_id r = inv ∧ it_authority r = by_jace ∧ it_kind r ≠ evidence.
Proof.
  unfold still_patchable. rewrite !andb_true_iff, !negb_true_iff, bool_decide_eq_true, !bool_decide_eq_false.
  destruct (it_authority r); naive_solver.
Qed.

(** The kind a patch leaves on the row it finds is not evidence. *)
Lemma patched_kind existing i r : patch_refusal existing i = None → it_kind r ≠ evidence →
  default (it_kind r) (pi_kind i) ≠ evidence.
Proof.
  intros [H _]%refusal_kind Hr. destruct (pi_kind i) as [k|] eqn:Hk; [|done]. cbn.
  destruct existing as [r0|]; [|congruence].
  destruct H as (_ & H & Hi). by rewrite (Hi k).
Qed.

Lemma patch_one_spec byId c inv newId i d o d' : patch_one byId c inv newId i d = Some (o, d') →
  d' = with_items (investigationItems d') d
  ∧ ∀ k, patch_change (Some k = inserted_id (newId, i)) (investigationItems d !! k) (investigationItems d' !! k).
Proof.
  unfold patch_one. destruct (patch_refusal _ i) eqn:Hr.
  { intros [= <- <-]. rewrite with_items_id. eauto. }
  destruct (truthy_text (pi_id i)) as [id|] eqn:Hid.
  - destruct (uuid_in id) as [u|]; [|done]. cbn [mbind option_bind].
    destruct (update_rowP (still_patchable inv) (patched_item c i) u (investigationItems d)) as [r Hk Hp|Hp].
    + intros [= <- <-]. split; [done|]. intros k. cbn.
      destruct (decide (k = u)) as [->|Hne]; [|rewrite lookup_insert_ne by done; eauto].
      rewrite lookup_insert_eq, Hk. apply still_patchable_spec in Hp as (_ & Ha & He).
      constructor; [done|done|done|]. cbn. by eapply patched_kind.
    + intros [= <- <-]. rewrite with_items_id. eauto.
  - destruct (pi_kind i) as [kind|] eqn:Hkind; [|done]. cbn [mbind option_bind].
    destruct (insert_item _ _ d) as [d1|] eqn:Hi; [|done]. cbn. intros [= <- <-].
    apply insert_item_spec in Hi as (_ & Hn & ->). split; [done|]. intros k. cbn.
    destruct (decide (k = newId)) as [->|Hne]; [|rewrite lookup_insert_ne by done; eauto].
    rewrite lookup_insert_eq, Hn. constructor; [unfold inserted_id; cbn; by rewrite Hid| |done]. cbn.
    apply refusal_kind in Hr as [Hr _]. unfold existing_item in Hr. rewrite Hid in Hr. cbn in Hr. congruence.
Qed.

Lemma patch_all_spec byId c inv items d os d' : patch_all byId c inv items d = Some (os, d') →
  d' = with_items (investigationItems d') d
  ∧ ∀ k, patch_change (k ∈ omap inserted_id items) (investigationItems d !! k) (investigationItems d' !! k).
Proof.
  revert d os. induction items as [|[newId i] items IH]; intros d os; cbn.
  { intros [= <- <-]. rewrite with_items_id. eauto. }
  destruct (patch_one byId c inv newId i d) as [[o d1]|] eqn:H1; [|done]. cbn.
  destruct (patch_all byId c inv items d1) as [[os' d2]|] eqn:H2; [|done]. cbn. intros [= <- <-].
  apply patch_one_spec in H1 as [E1 C1]. apply IH in H2 as [E2 C2].
  split; [rewrite E2; rewrite E1; by destruct d|]. intros k.
  eapply patch_change_mono; [|eapply patch_change_trans; [apply C1|apply C2]].
  destruct (inserted_id (newId, i)); set_solver.
Qed.

(** A save commits what its lines did, or changes nothing. *)
Lemma save_cases s c inv items d :
  (patchInvestigationItems s c inv items d).2 = d
  ∨ ∃ byId os, selected s inv (named_ids items) = Some byId
      ∧ patch_all byId c inv items d = Some (os, (patchInvestigationItems s c inv items d).2).
Proof.
  unfold patchInvestigationItems. destruct (selected _ _ _) as [byId|]; [|by left].
  destruct (patch_all byId c inv items d) as [[os d']|] eqn:H; [|by left]. right. by exists byId, os.
Qed.

(** ** What a step does to an item *)

Definition op_touches (k : string) (o : inv_op) : Prop :=
  match o with op_edit id _ | op_delete id => id = k | _ => False end.
Definition op_creates (o : inv_op) : list string :=
  match o with
  | op_patch _ items => omap inserted_id items
  | op_evidence id _ _ _ | op_verdict id _ _ | op_create id _ _ => [id]
  | _ => []
  end.
(** All but the flags kept in the data. *)
Definition content (r : InvestigationItem) :=
  (it_investigation_id r, it_kind r, it_body r, it_mechanism r, it_state r, it_evidence_refs r, it_authority r,
   it_created_at r).

(** How the row under [k] changes when [o] runs on the reads [s]. *)
Inductive item_change (s : InvestigationDb) (c : Clock) (o : inv_op) (k : string)
    : option InvestigationItem → option InvestigationItem → Prop :=
  | ch_same x : item_change s c o k x x
  | ch_new r : k ∈ op_creates o →
      (it_kind r = evidence → ∃ inv body data, o = op_evidence k inv body data ∧ r = evidence_row c inv body data) →
      item_change s c o k None (Some r)
  | ch_patch r r' : it_authority r = by_jace → it_authority r' = by_jace → it_kind r ≠ evidence → it_kind r' ≠ evidence →
      item_change s c o k (Some r) (Some r')
  | ch_data r r' : content r' = content r → (it_kind r ≠ evidence ∨ ∃ r0, investigationItems s !! k = Some r0 ∧ it_kind r0 ≠ evidence) →
      item_change s c o k (Some r) (Some r')
  | ch_edit r r' r0 : op_touches k o → investigationItems s !! k = Some r0 → it_kind r0 ≠ evidence →
      (it_kind r ≠ evidence → it_kind r' ≠ evidence) → item_change s c o k (Some r) (Some r')
  | ch_delete r : op_touches k o → item_change s c o k (Some r) None.
#[export] Hint Constructors item_change : core.

Lemma insert_change s c o id r d d' k : insert_item id r d = Some d' → id ∈ op_creates o →
  (it_kind r = evidence → ∃ inv body data, o = op_evidence id inv body data ∧ r = evidence_row c inv body data) →
  item_change s c o k (investigationItems d !! k) (investigationItems d' !! k).
Proof.
  intros (_ & Hn & ->)%insert_item_spec Hc He. cbn.
  destruct (decide (k = id)) as [->|Hne]; [|rewrite lookup_insert_ne by done; auto].
  rewrite lookup_insert_eq, Hn. auto.
Qed.
Lemma row_change s c o id (p : InvestigationItem → bool) f d k :
  (∀ r, investigationItems d !! id = Some r → p r = true → item_change s c o id (Some r) (Some (f r))) →
  item_change s c o k (investigationItems d !! k) ((update_row id p f (investigationItems d)).2 !! k).
Proof.
  intros H. destruct (update_rowP p f id (investigationItems d)) as [r Hk Hp|]; cbn; [|auto].
  destruct (decide (k = id)) as [->|Hne]; [|rewrite lookup_insert_ne by done; auto].
  rewrite lookup_insert_eq, Hk. auto.
Qed.

Lemma latest_verdict_kind inv t id r : latest_verdict inv t = Some (id, r) → t !! id = Some r ∧ it_kind r = verdict_item.
Proof.
  unfold latest_verdict, newest. intros [H _]%oldest_Some. apply elem_of_select_where in H as [Hk Hp].
  apply andb_true_iff in Hp as [_ Hp%bool_decide_eq_true]. done.
Qed.

Lemma exec_change s c o d k :
  item_change s c o k (investigationItems d !! k) (investigationItems (exec_inv s c o d) !! k).
Proof.
  destruct o as [id known i|inv items|id inv body data|id inv i|inv|at_ id|id|inv tg role|inv repo n role|id p|id inv i|id];
    cbn [exec_inv].
  - unfold upsertInvestigation. destruct (head _) as [[]|]; repeat case_match; auto.
  - destruct (save_cases s c inv items d) as [->|(byId & os & _ & H)]; [auto|].
    apply patch_all_spec in H as [_ H]. destruct (H k) as [x|r Hk Hr _|r r']; auto. by apply ch_new.
  - unfold appendEvidenceItem. destruct (insert_item _ _ _) eqn:H; [|auto]. cbn.
    eapply insert_change; [exact H|set_solver|]. eauto.
  - unfold recordVerdict. destruct (verdict_blocking _ _ _); [|auto]. destruct (insert_item _ _ _) eqn:H; [|auto]. cbn.
    eapply insert_change; [exact H|set_solver|done].
  - unfold confirmVerdictAsHuman. destruct (latest_verdict _ _) as [[id r]|] eqn:H; [|auto].
    apply latest_verdict_kind in H as [Hs Hr]. apply row_change. intros r0 _ _. apply ch_data; [done|]. right. exists r.
    by rewrite Hr.
  - unfold claimLessonPromotion. destruct (update_row _ _ _ _) as [row t] eqn:E. cbn.
    change t with ((row, t).2). rewrite <- E. apply row_change. intros r _ Hp. apply ch_data; [done|]. left.
    by apply andb_true_iff in Hp as [->%bool_decide_eq_true _].
  - apply row_change. intros r _ Hp%bool_decide_eq_true. apply ch_data; [done|]. left. by rewrite Hp.
  - unfold linkInvestigations. by case_match; auto.
  - unfold linkInvestigationIssue. by repeat case_match; auto.
  - unfold updateInvestigationItemAsHuman. destruct (investigationItems s !! id) as [r0|] eqn:Hs; [|auto].
    destruct (human_refusal r0 p) eqn:Hr; [auto|].
    assert (it_kind r0 ≠ evidence ∧ default (it_kind r0) (pi_kind p) ≠ evidence) as [H0 Hp].
    { unfold human_refusal in Hr. destruct (_ || _) eqn:E; [done|]. apply orb_false_iff in E as [E1 E2].
      by apply bool_decide_eq_false in E1, E2. }
    destruct (update_row _ _ _ _) as [row t] eqn:E.
    assert (item_change s c (op_edit id p) k (investigationItems d !! k) (t !! k)).
    { change t with ((row, t).2). rewrite <- E. apply row_change. intros r _ _.
      apply (ch_edit _ _ _ _ _ _ r0); [done..|]. cbn. by destruct (pi_kind p). }
    by destruct row; [|auto].
  - unfold createInvestigationItemAsHuman. case_bool_decide as He; [auto|]. case_match; [auto|].
    destruct (insert_item _ _ _) eqn:H'; [|auto]. cbn. eapply insert_change; [exact H'|set_solver|]. done.
  - unfold deleteInvestigationItem. cbn. destruct (decide (k = id)) as [->|Hne].
    + rewrite lookup_delete_eq. destruct (investigationItems d !! id); auto. by apply ch_delete.
    + rewrite lookup_delete_ne by done. auto.
Qed.

(** ** Histories *)

Definition created_ids (l : list inv_step) : list string := l ≫= λ x, op_creates (step_op x).

Lemma history_snoc l x hs : inv_history (l ++ [x]) hs = advance (inv_history l hs) x.
Proof. unfold inv_history. by rewrite fold_left_app. Qed.
Lemma current_advance hs x : current (advance hs x) = exec_inv (seen_by x hs) (step_clock x) (step_op x) (current hs).
Proof. done. Qed.
Lemma seen_in_history hs x : hs ≠ [] → seen_by x hs ∈ hs.
Proof.
  intros H. unfold seen_by. destruct (hs !! step_age x) eqn:E; cbn; [by eapply list_elem_of_lookup_2|].
  destruct hs; [done|]. by apply list_elem_of_here.
Qed.
Lemma history_nonempty l hs : hs ≠ [] → inv_history l hs ≠ [].
Proof. revert hs. induction l as [|x l IH]; intros hs H; cbn; [done|]. by apply IH. Qed.
Lemma current_in_history hs : hs ≠ [] → current hs ∈ hs.
Proof. destruct hs; [done|]. intros _. by apply list_elem_of_here. Qed.

(** An invariant of the last database, shown for one handler at a time. *)
Lemma history_ind (P : InvestigationDb → Prop) l :
  P no_investigations → (∀ x s d, x ∈ l → P d → P (exec_inv s (step_clock x) (step_op x) d)) →
  P (current (inv_history l [no_investigations])).
Proof.
  intros H0. induction l as [|x l IH] using rev_ind; intros Hs; [done|].
  rewrite history_snoc, current_advance. apply Hs; [set_solver|]. apply IH. intros y s d Hy. apply Hs. set_solver.
Qed.

(** ** A human's words *)

(** C15 (safety).  A human's words stand.  Once an item is a human's, no save of
    Jace, verdict, confirmation or promotion changes what it says - its kind,
    body, mechanism, state, evidence or authority - however these interleave and
    however old the reads they act on: only another human edit or a deletion of
    that very item does. *)
Theorem human_words_stand hs l k r :
  investigationItems (current hs) !! k = Some r → it_authority r = by_human →
  (∀ x, x ∈ l → ¬ op_touches k (step_op x)) →
  ∃ r', investigationItems (current (inv_history l hs)) !! k = Some r' ∧ content r' = content r.
Proof.
  intros Hk Ha. induction l as [|x l IH] using rev_ind; intros Hl; [eauto|].
  destruct IH as (r1 & H1 & Hc); [set_solver|]. rewrite history_snoc, current_advance.
  specialize (Hl x (ltac:(set_solver))).
  pose proof (exec_change (seen_by x (inv_history l hs)) (step_clock x) (step_op x) (current (inv_history l hs)) k) as Hx.
  rewrite H1 in Hx. inversion Hx as [? E E'|r0 ? ? E|r0 r0' Ha' ? ? ? E|r0 r0' Hc' ? E|r0 r0' r2 Ht|? Ht]; subst; [|..|done].
  - eauto.
  - assert (it_authority r1 = by_human) by (injection Hc; congruence). congruence.
  - exists r0'. split; [done|congruence].
  - done.
Qed.

(** ** Evidence *)

Definition captured (l : list inv_step) (k : string) (r : InvestigationItem) : Prop :=
  ∃ x inv body data, x ∈ l ∧ step_op x = op_evidence k inv body data ∧ r = evidence_row (step_clock x) inv body data.
Record evidence_inv (l : list inv_step) (hs : list InvestigationDb) : Prop := {
  ei_created : ∀ s k, s ∈ hs → is_Some (investigationItems s !! k) → k ∈ created_ids l;
  ei_kinds : ∀ s k r r', s ∈ hs → investigationItems s !! k = Some r → investigationItems (current hs) !! k = Some r' →
    (it_kind r = evidence ↔ it_kind r' = evidence) ∧ (it_kind r = evidence → r' = r);
  ei_captured : ∀ k r, investigationItems (current hs) !! k = Some r → it_kind r = evidence → captured l k r;
}.

Lemma created_snoc l x : created_ids (l ++ [x]) = created_ids l ++ op_creates (step_op x).
Proof. unfold created_ids. by rewrite bind_app, bind_singleton. Qed.

Lemma evidence_inv_step l hs x : hs ≠ [] → NoDup (created_ids (l ++ [x])) → evidence_inv l hs →
  evidence_inv (l ++ [x]) (advance hs x).
Proof.
  rewrite created_snoc. intros Hne Hnd [Hcr Hki Hca].
  pose proof (seen_in_history hs x Hne) as Hseen. set (s0 := seen_by x hs) in *.
  pose proof (exec_change s0 (step_clock x) (step_op x) (current hs)) as Hch.
  set (d' := exec_inv s0 (step_clock x) (step_op x) (current hs)) in *.
  assert (Hfresh : ∀ k, k ∈ op_creates (step_op x) → k ∉ created_ids l).
  { intros k Hk Hk'. apply NoDup_app in Hnd as (_ & Hd & _). by apply (Hd k). }
  assert (Hold : ∀ k r, investigationItems s0 !! k = Some r → it_kind r ≠ evidence →
    ∀ r', investigationItems (current hs) !! k = Some r' → it_kind r' ≠ evidence).
  { intros k r Hs Hr r' Hr' He. apply Hr. by apply (Hki s0 k r r' Hseen Hs Hr'). }
  assert (Hone : ∀ k r', investigationItems d' !! k = Some r' →
    (∃ r, investigationItems (current hs) !! k = Some r
       ∧ (it_kind r = evidence ↔ it_kind r' = evidence) ∧ (it_kind r = evidence → r' = r))
    ∨ investigationItems (current hs) !! k = None ∧ k ∈ op_creates (step_op x)
      ∧ (it_kind r' = evidence → captured (l ++ [x]) k r')).
  { intros k r' Hr'. specialize (Hch k). rewrite Hr' in Hch.
    inversion Hch as [y E E'|r0 Hin He E|r0 r0' ? ? Hn Hn' E|r0 r0' Hc Hn E|r0 r0' r2 Ht H2 Hn He E|]; subst.
    - left. exists r'. split; [congruence|done].
    - right. split_and!; [done|done|]. intros (inv & body & data & Ho & Hr)%He.
      exists x, inv, body, data. split_and!; [set_solver|done|done].
    - left. exists r0. split; [done|]. split; [split; intros; congruence|congruence].
    - left. exists r0. split; [done|]. assert (it_kind r' = it_kind r0) as HK by (by injection Hc).
      assert (it_kind r0 ≠ evidence). { destruct Hn as [|(r2 & H2 & H3)]; [done|]. by eapply Hold. }
      rewrite HK. done.
    - left. exists r0. split; [done|]. assert (it_kind r0 ≠ evidence) by (by eapply Hold). naive_solver. }
  split.
  - intros s k Hs Hk. rewrite created_snoc. apply elem_of_app.
    apply elem_of_cons in Hs as [->|Hs]; [|left; by eapply Hcr]. fold d' in Hk.
    destruct Hk as [r' Hr']. destruct (Hone k r' Hr') as [(r & Hr & _)|(_ & Hin & _)]; [left|by right].
    eapply Hcr; [by apply current_in_history|by rewrite Hr].
  - intros s k r r' Hs Hr Hr'. rewrite current_advance in Hr'. fold s0 d' in Hr'.
    apply elem_of_cons in Hs as [->|Hs]; [fold s0 d' in Hr; replace r' with r by congruence; done|].
    destruct (Hone k r' Hr') as [(r1 & Hr1 & Hiff & Heq)|(Hn & Hin & _)].
    + destruct (Hki s k r r1 Hs Hr Hr1) as [Hiff' Heq']. split; [by rewrite Hiff'|]. intros He.
      rewrite (Heq' He) in *. auto.
    + exfalso. apply (Hfresh k Hin). eapply Hcr; [exact Hs|by rewrite Hr].
  - intros k r Hr He. rewrite current_advance in Hr. fold s0 d' in Hr.
    destruct (Hone k r Hr) as [(r1 & Hr1 & Hiff & Heq)|(_ & _ & Hc)]; [|by apply Hc].
    assert (it_kind r1 = evidence) as H1 by (by apply Hiff). rewrite (Heq H1).
    destruct (Hca k r1 Hr1 H1) as (y & inv & body & data & Hy & Ho & ->). exists y, inv, body, data. set_solver.
Qed.

(** C14 (invariant).  Evidence is tamper-evident.  As long as no generated id is
    drawn twice, every piece of evidence in the table is, to the byte, what one
    capture in the history wrote under its id, and is the same row in every
    database since: no save, human edit, verdict, confirmation or promotion,
    however they interleave, writes a piece of evidence or turns an item into
    one. *)
Theorem evidence_tamper_evident l : NoDup (created_ids l) →
  let hs := inv_history l [no_investigations] in
  ∀ k r, investigationItems (current hs) !! k = Some r → it_kind r = evidence →
    captured l k r ∧ ∀ s r0, s ∈ hs → investigationItems s !! k = Some r0 → r0 = r.
Proof.
  intros Hnd hs k r Hr He.
  assert (Hinv : evidence_inv l hs).
  { subst hs. clear Hr. revert Hnd. induction l as [|x l IH] using rev_ind; intros Hnd.
    - split; [intros s k' ->%list_elem_of_singleton|intros s k' r1 r2 ->%list_elem_of_singleton|intros k' r1];
        cbn; rewrite lookup_empty; [by intros [? ?]|done|done].
    - rewrite history_snoc. apply evidence_inv_step; [by apply history_nonempty|done|]. apply IH.
      rewrite created_snoc in Hnd. by apply NoDup_app in Hnd as (? & _ & _). }
  destruct Hinv as [_ Hki Hca]. split; [by apply Hca|]. intros s r0 Hs Hr0.
  destruct (Hki s k r0 r Hs Hr0 Hr) as [Hiff Heq]. symmetry. apply Heq. by apply Hiff.
Qed.

(** ** Verdicts *)

Definition item_in (t : item_table) (inv : string) (r : InvestigationItem) : Prop :=
  ∃ k, t !! k = Some r ∧ it_investigation_id r = inv.
Definition shown (s : HypothesisState) (r : InvestigationItem) : Prop :=
  it_kind r = hypothesis ∧ it_state r = Some s ∧ it_evidence_refs r ≠ [].
(** A supported hypothesis with a mechanism and a reference, and a refuted one
    with a reference or a finding marked as the sole plausible. *)
Definition qualifies (inv : string) (d : InvestigationDb) : Prop :=
  (∃ h, item_in (investigationItems d) inv h ∧ shown hs_supported h ∧ trim (it_mechanism h) ≠ "")
  ∧ ((∃ h, item_in (investigationItems d) inv h ∧ shown hs_refuted h)
     ∨ ∃ f, item_in (investigationItems d) inv f ∧ it_kind f = finding
         ∧ json_field (JObj (it_data f)) "solePlausible" = Some (JBool true)).

Lemma elem_of_items inv t r : r ∈ (items_of inv t).*2 ↔ item_in t inv r.
Proof.
  rewrite list_elem_of_fmap. unfold items_of. split.
  - intros ([k r'] & -> & [Hk Hp]%elem_of_select_where). exists k. by apply bool_decide_eq_true in Hp.
  - intros (k & Hk & Hp). exists (k, r). split; [done|]. apply elem_of_select_where. split; [done|].
    by apply bool_decide_eq_true.
Qed.
Lemma existsb_items p inv t : existsb p ((items_of inv t).*2) = true ↔ ∃ r, item_in t inv r ∧ p r = true.
Proof.
  rewrite existsb_exists. split; intros (r & Hr & Hp); exists r; (split; [|done]).
  - by apply elem_of_items, list_elem_of_In.
  - by apply list_elem_of_In, elem_of_items.
Qed.
Lemma shownP s r : in_state s r && has_refs r = true ↔ shown s r.
Proof.
  unfold in_state, has_refs, shown. rewrite !andb_true_iff, !bool_decide_eq_true.
  destruct (it_evidence_refs r); naive_solver.
Qed.
Lemma sole_plausibleP r : sole_plausible r = true ↔
  it_kind r = finding ∧ json_field (JObj (it_data r)) "solePlausible" = Some (JBool true).
Proof.
  unfold sole_plausible. rewrite andb_true_iff, bool_decide_eq_true.
  destruct (json_field _ _) as [[| [] | | | |]|]; naive_solver.
Qed.

Lemma eligible_qualifies inv d : computeVerdictEligibility inv (investigationItems d) = [] ↔ qualifies inv d.
Proof.
  unfold computeVerdictEligibility, computeEligibilityFromItems, qualifies.
  set (sup := existsb _ _). set (ref := existsb _ _). set (sole := existsb _ _).
  assert (sup = true ↔ ∃ h, item_in (investigationItems d) inv h ∧ shown hs_supported h ∧ trim (it_mechanism h) ≠ "") as <-.
  { subst sup. rewrite existsb_items. split; intros (r & Hr & Hp); exists r; (split; [done|]).
    - rewrite !andb_true_iff in Hp. destruct Hp as [[H1 H2] H3]. split; [apply shownP; by rewrite H1, H3|].
      by apply negb_true_iff, bool_decide_eq_false in H2.
    - destruct Hp as [[H1 H2]%shownP%andb_true_iff Hm]. rewrite H1, H2. unfold has_mechanism.
      by rewrite bool_decide_eq_false_2. }
  assert (ref = true ↔ ∃ h, item_in (investigationItems d) inv h ∧ shown hs_refuted h) as <-.
  { subst ref. rewrite existsb_items. by setoid_rewrite shownP. }
  assert (sole = true ↔ ∃ f, item_in (investigationItems d) inv f ∧ it_kind f = finding
         ∧ json_field (JObj (it_data f)) "solePlausible" = Some (JBool true)) as <-.
  { subst sole. rewrite existsb_items. by setoid_rewrite sole_plausibleP. }
  destruct sup, ref, sole; cbn; naive_solver.
Qed.

(** When the reads of a verdict let it through. *)
Definition verdict_allowed (inv : string) (i : RecordVerdictInput) (s : InvestigationDb) : Prop :=
  is_Some (investigations s !! inv)
  ∧ match rv_verdict i with
    | root_caused => qualifies inv s ∧ is_Some (rv_confidence i)
    | undetermined => ∃ m ms, rv_missingEvidence i = Some (m :: ms)
    end.
Lemma verdict_blocking_nil inv i s : verdict_blocking inv i s = [] ↔ verdict_allowed inv i s.
Proof.
  unfold verdict_blocking, verdict_allowed. destruct (investigations s !! inv) as [r|].
  2: { split; [done|]. by intros [[? ?] _]. }
  destruct (rv_verdict i).
  - rewrite <- eligible_qualifies. destruct (computeVerdictEligibility _ _); destruct (rv_confidence i); naive_solver.
  - destruct (rv_missingEvidence i) as [[|m ms]|]; naive_solver.
Qed.

Definition verdict_part (r : Investigation) := (iv_status r, iv_verdict r, iv_confidence r).

Lemma row_or {A} (t : gmap string A) id p f k r' : (update_row id p f t).2 !! k = Some r' →
  t !! k = Some r' ∨ k = id ∧ ∃ r, t !! k = Some r ∧ p r = true ∧ r' = f r.
Proof.
  destruct (update_rowP p f id t) as [r Hk Hp|]; cbn; [|auto].
  destruct (decide (k = id)) as [->|Hne]; [|rewrite lookup_insert_ne by done; auto].
  rewrite lookup_insert_eq. intros [= <-]. right. eauto.
Qed.

Lemma exec_investigation s c o d k r' : investigations (exec_inv s c o d) !! k = Some r' →
  (∃ r, investigations d !! k = Some r ∧ verdict_part r' = verdict_part r)
  ∨ verdict_part r' = (st_open, None, None)
  ∨ ∃ id i, o = op_verdict id k i ∧ verdict_allowed k i s
      ∧ verdict_part r' = (st_concluded, Some (rv_verdict i), rv_confidence i).
Proof.
  destruct o as [id known i|inv items|id inv body data|id inv i|inv|at_ id|id|inv tg role|inv repo n role|id p|id inv i|id];
    cbn [exec_inv].
  - unfold upsertInvestigation. destruct (head _) as [[k' r]|] eqn:Hh; destruct known; cbn [andb]; eauto.
    + intros H. cbn in H. destruct (decide (k = k')) as [->|Hne]; [|rewrite lookup_insert_ne in H by done; eauto].
      rewrite lookup_insert_eq in H. injection H as <-. left. exists r. split; [|done].
      apply head_Some_elem_of, elem_of_select_where in Hh. tauto.
    + destruct (is_null _); [|eauto]. intros H. cbn in H.
      destruct (decide (k = id)) as [->|Hne]; [|rewrite lookup_insert_ne in H by done; eauto].
      rewrite lookup_insert_eq in H. injection H as <-. eauto.
  - destruct (save_cases s c inv items d) as [->|(byId & os & _ & H)]; [eauto|].
    apply patch_all_spec in H as [-> _]. eauto.
  - unfold appendEvidenceItem. destruct (insert_item _ _ _) eqn:H; [|eauto]. cbn.
    apply insert_item_spec in H as (_ & _ & ->). eauto.
  - unfold recordVerdict. destruct (verdict_blocking inv i s) eqn:Hb; [|eauto].
    destruct (insert_item _ _ _) eqn:H; [|eauto]. cbn. apply insert_item_spec in H as (_ & _ & ->). cbn.
    intros [H|(-> & r & Hr & _ & ->)]%row_or; [eauto|]. right. right. exists id, i.
    by apply verdict_blocking_nil in Hb.
  - unfold confirmVerdictAsHuman. destruct (latest_verdict _ _) as [[]|]; eauto.
  - unfold claimLessonPromotion. destruct (update_row _ _ _ _). eauto.
  - eauto.
  - unfold linkInvestigations. case_match; eauto.
  - unfold linkInvestigationIssue. repeat case_match; eauto.
  - unfold updateInvestigationItemAsHuman. repeat case_match; eauto.
  - unfold createInvestigationItemAsHuman. case_bool_decide; [eauto|]. case_match; [eauto|].
    destruct (insert_item _ _ _) eqn:H'; [|eauto]. cbn. apply insert_item_spec in H' as (_ & _ & ->). eauto.
  - eauto.
Qed.

(** C16 (safety).  A root cause is never asserted past its gate.  Over any
    history, an investigation is concluded exactly when it has a verdict; and when
    the verdict is a root cause, it has a confidence and the gate was met in the
    database its check read: a hypothesis in the state supported, with a mechanism
    and a list of references that is not empty, and either a hypothesis in the
    state refuted with such a list or a finding marked as the sole plausible.
    The gate asks that references be given, not that they name evidence
    ([root_cause_without_evidence]). *)
Theorem verdict_gated l :
  let hs := inv_history l [no_investigations] in
  ∀ k r, investigations (current hs) !! k = Some r →
    match iv_verdict r with
    | None => iv_status r = st_open ∧ iv_confidence r = None
    | Some undetermined => iv_status r = st_concluded
    | Some root_caused => iv_status r = st_concluded ∧ is_Some (iv_confidence r) ∧ ∃ s, s ∈ hs ∧ qualifies k s
    end.
Proof.
  cbn zeta. induction l as [|x l IH] using rev_ind; intros k r; [by cbn; rewrite lookup_empty|].
  rewrite history_snoc, current_advance. set (hs := inv_history l [no_investigations]) in *.
  intros [(r0 & H0 & Hp)|[Hp|(id & i & Ho & Ha & Hp)]]%exec_investigation; unfold verdict_part in Hp; injection Hp as -> -> ->.
  - specialize (IH k r0 H0). destruct (iv_verdict r0) as [[]|]; [|done..].
    destruct IH as (? & ? & s & Hs & Hq). split_and!; [done..|]. exists s. split; [by apply list_elem_of_further|done].
  - done.
  - destruct Ha as [_ Ha]. destruct (rv_verdict i); [|done]. destruct Ha as [Hq Hc]. split_and!; [done|done|].
    exists (seen_by x hs). split; [|done]. apply list_elem_of_further. by apply seen_in_history, history_nonempty.
Qed.

(** Recording a verdict, on every branch.  It is accepted
    exactly when the investigation exists and either the gate of a root cause is
    met and a confidence is given, or what is missing is named; accepted, it adds
    one item of its own and changes no other, and concludes this investigation
    alone; refused, it says why and changes nothing. *)
Theorem recordVerdict_exact c id inv i d : investigationItems d !! id = None →
  let '(res, d') := recordVerdict d c id inv i d in
  ((∃ r, investigations d !! inv = Some r ∧ verdict_allowed inv i d
     ∧ res = Some [] ∧ investigations d' = <[inv := concluded_by c i r]> (investigations d)
     ∧ investigationItems d' = <[id := verdict_row c inv i]> (investigationItems d)
     ∧ investigationLinks d' = investigationLinks d ∧ investigationIssueLinks d' = investigationIssueLinks d))
  ∨ (¬ verdict_allowed inv i d ∧ d' = d ∧ ∃ b bs, res = Some (b :: bs)).
Proof.
  intros Hid. unfold recordVerdict. destruct (verdict_blocking inv i d) as [|b bs] eqn:Hb.
  - apply verdict_blocking_nil in Hb as Ha. pose proof Ha as [[r Hr] _].
    unfold insert_item. cbn [it_investigation_id verdict_row new_item]. rewrite Hr, Hid. cbn. left. exists r.
    split_and!; try done. unfold update_row. by rewrite Hr.
  - right. split_and!; [|done|eauto]. rewrite <- verdict_blocking_nil, Hb. done.
Qed.

(** ** Hypotheses *)

Definition grounded_item (r : InvestigationItem) : Prop :=
  needs_evidence (Some (it_kind r)) (it_state r) (it_evidence_refs r) = false.
Definition grounded (t : item_table) : Prop := ∀ k r, t !! k = Some r → grounded_item r.
(** The id a line of a batch is about: the one it names or the one it generates. *)
Definition line_id (ni : string * PatchInvestigationItemInput) : string := default ni.1 (truthy_text (pi_id ni.2)).
(** A batch that names no item twice, and each by the text Postgres writes. *)
Definition names_plainly (items : list (string * PatchInvestigationItemInput)) : Prop :=
  NoDup (line_id <$> items) ∧ Forall (λ id, canonical_uuid id = true) (named_ids items).
Definition plain_batch (o : inv_op) : Prop := match o with op_patch _ items => names_plainly items | _ => True end.
(** A handler that nothing interleaves with, whose batch names items plainly. *)
Definition undisturbed (x : inv_step) : Prop := step_age x = 0%nat ∧ plain_batch (step_op x).

Lemma grounded_insert t k r : grounded t → grounded_item r → grounded (<[k := r]> t).
Proof. intros Ht Hr k' r'. rewrite lookup_insert_Some. intros [[_ <-]|[_ H]]; [done|by eapply Ht]. Qed.
Lemma grounded_row t id p f : grounded t → (∀ r, t !! id = Some r → p r = true → grounded_item (f r)) →
  grounded (update_row id p f t).2.
Proof.
  intros Ht Hf. destruct (update_rowP p f id t) as [r Hk Hp|]; cbn; [|done]. by apply grounded_insert; auto.
Qed.
Lemma grounded_insert_item id r d d' : insert_item id r d = Some d' → grounded_item r →
  grounded (investigationItems d) → grounded (investigationItems d').
Proof. intros (_ & _ & ->)%insert_item_spec Hr Hd. by apply grounded_insert. Qed.
Lemma grounded_data c data r : grounded_item r → grounded_item (set_data c data r).
Proof. done. Qed.
Lemma grounded_effective r i k : k = default (it_kind r) (pi_kind i) →
  needs_evidence (Some k) (effective_state i (Some r)) (effective_refs i (Some r)) = false →
  ∀ c, grounded_item (patched_item c i r).
Proof. intros -> H c. exact H. Qed.

(** The Map has the row of [k], if it is the investigation's. *)
Definition reads (byId : item_table) (inv : string) (d : InvestigationDb) (k : string) : Prop :=
  ∀ r, investigationItems d !! k = Some r → it_investigation_id r = inv → byId !! k = Some r.
Lemma selected_reads s inv ids byId k : selected s inv ids = Some byId → k ∈ ids → canonical_uuid k = true → reads byId inv s k.
Proof.
  unfold selected, canonical_uuid. destruct (mapM uuid_in ids) as [us|] eqn:E; [|done]. intros [= <-] Hk Hc%bool_decide_eq_true.
  intros r Hr Hi. apply map_lookup_filter_Some. split; [done|]. split; [|done].
  apply mapM_Some_1 in E. apply list_elem_of_lookup in Hk as [n Hn].
  destruct (Forall2_lookup_l _ _ _ _ _ E Hn) as (u & Hu & Hku). assert (u = k) as -> by congruence.
  by eapply list_elem_of_lookup_2.
Qed.

(** Where the Map has the row as it is, the guard is about what is written. *)
Lemma patch_one_grounded byId c inv newId i d o d' :
  patch_one byId c inv newId i d = Some (o, d') → grounded (investigationItems d) →
  (∀ id, truthy_text (pi_id i) = Some id → canonical_uuid id = true ∧ reads byId inv d id) →
  grounded (investigationItems d')
  ∧ ∀ k, k ≠ line_id (newId, i) → investigationItems d' !! k = investigationItems d !! k.
Proof.
  unfold patch_one, line_id. cbn [fst snd]. intros H Hg Hread.
  destruct (patch_refusal _ i) eqn:Hr; [by injection H as <- <-|]. unfold existing_item in Hr.
  destruct (truthy_text (pi_id i)) as [id|] eqn:Hid; cbn [mbind option_bind] in *.
  - change (default newId (Some id)) with id in *. destruct (Hread id eq_refl) as [Hc%bool_decide_eq_true Hsame].
    rewrite Hc in H. cbn [mbind option_bind] in H.
    destruct (update_rowP (still_patchable inv) (patched_item c i) id (investigationItems d)) as [r Hk Hp|Hp].
    + injection H as <- <-. cbn. split; [|intros k Hne; by rewrite lookup_insert_ne].
      apply grounded_insert; [done|]. apply still_patchable_spec in Hp as (Hi & _ & _).
      rewrite (Hsame r Hk Hi) in Hr. apply refusal_kind in Hr as [(_ & _ & Hkind) Hn].
      cbn [coalesce fmap option_fmap option_map] in Hn.
      eapply grounded_effective; [|exact Hn]. destruct (pi_kind i) as [k|]; [|done]. cbn. by rewrite (Hkind k).
    + by injection H as <- <-.
  - destruct (pi_kind i) as [kind|] eqn:Hkind; [|done]. cbn [mbind option_bind] in H.
    destruct (insert_item _ _ d) as [d1|] eqn:Hi; [|done]. injection H as <- <-.
    apply refusal_kind in Hr as [_ Hn]. rewrite Hkind in Hn. split.
    + eapply grounded_insert_item; [exact Hi| |done]. unfold grounded_item. cbn.
      unfold effective_state, effective_refs in Hn. cbn in Hn. destruct (pi_state i), (pi_evidenceRefs i); done.
    + apply insert_item_spec in Hi as (_ & _ & ->). intros k Hne. cbn. by rewrite lookup_insert_ne.
Qed.
Lemma named_line items id : id ∈ named_ids items → id ∈ line_id <$> items.
Proof.
  intros (ni & Hni & Hid)%list_elem_of_omap. apply list_elem_of_fmap. exists ni. split; [|done].
  unfold line_id. by rewrite Hid.
Qed.
Lemma patch_all_grounded byId c inv items d os d' : names_plainly items →
  patch_all byId c inv items d = Some (os, d') → grounded (investigationItems d) →
  (∀ id, id ∈ named_ids items → reads byId inv d id) →
  grounded (investigationItems d').
Proof.
  unfold names_plainly, named_ids.
  revert d os. induction items as [|[newId i] items IH]; intros d os [Hnd Hcan]; cbn [patch_all]; [by intros [= <- <-]|].
  destruct (patch_one byId c inv newId i d) as [[o d1]|] eqn:H1; [|done]. cbn [mbind option_bind].
  destruct (patch_all byId c inv items d1) as [[os' d2]|] eqn:H2; [|done]. cbn [mbind option_bind].
  intros [= <- <-] Hg Hread. rewrite fmap_cons, NoDup_cons in Hnd. destruct Hnd as [Hni Hnd].
  rewrite Forall_forall in Hcan. cbn [omap list_omap snd] in Hcan, Hread.
  destruct (patch_one_grounded _ _ _ _ _ _ _ _ H1 Hg) as [Hg1 Hother].
  { intros id Hid. rewrite Hid in Hcan, Hread. split; [apply Hcan|apply Hread]; set_solver. }
  assert (Hsub : ∀ id, id ∈ named_ids items → id ∈ omap (λ ni, truthy_text (pi_id ni.2)) ((newId, i) :: items)).
  { intros id Hid. cbn [omap list_omap snd]. unfold named_ids in Hid. destruct (truthy_text (pi_id i)); set_solver. }
  eapply IH; [split; [done|]|exact H2|done|].
  - apply Forall_forall. intros id Hid. by apply Hcan, Hsub.
  - intros id Hid r. rewrite Hother; [by apply Hread, Hsub|]. intros ->. apply Hni. by apply named_line.
Qed.

Lemma exec_grounded c o d : plain_batch o →
  grounded (investigationItems d) → grounded (investigationItems (exec_inv d c o d)).
Proof.
  intros Ho Hg.
  destruct o as [id known i|inv items|id inv body data|id inv i|inv|at_ id|id|inv tg role|inv repo n role|id p|id inv i|id];
    cbn [exec_inv].
  - unfold upsertInvestigation. destruct (head _) as [[]|]; repeat case_match; done.
  - destruct (save_cases d c inv items d) as [->|(byId & os & Hs & H)]; [done|].
    eapply patch_all_grounded; [exact Ho|exact H|done|]. intros id Hid. eapply selected_reads; [exact Hs|done|].
    destruct Ho as [_ Hcan]. rewrite Forall_forall in Hcan. by apply Hcan.
  - unfold appendEvidenceItem. destruct (insert_item _ _ _) eqn:H; [|done]. by eapply grounded_insert_item.
  - unfold recordVerdict. destruct (verdict_blocking _ _ _); [|done]. destruct (insert_item _ _ _) eqn:H; [|done].
    cbn. by eapply grounded_insert_item.
  - unfold confirmVerdictAsHuman. destruct (latest_verdict _ _) as [[id r]|]; [|done]. apply grounded_row; [done|].
    intros r0 H0 _. by eapply grounded_data, Hg.
  - unfold claimLessonPromotion. destruct (update_row _ _ _ _) as [row t] eqn:E. cbn. change t with ((row, t).2).
    rewrite <- E. apply grounded_row; [done|]. intros r0 H0 _. by eapply grounded_data, Hg.
  - apply grounded_row; [done|]. intros r0 H0 _. by eapply grounded_data, Hg.
  - unfold linkInvestigations. by case_match.
  - unfold linkInvestigationIssue. by repeat case_match.
  - unfold updateInvestigationItemAsHuman. destruct (investigationItems d !! id) as [r|] eqn:Hr; [|done].
    destruct (human_refusal r p) eqn:Hh; [done|]. unfold human_refusal in Hh.
    destruct (_ || _); [done|]. destruct (needs_evidence _ _ _) eqn:Hn; [done|].
    destruct (update_row _ _ _ _) as [row t] eqn:E. assert (grounded t).
    { change t with ((row, t).2). rewrite <- E. apply grounded_row; [done|]. intros r0 H0 _.
      assert (r0 = r) as -> by congruence. by eapply grounded_effective. }
    by destruct row.
  - unfold createInvestigationItemAsHuman. case_bool_decide; [done|]. destruct (needs_evidence _ _ _) eqn:Hn; [done|].
    destruct (insert_item _ _ _) eqn:H'; [|done]. by eapply grounded_insert_item.
  - unfold deleteInvestigationItem. intros k r H. cbn in H. apply lookup_delete_Some in H as [_ H]. by eapply Hg.
Qed.

(** C17 (invariant).  A conclusion rests on a reference.  Over any history of
    handlers that nothing interleaves with, whose batches name no item twice and
    name each by the text Postgres writes for its id, no hypothesis stands
    supported or refuted with an empty list of references, whoever wrote it and
    in whatever pieces the patches came.  Each of the three conditions is needed:
    [old_read_evades_gate], [repeated_line_evades_gate] and
    [uppercase_id_evades_gate] break the claim without it. *)
Theorem conclusions_grounded l : Forall undisturbed l →
  ∀ k r, investigationItems (current (inv_history l [no_investigations])) !! k = Some r →
    it_kind r = hypothesis → it_state r = Some hs_supported ∨ it_state r = Some hs_refuted →
    it_evidence_refs r ≠ [].
Proof.
  intros Hl k r Hr Hk Hs. assert (Hg : grounded (investigationItems (current (inv_history l [no_investigations])))).
  { clear Hr. induction l as [|x l IH] using rev_ind; [intros k' r'; cbn; by rewrite lookup_empty|].
    apply Forall_app in Hl as [Hl [[Hage Hx] _]%Forall_cons]. rewrite history_snoc, current_advance.
    unfold seen_by. rewrite Hage. replace (default _ _) with (current (inv_history l [no_investigations]))
      by (by destruct (inv_history l [no_investigations])).
    by apply exec_grounded, IH. }
  specialize (Hg k r Hr). unfold grounded_item, needs_evidence in Hg. rewrite Hk, bool_decide_eq_true_2 in Hg by done.
  destruct (it_evidence_refs r); [|done]. by destruct Hs as [Hs|Hs]; rewrite Hs in Hg.
Qed.

(** ** Lessons *)

Definition promoted (k : string) (d : InvestigationDb) : bool :=
  match investigationItems d !! k with Some r => negb (null_at "promotedAt" (it_data r)) | None => false end.
(** Whether [x], run on [d], is a claim of [k] that wins. *)
Definition wins (k : string) (x : inv_step) (d : InvestigationDb) : bool :=
  match step_op x with
  | op_claim at_ id => (id ≡? k) && negb (is_null (claimLessonPromotion (step_clock x) at_ id d).1)
  | _ => false
  end.
Fixpoint promotions (k : string) (l : list inv_step) (hs : list InvestigationDb) : nat :=
  match l with
  | [] => 0
  | x :: l => (if wins k x (current hs) then 1 else 0) + promotions k l (advance hs x)
  end.
Definition is_unclaim (k : string) (x : inv_step) : bool :=
  match step_op x with op_unclaim id => id ≡? k | _ => false end.
(** The step neither overwrites the data of [k] nor deletes it. *)
Definition spares (k : string) (x : inv_step) : Prop :=
  match step_op x with
  | op_patch _ items => ∀ ni, ni ∈ items → truthy_text (pi_id ni.2) ≫= uuid_in = Some k → pi_data ni.2 = None
  | op_edit id p => id = k → pi_data p = None
  | op_confirm _ => step_age x = 0%nat
  | op_delete id => id ≠ k
  | _ => True
  end.

Lemma null_put k v data : v ≠ JNull → null_at k (put_key k v data) = false.
Proof. intros H. unfold null_at, put_key. rewrite json_field_last. by destruct v. Qed.
Lemma null_put_other k k' v data : k ≠ k' → null_at k (put_key k' v data) = null_at k data.
Proof.
  intros H. unfold null_at, put_key. rewrite json_field_other by done. rewrite json_field_without; [done|].
  by rewrite list_elem_of_singleton.
Qed.

Lemma promoted_row k d id p f :
  (∀ r, investigationItems d !! k = Some r → id = k → p r = true →
     null_at "promotedAt" (it_data r) = false → null_at "promotedAt" (it_data (f r)) = false) →
  promoted k d = true → promoted k (with_items (update_row id p f (investigationItems d)).2 d) = true.
Proof.
  unfold promoted. cbn. intros Hf. destruct (investigationItems d !! k) as [r|] eqn:Hk; [|done].
  intros Hn%negb_true_iff. destruct (update_rowP p f id (investigationItems d)) as [r0 H0 Hp|]; cbn; [|by rewrite Hk, Hn].
  destruct (decide (k = id)) as [->|Hne]; [|by rewrite lookup_insert_ne, Hk, Hn].
  rewrite lookup_insert_eq. assert (r0 = r) as -> by congruence. by rewrite (Hf r).
Qed.
Lemma promoted_insert k id r d d' : insert_item id r d = Some d' → promoted k d = true → promoted k d' = true.
Proof.
  intros (_ & Hn & ->)%insert_item_spec. unfold promoted. cbn. destruct (decide (k = id)) as [->|Hne].
  - by rewrite Hn.
  - by rewrite lookup_insert_ne.
Qed.
Lemma promoted_patch k byId c inv items d os d' :
  (∀ ni, ni ∈ items → truthy_text (pi_id ni.2) ≫= uuid_in = Some k → pi_data ni.2 = None) →
  patch_all byId c inv items d = Some (os, d') → promoted k d = true → promoted k d' = true.
Proof.
  revert d os. induction items as [|[newId i] items IH]; intros d os Hl; cbn [patch_all]; [by intros [= <- <-]|].
  destruct (patch_one byId c inv newId i d) as [[o d1]|] eqn:H1; [|done]. cbn [mbind option_bind].
  destruct (patch_all byId c inv items d1) as [[os' d2]|] eqn:H2; [|done]. cbn [mbind option_bind].
  intros [= <- <-] Hp. eapply IH; [|exact H2|]; [intros ni Hni; apply Hl; set_solver|].
  specialize (Hl (newId, i) (ltac:(set_solver))). cbn in Hl. unfold patch_one in H1.
  destruct (patch_refusal _ i); [by injection H1 as <- <-|].
  destruct (truthy_text (pi_id i)) as [id|].
  - cbn [mbind option_bind] in Hl. destruct (uuid_in id) as [u|]; [|done]. cbn [mbind option_bind] in H1.
    pose proof (promoted_row k d u (still_patchable inv) (patched_item c i)) as Hr.
    destruct (update_row _ _ _ _) as [[r|] t]; cbn [snd] in Hr; injection H1 as <- <-; [|done].
    apply Hr; [|done]. intros r0 _ -> _. cbn. by rewrite Hl.
  - destruct (pi_kind i); [|done]. cbn [mbind option_bind] in H1.
    destruct (insert_item _ _ d) eqn:Hi; [|done]. injection H1 as <- <-. by eapply promoted_insert.
Qed.

Lemma promoted_kept k x s d : spares k x → is_unclaim k x = false → (step_age x = 0%nat → s = d) →
  promoted k d = true → promoted k (exec_inv s (step_clock x) (step_op x) d) = true.
Proof.
  destruct x as [age c o]. cbn [step_age step_clock step_op].
  unfold spares, is_unclaim. cbn [step_age step_op]. intros Hs Hu Hage Hp.
  destruct o as [id known i|inv items|id inv body data|id inv i|inv|at_ id|id|inv tg role|inv repo n role|id p|id inv i|id];
    cbn [exec_inv].
  - unfold upsertInvestigation. destruct (head _) as [[]|]; repeat case_match; done.
  - destruct (save_cases s c inv items d) as [->|(byId & os & _ & H)]; [done|]. by eapply promoted_patch.
  - unfold appendEvidenceItem. destruct (insert_item _ _ _) eqn:H; [|done]. by eapply promoted_insert.
  - unfold recordVerdict. destruct (verdict_blocking _ _ _); [|done]. destruct (insert_item _ _ _) eqn:H; [|done].
    by apply (promoted_insert k) in H.
  - unfold confirmVerdictAsHuman. rewrite (Hage Hs). destruct (latest_verdict _ _) as [[id r]|] eqn:H; [|done].
    apply latest_verdict_kind in H as [Hr _]. apply promoted_row; [|done]. intros r0 H0 -> _ Hn.
    cbn. rewrite null_put_other by done. congruence.
  - pose proof (promoted_row k d id claimable_lesson (λ r, set_data c (put_key "promotedAt" (JStr at_) (it_data r)) r)) as Hr.
    unfold claimLessonPromotion. destruct (update_row _ _ _ _) as [row t]. cbn. apply Hr; [|done].
    intros r _ _ _ _. by apply null_put.
  - apply promoted_row; [|done]. intros r _ -> _ _. by rewrite bool_decide_eq_true_2 in Hu.
  - unfold linkInvestigations. by case_match.
  - unfold linkInvestigationIssue. by repeat case_match.
  - unfold updateInvestigationItemAsHuman. destruct (investigationItems s !! id); [|done].
    destruct (human_refusal _ _); [done|].
    pose proof (promoted_row k d id (λ _, true) (edited_item c p)) as Hr.
    destruct (update_row _ _ _ _) as [[r|] t]; cbn [snd] in *; [|done]. apply Hr; [|done].
    intros r0 _ -> _. cbn. by rewrite (Hs eq_refl).
  - unfold createInvestigationItemAsHuman. case_bool_decide; [done|]. case_match; [done|].
    destruct (insert_item _ _ _) eqn:H'; [|done]. by eapply promoted_insert.
  - unfold deleteInvestigationItem, promoted in *. cbn. by rewrite lookup_delete_ne.
Qed.

(** A lesson enters the memory once.  Over any history that leaves
    the item and its data to the promotion, the claims of a lesson that win are at
    most one more than the claims given back: however many humans promote it at
    the same time, one insert into memory follows each claim that was not undone. *)
Theorem lesson_promoted_once l hs k : (∀ x, x ∈ l → spares k x) →
  (promotions k l hs ≤ 1 + length (List.filter (is_unclaim k) l))%nat.
Proof.
  intros Hl. cut (promotions k l hs + (if promoted k (current hs) then 1 else 0)
                  ≤ 1 + length (List.filter (is_unclaim k) l))%nat; [lia|].
  revert hs. induction l as [|x l IH]; intros hs; cbn [promotions List.filter]; [cbn; case_match; lia|].
  specialize (IH (ltac:(intros y Hy; apply Hl; set_solver)) (advance hs x)). rewrite current_advance in IH.
  destruct (is_unclaim k x) eqn:Hu.
  { assert (wins k x (current hs) = false) as ->.
    { unfold is_unclaim, wins in *. by destruct (step_op x). }
    cbn [length]. destruct (promoted k (current hs)); lia. }
  destruct (wins k x (current hs)) eqn:Hw.
  - unfold wins in Hw. destruct x as [age c o]. cbn in *. destruct o as [| | | | |at_ id| | | | | |]; try done.
    apply andb_true_iff in Hw as [->%bool_decide_eq_true Hw].
    cbn [exec_inv step_clock step_op] in IH. unfold promoted, claimLessonPromotion, update_row in *.
    destruct (investigationItems (current hs) !! k) as [r|] eqn:Hk; [|done].
    destruct (claimable_lesson r) eqn:Hp; [|done]. cbn in IH. rewrite lookup_insert_eq in IH. cbn in IH.
    rewrite null_put in IH by done. cbn in IH. apply andb_true_iff in Hp as [_ ->]. cbn. lia.
  - destruct (promoted k (current hs)) eqn:Hp; [|destruct (promoted k _) in IH; lia].
    rewrite (promoted_kept k x) in IH; [lia|apply Hl; set_solver|done| |done].
    intros Ha. unfold seen_by. rewrite Ha. by destruct hs.
Qed.

(** ** Keys *)

Definition same_incident (r r' : Investigation) : Prop :=
  iv_workspace_id r = iv_workspace_id r' ∧ iv_slug r = iv_slug r'.
Record keys_ok (d : InvestigationDb) : Prop := {
  ko_slugs : ∀ k k' r r', investigations d !! k = Some r → investigations d !! k' = Some r' → same_incident r r' → k = k';
  ko_sessions : ∀ k r, investigations d !! k = Some r → NoDup (iv_jace_session_ids r);
  ko_issues : NoDup (issue_key <$> investigationIssueLinks d);
}.

Lemma append_session_NoDup s l : NoDup l → NoDup (append_session s l).
Proof.
  unfold append_session. case_bool_decide; [done|]. intros Hl. apply NoDup_app. split_and!; [done| |].
  - by intros x Hx ->%list_elem_of_singleton.
  - apply NoDup_singleton.
Qed.
Lemma of_slugP ws slug k r : of_slug ws slug k r = true ↔ iv_workspace_id r = ws ∧ iv_slug r = slug.
Proof. unfold of_slug. by rewrite andb_true_iff, !bool_decide_eq_true. Qed.

Lemma keys_upsert c id known i d : keys_ok d → keys_ok (upsertInvestigation c id known i d).2.
Proof.
  intros [Hs Hn Hi]. unfold upsertInvestigation.
  destruct (head _) as [[k0 r0]|] eqn:Hh; [destruct known|destruct (known && _) eqn:Hk]; cbn [snd]; try done.
  - apply head_Some_elem_of, elem_of_select_where in Hh as [H0 [Hw Hsl]%of_slugP].
    split; cbn; [|intros k r [[_ <-]|[_ H]]%lookup_insert_Some; [|by eapply Hn]|done].
    + intros k k' r r' H H' Hsame.
      assert (∀ x y, <[k0:=patched_investigation c i r0]> (investigations d) !! x = Some y →
                ∃ z, investigations d !! x = Some z ∧ same_incident y z) as Hback.
      { intros x y [[<- <-]|[_ Hy]]%lookup_insert_Some; [exists r0|exists y]; by split. }
      destruct (Hback _ _ H) as (z & Hz & Hz1 & Hz2), (Hback _ _ H') as (z' & Hz' & Hz1' & Hz2').
      apply (Hs k k' z z'); [done..|]. destruct Hsame. split; congruence.
    + cbn. destruct (ui_appendSessionId i); [apply append_session_NoDup|]; by eapply Hn.
  - apply andb_true_iff in Hk as [_ Hid]. destruct (investigations d !! id) eqn:E; [done|].
    assert (Hno : ∀ k r, investigations d !! k = Some r → ¬ same_incident r (new_investigation c i)).
    { intros k r H [H1 H2]. assert (In : (k, r) ∈ select_where (of_slug (ui_workspaceId i) (ui_slug i)) (investigations d)).
      { apply elem_of_select_where. split; [done|]. by apply of_slugP. }
      destruct (select_where _ _); [by apply not_elem_of_nil in In|done]. }
    split; cbn; [|intros k r [[_ <-]|[_ H]]%lookup_insert_Some; [|by eapply Hn]|done].
    + intros k k' r r' [[<- <-]|[_ H]]%lookup_insert_Some [[<- <-]|[_ H']]%lookup_insert_Some Hsame; [done|..].
      * exfalso. apply (Hno k' r' H'). destruct Hsame. by split.
      * exfalso. by apply (Hno k r H).
      * by apply (Hs k k' r r').
    + cbn. destruct (truthy_text _); [apply NoDup_singleton|apply NoDup_nil_2].
Qed.

Lemma same_incidents_keep d d' :
  (∀ k r', investigations d' !! k = Some r' → ∃ r, investigations d !! k = Some r ∧ same_incident r' r
     ∧ iv_jace_session_ids r' = iv_jace_session_ids r) →
  NoDup (issue_key <$> investigationIssueLinks d') → keys_ok d → keys_ok d'.
Proof.
  intros H Hi [Hs Hn _]. split; [|intros k r' (r & Hr & _ & ->)%H; by eapply Hn|done].
  intros k k' r r' (z & Hz & Hz1 & Hz2)%H%id (z' & Hz' & (Hz1' & Hz2') & _)%H%id [H1 H2].
  apply (Hs k k' z z'); [done..|]. destruct Hz1. split; congruence.
Qed.

Lemma keys_exec s c o d : keys_ok d → keys_ok (exec_inv s c o d).
Proof.
  intros Hd.
  assert (Hkeep : ∀ d', investigations d' = investigations d → investigationIssueLinks d' = investigationIssueLinks d → keys_ok d').
  { intros d' H1 H2. destruct Hd as [Hs Hn Hi]. split; rewrite ?H1, ?H2; done. }
  destruct o as [id known i|inv items|id inv body data|id inv i|inv|at_ id|id|inv tg role|inv repo n role|id p|id inv i|id];
    cbn [exec_inv].
  - by apply keys_upsert.
  - destruct (save_cases s c inv items d) as [->|(byId & os & _ & H)]; [done|].
    apply patch_all_spec in H as [-> _]. by apply Hkeep.
  - unfold appendEvidenceItem. destruct (insert_item _ _ _) eqn:H; [|done]. apply insert_item_spec in H as (_ & _ & ->).
    by apply Hkeep.
  - unfold recordVerdict. destruct (verdict_blocking _ _ _); [|done]. destruct (insert_item _ _ _) eqn:H; [|done].
    apply insert_item_spec in H as (_ & _ & ->). cbn. apply (same_incidents_keep d); [|apply Hd|done]. cbn.
    intros k r' [H|(-> & r & Hr & _ & ->)]%row_or; [by exists r'|by exists r].
  - unfold confirmVerdictAsHuman. destruct (latest_verdict _ _) as [[]|]; by apply Hkeep.
  - unfold claimLessonPromotion. destruct (update_row _ _ _ _). by apply Hkeep.
  - by apply Hkeep.
  - unfold linkInvestigations. case_match; by apply Hkeep.
  - unfold linkInvestigationIssue. destruct (existsb _ _) eqn:He; [done|]. destruct (known_investigation _ _); [|done].
    cbn. destruct Hd as [Hs Hn Hi]. split; [done|done|]. cbn. rewrite fmap_app. apply NoDup_app.
    split_and!; [done| |apply NoDup_singleton]. intros x (l & -> & Hl)%list_elem_of_fmap Hx%list_elem_of_singleton.
    apply not_true_iff_false in He. apply He, existsb_exists. exists l. split; [by apply list_elem_of_In|].
    by apply bool_decide_eq_true_2.
  - unfold updateInvestigationItemAsHuman. destruct (_ !! id); [|done]. destruct (human_refusal _ _); [done|].
    destruct (update_row _ _ _ _) as [[]]; by apply Hkeep.
  - unfold createInvestigationItemAsHuman. case_bool_decide; [done|]. case_match; [done|].
    destruct (insert_item _ _ _) eqn:H'; [|done]. apply insert_item_spec in H' as (_ & _ & ->). by apply Hkeep.
  - by apply Hkeep.
Qed.

(** One incident, one record.  Over any history no two
    investigations of a workspace share a slug, however often and by whomever they
    are opened again; a session is listed once; and an issue is linked to an
    investigation once, whatever is retried. *)
Theorem one_record_per_incident l :
  let d := current (inv_history l [no_investigations]) in
  (∀ k k' r r', investigations d !! k = Some r → investigations d !! k' = Some r' → same_incident r r' → k = k')
  ∧ (∀ k r, investigations d !! k = Some r → NoDup (iv_jace_session_ids r))
  ∧ NoDup (issue_key <$> investigationIssueLinks d).
Proof.
  cbn zeta. assert (keys_ok (current (inv_history l [no_investigations]))) as [H1 H2 H3]; [|done].
  apply history_ind; [|intros; by apply keys_exec].
  split; cbn; [intros k k' r r'|intros k r|apply NoDup_nil_2]; by rewrite lookup_empty.
Qed.

(** ** A sample incident *)

Module SampleIncident.
(** The ids of two hypotheses and a lesson. *)
Definition h1 : string := "11111111-1111-4111-8111-1111111111a1".
Definition h2 : string := "11111111-1111-4111-8111-1111111111a2".
Definition l1 : string := "11111111-1111-4111-8111-1111111111b1".
Definition at_ (n : Z) : Clock := mkClock n n.
Definition now_ (n : Z) (o : inv_op) : inv_step := mkInvStep 0 (at_ n) o.
Definition opened : inv_op :=
  op_upsert "i1" true (mkUpsert "ws" "checkout-500s" None (Some "Checkout fails") None None (Some sev_high) None None None
                         (Some "s1")).
Definition line (id : option string) (kind : InvestigationItemKind) (state : option (option HypothesisState))
    (refs : option (list string)) : PatchInvestigationItemInput :=
  mkPatchItem id (Some kind) (Some "claim") (Some "the pool starves") state refs None.
Definition states (id : string) (s : HypothesisState) : PatchInvestigationItemInput :=
  mkPatchItem (Some id) (Some hypothesis) None None (Some (Some s)) None None.
Definition refers (id : string) (refs : list string) : PatchInvestigationItemInput :=
  mkPatchItem (Some id) (Some hypothesis) None None None (Some refs) None.
Definition with_data (id : option string) (kind : InvestigationItemKind) (data : list (string * json))
    : PatchInvestigationItemInput := mkPatchItem id (Some kind) None None None None (Some data).
Definition root_cause : RecordVerdictInput := mkVerdictInput root_caused (Some vc_confirmed) (Some "pool") None.
Definition investigated : list inv_step :=
  [now_ 1 opened; now_ 2 (op_evidence "e1" "i1" "a trace" []);
   now_ 3 (op_patch "i1" [(h1, line None hypothesis (Some (Some hs_open)) (Some ["e1"]));
                          (h2, line None hypothesis (Some (Some hs_refuted)) (Some ["e1"]));
                          (l1, line None lesson_candidate None None)]);
   now_ 4 (op_patch "i1" [("x", states h1 hs_supported)])].
Definition run (l : list inv_step) : list InvestigationDb := inv_history l [no_investigations].
Definition human_line : PatchInvestigationItemInput := mkPatchItem None None (Some "It is the pool.") None None None None.
End SampleIncident.
Import SampleIncident.

Lemma investigated_ids : NoDup (created_ids investigated).
Proof. apply (bool_decide_eq_true _). by vm_compute. Qed.
Lemma sample_undisturbed : Forall undisturbed investigated.
Proof. repeat constructor; apply (bool_decide_eq_true _); by vm_compute. Qed.
Definition sample_item (l : list inv_step) (k : string) : option InvestigationItem :=
  investigationItems (current (run l)) !! k.

(** ** Where the code and its comments disagree *)

(** The gate on evidence reads each row once, before the batch, so a batch that
    names a hypothesis twice - first to clear its references, then to support it -
    passes, and leaves it supported by nothing. *)
Theorem repeated_line_evades_gate :
  let l := take 3 investigated ++ [now_ 4 (op_patch "i1" [("x", refers h1 []); ("y", states h1 hs_supported)])] in
  option_map (λ r, (it_kind r, it_state r, it_evidence_refs r)) (sample_item l h1)
    = Some (hypothesis, Some hs_supported, []).
Proof. by vm_compute. Qed.

(** The gate looks an item up in a Map by the text of its id, the UPDATE by the
    uuid that text stands for: a save that writes the id of an open hypothesis in
    upper case, and leaves its kind out, passes the gate as if there were no such
    item, and leaves it supported by nothing.  With a kind, which the route always
    sends, it passes the guard of kinds: a finding in the state supported becomes
    a hypothesis supported by nothing. *)
Theorem uppercase_id_evades_gate :
  let l := take 2 investigated
           ++ [now_ 3 (op_patch "i1" [(h1, line None hypothesis (Some (Some hs_open)) None)]);
               now_ 4 (op_patch "i1" [("x", mkPatchItem (Some "11111111-1111-4111-8111-1111111111A1") None None None
                                              (Some (Some hs_supported)) None None)])] in
  let l' := take 2 investigated
            ++ [now_ 3 (op_patch "i1" [(h1, line None finding (Some (Some hs_supported)) None)]);
                now_ 4 (op_patch "i1" [("x", line (Some "11111111-1111-4111-8111-1111111111A1") hypothesis None None)])] in
  let said r := (it_kind r, it_state r, it_evidence_refs r) in
  option_map said (sample_item l h1) = Some (hypothesis, Some hs_supported, [])
  ∧ option_map said (sample_item l' h1) = Some (hypothesis, Some hs_supported, []).
Proof. by vm_compute. Qed.

(** An edit of a human that acts on reads older than a save of Jace evades it too. *)
Theorem old_read_evades_gate :
  let l := investigated ++ [mkInvStep 1 (at_ 5) (op_edit h1 (refers h1 []))] in
  option_map (λ r, (it_kind r, it_state r, it_evidence_refs r)) (sample_item l h1)
    = Some (hypothesis, Some hs_supported, []).
Proof. by vm_compute. Qed.

(** The confirmation of a verdict is documented as out of reach of every field of
    the saving tool; the tool's [data] writes it, and its [kind] makes the verdict
    that is confirmed. *)
Theorem model_confirms_verdict :
  let l := investigated ++ [now_ 5 (op_patch "i1" [("v9", with_data None verdict_item [("humanConfirmed", JBool true)])])] in
  option_map (λ r, (it_kind r, it_authority r, json_field (JObj (it_data r)) "humanConfirmed")) (sample_item l "v9")
    = Some (verdict_item, by_jace, Some (JBool true))
  ∧ option_map fst (latest_verdict "i1" (investigationItems (current (run l)))) = Some "v9".
Proof. by vm_compute. Qed.

(** The saving tool says that a hypothesis without a mechanism is not supported;
    no guard of the store asks for one. *)
Theorem supported_without_mechanism :
  let l := take 2 investigated ++ [now_ 3 (op_patch "i1"
             [(h1, mkPatchItem None (Some hypothesis) None None (Some (Some hs_supported)) (Some ["e1"]) None)])] in
  option_map (λ r, (it_state r, it_mechanism r)) (sample_item l h1) = Some (Some hs_supported, "").
Proof. by vm_compute. Qed.

(** Nothing asks that a reference name a piece of evidence: a root cause is
    recorded on an investigation that has none. *)
Theorem root_cause_without_evidence :
  let l := [now_ 1 opened; now_ 2 (op_patch "i1" [(h1, line None hypothesis (Some (Some hs_supported)) (Some ["?"]));
                                                 (h2, line None hypothesis (Some (Some hs_refuted)) (Some ["?"]))]);
            now_ 3 (op_verdict "v1" "i1" root_cause)] in
  (iv_verdict <$> investigations (current (run l)) !! "i1") = Some (Some root_caused)
  ∧ bool_decide (map_Forall (λ _ r, it_kind r ≠ evidence) (investigationItems (current (run l)))) = true.
Proof. by vm_compute. Qed.

(** The check and the write of a verdict share a transaction that is documented to
    close the window between them; at the isolation the database runs, a save that
    commits in between leaves a root cause whose gate is not met when it is
    written. *)
Theorem verdict_window_open :
  let l := investigated ++ [now_ 5 (op_patch "i1" [("x", states h1 hs_refuted)]);
                            mkInvStep 1 (at_ 6) (op_verdict "v1" "i1" root_cause)] in
  (iv_verdict <$> investigations (current (run l)) !! "i1") = Some (Some root_caused)
  ∧ computeVerdictEligibility "i1" (investigationItems (current (run (take 5 l)))) = [no_supported].
Proof. by vm_compute. Qed.

(** The claim of a lesson is kept in its data, which a save of Jace replaces, so a
    lesson can enter the memory again. *)
Theorem saved_lesson_promoted_again :
  let claim n := now_ n (op_claim "t" l1) in
  promotions l1 (investigated ++ [claim 5; claim 6; now_ 7 (op_patch "i1" [("x", with_data (Some l1) lesson_candidate [])]);
                                    claim 8]) [no_investigations] = 2%nat.
Proof. by vm_compute. Qed.

(** ** Witnesses *)

Lemma human_words_stand_witness :
  let hs := run (investigated ++ [now_ 5 (op_edit h1 human_line)]) in
  ∃ r', investigationItems (current (inv_history [now_ 6 (op_patch "i1" [("x", states h1 hs_refuted)])] hs)) !! h1 = Some r'
    ∧ it_body r' = "It is the pool." ∧ it_state r' = Some hs_supported.
Proof.
  cbn zeta. set (hs := run _).
  assert (Hr : ∃ r, investigationItems (current hs) !! h1 = Some r ∧ it_authority r = by_human
             ∧ it_body r = "It is the pool." ∧ it_state r = Some hs_supported).
  { eexists. split; [vm_compute; reflexivity|]. done. }
  destruct Hr as (r & Hr & Ha & Hb & Hst).
  assert (Hl : ∀ x, x ∈ [now_ 6 (op_patch "i1" [("x", states h1 hs_refuted)])] → ¬ op_touches h1 (step_op x)).
  { intros x ->%list_elem_of_singleton. intros []. }
  destruct (human_words_stand hs [now_ 6 (op_patch "i1" [("x", states h1 hs_refuted)])] h1 r Hr Ha Hl)
    as (r' & Hr' & Hc).
  exists r'. split; [exact Hr'|]. unfold content in Hc. injection Hc as _ _ -> _ -> _ _ _. by split.
Defined.

Lemma evidence_tamper_evident_witness :
  NoDup (created_ids investigated)
  ∧ ∃ r, investigationItems (current (run investigated)) !! "e1" = Some r ∧ captured investigated "e1" r.
Proof.
  split; [exact investigated_ids|].
  assert (Hr : ∃ r, investigationItems (current (run investigated)) !! "e1" = Some r ∧ it_kind r = evidence).
  { eexists. split; [vm_compute; reflexivity|]. done. }
  destruct Hr as (r & Hr & He). exists r. split; [exact Hr|].
  exact (proj1 (evidence_tamper_evident investigated investigated_ids "e1" r Hr He)).
Defined.

Lemma verdict_gated_witness :
  let hs := run (investigated ++ [now_ 5 (op_verdict "v1" "i1" root_cause)]) in
  ∃ r s, investigations (current hs) !! "i1" = Some r ∧ iv_verdict r = Some root_caused ∧ s ∈ hs ∧ qualifies "i1" s.
Proof.
  cbn zeta. set (l := investigated ++ _).
  assert (Hr : ∃ r, investigations (current (run l)) !! "i1" = Some r ∧ iv_verdict r = Some root_caused).
  { eexists. split; [vm_compute; reflexivity|]. done. }
  destruct Hr as (r & Hr & Hv). pose proof (verdict_gated l "i1" r Hr) as Hg. rewrite Hv in Hg.
  destruct Hg as (_ & _ & s & Hs & Hq). exists r, s. split; [exact Hr|]. split; [exact Hv|]. by split.
Defined.

Lemma recordVerdict_exact_witness :
  investigationItems (current (run investigated)) !! "v1" = None
  ∧ (recordVerdict (current (run investigated)) (at_ 5) "v1" "i1" root_cause (current (run investigated))).1 = Some [].
Proof.
  assert (Hid : investigationItems (current (run investigated)) !! "v1" = None) by (vm_compute; reflexivity).
  split; [exact Hid|].
  pose proof (recordVerdict_exact (at_ 5) "v1" "i1" root_cause (current (run investigated)) Hid) as H.
  vm_compute. reflexivity.
Defined.

Lemma conclusions_grounded_witness :
  Forall undisturbed investigated
  ∧ ∃ r, investigationItems (current (run investigated)) !! h1 = Some r ∧ it_evidence_refs r ≠ [].
Proof.
  split; [exact sample_undisturbed|].
  assert (Hr : ∃ r, investigationItems (current (run investigated)) !! h1 = Some r ∧ it_kind r = hypothesis
             ∧ it_state r = Some hs_supported).
  { eexists. split; [vm_compute; reflexivity|]. done. }
  destruct Hr as (r & Hr & Hk & Hs). exists r. split; [exact Hr|].
  exact (conclusions_grounded investigated sample_undisturbed h1 r Hr Hk (or_introl Hs)).
Defined.

Lemma lesson_promoted_once_witness :
  let l := [now_ 5 (op_claim "t" l1); now_ 6 (op_claim "t" l1); now_ 7 (op_unclaim l1); now_ 8 (op_claim "t" l1)] in
  promotions l1 l (run investigated) = 2%nat ∧ (promotions l1 l (run investigated) ≤ 2)%nat.
Proof.
  cbn zeta. split; [vm_compute; reflexivity|].
  refine (lesson_promoted_once [now_ 5 (op_claim "t" l1); now_ 6 (op_claim "t" l1); now_ 7 (op_unclaim l1);
                                now_ 8 (op_claim "t" l1)] (run investigated) l1 _).
  intros x Hx. set_unfold in Hx. by destruct Hx as [->|[->|[->|[->|[]]]]].
Defined.

Lemma one_record_per_incident_witness :
  ∃ r, investigations (current (run (investigated ++ [now_ 9 opened]))) !! "i1" = Some r ∧ NoDup (iv_jace_session_ids r).
Proof.
  assert (Hr : is_Some (investigations (current (run (investigated ++ [now_ 9 opened]))) !! "i1")).
  { eexists. vm_compute. reflexivity. }
  destruct Hr as [r Hr]. exists r. split; [exact Hr|].
  exact (proj1 (proj2 (one_record_per_incident (investigated ++ [now_ 9 opened]))) "i1" r Hr).
Defined.
