(* ===== verification/ProductBriefs.v ===== *)
(** * ProductBriefs: what is understood of one idea, and whether it is ready

    [schema/briefs.ts] and [queries/briefs.ts]: the brief and its items, the
    patch of Jace, the edits of a human, the status label, the links to work and
    the readiness computed from the items.  Reads that a later write acts on are
    an argument, and the ids a save of Jace names are texts, as in
    [Investigations]. *)

From S2P Require Import Prelude Table Regex Uuid JsonValue RecordSchema Investigations.
Open Scope Z_scope.

(** ** Rows *)

Inductive BriefStatus := bs_draft | bs_ready.
Inductive BriefArea := ar_problem | ar_users | ar_constraints | ar_scope | ar_success_signal.
Inductive BriefItemKind := bk_required | bk_optional | bk_unknown | bk_out_of_scope.
Inductive BriefItemState := bi_open | bi_resolved.
Inductive BriefItemResolution := rs_implemented | rs_deferred | rs_rejected | rs_satisfied_elsewhere.
Inductive BriefWorkLinkRole := epic_parent | slice_issue.
#[export] Instance BriefItemKind_eq_dec : EqDecision BriefItemKind.
Proof. solve_decision. Defined.
#[export] Instance BriefItemState_eq_dec : EqDecision BriefItemState.
Proof. solve_decision. Defined.

Record BriefGrounding := mkGrounding {
  gr_wikiPageSlugs : list string;
  gr_memoryItemIds : list string;
  gr_commitSha : option string;
}.
Definition BRIEF_GROUNDING_DEFAULT : BriefGrounding := mkGrounding [] [] None.
Definition BRIEF_STATUS_DEFAULT : BriefStatus := bs_draft.

Record Brief := mkBriefRow {
  bf_workspace_id : string;
  bf_repository_id : option string;
  bf_slug : string;
  bf_title : string;
  bf_status : BriefStatus;
  bf_open_question : string;
  bf_grounding : BriefGrounding;
  bf_jace_session_ids : list string;
  bf_created_at : Z;
  bf_updated_at : Z;
}.
Record BriefItem := mkBriefItem {
  bt_brief_id : string;
  bt_area : BriefArea;
  bt_statement : string;
  bt_evidence : string;
  bt_kind : BriefItemKind;
  bt_state : BriefItemState;
  bt_resolution : option BriefItemResolution;
  bt_authority : Authority;
  bt_created_at : Z;
  bt_updated_at : Z;
}.
Record BriefWorkLink := mkWorkLink {
  bl_brief_id : string;
  bl_brief_item_id : option string;
  bl_repo : string;
  bl_issue_number : Z;
  bl_role : BriefWorkLinkRole;
}.
Record BriefDb := mkBriefDb {
  briefs : gmap string Brief;
  briefItems : gmap string BriefItem;
  briefWorkLinks : list BriefWorkLink;
}.
Definition with_briefs (x : gmap string Brief) (d : BriefDb) : BriefDb := mkBriefDb x (briefItems d) (briefWorkLinks d).
Definition with_brief_items (x : gmap string BriefItem) (d : BriefDb) : BriefDb :=
  mkBriefDb (briefs d) x (briefWorkLinks d).
Definition with_work_links (x : list BriefWorkLink) (d : BriefDb) : BriefDb := mkBriefDb (briefs d) (briefItems d) x.

(** ** The brief *)

Record UpsertBriefInput := mkUpsertBrief {
  ub_workspaceId : string;
  ub_repositoryId : option (option string);
  ub_slug : string;
  ub_title : string;
  ub_status : option BriefStatus;
  ub_openQuestion : option string;
  ub_grounding : option BriefGrounding;
  ub_jaceSessionIds : option (list string);
}.
Definition patched_brief (c : Clock) (i : UpsertBriefInput) (r : Brief) : Brief :=
  mkBriefRow (bf_workspace_id r) (default (bf_repository_id r) (ub_repositoryId i)) (bf_slug r) (ub_title i)
    (default (bf_status r) (ub_status i)) (default (bf_open_question r) (ub_openQuestion i))
    (default (bf_grounding r) (ub_grounding i)) (default (bf_jace_session_ids r) (ub_jaceSessionIds i))
    (bf_created_at r) (js_now c).
Definition new_brief (c : Clock) (i : UpsertBriefInput) : Brief :=
  mkBriefRow (ub_workspaceId i) (default None (ub_repositoryId i)) (ub_slug i) (ub_title i)
    (default BRIEF_STATUS_DEFAULT (ub_status i)) (default "" (ub_openQuestion i))
    (default BRIEF_GROUNDING_DEFAULT (ub_grounding i)) (default [] (ub_jaceSessionIds i)) (db_now c) (db_now c).
Definition brief_at (workspaceId slug : string) (_ : string) (r : Brief) : bool :=
  (bf_workspace_id r ≡? workspaceId) && (bf_slug r ≡? slug).
(** [known] says that the workspace and the repository named exist. *)
Definition upsertBrief (c : Clock) (id : string) (known : bool) (i : UpsertBriefInput) (d : BriefDb)
    : option (string * Brief) * BriefDb :=
  match head (select_where (brief_at (ub_workspaceId i) (ub_slug i)) (briefs d)) with
  | Some (k, r) =>
      if known then let r := patched_brief c i r in (Some (k, r), with_briefs (<[k := r]> (briefs d)) d) else (None, d)
  | None =>
      if known && is_null (briefs d !! id) then
        let r := new_brief c i in (Some (id, r), with_briefs (<[id := r]> (briefs d)) d)
      else (None, d)
  end.

(** ** Reading *)

Definition of_brief (id : string) (_ : string) (r : BriefItem) : bool := bt_brief_id r ≡? id.
Definition fetchItemsForBriefId (id : string) (d : BriefDb) : list (string * BriefItem) :=
  order_by bt_created_at (select_where (of_brief id) (briefItems d)).
Definition brief_with_items (d : BriefDb) (kr : string * Brief) : string * Brief * list (string * BriefItem) :=
  (kr, fetchItemsForBriefId kr.1 d).
Definition getBriefBySlug (workspaceId slug : string) (d : BriefDb)
    : option (string * Brief * list (string * BriefItem)) :=
  brief_with_items d <$> head (select_where (brief_at workspaceId slug) (briefs d)).
Definition getBriefById (workspaceId id : string) (d : BriefDb)
    : option (string * Brief * list (string * BriefItem)) :=
  r ← briefs d !! id; if bf_workspace_id r ≡? workspaceId then Some (brief_with_items d (id, r)) else None.
Definition listBriefs (workspaceId : string) (d : BriefDb) : list (string * Brief) :=
  order_by (λ r, - bf_updated_at r) (select_where (λ _ r, bf_workspace_id r ≡? workspaceId) (briefs d)).

Definition BRIEF_SEARCH_DEFAULT_LIMIT : Z := 5.
Definition BRIEF_SEARCH_MAX_LIMIT : Z := 10.
Section Search.
(** The text search of Postgres: the rank of a document for a query, where it
    matches. *)
Context (ts_rank : string → string → option Z).
Definition brief_document (d : BriefDb) (kr : string * Brief) : string :=
  bf_title kr.2 +:+ " "
  +:+ join_strings " " ((λ ir, bt_statement ir.2) <$> select_where (of_brief kr.1) (briefItems d)).
Definition brief_hits (workspaceId query : string) (d : BriefDb) : list (string * Brief) :=
  let hits := omap (λ kr, (λ rank, (kr.1, (rank, kr.2))) <$> ts_rank (brief_document d kr) query)
                (select_where (λ _ r, bf_workspace_id r ≡? workspaceId) (briefs d)) in
  (λ kr, (kr.1, kr.2.2)) <$> order_by (λ rr : Z * Brief, - rr.1) hits.
Definition searchBriefs (workspaceId query : string) (limit : Z) (d : BriefDb)
    : list (string * Brief * list (string * BriefItem)) :=
  let n := cap_limit BRIEF_SEARCH_MAX_LIMIT limit in
  brief_with_items d <$>
  match trim query with
  | EmptyString => take n (listBriefs workspaceId d)
  | q => match take n (brief_hits workspaceId q d) with [] => take n (listBriefs workspaceId d) | rows => rows end
  end.
End Search.

(** ** The patch of Jace *)

Record PatchBriefItemInput := mkPatchBriefItem {
  pb_id : option string;
  pb_area : BriefArea;
  pb_statement : string;
  pb_evidence : option string;
  pb_kind : BriefItemKind;
  pb_state : option BriefItemState;
  pb_resolution : option (option BriefItemResolution);
}.
Inductive BriefPatchOutcome :=
  | bp_upserted (id : string)
  | bp_skippedHumanAuthority (id : string)
  | bp_skippedUnknownResolved (label : string)
  | bp_no_row (id : string).

Definition unknown_resolved (k : BriefItemKind) (s : BriefItemState) : bool := (k ≡? bk_unknown) && (s ≡? bi_resolved).
Definition patched_brief_item (c : Clock) (i : PatchBriefItemInput) (r : BriefItem) : BriefItem :=
  mkBriefItem (bt_brief_id r) (pb_area i) (pb_statement i) (default (bt_evidence r) (pb_evidence i)) (pb_kind i)
    (default (bt_state r) (pb_state i)) (default (bt_resolution r) (pb_resolution i)) (bt_authority r)
    (bt_created_at r) (js_now c).
Definition new_brief_item (c : Clock) (briefId : string) (area : BriefArea) (statement evidence : string)
    (kind : BriefItemKind) (state : BriefItemState) (resolution : option BriefItemResolution) (a : Authority) : BriefItem :=
  mkBriefItem briefId area statement evidence kind state resolution a (db_now c) (db_now c).
(** [None] is the exception of a violated key. *)
Definition insert_brief_item (id : string) (r : BriefItem) (d : BriefDb) : option BriefDb :=
  if negb (is_null (briefs d !! bt_brief_id r)) && is_null (briefItems d !! id)
  then Some (with_brief_items (<[id := r]> (briefItems d)) d) else None.
(** [idsToCheck] *)
Definition named_brief_ids (items : list (string * PatchBriefItemInput)) : list string :=
  omap (λ ni, truthy_text (pb_id ni.2)) items.
(** The SELECT of the transaction on the database [s], as the Map [existingById]
    of its rows by the text Postgres writes for their id; [None] where a text is
    no uuid and the statement throws. *)
Definition selected_brief_items (s : BriefDb) (briefId : string) (ids : list string)
    : option (gmap string BriefItem) :=
  uuids ← mapM uuid_in ids;
  Some (filter (λ kr, kr.1 ∈ uuids ∧ bt_brief_id kr.2 = briefId) (briefItems s)).
(** [item.id ? existingById.get(item.id) : undefined]: the Map compares texts. *)
Definition existing_brief_item (existingById : gmap string BriefItem) (i : PatchBriefItemInput) : option BriefItem :=
  id ← truthy_text (pb_id i); existingById !! id.

(** One item of the batch, with the id its insert would generate.  The UPDATE
    compares uuids. *)
Definition patch_brief_one (existingById : gmap string BriefItem) (c : Clock) (briefId newId : string)
    (i : PatchBriefItemInput) (d : BriefDb) : option (BriefPatchOutcome * BriefDb) :=
  let existing := existing_brief_item existingById i in
  if from_option (λ r, bt_authority r ≡? by_human) false existing
  then Some (bp_skippedHumanAuthority (default "" (pb_id i)), d)
  else if unknown_resolved (pb_kind i) (default (from_option bt_state bi_open existing) (pb_state i))
  then Some (bp_skippedUnknownResolved (default (pb_statement i) (pb_id i)), d)
  else match truthy_text (pb_id i) with
       | Some id =>
           uuid ← uuid_in id;
           match update_row uuid (λ r, bt_brief_id r ≡? briefId) (patched_brief_item c i) (briefItems d) with
           | (Some _, t) => Some (bp_upserted uuid, with_brief_items t d)
           | (None, _) => Some (bp_no_row id, d)
           end
       | None =>
           d ← insert_brief_item newId
                 (new_brief_item c briefId (pb_area i) (pb_statement i) (default "" (pb_evidence i)) (pb_kind i)
                    (default bi_open (pb_state i)) (default None (pb_resolution i)) by_jace) d;
           Some (bp_upserted newId, d)
       end.
Fixpoint patch_brief_all (existingById : gmap string BriefItem) (c : Clock) (briefId : string)
    (items : list (string * PatchBriefItemInput)) (d : BriefDb) : option (list BriefPatchOutcome * BriefDb) :=
  match items with
  | [] => Some ([], d)
  | (newId, i) :: items =>
      '(o, d) ← patch_brief_one existingById c briefId newId i d;
      '(os, d) ← patch_brief_all existingById c briefId items d;
      Some (o :: os, d)
  end.
Definition patchBriefItems (s : BriefDb) (c : Clock) (briefId : string) (items : list (string * PatchBriefItemInput))
    (d : BriefDb) : option (list BriefPatchOutcome) * BriefDb :=
  match selected_brief_items s briefId (named_brief_ids items) with
  | None => (None, d)
  | Some existingById =>
      match patch_brief_all existingById c briefId items d with Some (os, d) => (Some os, d) | None => (None, d) end
  end.

(** ** The label, the links and the edits of a human *)

Definition set_status (c : Clock) (status : BriefStatus) (r : Brief) : Brief :=
  mkBriefRow (bf_workspace_id r) (bf_repository_id r) (bf_slug r) (bf_title r) status (bf_open_question r)
    (bf_grounding r) (bf_jace_session_ids r) (bf_created_at r) (js_now c).
Definition setBriefStatus (c : Clock) (briefId : string) (status : BriefStatus) (d : BriefDb) : option Brief * BriefDb :=
  let '(row, t) := update_row briefId (λ _, true) (set_status c status) (briefs d) in (row, with_briefs t d).

(** [false] is the exception of a foreign key. *)
Definition linkBriefWork (l : BriefWorkLink) (d : BriefDb) : bool * BriefDb :=
  if negb (is_null (briefs d !! bl_brief_id l))
     && from_option (λ i, negb (is_null (briefItems d !! i))) true (bl_brief_item_id l)
  then (true, with_work_links (briefWorkLinks d ++ [l]) d) else (false, d).

Record UpdateBriefItemAsHumanInput := mkHumanPatch {
  uh_area : option BriefArea;
  uh_statement : option string;
  uh_evidence : option string;
  uh_kind : option BriefItemKind;
  uh_state : option BriefItemState;
  uh_resolution : option (option BriefItemResolution);
}.
Inductive BriefHumanWrite := bh_written (id : string) | bh_no_item | bh_refusedUnknownResolved.
Definition edited_brief_item (c : Clock) (p : UpdateBriefItemAsHumanInput) (r : BriefItem) : BriefItem :=
  mkBriefItem (bt_brief_id r) (default (bt_area r) (uh_area p)) (default (bt_statement r) (uh_statement p))
    (default (bt_evidence r) (uh_evidence p)) (default (bt_kind r) (uh_kind p)) (default (bt_state r) (uh_state p))
    (default (bt_resolution r) (uh_resolution p)) by_human (bt_created_at r) (js_now c).
(** [SELECT ... WHERE id = itemId AND brief_id = briefId] *)
Definition brief_item_row (s : BriefDb) (briefId itemId : string) : option BriefItem :=
  r ← briefItems s !! itemId; if bt_brief_id r ≡? briefId then Some r else None.
Definition updateBriefItemAsHuman (s : BriefDb) (c : Clock) (briefId itemId : string) (p : UpdateBriefItemAsHumanInput)
    (d : BriefDb) : BriefHumanWrite * BriefDb :=
  match brief_item_row s briefId itemId with
  | None => (bh_no_item, d)
  | Some existing =>
      if unknown_resolved (default (bt_kind existing) (uh_kind p)) (default (bt_state existing) (uh_state p))
      then (bh_refusedUnknownResolved, d)
      else match update_row itemId (λ r, bt_brief_id r ≡? briefId) (edited_brief_item c p) (briefItems d) with
           | (Some _, t) => (bh_written itemId, with_brief_items t d)
           | (None, _) => (bh_no_item, d)
           end
  end.

Record CreateBriefItemAsHumanInput := mkHumanItem {
  ch_area : BriefArea;
  ch_statement : string;
  ch_evidence : option string;
  ch_kind : BriefItemKind;
  ch_state : option BriefItemState;
  ch_resolution : option (option BriefItemResolution);
}.
(** [None] is the exception of a violated key. *)
Definition createBriefItemAsHuman (c : Clock) (id briefId : string) (i : CreateBriefItemAsHumanInput) (d : BriefDb)
    : option BriefHumanWrite * BriefDb :=
  let state := default bi_open (ch_state i) in
  if unknown_resolved (ch_kind i) state then (Some bh_refusedUnknownResolved, d)
  else match insert_brief_item id
               (new_brief_item c briefId (ch_area i) (ch_statement i) (default "" (ch_evidence i)) (ch_kind i) state
                  (default None (ch_resolution i)) by_human) d with
       | Some d => (Some (bh_written id), d)
       | None => (None, d)
       end.
(** The key of a link to a deleted item is set to null. *)
Definition forget_item (itemId : string) (l : BriefWorkLink) : BriefWorkLink :=
  if bl_brief_item_id l ≡? Some itemId
  then mkWorkLink (bl_brief_id l) None (bl_repo l) (bl_issue_number l) (bl_role l) else l.
Definition deleteBriefItem (briefId itemId : string) (d : BriefDb) : bool * BriefDb :=
  match brief_item_row d briefId itemId with
  | Some _ => (true, with_work_links (forget_item itemId <$> briefWorkLinks d)
                       (with_brief_items (delete itemId (briefItems d)) d))
  | None => (false, d)
  end.

(** ** Readiness *)

Definition blocks (briefId : string) (k : string) (r : BriefItem) : bool :=
  of_brief briefId k r && (bt_state r ≡? bi_open) && (bt_kind r ≡? bk_unknown).
Record BriefReadiness := mkReadiness { rd_ready : bool; rd_blockingItems : list (string * BriefItem) }.
Definition computeBriefReadiness (briefId : string) (d : BriefDb) : BriefReadiness :=
  let blockingItems := select_where (blocks briefId) (briefItems d) in
  mkReadiness (match blockingItems with [] => true | _ => false end) blockingItems.

(** ** Histories *)

Inductive brief_write :=
  | bw_upsert (id : string) (known : bool) (i : UpsertBriefInput)
  | bw_patch (briefId : string) (items : list (string * PatchBriefItemInput))
  | bw_status (briefId : string) (status : BriefStatus)
  | bw_link (l : BriefWorkLink)
  | bw_edit (briefId itemId : string) (p : UpdateBriefItemAsHumanInput)
  | bw_create (id briefId : string) (i : CreateBriefItemAsHumanInput)
  | bw_delete (briefId itemId : string).
Definition exec_brief (s : BriefDb) (c : Clock) (o : brief_write) (d : BriefDb) : BriefDb :=
  match o with
  | bw_upsert id known i => (upsertBrief c id known i d).2
  | bw_patch briefId items => (patchBriefItems s c briefId items d).2
  | bw_status briefId status => (setBriefStatus c briefId status d).2
  | bw_link l => (linkBriefWork l d).2
  | bw_edit briefId itemId p => (updateBriefItemAsHuman s c briefId itemId p d).2
  | bw_create id briefId i => (createBriefItemAsHuman c id briefId i d).2
  | bw_delete briefId itemId => (deleteBriefItem briefId itemId d).2
  end.
(** Handlers that nothing interleaves with: each reads what it writes to. *)
Definition exec_briefs (l : list (Clock * brief_write)) (d : BriefDb) : BriefDb :=
  fold_left (λ d x, exec_brief d x.1 x.2 d) l d.
Definition no_briefs : BriefDb := mkBriefDb ∅ ∅ [].
