(* ===== verification/ProductBriefFacts.v ===== *)
(** * ProductBriefFacts: what readiness of a brief rests on

    An unknown is never resolved, a human's item is locked against Jace, a save
    keeps what it does not mention, and a brief is ready exactly when every item
    is answered, whatever its label says. *)

From S2P Require Import Prelude Table Regex Uuid JsonValue RecordSchema Investigations ProductBriefs.
Open Scope Z_scope.

(** ** What one line of a batch does to a row *)

(** The UPDATE of the line is on the row of [k]. *)
Definition names_item (k : string) (i : PatchBriefItemInput) : Prop := truthy_text (pb_id i) ≫= uuid_in = Some k.
Definition settled (r : BriefItem) : Prop := unknown_resolved (bt_kind r) (bt_state r) = false.
(** What the guards of a line let through, on the row the SELECT saw. *)
Definition line_passes (existing : option BriefItem) (i : PatchBriefItemInput) : Prop :=
  from_option (λ r, bt_authority r ≡? by_human) false existing = false
  ∧ unknown_resolved (pb_kind i) (default (from_option bt_state bi_open existing) (pb_state i)) = false.

Inductive line_change (byId : gmap string BriefItem) (c : Clock) (briefId newId : string) (i : PatchBriefItemInput) (k : string)
    : option BriefItem → option BriefItem → Prop :=
  | lc_same x : line_change byId c briefId newId i k x x
  | lc_new r : k = newId → truthy_text (pb_id i) = None → bt_brief_id r = briefId → bt_authority r = by_jace → settled r →
      line_change byId c briefId newId i k None (Some r)
  | lc_row r : names_item k i → bt_brief_id r = briefId → line_passes (existing_brief_item byId i) i →
      line_change byId c briefId newId i k (Some r) (Some (patched_brief_item c i r)).
#[export] Hint Constructors line_change : core.

Lemma with_brief_items_id d : with_brief_items (briefItems d) d = d.
Proof. by destruct d. Qed.
Lemma insert_brief_item_spec id r d d' : insert_brief_item id r d = Some d' →
  briefItems d !! id = None ∧ d' = with_brief_items (<[id := r]> (briefItems d)) d.
Proof.
  unfold insert_brief_item. destruct (_ && _) eqn:E; [|done]. intros [= <-].
  apply andb_true_iff in E as [_ E]. by destruct (briefItems d !! id).
Qed.

Lemma patch_brief_one_spec byId c briefId newId i d o d' : patch_brief_one byId c briefId newId i d = Some (o, d') →
  d' = with_brief_items (briefItems d') d
  ∧ ∀ k, line_change byId c briefId newId i k (briefItems d !! k) (briefItems d' !! k).
Proof.
  unfold patch_brief_one.
  destruct (from_option _ false _) eqn:Hh; [intros [= <- <-]; rewrite with_brief_items_id; eauto|].
  destruct (unknown_resolved _ _) eqn:Hu; [intros [= <- <-]; rewrite with_brief_items_id; eauto|].
  destruct (truthy_text (pb_id i)) as [id|] eqn:Hid.
  - destruct (uuid_in id) as [u|] eqn:Hu'; [|done]. cbn [mbind option_bind].
    destruct (update_rowP (λ r, bt_brief_id r ≡? briefId) (patched_brief_item c i) u (briefItems d)) as [r Hk Hp|Hp];
      intros [= <- <-]; [|rewrite with_brief_items_id; eauto]. split; [done|]. intros k. cbn.
    destruct (decide (k = u)) as [->|Hne]; [|rewrite lookup_insert_ne by done; eauto].
    rewrite lookup_insert_eq, Hk. apply lc_row; [|by apply bool_decide_eq_true in Hp|by split].
    unfold names_item. by rewrite Hid.
  - assert (He : existing_brief_item byId i = None) by (unfold existing_brief_item; by rewrite Hid).
    rewrite He in Hu. destruct (insert_brief_item _ _ d) as [d1|] eqn:Hi; [|done]. cbn. intros [= <- <-].
    apply insert_brief_item_spec in Hi as [Hn ->]. split; [done|]. intros k. cbn.
    destruct (decide (k = newId)) as [->|Hne]; [|rewrite lookup_insert_ne by done; eauto].
    rewrite lookup_insert_eq, Hn. by apply lc_new.
Qed.

(** A relation of rows that every line respects, a batch respects. *)
Lemma patch_brief_all_ind (R : option BriefItem → option BriefItem → Prop) byId c briefId k items d os d' :
  (∀ x, R x x) → (∀ x y z, R x y → R y z → R x z) →
  (∀ newId i x y, (newId, i) ∈ items → line_change byId c briefId newId i k x y → R x y) →
  patch_brief_all byId c briefId items d = Some (os, d') →
  d' = with_brief_items (briefItems d') d ∧ R (briefItems d !! k) (briefItems d' !! k).
Proof.
  intros Hrefl Htrans. revert d os. induction items as [|[newId i] items IH]; intros d os Hl; cbn [patch_brief_all].
  { intros [= <- <-]. by rewrite with_brief_items_id. }
  destruct (patch_brief_one byId c briefId newId i d) as [[o d1]|] eqn:H1; [|done]. cbn [mbind option_bind].
  destruct (patch_brief_all byId c briefId items d1) as [[os' d2]|] eqn:H2; [|done]. cbn [mbind option_bind].
  intros [= <- <-]. apply patch_brief_one_spec in H1 as [E1 C1].
  destruct (IH d1 os') as [E2 C2]; [intros newId' i' x y Hin; apply Hl; by apply list_elem_of_further|done|].
  split; [rewrite E2; rewrite E1; by destruct d|]. eapply Htrans; [|exact C2]. eapply Hl; [apply list_elem_of_here|apply C1].
Qed.

(** A save commits what its lines did, or changes nothing. *)
Lemma brief_save_cases s c briefId items d :
  (patchBriefItems s c briefId items d).2 = d
  ∨ ∃ byId os, selected_brief_items s briefId (named_brief_ids items) = Some byId
      ∧ patch_brief_all byId c briefId items d = Some (os, (patchBriefItems s c briefId items d).2).
Proof.
  unfold patchBriefItems. destruct (selected_brief_items _ _ _) as [byId|]; [|by left].
  destruct (patch_brief_all byId c briefId items d) as [[os d']|] eqn:H; [|by left]. right. by exists byId, os.
Qed.

(** A batch that names each item by the text Postgres writes for its id: the Map
    then has the row the UPDATE is on. *)
Definition names_canonically (o : brief_write) : Prop :=
  match o with bw_patch _ items => Forall (λ id, canonical_uuid id = true) (named_brief_ids items) | _ => True end.

Lemma canonical_named id k : canonical_uuid id = true → uuid_in id = Some k → id = k.
Proof. unfold canonical_uuid. intros H%bool_decide_eq_true. congruence. Qed.
Lemma selected_reads_brief s briefId items byId newId i k r : (newId, i) ∈ items →
  selected_brief_items s briefId (named_brief_ids items) = Some byId →
  names_canonically (bw_patch briefId items) → names_item k i →
  briefItems s !! k = Some r → bt_brief_id r = briefId → existing_brief_item byId i = Some r.
Proof.
  unfold selected_brief_items, names_item, existing_brief_item. intros Hin Hsel Hcan Hn Hr Hb. cbn in Hcan.
  destruct (truthy_text (pb_id i)) as [id|] eqn:Hid; [|done]. cbn [mbind option_bind] in Hn |- *.
  assert (Hid' : id ∈ named_brief_ids items) by (apply list_elem_of_omap; by exists (newId, i)).
  rewrite Forall_forall in Hcan. assert (id = k) as -> by (eapply canonical_named; [by apply Hcan|done]).
  destruct (mapM uuid_in _) as [us|] eqn:E; [|done]. injection Hsel as <-.
  apply map_lookup_filter_Some. split; [done|]. split; [|done]. apply mapM_Some_1 in E.
  apply list_elem_of_lookup in Hid' as [n Hn'].
  destruct (Forall2_lookup_l _ _ _ _ _ E Hn') as (u & Hu & Hku). assert (u = k) as -> by congruence.
  by eapply list_elem_of_lookup_2.
Qed.

(** ** A save is a delta *)

Definition keeps_mentioned (k : string) (briefId : string) (items : list (string * PatchBriefItemInput))
    (x y : option BriefItem) : Prop :=
  ∀ r, x = Some r → ∃ r', y = Some r'
    ∧ bt_brief_id r' = bt_brief_id r ∧ bt_authority r' = bt_authority r ∧ bt_created_at r' = bt_created_at r
    ∧ ((∀ ni, ni ∈ items → names_item k ni.2 → pb_evidence ni.2 = None) → bt_evidence r' = bt_evidence r)
    ∧ ((∀ ni, ni ∈ items → names_item k ni.2 → pb_state ni.2 = None) → bt_state r' = bt_state r)
    ∧ ((∀ ni, ni ∈ items → names_item k ni.2 → pb_resolution ni.2 = None) → bt_resolution r' = bt_resolution r)
    ∧ ((bt_brief_id r ≠ briefId ∨ ∀ ni, ni ∈ items → ¬ names_item k ni.2) → r' = r).

Lemma keeps_trans k b items x y z : keeps_mentioned k b items x y → keeps_mentioned k b items y z → keeps_mentioned k b items x z.
Proof.
  intros H1 H2 r Hr. destruct (H1 r Hr) as (r1 & Hr1 & A1 & A2 & A3 & A4 & A5 & A6 & A7).
  destruct (H2 r1 Hr1) as (r2 & Hr2 & B1 & B2 & B3 & B4 & B5 & B6 & B7). exists r2.
  split_and!; [done|congruence..| | | |]; intros H.
  - by rewrite B4, A4.
  - by rewrite B5, A5.
  - by rewrite B6, A6.
  - rewrite B7, A7; [done|done|]. by rewrite A1.
Qed.

(** A save of Jace is a delta.  Whatever a batch holds, every
    item there was remains, under its brief, its author and its date; the
    evidence, state and resolution of an item change only if a line that names it
    gives them; an item that no line names, or that belongs to another brief, is
    untouched; and nothing but the items changes. *)
Theorem patch_is_delta s c briefId items d :
  let d' := (patchBriefItems s c briefId items d).2 in
  briefs d' = briefs d ∧ briefWorkLinks d' = briefWorkLinks d
  ∧ ∀ k, keeps_mentioned k briefId items (briefItems d !! k) (briefItems d' !! k).
Proof.
  cbn zeta.
  assert (Hrefl : ∀ k x, keeps_mentioned k briefId items x x) by (intros k x r ->; exists r; by split_and!).
  destruct (brief_save_cases s c briefId items d) as [->|(byId & os & _ & H)]; [by split_and!|].
  set (d' := (patchBriefItems s c briefId items d).2) in *.
  assert (Hk : ∀ k, d' = with_brief_items (briefItems d') d
                  ∧ keeps_mentioned k briefId items (briefItems d !! k) (briefItems d' !! k)).
  { intros k. eapply patch_brief_all_ind; [apply Hrefl|apply keeps_trans| |exact H].
    intros newId i x y Hin [z|r|r Hn Hb Hp]; [apply Hrefl|done|]. intros r0 [= <-].
    exists (patched_brief_item c i r). split_and!; try done; cbn; intros Hl.
    - by rewrite (Hl (newId, i) Hin Hn : pb_evidence i = None).
    - by rewrite (Hl (newId, i) Hin Hn : pb_state i = None).
    - by rewrite (Hl (newId, i) Hin Hn : pb_resolution i = None).
    - destruct Hl as [Hl|Hl]; [done|]. by destruct (Hl (newId, i) Hin). }
  split_and!; [by rewrite (proj1 (Hk ""))..|]. intros k. apply Hk.
Qed.

(** ** A human's item is locked *)

Definition brief_touches (k : string) (o : brief_write) : Prop :=
  match o with bw_edit _ id _ | bw_delete _ id => id = k | _ => False end.

Lemma locked_patch s byId c briefId items d os d' k r :
  selected_brief_items s briefId (named_brief_ids items) = Some byId → names_canonically (bw_patch briefId items) →
  patch_brief_all byId c briefId items d = Some (os, d') →
  briefItems s !! k = Some r → bt_authority r = by_human → briefItems d !! k = Some r → briefItems d' !! k = Some r.
Proof.
  intros Hsel Hcan H Hs Ha. eapply (patch_brief_all_ind (λ x y, x = Some r → y = Some r)) in H as [_ H];
    [exact H|done|by auto|].
  intros newId i x y Hin [z|r0|r0 Hn Hb [Hh _]]; [done|done|]. intros [= ->]. exfalso.
  rewrite (selected_reads_brief s briefId items byId newId i k r) in Hh by done. cbn in Hh.
  by rewrite bool_decide_eq_true_2 in Hh.
Qed.

Lemma insert_brief_keeps id r0 d d' k r : insert_brief_item id r0 d = Some d' → briefItems d !! k = Some r →
  briefItems d' !! k = Some r.
Proof. intros (Hn & ->)%insert_brief_item_spec Hk. cbn. rewrite lookup_insert_ne; [done|congruence]. Qed.

Lemma exec_locked c o d k r : names_canonically o → briefItems d !! k = Some r → bt_authority r = by_human → ¬ brief_touches k o →
  briefItems (exec_brief d c o d) !! k = Some r.
Proof.
  intros Hcan Hk Ha Ht. destruct o as [id known i|briefId items|briefId st|l|briefId id p|id briefId i|briefId id]; cbn [exec_brief].
  - unfold upsertBrief. destruct (head _) as [[]|]; repeat case_match; done.
  - destruct (brief_save_cases d c briefId items d) as [->|(byId & os & Hsel & H)]; [done|].
    by eapply locked_patch.
  - unfold setBriefStatus. by destruct (update_row _ _ _ _).
  - unfold linkBriefWork. by case_match.
  - unfold updateBriefItemAsHuman. destruct (brief_item_row _ _ _); [|done]. case_match; [done|].
    pose proof (update_row_other (λ r, bt_brief_id r ≡? briefId) (edited_brief_item c p) id k (briefItems d) Ht) as Ho.
    destruct (update_row _ _ _ _) as [[]]; [|done]. cbn in *. congruence.
  - unfold createBriefItemAsHuman. case_match; [done|]. destruct (insert_brief_item _ _ _) eqn:H'; [|done].
    by eapply insert_brief_keeps.
  - unfold deleteBriefItem. destruct (brief_item_row _ _ _); [|done]. cbn in *. by rewrite lookup_delete_ne.
Qed.

Lemma exec_briefs_snoc l x d : exec_briefs (l ++ [x]) d = exec_brief (exec_briefs l d) x.1 x.2 (exec_briefs l d).
Proof. unfold exec_briefs. by rewrite fold_left_app. Qed.

(** C19 (safety).  Human edits win.  Over any sequence of handlers that nothing
    interleaves with and whose saves name each item by the text Postgres writes
    for its id, an item a human wrote stays that very row, to the byte, until a
    human edits or deletes it: no save of Jace, label or link moves it.  Both
    conditions are needed: [human_edit_overwritten] and
    [uppercase_id_overwrites_human] break the claim without them. *)
Theorem human_items_locked l d k r : briefItems d !! k = Some r → bt_authority r = by_human →
  (∀ x, x ∈ l → names_canonically x.2 ∧ ¬ brief_touches k x.2) → briefItems (exec_briefs l d) !! k = Some r.
Proof.
  intros Hk Ha. induction l as [|x l IH] using rev_ind; intros Hl; [done|]. rewrite exec_briefs_snoc.
  destruct (Hl x) as [Hc Ht]; [set_solver|]. apply exec_locked; [done| |done|done].
  apply IH. intros y Hy. apply Hl. set_solver.
Qed.

(** ** An unknown is never resolved *)

Definition all_settled (t : gmap string BriefItem) : Prop := map_Forall (λ _, settled) t.
Definition brief_line_id (ni : string * PatchBriefItemInput) : string := default ni.1 (truthy_text (pb_id ni.2)).
(** A batch that names no item twice, and each by the text Postgres writes. *)
Definition names_once (o : brief_write) : Prop :=
  match o with bw_patch _ items => NoDup (brief_line_id <$> items) | _ => True end.
Definition plain_save (o : brief_write) : Prop := names_once o ∧ names_canonically o.

(** Where the Map has the row as it is, the guard is about what is written. *)
Lemma line_settles byId c briefId newId i k x y : line_change byId c briefId newId i k x y →
  (∀ r, x = Some r → names_item k i → bt_brief_id r = briefId → existing_brief_item byId i = Some r) →
  from_option settled True x → from_option settled True y.
Proof.
  intros [z|r|r Hn Hb [_ Hp]] Hx Hs; [done|done|]. rewrite (Hx r) in Hp by done. exact Hp.
Qed.
Lemma line_elsewhere byId c briefId newId i k x y : line_change byId c briefId newId i k x y →
  (∀ id, truthy_text (pb_id i) = Some id → canonical_uuid id = true) → k ≠ brief_line_id (newId, i) → y = x.
Proof.
  unfold brief_line_id. cbn. intros [z|r -> E|r E] Hc Hne; [done|by rewrite E in Hne|].
  unfold names_item in E. destruct (truthy_text (pb_id i)) as [id|]; [|done]. cbn [mbind option_bind] in E.
  by rewrite (canonical_named id k (Hc id eq_refl) E) in Hne.
Qed.

Lemma patch_settles s byId c briefId all k : ∀ items d os d', NoDup (brief_line_id <$> items) → items ⊆ all →
  selected_brief_items s briefId (named_brief_ids all) = Some byId → names_canonically (bw_patch briefId all) →
  patch_brief_all byId c briefId items d = Some (os, d') →
  (k ∈ brief_line_id <$> items → briefItems d !! k = briefItems s !! k) →
  from_option settled True (briefItems d !! k) → from_option settled True (briefItems d' !! k).
Proof.
  intros items. induction items as [|[newId i] items IH]; intros d os d' Hnd Hall Hsel Hcan; cbn [patch_brief_all];
    [by intros [= <- <-]|].
  destruct (patch_brief_one byId c briefId newId i d) as [[o d1]|] eqn:H1; [|done]. cbn [mbind option_bind].
  destruct (patch_brief_all byId c briefId items d1) as [[os' d2]|] eqn:H2; [|done]. cbn [mbind option_bind].
  intros [= <- <-] Hsame Hd. rewrite fmap_cons, NoDup_cons in Hnd. destruct Hnd as [Hni Hnd].
  assert (Hin : (newId, i) ∈ all) by (apply Hall, list_elem_of_here).
  apply patch_brief_one_spec in H1 as [_ C1]. specialize (C1 k).
  assert (Hci : ∀ id, truthy_text (pb_id i) = Some id → canonical_uuid id = true).
  { intros id Hid. cbn in Hcan. rewrite Forall_forall in Hcan. apply Hcan, list_elem_of_omap. by exists (newId, i). }
  eapply IH; [done|set_solver|done|done|exact H2| |].
  - intros Hk. rewrite (line_elsewhere _ _ _ _ _ _ _ _ C1 Hci) by (intros ->; done). apply Hsame. rewrite fmap_cons. set_solver.
  - destruct (decide (k = brief_line_id (newId, i))) as [->|Hne]; [|by rewrite (line_elsewhere _ _ _ _ _ _ _ _ C1 Hci)].
    eapply line_settles; [exact C1| |done]. intros r Hr Hn Hb. eapply selected_reads_brief; [done..| |done].
    rewrite <- Hsame; [done|]. rewrite fmap_cons. set_solver.
Qed.

Lemma settled_insert t k r : all_settled t → settled r → all_settled (<[k := r]> t).
Proof. intros Ht Hr. by apply map_Forall_insert_2. Qed.

Lemma exec_settled c o d : plain_save o → all_settled (briefItems d) → all_settled (briefItems (exec_brief d c o d)).
Proof.
  intros [Ho Hcan] Hd. destruct o as [id known i|briefId items|briefId st|l|briefId id p|id briefId i|briefId id]; cbn [exec_brief].
  - unfold upsertBrief. destruct (head _) as [[]|]; repeat case_match; done.
  - destruct (brief_save_cases d c briefId items d) as [->|(byId & os & Hsel & H)]; [done|]. intros k r Hk. cbn in Hk.
    pose proof (patch_settles d byId c briefId items k items d os _ Ho (reflexivity _) Hsel Hcan H (λ _, eq_refl)) as Hs.
    rewrite Hk in Hs. apply Hs.
    destruct (briefItems d !! k) as [r0|] eqn:E; [|done]. by apply (Hd k).
  - unfold setBriefStatus. by destruct (update_row _ _ _ _).
  - unfold linkBriefWork. by case_match.
  - unfold updateBriefItemAsHuman. destruct (brief_item_row d briefId id) as [r|] eqn:He; [|done].
    destruct (unknown_resolved _ _) eqn:Hu; [done|]. unfold brief_item_row in He.
    destruct (update_rowP (λ r, bt_brief_id r ≡? briefId) (edited_brief_item c p) id (briefItems d)) as [r0 Hk Hp|]; [|done].
    rewrite Hk in He. cbn in He. rewrite Hp in He. injection He as ->. by apply settled_insert.
  - unfold createBriefItemAsHuman. destruct (unknown_resolved _ _) eqn:Hu; [done|].
    destruct (insert_brief_item _ _ _) eqn:H'; [|done]. apply insert_brief_item_spec in H' as [_ ->]. by apply settled_insert.
  - unfold deleteBriefItem. destruct (brief_item_row _ _ _); [|done]. by apply map_Forall_delete.
Qed.

Lemma history_settled l : (∀ x, x ∈ l → plain_save x.2) → all_settled (briefItems (exec_briefs l no_briefs)).
Proof.
  induction l as [|x l IH] using rev_ind; intros Hl; [apply map_Forall_empty|]. rewrite exec_briefs_snoc.
  apply exec_settled; [apply Hl; set_solver|]. apply IH. intros y Hy. apply Hl. set_solver.
Qed.

Lemma unknown_opens l : (∀ x, x ∈ l → plain_save x.2) →
  ∀ k r, briefItems (exec_briefs l no_briefs) !! k = Some r → bt_kind r = bk_unknown → bt_state r = bi_open.
Proof.
  intros Hl k r Hk Hu. pose proof (history_settled l Hl k r Hk) as Hs. cbn in Hs. unfold settled, unknown_resolved in Hs.
  rewrite Hu in Hs. by destruct (bt_state r).
Qed.

(** An unknown is never resolved.  Over any sequence of handlers
    that nothing interleaves with and whose batches name no item twice, and each
    by the text Postgres writes for its id, whoever writes - Jace or a human, in whatever pieces - no item stands resolved while
    it is still an unknown. *)
Theorem unknown_never_resolved l : (∀ x, x ∈ l → plain_save x.2) →
  ∀ k r, briefItems (exec_briefs l no_briefs) !! k = Some r → ¬ (bt_kind r = bk_unknown ∧ bt_state r = bi_resolved).
Proof. intros Hl k r Hk [Hu Hs]. rewrite (unknown_opens l Hl k r Hk Hu) in Hs. discriminate. Qed.

(** ** Readiness *)

Definition ready (briefId : string) (d : BriefDb) : Prop := rd_ready (computeBriefReadiness briefId d) = true.
Definition unanswered (briefId : string) (r : BriefItem) : Prop :=
  bt_brief_id r = briefId ∧ bt_kind r = bk_unknown ∧ bt_state r = bi_open.

Lemma blocksP briefId k r : blocks briefId k r = true ↔ unanswered briefId r.
Proof. unfold blocks, of_brief, unanswered. rewrite !andb_true_iff, !bool_decide_eq_true. tauto. Qed.
Lemma blocking_items briefId d k r : (k, r) ∈ rd_blockingItems (computeBriefReadiness briefId d) ↔
  briefItems d !! k = Some r ∧ unanswered briefId r.
Proof. cbn. by rewrite elem_of_select_where, blocksP. Qed.
Lemma ready_iff briefId d : ready briefId d ↔ ∀ k r, briefItems d !! k = Some r → ¬ unanswered briefId r.
Proof.
  unfold ready. transitivity (rd_blockingItems (computeBriefReadiness briefId d) = []); [cbn; by destruct (select_where _ _)|].
  split.
  - intros Hn k r Hk Hu. assert (Hin : (k, r) ∈ rd_blockingItems (computeBriefReadiness briefId d)) by (by apply blocking_items).
    rewrite Hn in Hin. by apply not_elem_of_nil in Hin.
  - intros H. destruct (rd_blockingItems _) as [|[k r] l] eqn:E; [done|].
    assert (Hin : (k, r) ∈ rd_blockingItems (computeBriefReadiness briefId d)) by (rewrite E; apply list_elem_of_here).
    apply blocking_items in Hin as [Hk Hu]. by destruct (H k r).
Qed.

(** C18 (functional).  Ready means answered.  After any sequence of handlers from
    the empty tables that nothing interleaves with, and whose saves name no item
    twice and each by the text Postgres writes for its id, a brief is ready exactly
    when none of its items is still an unknown; and what the check reports is
    exactly the items that are.  [repeated_line_resolves_unknown] and
    [uppercase_id_resolves_unknown] break the claim where a save names an item
    otherwise. *)
Theorem ready_when_answered l briefId : (∀ x, x ∈ l → plain_save x.2) →
  let d := exec_briefs l no_briefs in
  (ready briefId d ↔ ∀ k r, briefItems d !! k = Some r → bt_brief_id r = briefId → bt_kind r ≠ bk_unknown)
  ∧ ∀ k r, (k, r) ∈ rd_blockingItems (computeBriefReadiness briefId d)
      ↔ briefItems d !! k = Some r ∧ bt_brief_id r = briefId ∧ bt_kind r = bk_unknown.
Proof.
  intros Hl d. pose proof (unknown_opens l Hl) as Hopen. split.
  - rewrite ready_iff. unfold unanswered. split; intros H k r Hk; [|naive_solver].
    intros Hb Hu. apply (H k r Hk). split_and!; [done|done|]. by eapply Hopen.
  - intros k r. rewrite blocking_items. unfold unanswered. naive_solver.
Qed.

(** The item writes of one brief. *)
Definition writes_items (briefId : string) (o : brief_write) : Prop :=
  match o with bw_patch b _ | bw_edit b _ _ | bw_create _ b _ | bw_delete b _ => b = briefId | _ => False end.
Definition same_rows (briefId : string) (x y : option BriefItem) : Prop :=
  ∀ r, bt_brief_id r = briefId → x = Some r ↔ y = Some r.

Lemma exec_elsewhere s c o d briefId k : ¬ writes_items briefId o →
  same_rows briefId (briefItems d !! k) (briefItems (exec_brief s c o d) !! k).
Proof.
  intros Ho. destruct o as [id known i|b items|b st|l|b id p|id b i|b id]; cbn [exec_brief writes_items] in *.
  - unfold upsertBrief. destruct (head _) as [[]|]; repeat case_match; done.
  - destruct (brief_save_cases s c b items d) as [->|(byId & os & _ & H)]; [done|].
    eapply patch_brief_all_ind in H as [_ H]; [exact H|done|intros x y z H1 H2 r Hr; by transitivity (y = Some r); [apply H1|apply H2]|].
    intros newId i x y _ [z|r _ _ Hb _ _|r _ Hb _] r0 Hr0; [done|..]; (split; [intros [= ->]|intros [= <-]]); cbn in *; congruence.
  - unfold setBriefStatus. by destruct (update_row _ _ _ _).
  - unfold linkBriefWork. by case_match.
  - unfold updateBriefItemAsHuman. destruct (brief_item_row _ _ _); [|done]. case_match; [done|].
    destruct (update_rowP (λ r, bt_brief_id r ≡? b) (edited_brief_item c p) id (briefItems d)) as [r Hk Hp|]; [|done].
    apply bool_decide_eq_true in Hp. cbn. intros r0 Hr0. destruct (decide (k = id)) as [->|Hne]; [|by rewrite lookup_insert_ne].
    rewrite lookup_insert_eq, Hk. split; [intros [= ->]|intros [= <-]]; cbn in *; congruence.
  - unfold createBriefItemAsHuman. case_match; [done|]. destruct (insert_brief_item _ _ _) eqn:H'; [|done].
    apply insert_brief_item_spec in H' as [Hn ->]. cbn. intros r0 Hr0.
    destruct (decide (k = id)) as [->|Hne]; [|by rewrite lookup_insert_ne].
    rewrite lookup_insert_eq, Hn. split; [done|intros [= <-]]; cbn in *; congruence.
  - unfold deleteBriefItem. destruct (brief_item_row d b id) as [r|] eqn:He; [|done]. cbn. intros r0 Hr0.
    destruct (decide (k = id)) as [->|Hne]; [|by rewrite lookup_delete_ne]. rewrite lookup_delete_eq.
    unfold brief_item_row in He. split; [|done]. intros Hk. rewrite Hk in He. cbn in He.
    case_bool_decide; [congruence|done].
Qed.

(** A label never readies a brief.  The status label, the upsert of
    the brief (whatever status it carries), a link to work and the item writes of
    other briefs, on reads however old, leave the readiness of a brief and the
    items that block it as they are. *)
Theorem label_never_readies s c o d briefId : ¬ writes_items briefId o →
  let d' := exec_brief s c o d in
  (ready briefId d' ↔ ready briefId d)
  ∧ ∀ k r, (k, r) ∈ rd_blockingItems (computeBriefReadiness briefId d')
      ↔ (k, r) ∈ rd_blockingItems (computeBriefReadiness briefId d).
Proof.
  intros Ho d'. assert (Hsame : ∀ k r, unanswered briefId r → briefItems d' !! k = Some r ↔ briefItems d !! k = Some r).
  { intros k r [Hb _]. symmetry. exact (exec_elsewhere s c o d briefId k Ho r Hb). }
  split.
  - rewrite !ready_iff. split; intros H k r Hk Hu; apply (H k r); [by apply Hsame|done|by apply Hsame|done].
  - intros k r. rewrite !blocking_items. split; intros [Hk Hu]; (split; [by apply Hsame|done]).
Qed.

Lemma exec_row c o d k r : briefItems d !! k = Some r →
  (∃ r', briefItems (exec_brief d c o d) !! k = Some r' ∧ bt_brief_id r' = bt_brief_id r)
  ∨ briefItems (exec_brief d c o d) !! k = None ∧ o = bw_delete (bt_brief_id r) k.
Proof.
  intros Hk. destruct o as [id known i|b items|b st|l|b id p|id b i|b id]; cbn [exec_brief].
  - left. exists r. split; [|done]. unfold upsertBrief. destruct (head _) as [[]|]; repeat case_match; done.
  - left. destruct (patch_is_delta d c b items d) as (_ & _ & H). destruct (H k r Hk) as (r' & ? & ? & _). eauto.
  - left. exists r. split; [|done]. unfold setBriefStatus. by destruct (update_row _ _ _ _).
  - left. exists r. split; [|done]. unfold linkBriefWork. by case_match.
  - left. unfold updateBriefItemAsHuman. destruct (brief_item_row _ _ _); [|eauto]. case_match; [eauto|].
    destruct (update_rowP (λ r, bt_brief_id r ≡? b) (edited_brief_item c p) id (briefItems d)) as [r0 H0 _|]; [|eauto].
    cbn. destruct (decide (k = id)) as [->|Hne]; [|rewrite lookup_insert_ne by done; eauto].
    rewrite lookup_insert_eq. assert (r0 = r) as -> by congruence. by eexists.
  - left. exists r. split; [|done]. unfold createBriefItemAsHuman. case_match; [done|].
    destruct (insert_brief_item _ _ _) eqn:H'; [|done]. by eapply insert_brief_keeps.
  - unfold deleteBriefItem. destruct (brief_item_row d b id) as [r0|] eqn:He; [|eauto]. cbn.
    destruct (decide (k = id)) as [->|Hne]; [|rewrite lookup_delete_ne by done; eauto]. right.
    rewrite lookup_delete_eq. split; [done|]. unfold brief_item_row in He. rewrite Hk in He. cbn in He.
    by case_bool_decide; subst.
Qed.

(** An unknown leaves by being answered.  When a step makes an item
    that blocks its brief block no more, either that very item was deleted, or it
    is still there, under the same brief, and no longer an unknown. *)
Theorem unknown_leaves_answered l x briefId k r : (∀ y, y ∈ l ++ [x] → plain_save y.2) →
  briefItems (exec_briefs l no_briefs) !! k = Some r → unanswered briefId r →
  let d' := exec_briefs (l ++ [x]) no_briefs in
  match briefItems d' !! k with
  | Some r' => bt_brief_id r' = briefId ∧ (unanswered briefId r' ∨ bt_kind r' ≠ bk_unknown)
  | None => x.2 = bw_delete briefId k
  end.
Proof.
  intros Hl Hk Hu d'. assert (Hopen : ∀ r', briefItems d' !! k = Some r' → bt_kind r' = bk_unknown → bt_state r' = bi_open).
  { intros r'. by apply unknown_opens. }
  assert (Hb : bt_brief_id r = briefId) by apply Hu. subst d'. revert Hopen. rewrite exec_briefs_snoc. intros Hopen.
  destruct (exec_row x.1 x.2 _ k r Hk) as [(r' & Hr' & Hb')|[Hr' Ho]]; rewrite Hr'; [|by rewrite Ho, Hb].
  split; [congruence|]. destruct (decide (bt_kind r' = bk_unknown)) as [Hk'|]; [left|by right].
  split_and!; [congruence|done|]. by apply Hopen.
Qed.

(** ** A sample brief *)

Module SampleBrief.
(** The ids of two items. *)
Definition t1 : string := "22222222-2222-4222-8222-2222222222a1".
Definition t2 : string := "22222222-2222-4222-8222-2222222222a2".
Definition T1 : string := "22222222-2222-4222-8222-2222222222A1".
Definition at_ (n : Z) : Clock := mkClock n n.
Definition line (id : option string) (kind : BriefItemKind) (state : option BriefItemState) : PatchBriefItemInput :=
  mkPatchBriefItem id ar_scope "Who may publish?" None kind state None.
Definition answer : UpdateBriefItemAsHumanInput :=
  mkHumanPatch None (Some "One approver") None (Some bk_required) (Some bi_resolved) (Some (Some rs_implemented)).
Definition started : list (Clock * brief_write) :=
  [(at_ 1, bw_upsert "b1" true (mkUpsertBrief "ws" None "blog" "The blog" None None None None));
   (at_ 2, bw_patch "b1" [(t1, line None bk_unknown None); (t2, line None bk_required None)])].
Definition answered : list (Clock * brief_write) := started ++ [(at_ 3, bw_edit "b1" t1 answer)].
Definition row (l : list (Clock * brief_write)) (k : string) : option BriefItem :=
  briefItems (exec_briefs l no_briefs) !! k.
End SampleBrief.
Import SampleBrief.

Lemma sample_once : ∀ x, x ∈ answered → plain_save x.2.
Proof.
  apply Forall_forall. repeat constructor; apply (bool_decide_eq_true _); by vm_compute.
Qed.

(** ** Where the code and its comments disagree *)

(** The guard reads each row once, before the batch: a batch that names an item
    twice - as a requirement that is resolved, then as an unknown - passes, and the
    unknown stands resolved, and no longer blocks its brief. *)
Theorem repeated_line_resolves_unknown :
  let l := started ++ [(at_ 3, bw_patch "b1" [("x", line (Some t1) bk_required (Some bi_resolved));
                                              ("y", line (Some t1) bk_unknown None)])] in
  option_map (λ r, (bt_kind r, bt_state r)) (row l t1) = Some (bk_unknown, bi_resolved)
  ∧ rd_ready (computeBriefReadiness "b1" (exec_briefs l no_briefs)) = true.
Proof. by vm_compute. Qed.

(** The guard looks an item up in a Map by the text of its id, the UPDATE by the
    uuid that text stands for: a save that writes the id of a resolved requirement
    in upper case makes it an unknown that stands resolved. *)
Theorem uppercase_id_resolves_unknown :
  let l := started ++ [(at_ 3, bw_patch "b1" [("x", line (Some t2) bk_required (Some bi_resolved))]);
                       (at_ 4, bw_patch "b1" [("y", line (Some "22222222-2222-4222-8222-2222222222A2") bk_unknown None)])] in
  option_map (λ r, (bt_kind r, bt_state r)) (row l t2) = Some (bk_unknown, bi_resolved).
Proof. by vm_compute. Qed.

(** The lock of a human's item is passed the same way: a save that writes its id in upper case
    overwrites it, and it stays marked as the human's. *)
Theorem uppercase_id_overwrites_human :
  let l := answered ++ [(at_ 4, bw_patch "b1" [("x", line (Some T1) bk_unknown (Some bi_open))])] in
  option_map (λ r, (bt_statement r, bt_authority r)) (row answered t1) = Some ("One approver", by_human)
  ∧ option_map (λ r, (bt_statement r, bt_kind r, bt_authority r)) (row l t1)
    = Some ("Who may publish?", bk_unknown, by_human).
Proof. by vm_compute. Qed.

(** The lock of a human's item is documented as impossible to bypass short of raw
    SQL; the write of a save does not ask for the author again, so an edit a human
    commits after the save has read is overwritten, and stays marked as the
    human's. *)
Theorem human_edit_overwritten :
  let s := exec_briefs started no_briefs in
  let d := exec_briefs answered no_briefs in
  let d' := exec_brief s (at_ 4) (bw_patch "b1" [("x", line (Some t1) bk_unknown (Some bi_open))]) d in
  option_map (λ r, (bt_statement r, bt_kind r, bt_authority r)) (briefItems d !! t1)
    = Some ("One approver", bk_required, by_human)
  ∧ option_map (λ r, (bt_statement r, bt_kind r, bt_authority r)) (briefItems d' !! t1)
    = Some ("Who may publish?", bk_unknown, by_human).
Proof. by vm_compute. Qed.

(** The schema says that a resolution is set only along with the state resolved;
    no write asks for it. *)
Theorem open_item_resolution :
  let l := started ++ [(at_ 3, bw_edit "b1" t2 (mkHumanPatch None None None None None (Some (Some rs_implemented))))] in
  option_map (λ r, (bt_state r, bt_resolution r)) (row l t2) = Some (bi_open, Some rs_implemented).
Proof. by vm_compute. Qed.

(** ** Witnesses *)

Lemma human_items_locked_witness :
  let save := [(at_ 4, bw_patch "b1" [("x", line (Some t1) bk_unknown (Some bi_open))])] in
  ∃ r, row answered t1 = Some r ∧ bt_authority r = by_human
    ∧ briefItems (exec_briefs save (exec_briefs answered no_briefs)) !! t1 = Some r.
Proof.
  cbn zeta. assert (Hr : ∃ r, row answered t1 = Some r ∧ bt_authority r = by_human).
  { eexists. split; [vm_compute; reflexivity|]. done. }
  destruct Hr as (r & Hr & Ha). exists r. split; [exact Hr|]. split; [exact Ha|].
  refine (human_items_locked [(at_ 4, bw_patch "b1" [("x", line (Some t1) bk_unknown (Some bi_open))])]
            (exec_briefs answered no_briefs) t1 r Hr Ha _).
  intros x ->%list_elem_of_singleton. split; [|intros []]. apply (bool_decide_eq_true _). by vm_compute.
Defined.

Lemma unknown_never_resolved_witness :
  ∃ r, row answered t1 = Some r ∧ ¬ (bt_kind r = bk_unknown ∧ bt_state r = bi_resolved).
Proof.
  assert (Hr : is_Some (row answered t1)) by (eexists; vm_compute; reflexivity).
  destruct Hr as [r Hr]. exists r. split; [exact Hr|]. exact (unknown_never_resolved answered sample_once t1 r Hr).
Defined.

Lemma ready_when_answered_witness :
  rd_ready (computeBriefReadiness "b1" (exec_briefs started no_briefs)) = false
  ∧ ready "b1" (exec_briefs answered no_briefs)
  ∧ ∀ k r, briefItems (exec_briefs answered no_briefs) !! k = Some r → bt_brief_id r = "b1" → bt_kind r ≠ bk_unknown.
Proof.
  split; [vm_compute; reflexivity|]. assert (Hready : ready "b1" (exec_briefs answered no_briefs)) by (vm_compute; reflexivity).
  split; [exact Hready|]. exact (proj1 (proj1 (ready_when_answered answered "b1" sample_once)) Hready).
Defined.

Lemma label_never_readies_witness :
  let d := exec_briefs started no_briefs in
  ¬ writes_items "b1" (bw_status "b1" bs_ready) ∧ rd_ready (computeBriefReadiness "b1" d) = false
  ∧ ¬ ready "b1" (exec_brief d (at_ 3) (bw_status "b1" bs_ready) d).
Proof.
  cbn zeta. assert (Ho : ¬ writes_items "b1" (bw_status "b1" bs_ready)) by (intros []).
  split; [exact Ho|]. assert (Hn : rd_ready (computeBriefReadiness "b1" (exec_briefs started no_briefs)) = false)
    by (vm_compute; reflexivity). split; [exact Hn|]. intros H.
  pose proof (proj1 (proj1 (label_never_readies (exec_briefs started no_briefs) (at_ 3) (bw_status "b1" bs_ready)
                              (exec_briefs started no_briefs) "b1" Ho)) H) as H'.
  unfold ready in H'. rewrite Hn in H'. discriminate.
Defined.

Lemma unknown_leaves_answered_witness :
  ∃ r r', row started t1 = Some r ∧ unanswered "b1" r
    ∧ briefItems (exec_briefs (started ++ [(at_ 3, bw_edit "b1" t1 answer)]) no_briefs) !! t1 = Some r'
    ∧ bt_brief_id r' = "b1" ∧ (unanswered "b1" r' ∨ bt_kind r' ≠ bk_unknown).
Proof.
  assert (Hr : ∃ r, row started t1 = Some r ∧ unanswered "b1" r).
  { eexists. split; [vm_compute; reflexivity|]. done. }
  destruct Hr as (r & Hr & Hu). assert (Hr' : is_Some (row answered t1)) by (eexists; vm_compute; reflexivity).
  destruct Hr' as [r' Hr']. exists r, r'. split; [exact Hr|]. split; [exact Hu|]. split; [exact Hr'|].
  pose proof (unknown_leaves_answered started (at_ 3, bw_edit "b1" t1 answer) "b1" t1 r sample_once Hr Hu) as H.
  cbn zeta in H. unfold row, answered in Hr'. rewrite Hr' in H. exact H.
Defined.
