(* ===== verification/ContextPacks.v ===== *)
(** * ContextPacks: source snapshots and compiled Packs, and their generations

    [acceptance_context_pack_snapshots] and [acceptance_compiled_context_packs]
    ([schema/change_records.ts]) and the statements of
    [queries/change_records.ts] that write them and read the active ones.  What
    makes a payload, a Contract or a Pack admissible is the interface
    [ContextCustody]. *)

From S2P Require Import Prelude Table Regex Intake ReviewJobs Tx RecordSchema JsonText Timeline.
From S2P Require Import ChangeRecords PrHead JsonValue.
From Stdlib Require Import QArith.
Open Scope Z_scope.

(** ** Rows *)

(** [AcceptanceContextPackSnapshotInput], and the columns of a row that
    [snapshotComparable] keeps. *)
Record Snapshot := mkSnapshot {
  sn_workspaceId : string;
  sn_recordId : string;
  sn_reviewJobId : string;
  sn_contractId : string;
  sn_contractVersion : Z;
  sn_contractSha256 : option string;
  sn_repo : string;
  sn_prNumber : Z;
  sn_expectedHeadSha : string;
  sn_baseSha : option string;
  sn_mergeBaseSha : option string;
  sn_headTreeSha : option string;
  sn_packetIds : list string;
  sn_packetSetSha256 : string;
  sn_payloadSetSha256 : option string;
  sn_compilerVersion : string;
  sn_baseIndex : json;
  sn_overlay : json;
  sn_provenance : json;
  sn_status : string;
  sn_reason : option string;
}.
Inductive Generation := provisional | active | superseded.
#[export] Instance Generation_eq_dec : EqDecision Generation.
Proof. solve_decision. Defined.
Record SnapshotRow := mkSnapshotRow {
  sr_value : Snapshot;
  sr_generation : Generation;
  sr_execution : option string;
  sr_created_at : Z;
}.

(** The columns [compiledPackComparable] keeps. *)
Record Pack := mkPack {
  pk_workspaceId : string;
  pk_sourceSnapshotId : string;
  pk_compilerVersion : string;
  pk_policyVersion : string;
  pk_packSha256 : string;
  pk_sourceCustodyIdentitySha256 : string;
  pk_jsonSha256 : string;
  pk_markdownSha256 : string;
  pk_renderedByteCount : Z;
  pk_binding : json;
  pk_manifest : json;
  pk_sourceCustodyReceipt : json;
  pk_dependencyTreeProofs : json;
}.
Record PackRow := mkPackRow {
  kr_value : Pack;
  kr_generation : Generation;
  kr_execution : option string;
  kr_created_at : Z;
}.

Record ContractIdentity := mkContractIdentity {
  ci_contractId : string;
  ci_contractVersion : Z;
  ci_contractSha256 : string;
}.
#[export] Instance ContractIdentity_eq_dec : EqDecision ContractIdentity.
Proof. solve_decision. Defined.

(** What an execution is bound to when it is requested, for good. *)
Record Lineage := mkLineage {
  ln_workspaceId : string;
  ln_recordId : string;
  ln_priorPackId : string;
  ln_headCycleId : string;
  ln_contract : ContractIdentity;
}.
#[export] Instance Lineage_eq_dec : EqDecision Lineage.
Proof. solve_decision. Defined.
Record ExecutionBinding := mkExecutionBinding {
  xb_lineage : Lineage;
  xb_sourceSnapshotId : string;
  xb_repo : string;
  xb_prNumber : Z;
  xb_headSha : string;
  xb_authorityGeneration : Z;
  xb_intentGeneration : Z;
}.
#[export] Instance ExecutionBinding_eq_dec : EqDecision ExecutionBinding.
Proof. solve_decision. Defined.
Inductive ExecutionStatus :=
  | xs_queued | xs_running | xs_replaced | xs_unchanged | xs_not_current | xs_not_proven | xs_held.
#[export] Instance ExecutionStatus_eq_dec : EqDecision ExecutionStatus.
Proof. solve_decision. Defined.
Record Execution := mkExecution {
  ex_binding : ExecutionBinding;
  ex_requestEventId : string;
  ex_requestEventKey : string;
  ex_parent : option string;
  ex_reason : string;
  ex_status : ExecutionStatus;
  ex_attemptCount : Z;
  ex_maxAttempts : Z;
  ex_claimedBy : option string;
  ex_leaseToken : option string;
  ex_leaseExpiresAt : option Z;
  ex_deadlineAt : option Z;
  ex_replacement : option string;
  ex_outcomeReason : option string;
  ex_completedAt : option Z;
  ex_createdAt : Z;
  ex_updatedAt : Z;
}.
Notation snapshots := (gmap string SnapshotRow).
Notation packs := (gmap string PackRow).
Notation executions := (gmap string Execution).

Record RegenDb := mkRegenDb {
  gd_records : RecordDb;
  gd_snapshots : snapshots;
  gd_packs : packs;
  gd_executions : executions;
}.
Definition with_gd_records (x : RecordDb) (d : RegenDb) : RegenDb :=
  mkRegenDb x (gd_snapshots d) (gd_packs d) (gd_executions d).
Definition with_snapshots (x : snapshots) (d : RegenDb) : RegenDb :=
  mkRegenDb (gd_records d) x (gd_packs d) (gd_executions d).
Definition with_packs (x : packs) (d : RegenDb) : RegenDb :=
  mkRegenDb (gd_records d) (gd_snapshots d) x (gd_executions d).
Definition with_executions (x : executions) (d : RegenDb) : RegenDb :=
  mkRegenDb (gd_records d) (gd_snapshots d) (gd_packs d) x.

Inductive RegenError :=
  | rg_records (e : RecordError)
  | rg_invalid
  | rg_not_current
  | rg_bound_differently
  | rg_other_generation
  | rg_constraint
  | rg_conflict
  | rg_lost_custody.
#[export] Instance RegenError_eq_dec : EqDecision RegenError.
Proof. solve_decision. Defined.
Notation regen_tx := (tx RegenError RegenDb).

(** A statement of the Change Records, run within this database. *)
Definition on_records {A} (m : record_tx A) : regen_tx A := λ d,
  match m (gd_records d) with
  | inl e => inl (rg_records e)
  | inr (a, x) => inr (a, with_gd_records x d)
  end.

(** ** Identities *)

Definition jint (z : Z) : json := JNum (inject_Z z).
Definition snapshot_json (s : Snapshot) : json := JObj
  [("workspaceId", JStr (sn_workspaceId s)); ("recordId", JStr (sn_recordId s));
   ("reviewJobId", JStr (sn_reviewJobId s)); ("acceptanceContractId", JStr (sn_contractId s));
   ("acceptanceContractVersion", jint (sn_contractVersion s)); ("acceptanceContractSha256", jopt (sn_contractSha256 s));
   ("repo", JStr (sn_repo s)); ("prNumber", jint (sn_prNumber s)); ("expectedHeadSha", JStr (sn_expectedHeadSha s));
   ("baseSha", jopt (sn_baseSha s)); ("mergeBaseSha", jopt (sn_mergeBaseSha s)); ("headTreeSha", jopt (sn_headTreeSha s));
   ("packetIds", JArr (JStr <$> sn_packetIds s)); ("packetSetSha256", JStr (sn_packetSetSha256 s));
   ("correctionPacketPayloadSetSha256", jopt (sn_payloadSetSha256 s)); ("compilerVersion", JStr (sn_compilerVersion s));
   ("baseIndex", sn_baseIndex s); ("overlay", sn_overlay s); ("provenance", sn_provenance s);
   ("status", JStr (sn_status s)); ("reason", jopt (sn_reason s))].
Definition pack_json (p : Pack) : json := JObj
  [("workspaceId", JStr (pk_workspaceId p)); ("sourceSnapshotId", JStr (pk_sourceSnapshotId p));
   ("compilerVersion", JStr (pk_compilerVersion p)); ("policyVersion", JStr (pk_policyVersion p));
   ("packSha256", JStr (pk_packSha256 p)); ("sourceCustodyIdentitySha256", JStr (pk_sourceCustodyIdentitySha256 p));
   ("jsonSha256", JStr (pk_jsonSha256 p)); ("markdownSha256", JStr (pk_markdownSha256 p));
   ("renderedByteCount", jint (pk_renderedByteCount p)); ("binding", pk_binding p); ("manifest", pk_manifest p);
   ("sourceCustodyReceipt", pk_sourceCustodyReceipt p); ("exactHeadDependencyTreeProofs", pk_dependencyTreeProofs p)].
Definition snapshot_contract (s : Snapshot) : ContractIdentity :=
  mkContractIdentity (sn_contractId s) (sn_contractVersion s) (default "" (sn_contractSha256 s)).
(** [===] of the three columns and an identity; the hash may be null. *)
Definition bound_to_contract (s : Snapshot) (c : ContractIdentity) : bool :=
  (sn_contractSha256 s ≡? Some (ci_contractSha256 c)) && (snapshot_contract s ≡? c).

(** What the payloads have to satisfy, and what of the rest of the database
    they have to agree with. *)
Class ContextCustody := {
  validSnapshot : Snapshot → bool;                  (* validateAcceptanceContextPackSnapshotInput *)
  contractProjects : json → bool;                   (* projectConfirmedAcceptanceContract *)
  sourcesComplete : RecordDb → Snapshot → bool;     (* criteria, correction packets and Wiki of an admission *)
  custodyHolds : RecordDb → Snapshot → bool;        (* packets, repository and Wiki of a custody resolution *)
  custodyIdentity : RecordDb → Snapshot → bool;     (* the same, by the identities the snapshot holds *)
  packWellFormed : Pack → bool;                     (* parseCompiledAcceptanceContextPack and the proofs *)
  packMatches : RecordDb → Snapshot → Pack → bool;  (* identity, binding, receipt and manifest against the custody *)
  packMatchesIdentity : RecordDb → Snapshot → Pack → bool;  (* the same, by the identities the snapshot holds *)
  packText : string → bool;                         (* isPackText of at most 128 units *)
}.

Section Packs.
Context (sha1 : list Z → list Z) (sha256 : string → string) {CC : ContextCustody}.

Definition acceptanceContextPackSnapshotId (s : Snapshot) : string :=
  uuid5Url sha1 ("acceptance-context-pack-snapshot:" +:+ sn_reviewJobId s +:+ ":" +:+ sn_compilerVersion s +:+ ":"
                   +:+ sn_packetSetSha256 s).
Definition acceptanceCompiledContextPackId (sourceSnapshotId compilerVersion policyVersion : string) : string :=
  uuid5Url sha1 ("acceptance-compiled-context-pack:" +:+ sourceSnapshotId +:+ ":" +:+ compilerVersion +:+ ":"
                   +:+ policyVersion).
Definition acceptanceContractSha256 (id : string) (version : Z) (contract : json) : string :=
  sha256 (stringify (canonical (JObj
    [("kind", JStr "acceptance_contract_snapshot"); ("version", jint 1); ("acceptanceContractId", JStr id);
     ("acceptanceContractVersion", jint version); ("contract", contract)]))).

(** ** The Contract that is confirmed *)

Definition confirmed_of (recordId : string) (_ : string) (r : AcceptanceContract) : bool :=
  (ac_record_id r ≡? recordId) && (ac_status r ≡? "confirmed").
Definition confirmed_rows (recordId : string) (x : RecordDb) : list (string * AcceptanceContract) :=
  order_by ac_version (select_where (confirmed_of recordId) (rd_contracts x)).
Definition contract_identity (kr : string * AcceptanceContract) : ContractIdentity :=
  mkContractIdentity kr.1 (ac_version kr.2) (acceptanceContractSha256 kr.1 (ac_version kr.2) (ac_contract kr.2)).
(** [None] where the source answers null or invalid. *)
Definition confirmedContract (recordId : string) (x : RecordDb) : option ContractIdentity :=
  match confirmed_rows recordId x with
  | [kr] =>
      if from_option (λ s, trim s ≢? "") false (ac_confirmed_by kr.2) && negb (is_null (ac_confirmed_at kr.2))
         && contractProjects (ac_contract kr.2)
      then Some (contract_identity kr) else None
  | _ => None
  end.

(** ** The head of the record and its review job *)

Definition record_in (ws id : string) (x : RecordDb) : option ChangeRecord :=
  r ← rd_records x !! id; if cr_workspace_id r ≡? ws then Some r else None.
Definition head_is (sha cycle : string) (r : ChangeRecord) : bool :=
  cr_authoritative r && (cr_head_sha r ≡? Some sha) && (cr_cycle_id r ≡? Some cycle).
Definition snapshot_head_current (s : Snapshot) (x : RecordDb) : bool :=
  from_option (λ r, (cr_repo r ≡? sn_repo s) && (cr_pr_number r ≡? Some (sn_prNumber s))
                    && head_is (sn_expectedHeadSha s) (sn_reviewJobId s) r
                    && bool_decide (sn_expectedHeadSha s ∈ cr_head_shas r)) false
    (record_in (sn_workspaceId s) (sn_recordId s) x).
Definition job_anchored (s : Snapshot) (x : RecordDb) : bool :=
  from_option (λ j, (rj_workspace_id j ≡? sn_workspaceId s) && (rj_repo j ≡? sn_repo s)
                    && (rj_pr_number j ≡? sn_prNumber s) && (rj_head_sha j ≡? sn_expectedHeadSha s)) false
    (rd_jobs x !! sn_reviewJobId s).

(** [gte(column, now)] *)
Definition not_before (now : Z) (x : option Z) : bool := from_option (λ t, now <=? t) false x.
(** The execution that may write a provisional generation. *)
Definition running_for (now : Z) (ws recordId cycle : string) (headSha : option string) (e : Execution) : bool :=
  let b := ex_binding e in
  (ex_status e ≡? xs_running) && (ln_workspaceId (xb_lineage b) ≡? ws) && (ln_recordId (xb_lineage b) ≡? recordId)
  && (ln_headCycleId (xb_lineage b) ≡? cycle) && from_option (λ sha, xb_headSha b ≡? sha) true headSha
  && not_before now (ex_deadlineAt e).
(** Which generation a replay may find. *)
Definition replay_generation (execution : option string) (g : Generation) (owner : option string) : bool :=
  (g ≡? active) || match execution with Some _ => (g ≡? provisional) && (owner ≡? execution) | None => false end.
Definition generation_of (execution : option string) : Generation :=
  match execution with Some _ => provisional | None => active end.

(** ** Admitting a snapshot *)

Definition same_replay (s s' : Snapshot) : bool :=
  (sn_reviewJobId s ≡? sn_reviewJobId s') && (sn_compilerVersion s ≡? sn_compilerVersion s')
  && (sn_packetSetSha256 s ≡? sn_packetSetSha256 s').
Definition find_snapshot (i : Snapshot) (t : snapshots) : option (string * SnapshotRow) :=
  head (select_where (λ _ r, same_replay i (sr_value r)) t).
Fixpoint strictly_sorted (l : list string) : bool :=
  match l with
  | a :: (b :: _) as l' => String.ltb a b && strictly_sorted l'
  | _ => true
  end.
Definition insert_snapshot (id : string) (r : SnapshotRow) : regen_tx unit := λ d,
  let v := sr_value r in let x := gd_records d in
  if is_null (gd_snapshots d !! id) && is_null (find_snapshot v (gd_snapshots d))
     && negb (is_null (rd_records x !! sn_recordId v)) && negb (is_null (rd_jobs x !! sn_reviewJobId v))
     && negb (is_null (rd_contracts x !! sn_contractId v))
  then inr (tt, with_snapshots (<[id := r]> (gd_snapshots d)) d) else inl rg_constraint.
Definition anchored_contract (i : Snapshot) (x : RecordDb) : bool :=
  match confirmed_rows (sn_recordId i) x with
  | [kr] => bound_to_contract i (contract_identity kr)
  | _ => false
  end.
Definition recordAcceptanceContextPackSnapshot (c : Clock) (i : Snapshot) (execution : option string)
    : regen_tx (string * SnapshotRow * bool) :=
  _ ← require_true (validSnapshot i && strictly_sorted (sn_packetIds i) && from_option isUuid true execution) rg_invalid;
  x ← reads gd_records;
  _ ← require_true (snapshot_head_current i x && job_anchored i x && anchored_contract i x && sourcesComplete x i) rg_not_current;
  owner ← reads (λ d, execution ≫= λ id, gd_executions d !! id);
  _ ← require_true (match execution with
                    | Some _ => from_option (running_for (js_now c) (sn_workspaceId i) (sn_recordId i) (sn_reviewJobId i)
                                               (Some (sn_expectedHeadSha i))) false owner
                    | None => true
                    end) rg_not_current;
  existing ← reads (λ d, find_snapshot i (gd_snapshots d));
  match existing with
  | Some (id, r) =>
      _ ← require_true (isDeepStrictEqual (snapshot_json (sr_value r)) (snapshot_json i)) rg_bound_differently;
      _ ← require_true (replay_generation execution (sr_generation r) (sr_execution r)) rg_other_generation;
      mret (id, r, false)
  | None =>
      let id := acceptanceContextPackSnapshotId i in
      let r := mkSnapshotRow i (generation_of execution) execution (db_now c) in
      _ ← insert_snapshot id r;
      mret (id, r, true)
  end.

(** ** Resolving the custody of a snapshot *)

Definition snapshot_in (ws id : string) (t : snapshots) : option SnapshotRow :=
  r ← t !! id; if sn_workspaceId (sr_value r) ≡? ws then Some r else None.
Definition admitted (s : Snapshot) : bool :=
  (sn_status s ≡? "admitted") && negb (is_null (sn_contractSha256 s)) && negb (is_null (sn_payloadSetSha256 s)).
Definition confirmed_version (s : Snapshot) (x : RecordDb) : bool :=
  from_option (λ r, confirmed_of (sn_recordId s) "" r && (ac_version r ≡? sn_contractVersion s)
                    && contractProjects (ac_contract r)
                    && bound_to_contract s (contract_identity (sn_contractId s, r))) false
    (rd_contracts x !! sn_contractId s).
Definition resolveAcceptanceContextPackCustodyInTransaction (ws sourceSnapshotId : string) (execution : option string)
    : regen_tx SnapshotRow :=
  row ← reads (λ d, snapshot_in ws sourceSnapshotId (gd_snapshots d));
  r ← some_or row rg_not_current;
  x ← reads gd_records;
  let s := sr_value r in
  _ ← require_true (replay_generation execution (sr_generation r) (sr_execution r) && admitted s
                    && snapshot_head_current s x && job_anchored s x && confirmed_version s x && custodyHolds x s) rg_not_current;
  mret r.

(** ** Recording a compiled Pack *)

Definition same_pack_replay (p p' : Pack) : bool :=
  (pk_sourceSnapshotId p ≡? pk_sourceSnapshotId p') && (pk_compilerVersion p ≡? pk_compilerVersion p')
  && (pk_policyVersion p ≡? pk_policyVersion p').
Definition find_pack (p : Pack) (t : packs) : option (string * PackRow) :=
  head (select_where (λ _ r, same_pack_replay p (kr_value r)) t).
Definition insert_pack (id : string) (r : PackRow) : regen_tx unit := λ d,
  let v := kr_value r in
  if is_null (gd_packs d !! id) && is_null (find_pack v (gd_packs d))
     && negb (is_null (gd_snapshots d !! pk_sourceSnapshotId v))
     && (0 <? pk_renderedByteCount v) && (pk_renderedByteCount v <=? 65536)
  then inr (tt, with_packs (<[id := r]> (gd_packs d)) d) else inl rg_constraint.
Definition recordAcceptanceCompiledContextPack (c : Clock) (p : Pack) (execution : option string)
    : regen_tx (string * PackRow * bool) :=
  _ ← require_true (isUuid (pk_workspaceId p) && isUuid (pk_sourceSnapshotId p) && from_option isUuid true execution
                    && packWellFormed p) rg_invalid;
  custody ← resolveAcceptanceContextPackCustodyInTransaction (pk_workspaceId p) (pk_sourceSnapshotId p) execution;
  x ← reads gd_records;
  _ ← require_true (packMatches x (sr_value custody) p) rg_not_current;
  existing ← reads (λ d, find_pack p (gd_packs d));
  match existing with
  | Some (id, r) =>
      _ ← require_true (isDeepStrictEqual (pack_json (kr_value r)) (pack_json p)) rg_bound_differently;
      _ ← require_true (replay_generation execution (kr_generation r) (kr_execution r)) rg_other_generation;
      mret (id, r, false)
  | None =>
      owner ← reads (λ d, execution ≫= λ id, gd_executions d !! id);
      _ ← require_true (match execution with
                        | Some _ => from_option (running_for (js_now c) (pk_workspaceId p) (sn_recordId (sr_value custody))
                                                   (sn_reviewJobId (sr_value custody)) None) false owner
                        | None => true
                        end) rg_not_current;
      let id := acceptanceCompiledContextPackId (pk_sourceSnapshotId p) (pk_compilerVersion p) (pk_policyVersion p) in
      let r := mkPackRow p (generation_of execution) execution (db_now c) in
      _ ← insert_pack id r;
      mret (id, r, true)
  end.

(** ** Reading the active generation *)

Definition readable (x : RecordDb) (t : snapshots) (r : PackRow) : option SnapshotRow :=
  s ← snapshot_in (pk_workspaceId (kr_value r)) (pk_sourceSnapshotId (kr_value r)) t;
  let v := sr_value s in
  if (kr_generation r ≡? active) && (sr_generation s ≡? active)
     && from_option (head_is (sn_expectedHeadSha v) (sn_reviewJobId v)) false
          (record_in (pk_workspaceId (kr_value r)) (sn_recordId v) x)
  then Some s else None.
Definition resolveAcceptanceCompiledContextPack (ws sourceSnapshotId compilerVersion policyVersion : string) (d : RegenDb)
    : option (string * PackRow) :=
  if isUuid ws && isUuid sourceSnapshotId && packText compilerVersion && packText policyVersion then
    head (select_where (λ _ r, (pk_workspaceId (kr_value r) ≡? ws) && (pk_sourceSnapshotId (kr_value r) ≡? sourceSnapshotId)
                               && (pk_compilerVersion (kr_value r) ≡? compilerVersion)
                               && (pk_policyVersion (kr_value r) ≡? policyVersion)
                               && from_option (λ s, from_option (λ q, (cr_repo q ≡? sn_repo (sr_value s))
                                                                      && (cr_pr_number q ≡? Some (sn_prNumber (sr_value s)))) false
                                                      (record_in ws (sn_recordId (sr_value s)) (gd_records d))) false
                                    (readable (gd_records d) (gd_snapshots d) r)) (gd_packs d))
  else None.
Definition resolveActiveAcceptanceCompiledContextPackForRecord (ws recordId reviewJobId compilerVersion policyVersion : string)
    (d : RegenDb) : option (string * PackRow) :=
  if isUuid ws && isUuid recordId && isUuid reviewJobId && packText compilerVersion && packText policyVersion then
    match select_where (λ _ r, (pk_workspaceId (kr_value r) ≡? ws) && (pk_compilerVersion (kr_value r) ≡? compilerVersion)
                               && (pk_policyVersion (kr_value r) ≡? policyVersion)
                               && from_option (λ s, (sn_recordId (sr_value s) ≡? recordId)
                                                    && (sn_reviewJobId (sr_value s) ≡? reviewJobId)) false
                                    (readable (gd_records d) (gd_snapshots d) r)) (gd_packs d) with
    | [kr] => Some kr
    | _ => None
    end
  else None.
End Packs.
