(* ===== verification/Regeneration.v ===== *)
(** * Regeneration: replacing a Context Pack that a human finds stale or inadequate

    The executions of [queries/change_records.ts]: a human's request and retry,
    the claim, renewal, preparation and completion of a worker's lease, and the
    executor of [apps/console/lib/acceptance-context-pack-regeneration-execution.ts]
    that runs them. *)

From S2P Require Import Prelude Table Regex QueueText Intake ReviewJobs Tx RecordSchema JsonText Timeline.
From S2P Require Import ChangeRecords PrHead JsonValue ContextPacks.
From Stdlib Require Import QArith Ascii.
Open Scope Z_scope.

(** ** Statements on the executions *)

Definition root_of (l : Lineage) (_ : string) (e : Execution) : bool :=
  (xb_lineage (ex_binding e) ≡? l) && is_null (ex_parent e).
Definition child_of (parent : string) (_ : string) (e : Execution) : bool := ex_parent e ≡? Some parent.

Definition repo_name (s : string) : bool :=
  match split_on "/"%char s with [owner; name] => repository_part owner && repository_part name | _ => false end.
(** [acceptance_context_pack_regeneration_executions_binding_check] *)
Definition binding_check (id : string) (e : Execution) : bool :=
  let b := ex_binding e in let c := ln_contract (xb_lineage b) in
  (1 <=? String.length (ex_requestEventKey e))%nat && (String.length (ex_requestEventKey e) <=? 1024)%nat
  && repo_name (xb_repo b) && (0 <? xb_prNumber b) && lower_hex 40 (xb_headSha b)
  && (0 <=? xb_authorityGeneration b) && (0 <? ci_contractVersion c) && lower_hex 64 (ci_contractSha256 c)
  && bool_decide (ex_reason e ∈ ["stale"; "inadequate"]) && (0 <? xb_intentGeneration b)
  && negb (ex_parent e ≡? Some id) && (ex_maxAttempts e =? 1)
  && (0 <=? ex_attemptCount e) && (ex_attemptCount e <=? ex_maxAttempts e).
(** The references of a row. *)
Definition references_exist (d : RegenDb) (e : Execution) : bool :=
  let b := ex_binding e in let x := gd_records d in
  negb (is_null (rd_records x !! ln_recordId (xb_lineage b))) && negb (is_null (rd_events x !! ex_requestEventId e))
  && negb (is_null (gd_snapshots d !! xb_sourceSnapshotId b)) && negb (is_null (gd_packs d !! ln_priorPackId (xb_lineage b)))
  && negb (is_null (rd_contracts x !! ci_contractId (ln_contract (xb_lineage b))))
  && match ex_parent e with Some p => negb (is_null (gd_executions d !! p)) | None => true end.
(** The unique keys: the id, the request, the generation of a lineage's roots and
    the child of a parent. *)
Definition taken (id : string) (e : Execution) (t : executions) : bool :=
  negb (is_null (t !! id))
  || existsb (λ kr, (ex_requestEventId kr.2 ≡? ex_requestEventId e)
                    || match ex_parent e with
                       | None => root_of (xb_lineage (ex_binding e)) kr.1 kr.2
                                 && (xb_intentGeneration (ex_binding kr.2) =? xb_intentGeneration (ex_binding e))
                       | Some p => child_of p kr.1 kr.2
                       end) (map_to_list t).
(** [INSERT ... ON CONFLICT DO NOTHING RETURNING *] *)
Definition insert_execution (id : string) (e : Execution) : regen_tx (option Execution) := λ d,
  if negb (binding_check id e) then inl rg_constraint
  else if taken id e (gd_executions d) then inr (None, d)
  else if references_exist d e then inr (Some e, with_executions (<[id := e]> (gd_executions d)) d)
  else inl rg_constraint.
Definition new_execution (c : Clock) (b : ExecutionBinding) (eventId eventKey : string) (parent : option string)
    (reason : string) : Execution :=
  mkExecution b eventId eventKey parent reason xs_queued 0 1 None None None None None None None (db_now c) (db_now c).

(** [ORDER BY created_at ASC, id ASC LIMIT 1] *)
Definition precedes (x y : string * Execution) : bool :=
  (ex_createdAt x.2 <? ex_createdAt y.2) || ((ex_createdAt x.2 =? ex_createdAt y.2) && String.leb x.1 y.1).
Fixpoint first_created (l : list (string * Execution)) : option (string * Execution) :=
  match l with
  | [] => None
  | x :: l => match first_created l with Some y => if precedes x y then Some x else Some y | None => Some x end
  end.
Definition latest_generation (l : Lineage) (t : executions) : option (string * Execution) :=
  newest (λ e, xb_intentGeneration (ex_binding e)) (select_where (root_of l) t).

Definition canHumanRetryAcceptanceContextPackRegenerationExecution (e : Execution) : bool :=
  is_null (ex_parent e)
  && ((ex_status e ≡? xs_held) && (ex_outcomeReason e ≡? Some "github_credential_unavailable")
      || (ex_status e ≡? xs_not_proven)
         && ((ex_outcomeReason e ≡? Some "exact_content_github_unavailable")
             || (ex_outcomeReason e ≡? Some "exact_content_github_rejected"))).

(** ** The texts of a request *)

(** [HUMAN_DECISION_ACTOR], and the user it names in lower case *)
Definition human_actor (s : string) : bool := starts_with "user:" s && isUuid (slice_from 5 s).
Definition actor_user (s : string) : string := lower (slice_from 5 s).
Definition request_event_key (packId intentId : string) : string :=
  "context-pack-regeneration:" +:+ packId +:+ ":" +:+ intentId.
Definition legacy_request_event_key (packId reason userId : string) : string :=
  "context-pack-regeneration:" +:+ packId +:+ ":" +:+ reason +:+ ":" +:+ userId.
Definition retry_event_key (executionId userId : string) : string :=
  "context-pack-regeneration-retry:" +:+ executionId +:+ ":" +:+ userId.
Definition outcome_event_key (executionId : string) : string := "context-pack-regeneration-outcome:" +:+ executionId.
Definition REQUEST_KIND : string := "acceptance_context_pack_regeneration_request".
Definition RETRY_KIND : string := "acceptance_context_pack_regeneration_retry".
Definition REQUEST_STAGE : string := "human_context_request".
Definition OUTCOME_STAGE : string := "context_pack_regeneration".
Definition contract_json (c : ContractIdentity) : json := JObj
  [("id", JStr (ci_contractId c)); ("version", jint (ci_contractVersion c)); ("sha256", JStr (ci_contractSha256 c))].
Definition status_text (s : ExecutionStatus) : string :=
  match s with
  | xs_queued => "queued" | xs_running => "running" | xs_replaced => "replaced" | xs_unchanged => "unchanged"
  | xs_not_current => "not_current" | xs_not_proven => "not_proven" | xs_held => "held"
  end.

Record RequestInput := mkRequestInput {
  ri_workspaceId : string;
  ri_recordId : string;
  ri_compiledPackId : string;
  ri_reason : string;
  ri_requestedBy : string;
  ri_requestIntentId : option string;
}.
(** What is known of an execution when its request is recorded. *)
Record RequestContext := mkRequestContext {
  rc_workspaceId : string;
  rc_recordId : string;
  rc_sourceSnapshotId : string;
  rc_compiledPackId : string;
  rc_repo : string;
  rc_prNumber : Z;
  rc_headSha : string;
  rc_headCycleId : string;
  rc_authorityGeneration : Z;
  rc_contract : ContractIdentity;
}.
Record Request := mkRequest {
  rq_eventId : string;
  rq_eventKey : string;
  rq_executionId : option string;
  rq_reason : string;
}.
Definition request_payload (q : RequestContext) (executionId reason intentId requestedBy role : string) : json := JObj
  [("kind", JStr REQUEST_KIND); ("version", jint 3); ("workspaceId", JStr (rc_workspaceId q));
   ("recordId", JStr (rc_recordId q)); ("sourceSnapshotId", JStr (rc_sourceSnapshotId q));
   ("compiledPackId", JStr (rc_compiledPackId q)); ("executionId", JStr executionId); ("repo", JStr (rc_repo q));
   ("prNumber", jint (rc_prNumber q)); ("headSha", JStr (rc_headSha q)); ("headCycleId", JStr (rc_headCycleId q));
   ("authorityGeneration", jint (rc_authorityGeneration q)); ("acceptanceContract", contract_json (rc_contract q));
   ("reason", JStr reason); ("requestIntentId", JStr intentId); ("requestedBy", JStr requestedBy);
   ("requestedRole", JStr role); ("authority", JStr "request_only"); ("status", JStr "request_recorded")].
Definition retry_payload (id : string) (e : Execution) (requestedBy role : string) : json :=
  let b := ex_binding e in let l := xb_lineage b in JObj
  [("kind", JStr RETRY_KIND); ("version", jint 1); ("workspaceId", JStr (ln_workspaceId l));
   ("recordId", JStr (ln_recordId l)); ("terminalExecutionId", JStr id); ("priorCompiledPackId", JStr (ln_priorPackId l));
   ("headSha", JStr (xb_headSha b)); ("headCycleId", JStr (ln_headCycleId l));
   ("authorityGeneration", jint (xb_authorityGeneration b)); ("acceptanceContract", contract_json (ln_contract l));
   ("terminalStatus", JStr (status_text (ex_status e))); ("terminalReason", jopt (ex_outcomeReason e));
   ("requestedBy", JStr requestedBy); ("requestedRole", JStr role); ("authority", JStr "human_retry_only");
   ("status", JStr "retry_recorded")].
Definition outcome_payload (id : string) (e : Execution) (status : ExecutionStatus) (reason : string)
    (replacement : option string) : json :=
  let l := xb_lineage (ex_binding e) in JObj
  [("kind", JStr "acceptance_context_pack_regeneration_outcome"); ("version", jint 1); ("executionId", JStr id);
   ("requestEventId", JStr (ex_requestEventId e)); ("workspaceId", JStr (ln_workspaceId l));
   ("recordId", JStr (ln_recordId l)); ("priorCompiledPackId", JStr (ln_priorPackId l));
   ("replacementCompiledPackId", jopt replacement); ("headSha", JStr (xb_headSha (ex_binding e)));
   ("headCycleId", JStr (ln_headCycleId l)); ("status", JStr (status_text status)); ("outcomeReason", JStr reason);
   ("attemptCount", jint (ex_attemptCount e))].

Section Regeneration.
Context (sha1 : list Z → list Z) (sha256 : string → string) {CC : ContextCustody}.

Definition lineage_text (l : Lineage) : string :=
  let c := ln_contract l in
  join_strings ":" ["acceptance-context-pack-regeneration-root-v1"; ln_workspaceId l; ln_recordId l; ln_priorPackId l;
                    ln_headCycleId l; ci_contractId c; show_Z (ci_contractVersion c); ci_contractSha256 c].
Definition acceptanceContextPackRegenerationExecutionId (l : Lineage) (intentGeneration : Z) : string :=
  uuid5Url sha1 (if intentGeneration =? 1 then lineage_text l
                 else lineage_text l +:+ ":intent-generation:" +:+ show_Z intentGeneration).
Definition retry_execution_id (eventId : string) : string :=
  uuid5Url sha1 ("acceptance-context-pack-regeneration-retry-execution:" +:+ eventId).

(** [catch]: an event key bound to something else is a conflict. *)
Definition append_or_conflict (c : Clock) (i : EventInput) : regen_tx AppendResult := λ d,
  match on_records (append_single sha1 c i) d with
  | inl (rg_records event_bound_differently) => inl rg_conflict
  | r => r
  end.

(** ** Reading a request back *)

Definition text_is (v : json) (key value : string) : bool := text_at v key ≡? Some value.
Definition COMMON_KEYS : list string :=
  ["kind"; "version"; "workspaceId"; "recordId"; "sourceSnapshotId"; "compiledPackId"; "repo"; "prNumber"; "headSha";
   "headCycleId"; "authorityGeneration"; "acceptanceContract"; "reason"; "requestedBy"; "requestedRole"; "authority"; "status"].
(** The version of a payload and the keys it has to have. *)
Definition request_version (p : json) : option (Z * list string) :=
  if number_at_is p "version" 1 then Some (1, COMMON_KEYS)
  else if number_at_is p "version" 2 then Some (2, COMMON_KEYS ++ ["requestIntentId"])
  else if number_at_is p "version" 3 then Some (3, COMMON_KEYS ++ ["requestIntentId"; "executionId"])
  else None.
Definition human_role (s : string) : bool := (s ≡? "owner") || (s ≡? "admin").
Definition text_passes (v : json) (key : string) (p : string → bool) : bool := from_option p false (text_at v key).
Definition parseAcceptanceContextPackRegenerationRequestEvent (q : RequestContext) (id : string) (e : ChangeEvent)
    : option Request :=
  let p := ce_payload e in
  '(version, keys) ← request_version p;
  reason ← text_at p "reason";
  requestedBy ← text_at p "requestedBy";
  let intent := default "" (text_at p "requestIntentId") in
  if hasExactKeys p keys && text_is p "kind" REQUEST_KIND && text_is p "workspaceId" (rc_workspaceId q)
     && text_is p "recordId" (rc_recordId q) && text_is p "sourceSnapshotId" (rc_sourceSnapshotId q)
     && text_is p "compiledPackId" (rc_compiledPackId q) && text_is p "repo" (rc_repo q)
     && number_at_is p "prNumber" (inject_Z (rc_prNumber q)) && text_is p "headSha" (rc_headSha q)
     && text_is p "headCycleId" (rc_headCycleId q)
     && number_at_is p "authorityGeneration" (inject_Z (rc_authorityGeneration q))
     && from_option (isDeepStrictEqual (contract_json (rc_contract q))) false (json_field p "acceptanceContract")
     && bool_decide (reason ∈ ["stale"; "inadequate"])
     && ((version =? 1) || text_passes p "requestIntentId" isUuid)
     && (negb (version =? 3) || text_passes p "executionId" isUuid)
     && human_actor requestedBy && text_passes p "requestedRole" human_role
     && text_is p "authority" "request_only" && text_is p "status" "request_recorded"
     && (ce_record_id e ≡? rc_recordId q)
     && (ce_event_key e ≡? (if version =? 1 then legacy_request_event_key (rc_compiledPackId q) reason (slice_from 5 requestedBy)
                            else request_event_key (rc_compiledPackId q) intent))
     && (id ≡? changeRecordEventId sha1 (rc_recordId q) (ce_event_key e))
     && (ce_stage e ≡? REQUEST_STAGE) && (ce_actor e ≡? requestedBy)
  then Some (mkRequest id (ce_event_key e) (if version =? 3 then text_at p "executionId" else None) reason)
  else None.

(** The event of a row, where its record and key are those. *)
Definition event_at (id recordId eventKey : string) (x : RecordDb) : option ChangeEvent :=
  e ← rd_events x !! id; if (ce_record_id e ≡? recordId) && (ce_event_key e ≡? eventKey) then Some e else None.
(** The event of a retry of an execution. *)
Definition retry_event_of (recordId executionId : string) (_ : string) (e : ChangeEvent) : bool :=
  (ce_record_id e ≡? recordId) && (ce_stage e ≡? REQUEST_STAGE) && text_is (ce_payload e) "kind" RETRY_KIND
  && text_is (ce_payload e) "terminalExecutionId" executionId.
Definition retried (id : string) (e : Execution) (d : RegenDb) : bool :=
  existsb (λ kr, child_of id kr.1 kr.2) (map_to_list (gd_executions d))
  || existsb (λ kr, retry_event_of (ln_recordId (xb_lineage (ex_binding e))) id kr.1 kr.2)
       (map_to_list (rd_events (gd_records d))).

(** ** What is current *)

Definition execution_current (b : ExecutionBinding) (x : RecordDb) : bool :=
  let l := xb_lineage b in
  from_option (λ r, head_is (xb_headSha b) (ln_headCycleId l) r && (cr_state r ≡? "open") && is_null (cr_merged_sha r)
                    && (cr_repo r ≡? xb_repo b) && (cr_pr_number r ≡? Some (xb_prNumber b))
                    && (cr_generation r =? xb_authorityGeneration b)) false
    (record_in (ln_workspaceId l) (ln_recordId l) x).
Definition contract_current (b : ExecutionBinding) (x : RecordDb) : bool :=
  confirmedContract sha256 (ln_recordId (xb_lineage b)) x ≡? Some (ln_contract (xb_lineage b)).
Definition source_snapshot (b : ExecutionBinding) (d : RegenDb) : option SnapshotRow :=
  r ← snapshot_in (ln_workspaceId (xb_lineage b)) (xb_sourceSnapshotId b) (gd_snapshots d);
  if (sn_recordId (sr_value r) ≡? ln_recordId (xb_lineage b)) && (sr_generation r ≡? active) then Some r else None.
Definition prior_pack (b : ExecutionBinding) (d : RegenDb) : option PackRow :=
  r ← gd_packs d !! ln_priorPackId (xb_lineage b);
  if (pk_workspaceId (kr_value r) ≡? ln_workspaceId (xb_lineage b))
     && (pk_sourceSnapshotId (kr_value r) ≡? xb_sourceSnapshotId b) && (kr_generation r ≡? active) then Some r else None.
Definition source_bound (b : ExecutionBinding) (r : SnapshotRow) : bool :=
  let s := sr_value r in
  (sn_reviewJobId s ≡? ln_headCycleId (xb_lineage b)) && (sn_expectedHeadSha s ≡? xb_headSha b)
  && bound_to_contract s (ln_contract (xb_lineage b)) && validSnapshot s
  && (xb_sourceSnapshotId b ≡? acceptanceContextPackSnapshotId sha1 s).

(** [acceptanceRecordSummaryCompiledPack] on a pack and the snapshot of its
    custody; [agrees] compares the two with the Wiki as it is or as it was. *)
Definition pack_proven (agrees : RecordDb → Snapshot → Pack → bool) (x : RecordDb) (packId snapshotId : string) (s : Snapshot) (p : Pack) : bool :=
  packWellFormed p
  && (packId ≡? acceptanceCompiledContextPackId sha1 (pk_sourceSnapshotId p) (pk_compilerVersion p) (pk_policyVersion p))
  && (pk_workspaceId p ≡? sn_workspaceId s) && (pk_sourceSnapshotId p ≡? snapshotId) && agrees x s p.
Definition correction_event (recordId jobId : string) (_ : string) (e : ChangeEvent) : bool :=
  (ce_record_id e ≡? recordId) && starts_with ("review:correction:" +:+ jobId +:+ ":") (ce_event_key e).
Definition priorCustodyIsProven (packId snapshotId : string) (contract : ContractIdentity) (s : Snapshot) (p : Pack)
    (x : RecordDb) : bool :=
  (count_where (correction_event (sn_recordId s) (sn_reviewJobId s)) (rd_events x) <=? 100)%nat
  && validSnapshot s && (snapshotId ≡? acceptanceContextPackSnapshotId sha1 s)
  && from_option (λ r, (cr_repo r ≡? sn_repo s) && (cr_pr_number r ≡? Some (sn_prNumber s))) false
       (record_in (sn_workspaceId s) (sn_recordId s) x)
  && bound_to_contract s contract && job_anchored s x && custodyIdentity x s
  && pack_proven packMatchesIdentity x packId snapshotId s p.

(** ** The request of a human *)

Inductive RequestResult :=
  | rr_done (inserted : bool) (request : Request) (id : string) (e : Execution) (humanRetryable : bool)
  | rr_not_found
  | rr_not_current
  | rr_not_authorized.

Definition valid_request (i : RequestInput) : bool :=
  isUuid (ri_workspaceId i) && isUuid (ri_recordId i) && isUuid (ri_compiledPackId i)
  && from_option isUuid true (ri_requestIntentId i) && bool_decide (ri_reason i ∈ ["stale"; "inadequate"])
  && human_actor (ri_requestedBy i).
Definition request_user (i : RequestInput) : string := actor_user (ri_requestedBy i).
Definition request_intent (i : RequestInput) : string :=
  default (uuid5Url sha1 ("legacy-context-pack-regeneration-intent:" +:+ ri_compiledPackId i +:+ ":" +:+ ri_reason i +:+ ":"
                            +:+ request_user i)) (ri_requestIntentId i).
(** The Pack, its snapshot and its record, the generations being active. *)
Definition active_pack (i : RequestInput) (d : RegenDb) : option (PackRow * string * SnapshotRow) :=
  p ← gd_packs d !! ri_compiledPackId i;
  s ← snapshot_in (ri_workspaceId i) (pk_sourceSnapshotId (kr_value p)) (gd_snapshots d);
  if (pk_workspaceId (kr_value p) ≡? ri_workspaceId i) && (kr_generation p ≡? active)
     && (sn_recordId (sr_value s) ≡? ri_recordId i) && (sr_generation s ≡? active)
  then Some (p, pk_sourceSnapshotId (kr_value p), s) else None.
(** The repository and pull request the lock is taken for. *)
Definition request_candidate (i : RequestInput) (d : RegenDb) : option (string * option Z) :=
  _ ← active_pack i d; r ← record_in (ri_workspaceId i) (ri_recordId i) (gd_records d); Some (cr_repo r, cr_pr_number r).
Definition request_current (r : ChangeRecord) (snapshotId : string) (s : Snapshot) : bool :=
  cr_authoritative r && (cr_state r ≡? "open") && is_null (cr_merged_sha r)
  && head_is (sn_expectedHeadSha s) (sn_reviewJobId s) r && bool_decide (sn_expectedHeadSha s ∈ cr_head_shas r)
  && (sn_status s ≡? "admitted") && validSnapshot s && (snapshotId ≡? acceptanceContextPackSnapshotId sha1 s).
Definition request_context (i : RequestInput) (repo : string) (pr : Z) (r : ChangeRecord) (snapshotId : string) (s : Snapshot)
    (contract : ContractIdentity) : RequestContext :=
  mkRequestContext (ri_workspaceId i) (ri_recordId i) snapshotId (ri_compiledPackId i) repo pr (sn_expectedHeadSha s)
    (sn_reviewJobId s) (cr_generation r) contract.
Definition binding_of (q : RequestContext) (generation : Z) : ExecutionBinding :=
  mkExecutionBinding (mkLineage (rc_workspaceId q) (rc_recordId q) (rc_compiledPackId q) (rc_headCycleId q) (rc_contract q))
    (rc_sourceSnapshotId q) (rc_repo q) (rc_prNumber q) (rc_headSha q) (rc_authorityGeneration q) generation.

(** Whether a request opens a generation of its own, and which generation it is
    for. *)
Definition creates_generation (existing : option Request) (latest : option (string * Execution)) : bool :=
  is_null existing && from_option (λ kr, ex_status kr.2 ≡? xs_unchanged) true latest.
Definition generation_for (creates : bool) (exact latest : option (string * Execution)) : Z :=
  let number := from_option (λ kr : string * Execution, xb_intentGeneration (ex_binding kr.2)) in
  match exact with
  | Some kr => xb_intentGeneration (ex_binding kr.2)
  | None => if creates then number 0 latest + 1 else number 1 latest
  end.
(** The execution is the one the request names, and its own request says so. *)
Definition custody_agrees (executionId : string) (b : ExecutionBinding) (own : option Request) (request : Request)
    (kr : string * Execution) : bool :=
  (kr.1 ≡? executionId) && (ex_binding kr.2 ≡? b) && is_null (ex_parent kr.2)
  && from_option (λ r, (rq_reason r ≡? ex_reason kr.2) && (rq_executionId r ≡? Some kr.1)) false own
  && (rq_executionId request ≡? Some kr.1).

Definition record_request (c : Clock) (i : RequestInput) (role : string) (q : RequestContext) : regen_tx RequestResult :=
  let l := mkLineage (rc_workspaceId q) (rc_recordId q) (rc_compiledPackId q) (rc_headCycleId q) (rc_contract q) in
  let parse := parseAcceptanceContextPackRegenerationRequestEvent q in
  let requestedBy := "user:" +:+ request_user i in
  let eventKey := request_event_key (ri_compiledPackId i) (request_intent i) in
  let eventId := changeRecordEventId sha1 (ri_recordId i) eventKey in
  stored ← reads (λ d, event_at eventId (ri_recordId i) eventKey (gd_records d));
  let existing := stored ≫= parse eventId in
  _ ← require_true (is_null stored || negb (is_null existing)) rg_conflict;
  exact ← reads (λ d, id ← existing ≫= rq_executionId; e ← gd_executions d !! id; Some (id, e));
  roots ← reads (λ d, latest_generation l (gd_executions d));
  let latest := match exact with Some kr => Some kr | None => roots end in
  let creates := creates_generation existing latest in
  let generation := generation_for creates exact latest in
  let executionId := acceptanceContextPackRegenerationExecutionId l generation in
  _ ← require_true (from_option (λ r, rq_executionId r ≡? Some executionId) true existing) rg_conflict;
  appended ← append_or_conflict c
    (mkEventInput (ri_recordId i) eventKey REQUEST_STAGE requestedBy
       (request_payload q executionId (ri_reason i) (request_intent i) requestedBy role) None);
  request ← some_or (parse (ar_id appended) (ar_event appended)) rg_conflict;
  _ ← require_true (rq_executionId request ≡? Some executionId) rg_conflict;
  let b := binding_of q generation in
  inserted ← (if creates then insert_execution executionId
                                (new_execution c b (rq_eventId request) (rq_eventKey request) None (ri_reason i))
              else mret None);
  byId ← reads (λ d, e ← gd_executions d !! executionId; Some (executionId, e));
  let chosen := match exact, inserted, latest with
                | Some kr, _, _ => Some kr
                | None, Some e, _ => Some (executionId, e)
                | None, None, Some kr => Some kr
                | None, None, None => byId
                end in
  kr ← some_or chosen rg_conflict;
  let e := kr.2 in
  own ← reads (λ d, if ex_requestEventId e ≡? rq_eventId request then Some (ar_event appended)
                    else event_at (ex_requestEventId e) (ln_recordId (xb_lineage (ex_binding e))) (ex_requestEventKey e) (gd_records d));
  _ ← require_true (custody_agrees executionId b (own ≫= parse (ex_requestEventId e)) request kr) rg_conflict;
  again ← reads (retried kr.1 e);
  mret (rr_done (ar_inserted appended) request kr.1 e
          (canHumanRetryAcceptanceContextPackRegenerationExecution e && negb again)).

(** [s] is the database the candidate was read in, [role] the membership of the
    user in the workspace. *)
Definition request_tx (c : Clock) (i : RequestInput) (role : option string) (repo : string) (pr : Z) : regen_tx RequestResult :=
  match role with
  | Some role =>
      if negb (human_role role) then mret rr_not_authorized
      else
        record ← reads (λ d, record_in (ri_workspaceId i) (ri_recordId i) (gd_records d));
        pack ← reads (active_pack i);
        x ← reads gd_records;
        match record, pack with
        | Some r, Some (p, snapshotId, s) =>
            if negb ((cr_repo r ≡? repo) && (cr_pr_number r ≡? Some pr)) then mret rr_not_found
            else
              match confirmedContract sha256 (ri_recordId i) x with
              | Some contract =>
                  if request_current r snapshotId (sr_value s) && bound_to_contract (sr_value s) contract
                     && priorCustodyIsProven (ri_compiledPackId i) snapshotId contract (sr_value s) (kr_value p) x
                  then record_request c i role (request_context i repo pr r snapshotId (sr_value s) contract)
                  else mret rr_not_current
              | None => mret rr_not_current
              end
        | _, _ => mret rr_not_found
        end
  | None => mret rr_not_authorized
  end.
Definition recordAcceptanceContextPackRegenerationRequest (s : RegenDb) (c : Clock) (i : RequestInput) (role : option string)
    (d : RegenDb) : (RegenError + RequestResult) * RegenDb :=
  if negb (valid_request i) then (inl rg_invalid, d)
  else match request_candidate i s with
       | None => (inr rr_not_found, d)
       | Some (_, None) => (inr rr_not_current, d)
       | Some (repo, Some pr) => transaction (request_tx c i role repo pr) d
       end.

(** ** The retry of a human *)

Inductive RetryResult :=
  | ry_done (inserted : bool) (id : string) (e : Execution)
  | ry_not_found
  | ry_not_current
  | ry_not_authorized
  | ry_not_retryable.
Record RetryInput := mkRetryInput {
  ty_workspaceId : string;
  ty_recordId : string;
  ty_executionId : string;
  ty_requestedBy : string;
}.
Definition execution_in (i : RetryInput) (d : RegenDb) : option Execution :=
  e ← gd_executions d !! ty_executionId i;
  let l := xb_lineage (ex_binding e) in
  if (ln_workspaceId l ≡? ty_workspaceId i) && (ln_recordId l ≡? ty_recordId i) then Some e else None.
Definition retry_current (e : Execution) (d : RegenDb) : bool :=
  let b := ex_binding e in let x := gd_records d in
  execution_current b x && contract_current b x
  && match source_snapshot b d, prior_pack b d with
     | Some s, Some p => source_bound b s && priorCustodyIsProven (ln_priorPackId (xb_lineage b)) (xb_sourceSnapshotId b)
                                               (ln_contract (xb_lineage b)) (sr_value s) (kr_value p) x
     | _, _ => false
     end.
Definition same_execution (e e' : Execution) : bool :=
  (ex_binding e ≡? ex_binding e') && (ex_requestEventId e ≡? ex_requestEventId e')
  && (ex_requestEventKey e ≡? ex_requestEventKey e') && (ex_parent e ≡? ex_parent e') && (ex_reason e ≡? ex_reason e').
Definition record_retry (c : Clock) (id : string) (e : Execution) (userId role : string) : regen_tx RetryResult :=
  let requestedBy := "user:" +:+ userId in
  let recordId := ln_recordId (xb_lineage (ex_binding e)) in
  let eventKey := retry_event_key id userId in
  storedEvent ← reads (λ d, oldest ce_created_at (select_where (retry_event_of recordId id) (rd_events (gd_records d))));
  storedRetry ← reads (λ d, head (select_where (child_of id) (gd_executions d)));
  if negb (is_null storedEvent && is_null storedRetry) then
    match storedRetry with
    | Some (cid, child) =>
        if ((fst <$> storedEvent) ≡? Some (ex_requestEventId child)) && (ex_requestEventKey child ≡? eventKey)
        then mret (ry_done false cid child) else mret ry_not_retryable
    | None => mret ry_not_retryable
    end
  else
    let payload := retry_payload id e requestedBy role in
    appended ← append_or_conflict c (mkEventInput recordId eventKey REQUEST_STAGE requestedBy payload None);
    _ ← require_true (isDeepStrictEqual (ce_payload (ar_event appended)) payload) rg_conflict;
    let nid := retry_execution_id (ar_id appended) in
    let next := new_execution c (ex_binding e) (ar_id appended) eventKey (Some id) (ex_reason e) in
    inserted ← insert_execution nid next;
    row ← reads (λ d, gd_executions d !! nid);
    found ← some_or (match inserted with Some e => Some e | None => row end) rg_conflict;
    _ ← require_true (same_execution found next) rg_conflict;
    mret (ry_done (ar_inserted appended) nid found).
Definition retry_tx (c : Clock) (i : RetryInput) (role : option string) : regen_tx RetryResult :=
  match role with
  | Some role =>
      if negb (human_role role) then mret ry_not_authorized
      else
        row ← reads (execution_in i);
        match row with
        | None => mret ry_not_found
        | Some e =>
            if negb (canHumanRetryAcceptanceContextPackRegenerationExecution e) then mret ry_not_retryable
            else
              current ← reads (retry_current e);
              if negb current then mret ry_not_current
              else record_retry c (ty_executionId i) e (actor_user (ty_requestedBy i)) role
        end
  | None => mret ry_not_authorized
  end.
Definition retryAcceptanceContextPackRegenerationExecution (s : RegenDb) (c : Clock) (i : RetryInput) (role : option string)
    (d : RegenDb) : (RegenError + RetryResult) * RegenDb :=
  if negb (isUuid (ty_workspaceId i) && isUuid (ty_recordId i) && isUuid (ty_executionId i) && human_actor (ty_requestedBy i))
  then (inl rg_invalid, d)
  else match execution_in i s with
       | None => (inr ry_not_found, d)
       | Some _ => transaction (retry_tx c i role) d
       end.

(** ** The end of an execution *)

Definition ended (c : Clock) (status : ExecutionStatus) (reason : string) (replacement : option string) (e : Execution)
    : Execution :=
  mkExecution (ex_binding e) (ex_requestEventId e) (ex_requestEventKey e) (ex_parent e) (ex_reason e) status
    (ex_attemptCount e) (ex_maxAttempts e) None None None (ex_deadlineAt e) replacement (Some reason) (Some (js_now c))
    (ex_createdAt e) (js_now c).
Definition is_running (e : Execution) : bool := ex_status e ≡? xs_running.
(** [acceptance_context_pack_regeneration_executions_state_check] *)
Definition state_check (e : Execution) : bool :=
  let running := is_running e in let open := is_running e || (ex_status e ≡? xs_queued) in
  let null_iff (b : bool) {A} (x : option A) := Bool.eqb b (is_null x) in
  null_iff (negb running) (ex_claimedBy e) && null_iff (negb running) (ex_leaseToken e)
  && null_iff (negb running) (ex_leaseExpiresAt e) && null_iff (ex_attemptCount e =? 0) (ex_deadlineAt e)
  && match ex_leaseExpiresAt e, ex_deadlineAt e with Some l, Some deadline => l <=? deadline | _, _ => true end
  && from_option (lower_hex 64) true (ex_leaseToken e)
  && null_iff open (ex_completedAt e) && null_iff open (ex_outcomeReason e)
  && null_iff (ex_status e ≢? xs_replaced) (ex_replacement e).
Definition WORKER_ACTOR : string := "jace:context-pack-regeneration-worker".
(** The reference of the replacement is that of a Pack. *)
Definition replacement_exists (replacement : option string) (d : RegenDb) : bool :=
  from_option (λ p, isUuid p && negb (is_null (gd_packs d !! p))) true replacement.
Definition terminalize (c : Clock) (id : string) (e : Execution) (status : ExecutionStatus) (reason : string)
    (replacement : option string) : regen_tx Execution :=
  let payload := outcome_payload id e status reason replacement in
  appended ← on_records (append_single sha1 c
    (mkEventInput (ln_recordId (xb_lineage (ex_binding e))) (outcome_event_key id) OUTCOME_STAGE WORKER_ACTOR payload None));
  _ ← require_true (isDeepStrictEqual (ce_payload (ar_event appended)) payload) rg_lost_custody;
  known ← reads (replacement_exists replacement);
  _ ← require_true known rg_constraint;
  row ← runs (λ d, let '(row, t) := update_row id is_running (ended c status reason replacement) (gd_executions d) in
                   (row, with_executions t d));
  some_or row rg_lost_custody.

(** ** The lease of a worker *)

Definition ACCEPTANCE_CONTEXT_PACK_REGENERATION_LEASE_MS : Z := milliseconds (60 * 1000).
Definition ACCEPTANCE_CONTEXT_PACK_REGENERATION_EXECUTION_BUDGET_MS : Z := milliseconds (6 * 60 * 1000).
Record LeaseInput := mkLeaseInput { le_executionId : string; le_workerId : string; le_leaseToken : string }.
Definition bounded_worker (s : string) : bool := (1 <=? js_length s) && (js_length s <=? 128).
Definition worker_identity (s : string) : bool :=
  bounded_worker s && (s ≡? trim s) && all_chars (λ c, negb (control_char c)) s.
(** [/^[A-Za-z0-9_-]{43}$/u] *)
Definition lease_token (s : string) : bool := (String.length s =? 43)%nat && all_chars (λ c, is_word c || one_of "-" c) s.
Definition valid_lease (i : LeaseInput) : bool :=
  isUuid (le_executionId i) && worker_identity (le_workerId i) && lease_token (le_leaseToken i).
(** [lte(column, now)] *)
Definition not_after (x : option Z) (now : Z) : bool := from_option (λ t, t <=? now) false x.

Definition lease_exhausted (now : Z) (_ : string) (e : Execution) : bool :=
  is_running e && not_after (ex_leaseExpiresAt e) now && (ex_maxAttempts e <=? ex_attemptCount e).
Definition lease_claimable (now : Z) (_ : string) (e : Execution) : bool :=
  (ex_status e ≡? xs_queued)
  || is_running e && not_after (ex_leaseExpiresAt e) now && (ex_attemptCount e <? ex_maxAttempts e).
Definition leased (now : Z) (workerId token : string) (e : Execution) : Execution :=
  mkExecution (ex_binding e) (ex_requestEventId e) (ex_requestEventKey e) (ex_parent e) (ex_reason e) xs_running
    (ex_attemptCount e + 1) (ex_maxAttempts e) (Some workerId) (Some (sha256 token))
    (Some (now + ACCEPTANCE_CONTEXT_PACK_REGENERATION_LEASE_MS))
    (Some (now + ACCEPTANCE_CONTEXT_PACK_REGENERATION_EXECUTION_BUDGET_MS))
    (ex_replacement e) (ex_outcomeReason e) (ex_completedAt e) (ex_createdAt e) now.
Definition claim_tx (c : Clock) (workerId token : string) : regen_tx (option (string * Execution)) :=
  stuck ← reads (λ d, first_created (select_where (lease_exhausted (js_now c)) (gd_executions d)));
  _ ← (match stuck with
       | Some (id, e) => _ ← terminalize c id e xs_held "lease_attempts_exhausted" None; mret tt
       | None => mret tt
       end);
  candidate ← reads (λ d, first_created (select_where (lease_claimable (js_now c)) (gd_executions d)));
  match candidate with
  | None => mret None
  | Some (id, e) =>
      let e := leased (js_now c) workerId token e in
      _ ← writes (λ d, with_executions (<[id := e]> (gd_executions d)) d);
      mret (Some (id, e))
  end.
(** [token] is the text of the random bytes. *)
Definition claimAcceptanceContextPackRegenerationExecution (c : Clock) (workerId token : string) (d : RegenDb)
    : (RegenError + option (string * Execution)) * RegenDb :=
  if negb (worker_identity workerId) then (inl rg_invalid, d) else transaction (claim_tx c workerId token) d.

(** The WHERE of an owned lease. *)
Definition owned (i : LeaseInput) (now : Z) (e : Execution) : bool :=
  is_running e && (ex_claimedBy e ≡? Some (le_workerId i)) && (ex_leaseToken e ≡? Some (sha256 (le_leaseToken i)))
  && not_before now (ex_leaseExpiresAt e) && not_before now (ex_deadlineAt e).
Definition owned_execution (i : LeaseInput) (now : Z) (d : RegenDb) : option Execution :=
  e ← gd_executions d !! le_executionId i; if owned i now e then Some e else None.
Definition renewed (now expires : Z) (e : Execution) : Execution :=
  mkExecution (ex_binding e) (ex_requestEventId e) (ex_requestEventKey e) (ex_parent e) (ex_reason e) (ex_status e)
    (ex_attemptCount e) (ex_maxAttempts e) (ex_claimedBy e) (ex_leaseToken e) (Some expires) (ex_deadlineAt e)
    (ex_replacement e) (ex_outcomeReason e) (ex_completedAt e) (ex_createdAt e) now.
(** [None] is [not_owned]. *)
Definition renewAcceptanceContextPackRegenerationExecutionLease (c : Clock) (i : LeaseInput) (d : RegenDb)
    : option Z * RegenDb :=
  if negb (valid_lease i) then (None, d)
  else match owned_execution i (js_now c) d with
       | Some e =>
           match ex_deadlineAt e with
           | Some deadline =>
               let expires := Z.min (js_now c + ACCEPTANCE_CONTEXT_PACK_REGENERATION_LEASE_MS) deadline in
               (Some expires, with_executions (<[le_executionId i := renewed (js_now c) expires e]> (gd_executions d)) d)
           | None => (None, d)
           end
       | None => (None, d)
       end.

(** ** Preparing and completing *)

Inductive PrepareResult :=
  | pp_ready (e : Execution) (s : SnapshotRow) (p : PackRow)
  | pp_not_owned
  | pp_not_current
  | pp_not_proven.
Definition refuse {A} (c : Clock) (id : string) (e : Execution) (status : ExecutionStatus) (reason : string) (a : A)
    : regen_tx A := _ ← terminalize c id e status reason None; mret a.
Definition prepare_tx (c : Clock) (i : LeaseInput) : regen_tx PrepareResult :=
  row ← reads (owned_execution i (js_now c));
  match row with
  | None => mret pp_not_owned
  | Some e =>
      let b := ex_binding e in
      let refuse := refuse c (le_executionId i) e in
      x ← reads gd_records;
      if negb (execution_current b x) then refuse xs_not_current "record_head_or_authority_not_current" pp_not_current
      else if negb (contract_current b x) then refuse xs_not_current "confirmed_contract_not_current" pp_not_current
      else
        pack ← reads (prior_pack b);
        snapshot ← reads (source_snapshot b);
        match pack with
        | None => refuse xs_not_proven "prior_pack_not_proven" pp_not_proven
        | Some p =>
            match snapshot with
            | Some s => if source_bound b s then mret (pp_ready e s p)
                        else refuse xs_not_proven "source_binding_not_proven" pp_not_proven
            | None => refuse xs_not_proven "source_binding_not_proven" pp_not_proven
            end
        end
  end.
Definition prepareAcceptanceContextPackRegenerationExecution (c : Clock) (i : LeaseInput) (d : RegenDb)
    : (RegenError + PrepareResult) * RegenDb :=
  if negb (valid_lease i) then (inr pp_not_owned, d) else transaction (prepare_tx c i) d.

Record CompleteInput := mkCompleteInput {
  co_lease : LeaseInput;
  co_outcome : ExecutionStatus;
  co_replacement : option string;
  co_reason : string;
}.
Definition valid_completion (i : CompleteInput) : bool :=
  isUuid (le_executionId (co_lease i)) && bounded_worker (le_workerId (co_lease i)) && lease_token (le_leaseToken (co_lease i))
  && bool_decide (co_outcome i ∈ [xs_replaced; xs_unchanged; xs_not_proven; xs_held])
  && (1 <=? js_length (co_reason i)) && (js_length (co_reason i) <=? 128)
  && Bool.eqb (co_outcome i ≡? xs_replaced) (from_option isUuid false (co_replacement i)).
(** The replacement and the prior snapshot are of the same source. *)
Definition same_source (s s' : Snapshot) : bool :=
  (sn_baseSha s ≡? sn_baseSha s') && (sn_mergeBaseSha s ≡? sn_mergeBaseSha s') && (sn_headTreeSha s ≡? sn_headTreeSha s')
  && (sn_packetSetSha256 s ≡? sn_packetSetSha256 s') && (sn_payloadSetSha256 s ≡? sn_payloadSetSha256 s')
  && isDeepStrictEqual (sn_overlay s) (sn_overlay s').
Definition replacement_bound (id packId : string) (b : ExecutionBinding) (p : PackRow) (s prior : SnapshotRow) : bool :=
  let l := xb_lineage b in
  (packId ≢? ln_priorPackId l) && (kr_generation p ≡? provisional) && (kr_execution p ≡? Some id)
  && (sr_generation prior ≡? active)
  && (if pk_sourceSnapshotId (kr_value p) ≡? xb_sourceSnapshotId b then sr_generation s ≡? active
      else (sr_generation s ≡? provisional) && (sr_execution s ≡? Some id))
  && (sn_recordId (sr_value s) ≡? ln_recordId l) && (sn_reviewJobId (sr_value s) ≡? ln_headCycleId l)
  && (sn_expectedHeadSha (sr_value s) ≡? xb_headSha b) && bound_to_contract (sr_value s) (ln_contract l)
  && same_source (sr_value s) (sr_value prior).
Definition replacement_rows (packId : string) (b : ExecutionBinding) (d : RegenDb) : option (PackRow * SnapshotRow * SnapshotRow) :=
  let ws := ln_workspaceId (xb_lineage b) in
  p ← gd_packs d !! packId;
  s ← snapshot_in ws (pk_sourceSnapshotId (kr_value p)) (gd_snapshots d);
  prior ← snapshot_in ws (xb_sourceSnapshotId b) (gd_snapshots d);
  if pk_workspaceId (kr_value p) ≡? ws then Some (p, s, prior) else None.
Definition replacement_custody (id packId : string) (b : ExecutionBinding) (p : PackRow) (d : RegenDb) : bool :=
  let snapshotId := pk_sourceSnapshotId (kr_value p) in
  match resolveAcceptanceContextPackCustodyInTransaction sha256 (ln_workspaceId (xb_lineage b)) snapshotId (Some id) d with
  | inr (s, _) => pack_proven packMatches (gd_records d) packId snapshotId (sr_value s) (kr_value p)
  | inl _ => false
  end.
Definition supersede_pack (p : PackRow) : PackRow := mkPackRow (kr_value p) superseded (kr_execution p) (kr_created_at p).
Definition activate_pack (p : PackRow) : PackRow := mkPackRow (kr_value p) active None (kr_created_at p).
Definition supersede_snapshot (s : SnapshotRow) : SnapshotRow :=
  mkSnapshotRow (sr_value s) superseded (sr_execution s) (sr_created_at s).
Definition activate_snapshot (s : SnapshotRow) : SnapshotRow := mkSnapshotRow (sr_value s) active None (sr_created_at s).
Definition one_pack (ws id : string) (p : PackRow → bool) (f : PackRow → PackRow) : regen_tx unit :=
  row ← runs (λ d, let '(row, t) := update_row id (λ r, (pk_workspaceId (kr_value r) ≡? ws) && p r) f (gd_packs d) in
                   (row, with_packs t d));
  _ ← some_or row rg_lost_custody; mret tt.
Definition one_snapshot (ws id : string) (p : SnapshotRow → bool) (f : SnapshotRow → SnapshotRow) : regen_tx unit :=
  row ← runs (λ d, let '(row, t) := update_row id (λ r, (sn_workspaceId (sr_value r) ≡? ws) && p r) f (gd_snapshots d) in
                   (row, with_snapshots t d));
  _ ← some_or row rg_lost_custody; mret tt.
Definition swap_generations (id packId : string) (b : ExecutionBinding) (p : PackRow) : regen_tx unit :=
  let ws := ln_workspaceId (xb_lineage b) in
  _ ← one_pack ws (ln_priorPackId (xb_lineage b)) (λ r, kr_generation r ≡? active) supersede_pack;
  _ ← one_pack ws packId (λ r, (kr_generation r ≡? provisional) && (kr_execution r ≡? Some id)) activate_pack;
  if pk_sourceSnapshotId (kr_value p) ≡? xb_sourceSnapshotId b then mret tt
  else
    _ ← one_snapshot ws (xb_sourceSnapshotId b) (λ r, sr_generation r ≡? active) supersede_snapshot;
    one_snapshot ws (pk_sourceSnapshotId (kr_value p)) (λ r, (sr_generation r ≡? provisional) && (sr_execution r ≡? Some id))
      activate_snapshot.
Definition complete_tx (c : Clock) (i : CompleteInput) : regen_tx (option Execution) :=
  let id := le_executionId (co_lease i) in
  row ← reads (owned_execution (co_lease i) (js_now c));
  match row with
  | None => mret None
  | Some e =>
      let b := ex_binding e in
      let finish status reason replacement := (r ← terminalize c id e status reason replacement; mret (Some r)) in
      x ← reads gd_records;
      if (co_outcome i ≢? xs_held) && negb (execution_current b x && contract_current b x)
      then finish xs_not_current "completion_binding_not_current" None
      else match co_outcome i, co_replacement i with
           | xs_replaced, Some packId =>
               rows ← reads (replacement_rows packId b);
               match rows with
               | Some (p, s, prior) =>
                   if negb (replacement_bound id packId b p s prior)
                   then finish xs_not_proven "replacement_binding_not_proven" None
                   else
                     proven ← reads (replacement_custody id packId b p);
                     if negb proven then finish xs_not_proven "replacement_custody_not_proven" None
                     else _ ← swap_generations id packId b p; finish xs_replaced (co_reason i) (Some packId)
               | None => finish xs_not_proven "replacement_binding_not_proven" None
               end
           | outcome, replacement => finish outcome (co_reason i) replacement
           end
  end.
(** [None] is [not_owned]. *)
Definition completeAcceptanceContextPackRegenerationExecution (c : Clock) (i : CompleteInput) (d : RegenDb)
    : (RegenError + option Execution) * RegenDb :=
  if negb (valid_completion i) then (inr None, d) else transaction (complete_tx c i) d.

(** ** The executor

    Several transactions in a row, each committed before the next; [None] is an
    exception that leaves what was committed. *)

Definition act (A : Type) : Type := RegenDb → option A * RegenDb.
Definition committed_run {E A} (f : RegenDb → (E + A) * RegenDb) : act A := λ d,
  match f d with (inr a, d') => (Some a, d') | (inl _, d') => (None, d') end.
Definition and_then {A B} (m : act A) (f : A → act B) : act B := λ d,
  match m d with (Some a, d') => f a d' | (None, d') => (None, d') end.
Definition done {A} (a : A) : act A := λ d, (Some a, d).

(** What the executor learns outside the database: the repository, the index of
    its Wiki, the credential, the content of the head, and the compiler. *)
Record Outside := mkOutside {
  ou_repository : bool;
  ou_baseIndex : json;
  ou_token : bool;
  ou_content : option string;
  ou_compile : string → Snapshot → string + Pack;
  ou_COMPILER_VERSION : string;
  ou_POLICY_VERSION : string;
}.
Inductive ExecuteResult := er_prepared (r : PrepareResult) | er_completed (e : option Execution).

Definition has_sources (s : Snapshot) : bool :=
  negb (is_null (truthy_text (sn_baseSha s))) && negb (is_null (truthy_text (sn_mergeBaseSha s)))
  && negb (is_null (truthy_text (sn_headTreeSha s))) && (sn_overlay s ≢? JNull).
Definition field_list (v : json) (key : string) : list json := default [] (array_at v key).
Definition regeneration_provenance (baseIndex overlay : json) : json :=
  let path_of key v := match json_field v key with Some p => [("path", p)] | None => [] end in
  JObj [("schemaVersion", jint 1);
        ("included", JArr (((λ v, JObj (path_of "slug" v ++ [("source", JStr "base_index"); ("reason", JStr "server_wiki_background")]))
                              <$> field_list baseIndex "pages")
                           ++ ((λ v, JObj (path_of "path" v ++ [("source", JStr "overlay"); ("reason", JStr "exact_base_to_head_compare")]))
                                 <$> field_list overlay "files")));
        ("excluded", JArr ((λ reason, JObj [("path", JNull); ("source", JStr "base_index"); ("reason", reason)])
                             <$> field_list baseIndex "gaps"))].
Definition regenerated_snapshot (o : Outside) (s : Snapshot) : Snapshot :=
  mkSnapshot (sn_workspaceId s) (sn_recordId s) (sn_reviewJobId s) (sn_contractId s) (sn_contractVersion s)
    (sn_contractSha256 s) (sn_repo s) (sn_prNumber s) (sn_expectedHeadSha s) (sn_baseSha s) (sn_mergeBaseSha s)
    (sn_headTreeSha s) (sn_packetIds s) (sn_packetSetSha256 s) (sn_payloadSetSha256 s)
    ("exact-head-regeneration-v1-" +:+ default "" (text_at (ou_baseIndex o) "revisionSha256")) (ou_baseIndex o) (sn_overlay s)
    (regeneration_provenance (ou_baseIndex o) (sn_overlay s)) "admitted" None.

(** [at_ n] is the clock of the n-th transaction. *)
Definition finish (at_ : nat → Clock) (i : LeaseInput) (outcome : ExecutionStatus) (replacement : option string) (reason : string)
    : act ExecuteResult :=
  and_then (committed_run (completeAcceptanceContextPackRegenerationExecution (at_ 4%nat)
                             (mkCompleteInput i outcome replacement reason)))
    (λ e, done (er_completed e)).
(** The snapshot the new Pack is compiled from, with its id. *)
Definition regeneration_source (at_ : nat → Clock) (i : LeaseInput) (o : Outside) (unchanged : bool) (e : Execution)
    (s : Snapshot) : act (string * SnapshotRow) :=
  let resolve id := and_then (committed_run (transaction
                      (resolveAcceptanceContextPackCustodyInTransaction sha256 (sn_workspaceId s) id (Some (le_executionId i)))))
                      (λ row, done (id, row)) in
  if unchanged then resolve (xb_sourceSnapshotId (ex_binding e))
  else and_then (committed_run (transaction (recordAcceptanceContextPackSnapshot sha1 sha256 (at_ 1%nat) (regenerated_snapshot o s)
                                               (Some (le_executionId i)))))
         (λ r, resolve r.1.1).
Definition execute_body (at_ : nat → Clock) (i : LeaseInput) (o : Outside) : act ExecuteResult :=
  let finish := finish at_ i in
  and_then (committed_run (prepareAcceptanceContextPackRegenerationExecution (at_ 0%nat) i)) (λ prepared,
  match prepared with
  | pp_ready e row p =>
      let s := sr_value row in
      if negb (has_sources s) then finish xs_not_proven None "exact_snapshot_not_proven"
      else if negb (ou_repository o) then finish xs_not_proven None "wiki_repository_not_proven"
      else
        let unchanged := text_at (sn_baseIndex s) "revisionSha256" ≡? text_at (ou_baseIndex o) "revisionSha256" in
        if unchanged && (pk_compilerVersion (kr_value p) ≡? ou_COMPILER_VERSION o)
           && (pk_policyVersion (kr_value p) ≡? ou_POLICY_VERSION o)
        then finish xs_unchanged None "compiler_output_unchanged"
        else
          and_then (regeneration_source at_ i o unchanged e s) (λ custody,
          if negb (ou_token o) then finish xs_held None "github_credential_unavailable"
          else match ou_content o with
               | Some reason => finish xs_not_proven None ("exact_content_" +:+ reason)
               | None =>
                   match ou_compile o custody.1 (sr_value custody.2) with
                   | inl reason => finish xs_not_proven None ("pack_compilation_" +:+ reason)
                   | inr pack =>
                       and_then (committed_run (transaction (recordAcceptanceCompiledContextPack sha1 sha256 (at_ 3%nat) pack
                                                               (Some (le_executionId i)))))
                         (λ r, if r.1.1 ≡? ln_priorPackId (xb_lineage (ex_binding e))
                               then finish xs_unchanged None "compiler_output_unchanged"
                               else finish xs_replaced (Some r.1.1) "compiler_output_replaced")
                   end
               end)
  | r => done (er_prepared r)
  end).
(** [catch { return await finish("held", "execution_ambiguous") }] *)
Definition executeAcceptanceContextPackRegeneration (at_ : nat → Clock) (i : LeaseInput) (o : Outside) : act ExecuteResult := λ d,
  match execute_body at_ i o d with
  | (Some r, d') => (Some r, d')
  | (None, d') => finish at_ i xs_held None "execution_ambiguous" d'
  end.
End Regeneration.
