(* ===== verification/RegenerationFacts.v ===== *)
(** * RegenerationFacts: what the regeneration of a Context Pack guarantees

    The table of executions is a machine: an execution is created, claimed at
    most once, renewed by its holder and ended once.  The statements of
    [Regeneration] implement that machine over every history, and its invariants
    are the checks and the keys of the schema.  A completion exchanges the two
    generations of a Pack in one transaction. *)

From S2P Require Import Prelude Table Regex QueueText Intake ReviewJobs Tx RecordSchema JsonText Timeline.
From S2P Require Import ChangeRecords PrHead JsonValue ContextPacks Regeneration.
From Stdlib Require Import QArith.
Open Scope Z_scope.

Section Facts.
Context (sha1 : list Z → list Z) (sha256 : string → string) {CC : ContextCustody}.

Notation LEASE := ACCEPTANCE_CONTEXT_PACK_REGENERATION_LEASE_MS.
Notation retryable := canHumanRetryAcceptanceContextPackRegenerationExecution.

(** ** The abstract machine *)

(** A row as a request or a retry writes it. *)
Definition fresh_execution (e : Execution) : Prop :=
  ∃ c b eventId eventKey parent reason, e = new_execution c b eventId eventKey parent reason.
Definition outcome_of (status : ExecutionStatus) (replacement : option string) : Prop :=
  match status with
  | xs_queued | xs_running => False
  | xs_replaced => is_Some replacement
  | _ => replacement = None
  end.
(** Who may end an execution: its holder, or anyone once its lease is over, and
    then only as held. *)
Inductive may_end (e : Execution) (now : Z) : ExecutionStatus → string → Prop :=
  | end_by_holder i status reason : owned sha256 i now e = true → may_end e now status reason
  | end_expired : not_after (ex_leaseExpiresAt e) now = true → may_end e now xs_held "lease_attempts_exhausted".

Inductive move (t : executions) : executions → Prop :=
  | mv_root id e : taken id e t = false → fresh_execution e → ex_parent e = None → move t (<[id := e]> t)
  | mv_child id e p parent : taken id e t = false → fresh_execution e → ex_parent e = Some p →
      t !! p = Some parent → retryable parent = true → ex_binding e = ex_binding parent → move t (<[id := e]> t)
  | mv_claim id e now worker token : t !! id = Some e → ex_status e = xs_queued →
      move t (<[id := leased sha256 now worker token e]> t)
  | mv_renew id e i now deadline : t !! id = Some e → owned sha256 i now e = true → ex_deadlineAt e = Some deadline →
      move t (<[id := renewed now (Z.min (now + LEASE) deadline) e]> t)
  | mv_end id e c status reason replacement : t !! id = Some e → is_running e = true →
      may_end e (js_now c) status reason → outcome_of status replacement →
      move t (<[id := ended c status reason replacement e]> t).

(** ** The steps of the program *)

(** [st_records] is any step of the rest of the program on the Change Records. *)
Inductive regen_step (d : RegenDb) : RegenDb → Prop :=
  | st_records x : regen_step d (with_gd_records x d)
  | st_snapshot c s execution :
      regen_step d (transaction (recordAcceptanceContextPackSnapshot sha1 sha256 c s execution) d).2
  | st_pack c p execution :
      regen_step d (transaction (recordAcceptanceCompiledContextPack sha1 sha256 c p execution) d).2
  | st_request s c i role :
      regen_step d (recordAcceptanceContextPackRegenerationRequest sha1 sha256 s c i role d).2
  | st_retry s c i role : regen_step d (retryAcceptanceContextPackRegenerationExecution sha1 sha256 s c i role d).2
  | st_claim c worker token :
      regen_step d (claimAcceptanceContextPackRegenerationExecution sha1 sha256 c worker token d).2
  | st_renew c i : regen_step d (renewAcceptanceContextPackRegenerationExecutionLease sha256 c i d).2
  | st_prepare c i : regen_step d (prepareAcceptanceContextPackRegenerationExecution sha1 sha256 c i d).2
  | st_complete c i : regen_step d (completeAcceptanceContextPackRegenerationExecution sha1 sha256 c i d).2.

(** ** Statements that leave the executions, or the generations, alone *)

Definition same_executions (d d' : RegenDb) : Prop := gd_executions d' = gd_executions d.
#[local] Instance same_executions_preorder : PreOrder same_executions.
Proof. split; [done|]. intros x y z. unfold same_executions. congruence. Qed.
(** The tables of the Context Packs are the same. *)
Definition same_generations (d d' : RegenDb) : Prop :=
  gd_packs d' = gd_packs d ∧ gd_snapshots d' = gd_snapshots d.
#[local] Instance same_generations_preorder : PreOrder same_generations.
Proof. split; [done|]. intros x y z [] []. unfold same_generations. split; congruence. Qed.

Lemma on_records_inr {A} (m : record_tx A) d a d' : on_records m d = inr (a, d') →
  ∃ x, m (gd_records d) = inr (a, x) ∧ d' = with_gd_records x d.
Proof. unfold on_records. destruct (m _) as [|[b x]]; [done|]. intros [= <- <-]. eauto. Qed.
Lemma on_records_executions {A} (m : record_tx A) : keeps same_executions (on_records m).
Proof. by intros d a d' (x & _ & ->)%on_records_inr. Qed.
Lemma on_records_generations {A} (m : record_tx A) : keeps same_generations (on_records m).
Proof. by intros d a d' (x & _ & ->)%on_records_inr. Qed.
Lemma append_or_conflict_inr c i d a d' : append_or_conflict sha1 c i d = inr (a, d') →
  on_records (append_single sha1 c i) d = inr (a, d').
Proof. unfold append_or_conflict. destruct (on_records _ d) as [[[]| | | | | | |]|]; done. Qed.
Lemma append_executions c i : keeps same_executions (append_or_conflict sha1 c i).
Proof. intros d a d' H%append_or_conflict_inr. by eapply on_records_executions. Qed.
Lemma insert_snapshot_executions id r : keeps same_executions (insert_snapshot id r).
Proof. intros d a d'. unfold insert_snapshot. destruct (_ && _); [|done]. by intros [= <- <-]. Qed.
Lemma insert_pack_executions id r : keeps same_executions (insert_pack id r).
Proof. intros d a d'. unfold insert_pack. destruct (_ && _); [|done]. by intros [= <- <-]. Qed.
Lemma one_pack_executions ws id p f : keeps same_executions (one_pack ws id p f).
Proof. unfold one_pack. keeps. apply keeps_runs. intros d. by destruct (update_row _ _ _ _). Qed.
Lemma one_snapshot_executions ws id p f : keeps same_executions (one_snapshot ws id p f).
Proof. unfold one_snapshot. keeps. apply keeps_runs. intros d. by destruct (update_row _ _ _ _). Qed.
#[local] Hint Resolve on_records_executions append_executions insert_snapshot_executions insert_pack_executions
  one_pack_executions one_snapshot_executions on_records_generations : agentrail.
Lemma custody_executions ws id x :
  keeps same_executions (resolveAcceptanceContextPackCustodyInTransaction sha256 ws id x).
Proof. unfold resolveAcceptanceContextPackCustodyInTransaction. keeps. Qed.
#[local] Hint Resolve custody_executions : agentrail.
Lemma record_snapshot_executions c s x : keeps same_executions (recordAcceptanceContextPackSnapshot sha1 sha256 c s x).
Proof. unfold recordAcceptanceContextPackSnapshot. keeps. Qed.
Lemma record_pack_executions c p x : keeps same_executions (recordAcceptanceCompiledContextPack sha1 sha256 c p x).
Proof. unfold recordAcceptanceCompiledContextPack. keeps. Qed.
Lemma swap_executions id packId b p : keeps same_executions (swap_generations id packId b p).
Proof. unfold swap_generations. keeps. Qed.

(** ** Inserting and ending an execution *)

Lemma insert_execution_inr id e d row d' : insert_execution id e d = inr (row, d') →
  (row = None ∧ d' = d)
  ∨ (row = Some e ∧ taken id e (gd_executions d) = false
     ∧ d' = with_executions (<[id := e]> (gd_executions d)) d).
Proof.
  unfold insert_execution. destruct (negb (binding_check id e)); [done|].
  destruct (taken id e _) eqn:T; [intros [= <- <-]; by left|].
  destruct (references_exist d e); [|done]. intros [= <- <-]. by right.
Qed.

Lemma terminalize_inr c id e status reason replacement d row d' :
  terminalize sha1 c id e status reason replacement d = inr (row, d') →
  ∃ e0, gd_executions d !! id = Some e0 ∧ is_running e0 = true
    ∧ row = ended c status reason replacement e0
    ∧ gd_executions d' = <[id := row]> (gd_executions d) ∧ same_generations d d'
    ∧ replacement_exists replacement d = true.
Proof.
  unfold terminalize. intros H. tx_inv.
  match goal with H : on_records _ _ = inr _ |- _ => apply on_records_inr in H as (y & _ & ->) end.
  match goal with H : (let '(_, _) := update_row _ _ ?f ?t in _) = _ |- _ =>
    destruct (update_rowP is_running f id t) as [e0 He Hr|]; simplify_eq end.
  exists e0. done.
Qed.

(** ** The program implements the machine *)

(** The statements of the queue move the table as the machine does, given that
    its rows are those the machine can produce. *)
Definition moves (d d' : RegenDb) : Prop := rtc move (gd_executions d) (gd_executions d').

Lemma same_moves d d' : same_executions d d' → moves d d'.
Proof. unfold moves. intros ->. apply rtc_refl. Qed.
Lemma keeps_same_moves {A} (m : regen_tx A) d : keeps same_executions m → moves d (transaction m d).2.
Proof. intros H. apply same_moves, keeps_transaction; [apply _|done]. Qed.

Lemma end_moves c id e status reason replacement d row d' :
  terminalize sha1 c id e status reason replacement d = inr (row, d') →
  gd_executions d !! id = Some e → may_end e (js_now c) status reason → outcome_of status replacement →
  move (gd_executions d) (gd_executions d').
Proof.
  intros (e0 & He & Hr & -> & -> & _)%terminalize_inr H Hm Ho. simplify_eq. by eapply mv_end.
Qed.
Lemma owned_execution_Some i now d e : owned_execution sha256 i now d = Some e →
  gd_executions d !! le_executionId i = Some e ∧ owned sha256 i now e = true.
Proof.
  unfold owned_execution. destruct (_ !! _) as [e0|]; cbn [mbind option_bind]; [|done].
  destruct (owned _ _ _ e0) eqn:E; [|done]. by intros [= ->].
Qed.

#[local] Instance moves_preorder : PreOrder moves.
Proof. split; [intros d; apply rtc_refl|]. intros x y z. unfold moves; apply transitivity. Qed.
Lemma keeps_moves {A} (m : regen_tx A) : keeps same_executions m → keeps moves m.
Proof. intros H d a d' Hm. by eapply same_moves, H. Qed.
Lemma new_execution_fresh c b eventId eventKey parent reason :
  fresh_execution (new_execution c b eventId eventKey parent reason).
Proof. unfold fresh_execution. eauto 10. Qed.
#[local] Hint Resolve keeps_moves new_execution_fresh : agentrail.

Lemma insert_root_moves id c b eventId eventKey reason :
  keeps moves (insert_execution id (new_execution c b eventId eventKey None reason)).
Proof.
  intros d a d' [[_ ->]|(_ & Ht & ->)]%insert_execution_inr; [done|].
  apply rtc_once, mv_root; [done|apply new_execution_fresh|done].
Qed.
#[local] Hint Resolve insert_root_moves : agentrail.
Lemma record_request_moves c i role q : keeps moves (record_request sha1 c i role q).
Proof. unfold record_request. keeps. Qed.
Lemma record_retry_moves c id e userId role d a d' : record_retry sha1 c id e userId role d = inr (a, d') →
  gd_executions d !! id = Some e → retryable e = true → moves d d'.
Proof.
  unfold record_retry. intros H He Hr. tx_inv. case_match.
  - repeat case_match; tx_inv; by apply same_moves.
  - tx_inv.
    match goal with H : append_or_conflict _ _ _ _ = inr _ |- _ => apply append_executions in H; rename H into Ha end.
    match goal with H : insert_execution _ _ _ = inr _ |- _ => apply insert_execution_inr in H as [[-> ->]|(-> & Ht & ->)] end.
    + by apply same_moves.
    + unfold moves. cbn [gd_executions with_executions]. rewrite Ha in Ht |- *.
      apply rtc_once. by eapply mv_child; eauto using new_execution_fresh.
Qed.
#[local] Hint Resolve record_request_moves : agentrail.

(** ** The invariant of the machine *)

(** What a row holds, by its status: the schema's check, and the one attempt. *)
Definition shape (e : Execution) : Prop :=
  match ex_status e with
  | xs_queued => ex_attemptCount e = 0 ∧ ex_claimedBy e = None ∧ ex_leaseToken e = None ∧ ex_leaseExpiresAt e = None
      ∧ ex_deadlineAt e = None ∧ ex_completedAt e = None ∧ ex_outcomeReason e = None ∧ ex_replacement e = None
  | xs_running => ex_attemptCount e = 1 ∧ is_Some (ex_claimedBy e) ∧ (∃ h, ex_leaseToken e = Some h ∧ lower_hex 64 h = true)
      ∧ (∃ l deadline, ex_leaseExpiresAt e = Some l ∧ ex_deadlineAt e = Some deadline ∧ l ≤ deadline)
      ∧ ex_completedAt e = None ∧ ex_outcomeReason e = None ∧ ex_replacement e = None
  | status => ex_attemptCount e = 1 ∧ ex_claimedBy e = None ∧ ex_leaseToken e = None ∧ ex_leaseExpiresAt e = None
      ∧ is_Some (ex_deadlineAt e) ∧ is_Some (ex_completedAt e) ∧ is_Some (ex_outcomeReason e)
      ∧ match ex_replacement e with Some _ => status = xs_replaced | None => status ≠ xs_replaced end
  end.
Record consistent (t : executions) : Prop := mkConsistent {
  cs_shape id e : t !! id = Some e → ex_maxAttempts e = 1 ∧ shape e;
  cs_child id1 id2 e1 e2 : t !! id1 = Some e1 → t !! id2 = Some e2 →
    ex_parent e1 = ex_parent e2 → ex_parent e1 ≠ None → id1 = id2;
  cs_root id1 id2 e1 e2 : t !! id1 = Some e1 → t !! id2 = Some e2 →
    ex_parent e1 = None → ex_parent e2 = None →
    xb_lineage (ex_binding e1) = xb_lineage (ex_binding e2) →
    xb_intentGeneration (ex_binding e1) = xb_intentGeneration (ex_binding e2) → id1 = id2;
  cs_parent id e p : t !! id = Some e → ex_parent e = Some p →
    ∃ parent, t !! p = Some parent ∧ retryable parent = true ∧ ex_binding parent = ex_binding e;
}.

Context (sha256_hex : ∀ s, lower_hex 64 (sha256 s) = true).

Lemma shape_state_check e : shape e → state_check e = true.
Proof.
  unfold shape, state_check, is_running.
  destruct e as [b ev ek p r st a m cb lt le dl rep out comp cr up]; cbn.
  destruct st, rep; intros H;
    repeat match goal with
    | H : is_Some _ |- _ => destruct H as [? ->]
    | H : ∃ _, _ |- _ => destruct H as [? H]
    | H : _ ∧ _ |- _ => destruct H as [? H]
    | H : (_ <= _)%Z |- _ => apply Z.leb_le in H
    end; subst; cbn; try done; by repeat match goal with H : _ = true |- _ => rewrite H end.
Qed.

(** The rows of a move. *)
Lemma fresh_shape e : fresh_execution e → ex_maxAttempts e = 1 ∧ shape e.
Proof. intros (c & b & ev & k & p & r & ->). by split. Qed.
Lemma leased_shape now worker token e : shape e → ex_status e = xs_queued → shape (leased sha256 now worker token e).
Proof.
  unfold shape. intros H Hq. rewrite Hq in H. destruct H as (Ha & _ & _ & _ & _ & H). cbn. rewrite Ha.
  split_and!; try apply H; try done; [eauto|]. do 2 eexists. split_and!; [done|done|].
  unfold ACCEPTANCE_CONTEXT_PACK_REGENERATION_LEASE_MS, ACCEPTANCE_CONTEXT_PACK_REGENERATION_EXECUTION_BUDGET_MS, milliseconds. lia.
Qed.
Lemma owned_running i now e : owned sha256 i now e = true → ex_status e = xs_running.
Proof. unfold owned, is_running. intros H. by bools. Qed.
Lemma renewed_shape i now deadline e : shape e → owned sha256 i now e = true → ex_deadlineAt e = Some deadline →
  shape (renewed now (Z.min (now + LEASE) deadline) e).
Proof.
  unfold shape. intros H Ho%owned_running Hd. rewrite Ho in H. cbn. rewrite Ho.
  split_and!; try apply H. do 2 eexists. split_and!; [done|done|lia].
Qed.
Lemma ended_shape c status reason replacement e : shape e → is_running e = true → outcome_of status replacement →
  shape (ended c status reason replacement e).
Proof.
  unfold shape, is_running. intros H Hr Ho. bools. rewrite Hr in H. destruct H as (Ha & _ & _ & (? & ? & _ & Hd & _) & _).
  cbn. rewrite Hd.
  destruct status, replacement; try discriminate Ho; try (by destruct Ho); split_and!; eauto.
Qed.

Lemma taken_false id e t : taken id e t = false → t !! id = None ∧ ∀ k r, t !! k = Some r →
  match ex_parent e with
  | None => ex_parent r = None → xb_lineage (ex_binding r) = xb_lineage (ex_binding e) →
            xb_intentGeneration (ex_binding r) ≠ xb_intentGeneration (ex_binding e)
  | Some p => ex_parent r ≠ Some p
  end.
Proof.
  unfold taken. intros [Hid Hall]%orb_false_iff. split; [by destruct (t !! id)|]. intros k r Hk.
  apply elem_of_map_to_list in Hk. match type of Hall with existsb ?f ?l = _ => assert (H : f (k, r) = false) end.
  { apply not_true_iff_false. intros Hf. apply not_true_iff_false in Hall. apply Hall, existsb_exists.
    exists (k, r). by rewrite <- list_elem_of_In. }
  cbn in H. apply orb_false_iff in H as [_ H].
  destruct (ex_parent e) as [p|]; unfold child_of, root_of in H.
  - by bools.
  - intros Hp Hl Hg. rewrite Hp, Hl, Hg, bool_decide_eq_true_2, Z.eqb_refl in H by done. done.
Qed.

(** A row that a move replaces keeps its key, and it is not one with a child. *)
Lemma touch_consistent t id e e' : consistent t → t !! id = Some e → ex_maxAttempts e' = 1 ∧ shape e' →
  ex_parent e' = ex_parent e → ex_binding e' = ex_binding e → retryable e = false → consistent (<[id := e']> t).
Proof.
  intros [Hs Hc Hr Hp] He He' Hpar Hb Hn.
  assert (Hold : ∀ k r, <[id := e']> t !! k = Some r →
            ∃ r0, t !! k = Some r0 ∧ ex_parent r = ex_parent r0 ∧ ex_binding r = ex_binding r0).
  { intros k r [[<- <-]|[_ H]]%lookup_insert_Some; eauto. }
  split.
  - intros k r [[<- <-]|[_ H]]%lookup_insert_Some; eauto.
  - intros k1 k2 r1 r2 (? & H1 & P1 & _)%Hold (? & H2 & P2 & _)%Hold. rewrite P1, P2. by apply Hc.
  - intros k1 k2 r1 r2 (? & H1 & P1 & B1)%Hold (? & H2 & P2 & B2)%Hold. rewrite P1, P2, B1, B2. by apply Hr.
  - intros k r p (r0 & H & P & B)%Hold. rewrite P, B. intros Hp0.
    destruct (Hp _ _ _ H Hp0) as (parent & H1 & H2 & H3). exists parent. split; [|done].
    rewrite lookup_insert_ne; [done|]. intros ->. congruence.
Qed.

Lemma insert_consistent t id e : consistent t → taken id e t = false → fresh_execution e →
  (∀ p, ex_parent e = Some p → ∃ parent, t !! p = Some parent ∧ retryable parent = true ∧ ex_binding parent = ex_binding e) →
  consistent (<[id := e]> t).
Proof.
  intros [Hs Hc Hr Hp] [Hid Hk]%taken_false Hf He. split.
  - intros k r [[<- <-]|[_ H]]%lookup_insert_Some; [by apply fresh_shape|eauto].
  - intros k1 k2 r1 r2 [[<- <-]|[_ H1]]%lookup_insert_Some [[<- <-]|[_ H2]]%lookup_insert_Some; [done| | |by apply Hc].
    + intros E N. destruct (ex_parent e) as [p|] eqn:P; [|done]. by destruct (Hk _ _ H2).
    + intros E N. destruct (ex_parent e) as [p|] eqn:P; [|by rewrite E in N]. by destruct (Hk _ _ H1).
  - intros k1 k2 r1 r2 [[<- <-]|[_ H1]]%lookup_insert_Some [[<- <-]|[_ H2]]%lookup_insert_Some P1 P2 L G;
      [done| | |by eapply Hr]; exfalso.
    + specialize (Hk _ _ H2). rewrite P1 in Hk. by apply Hk.
    + specialize (Hk _ _ H1). rewrite P2 in Hk. by apply Hk.
  - intros k r p H P.
    assert (∃ parent, t !! p = Some parent ∧ retryable parent = true ∧ ex_binding parent = ex_binding r) as (q & Hq & ?).
    { apply lookup_insert_Some in H as [[<- <-]|[_ H]]; eauto. }
    exists q. split; [|done]. rewrite lookup_insert_ne; [done|]. intros ->. congruence.
Qed.

(** Only a row that has ended can be retried. *)
Lemma retryable_ended e : retryable e = true → ex_status e ≠ xs_queued ∧ ex_status e ≠ xs_running ∧ ex_parent e = None.
Proof.
  unfold canHumanRetryAcceptanceContextPackRegenerationExecution. intros [Hp H]%andb_true_iff.
  destruct (ex_parent e); [done|]. by destruct (ex_status e).
Qed.
Lemma open_not_retryable e : ex_status e = xs_queued ∨ ex_status e = xs_running → retryable e = false.
Proof. intros H. apply not_true_iff_false. intros (? & ? & _)%retryable_ended. tauto. Qed.

Lemma move_consistent t t' : consistent t → move t t' → consistent t'.
Proof.
  intros Ht H.
  assert (Hrow : ∀ id e, t !! id = Some e → ex_maxAttempts e = 1 ∧ shape e) by apply Ht.
  destruct H as [id e Hk Hf Hn|id e p parent Hk Hf Hp H1 H2 H3|id e now w token He Hq|id e i now deadline He Ho Hd
                |id e c status reason replacement He Hr _ Ho].
  - apply insert_consistent; [done..|]. congruence.
  - apply insert_consistent; [done..|]. intros ? E. rewrite Hp in E. injection E as <-. eauto.
  - destruct (Hrow _ _ He). eapply touch_consistent; [done|done| |done|done|apply open_not_retryable; by left].
    split; [done|]. by apply leased_shape.
  - destruct (Hrow _ _ He). eapply touch_consistent; [done|done| |done|done|].
    + split; [done|]. by eapply renewed_shape.
    + apply open_not_retryable. right. by eapply owned_running.
  - destruct (Hrow _ _ He). eapply touch_consistent; [done|done| |done|done|].
    + split; [done|]. by apply ended_shape.
    + apply open_not_retryable. right. unfold is_running in Hr. by bools.
Qed.
Lemma moves_consistent t t' : rtc move t t' → consistent t → consistent t'.
Proof. induction 1; eauto using move_consistent. Qed.

(** What no move changes. *)
Definition has_ended (e : Execution) : Prop := ex_status e ≠ xs_queued ∧ ex_status e ≠ xs_running.
Lemma move_row t t' id e : move t t' → t !! id = Some e →
  ∃ e', t' !! id = Some e' ∧ ex_binding e' = ex_binding e ∧ ex_parent e' = ex_parent e
    ∧ (has_ended e → e' = e) ∧ (ex_status e ≠ xs_queued → ex_status e' ≠ xs_queued ∧ ex_deadlineAt e' = ex_deadlineAt e).
Proof.
  unfold has_ended. intros H He.
  destruct H as [k e0 [Hk _]%taken_false _ _|k e0 p parent [Hk _]%taken_false|k e0 now w token H Hq|k e0 i now deadline H Ho Hd
                |k e0 c status reason replacement H Hr _ Ho];
    (destruct (decide (k = id)) as [->|];
      [rewrite lookup_insert_eq; simplify_eq|rewrite lookup_insert_ne by done; eauto 10]).
  - eexists. split_and!; [done..| |]; [intros []; congruence|done].
  - apply owned_running in Ho. eexists. split_and!; [done..| |]; [intros []; congruence|done].
  - unfold is_running in Hr. bools. eexists. split_and!; [done..| |]; [intros []; congruence|].
    intros _. split; [|done]. cbn. by intros ->.
Qed.
Lemma moves_row t t' id e : rtc move t t' → t !! id = Some e →
  ∃ e', t' !! id = Some e' ∧ ex_binding e' = ex_binding e ∧ ex_parent e' = ex_parent e
    ∧ (has_ended e → e' = e) ∧ (ex_status e ≠ xs_queued → ex_status e' ≠ xs_queued ∧ ex_deadlineAt e' = ex_deadlineAt e).
Proof.
  intros H. revert e. induction H as [|t t1 t' Hm _ IH]; intros e He; [eauto 10|].
  destruct (move_row _ _ _ _ Hm He) as (e1 & H1 & B1 & P1 & E1 & Q1).
  destruct (IH _ H1) as (e2 & H2 & B2 & P2 & E2 & Q2).
  exists e2. split_and!; [done|congruence|congruence| |].
  - intros Hn. rewrite (E1 Hn) in E2. by apply E2.
  - intros Hn. destruct (Q1 Hn) as [Hq D]. destruct (Q2 Hq). split; congruence.
Qed.

(** ** The statements implement the machine *)

Lemma retry_tx_moves c i role : keeps moves (retry_tx sha1 sha256 c i role).
Proof.
  unfold retry_tx. destruct role as [role|]; [|keeps]. destruct (negb _); [keeps|]. intros d a d' H. apply bind_inr in H as (row & d1 & [-> ->]%reads_inr & H).
  destruct (execution_in i d) as [e|] eqn:E; [|by tx_inv].
  assert (gd_executions d !! ty_executionId i = Some e) as He.
  { unfold execution_in in E. destruct (gd_executions d !! _) as [e0|]; cbn [mbind option_bind] in E; [|done].
    destruct (_ && _); by simplify_eq. }
  destruct (retryable e) eqn:Hr; cbn [negb] in H; [|by tx_inv].
  apply bind_inr in H as (current & d1 & [-> ->]%reads_inr & H). case_match; [by tx_inv|].
  by eapply record_retry_moves.
Qed.
Lemma request_tx_moves c i role repo pr : keeps moves (request_tx sha1 sha256 c i role repo pr).
Proof. unfold request_tx. keeps. Qed.

Lemma first_created_in l x : first_created l = Some x → x ∈ l.
Proof.
  revert x. induction l as [|y l IH]; intros x; cbn [first_created]; [done|].
  destruct (first_created l) as [z|]; [destruct (precedes y z)|]; intros [= <-]; set_solver.
Qed.
Lemma first_selected p t id e : first_created (select_where p t) = Some (id, e) → t !! id = Some e ∧ p id e = true.
Proof. intros H%first_created_in. by apply elem_of_select_where. Qed.

(** A row that can be claimed was never claimed. *)
Lemma claimable_queued now id e : ex_maxAttempts e = 1 → shape e → lease_claimable now id e = true → ex_status e = xs_queued.
Proof.
  unfold lease_claimable, is_running, shape. intros Hm Hs. rewrite Hm.
  destruct (ex_status e); cbn; try done. destruct Hs as (-> & _). by rewrite Z.ltb_irrefl, andb_false_r.
Qed.
Lemma claim_tx_inr c worker token d r d' : claim_tx sha1 sha256 c worker token d = inr (r, d') →
  ∃ t, rtc move (gd_executions d) t ∧ same_generations d d'
    ∧ match r with
      | Some (id, e) => ∃ e0, t !! id = Some e0 ∧ lease_claimable (js_now c) id e0 = true
          ∧ e = leased sha256 (js_now c) worker token e0 ∧ gd_executions d' = <[id := e]> t
      | None => gd_executions d' = t
      end.
Proof.
  unfold claim_tx. intros H. apply bind_inr in H as (stuck & d0 & [-> ->]%reads_inr & H).
  apply bind_inr in H as (u & d1 & H1 & H).
  assert (rtc move (gd_executions d) (gd_executions d1) ∧ same_generations d d1) as [Hm Hg].
  { destruct (first_created (select_where (lease_exhausted _) _)) as [[id e]|] eqn:Hf; [|by tx_inv].
    apply first_selected in Hf as [He Hx]. tx_inv.
    match goal with H : terminalize _ _ _ _ _ _ _ _ = _ |- _ => rename H into Ht end.
    assert (Ht' := Ht). apply terminalize_inr in Ht' as (_ & _ & _ & _ & _ & Hg & _). split; [|done].
    apply rtc_once. unfold lease_exhausted in Hx. bools. eapply end_moves; [done|done|by constructor|done]. }
  exists (gd_executions d1). split; [done|].
  apply bind_inr in H as (candidate & d2 & [-> ->]%reads_inr & H).
  destruct (first_created (select_where (lease_claimable _) _)) as [[id e]|] eqn:Hf; tx_inv; [|done].
  apply first_selected in Hf as [He Hx]. split; [done|]. eauto.
Qed.
Lemma claim_moves c worker token d : consistent (gd_executions d) →
  moves d (claimAcceptanceContextPackRegenerationExecution sha1 sha256 c worker token d).2.
Proof.
  unfold claimAcceptanceContextPackRegenerationExecution, transaction. intros Hc.
  destruct (negb _); [done|]. destruct (claim_tx _ _ _ _ _ d) as [|[r d']] eqn:H; [done|]. cbn.
  apply claim_tx_inr in H as (t & Hm & _ & H). destruct r as [[id e]|]; [|unfold moves; by rewrite H].
  destruct H as (e0 & He & Hx & -> & H). unfold moves. rewrite H. etrans; [done|]. apply rtc_once, mv_claim; [done|].
  destruct (cs_shape _ (moves_consistent _ _ Hm Hc) _ _ He). by eapply claimable_queued.
Qed.
Lemma renew_moves c i d : moves d (renewAcceptanceContextPackRegenerationExecutionLease sha256 c i d).2.
Proof.
  unfold renewAcceptanceContextPackRegenerationExecutionLease. destruct (negb _); [done|].
  destruct (owned_execution _ _ _ d) as [e|] eqn:E; [|done]. apply owned_execution_Some in E as [He Ho].
  destruct (ex_deadlineAt e) eqn:D; [|done]. by eapply rtc_once, mv_renew.
Qed.

Lemma owned_may_end i c e status reason : owned sha256 i (js_now c) e = true → may_end e (js_now c) status reason.
Proof. intros H. by eapply end_by_holder. Qed.
Lemma refuse_inr {A} c i e status reason (a : A) d r d' :
  refuse sha1 c (le_executionId i) e status reason a d = inr (r, d') →
  owned_execution sha256 i (js_now c) d = Some e → outcome_of status None → moves d d' ∧ same_generations d d' ∧ r = a.
Proof.
  unfold refuse. intros H [He Ho]%owned_execution_Some Hs. tx_inv.
  match goal with H : terminalize _ _ _ _ _ _ _ _ = _ |- _ => rename H into Ht end.
  split_and!; [|by apply terminalize_inr in Ht as (_ & _ & _ & _ & _ & ? & _)|done].
  eapply rtc_once, end_moves; [done|done|by eapply owned_may_end|done].
Qed.
Lemma prepare_tx_inr c i d r d' : prepare_tx sha1 sha256 c i d = inr (r, d') → moves d d' ∧ same_generations d d'.
Proof.
  unfold prepare_tx. intros H. apply bind_inr in H as (row & d1 & [-> ->]%reads_inr & H).
  destruct (owned_execution _ _ _ d) as [e|] eqn:Ho; [|by tx_inv].
  assert (∀ A status reason (a r : A) d', refuse sha1 c (le_executionId i) e status reason a d = inr (r, d') →
            outcome_of status None → moves d d' ∧ same_generations d d') as Hr.
  { intros A status reason a r0 d0 H0 Hs. by destruct (refuse_inr _ _ _ _ _ _ _ _ _ H0 Ho Hs) as (? & ? & _). }
  apply bind_inr in H as (x & d1 & [-> ->]%reads_inr & H).
  case_match; [by eapply Hr|]. case_match; [by eapply Hr|].
  apply bind_inr in H as (pack & d1 & [-> ->]%reads_inr & H). apply bind_inr in H as (snapshot & d1 & [-> ->]%reads_inr & H).
  repeat case_match; try (by eapply Hr); by tx_inv.
Qed.
Lemma prepare_moves c i d : moves d (prepareAcceptanceContextPackRegenerationExecution sha1 sha256 c i d).2.
Proof.
  unfold prepareAcceptanceContextPackRegenerationExecution, transaction. destruct (negb _); [done|].
  destruct (prepare_tx _ _ _ _ d) as [|[r d']] eqn:H; [done|].
  by destruct (prepare_tx_inr _ _ _ _ _ H).
Qed.

(** What a replacement does to the generations, and nothing else. *)
Definition exchanged (id packId : string) (b : ExecutionBinding) (d d' : RegenDb) : Prop :=
  ∃ prior p,
    gd_packs d !! ln_priorPackId (xb_lineage b) = Some prior ∧ kr_generation prior = active
    ∧ gd_packs d !! packId = Some p ∧ kr_generation p = provisional ∧ kr_execution p = Some id
    ∧ gd_packs d' = <[packId := activate_pack p]> (<[ln_priorPackId (xb_lineage b) := supersede_pack prior]> (gd_packs d))
    ∧ (pk_sourceSnapshotId (kr_value p) = xb_sourceSnapshotId b ∧ gd_snapshots d' = gd_snapshots d
       ∨ pk_sourceSnapshotId (kr_value p) ≠ xb_sourceSnapshotId b
         ∧ ∃ source s,
             gd_snapshots d !! xb_sourceSnapshotId b = Some source ∧ sr_generation source = active
             ∧ gd_snapshots d !! pk_sourceSnapshotId (kr_value p) = Some s ∧ sr_generation s = provisional
             ∧ sr_execution s = Some id
             ∧ gd_snapshots d' = <[pk_sourceSnapshotId (kr_value p) := activate_snapshot s]>
                 (<[xb_sourceSnapshotId b := supersede_snapshot source]> (gd_snapshots d))).

Lemma one_pack_inr ws id p f d u d' : one_pack ws id p f d = inr (u, d') →
  ∃ r, gd_packs d !! id = Some r ∧ p r = true ∧ d' = with_packs (<[id := f r]> (gd_packs d)) d.
Proof.
  unfold one_pack. intros H. tx_inv.
  match goal with H : (let '(_, _) := update_row _ ?q ?g ?t in _) = _ |- _ =>
    destruct (update_rowP q g id t) as [r Hr Hp|]; simplify_eq end.
  bools. eauto.
Qed.
Lemma one_snapshot_inr ws id p f d u d' : one_snapshot ws id p f d = inr (u, d') →
  ∃ r, gd_snapshots d !! id = Some r ∧ p r = true ∧ d' = with_snapshots (<[id := f r]> (gd_snapshots d)) d.
Proof.
  unfold one_snapshot. intros H. tx_inv.
  match goal with H : (let '(_, _) := update_row _ ?q ?g ?t in _) = _ |- _ =>
    destruct (update_rowP q g id t) as [r Hr Hp|]; simplify_eq end.
  bools. eauto.
Qed.
Lemma swap_inr id packId b p d u d' : swap_generations id packId b p d = inr (u, d') →
  gd_packs d !! packId = Some p → packId ≠ ln_priorPackId (xb_lineage b) → exchanged id packId b d d'.
Proof.
  unfold swap_generations. intros H Hp Hne.
  apply bind_inr in H as (u1 & d1 & (prior & H1 & A1 & ->)%one_pack_inr & H).
  apply bind_inr in H as (u2 & d2 & (q & H2 & A2 & ->)%one_pack_inr & H).
  cbn [gd_packs with_packs] in H2. rewrite lookup_insert_ne in H2 by done.
  assert (q = p) as -> by congruence. bools.
  exists prior, p. split_and!; [done..| |].
  - destruct (_ ≡? _); [by tx_inv|].
    apply bind_inr in H as (u3 & d3 & (? & _ & _ & ->)%one_snapshot_inr & (? & _ & _ & ->)%one_snapshot_inr). done.
  - destruct (pk_sourceSnapshotId (kr_value p) ≡? xb_sourceSnapshotId b) eqn:E; bools; [left; by tx_inv|right].
    split; [done|].
    apply bind_inr in H as (u3 & d3 & (source & S1 & A3 & ->)%one_snapshot_inr & (s & S2 & A4 & ->)%one_snapshot_inr).
    cbn [gd_snapshots with_packs with_snapshots] in S1, S2. rewrite lookup_insert_ne in S2 by done. bools.
    exists source, s. by split_and!.
Qed.

(** ** A completion *)

(** How a completion by the holder ends an execution. *)
Inductive completed (c : Clock) (i : CompleteInput) (e : Execution) (d : RegenDb) : Execution → RegenDb → Prop :=
  | cp_replaced packId d' : co_outcome i = xs_replaced → co_replacement i = Some packId →
      exchanged (le_executionId (co_lease i)) packId (ex_binding e) d d' →
      completed c i e d (ended c xs_replaced (co_reason i) (Some packId) e) d'
  | cp_refused reason status d' : status = xs_not_current ∨ status = xs_not_proven → same_generations d d' →
      completed c i e d (ended c status reason None e) d'
  | cp_other d' : co_outcome i ≠ xs_replaced → co_replacement i = None → same_generations d d' →
      completed c i e d (ended c (co_outcome i) (co_reason i) None e) d'.

Lemma finish_inr c i e status reason replacement d d1 r d' :
  (row ← terminalize sha1 c (le_executionId i) e status reason replacement; mret (Some row)) d1 = inr (r, d') →
  owned_execution sha256 i (js_now c) d = Some e → same_executions d d1 → outcome_of status replacement →
  r = Some (ended c status reason replacement e) ∧ moves d d' ∧ same_generations d1 d'
    ∧ gd_executions d' = <[le_executionId i := ended c status reason replacement e]> (gd_executions d).
Proof.
  intros H [He Ho]%owned_execution_Some Hs Hout. tx_inv.
  match goal with H : terminalize _ _ _ _ _ _ _ _ = _ |- _ => rename H into Ht end.
  assert (Ht' := Ht). apply terminalize_inr in Ht' as (e0 & He0 & _ & -> & Hd & Hg & _).
  rewrite Hs in He0. simplify_eq. rewrite Hs in Hd. split_and!; [done| |done|done].
  unfold moves. rewrite <- Hs. eapply rtc_once, end_moves; [done|by rewrite Hs|by eapply owned_may_end|done].
Qed.
Lemma replacement_rows_Some packId b d p s prior : replacement_rows packId b d = Some (p, s, prior) → gd_packs d !! packId = Some p.
Proof.
  unfold replacement_rows. destruct (gd_packs d !! packId) as [q|]; cbn [mbind option_bind]; [|done].
  destruct (snapshot_in _ _ _), (snapshot_in _ _ _); cbn [mbind option_bind]; try done.
  destruct (_ ≡? _); [|done]. by intros [= -> _ _].
Qed.
Lemma bound_other id packId b p s prior : replacement_bound id packId b p s prior = true → packId ≠ ln_priorPackId (xb_lineage b).
Proof. unfold replacement_bound. intros H. by bools. Qed.

Lemma valid_completion_spec i : valid_completion i = true →
  match co_outcome i with
  | xs_queued | xs_running | xs_not_current => False
  | xs_replaced => from_option isUuid false (co_replacement i) = true
  | _ => from_option isUuid false (co_replacement i) = false
  end.
Proof.
  clear sha256_hex. unfold valid_completion. intros H. bools.
  match goal with H : eqb _ _ = true |- _ => apply eqb_prop in H as <- end.
  destruct (co_outcome i); try done; set_solver.
Qed.

(** What a committed completion leaves. *)
Definition completion (c : Clock) (i : CompleteInput) (d : RegenDb) (r : option Execution) (d' : RegenDb) : Prop :=
  match r with
  | None => d' = d
  | Some e' => ∃ e, owned_execution sha256 (co_lease i) (js_now c) d = Some e ∧ completed c i e d e' d' ∧ moves d d'
      ∧ gd_executions d' = <[le_executionId (co_lease i) := e']> (gd_executions d)
  end.

Section Finishing.
Context (c : Clock) (i : CompleteInput) (d : RegenDb) (e : Execution).
Context (Ho : owned_execution sha256 (co_lease i) (js_now c) d = Some e) (Hv : valid_completion i = true).
Notation finish status reason replacement :=
  (row ← terminalize sha1 c (le_executionId (co_lease i)) e status reason replacement; mret (Some row)).

Lemma finish_refused status reason r d' : status = xs_not_current ∨ status = xs_not_proven →
  finish status reason None d = inr (r, d') → completion c i d r d'.
Proof.
  intros Hs Hf. eapply finish_inr in Hf as (-> & ? & ? & ?); [|done|done|by destruct Hs as [-> | ->]].
  exists e. split_and!; [done|by constructor|done|done].
Qed.
Lemma finish_other r d' : co_outcome i ≠ xs_replaced →
  finish (co_outcome i) (co_reason i) (co_replacement i) d = inr (r, d') → completion c i d r d'.
Proof.
  intros Hne Hf. assert (Hs := valid_completion_spec _ Hv).
  assert (co_replacement i = None) as Hn.
  { assert (Hf' := Hf). apply bind_inr in Hf' as (row & d1 & Ht & _).
    apply terminalize_inr in Ht as (_ & _ & _ & _ & _ & _ & Hx).
    destruct (co_replacement i); [|done]. unfold replacement_exists in Hx. cbn in Hx, Hs.
    destruct (co_outcome i); try done; by rewrite Hs in Hx. }
  rewrite Hn in Hf. eapply finish_inr in Hf as (-> & ? & ? & ?); [|done|done|by destruct (co_outcome i)].
  exists e. split_and!; [done|by constructor|done|done].
Qed.
Lemma finish_replaced packId d1 r d' : co_outcome i = xs_replaced → co_replacement i = Some packId →
  exchanged (le_executionId (co_lease i)) packId (ex_binding e) d d1 → same_executions d d1 →
  finish xs_replaced (co_reason i) (Some packId) d1 = inr (r, d') → completion c i d r d'.
Proof.
  intros Hr Hp Hx Hs Hf. eapply finish_inr in Hf as (-> & ? & [G1 G2] & ?); [|done|done|by eexists].
  exists e. split_and!; [done| |done|done]. constructor; [done|done|].
  unfold exchanged in *. by rewrite G1, G2.
Qed.
End Finishing.

Lemma complete_tx_inr c i d r d' : valid_completion i = true → complete_tx sha1 sha256 c i d = inr (r, d') → completion c i d r d'.
Proof.
  unfold complete_tx. intros Hv H. apply bind_inr in H as (row & d1 & [-> ->]%reads_inr & H).
  destruct (owned_execution _ _ _ d) as [e|] eqn:Ho; [|by tx_inv].
  apply bind_inr in H as (x & d1 & [-> ->]%reads_inr & H).
  destruct (negb _ && negb _) in H; [eapply finish_refused; [done| |done]; tauto|].
  destruct (decide (co_outcome i = xs_replaced)) as [Hr|Hne].
  2: { eapply finish_other; [done..|]. by destruct (co_outcome i). }
  assert (Hs := valid_completion_spec _ Hv). rewrite Hr in Hs, H.
  destruct (co_replacement i) as [packId|] eqn:Hp; [|done].
  apply bind_inr in H as (rows & d1 & [-> ->]%reads_inr & H).
  destruct (replacement_rows _ _ d) as [[[p s] prior]|] eqn:Hrows; [|eapply finish_refused; [done| |done]; tauto].
  destruct (replacement_bound _ _ _ p s prior) eqn:Hb; cbn [negb] in H; [|eapply finish_refused; [done| |done]; tauto].
  apply bind_inr in H as (proven & d1 & [-> ->]%reads_inr & H).
  destruct (negb _); [eapply finish_refused; [done| |done]; tauto|].
  apply bind_inr in H as (u & d1 & Hswap & H).
  eapply finish_replaced; [done..| | |done].
  - eapply swap_inr; [done|by eapply replacement_rows_Some|by eapply bound_other].
  - by eapply swap_executions.
Qed.
Lemma complete_moves c i d : moves d (completeAcceptanceContextPackRegenerationExecution sha1 sha256 c i d).2.
Proof.
  unfold completeAcceptanceContextPackRegenerationExecution, transaction.
  destruct (valid_completion i) eqn:Hv; [|done]. cbn [negb].
  destruct (complete_tx _ _ _ _ d) as [|[[e'|] d']] eqn:H; [done| |]; apply (complete_tx_inr _ _ _ _ _ Hv) in H; cbn.
  - by destruct H as (e & _ & _ & ? & _).
  - by rewrite H.
Qed.

(** ** Histories *)

Lemma step_moves d d' : consistent (gd_executions d) → regen_step d d' → moves d d'.
Proof.
  intros Hc [x|c s execution|c p execution|s c i role|s c i role|c worker token|c i|c i|c i].
  - apply rtc_refl.
  - apply keeps_same_moves, record_snapshot_executions.
  - apply keeps_same_moves, record_pack_executions.
  - unfold recordAcceptanceContextPackRegenerationRequest. destruct (negb _); [done|].
    destruct (request_candidate i s) as [[repo [pr|]]|]; [|done..].
    apply keeps_transaction; [apply _|apply request_tx_moves].
  - unfold retryAcceptanceContextPackRegenerationExecution. destruct (negb _); [done|].
    destruct (execution_in i s); [|done]. apply keeps_transaction; [apply _|apply retry_tx_moves].
  - by apply claim_moves.
  - apply renew_moves.
  - apply prepare_moves.
  - apply complete_moves.
Qed.
Lemma history_moves d d' : consistent (gd_executions d) → rtc regen_step d d' → moves d d' ∧ consistent (gd_executions d').
Proof.
  intros Hc H. induction H as [|d d1 d' Hs _ IH]; [done|].
  assert (Hm := step_moves _ _ Hc Hs). destruct (IH (moves_consistent _ _ Hm Hc)) as [Hm' ?]. split; [by etrans|done].
Qed.
Lemma consistent_empty : consistent ∅.
Proof. by split. Qed.

(** The executor is a history of its own. *)
Definition runs_history {A} (m : act A) : Prop := ∀ d, rtc regen_step d (m d).2.
Lemma and_then_history {A B} (m : act A) (f : A → act B) :
  runs_history m → (∀ a, runs_history (f a)) → runs_history (and_then m f).
Proof.
  intros Hm Hf d. unfold and_then. specialize (Hm d). destruct (m d) as [[a|] d1]; [|done]. etrans; [done|apply Hf].
Qed.
Lemma committed_history {E A} (f : RegenDb → (E + A) * RegenDb) :
  (∀ d, rtc regen_step d (f d).2) → runs_history (committed_run f).
Proof. intros Hf d. unfold committed_run. specialize (Hf d). by destruct (f d) as [[|] d1]. Qed.
Lemma done_history {A} (a : A) : runs_history (done a).
Proof. by intros d. Qed.
Lemma committed_step {E A} (f : RegenDb → (E + A) * RegenDb) :
  (∀ d, regen_step d (f d).2) → runs_history (committed_run f).
Proof. intros Hf. apply committed_history. intros d. by apply rtc_once. Qed.
Lemma resolve_history ws id x : runs_history (committed_run (transaction
  (resolveAcceptanceContextPackCustodyInTransaction sha256 ws id x))).
Proof.
  apply committed_history. intros d.
  assert (keeps (=) (resolveAcceptanceContextPackCustodyInTransaction sha256 ws id x)) as H.
  { unfold resolveAcceptanceContextPackCustodyInTransaction. keeps. }
  rewrite <- (keeps_transaction (=) _ d H) at 1. done.
Qed.
Lemma finish_history at_ i outcome replacement reason : runs_history (finish sha1 sha256 at_ i outcome replacement reason).
Proof.
  unfold finish. apply and_then_history; [|intros; apply done_history].
  apply committed_step. intros d. apply st_complete.
Qed.
Lemma source_history at_ i o unchanged e s : runs_history (regeneration_source sha1 sha256 at_ i o unchanged e s).
Proof.
  assert (∀ id, runs_history (and_then (committed_run (transaction (resolveAcceptanceContextPackCustodyInTransaction sha256
            (sn_workspaceId s) id (Some (le_executionId i))))) (λ row, done (id, row)))) as Hr.
  { intros id. apply and_then_history; [apply resolve_history|intros; apply done_history]. }
  unfold regeneration_source. destruct unchanged; [apply Hr|].
  apply and_then_history; [|intros r; apply Hr]. apply committed_step. intros d. apply st_snapshot.
Qed.
Lemma execute_history at_ i o : runs_history (executeAcceptanceContextPackRegeneration sha1 sha256 at_ i o).
Proof.
  assert (Hf := finish_history).
  assert (runs_history (execute_body sha1 sha256 at_ i o)) as Hb.
  { unfold execute_body. apply and_then_history; [apply committed_step; intros d; apply st_prepare|].
    intros [e row p| | |]; [|apply done_history..].
    repeat (destruct (negb _); [apply Hf|]). destruct (_ && _); [apply Hf|].
    apply and_then_history; [apply source_history|]. intros custody. destruct (negb _); [apply Hf|].
    destruct (ou_content o); [apply Hf|]. destruct (ou_compile o _ _); [apply Hf|].
    apply and_then_history; [apply committed_step; intros d; apply st_pack|].
    intros r. destruct (_ ≡? _); apply Hf. }
  intros d. unfold executeAcceptanceContextPackRegeneration. specialize (Hb d).
  destruct (execute_body _ _ _ _ _ d) as [[r|] d1]; [done|]. etrans; [done|apply Hf].
Qed.

(** ** What a regeneration guarantees *)

(** C3 (refinement).  Over any history of requests, retries, claims, renewals,
    preparations, completions, recordings of snapshots and Packs, and any steps of
    the rest of the program on the Change Records, the table of executions moves
    only as the abstract machine does: a row is created queued, as a root or as
    the one retry of a root that ended retryable; it is claimed only while queued;
    only the holder of an unexpired lease renews it, up to its deadline; and only
    the holder, or anyone once the lease is over and then only as held, ends it. *)
Theorem regeneration_implements_machine d0 d :
  gd_executions d0 = ∅ → rtc regen_step d0 d → rtc move ∅ (gd_executions d).
Proof. intros He H. destruct (history_moves d0 d) as [Hm _]; [rewrite He; apply consistent_empty|done|by rewrite <- He]. Qed.

(** C4 (invariant).  After any such history the rows satisfy the schema's state
    check without its help: a claim, a token and a lease exactly while running, a
    lease within the deadline, a completion time and a reason exactly once ended, a
    replacement exactly when replaced; at most one attempt is ever counted; a
    parent has at most one retry, is a root itself and ended in a way a human may
    retry, and a lineage has one root per generation. *)
Theorem execution_table_consistent d0 d : gd_executions d0 = ∅ → rtc regen_step d0 d →
  (∀ id e, gd_executions d !! id = Some e →
     state_check e = true ∧ ex_maxAttempts e = 1 ∧ ex_attemptCount e = (if ex_status e ≡? xs_queued then 0 else 1)
     ∧ ∀ p, ex_parent e = Some p → ∃ parent, gd_executions d !! p = Some parent ∧ ex_parent parent = None
         ∧ retryable parent = true ∧ ex_binding parent = ex_binding e)
  ∧ (∀ id1 id2 e1 e2, gd_executions d !! id1 = Some e1 → gd_executions d !! id2 = Some e2 →
       ex_parent e1 = ex_parent e2 → ex_parent e1 ≠ None ∨ ex_binding e1 = ex_binding e2 → id1 = id2).
Proof.
  intros He H. destruct (history_moves d0 d) as [_ [Hs Hc Hr Hp]]; [rewrite He; apply consistent_empty|done|]. split.
  - intros id e Hid. destruct (Hs _ _ Hid) as [Hm Hsh]. split_and!; [by apply shape_state_check|done| |].
    + unfold shape in Hsh. destruct (ex_status e); by destruct Hsh as [-> _].
    + intros p Hpar. destruct (Hp _ _ _ Hid Hpar) as (q & Hq & Hret & Hb). exists q. split_and!; [done| |done|done].
      by apply retryable_ended in Hret as (_ & _ & ?).
  - intros id1 id2 e1 e2 H1 H2 E [N|B]; [by eapply Hc|].
    destruct (ex_parent e1) as [p|] eqn:P; [eapply Hc; [done|done|congruence|congruence]|].
    eapply Hr; [done|done|done|by symmetry|congruence|congruence].
Qed.

(** C1 (safety).  Once an execution was claimed, no later history claims it again,
    and its deadline never moves; once it has ended its row never changes; and what
    it was requested for stays what it was.  So each request or retry is worked on
    once at most, by one worker. *)
Theorem execution_claimed_once d0 d d' id e :
  gd_executions d0 = ∅ → rtc regen_step d0 d → rtc regen_step d d' → gd_executions d !! id = Some e →
  ∃ e', gd_executions d' !! id = Some e' ∧ ex_binding e' = ex_binding e ∧ ex_parent e' = ex_parent e
    ∧ (has_ended e → e' = e)
    ∧ (ex_status e ≠ xs_queued → ex_deadlineAt e' = ex_deadlineAt e ∧
         ∀ c worker token claimed d'',
           claimAcceptanceContextPackRegenerationExecution sha1 sha256 c worker token d' = (inr (Some claimed), d'') →
           claimed.1 ≠ id).
Proof.
  intros He H0 H Hid.
  assert (consistent (gd_executions d)) as Hc by (eapply history_moves; [|done]; rewrite He; apply consistent_empty).
  destruct (history_moves _ _ Hc H) as [Hm Hc']. destruct (moves_row _ _ _ _ Hm Hid) as (e' & H' & B & P & E & Q).
  exists e'. split_and!; [done..|]. intros Hq. destruct (Q Hq) as [Hq' D]. split; [done|].
  intros c worker token [k x] d'' Hcl. unfold claimAcceptanceContextPackRegenerationExecution, transaction in Hcl.
  destruct (negb _); [done|]. destruct (claim_tx _ _ _ _ _ d') as [|[r d1]] eqn:Ht; [done|]. simplify_eq.
  apply claim_tx_inr in Ht as (t & Hmt & _ & e0 & He0 & Hx & _ & _). cbn. intros ->.
  destruct (cs_shape _ (moves_consistent _ _ Hmt Hc') _ _ He0) as [Hmax Hsh].
  destruct (moves_row _ _ _ _ Hmt H') as (e1 & H1 & _ & _ & _ & Q1). simplify_eq. destruct (Q1 Hq') as [Hn _].
  by apply Hn, (claimable_queued (js_now c) id).
Qed.

(** C2 (functional).  A completion changes nothing unless it comes from the holder
    of an unexpired lease; then it ends that execution and no other, and either it
    is the replacement it was asked to be - in one transaction the prior Pack goes
    from active to superseded and the Pack this execution recorded from provisional
    to active, with their snapshots if the source is a new one, and no other Pack
    or snapshot changes - or no Pack and no snapshot changes at all. *)
Theorem completion_exchanges c i d r d' :
  completeAcceptanceContextPackRegenerationExecution sha1 sha256 c i d = (inr r, d') →
  match r with
  | None => d' = d
  | Some e' => ∃ e, owned_execution sha256 (co_lease i) (js_now c) d = Some e ∧ completed c i e d e' d'
      ∧ gd_executions d' = <[le_executionId (co_lease i) := e']> (gd_executions d)
  end.
Proof.
  unfold completeAcceptanceContextPackRegenerationExecution, transaction.
  destruct (valid_completion i) eqn:Hv; cbn [negb]; [|by intros [= <- <-]].
  destruct (complete_tx _ _ _ _ d) as [|[r0 d1]] eqn:H; [done|]. intros [= -> ->].
  apply (complete_tx_inr _ _ _ _ _ Hv) in H. destruct r; [|done].
  destruct H as (e0 & ? & ? & _ & ?). eauto.
Qed.
End Facts.

(** ** A regeneration, from the first Pack to the second *)

Module SampleRegeneration.
#[export] Instance permissive : ContextCustody :=
  Build_ContextCustody (λ _, true) (λ _, true) (λ _ _, true) (λ _ _, true) (λ _ _, true) (λ _, true) (λ _ _ _, true)
    (λ _ _ _, true) (λ _, true).
Definition sha256 (_ : string) : string := "00000000000000000000000000000000000000000000000000000000000000ab".
Definition uuid (n : string) : string := "0000000" +:+ n +:+ "-0000-4000-8000-000000000000".
Definition head_sha : string := "aaaaaaaaaaaaaaaaaaaaaaaaaaaaaaaaaaaaaaaa".
Definition user : string := "user:" +:+ uuid "5".
Definition record : ChangeRecord :=
  mkChangeRecord (uuid "1") "o/n" None None (JArr []) None (Some 7) (Some head_sha) (Some (uuid "3")) true 1 [head_sha] None
    "open" 0 0.
Definition contract : AcceptanceContract :=
  mkAcceptanceContract (uuid "2") 1 "confirmed" (JObj []) "u" (Some "u") (Some 1) 0.
Definition job : ReviewJob := mkReviewJob (uuid "1") "o/n" 7 head_sha "opened" rj_queued 0 None None None None None None None 0 0.
Definition start : RegenDb :=
  mkRegenDb (mkRecordDb {[uuid "2" := record]} {[uuid "4" := contract]} ∅ ∅ ∅ {[uuid "3" := job]} ∅) ∅ ∅ ∅.
Definition at_minute (n : Z) : Clock := mkClock (minutes n) (minutes n).
Definition wiki (revision : string) : json :=
  JObj [("revisionSha256", JStr revision); ("pages", JArr []); ("gaps", JArr [])].
Definition snapshot : Snapshot :=
  mkSnapshot (uuid "1") (uuid "2") (uuid "3") (uuid "4") 1 (Some (sha256 "")) "o/n" 7 head_sha (Some "b") (Some "m") (Some "t") []
    "ps" (Some "pp") "v1" (wiki "A") (JObj [("files", JArr [])]) (JObj []) "admitted" None.
Definition pack (source : string) : Pack :=
  mkPack (uuid "1") source "c1" "p1" "x" "y" "j" "m" 10 (JObj []) (JObj []) (JObj []) (JArr []).
Definition source_id : string := acceptanceContextPackSnapshotId sum_sha1 snapshot.
Definition pack_id : string := acceptanceCompiledContextPackId sum_sha1 source_id "c1" "p1".
Definition token : string := "aaaaaaaaaaaaaaaaaaaaaaaaaaaaaaaaaaaaaaaaaaa".

(** The Pack is recorded, found stale, and its regeneration claimed. *)
Definition stored : RegenDb :=
  (transaction (recordAcceptanceContextPackSnapshot sum_sha1 sha256 (at_minute 1) snapshot None) start).2.
Definition compiled : RegenDb :=
  (transaction (recordAcceptanceCompiledContextPack sum_sha1 sha256 (at_minute 2) (pack source_id) None) stored).2.
Definition requested : RegenDb :=
  (recordAcceptanceContextPackRegenerationRequest sum_sha1 sha256 compiled (at_minute 3)
     (mkRequestInput (uuid "1") (uuid "2") pack_id "stale" user (Some (uuid "6"))) (Some "owner") compiled).2.
Definition claims (n : Z) (d : RegenDb) := claimAcceptanceContextPackRegenerationExecution sum_sha1 sha256 (at_minute n) "w" token d.
Definition claimed_id (n : Z) (d : RegenDb) : string := match (claims n d).1 with inr (Some (id, _)) => id | _ => "" end.
Definition lease_of (id : string) : LeaseInput := mkLeaseInput id "w" token.
Definition claimed : RegenDb := (claims 4 requested).2.
Definition root_id : string := claimed_id 4 requested.

(** The Wiki has moved to [B]; the credential for GitHub is there or not. *)
Definition outside (credential : bool) : Outside :=
  mkOutside true (wiki "B") credential None (λ id _, inr (pack id)) "c1" "p1".
Definition execute (n : Z) (id : string) (credential : bool) (d : RegenDb) : RegenDb :=
  (executeAcceptanceContextPackRegeneration sum_sha1 sha256 (λ _, at_minute n) (lease_of id) (outside credential) d).2.
Definition replaced : RegenDb := execute 4 root_id true claimed.
Definition without_credential : RegenDb := execute 4 root_id false claimed.
Definition retry := retryAcceptanceContextPackRegenerationExecution sum_sha1 sha256 without_credential (at_minute 5)
  (mkRetryInput (uuid "1") (uuid "2") root_id user) (Some "owner") without_credential.
Definition retry_claimed : RegenDb := (claims 6 retry.2).2.
Definition child_id : string := claimed_id 6 retry.2.
Definition retry_executed : RegenDb := execute 6 child_id true retry_claimed.

Definition outcome (id : string) (d : RegenDb) : option (ExecutionStatus * option string) :=
  (λ e, (ex_status e, ex_outcomeReason e)) <$> gd_executions d !! id.
Definition generations (d : RegenDb) : list (string * Generation) :=
  (λ kr, (kr.1, kr_generation kr.2)) <$> map_to_list (gd_packs d).

Lemma start_claimed : rtc (regen_step sum_sha1 sha256) start claimed.
Proof.
  eapply rtc_l; [apply (st_snapshot _ _ _ (at_minute 1) snapshot None)|].
  eapply rtc_l; [apply (st_pack _ _ _ (at_minute 2) (pack source_id) None)|].
  eapply rtc_l; [apply (st_request _ _ _ compiled (at_minute 3)
    (mkRequestInput (uuid "1") (uuid "2") pack_id "stale" user (Some (uuid "6"))) (Some "owner"))|].
  apply rtc_once, (st_claim _ _ _ (at_minute 4) "w" token).
Qed.
Lemma claimed_replaced : rtc (regen_step sum_sha1 sha256) claimed replaced.
Proof. apply execute_history. Qed.
Lemma sha256_is_hex s : lower_hex 64 (sha256 s) = true.
Proof. vm_compute. reflexivity. Qed.
End SampleRegeneration.
Import SampleRegeneration.

(** The first execution records its provisional snapshot before it
    looks for the credential, and is held, retryable, when there is none; its retry
    finds that snapshot, which belongs to its parent, and is held as ambiguous,
    not retryable, although the credential is now there - with which the first
    execution would have replaced the Pack. *)
Theorem retry_blocked_by_provisional :
  outcome root_id without_credential = Some (xs_held, Some "github_credential_unavailable")
  ∧ from_option canHumanRetryAcceptanceContextPackRegenerationExecution false (gd_executions without_credential !! root_id) = true
  ∧ (∃ e, retry.1 = inr (ry_done true child_id e))
  ∧ outcome child_id retry_executed = Some (xs_held, Some "execution_ambiguous")
  ∧ generations retry_executed = [(pack_id, active)]
  ∧ outcome root_id replaced = Some (xs_replaced, Some "compiler_output_replaced").
Proof. split_and!; try (vm_compute; reflexivity). eexists. vm_compute. reflexivity. Qed.

Lemma regeneration_implements_machine_witness :
  gd_executions start = ∅ ∧ rtc (move sha256) ∅ (gd_executions replaced).
Proof.
  split; [reflexivity|]. apply (regeneration_implements_machine sum_sha1 sha256 sha256_is_hex start); [reflexivity|].
  etrans; [apply start_claimed|apply claimed_replaced].
Defined.

Lemma execution_table_consistent_witness :
  gd_executions start = ∅ ∧
  ∃ e, gd_executions replaced !! root_id = Some e ∧ state_check e = true.
Proof.
  assert (rtc (regen_step sum_sha1 sha256) start replaced) as H by (etrans; [apply start_claimed|apply claimed_replaced]).
  split; [reflexivity|].
  destruct (execution_table_consistent sum_sha1 sha256 sha256_is_hex start replaced eq_refl H) as [Hrows _].
  assert (is_Some (gd_executions replaced !! root_id)) as [e He] by (vm_compute; eauto).
  exists e. split; [exact He|]. exact (proj1 (Hrows _ _ He)).
Defined.
Lemma execution_claimed_once_witness :
  gd_executions start = ∅ ∧
  ∃ e e', gd_executions claimed !! root_id = Some e ∧ ex_status e = xs_running
    ∧ gd_executions replaced !! root_id = Some e' ∧ ex_binding e' = ex_binding e.
Proof.
  split; [reflexivity|].
  assert (∃ e, gd_executions claimed !! root_id = Some e ∧ ex_status e = xs_running) as (e & He & Hs)
    by (eexists; split; vm_compute; reflexivity).
  destruct (execution_claimed_once sum_sha1 sha256 sha256_is_hex start claimed replaced root_id e eq_refl
              start_claimed claimed_replaced He) as (e' & H' & B & _).
  exists e, e'. auto.
Defined.
Definition completion_of (id : string) : CompleteInput :=
  mkCompleteInput (lease_of id) xs_unchanged None "compiler_output_unchanged".
Lemma completion_exchanges_witness :
  ∃ e' d' e, completeAcceptanceContextPackRegenerationExecution sum_sha1 sha256 (at_minute 4) (completion_of root_id) claimed
               = (inr (Some e'), d')
    ∧ owned_execution sha256 (lease_of root_id) (js_now (at_minute 4)) claimed = Some e
    ∧ completed (at_minute 4) (completion_of root_id) e claimed e' d'.
Proof.
  destruct (completeAcceptanceContextPackRegenerationExecution sum_sha1 sha256 (at_minute 4) (completion_of root_id) claimed)
    as [[err|[e'|]] d'] eqn:E; [exfalso; vm_compute in E; discriminate E| |exfalso; vm_compute in E; discriminate E].
  destruct (completion_exchanges sum_sha1 sha256 (at_minute 4) (completion_of root_id) claimed (Some e') d' E) as (e & Ho & Hc & _).
  exists e', d', e. auto.
Defined.
